(* ===== verification/_CoqProject ===== *)
-Q . S2P
Prelude.v
Layout.v
Ports.v
Spinlock.v
CString.v
Ulib.v
Apic.v
ApicSpec.v
Mp.v
MpSpec.v
PTable.v
RunQueue.v
Proc.v
Sched.v
Mlfq.v
ProcSpec.v
WaitExit.v
Kalloc.v
Vm.v
VmSpec.v
Kvm.v
Sleeplock.v
Bio.v
BioSpec.v
Ide.v
IdeSpec.v
Log.v
LogSpec.v
LogCrash.v
LogOps.v
Grep.v
Printf.v
Console.v
Kbd.v
ConsoleSpec.v
Umalloc.v
Pipe.v
Fs.v
FsTx.v
FsBlocks.v
FsFile.v
FsRw.v
FsInode.v
FsDir.v
FsSpec.v
Mkfs.v
MkfsSpec.v
MkfsImage.v
File.v
FileSpec.v
FileWrite.v
Syscall.v
Exec.v
ExecSpec.v
Sysproc.v
Trap.v
Sysfile.v
SysfileSpec.v
Sh.v
ShLex.v
ShSpec.v
ShRun.v
Asm.v
AsmSpec.v
Boot.v
BootSpec.v
Entry.v
EntrySpec.v
Start.v
StartSpec.v
UProg.v
Utils.v
UtilsSpec.v
