(* ===== verification/Prelude.v ===== *)
(** * A verification library for the Customised-Xv6 kernel

    Customised-Xv6 is the teaching kernel xv6 for 32-bit x86 multiprocessors with changed
    schedulers (DEFAULT, FCFS, PBS and MLFQ) and some more system calls. A process enters
    the kernel in [trap] (trap.c), system calls fetch their arguments (syscall.c) and go to
    sysproc.c or sysfile.c. The former work on the process table (proc.c), whose run queues
    the schedulers serve. The latter work on open files (file.c), which are pipes (pipe.c) or
    inodes (fs.c); inodes live in blocks that are changed in transactions (log.c), through
    the buffer cache (bio.c), on the disk (memide.c or ide.c). Memory comes from the page
    allocator (kalloc.c) and is mapped by vm.c. The boot loader (bootmain.c) reads the kernel
    from a disk after bootasm.S has switched the processor to protected mode, entry.S turns
    paging on, and main.c starts the other processors through entryother.S; mkfs.c makes the
    disk of the file system on another machine. At the bottom
    are the assembly of traps and context switches and the interrupt controllers (lapic.c,
    ioapic.c, picirq.c, mp.c). User programs are the shell, the small utilities and the C
    library.

    ** How code becomes definitions

    - Integers are [Z]; where the C type wraps, the wrap is written ([u8], [u32], [s32]).
      Memory is a function from addresses to bytes ([mem]) where the code depends on layout
      (strings, the free list, page tables, user memory), and typed records elsewhere.
    - Code that changes state is in the monad [M S A] of this file, a function from a state
      to an outcome: [Done] with a result, [Panic] (the code calls panic, or dereferences a
      pointer that C leaves undefined), or [Blocked] (it sleeps or spins). Components with
      their own state are joined by lenses and [zoom].
    - [returns m s Q] is total correctness: the code returns, without panic or blocking, and
      [Q] holds. [yields m s Q] is partial correctness, used where sleeping and panicking
      are legitimate ends; [keeps f m] says that an operation leaves [f] of the state alone.
    - A stretch of code under a spin lock is one atomic step. Concurrency is a step relation
      between such stretches, or between single instructions for the spin lock itself. Code
      that calls [sched] is split at the context switch.
    - A pointer to an element of a static table is its index.

    ** Files

    - Layout: constants and macros of param.h, memlayout.h, mmu.h, fs.h, fcntl.h, stat.h,
      traps.h and elf.h. Ports: the port instructions of x86.h.
    - Spinlock: spinlock.c; [Smp] shows mutual exclusion for any number of processors.
    - CString, Ulib: string.c and ulib.c on byte memory; memmove against overlapping copies.
    - Apic, ApicSpec, Mp, MpSpec: lapic.c, ioapic.c, picirq.c and mp.c; the clock is read
      consistently, interrupts go where the drivers asked, and mpinit ends exactly on tables
      of known entries.
    - PTable, RunQueue: [struct proc], the table, the circular run queues and the invariant
      that a process is RUNNABLE exactly when it is queued, once, where [p->queue] says.
    - Proc, ProcSpec, WaitExit: fork, exit, wait, waitx, sleep, wakeup, kill, growproc and
      the rest of proc.c's calls, and what each does on every branch.
    - Sched, Mlfq: the four policies and the scheduler loop; [Mlfq.Smp] runs the MLFQ
      schedulers of several processors against forks, wakeups, kills, sleeps and exits.
    - Kalloc, Vm, VmSpec: kalloc.c with the list inside the free pages, vm.c on page tables
      in the same memory; no page is handed out twice, and mappages is an update of the map
      from addresses to entries. Kvm: the table and the segments the kernel itself runs with.
    - Sleeplock, Bio, BioSpec: sleep locks; the buffer cache as an LRU ring, refining a block
      store.
    - Ide, IdeSpec: ide.c, which with its queue and interrupts refines the disk of memide.c.
    - Log, LogSpec, LogCrash, LogOps: log.c; a commit is atomic however often the machine
      crashes, also during recovery, and begin_op .. end_op is an atomic multi-block update.
    - Fs, FsTx, FsBlocks, FsFile, FsRw, FsInode, FsDir, FsSpec: fs.c. FsTx is the interface
      that the log promises to the file system; over it, files, inodes, the free map and
      directories are shown to give back what was written.
    - Mkfs, MkfsSpec, MkfsImage: mkfs.c; its image is a file system as FsSpec assumes it.
    - Pipe, File, FileSpec, FileWrite: pipe.c and file.c; pipes are bounded queues, the file
      table never refers to a dead pipe, and a write through filewrite is durable.
    - Syscall, Exec, ExecSpec, Sysproc, Sysfile, SysfileSpec, Trap: argument checks, exec,
      every system call of sysproc.c and sysfile.c, and trap.
    - Console, Kbd, ConsoleSpec: console.c, kbd.c, uart.c and procdump; the line discipline
      refines two lists and never leaves a reader asleep with input available.
    - Sh, ShLex, ShSpec, ShRun: sh.c; the parser accepts exactly a grammar, and the programs
      of a line are started with exactly the descriptors it asks for.
    - Asm, AsmSpec: swtch.S, trapasm.S, vectors.pl and usys.S on a machine with registers and
      memory; they lay out and restore the records that Proc, Trap and Syscall work with.
    - Boot, BootSpec: bootmain.c, which puts the segments of the kernel in place.
    - Entry, EntrySpec: bootasm.S, entry.S and entryother.S on a machine with segments, control
      registers and paging; no instruction faults, whatever other processors write elsewhere
      meanwhile. Start, StartSpec: [startothers] of main.c interleaved with the processors it
      starts, each of which comes up on a stack of its own.
    - Grep, Printf, Umalloc: grep.c, printf.c, umalloc.c.
    - UProg, Utils, UtilsSpec: programs as trees of their system calls, and cat, echo, grep,
      init, kill, ln, ls, mkdir, nice, rm, wc and zombie as such trees.

    ** Interfaces and parameters

    [KernelEnv] (Proc) is what proc.c needs of memory, files and the file system; [Devices]
    (Trap) are the interrupt routines, [DevSw] (Fs) the device switch table. The theorems
    about their clients hold for every instance. The routines behind [Devices] and [DevSw]
    that Console and Kbd model have a state of their own and are not plugged in as
    instances. Devices are interfaces: [Ports] and [Mmio] are the instructions, and [AtaBus]
    (IdeSpec), [Rtc], [IoApic] and [LocalApic] (ApicSpec) and [Kbc] (EntrySpec) what the data
    sheets promise of the disk, the clock, the interrupt controllers and the keyboard
    controller, whose address line 20 is [Gate20] (Entry). [Kernel] (UProg) answers the system calls
    of a program, and [Streams] (UtilsSpec) says what files and directories answer. mkfs has
    the byte order of its host as a parameter. [sbrk], and in AsmSpec the bodies of [trap]
    and [forkret], which only have to return like C functions, are parameters.

    ** Fuel

    Loops that are not structural take fuel. It is the length of what they run over where
    that is known: NBUF for the ring of buffers, the bytes left for readi, writei and
    filewrite, the path for namex, the 128 characters of the console for its kill-line loop,
    ten digits for a 32-bit number. The shell's parser takes the rest of the line, and ShSpec
    proves that it never runs out. Strings in byte memory take a bound that has to exceed
    their length, which the theorems about them assume. Loops that poll a device take the
    number of turns after which its interface promises an answer, and loops over the reads of
    a file more than the file has reads.

    ** Theorems that show defects

    Some theorems prove that the code does not do what it means to: a writer killed at a full
    pipe leaves its reader asleep ([Pipe.pipe_lost_wakeup]), MLFQ ageing takes another process
    off the queue than the one it promotes ([Mlfq.ageing_loses_process]), uva2ka follows a
    null pointer ([VmSpec.uva2ka_null]), mpinit spins on an unknown entry ([MpSpec.mpinit_spec]),
    a failed read of the disk counts as done ([IdeSpec.read_error_marks_valid]), and mkfs
    leaves a hole in a full root directory ([MkfsImage.full_root_has_hole]).
    [Mlfq.Smp.scheduler_safe] is about the schedulers without ageing.

    ** Not modelled

    - initcode.S, of [main] (main.c) the order of its calls after [kvmalloc],
      and the instructions of bootasm.S and entryother.S behind calls that do not come back.
    - In the console, the inode lock that consoleread and consolewrite release meanwhile.
    - Messages that exec, trap, syscall, iinit, ioapicinit and mkfs print.
    - The test and benchmark programs, which define no behaviour of the system.
    - Weak memory: instructions of different processors interleave. *)

From stdpp Require Import base tactics numbers list gmap strings.
From Stdlib Require Import ZArith Lia ZifyNat.

(** ** Scope and arithmetic automation *)

Declare Scope kernel_scope.
Delimit Scope kernel_scope with kernel.
Open Scope Z_scope.

(** [zlia] is [lia] with the division and modulus equations of every
    [_ / k] and [_ mod k] of the goal added. *)
Ltac zlia := zify; Z.to_euclidean_division_equations; lia.

(** ** Machine-width integers

    Every C integer is kept in [Z] and wrapped at its width where the code can
    wrap: [u32] is [uint], [s32] is [int], [u16]/[s16] are [ushort]/[short],
    [u8]/[s8] are [uchar]/[char]. *)

Definition u8 (z : Z) : Z := z mod 256.
Definition s8 (z : Z) : Z := (z + 128) mod 256 - 128.
Definition u16 (z : Z) : Z := z mod 65536.
Definition s16 (z : Z) : Z := (z + 32768) mod 65536 - 32768.
Definition u32 (z : Z) : Z := z mod 4294967296.
Definition s32 (z : Z) : Z := (z + 2147483648) mod 4294967296 - 2147483648.

Lemma u8_range z : 0 <= u8 z < 256.
Proof. unfold u8. zlia. Qed.

Lemma u32_range z : 0 <= u32 z < 4294967296.
Proof. unfold u32. zlia. Qed.

Lemma s32_range z : -2147483648 <= s32 z < 2147483648.
Proof. unfold s32. zlia. Qed.

Lemma u32_small z : 0 <= z < 4294967296 -> u32 z = z.
Proof. intros. apply Z.mod_small. lia. Qed.

Lemma s32_small z : -2147483648 <= z < 2147483648 -> s32 z = z.
Proof. intros. unfold s32. rewrite Z.mod_small; lia. Qed.

Lemma u32_s32 z : u32 (s32 z) = u32 z.
Proof. unfold u32, s32. zlia. Qed.

Lemma s32_u32 z : s32 (u32 z) = s32 z.
Proof. unfold u32, s32. zlia. Qed.

Lemma u32_u32 z : u32 (u32 z) = u32 z.
Proof. unfold u32. zlia. Qed.

Lemma u32_add_l a b : u32 (u32 a + b) = u32 (a + b).
Proof. unfold u32. zlia. Qed.

Lemma u32_add_r a b : u32 (a + u32 b) = u32 (a + b).
Proof. unfold u32. zlia. Qed.

Lemma u32_sub_l a b : u32 (u32 a - b) = u32 (a - b).
Proof. unfold u32. zlia. Qed.

Lemma u32_sub_r a b : u32 (a - u32 b) = u32 (a - b).
Proof. unfold u32. zlia. Qed.

Create Rewrite HintDb u32.
#[export] Hint Rewrite u32_s32 s32_u32 u32_u32 u32_add_l u32_add_r u32_sub_l
  u32_sub_r : u32.

(** ** Byte-addressed memory

    The kernel sees physical memory through one direct mapping, so a memory is
    a total map from addresses to bytes; words are little-endian. *)

Definition mem := Z -> Z.

Definition store8 (m : mem) (a v : Z) : mem :=
  fun x => if x =? a then u8 v else m x.

Definition load32 (m : mem) (a : Z) : Z :=
  m a + 256 * m (a + 1) + 65536 * m (a + 2) + 16777216 * m (a + 3).

Definition store32 (m : mem) (a v : Z) : mem :=
  store8 (store8 (store8 (store8 m a v) (a + 1) (v / 256))
           (a + 2) (v / 65536)) (a + 3) (v / 16777216).

(** The bytes [l] stored from [a] on. *)
Fixpoint store_bytes (m : mem) (a : Z) (l : list Z) : mem :=
  match l with
  | [] => m
  | v :: l => store_bytes (store8 m a v) (a + 1) l
  end.

(** The four bytes of a word. *)
Definition le32 (v : Z) : list Z := [u8 v; u8 (v / 256); u8 (v / 65536); u8 (v / 16777216)].

(** [fill m lo n v] is the effect of [rep stosb] (x86.h [stosb]). *)
Definition fill (m : mem) (lo n v : Z) : mem :=
  fun x => if (lo <=? x) && (x <? lo + n) then u8 v else m x.

Lemma store8_eq m a v : store8 m a v a = u8 v.
Proof. unfold store8. by rewrite Z.eqb_refl. Qed.

Lemma store8_ne m a v x : x <> a -> store8 m a v x = m x.
Proof. intros. unfold store8. by rewrite (proj2 (Z.eqb_neq x a)). Qed.

Lemma store32_ne m a v x : x < a \/ a + 4 <= x -> store32 m a v x = m x.
Proof. intros. unfold store32. rewrite !store8_ne by lia. done. Qed.

Lemma load32_store32_eq m a v : load32 (store32 m a v) a = u32 v.
Proof.
  unfold load32, store32.
  rewrite store8_eq, (store8_ne _ (a + 3) _ a), (store8_ne _ (a + 2) _ a),
    (store8_ne _ (a + 1) _ a), store8_eq by lia.
  rewrite (store8_ne _ (a + 3) _ (a + 1)), (store8_ne _ (a + 2) _ (a + 1)),
    store8_eq by lia.
  rewrite (store8_ne _ (a + 3) _ (a + 2)), store8_eq by lia.
  unfold u8, u32. zlia.
Qed.

Lemma load32_ext m m' a :
  (forall x, a <= x < a + 4 -> m x = m' x) -> load32 m a = load32 m' a.
Proof. intros H. unfold load32. rewrite !H by lia. done. Qed.

Lemma load32_store32_ne m a b v :
  a + 4 <= b \/ b + 4 <= a -> load32 (store32 m a v) b = load32 m b.
Proof. intros. apply load32_ext. intros. apply store32_ne. lia. Qed.

Lemma fill_in m lo n v x : lo <= x < lo + n -> fill m lo n v x = u8 v.
Proof.
  intros. unfold fill.
  by rewrite (proj2 (Z.leb_le _ _)), (proj2 (Z.ltb_lt _ _)) by lia.
Qed.

Lemma fill_out m lo n v x : x < lo \/ lo + n <= x -> fill m lo n v x = m x.
Proof.
  intros. unfold fill.
  destruct (Z.leb_spec lo x), (Z.ltb_spec x (lo + n)); try done; lia.
Qed.

(** A memory of bytes: every cell holds a value of a [uchar]. *)
Definition bytes_ok (m : mem) : Prop := forall a, 0 <= m a < 256.

Lemma bytes_ok_store8 m a v : bytes_ok m -> bytes_ok (store8 m a v).
Proof.
  intros H x. unfold store8. destruct (x =? a); [apply u8_range | apply H].
Qed.

Lemma bytes_ok_store32 m a v : bytes_ok m -> bytes_ok (store32 m a v).
Proof. intros. unfold store32. by repeat apply bytes_ok_store8. Qed.

Lemma bytes_ok_fill m lo n v : bytes_ok m -> bytes_ok (fill m lo n v).
Proof.
  intros H x. unfold fill.
  destruct ((lo <=? x) && (x <? lo + n)); [apply u8_range | apply H].
Qed.

Lemma load32_range m a : bytes_ok m -> 0 <= load32 m a < 4294967296.
Proof.
  intros H. unfold load32.
  pose proof (H a); pose proof (H (a + 1)); pose proof (H (a + 2));
    pose proof (H (a + 3)). lia.
Qed.

(** ** Outcomes of kernel code

    A kernel routine either returns a value and the new state, calls [panic]
    with a message, or cannot go on until another thread of control acts
    (it spins on a held spin-lock, or it has gone to sleep on a channel). *)

Inductive outcome (S A : Type) : Type :=
  | Done (a : A) (s : S)
  | Panic (msg : string)
  | Blocked (s : S).
Arguments Done {S A} a s.
Arguments Panic {S A} msg.
Arguments Blocked {S A} s.

Definition M (S A : Type) : Type := S -> outcome S A.

Definition m_ret {S A} (a : A) : M S A := fun s => Done a s.
Definition m_bind {S A B} (m : M S A) (k : A -> M S B) : M S B :=
  fun s => match m s with
           | Done a s' => k a s'
           | Panic msg => Panic msg
           | Blocked s' => Blocked s'
           end.
Definition panic {S A} (msg : string) : M S A := fun _ => Panic msg.
Definition get {S} : M S S := fun s => Done s s.
Definition put {S} (s : S) : M S unit := fun _ => Done tt s.
Definition gets {S A} (f : S -> A) : M S A := fun s => Done (f s) s.
Definition modify {S} (f : S -> S) : M S unit := fun s => Done tt (f s).
Definition block {S A} : M S A := fun s => Blocked s.
Definition when {S} (b : bool) (m : M S unit) : M S unit :=
  if b then m else m_ret tt.

Notation "'let!' x ':=' m 'in' k" := (m_bind m (fun x => k))
  (at level 10, x name, m at level 100, k at level 200,
   format "'let!'  x  ':='  m  'in' '//' k") : kernel_scope.
Notation "m1 ';;;' m2" := (m_bind m1 (fun _ => m2))
  (at level 100, right associativity, format "m1  ';;;' '//' m2")
  : kernel_scope.
Open Scope kernel_scope.

(** [for(i = ...; i < ...; i++) body], over the list of the indices. *)
Fixpoint mfor {S A} (l : list A) (body : A -> M S unit) : M S unit :=
  match l with
  | [] => m_ret tt
  | i :: l => body i ;;; mfor l body
  end.

(** ** Lenses: running a component's code on the state that contains it *)

Record lens (S T : Type) := Lens { lget : S -> T; lset : T -> S -> S }.
Arguments Lens {S T} lget lset.
Arguments lget {S T} l s.
Arguments lset {S T} l t s.

Definition zoom {S T A} (l : lens S T) (m : M T A) : M S A :=
  fun s => match m (lget l s) with
           | Done a t => Done a (lset l t s)
           | Panic msg => Panic msg
           | Blocked t => Blocked (lset l t s)
           end.

Section Outcomes.
Context {S A B : Type}.
Implicit Types (s : S).

Lemma bind_Done (m : M S A) (k : A -> M S B) s a s' :
  m s = Done a s' -> m_bind m k s = k a s'.
Proof. intros E. unfold m_bind. by rewrite E. Qed.

Lemma bind_Panic (m : M S A) (k : A -> M S B) s msg :
  m s = Panic msg -> m_bind m k s = Panic msg.
Proof. intros E. unfold m_bind. by rewrite E. Qed.

Lemma bind_Blocked (m : M S A) (k : A -> M S B) s s' :
  m s = Blocked s' -> m_bind m k s = Blocked s'.
Proof. intros E. unfold m_bind. by rewrite E. Qed.

Lemma bind_Done_inv (m : M S A) (k : A -> M S B) s b s2 :
  m_bind m k s = Done b s2 ->
  exists a s1, m s = Done a s1 /\ k a s1 = Done b s2.
Proof. unfold m_bind. destruct (m s) eqn:E; intros; simplify_eq. eauto. Qed.

Lemma bind_assoc {C} (m : M S A) (k : A -> M S B) (h : B -> M S C) s :
  m_bind (m_bind m k) h s = m_bind m (fun a => m_bind (k a) h) s.
Proof. unfold m_bind. by destruct (m s). Qed.

Lemma zoom_Done {T} (l : lens T S) (m : M S A) t a s :
  m (lget l t) = Done a s -> zoom l m t = Done a (lset l s t).
Proof. intros E. unfold zoom. by rewrite E. Qed.
End Outcomes.

(** Partial-correctness and total-correctness triples of an outcome. *)

(** [returns m s Q]: from [s] the code returns, and [Q] holds of the value and
    the state; it neither panics nor blocks. *)
Definition returns {S A} (m : M S A) (s : S) (Q : A -> S -> Prop) : Prop :=
  exists a s', m s = Done a s' /\ Q a s'.

Lemma returns_ret {S A} (a : A) (s : S) Q : Q a s -> returns (m_ret a) s Q.
Proof. intros. exists a, s. done. Qed.

Lemma returns_bind {S A B} (m : M S A) (k : A -> M S B) s Q R :
  returns m s R -> (forall a s', R a s' -> returns (k a) s' Q) ->
  returns (m_bind m k) s Q.
Proof.
  intros (a & s' & E & HR) HQ. destruct (HQ _ _ HR) as (b & s2 & E2 & HB).
  exists b, s2. by rewrite (bind_Done _ _ _ _ _ E).
Qed.

Lemma returns_mono {S A} (m : M S A) s (Q R : A -> S -> Prop) :
  returns m s R -> (forall a s', R a s' -> Q a s') -> returns m s Q.
Proof. intros (a & s' & E & HR) HQ. exists a, s'. auto. Qed.

Lemma returns_Done {S A B} (m : M S A) (k : A -> M S B) s a s' Q :
  m s = Done a s' -> returns (k a) s' Q -> returns (m_bind m k) s Q.
Proof. intros E (b & s2 & E2 & HQ). exists b, s2. by rewrite (bind_Done _ _ _ _ _ E). Qed.

Lemma returns_get {S B} (k : S -> M S B) s Q :
  returns (k s) s Q -> returns (m_bind get k) s Q.
Proof. by apply returns_Done. Qed.

Lemma returns_gets {S A B} (f : S -> A) (k : A -> M S B) s Q :
  returns (k (f s)) s Q -> returns (m_bind (gets f) k) s Q.
Proof. by apply returns_Done. Qed.

Lemma returns_modify {S B} (f : S -> S) (k : unit -> M S B) s Q :
  returns (k tt) (f s) Q -> returns (m_bind (modify f) k) s Q.
Proof. by apply returns_Done. Qed.

Lemma returns_bind_assoc {S A B C} (m : M S A) (k : A -> M S B) (h : B -> M S C) s Q :
  returns (m_bind m (fun a => m_bind (k a) h)) s Q -> returns (m_bind (m_bind m k) h) s Q.
Proof. intros (a & s' & E & HQ). exists a, s'. by rewrite bind_assoc. Qed.

(** The first two operations of a sequence, run as one. *)
Lemma returns_bind_assoc_l {S A B C} (m : M S A) (k : A -> M S B) (h : B -> M S C) s b s' Q :
  m_bind m k s = Done b s' -> returns (h b) s' Q -> returns (m_bind m (fun a => m_bind (k a) h)) s Q.
Proof.
  intros E (x & s2 & E2 & HQ). exists x, s2. split; [|done]. rewrite <- bind_assoc. by rewrite (bind_Done _ _ _ _ _ E).
Qed.

(** [rstep H] runs the first operation of a sequence by its specification [H]. *)
Ltac rstep H := eapply returns_bind; [eapply H|cbv beta].
(** [rlast H] does so for the last operation. *)
Ltac rlast H := eapply returns_mono; [eapply H|cbv beta].

(** ** What an operation leaves alone *)

(** If [m] returns, then with [Q]. *)
Definition yields {S A} (m : M S A) (s : S) (Q : A -> S -> Prop) : Prop := forall a s', m s = Done a s' -> Q a s'.

Lemma yields_ret {S A} (a : A) (s : S) (Q : A -> S -> Prop) : Q a s -> yields (m_ret a) s Q.
Proof. by intros H ? ? [= <- <-]. Qed.

Lemma yields_bind {S A B} (m : M S A) (k : A -> M S B) s P Q :
  yields m s P -> (forall a s', P a s' -> yields (k a) s' Q) -> yields (m_bind m k) s Q.
Proof. intros Hm Hk b s2 (a & s1 & E1 & E2)%bind_Done_inv. by apply (Hk a s1 (Hm _ _ E1)). Qed.

Lemma yields_mono {S A} (m : M S A) s (P Q : A -> S -> Prop) :
  yields m s P -> (forall a s', P a s' -> Q a s') -> yields m s Q.
Proof. intros Hm H a s' E. auto. Qed.

Lemma yields_get {S B} (k : S -> M S B) s Q : yields (k s) s Q -> yields (m_bind get k) s Q.
Proof. intros H a s' E. by apply H. Qed.

Lemma yields_gets {S A B} (f : S -> A) (k : A -> M S B) s Q : yields (k (f s)) s Q -> yields (m_bind (gets f) k) s Q.
Proof. intros H a s' E. by apply H. Qed.

Lemma yields_modify {S B} (f : S -> S) (k : unit -> M S B) s Q : yields (k tt) (f s) Q -> yields (m_bind (modify f) k) s Q.
Proof. intros H a s' E. by apply H. Qed.

Lemma yields_panic {S A} msg (s : S) (Q : A -> S -> Prop) : yields (panic msg) s Q.
Proof. by intros ? ? ?. Qed.

Lemma yields_block {S A} (s : S) (Q : A -> S -> Prop) : yields block s Q.
Proof. by intros ? ? ?. Qed.

Lemma yields_zoom {S T A} (l : lens S T) (m : M T A) s (Q : A -> S -> Prop) :
  yields m (lget l s) (fun a t => Q a (lset l t s)) -> yields (zoom l m) s Q.
Proof.
  intros H a s' E. unfold zoom in E. destruct (m (lget l s)) as [b t| |] eqn:Em; try done.
  injection E as <- <-. by apply H.
Qed.

Lemma yields_any {S A} (m : M S A) s : yields m s (fun _ _ => True).
Proof. by intros ? ? _. Qed.

(** [m] leaves [f] of the state as it is. *)
Definition keeps {S A X} (f : S -> X) (m : M S A) : Prop := forall s, yields m s (fun _ s' => f s' = f s).

Lemma keeps_bind {S A B X} (f : S -> X) (m : M S A) (k : A -> M S B) :
  keeps f m -> (forall a, keeps f (k a)) -> keeps f (m_bind m k).
Proof.
  intros Hm Hk s. eapply yields_bind; [apply Hm|]. cbv beta. intros a s' E.
  eapply yields_mono; [apply Hk|]. cbv beta. congruence.
Qed.

Lemma keeps_ret {S A X} (f : S -> X) (a : A) : keeps f (m_ret a).
Proof. intros s. by apply yields_ret. Qed.

Lemma keeps_get {S X} (f : S -> X) : keeps f get.
Proof. by intros s a s' [= <- <-]. Qed.

Lemma keeps_gets {S A X} (f : S -> X) (g : S -> A) : keeps f (gets g).
Proof. by intros s a s' [= <- <-]. Qed.

Lemma keeps_modify {S X} (f : S -> X) (g : S -> S) : (forall s, f (g s) = f s) -> keeps f (modify g).
Proof. by intros H s a s' [= <- <-]. Qed.

Lemma keeps_panic {S A X} (f : S -> X) msg : keeps f (panic (A := A) msg).
Proof. intros s. apply yields_panic. Qed.

Lemma keeps_block {S A X} (f : S -> X) : keeps f (block (A := A)).
Proof. intros s. apply yields_block. Qed.

Lemma keeps_zoom {S T A X} (f : S -> X) (l : lens S T) (m : M T A) :
  (forall s t, f (lset l t s) = f s) -> keeps f (zoom l m).
Proof. intros H s. apply yields_zoom. intros a t _. apply H. Qed.

Lemma keeps_when {S X} (f : S -> X) b m : keeps f m -> keeps f (when b m).
Proof. intros. destruct b; [done|apply keeps_ret]. Qed.

Create HintDb keeps.
#[export] Hint Resolve keeps_ret keeps_get keeps_gets keeps_modify keeps_panic keeps_block : keeps.

(** Steps through an operation of which every part keeps [f]. *)
Ltac keep :=
  repeat first
    [ progress intros
    | by auto with keeps
    | apply keeps_bind
    | apply keeps_when
    | apply keeps_zoom; by intros
    | match goal with |- keeps _ (match ?x with _ => _ end) => destruct x end
    | match goal with |- keeps _ (if ?b then _ else _) => destruct b end ].

(** [mstep] runs one primitive at the head of a sequence. *)
Ltac mstep :=
  rewrite ?bind_assoc;
  first
    [ erewrite bind_Done; [ | reflexivity ]
    | erewrite bind_Panic; [ | reflexivity ]
    | erewrite bind_Blocked; [ | reflexivity ] ];
  cbv beta.

(** [munf] evaluates the monad's own operations. *)
Ltac munf :=
  cbv beta iota zeta delta [m_bind zoom m_ret get put gets modify when panic
    block lget lset].

(** [mdet] identifies two outcomes of the same run. *)
Ltac mdet :=
  repeat match goal with
  | H1 : ?m = Done _ _, H2 : ?m = Done _ _ |- _ => rewrite H1 in H2; simplify_eq
  end; subst.

(** ** Lists used as C arrays *)

Section Arrays.
Context {A : Type}.
Implicit Types (l : list A).

(** [count_upto p n l] searches an array from index [n] upwards. *)
Fixpoint find_idx (p : A -> bool) (n : nat) l : option nat :=
  match l with
  | [] => None
  | x :: l => if p x then Some n else find_idx p (S n) l
  end.

Lemma find_idx_Some p n l i :
  find_idx p n l = Some i ->
  exists x, (n <= i)%nat /\ l !! (i - n)%nat = Some x /\ p x = true /\
    forall j y, (j < i - n)%nat -> l !! j = Some y -> p y = false.
Proof.
  revert n. induction l as [|a l IH]; intros n; simpl; [done|].
  destruct (p a) eqn:Pa; intros H.
  - simplify_eq. exists a. rewrite Nat.sub_diag. repeat split; auto; lia.
  - destruct (IH _ H) as (x & Hle & Hx & Px & Hmin).
    exists x. replace (i - n)%nat with (S (i - S n)) by lia.
    repeat split; [lia|done|done|].
    intros [|j] y Hj Hy; simpl in Hy; [congruence|].
    apply (Hmin j); [lia|done].
Qed.

Lemma find_idx_None p n l :
  find_idx p n l = None -> forall j y, l !! j = Some y -> p y = false.
Proof.
  revert n. induction l as [|a l IH]; intros n; simpl; [done|].
  destruct (p a) eqn:Pa; [done|]. intros H [|j] y Hy; simpl in Hy.
  - congruence.
  - by apply (IH _ H j).
Qed.

Lemma list_alter_Some (f : A -> A) i l j y :
  alter f i l !! j = Some y <->
  (i = j /\ exists x, l !! j = Some x /\ y = f x) \/ (i <> j /\ l !! j = Some y).
Proof.
  destruct (decide (i = j)) as [->|Hne].
  - rewrite list_lookup_alter_eq. destruct (l !! j) eqn:E; simpl; naive_solver.
  - rewrite list_lookup_alter_ne by done. naive_solver.
Qed.
End Arrays.

Lemma length_same_dom {A B} (l : list A) (k : list B) :
  (forall j, l !! j = None <-> k !! j = None) -> length l = length k.
Proof.
  intros H. apply Nat.le_antisymm; apply lookup_ge_None; apply H; by apply lookup_ge_None.
Qed.

Lemma existsb_ext_in {A} (f g : A -> bool) l :
  (forall x, In x l -> f x = g x) -> existsb f l = existsb g l.
Proof.
  induction l as [|x l IH]; intros H; simpl; [done|].
  rewrite H by by left. rewrite IH; [done|]. intros y Hy. apply H. by right.
Qed.

Create Rewrite HintDb len.
#[export] Hint Rewrite @length_app @length_insert @length_fmap @length_replicate
  @length_take @length_drop @length_alter : len.
Ltac len := autorewrite with len; simpl; try lia.
