(* ===== verification/Layout.v ===== *)
(** * Constants and address arithmetic: param.h, fcntl.h, memlayout.h, mmu.h, fs.h

    The constants of the kernel headers, the page-directory and page-table
    index macros of mmu.h over 32-bit addresses, the segment and gate
    descriptor constructors, and the on-disk layout macros of fs.h. *)

From stdpp Require Import base tactics numbers list.
From Stdlib Require Import ZArith Lia ZifyNat.
From S2P Require Import Prelude.

(** ** param.h *)

Definition NPROC : nat := 64.
Definition KSTACKSIZE : Z := 4096.
Definition NCPU : nat := 8.
Definition NOFILE : nat := 16.
Definition NFILE : nat := 100.
Definition NINODE : nat := 50.
Definition NDEV : Z := 10.
Definition ROOTDEV : Z := 1.
Definition MAXARG : nat := 32.
Definition MAXOPBLOCKS : Z := 10.
Definition LOGSIZE : Z := MAXOPBLOCKS * 3.
Definition NBUF : nat := 30.
Definition FSSIZE : Z := 1000.

(** ** fcntl.h *)

Definition O_RDONLY : Z := 0x000.
Definition O_WRONLY : Z := 0x001.
Definition O_RDWR : Z := 0x002.
Definition O_CREATE : Z := 0x200.

(** ** memlayout.h *)

Definition EXTMEM : Z := 0x100000.
Definition PHYSTOP : Z := 0xE000000.
Definition DEVSPACE : Z := 0xFE000000.
Definition KERNBASE : Z := 0x80000000.
Definition KERNLINK : Z := KERNBASE + EXTMEM.
Definition V2P (a : Z) : Z := u32 (a - KERNBASE).
Definition P2V (a : Z) : Z := u32 (a + KERNBASE).

(** ** mmu.h *)

Definition FL_IF : Z := 0x200.
Definition SEG_KCODE : Z := 1.
Definition SEG_KDATA : Z := 2.
Definition SEG_UCODE : Z := 3.
Definition SEG_UDATA : Z := 4.
Definition SEG_TSS : Z := 5.
Definition DPL_USER : Z := 3.
Definition STA_X : Z := 0x8.
Definition STA_W : Z := 0x2.
Definition STA_R : Z := 0x2.
Definition STS_T32A : Z := 0x9.
Definition STS_IG32 : Z := 0xE.
Definition STS_TG32 : Z := 0xF.

Definition NPDENTRIES : Z := 1024.
Definition NPTENTRIES : Z := 1024.
Definition PGSIZE : Z := 4096.
Definition PTXSHIFT : Z := 12.
Definition PDXSHIFT : Z := 22.

Definition PTE_P : Z := 0x001.
Definition PTE_W : Z := 0x002.
Definition PTE_U : Z := 0x004.
Definition PTE_PS : Z := 0x080.

Definition PDX (va : Z) : Z := Z.land (Z.shiftr (u32 va) PDXSHIFT) 0x3FF.
Definition PTX (va : Z) : Z := Z.land (Z.shiftr (u32 va) PTXSHIFT) 0x3FF.
Definition PGADDR (d t o : Z) : Z :=
  u32 (Z.lor (Z.lor (Z.shiftl d PDXSHIFT) (Z.shiftl t PTXSHIFT)) o).
Definition PGROUNDUP (sz : Z) : Z :=
  Z.land (u32 (sz + PGSIZE - 1)) (Z.lnot (PGSIZE - 1)).
Definition PGROUNDDOWN (a : Z) : Z := Z.land (u32 a) (Z.lnot (PGSIZE - 1)).
Definition PTE_ADDR (pte : Z) : Z := Z.land (u32 pte) (Z.lnot 0xFFF).
Definition PTE_FLAGS (pte : Z) : Z := Z.land (u32 pte) 0xFFF.

(** The segment descriptor of mmu.h, one field per bit-field. *)
Record segdesc := Segdesc {
  sd_lim_15_0 : Z; sd_base_15_0 : Z; sd_base_23_16 : Z; sd_type : Z;
  sd_s : Z; sd_dpl : Z; sd_p : Z; sd_lim_19_16 : Z; sd_avl : Z;
  sd_rsv1 : Z; sd_db : Z; sd_g : Z; sd_base_31_24 : Z }.

Definition SEG (type base lim dpl : Z) : segdesc :=
  Segdesc (Z.land (Z.shiftr lim 12) 0xffff) (Z.land (u32 base) 0xffff)
    (Z.land (Z.shiftr (u32 base) 16) 0xff) type 1 dpl 1
    (Z.shiftr (u32 lim) 28) 0 0 1 1 (Z.shiftr (u32 base) 24).

Definition SEG16 (type base lim dpl : Z) : segdesc :=
  Segdesc (Z.land lim 0xffff) (Z.land (u32 base) 0xffff)
    (Z.land (Z.shiftr (u32 base) 16) 0xff) type 1 dpl 1
    (Z.shiftr (u32 lim) 16) 0 0 1 0 (Z.shiftr (u32 base) 24).

(** The interrupt and trap gate descriptor of mmu.h. *)
Record gatedesc := Gatedesc {
  gd_off_15_0 : Z; gd_cs : Z; gd_args : Z; gd_rsv1 : Z; gd_type : Z;
  gd_s : Z; gd_dpl : Z; gd_p : Z; gd_off_31_16 : Z }.

Definition SETGATE (istrap : bool) (sel off d : Z) : gatedesc :=
  Gatedesc (Z.land (u32 off) 0xffff) sel 0 0
    (if istrap then STS_TG32 else STS_IG32) 0 d 1 (Z.shiftr (u32 off) 16).

(** ** fs.h *)

Definition ROOTINO : Z := 1.
Definition BSIZE : Z := 512.
Definition NDIRECT : Z := 12.
Definition NINDIRECT : Z := BSIZE / 4.
Definition MAXFILE : Z := NDIRECT + NINDIRECT.
(** [sizeof(struct dinode)]: four shorts, a uint and [NDIRECT+1] uints. *)
Definition DINODE_SIZE : Z := 4 * 2 + 4 + (NDIRECT + 1) * 4.
Definition IPB : Z := BSIZE / DINODE_SIZE.
Definition BPB : Z := BSIZE * 8.
Definition DIRSIZ : Z := 14.
(** [sizeof(struct dirent)]. *)
Definition DIRENT_SIZE : Z := 2 + DIRSIZ.

Record superblock := Superblock {
  sb_size : Z; sb_nblocks : Z; sb_ninodes : Z; sb_nlog : Z;
  sb_logstart : Z; sb_inodestart : Z; sb_bmapstart : Z }.

Definition IBLOCK (i : Z) (sb : superblock) : Z := i / IPB + sb_inodestart sb.
Definition BBLOCK (b : Z) (sb : superblock) : Z := b / BPB + sb_bmapstart sb.

Definition T_DIR : Z := 1.
Definition T_FILE : Z := 2.
Definition T_DEV : Z := 3.

(** ** Bit-level facts *)

Lemma land_lnot_ones x n : 0 <= n ->
  Z.land x (Z.lnot (Z.ones n)) = x - x mod 2 ^ n.
Proof.
  intros Hn. rewrite <- Z.ldiff_land, Z.ldiff_ones_r, Z.shiftl_mul_pow2,
    Z.shiftr_div_pow2 by done.
  pose proof (Z.div_mod x (2 ^ n) ltac:(apply Z.pow_nonzero; lia)). lia.
Qed.

Lemma land_low12 x : Z.land x (Z.lnot 0xFFF) = x - x mod 4096.
Proof. apply (land_lnot_ones x 12). lia. Qed.

Lemma land_3FF x : Z.land x 0x3FF = x mod 1024.
Proof. apply (Z.land_ones x 10). lia. Qed.

Lemma land_FFF x : Z.land x 0xFFF = x mod 4096.
Proof. apply (Z.land_ones x 12). lia. Qed.

Lemma land_FFFF x : Z.land x 0xffff = x mod 65536.
Proof. apply (Z.land_ones x 16). lia. Qed.

Lemma land_FF x : Z.land x 0xff = x mod 256.
Proof. apply (Z.land_ones x 8). lia. Qed.

Lemma lor_disjoint a b n : 0 <= n -> 0 <= b < 2 ^ n ->
  Z.lor (Z.shiftl a n) b = a * 2 ^ n + b.
Proof.
  intros Hn Hb. rewrite <- Z.shiftl_mul_pow2 by done.
  symmetry. apply Z.add_nocarry_lor.
  apply Z.bits_inj'. intros i Hi. rewrite Z.land_spec, Z.bits_0.
  destruct (Z.lt_ge_cases i n).
  - by rewrite Z.shiftl_spec_low.
  - replace (Z.testbit b i) with false; [by rewrite andb_false_r|].
    symmetry. destruct (Z.eq_dec b 0) as [->|]; [apply Z.bits_0|].
    apply Z.bits_above_log2; [lia|].
    apply Z.log2_lt_pow2; [lia|].
    eapply Z.lt_le_trans; [apply Hb|]. apply Z.pow_le_mono_r; lia.
Qed.

Lemma PDX_div va : PDX va = u32 va / 4194304.
Proof.
  unfold PDX, PDXSHIFT. rewrite land_3FF, Z.shiftr_div_pow2 by lia.
  pose proof (u32_range va). change (2 ^ 22) with 4194304. zlia.
Qed.

Lemma PTX_div va : PTX va = (u32 va / 4096) mod 1024.
Proof.
  unfold PTX, PTXSHIFT. by rewrite land_3FF, Z.shiftr_div_pow2 by lia.
Qed.

Lemma PGROUNDDOWN_eq a : PGROUNDDOWN a = u32 a - u32 a mod 4096.
Proof. apply land_low12. Qed.

Lemma PGROUNDUP_eq a :
  PGROUNDUP a = u32 (a + 4095) - u32 (a + 4095) mod 4096.
Proof.
  unfold PGROUNDUP, PGSIZE. replace (a + 4096 - 1) with (a + 4095) by lia.
  apply land_low12.
Qed.

Lemma PTE_ADDR_eq p : PTE_ADDR p = u32 p - u32 p mod 4096.
Proof. apply land_low12. Qed.

Lemma PTE_FLAGS_eq p : PTE_FLAGS p = u32 p mod 4096.
Proof. apply land_FFF. Qed.

Lemma PDX_range va : 0 <= PDX va < 1024.
Proof. rewrite PDX_div. pose proof (u32_range va). zlia. Qed.

Lemma PTX_range va : 0 <= PTX va < 1024.
Proof. rewrite PTX_div. zlia. Qed.

Lemma PGADDR_eq d t o : 0 <= t < 1024 -> 0 <= o < 4096 ->
  PGADDR d t o = u32 (d * 4194304 + t * 4096 + o).
Proof.
  intros Ht Ho. unfold PGADDR, PDXSHIFT, PTXSHIFT. f_equal.
  rewrite <- Z.lor_assoc, (lor_disjoint t o 12) by lia.
  rewrite lor_disjoint by (change (2 ^ 12) with 4096;
    change (2 ^ 22) with 4194304; lia).
  change (2 ^ 12) with 4096; change (2 ^ 22) with 4194304. lia.
Qed.

(** ** traps.h: the vectors of the device interrupts *)

Definition T_IRQ0 : Z := 32.
Definition IRQ_TIMER : Z := 0.
Definition IRQ_KBD : Z := 1.
Definition IRQ_COM1 : Z := 4.
Definition IRQ_IDE : Z := 14.
Definition IRQ_ERROR : Z := 19.
Definition IRQ_SPURIOUS : Z := 31.

(** elf.h. *)
Definition ELF_MAGIC : Z := 0x464C457F.
Definition PROGHDR_SIZE : Z := 32.
