(* ===== verification/Ports.v ===== *)
(** * Port input and output (x86.h)

    The instructions through which the drivers talk to devices. What the devices do is a
    parameter: an instance of [Ports] on the state of the devices. *)

From stdpp Require Import base list.
From Stdlib Require Import ZArith.
From S2P Require Import Prelude.

(** [inb], [outb], [insl] and [outsl] of x86.h on the state [D] of the devices; the last two
    move bytes, four for each word counted. *)
Class Ports (D : Type) := {
  inb : Z -> D -> Z * D;
  outb : Z -> Z -> D -> D;
  insl : Z -> nat -> D -> list Z * D;
  outsl : Z -> list Z -> D -> D }.

(** The two instructions for single bytes as operations on the devices alone. *)
Section Ops.
Context {D : Type} {ports : Ports D}.

Definition port_in (port : Z) : M D Z :=
  let! d := get in let '(v, d) := inb port d in put d ;;; m_ret v.
Definition port_out (port v : Z) : M D unit := modify (outb port (u8 v)).
End Ops.
