(* ===== verification/Spinlock.v ===== *)
(** * Spin locks: spinlock.c, and [mycpu]/[cpuid] of proc.c

    [Section Ops] models the code run by one processor on its [struct cpu] and
    one [struct spinlock]; [Module Smp] interleaves the instructions of
    [acquire] and [release] run by several processors on the same lock. *)

From stdpp Require Import base tactics numbers list strings.
From Stdlib Require Import ZArith Lia ZifyNat.
From S2P Require Import Prelude Layout.

(** The fields of [struct cpu] the lock code uses; [eflags_if] is the interrupt
    flag of the processor's own EFLAGS register. *)
Record cpu := Cpu {
  apicid : Z;
  ncli : Z;
  intena : Z;
  cpu_proc : option nat;
  eflags_if : bool }.

Definition set_ncli (v : Z) (c : cpu) : cpu :=
  Cpu (apicid c) v (intena c) (cpu_proc c) (eflags_if c).
Definition set_intena (v : Z) (c : cpu) : cpu :=
  Cpu (apicid c) (ncli c) v (cpu_proc c) (eflags_if c).
Definition set_cpu_proc (v : option nat) (c : cpu) : cpu :=
  Cpu (apicid c) (ncli c) (intena c) v (eflags_if c).
Definition set_eflags_if (v : bool) (c : cpu) : cpu :=
  Cpu (apicid c) (ncli c) (intena c) (cpu_proc c) v.

(** [struct spinlock]; a [struct cpu*] is an index into [cpus]. *)
Record spinlock := Spinlock {
  locked : Z;
  lk_name : string;
  lk_cpu : option nat;
  lk_pcs : list Z }.

Definition initlock (name : string) (lk : spinlock) : spinlock :=
  Spinlock 0 name None (lk_pcs lk).

(** x86.h [readeflags], [cli], [sti], restricted to the interrupt flag. *)
Definition readeflags (c : cpu) : Z := if eflags_if c then FL_IF else 0.
Definition cli (c : cpu) : cpu := set_eflags_if false c.
Definition sti (c : cpu) : cpu := set_eflags_if true c.

(** The search loop of [mycpu]: the index of the first of the [ncpu] entries
    whose [apicid] is the one read from the local APIC. *)
Definition mycpu_search (cpus : list cpu) (ncpu : nat) (id : Z) : option nat :=
  find_idx (fun c => apicid c =? id) 0 (take ncpu cpus).

Definition mycpu_lookup (cpus : list cpu) (ncpu : nat) (id : Z) (iflag : bool)
    : outcome unit nat :=
  if iflag then Panic "mycpu called with interrupts enabled"
  else match mycpu_search cpus ncpu id with
       | Some i => Done i tt
       | None => Panic "unknown apicid"
       end.

Record lkst := Lkst { lcpu : cpu; llock : spinlock }.

Definition lcpu_lens : lens lkst cpu :=
  Lens lcpu (fun c s => Lkst c (llock s)).
Definition llock_lens : lens lkst spinlock :=
  Lens llock (fun l s => Lkst (lcpu s) l).

Section Ops.
(** [me] is the index in [cpus] of the processor that runs the code. *)
Variable me : nat.

Definition mycpu : M cpu nat :=
  let! e := gets readeflags in
  if Z.land e FL_IF =? 0 then m_ret me
  else panic "mycpu called with interrupts enabled".

Definition pushcli : M cpu unit :=
  let! eflags := gets readeflags in
  modify cli ;;;
  mycpu ;;;
  let! c := get in
  when (ncli c =? 0) (modify (set_intena (Z.land eflags FL_IF))) ;;;
  modify (fun c => set_ncli (ncli c + 1) c).

Definition popcli : M cpu unit :=
  let! eflags := gets readeflags in
  if negb (Z.land eflags FL_IF =? 0) then panic "popcli - interruptible"
  else
    mycpu ;;;
    modify (fun c => set_ncli (ncli c - 1) c) ;;;
    let! c := get in
    if ncli c <? 0 then panic "popcli"
    else when ((ncli c =? 0) && negb (intena c =? 0)) (modify sti).

Definition holding : M lkst bool :=
  zoom lcpu_lens pushcli ;;;
  let! i := zoom lcpu_lens mycpu in
  let! l := gets llock in
  let r := negb (locked l =? 0) && bool_decide (lk_cpu l = Some i) in
  zoom lcpu_lens popcli ;;;
  m_ret r.

(** [xchg(&lk->locked, 1)] until it returns 0: with the lock taken the
    exchange stores the 1 that is already there and the loop goes round. *)
Definition xchg_spin : M spinlock unit :=
  let! l := get in
  if locked l =? 0
  then put (Spinlock 1 (lk_name l) (lk_cpu l) (lk_pcs l))
  else block.

(** [pcs] is what [getcallerpcs] records at this point. *)
Definition acquire (pcs : list Z) : M lkst unit :=
  zoom lcpu_lens pushcli ;;;
  let! h := holding in
  if h then panic "acquire"
  else
    zoom llock_lens xchg_spin ;;;
    let! i := zoom lcpu_lens mycpu in
    zoom llock_lens
      (modify (fun l => Spinlock (locked l) (lk_name l) (Some i) pcs)).

Definition release : M lkst unit :=
  let! h := holding in
  if negb h then panic "release"
  else
    zoom llock_lens
      (modify (fun l =>
         Spinlock (locked l) (lk_name l) None (<[0%nat := 0]> (lk_pcs l)))) ;;;
    zoom llock_lens
      (modify (fun l => Spinlock 0 (lk_name l) (lk_cpu l) (lk_pcs l))) ;;;
    zoom lcpu_lens popcli.
End Ops.

(** [getcallerpcs]: follow the saved-%ebp chain for at most ten frames; [m] is
    the kernel memory, [v] the address of the first argument. *)
Fixpoint getcallerpcs_loop (m : mem) (n : nat) (ebp : Z) : list Z :=
  match n with
  | O => []
  | S n =>
      if (ebp =? 0) || (ebp <? KERNBASE) || (ebp =? 0xffffffff)
      then replicate (S n) 0
      else load32 m (ebp + 4) :: getcallerpcs_loop m n (load32 m ebp)
  end.
Definition getcallerpcs (m : mem) (v : Z) : list Z :=
  getcallerpcs_loop m 10 (u32 (v - 8)).

Lemma getcallerpcs_length m v : length (getcallerpcs m v) = 10%nat.
Proof.
  unfold getcallerpcs. generalize (u32 (v - 8)). generalize 10%nat.
  induction n as [|n IH]; intros ebp; simpl; [done|].
  destruct (_ || _); simpl; [by rewrite length_replicate|by rewrite IH].
Qed.

(** ** Processor invariant and the effect of the operations *)

(** The nesting depth is not negative, and interrupts are off while it is
    positive. *)
Definition cpu_ok (c : cpu) : Prop :=
  0 <= ncli c /\ (0 < ncli c -> eflags_if c = false).

(** The processor after a [pushcli] from [c]. *)
Definition pushed (c : cpu) : cpu :=
  Cpu (apicid c) (ncli c + 1)
    (if ncli c =? 0 then (if eflags_if c then FL_IF else 0) else intena c)
    (cpu_proc c) false.

(** The processor after a matched [pushcli]/[popcli] pair from [c]. *)
Definition popped (c : cpu) : cpu :=
  Cpu (apicid c) (ncli c)
    (if ncli c =? 0 then (if eflags_if c then FL_IF else 0) else intena c)
    (cpu_proc c) (eflags_if c).

Definition free_lock (l : spinlock) : Prop := locked l = 0 /\ lk_cpu l = None.
Definition held_by (l : spinlock) (i : nat) : Prop :=
  locked l = 1 /\ lk_cpu l = Some i.
Definition taken (l : spinlock) (i : nat) (pcs : list Z) : spinlock :=
  Spinlock 1 (lk_name l) (Some i) pcs.
Definition freed (l : spinlock) : spinlock :=
  Spinlock 0 (lk_name l) None (<[0%nat := 0]> (lk_pcs l)).

Section OpsFacts.
Variable me : nat.

Lemma cpu_ok_pushed c : cpu_ok c -> cpu_ok (pushed c).
Proof. intros [H1 H2]. split; simpl; [lia|done]. Qed.

Lemma cpu_ok_popped c : cpu_ok c -> cpu_ok (popped c).
Proof. intros [H1 H2]. split; simpl; auto. Qed.

Lemma pushcli_run c : pushcli me c = Done tt (pushed c).
Proof.
  unfold pushcli, pushed, when. destruct c as [a n i p f]; simpl.
  unfold m_bind, gets, modify, get, mycpu, cli; simpl.
  destruct (n =? 0) eqn:E; destruct f; reflexivity.
Qed.

Lemma popcli_run c : cpu_ok c -> popcli me (pushed c) = Done tt (popped c).
Proof.
  intros [H1 H2]. unfold popcli, pushed, popped, when.
  destruct c as [a n i p f]; simpl in *.
  unfold m_bind, gets, modify, get, mycpu, readeflags; simpl.
  replace (n + 1 - 1) with n by lia.
  destruct (Z.ltb_spec n 0); [lia|].
  destruct (Z.eqb_spec n 0) as [->|]; simpl.
  - destruct f; reflexivity.
  - rewrite H2 by lia. reflexivity.
Qed.

Lemma mycpu_pushed c : mycpu me (pushed c) = Done me (pushed c).
Proof. reflexivity. Qed.

Lemma holding_run c l : cpu_ok c ->
  holding me (Lkst c l) =
  Done (negb (locked l =? 0) && bool_decide (lk_cpu l = Some me))
    (Lkst (popped c) l).
Proof.
  intros Hok. unfold holding, m_bind, zoom; simpl.
  rewrite pushcli_run; simpl. by rewrite popcli_run.
Qed.

Lemma popped_nested c : cpu_ok c -> 0 < ncli c -> popped c = c.
Proof.
  intros [H1 H2] H. unfold popped. destruct c as [a n i p f]; simpl in *.
  destruct (Z.eqb_spec n 0); [lia|done].
Qed.

Lemma popped_pushed c : cpu_ok c -> popped (pushed c) = pushed c.
Proof.
  intros H. apply popped_nested; [by apply cpu_ok_pushed|].
  destruct H; simpl; lia.
Qed.

Lemma acquire_run pcs c l : cpu_ok c -> free_lock l ->
  acquire me pcs (Lkst c l) = Done tt (Lkst (pushed c) (taken l me pcs)).
Proof.
  intros Hok [Hl Hc]. unfold acquire, m_bind at 1, zoom at 1; simpl.
  rewrite pushcli_run; simpl. unfold m_bind at 1.
  rewrite holding_run by by apply cpu_ok_pushed.
  rewrite Hl; simpl. rewrite popped_pushed by done.
  unfold xchg_spin; munf; simpl. by rewrite Hl.
Qed.

Lemma release_run c l : cpu_ok c -> held_by l me ->
  release me (Lkst (pushed c) l) = Done tt (Lkst (popped c) (freed l)).
Proof.
  intros Hok [Hl Hc]. unfold release, m_bind at 1.
  rewrite holding_run by by apply cpu_ok_pushed.
  rewrite Hl, Hc, bool_decide_eq_true_2 by done; simpl.
  rewrite popped_pushed by done.
  unfold m_bind, zoom, modify; simpl. by rewrite popcli_run.
Qed.

(** Acquiring a lock this processor holds already is a panic. *)
Lemma acquire_held pcs c l : cpu_ok c -> held_by l me ->
  acquire me pcs (Lkst c l) = Panic "acquire".
Proof.
  intros Hok [Hl Hc]. unfold acquire, m_bind at 1, zoom at 1; simpl.
  rewrite pushcli_run; simpl. unfold m_bind at 1.
  rewrite holding_run by by apply cpu_ok_pushed.
  by rewrite Hl, Hc, bool_decide_eq_true_2.
Qed.

(** Acquiring a lock another processor holds spins with interrupts off. *)
Lemma acquire_other pcs c l i : cpu_ok c -> held_by l i -> i <> me ->
  acquire me pcs (Lkst c l) = Blocked (Lkst (pushed c) l).
Proof.
  intros Hok [Hl Hc] Hne. unfold acquire, m_bind at 1, zoom at 1; simpl.
  rewrite pushcli_run; simpl. unfold m_bind at 1.
  rewrite holding_run by by apply cpu_ok_pushed.
  rewrite Hl, Hc, bool_decide_eq_false_2 by congruence; simpl.
  rewrite popped_pushed by done.
  unfold xchg_spin; munf; simpl. by rewrite Hl.
Qed.

Lemma release_not_held c l : cpu_ok c -> locked l = 0 \/ lk_cpu l <> Some me ->
  release me (Lkst c l) = Panic "release".
Proof.
  intros Hok H. unfold release, m_bind at 1. rewrite holding_run by done.
  destruct H as [H|H].
  - by rewrite H.
  - by rewrite bool_decide_eq_false_2, andb_false_r.
Qed.
End OpsFacts.

(** ** Several processors on one lock *)

Module Smp.
(** Where a processor is in the code of [acquire] or [release]. *)
Inductive pc :=
  | Outside        (* not in acquire, critical section or release *)
  | Spinning       (* pushcli and the holding() test are done, in the xchg loop *)
  | GotLock        (* the xchg returned 0, lk->cpu not yet written *)
  | Critical       (* acquire has returned *)
  | Releasing.     (* release has cleared lk->cpu, locked not yet *)

#[export] Instance pc_eq_dec : EqDecision pc.
Proof. solve_decision. Defined.

Record sys := Sys { pcs : list pc; lock : spinlock }.

Definition set_locked (v : Z) (l : spinlock) : spinlock :=
  Spinlock v (lk_name l) (lk_cpu l) (lk_pcs l).
Definition set_holder (c : option nat) (l : spinlock) : spinlock :=
  Spinlock (locked l) (lk_name l) c (lk_pcs l).

(** What [holding] returns to processor [i]. *)
Definition holds (l : spinlock) (i : nat) : bool :=
  negb (locked l =? 0) && bool_decide (lk_cpu l = Some i).

Inductive step : sys -> sys -> Prop :=
  | step_enter ps l i :
      ps !! i = Some Outside -> holds l i = false ->
      step (Sys ps l) (Sys (<[i := Spinning]> ps) l)
  | step_spin ps l i :
      ps !! i = Some Spinning -> locked l <> 0 ->
      step (Sys ps l) (Sys ps (set_locked 1 l))
  | step_xchg ps l i :
      ps !! i = Some Spinning -> locked l = 0 ->
      step (Sys ps l) (Sys (<[i := GotLock]> ps) (set_locked 1 l))
  | step_record ps l i :
      ps !! i = Some GotLock ->
      step (Sys ps l) (Sys (<[i := Critical]> ps) (set_holder (Some i) l))
  | step_release ps l i :
      ps !! i = Some Critical -> holds l i = true ->
      step (Sys ps l) (Sys (<[i := Releasing]> ps) (set_holder None l))
  | step_unlock ps l i :
      ps !! i = Some Releasing ->
      step (Sys ps l) (Sys (<[i := Outside]> ps) (set_locked 0 l)).

Definition initial (ncpu : nat) (name : string) : sys :=
  Sys (replicate ncpu Outside) (initlock name (Spinlock 0 name None [])).

Inductive reachable (ncpu : nat) (name : string) : sys -> Prop :=
  | reach_init : reachable ncpu name (initial ncpu name)
  | reach_step s s' : reachable ncpu name s -> step s s' ->
      reachable ncpu name s'.

(** A processor between its successful xchg and the final store. *)
Definition inside (p : pc) : bool :=
  match p with GotLock | Critical | Releasing => true | _ => false end.

(** The lock word and [lk->cpu] agree with the program counters: either no
    processor is inside, or exactly one is. *)
Inductive inv : sys -> Prop :=
  | inv_none ps l :
      locked l = 0 -> lk_cpu l = None ->
      (forall i p, ps !! i = Some p -> inside p = false) -> inv (Sys ps l)
  | inv_some ps l k p :
      locked l = 1 -> ps !! k = Some p -> inside p = true ->
      lk_cpu l = (if decide (p = Critical) then Some k else None) ->
      (forall i q, i <> k -> ps !! i = Some q -> inside q = false) ->
      inv (Sys ps l).

Lemma inv_initial ncpu name : inv (initial ncpu name).
Proof. apply inv_none; simpl; [done..|]. by intros i p [-> _]%lookup_replicate. Qed.

(** Moving processor [i] to a counter that is not inside keeps the others. *)
Lemma outside_insert (ps : list pc) i p' (P : nat -> Prop) :
  inside p' = false ->
  (forall j q, P j -> ps !! j = Some q -> inside q = false) ->
  forall j q, P j -> <[i := p']> ps !! j = Some q -> inside q = false.
Proof.
  intros Hp H j q HP. rewrite list_lookup_insert_Some. naive_solver.
Qed.

(** Moving the owner between inside counters keeps the others. *)
Lemma others_insert (ps : list pc) k p' :
  (forall j q, j <> k -> ps !! j = Some q -> inside q = false) ->
  forall j q, j <> k -> <[k := p']> ps !! j = Some q -> inside q = false.
Proof. intros H j q Hj. rewrite list_lookup_insert_ne by done. by apply H. Qed.

Lemma inside_owner (ps : list pc) k (H : forall j q, j <> k ->
    ps !! j = Some q -> inside q = false) i p :
  ps !! i = Some p -> inside p = true -> i = k.
Proof.
  intros Hi Hp. destruct (decide (i = k)); [done|].
  rewrite (H i p) in Hp by done. done.
Qed.

Lemma inv_step s s' : inv s -> step s s' -> inv s'.
Proof.
  intros Hinv Hstep. destruct Hinv as [ps l Hl Hc Hout|ps l k p Hl Hk Hp Hc Hout];
    inversion Hstep as [? ? i Hi Hh|? ? i Hi Hnz|? ? i Hi Hz|? ? i Hi|? ? i Hi Hh
      |? ? i Hi]; subst; simpl in *; try congruence.
  - apply inv_none; [done..|]. intros j q. by apply (outside_insert _ _ _ (fun _ => True));
      [|eauto|].
  - apply (inv_some _ _ i GotLock); simpl; try done.
    + rewrite list_lookup_insert_eq; eauto using lookup_lt_Some.
    + intros j q Hj. rewrite list_lookup_insert_ne by done. apply Hout.
  - by apply Hout in Hi.
  - by apply Hout in Hi.
  - by apply Hout in Hi.
  - apply (inv_some _ _ k p); try done.
    + rewrite list_lookup_insert_ne; [done|]. intros ->. naive_solver.
    + by apply outside_insert.
  - by apply (inv_some _ _ k p).
  - pose proof (inside_owner _ _ Hout _ _ Hi eq_refl) as ->. simplify_eq.
    apply (inv_some _ _ k Critical); simpl; try done.
    + rewrite list_lookup_insert_eq; eauto using lookup_lt_Some.
    + by apply others_insert.
  - pose proof (inside_owner _ _ Hout _ _ Hi eq_refl) as ->. simplify_eq.
    apply (inv_some _ _ k Releasing); simpl; try done.
    + rewrite list_lookup_insert_eq; eauto using lookup_lt_Some.
    + by apply others_insert.
  - pose proof (inside_owner _ _ Hout _ _ Hi eq_refl) as ->. simplify_eq.
    apply inv_none; simpl; try done.
    intros j q. rewrite list_lookup_insert_Some.
    intros [(-> & <- & _)|[Hne Hj]]; [done|]. by apply (Hout j).
Qed.

Lemma inv_reachable ncpu name s : reachable ncpu name s -> inv s.
Proof. induction 1; eauto using inv_initial, inv_step. Qed.


End Smp.
