(* ===== verification/CString.v ===== *)
(** * Memory and string routines of the kernel (string.c)

    The routines run on a byte memory and take addresses. A [char*] loop that
    counts [n] down becomes a fixpoint on [n]; the loops that run to a NUL take
    the number of bytes they may inspect as fuel. *)

From stdpp Require Import base tactics numbers list.
From Stdlib Require Import ZArith Lia ZifyNat.
From S2P Require Import Prelude.

(** ** string.c *)

(** x86.h [stosl]: store the word [v] [cnt] times upwards from [a]. *)
Fixpoint stosl (m : mem) (a v : Z) (cnt : nat) : mem :=
  match cnt with
  | O => m
  | S cnt => stosl (store32 m a v) (a + 4) v cnt
  end.

Definition memset (m : mem) (dst c n : Z) : mem :=
  if (Z.rem (s32 dst) 4 =? 0) && (n mod 4 =? 0) then
    let c := Z.land c 0xFF in
    stosl m dst (Z.lor (Z.lor (Z.lor (Z.shiftl c 24) (Z.shiftl c 16))
                          (Z.shiftl c 8)) c)
      (Z.to_nat (n / 4))
  else fill m dst n c.

Fixpoint memcmp (m : mem) (s1 s2 : Z) (n : nat) : Z :=
  match n with
  | O => 0
  | S n =>
      if negb (m s1 =? m s2) then m s1 - m s2
      else memcmp m (s1 + 1) (s2 + 1) n
  end.

(** [while(n-- > 0) *--d = *--s], from the ends of the two buffers. *)
Fixpoint move_down (m : mem) (d s : Z) (n : nat) : mem :=
  match n with
  | O => m
  | S n => move_down (store8 m (d - 1) (m (s - 1))) (d - 1) (s - 1) n
  end.

(** [while(n-- > 0) *d++ = *s++]. *)
Fixpoint move_up (m : mem) (d s : Z) (n : nat) : mem :=
  match n with
  | O => m
  | S n => move_up (store8 m d (m s)) (d + 1) (s + 1) n
  end.

Definition memmove (m : mem) (dst src : Z) (n : nat) : mem :=
  if (src <? dst) && (dst <? src + Z.of_nat n)
  then move_down m (dst + Z.of_nat n) (src + Z.of_nat n) n
  else move_up m dst src n.

Definition memcpy (m : mem) (dst src : Z) (n : nat) : mem := memmove m dst src n.

Fixpoint strncmp (m : mem) (p q : Z) (n : nat) : Z :=
  match n with
  | O => 0
  | S n' =>
      if negb (m p =? 0) && (m p =? m q) then strncmp m (p + 1) (q + 1) n'
      else u8 (m p) - u8 (m q)
  end.

(** The first loop of [strncpy] stops after it has copied a NUL; the second one
    writes zeros for what is left of [n]. *)
Fixpoint strncpy (m : mem) (s t : Z) (n : nat) : mem :=
  match n with
  | O => m
  | S n' =>
      let m' := store8 m s (m t) in
      if negb (m t =? 0) then strncpy m' (s + 1) (t + 1) n'
      else fill m' (s + 1) (Z.of_nat n') 0
  end.

(** The loop of [safestrcpy], entered with [n] already decremented; it returns
    the memory and the final value of [s]. *)
Fixpoint safestrcpy_loop (m : mem) (s t : Z) (n : nat) : mem * Z :=
  match n with
  | O => (m, s)
  | S n' =>
      let m' := store8 m s (m t) in
      if negb (m t =? 0) then safestrcpy_loop m' (s + 1) (t + 1) n'
      else (m', s + 1)
  end.

Definition safestrcpy (m : mem) (s t n : Z) : mem :=
  if n <=? 0 then m
  else let '(m', s') := safestrcpy_loop m s t (Z.to_nat (n - 1)) in
       store8 m' s' 0.

Fixpoint strlen (m : mem) (s : Z) (fuel : nat) : option Z :=
  match fuel with
  | O => None
  | S fuel => if m s =? 0 then Some 0
              else option_map (Z.add 1) (strlen m (s + 1) fuel)
  end.

(** ** What the routines do *)

Lemma stosl_out m a v cnt x :
  x < a \/ a + 4 * Z.of_nat cnt <= x -> stosl m a v cnt x = m x.
Proof.
  revert m a. induction cnt as [|cnt IH]; intros m a Hx; simpl; [done|].
  rewrite IH, store32_ne by lia. done.
Qed.

(** The word [memset] stores has the byte [c] in all four positions. *)
Lemma splat_bytes c : 0 <= c < 256 ->
  Z.lor (Z.lor (Z.lor (Z.shiftl c 24) (Z.shiftl c 16)) (Z.shiftl c 8)) c
  = c * 16843009.
Proof.
  intros Hc.
  assert (forall c, (Z.of_nat c < 256)%Z ->
    let c := Z.of_nat c in
    Z.lor (Z.lor (Z.lor (Z.shiftl c 24) (Z.shiftl c 16)) (Z.shiftl c 8)) c
    = c * 16843009) as H.
  { intros k Hk. cbv zeta.
    assert (Forall (fun k => Z.lor (Z.lor (Z.lor (Z.shiftl (Z.of_nat k) 24)
      (Z.shiftl (Z.of_nat k) 16)) (Z.shiftl (Z.of_nat k) 8)) (Z.of_nat k)
      = Z.of_nat k * 16843009) (seq 0 256)) as HF.
    { apply (bool_decide_unpack _). vm_compute. exact I. }
    rewrite Forall_forall in HF. apply HF. apply elem_of_seq. lia. }
  specialize (H (Z.to_nat c)). rewrite Z2Nat.id in H by lia. apply H. lia.
Qed.

Lemma store32_splat m a c x : 0 <= c < 256 -> a <= x < a + 4 ->
  store32 m a (c * 16843009) x = c.
Proof.
  intros Hc Hx. unfold store32, store8, u8.
  destruct (Z.eqb_spec x (a + 3)); [zlia|].
  destruct (Z.eqb_spec x (a + 2)); [zlia|].
  destruct (Z.eqb_spec x (a + 1)); [zlia|].
  destruct (Z.eqb_spec x a); [zlia|lia].
Qed.

Lemma stosl_in m a c cnt x : 0 <= c < 256 ->
  a <= x < a + 4 * Z.of_nat cnt -> stosl m a (c * 16843009) cnt x = c.
Proof.
  intros Hc. revert m a. induction cnt as [|cnt IH]; intros m a Hx; simpl; [lia|].
  destruct (Z.lt_ge_cases x (a + 4)).
  - rewrite stosl_out by lia. apply store32_splat; lia.
  - apply IH. lia.
Qed.

Lemma memset_fill m dst c n x : 0 <= n ->
  memset m dst c n x = fill m dst n c x.
Proof.
  intros Hn. unfold memset.
  destruct ((Z.rem (s32 dst) 4 =? 0) && (n mod 4 =? 0)) eqn:E; [|done].
  apply andb_prop in E as [_ Hn4%Z.eqb_eq].
  assert (Z.land c 0xFF = u8 c) as -> by apply (Z.land_ones c 8 ltac:(lia)).
  pose proof (u8_range c). rewrite splat_bytes by done.
  assert (Z.of_nat (Z.to_nat (n / 4)) * 4 = n) by zlia.
  destruct (decide (dst <= x < dst + n)).
  - rewrite fill_in, stosl_in by lia. done.
  - rewrite fill_out, stosl_out by lia. done.
Qed.

Lemma memcmp_eq m s1 s2 n :
  memcmp m s1 s2 n = 0 <->
  forall i, 0 <= i < Z.of_nat n -> m (s1 + i) = m (s2 + i).
Proof.
  revert s1 s2. induction n as [|n IH]; intros s1 s2; simpl memcmp.
  { split; [lia|done]. }
  destruct (Z.eqb_spec (m s1) (m s2)) as [E|E]; simpl.
  - rewrite IH. split; intros H i Hi.
    + destruct (decide (i = 0)) as [->|]; [by rewrite !Z.add_0_r|].
      specialize (H (i - 1)). rewrite <- !Z.add_assoc, Zplus_minus in H.
      apply H. lia.
    + rewrite <- !Z.add_assoc. apply H. lia.
  - split; [lia|]. intros H. specialize (H 0). rewrite !Z.add_0_r in H. lia.
Qed.

(** The first difference decides the sign. *)
Lemma memcmp_first m s1 s2 n k : 0 <= k < Z.of_nat n ->
  (forall i, 0 <= i < k -> m (s1 + i) = m (s2 + i)) ->
  m (s1 + k) <> m (s2 + k) ->
  memcmp m s1 s2 n = m (s1 + k) - m (s2 + k).
Proof.
  revert s1 s2 k. induction n as [|n IH]; intros s1 s2 k Hk Hlt Hne; simpl; [lia|].
  destruct (decide (k = 0)) as [->|].
  - rewrite !Z.add_0_r in *. by rewrite (proj2 (Z.eqb_neq _ _)).
  - pose proof (Hlt 0 ltac:(lia)) as H0. rewrite !Z.add_0_r in H0.
    rewrite (proj2 (Z.eqb_eq _ _)) by done; simpl.
    rewrite (IH (s1 + 1) (s2 + 1) (k - 1)).
    + f_equal; f_equal; lia.
    + lia.
    + intros i Hi. rewrite <- !Z.add_assoc. apply Hlt. lia.
    + rewrite <- !Z.add_assoc, Zplus_minus. done.
Qed.

Lemma move_up_spec m d s n : bytes_ok m ->
  (s >= d \/ s + Z.of_nat n <= d) ->
  forall x, move_up m d s n x =
    if bool_decide (d <= x < d + Z.of_nat n) then m (s + (x - d)) else m x.
Proof.
  revert m d s. induction n as [|n IH]; intros m d s Hb Hov x; simpl.
  { by rewrite bool_decide_eq_false_2 by lia. }
  rewrite IH by (first [by apply bytes_ok_store8 | lia]).
  assert (u8 (m s) = m s) as Hu by (apply Z.mod_small, Hb).
  repeat case_bool_decide; try lia.
  - rewrite store8_ne by lia. f_equal. lia.
  - replace x with d by lia. rewrite store8_eq, Hu. f_equal. lia.
  - rewrite store8_ne by lia. done.
Qed.

Lemma move_down_spec m d s n : bytes_ok m -> (s <= d) ->
  forall x, move_down m d s n x =
    if bool_decide (d - Z.of_nat n <= x < d) then m (s + (x - d)) else m x.
Proof.
  revert m d s. induction n as [|n IH]; intros m d s Hb Hov x; simpl.
  { by rewrite bool_decide_eq_false_2 by lia. }
  rewrite IH by (first [by apply bytes_ok_store8 | lia]).
  assert (u8 (m (s - 1)) = m (s - 1)) as Hu by (apply Z.mod_small, Hb).
  repeat case_bool_decide; try lia.
  - rewrite store8_ne by lia. f_equal. lia.
  - replace x with (d - 1) by lia. rewrite store8_eq, Hu. f_equal. lia.
  - rewrite store8_ne by lia. done.
Qed.

Lemma memmove_bytes m dst src n : bytes_ok m ->
  forall x, memmove m dst src n x =
    if bool_decide (dst <= x < dst + Z.of_nat n) then m (src + (x - dst)) else m x.
Proof.
  intros Hb x. unfold memmove.
  destruct (Z.ltb_spec src dst), (Z.ltb_spec dst (src + Z.of_nat n)); simpl.
  - rewrite move_down_spec by (done || lia).
    repeat case_bool_decide; try lia; try done; f_equal; lia.
  - apply move_up_spec; [done|lia].
  - apply move_up_spec; [done|lia].
  - apply move_up_spec; [done|lia].
Qed.

(** ** NUL-terminated strings *)

(** [cstr m a l]: the bytes of [l] are at [a], none is NUL, and a NUL follows. *)
Fixpoint cstr (m : mem) (a : Z) (l : list Z) : Prop :=
  match l with
  | [] => m a = 0
  | c :: l => m a = c /\ c <> 0 /\ cstr m (a + 1) l
  end.

Lemma strlen_cstr m a l fuel : cstr m a l -> (length l < fuel)%nat ->
  strlen m a fuel = Some (Z.of_nat (length l)).
Proof.
  revert a fuel. induction l as [|c l IH]; intros a [|fuel] H Hf; simpl in *; try lia.
  - by rewrite H.
  - destruct H as (Hc & Hnz & H). rewrite (proj2 (Z.eqb_neq _ _)) by congruence.
    rewrite (IH (a + 1) fuel) by (done || lia). simpl. f_equal. lia.
Qed.

(** [bstr m a n l]: the string stored in the [n]-byte buffer at [a] is [l]; the
    NUL is there only when the string is shorter than the buffer. *)
Fixpoint bstr (m : mem) (a : Z) (n : nat) (l : list Z) : Prop :=
  match n, l with
  | O, _ => l = []
  | S _, [] => m a = 0
  | S n, c :: l => m a = c /\ c <> 0 /\ bstr m (a + 1) n l
  end.

Lemma cstr_bstr m a l n : cstr m a l -> bstr m a n (take n l).
Proof.
  revert a n. induction l as [|c l IH]; intros a [|n]; simpl; try done.
  intros (H1 & H2 & H3). auto.
Qed.

Lemma bstr_length m a n l : bstr m a n l -> (length l <= n)%nat.
Proof.
  revert a l. induction n as [|n IH]; intros a [|c l]; simpl; try done; try lia.
  intros (_ & _ & H%IH). lia.
Qed.

Lemma bstr_ext m m' a n l :
  (forall x, a <= x < a + Z.of_nat n -> m x = m' x) ->
  bstr m a n l -> bstr m' a n l.
Proof.
  revert a l. induction n as [|n IH]; intros a [|c l] He; simpl; try done.
  - by rewrite (He a) by lia.
  - rewrite (He a) by lia. intros (H1 & H2 & H3). repeat split; try done.
    apply (IH (a + 1)); [|done]. intros. apply He. lia.
Qed.

Lemma cstr_ext m m' a l :
  (forall x, a <= x <= a + Z.of_nat (length l) -> m x = m' x) ->
  cstr m a l -> cstr m' a l.
Proof.
  revert a. induction l as [|c l IH]; intros a He; simpl in *.
  - by rewrite (He a) by lia.
  - rewrite (He a) by lia. intros (H1 & H2 & H3). repeat split; try done.
    apply IH; [|done]. intros. apply He. lia.
Qed.

(** [strncmp] is 0 exactly for equal strings of at most [n] bytes. *)
Theorem strncmp_bstr m p q n l1 l2 : bytes_ok m ->
  bstr m p n l1 -> bstr m q n l2 ->
  strncmp m p q n = 0 <-> l1 = l2.
Proof.
  intros Hb. revert p q l1 l2.
  assert (forall a, u8 (m a) = m a) as Hu by (intros; apply Z.mod_small, Hb).
  induction n as [|n IH]; intros p q l1 l2 H1 H2; simpl strncmp.
  { simpl in *. by subst. }
  rewrite !Hu. destruct l1 as [|c1 l1], l2 as [|c2 l2]; simpl in *.
  - rewrite H1, H2. done.
  - rewrite H1. destruct H2 as (E & Hnz & _). simpl. split; [lia|done].
  - destruct H1 as (E & Hnz & _). rewrite H2.
    rewrite (proj2 (Z.eqb_neq (m p) 0)) by congruence. simpl.
    split; [lia|done].
  - destruct H1 as (E1 & Hz1 & H1), H2 as (E2 & Hz2 & H2).
    rewrite (proj2 (Z.eqb_neq (m p) 0)) by congruence. simpl.
    destruct (Z.eqb_spec (m p) (m q)) as [E|E].
    + rewrite (IH _ _ l1 l2) by done. split; [|by intros [=]].
      intros ->. f_equal. congruence.
    + split; [lia|]. intros [= ?]. congruence.
Qed.

Lemma strncpy_out m s t n x : x < s \/ s + Z.of_nat n <= x ->
  strncpy m s t n x = m x.
Proof.
  revert m s t. induction n as [|n IH]; intros m s t Hx; simpl strncpy; [done|].
  destruct (negb _).
  - rewrite IH, store8_ne by lia. done.
  - rewrite fill_out, store8_ne by lia. done.
Qed.

(** [strncpy] copies the string, pads with zeros up to [n] and writes nothing
    else. *)
Theorem strncpy_spec m s t n l : bytes_ok m ->
  bstr m t n l -> (s + Z.of_nat n <= t \/ t + Z.of_nat n <= s) ->
  bstr (strncpy m s t n) s n l /\
  (forall i, Z.of_nat (length l) <= i < Z.of_nat n -> strncpy m s t n (s + i) = 0) /\
  (forall x, x < s \/ s + Z.of_nat n <= x -> strncpy m s t n x = m x).
Proof.
  intros Hb Ht Hd. split; [|split; [|intros; by apply strncpy_out]].
  - revert m s t l Hb Ht Hd. induction n as [|n IH]; intros m s t l Hb Ht Hd; [done|].
    simpl strncpy. destruct l as [|c l]; simpl in Ht.
    + rewrite Ht; simpl. by rewrite fill_out, store8_eq by lia.
    + destruct Ht as (E & Hnz & Ht). rewrite (proj2 (Z.eqb_neq (m t) 0)) by congruence.
      simpl. split; [|split; [done|]].
      * rewrite strncpy_out, store8_eq, E by lia. apply Z.mod_small.
        rewrite <- E. apply Hb.
      * apply IH; [by apply bytes_ok_store8| |lia].
        eapply bstr_ext; [|done]. intros x Hx. by rewrite store8_ne by lia.
  - revert m s t l Hb Ht Hd. induction n as [|n IH]; intros m s t l Hb Ht Hd i Hi; [lia|].
    simpl strncpy. destruct l as [|c l]; simpl in Ht.
    + rewrite Ht; simpl. destruct (decide (i = 0)) as [->|].
      * by rewrite fill_out, Z.add_0_r, store8_eq by lia.
      * by rewrite fill_in by lia.
    + destruct Ht as (E & Hnz & Ht). rewrite (proj2 (Z.eqb_neq (m t) 0)) by congruence.
      simpl in *. replace (s + i) with (s + 1 + (i - 1)) by lia.
      apply (IH _ _ _ l); [by apply bytes_ok_store8| |lia|lia].
      eapply bstr_ext; [|done]. intros x Hx. by rewrite store8_ne by lia.
Qed.

Lemma safestrcpy_loop_spec m s t n l : bytes_ok m -> cstr m t l ->
  (s + Z.of_nat n <= t \/ t + Z.of_nat (length l) < s) ->
  let '(m', s') := safestrcpy_loop m s t n in
  s <= s' <= s + Z.of_nat n /\
  (forall x, x < s \/ s + Z.of_nat n <= x -> m' x = m x) /\
  cstr (store8 m' s' 0) s (take n l).
Proof.
  revert m s t l. induction n as [|n IH]; intros m s t l Hb Ht Hd; simpl.
  { split; [lia|]. split; [done|]. apply store8_eq. }
  destruct l as [|c l]; simpl in Ht.
  - rewrite Ht; simpl. split; [lia|]. split; [intros; apply store8_ne; lia|].
    by rewrite store8_ne, store8_eq by lia.
  - destruct Ht as (E & Hnz & Ht). rewrite (proj2 (Z.eqb_neq (m t) 0)) by congruence.
    simpl in *. specialize (IH (store8 m s (m t)) (s + 1) (t + 1) l).
    destruct (safestrcpy_loop _ (s + 1) (t + 1) n) as [m' s'].
    destruct IH as (Hs & Hout & Hc).
    { by apply bytes_ok_store8. }
    { eapply cstr_ext; [|done]. intros x Hx. by rewrite store8_ne by lia. }
    { lia. }
    split; [lia|]. split.
    + intros x Hx. rewrite Hout, store8_ne by lia. done.
    + split; [|done]. rewrite store8_ne, Hout, store8_eq, E by lia.
      apply Z.mod_small. rewrite <- E. apply Hb.
Qed.

(** [safestrcpy] leaves the first [n-1] bytes of the string, terminated, and writes
    nothing outside the [n] bytes. *)
Theorem safestrcpy_spec m s t n l : bytes_ok m -> 0 < n -> cstr m t l ->
  (s + n <= t \/ t + Z.of_nat (length l) < s) ->
  cstr (safestrcpy m s t n) s (take (Z.to_nat (n - 1)) l) /\
  (forall x, x < s \/ s + n <= x -> safestrcpy m s t n x = m x).
Proof.
  intros Hb Hn Ht Hd. unfold safestrcpy. destruct (Z.leb_spec n 0); [lia|].
  pose proof (safestrcpy_loop_spec m s t (Z.to_nat (n - 1)) l Hb Ht) as H'.
  destruct (safestrcpy_loop _ _ _ _) as [m' s'].
  destruct H' as (Hs & Hout & Hc); [lia|]. split; [done|].
  intros x Hx. rewrite store8_ne, Hout by lia. done.
Qed.

(** ** Buffers as lists

    Fixed-size character arrays inside kernel structures ([p->name]) are lists
    of bytes; [safestrcpy_buf] is [safestrcpy] between two such arrays. *)

Fixpoint safestrcpy_buf_loop (dst src : list Z) (i n : nat) : list Z * nat :=
  match n with
  | O => (dst, i)
  | S n' =>
      let c := default 0 (src !! i) in
      let dst' := <[i := c]> dst in
      if negb (c =? 0) then safestrcpy_buf_loop dst' src (S i) n' else (dst', S i)
  end.

Definition safestrcpy_buf (dst src : list Z) (n : Z) : list Z :=
  if n <=? 0 then dst
  else let '(dst', i) := safestrcpy_buf_loop dst src 0 (Z.to_nat (n - 1)) in
       <[i := 0]> dst'.

(** [buf_at m a l]: the array [l] is stored at [a]. *)
Definition buf_at (m : mem) (a : Z) (l : list Z) : Prop :=
  forall i c, l !! i = Some c -> m (a + Z.of_nat i) = c.

Lemma buf_at_store m a l i c : (i < length l)%nat -> 0 <= c < 256 ->
  buf_at m a l -> buf_at (store8 m (a + Z.of_nat i) c) a (<[i := c]> l).
Proof.
  intros Hi Hc H j d. rewrite list_lookup_insert_Some.
  intros [(<- & <- & _)|[Hne Hj]].
  - rewrite store8_eq. by apply Z.mod_small.
  - rewrite store8_ne by lia. by apply H.
Qed.

Lemma buf_at_ext m m' a l :
  (forall x, a <= x < a + Z.of_nat (length l) -> m x = m' x) ->
  buf_at m a l -> buf_at m' a l.
Proof.
  intros He H i c Hi. rewrite <- He; [by apply H|].
  apply lookup_lt_Some in Hi. lia.
Qed.

Lemma safestrcpy_buf_loop_length dst src i n :
  length (safestrcpy_buf_loop dst src i n).1 = length dst.
Proof.
  revert dst i. induction n as [|n IH]; intros dst i; simpl; [done|].
  destruct (negb _); simpl; [rewrite IH|]; by rewrite length_insert.
Qed.

Lemma safestrcpy_buf_length dst src n :
  length (safestrcpy_buf dst src n) = length dst.
Proof.
  unfold safestrcpy_buf. destruct (n <=? 0); [done|].
  pose proof (safestrcpy_buf_loop_length dst src 0 (Z.to_nat (n - 1))).
  destruct (safestrcpy_buf_loop _ _ _ _); simpl in *. by rewrite length_insert.
Qed.

Lemma safestrcpy_buf_loop_at m d s dst src i n : bytes_ok m ->
  buf_at m d dst -> buf_at m s src ->
  (i + n < length dst)%nat -> (i + n <= length src)%nat ->
  d + Z.of_nat (length dst) <= s \/ s + Z.of_nat (length src) <= d ->
  let '(m', e) := safestrcpy_loop m (d + Z.of_nat i) (s + Z.of_nat i) n in
  let '(dst', j) := safestrcpy_buf_loop dst src i n in
  buf_at m' d dst' /\ e = d + Z.of_nat j /\ (j <= i + n)%nat.
Proof.
  revert m dst i. induction n as [|n IH]; intros m dst i Hb Hd Hs Hl1 Hl2 Hdis; simpl.
  { split; [done|lia]. }
  destruct (lookup_lt_is_Some_2 src i) as [c Hc]; [lia|].
  rewrite Hc; simpl. rewrite (Hs _ _ Hc).
  assert (0 <= c < 256) as Hcb by (rewrite <- (Hs _ _ Hc); apply Hb).
  assert (buf_at (store8 m (d + Z.of_nat i) c) d (<[i := c]> dst)) as Hd'
    by (apply buf_at_store; [lia|done..]).
  destruct (negb (c =? 0)).
  - replace (d + Z.of_nat i + 1) with (d + Z.of_nat (S i)) by lia.
    replace (s + Z.of_nat i + 1) with (s + Z.of_nat (S i)) by lia.
    specialize (IH (store8 m (d + Z.of_nat i) c) (<[i := c]> dst) (S i)).
    destruct (safestrcpy_loop _ _ _ _), (safestrcpy_buf_loop _ _ _ _).
    destruct IH as (H1 & H2 & H3);
      [by apply bytes_ok_store8|done| |rewrite ?length_insert; lia..|split; [done|lia]].
    eapply buf_at_ext; [|done]. intros x Hx. by rewrite store8_ne by lia.
  - split; [done|lia].
Qed.

(** The array version computes what [safestrcpy] does in memory. *)
Lemma safestrcpy_buf_at m d s dst src n : bytes_ok m ->
  buf_at m d dst -> buf_at m s src ->
  n <= Z.of_nat (length dst) -> n <= Z.of_nat (length src) + 1 ->
  d + Z.of_nat (length dst) <= s \/ s + Z.of_nat (length src) <= d ->
  buf_at (safestrcpy m d s n) d (safestrcpy_buf dst src n).
Proof.
  intros Hb Hd Hs Hn1 Hn2 Hdis. unfold safestrcpy, safestrcpy_buf.
  destruct (Z.leb_spec n 0); [done|].
  pose proof (safestrcpy_buf_loop_at m d s dst src 0 (Z.to_nat (n - 1)) Hb Hd Hs) as H'.
  pose proof (safestrcpy_buf_loop_length dst src 0 (Z.to_nat (n - 1))) as Hlen.
  simpl Z.of_nat in H'. rewrite !Z.add_0_r in H'.
  destruct (safestrcpy_loop _ _ _ _), (safestrcpy_buf_loop _ _ _ _).
  simpl in *. destruct H' as (H1 & -> & H3); [lia|lia|done|].
  apply buf_at_store; [lia|lia|done].
Qed.

(** ** The main properties *)

(** Whether it stores words or bytes, [memset] sets exactly the [n] bytes from
    [dst] to the low byte of [c]. *)
Theorem memset_spec m dst c n x : 0 <= n ->
  memset m dst c n x = if bool_decide (dst <= x < dst + n) then u8 c else m x.
Proof.
  intros Hn. rewrite memset_fill by done. case_bool_decide; [by apply fill_in|].
  apply fill_out. lia.
Qed.

(** [memmove] copies the [n] bytes as they were before the call, also when the
    two ranges overlap, and changes nothing else. *)
Theorem memmove_spec m dst src n : bytes_ok m ->
  forall x, memmove m dst src n x =
    if bool_decide (dst <= x < dst + Z.of_nat n) then m (src + (x - dst)) else m x.
Proof. apply memmove_bytes. Qed.

(** ** Sample runs *)

(** Memory holding its own address in every byte. *)
Definition ramp : mem := fun a => u8 a.

Lemma memset_spec_witness : memset ramp 4096 (-1) 8 4103 = 255 /\ memset ramp 4096 (-1) 8 4104 = 8.
Proof.
  split.
  - rewrite (memset_spec ramp 4096 (-1) 8 4103 ltac:(lia)). reflexivity.
  - rewrite (memset_spec ramp 4096 (-1) 8 4104 ltac:(lia)). reflexivity.
Defined.

Lemma memmove_spec_witness :
  bytes_ok ramp /\ memmove ramp 12 10 5 14 = 12 /\ memmove ramp 12 10 5 17 = 17.
Proof.
  assert (bytes_ok ramp) as Hb by (intros a; apply u8_range).
  split; [exact Hb|]. split.
  - rewrite (memmove_spec ramp 12 10 5 Hb 14). reflexivity.
  - rewrite (memmove_spec ramp 12 10 5 Hb 17). reflexivity.
Defined.
