(* ===== verification/Ulib.v ===== *)
(** * The user library's strings (ulib.c)

    String routines of user programs over byte memory. A loop that runs to the
    terminating zero takes fuel; it is enough if it exceeds the length of the string. *)

From stdpp Require Import base tactics numbers list strings.
From Stdlib Require Import ZArith Lia ZifyNat.
From S2P Require Import Prelude Layout CString.

Fixpoint strcpy (m : mem) (s t : Z) (fuel : nat) : option mem :=
  match fuel with
  | O => None
  | S fuel =>
      let m' := store8 m s (m t) in
      if m t =? 0 then Some m' else strcpy m' (s + 1) (t + 1) fuel
  end.

Fixpoint strcmp (m : mem) (p q : Z) (fuel : nat) : option Z :=
  match fuel with
  | O => None
  | S fuel =>
      if negb (m p =? 0) && (m p =? m q) then strcmp m (p + 1) (q + 1) fuel
      else Some (u8 (m p) - u8 (m q))
  end.

(** 0 is the null pointer [strchr] returns at the end of the string. *)
Fixpoint strchr (m : mem) (s c : Z) (fuel : nat) : option Z :=
  match fuel with
  | O => None
  | S fuel => if m s =? 0 then Some 0
              else if m s =? c then Some s else strchr m (s + 1) c fuel
  end.

(** [for(n = 0; s[n]; n++)] *)
Fixpoint strlen_loop (m : mem) (s n : Z) (fuel : nat) : option Z :=
  match fuel with
  | O => None
  | S fuel => if m (s + n) =? 0 then Some n else strlen_loop m s (n + 1) fuel
  end.
Definition strlen (m : mem) (s : Z) (fuel : nat) : option Z := strlen_loop m s 0 fuel.

(** [gets], reading the bytes [input] from file descriptor 0; [read] returns 0 at its
    end. The number of bytes still to be read bounds the loop. *)
Fixpoint gets_loop (m : mem) (buf i max : Z) (input : list Z) : mem * Z * list Z :=
  if i + 1 <? max then
    match input with
    | [] => (m, i, [])
    | c :: rest =>
        let m := store8 m (buf + i) c in
        if (c =? 10) || (c =? 13) then (m, i + 1, rest)
        else gets_loop m buf (i + 1) max rest
    end
  else (m, i, input).
Definition gets (m : mem) (buf max : Z) (input : list Z) : mem * list Z :=
  let '(m, i, rest) := gets_loop m buf 0 max input in
  (store8 m (buf + i) 0, rest).

(** [atoi]: the accumulator is an [int]. *)
Fixpoint atoi_loop (m : mem) (s n : Z) (fuel : nat) : option Z :=
  match fuel with
  | O => None
  | S fuel =>
      if (48 <=? m s) && (m s <=? 57)
      then atoi_loop m (s + 1) (s32 (n * 10 + m s - 48)) fuel
      else Some n
  end.
Definition atoi (m : mem) (s : Z) (fuel : nat) : option Z :=
  atoi_loop m s 0 fuel.

(** The user library's [memmove] always copies upwards. *)
Definition memmove (m : mem) (vdst vsrc n : Z) : mem :=
  move_up m vdst vsrc (Z.to_nat n).

Definition memset (m : mem) (dst c n : Z) : mem := fill m dst n c.

(** ** What they do *)

(** The decimal value [atoi] computes, before wrapping. *)
Definition is_digit (c : Z) : bool := (48 <=? c) && (c <=? 57).
Definition dec_value (l : list Z) (n : Z) : Z :=
  fold_left (fun n c => n * 10 + (c - 48)) l n.

Lemma atoi_loop_spec m s l e n fuel :
  (forall i c, l !! i = Some c -> m (s + Z.of_nat i) = c /\ is_digit c = true) ->
  m (s + Z.of_nat (length l)) = e -> is_digit e = false ->
  (length l < fuel)%nat ->
  atoi_loop m s (s32 n) fuel = Some (s32 (dec_value l n)).
Proof.
  revert s n fuel. induction l as [|c l IH]; intros s n [|fuel] Hl He Hd Hf;
    simpl in *; try lia.
  - rewrite Z.add_0_r in He. subst e. unfold is_digit in Hd. by rewrite Hd.
  - destruct (Hl 0%nat c eq_refl) as [Hc Hcd]. simpl in Hc. rewrite Z.add_0_r in Hc.
    rewrite Hc. unfold is_digit in Hcd. rewrite Hcd.
    replace (s32 (s32 n * 10 + c - 48)) with (s32 (n * 10 + (c - 48)))
      by (unfold s32; zlia).
    apply IH; [|by replace (s + 1 + Z.of_nat (length l)) with
      (s + Z.of_nat (S (length l))) by lia|done|lia].
    intros i c' Hi. destruct (Hl (S i) c' Hi) as [H1 H2]. split; [|done].
    rewrite <- H1. f_equal. lia.
Qed.

Lemma strlen_loop_spec m s l n fuel :
  cstr m (s + n) l -> (length l < fuel)%nat ->
  strlen_loop m s n fuel = Some (n + Z.of_nat (length l)).
Proof.
  revert n fuel. induction l as [|c l IH]; intros n [|fuel] Hc Hf; simpl in *; try lia.
  - rewrite Hc. simpl. f_equal. lia.
  - destruct Hc as (E & Hnz & Hc). rewrite (proj2 (Z.eqb_neq _ 0)) by congruence.
    rewrite IH; [f_equal; lia| |lia]. by rewrite Z.add_assoc.
Qed.

(** [strcpy] leaves a copy of the string and writes nothing else, if the two do not
    overlap. *)
Lemma strcpy_loop_spec m s t l fuel :
  bytes_ok m -> cstr m t l -> (length l < fuel)%nat ->
  (s + Z.of_nat (length l) < t \/ t + Z.of_nat (length l) < s) ->
  exists m', strcpy m s t fuel = Some m' /\ cstr m' s l /\
    forall x, x < s \/ s + Z.of_nat (length l) < x -> m' x = m x.
Proof.
  revert m s t fuel. induction l as [|c l IH]; intros m s t [|fuel] Hb Hc Hf Hd; simpl in *; try lia.
  - rewrite Hc. simpl. eexists. split; [done|]. split; [by rewrite store8_eq|].
    intros x Hx. apply store8_ne. lia.
  - destruct Hc as (E & Hnz & Hc). rewrite (proj2 (Z.eqb_neq (m t) 0)) by congruence.
    destruct (IH (store8 m s (m t)) (s + 1) (t + 1) fuel) as (m' & Em & Hc' & Ho);
      [by apply bytes_ok_store8| |lia|lia|].
    { eapply cstr_ext; [|done]. intros x Hx. by rewrite store8_ne by lia. }
    exists m'. split; [done|]. split.
    + split; [|done]. rewrite Ho, store8_eq, E by lia. apply Z.mod_small. rewrite <- E. apply Hb.
    + intros x Hx. rewrite Ho, store8_ne by lia. done.
Qed.

(** The comparison [strcmp] computes: the first difference, with the end of a string
    counting as 0. *)
Fixpoint compare_str (p q : list Z) : Z :=
  match p, q with
  | [], [] => 0
  | [], d :: _ => - d
  | c :: _, [] => c
  | c :: p, d :: q => if c =? d then compare_str p q else c - d
  end.

Lemma compare_str_eq p q :
  Forall (fun c => 0 < c) p -> Forall (fun c => 0 < c) q -> compare_str p q = 0 <-> p = q.
Proof.
  revert q. induction p as [|c p IH]; intros [|d q] Hp Hq; simpl.
  - done.
  - apply Forall_cons in Hq as [? _]. split; [lia|done].
  - apply Forall_cons in Hp as [? _]. split; [lia|done].
  - apply Forall_cons in Hp as [? Hp], Hq as [? Hq]. destruct (Z.eqb_spec c d) as [<-|Hne].
    + rewrite IH by done. split; [by intros ->|congruence].
    + split; [lia|congruence].
Qed.

Lemma strcmp_cstr m p q l k fuel :
  bytes_ok m -> cstr m p l -> cstr m q k -> (length l < fuel)%nat ->
  strcmp m p q fuel = Some (compare_str l k).
Proof.
  intros Hb. revert p q k fuel. induction l as [|c l IH]; intros p q k [|fuel] Hl Hk Hf; simpl in *; try lia.
  - rewrite Hl. simpl. destruct k as [|d k]; simpl in Hk.
    + by rewrite Hk.
    + destruct Hk as (E & _). rewrite E. unfold u8. rewrite (Z.mod_small d); [f_equal; simpl; lia|].
      rewrite <- E. apply Hb.
  - destruct Hl as (E & Hnz & Hl). rewrite E, (proj2 (Z.eqb_neq c 0)) by done. simpl.
    assert (Hc : 0 <= c < 256) by (rewrite <- E; apply Hb).
    destruct k as [|d k]; simpl in Hk.
    + rewrite Hk, (proj2 (Z.eqb_neq c 0)) by done. unfold u8. rewrite Z.mod_small by done. f_equal. lia.
    + destruct Hk as (E' & _ & Hk). rewrite E'. destruct (Z.eqb_spec c d) as [->|Hne].
      * apply IH; [done..|lia].
      * assert (Hd : 0 <= d < 256) by (rewrite <- E'; apply Hb).
        unfold u8. by rewrite !Z.mod_small.
Qed.

(** [strchr] returns the address of the first occurrence, or null. *)
Lemma strchr_cstr m s l c fuel :
  cstr m s l -> (length l < fuel)%nat ->
  strchr m s c fuel = Some
    (match list_find (fun x => x = c) l with Some (i, _) => s + Z.of_nat i | None => 0 end).
Proof.
  revert s fuel. induction l as [|d l IH]; intros s [|fuel] Hl Hf; simpl in *; try lia.
  - by rewrite Hl.
  - destruct Hl as (E & Hnz & Hl). rewrite E, (proj2 (Z.eqb_neq d 0)) by done.
    destruct (Z.eqb_spec d c) as [->|Hne].
    + rewrite decide_True by done. f_equal. lia.
    + rewrite decide_False by done. rewrite IH by (done || lia).
      destruct (list_find _ l) as [[i x]|]; simpl; [|done]. f_equal. lia.
Qed.

(** [gets] stores one line, at most [max-1] bytes, and terminates it. *)
Fixpoint line (max : nat) (input : list Z) : list Z :=
  match max, input with
  | O, _ | _, [] => []
  | S max, c :: input => if (c =? 10) || (c =? 13) then [c] else c :: line max input
  end.

Lemma gets_loop_spec m buf i max input :
  i + 1 <= max ->
  let l := line (Z.to_nat (max - 1 - i)) input in
  let '(m', j, rest) := gets_loop m buf i max input in
  j = i + Z.of_nat (length l) /\ input = l ++ rest /\ j < max /\
  (forall k c, l !! k = Some c -> m' (buf + i + Z.of_nat k) = u8 c) /\
  (forall x, x < buf + i \/ buf + j <= x -> m' x = m x).
Proof.
  revert m i. induction input as [|c input IH]; intros m i Hi; simpl.
  - assert (El : line (Z.to_nat (max - 1 - i)) [] = []) by by destruct (Z.to_nat _).
    rewrite El. simpl. destruct (i + 1 <? max); (split; [lia|]); repeat split; try lia; done.
  - destruct (Z.ltb_spec (i + 1) max) as [Hlt|Hge].
    + replace (Z.to_nat (max - 1 - i)) with (S (Z.to_nat (max - 1 - (i + 1)))) by lia. simpl.
      destruct ((c =? 10) || (c =? 13)).
      * simpl. split; [lia|]. split; [done|]. split; [lia|]. split.
        -- intros [|k] d Hd; simpl in Hd; [|done]. injection Hd as <-. rewrite Z.add_0_r. apply store8_eq.
        -- intros x Hx. apply store8_ne. lia.
      * specialize (IH (store8 m (buf + i) c) (i + 1) ltac:(lia)).
        destruct (gets_loop _ _ _ _ _) as [[m' j] rest]. destruct IH as (E1 & E2 & E3 & E4 & E5).
        simpl. split; [lia|]. split; [by rewrite <- E2|]. split; [done|]. split.
        -- intros [|k] d Hd; simpl in Hd.
           ++ injection Hd as <-. rewrite Z.add_0_r, E5, store8_eq by lia. done.
           ++ rewrite <- (E4 k d Hd). f_equal. lia.
        -- intros x Hx. rewrite E5, store8_ne by lia. done.
    + replace (Z.to_nat (max - 1 - i)) with 0%nat by lia. simpl.
      split; [lia|]. repeat split; try lia; done.
Qed.

(** The upward copy of the user library's [memmove] overwrites the source before it
    is read when the destination lies just above it. *)
Lemma memmove_overlap m a : memmove m (a + 1) a 2 (a + 2) = u8 (u8 (m a)).
Proof.
  unfold memmove. simpl. replace (a + 1 + 1) with (a + 2) by lia. by rewrite !store8_eq.
Qed.
