(* ===== verification/Apic.v ===== *)
(** * Interrupt controllers and the clock: lapic.c, ioapic.c, picirq.c

    The controllers are reached through memory-mapped registers ([Mmio]) and ports ([Ports]);
    what they do is a parameter. [lapic] is the address mpinit found. Loops that poll a device
    have fuel. [microdelay] has an empty body. *)

From stdpp Require Import base tactics numbers list strings.
From Stdlib Require Import ZArith Lia.
From S2P Require Import Prelude Layout Ports.

(** Reading and writing a device register at an address. *)
Class Mmio (D : Type) := {
  reg_read : Z -> D -> Z * D;
  reg_write : Z -> Z -> D -> D }.

(** The memory, and the devices. *)
Record hw (D : Type) := Hw { hw_mem : mem; hw_dev : D }.
Arguments Hw {D}.
Arguments hw_mem {D}.
Arguments hw_dev {D}.

Section Apic.
Context {D : Type} {ports : Ports D} {mmio : Mmio D}.
Abbreviation St := (hw D).

Definition hw_dev_lens : lens St D := Lens hw_dev (fun d s => Hw (hw_mem s) d).
Definition dev_in (port : Z) : M St Z := zoom hw_dev_lens (port_in port).
Definition dev_out (port v : Z) : M St unit := zoom hw_dev_lens (port_out port v).
Definition mm_read (a : Z) : M St Z :=
  let! s := get in let '(v, d) := reg_read a (hw_dev s) in put (Hw (hw_mem s) d) ;;; m_ret v.
Definition mm_write (a v : Z) : M St unit := modify (fun s => Hw (hw_mem s) (reg_write a (u32 v) (hw_dev s))).
(** A store of a [ushort]. *)
Definition store16 (a v : Z) : M St unit :=
  modify (fun s => Hw (store8 (store8 (hw_mem s) a v) (a + 1) (v / 256)) (hw_dev s)).

(** ** picirq.c *)

Definition IO_PIC1 : Z := 0x20.
Definition IO_PIC2 : Z := 0xA0.
Definition picinit : M St unit :=
  dev_out (IO_PIC1 + 1) 0xFF ;;;
  dev_out (IO_PIC2 + 1) 0xFF.

(** ** ioapic.c *)

Definition IOAPIC : Z := 0xFEC00000.
Definition REG_ID : Z := 0x00.
Definition REG_VER : Z := 0x01.
Definition REG_TABLE : Z := 0x10.
Definition INT_DISABLED : Z := 0x00010000.

(** The fields of [struct ioapic]. *)
Definition ioapic_reg : Z := IOAPIC.
Definition ioapic_data : Z := IOAPIC + 16.

Definition ioapicread (reg : Z) : M St Z :=
  mm_write ioapic_reg reg ;;;
  mm_read ioapic_data.
Definition ioapicwrite (reg data : Z) : M St unit :=
  mm_write ioapic_reg reg ;;;
  mm_write ioapic_data data.

(** The message for an id that differs from [ioapicid] is left out. *)
Definition ioapicinit : M St unit :=
  let! v := ioapicread REG_VER in
  let maxintr := Z.land (Z.shiftr v 16) 0xFF in
  let! id := ioapicread REG_ID in
  mfor (seq 0 (Z.to_nat (maxintr + 1))) (fun i =>
    let i := Z.of_nat i in
    ioapicwrite (REG_TABLE + 2 * i) (Z.lor INT_DISABLED (T_IRQ0 + i)) ;;;
    ioapicwrite (REG_TABLE + 2 * i + 1) 0).

Definition ioapicenable (irq cpunum : Z) : M St unit :=
  ioapicwrite (REG_TABLE + 2 * irq) (T_IRQ0 + irq) ;;;
  ioapicwrite (REG_TABLE + 2 * irq + 1) (Z.shiftl cpunum 24).

(** ** lapic.c: the local controller *)

Definition ID : Z := 0x0020 / 4.
Definition VER : Z := 0x0030 / 4.
Definition TPR : Z := 0x0080 / 4.
Definition EOI : Z := 0x00B0 / 4.
Definition SVR : Z := 0x00F0 / 4.
Definition ENABLE : Z := 0x00000100.
Definition ESR : Z := 0x0280 / 4.
Definition ICRLO : Z := 0x0300 / 4.
Definition INIT : Z := 0x00000500.
Definition STARTUP : Z := 0x00000600.
Definition DELIVS : Z := 0x00001000.
Definition ASSERT : Z := 0x00004000.
Definition LEVEL : Z := 0x00008000.
Definition BCAST : Z := 0x00080000.
Definition ICRHI : Z := 0x0310 / 4.
Definition TIMER : Z := 0x0320 / 4.
Definition X1 : Z := 0x0000000B.
Definition PERIODIC : Z := 0x00020000.
Definition PCINT : Z := 0x0340 / 4.
Definition LINT0 : Z := 0x0350 / 4.
Definition LINT1 : Z := 0x0360 / 4.
Definition ERROR : Z := 0x0370 / 4.
Definition MASKED : Z := 0x00010000.
Definition TICR : Z := 0x0380 / 4.
Definition TDCR : Z := 0x03E0 / 4.

Variable lapic : Z.

Definition lapicr (index : Z) : M St Z := mm_read (lapic + 4 * index).
Definition lapicw (index value : Z) : M St unit :=
  mm_write (lapic + 4 * index) value ;;;
  let! _ := lapicr ID in m_ret tt.

(** [while(lapic[ICRLO] & DELIVS);] *)
Fixpoint icr_wait (fuel : nat) : M St unit :=
  match fuel with
  | O => block
  | S fuel =>
      let! v := lapicr ICRLO in
      if negb (Z.land v DELIVS =? 0) then icr_wait fuel else m_ret tt
  end.

Definition lapicinit (fuel : nat) : M St unit :=
  if lapic =? 0 then m_ret tt else
  lapicw SVR (Z.lor ENABLE (T_IRQ0 + IRQ_SPURIOUS)) ;;;
  lapicw TDCR X1 ;;;
  lapicw TIMER (Z.lor PERIODIC (T_IRQ0 + IRQ_TIMER)) ;;;
  lapicw TICR 10000000 ;;;
  lapicw LINT0 MASKED ;;;
  lapicw LINT1 MASKED ;;;
  let! ver := lapicr VER in
  when (4 <=? Z.land (Z.shiftr ver 16) 0xFF) (lapicw PCINT MASKED) ;;;
  lapicw ERROR (T_IRQ0 + IRQ_ERROR) ;;;
  lapicw ESR 0 ;;;
  lapicw ESR 0 ;;;
  lapicw EOI 0 ;;;
  lapicw ICRHI 0 ;;;
  lapicw ICRLO (Z.lor (Z.lor BCAST INIT) LEVEL) ;;;
  icr_wait fuel ;;;
  lapicw TPR 0.

Definition lapicid : M St Z :=
  if lapic =? 0 then m_ret 0 else
  let! v := lapicr ID in m_ret (Z.shiftr v 24).

Definition lapiceoi : M St unit := when (negb (lapic =? 0)) (lapicw EOI 0).

Definition CMOS_PORT : Z := 0x70.
Definition CMOS_RETURN : Z := 0x71.

Definition lapicstartap (apicid addr : Z) : M St unit :=
  dev_out CMOS_PORT 0xF ;;;
  dev_out (CMOS_PORT + 1) 0x0A ;;;
  let wrv := P2V (Z.lor (Z.shiftl 0x40 4) 0x67) in
  store16 wrv 0 ;;;
  store16 (wrv + 2) (Z.shiftr addr 4) ;;;
  lapicw ICRHI (Z.shiftl apicid 24) ;;;
  lapicw ICRLO (Z.lor (Z.lor INIT LEVEL) ASSERT) ;;;
  lapicw ICRLO (Z.lor INIT LEVEL) ;;;
  mfor (seq 0 2) (fun _ =>
    lapicw ICRHI (Z.shiftl apicid 24) ;;;
    lapicw ICRLO (Z.lor STARTUP (Z.shiftr addr 12))).

(** ** lapic.c: the clock *)

Definition CMOS_STATA : Z := 0x0a.
Definition CMOS_STATB : Z := 0x0b.
Definition CMOS_UIP : Z := Z.shiftl 1 7.
Definition SECS : Z := 0x00.
Definition MINS : Z := 0x02.
Definition HOURS : Z := 0x04.
Definition DAY : Z := 0x07.
Definition MONTH : Z := 0x08.
Definition YEAR : Z := 0x09.

Record rtcdate := Rtcdate {
  second : Z;
  minute : Z;
  hour : Z;
  day : Z;
  month : Z;
  year : Z }.
#[export] Instance rtcdate_eq_dec : EqDecision rtcdate.
Proof. solve_decision. Defined.

Definition cmos_read (reg : Z) : M St Z :=
  dev_out CMOS_PORT reg ;;;
  dev_in CMOS_RETURN.

Definition fill_rtcdate : M St rtcdate :=
  let! s := cmos_read SECS in
  let! mi := cmos_read MINS in
  let! h := cmos_read HOURS in
  let! d := cmos_read DAY in
  let! mo := cmos_read MONTH in
  let! y := cmos_read YEAR in
  m_ret (Rtcdate s mi h d mo y).

(** The loop that reads until the clock stood still; [memcmp] compares all the fields. *)
Fixpoint cmostime_loop (fuel : nat) : M St rtcdate :=
  match fuel with
  | O => block
  | S fuel =>
      let! t1 := fill_rtcdate in
      let! a := cmos_read CMOS_STATA in
      if negb (Z.land a CMOS_UIP =? 0) then cmostime_loop fuel else
      let! t2 := fill_rtcdate in
      if bool_decide (t1 = t2) then m_ret t1 else cmostime_loop fuel
  end.

Definition CONV (x : Z) : Z := u32 (Z.shiftr x 4 * 10 + Z.land x 0xf).

Definition cmostime (fuel : nat) : M St rtcdate :=
  let! sb := cmos_read CMOS_STATB in
  let bcd := Z.land sb (Z.shiftl 1 2) =? 0 in
  let! t1 := cmostime_loop fuel in
  let t1 :=
    if bcd then
      Rtcdate (CONV (second t1)) (CONV (minute t1)) (CONV (hour t1)) (CONV (day t1)) (CONV (month t1)) (CONV (year t1))
    else t1 in
  m_ret (Rtcdate (second t1) (minute t1) (hour t1) (day t1) (month t1) (u32 (year t1 + 2000))).
End Apic.
