(* ===== verification/ApicSpec.v ===== *)
(** * The clock and the routing of interrupts

    [cmostime_consistent]: however the clock ticks while its registers are read one by one,
    [cmostime] returns, with a time that the registers showed together. [interrupts_routed]:
    the controllers deliver exactly the interrupts of the drivers, with the vectors that trap
    dispatches. The devices are interfaces with the laws of their data sheets. *)

From stdpp Require Import base tactics numbers list strings.
From Stdlib Require Import ZArith Lia ZifyNat ZifyBool.
From S2P Require Import Prelude Layout Ports Apic.

#[local] Arguments Z.testbit : simpl never.

(** ** The clock *)

(** The registers that change when the clock ticks. *)
Definition TIME : list Z := [SECS; MINS; HOURS; DAY; MONTH; YEAR].

(** A clock behind the ports 0x70 and 0x71. [rtc_quiet] reads after now it may tick; a tick
    changes the registers of the time and is followed by at least 64 reads without one.
    Before a tick the update flag may be set, but not when it is more than 32 reads away. *)
Class Rtc (D : Type) {ports : Ports D} := {
  rtc_sel : D -> Z;
  rtc_reg : D -> Z -> Z;
  rtc_quiet : D -> nat;
  rtc_select d r : 0 <= r < 256 ->
    rtc_sel (outb CMOS_PORT r d) = r /\ rtc_reg (outb CMOS_PORT r d) = rtc_reg d /\ rtc_quiet (outb CMOS_PORT r d) = rtc_quiet d;
  rtc_value d : (inb CMOS_RETURN d).1 = rtc_reg d (rtc_sel d);
  rtc_range d r : 0 <= rtc_reg d r < 256;
  rtc_format d : rtc_reg (inb CMOS_RETURN d).2 CMOS_STATB = rtc_reg d CMOS_STATB;
  rtc_still d n : rtc_quiet d = S n ->
    rtc_quiet (inb CMOS_RETURN d).2 = n /\ forall r, r ∈ TIME -> rtc_reg (inb CMOS_RETURN d).2 r = rtc_reg d r;
  rtc_tick d : rtc_quiet d = 0%nat -> (64 <= rtc_quiet (inb CMOS_RETURN d).2)%nat;
  rtc_uip d : (32 < rtc_quiet d)%nat -> Z.land (rtc_reg d CMOS_STATA) CMOS_UIP = 0 }.

Section Clock.
Context {D : Type} {ports : Ports D} {rtc : Rtc D}.
Implicit Types (d : D) (s : hw D).

(** The states of the devices on the way, by writes to and reads from the clock. *)
Inductive passes : D -> D -> Prop :=
  | passes_refl d : passes d d
  | passes_out d v d' : 0 <= v < 256 -> passes (outb CMOS_PORT v d) d' -> passes d d'
  | passes_in d d' : passes (inb CMOS_RETURN d).2 d' -> passes d d'.

Lemma passes_trans d1 d2 d3 : passes d1 d2 -> passes d2 d3 -> passes d1 d3.
Proof using. induction 1; eauto using passes. Qed.

Definition same_time d d' : Prop := forall r, r ∈ TIME -> rtc_reg d' r = rtc_reg d r.

Lemma same_time_trans d1 d2 d3 : same_time d1 d2 -> same_time d2 d3 -> same_time d1 d3.
Proof using. intros H1 H2 r Hr. rewrite H2, H1; done. Qed.

(** One read: the value is that before a tick. *)
Lemma cmos_read_ok r s :
  0 <= r < 256 ->
  let d := hw_dev s in
  exists d', cmos_read r s = Done (rtc_reg d r) (Hw (hw_mem s) d') /\ passes d d' /\
    rtc_reg d' CMOS_STATB = rtc_reg d CMOS_STATB /\
    match rtc_quiet d with S n => rtc_quiet d' = n /\ same_time d d' | O => (64 <= rtc_quiet d')%nat end.
Proof using.
  intros Hr d. destruct (rtc_select d r Hr) as (E1 & E2 & E3). set (d1 := outb CMOS_PORT r d) in *.
  exists (inb CMOS_RETURN d1).2. split; [|split; [|split]].
  - unfold cmos_read, dev_out, dev_in, port_out, port_in, zoom. munf. replace (u8 r) with r by (unfold u8; zlia).
    simpl. fold d d1. pose proof (rtc_value d1) as Hv. rewrite E1, E2 in Hv. destruct (inb _ d1) as [v d2]. simpl in *. by rewrite Hv.
  - eapply passes_out; [exact Hr|]. apply passes_in, passes_refl.
  - by rewrite rtc_format, E2.
  - pose proof (rtc_still d1) as Hs. pose proof (rtc_tick d1) as Ht. rewrite E3 in Hs, Ht.
    destruct (rtc_quiet d) as [|n]; [by apply Ht|]. destruct (Hs n eq_refl) as [Hq Hr']. split; [done|].
    intros r' Hin. rewrite Hr', E2; done.
Qed.

(** Several reads in a row. *)
Fixpoint reads (l : list Z) : M (hw D) (list Z) :=
  match l with
  | [] => m_ret []
  | r :: l => let! v := cmos_read r in let! vs := reads l in m_ret (v :: vs)
  end.

(** Without a tick all values are of one moment; with one, those up to the tick are old and
    those behind it are new. *)
Definition seen (l : list Z) d d' (vs : list Z) : Prop :=
  if decide (length l <= rtc_quiet d)%nat then
    vs = rtc_reg d <$> l /\ same_time d d' /\ (rtc_quiet d' = rtc_quiet d - length l)%nat
  else exists d1, passes d d1 /\ passes d1 d' /\ same_time d1 d' /\ rtc_reg d1 CMOS_STATB = rtc_reg d CMOS_STATB /\
    vs = (rtc_reg d <$> take (S (rtc_quiet d)) l) ++ (rtc_reg d1 <$> drop (S (rtc_quiet d)) l) /\
    (64 <= rtc_quiet d' + length l)%nat.

Lemma reads_ok l s :
  Forall (fun r => 0 <= r < 256) l -> (length l <= 64)%nat ->
  exists vs d', reads l s = Done vs (Hw (hw_mem s) d') /\ passes (hw_dev s) d' /\
    rtc_reg d' CMOS_STATB = rtc_reg (hw_dev s) CMOS_STATB /\
    ((forall r, r ∈ l -> r ∈ TIME) -> seen l (hw_dev s) d' vs).
Proof using.
  revert s. induction l as [|r l IH]; intros s Hl Hn.
  { exists [], (hw_dev s). split; [by destruct s|]. split; [apply passes_refl|]. split; [done|]. intros _. unfold seen.
    rewrite decide_True by (simpl; lia). split; [done|]. split; [by intros ?|simpl; lia]. }
  apply Forall_cons in Hl as [Hr Hl]. destruct (cmos_read_ok r s Hr) as (d1 & E1 & P1 & F1 & Q1).
  destruct (IH (Hw (hw_mem s) d1) Hl ltac:(simpl in Hn; lia)) as (vs & d' & E' & P' & F' & S'). simpl in *.
  exists (rtc_reg (hw_dev s) r :: vs), d'. split; [unfold m_bind in *; by rewrite E1, E'|].
  split; [by eapply passes_trans|]. split; [congruence|]. intros Hin. specialize (S' ltac:(intros; apply Hin, elem_of_cons; by right)).
  unfold seen in *. simpl length. set (d := hw_dev s) in *. destruct (rtc_quiet d) as [|n] eqn:Eq.
  - rewrite decide_False by lia. rewrite decide_True in S' by lia. destruct S' as (-> & T & Q).
    exists d1. simpl. split; [done|]. do 3 (split; [done|]). split; [done|lia].
  - destruct Q1 as [Q1 T1]. rewrite Q1 in S'. destruct (decide (length l <= n)%nat) as [Hle|Hgt].
    + rewrite decide_True by lia. destruct S' as (-> & T & Q). split; [|split; [by eapply same_time_trans|lia]].
      simpl. f_equal. apply list_fmap_ext. intros i r' Hi. apply T1, Hin, elem_of_cons. right. by eapply list_elem_of_lookup_2.
    + rewrite decide_False by lia. destruct S' as (d2 & Pa & Pb & T & F2 & -> & Q). exists d2.
      split; [by eapply passes_trans|]. do 2 (split; [done|]). split; [congruence|]. split; [|lia].
      simpl. f_equal. f_equal. apply list_fmap_ext. intros i r' Hi. apply T1, Hin, elem_of_cons. right.
      apply list_elem_of_lookup_2, elem_of_take in Hi as (j & Hj & _). by eapply list_elem_of_lookup_2.
Qed.

(** A date from the values of its registers. *)
Definition date_of (vs : list Z) : rtcdate :=
  match vs with [s; mi; h; d; mo; y] => Rtcdate s mi h d mo y | _ => Rtcdate 0 0 0 0 0 0 end.
Definition raw d : rtcdate := date_of (rtc_reg d <$> TIME).

Lemma fill_reads s : fill_rtcdate s = (let! vs := reads TIME in m_ret (date_of vs)) s.
Proof using.
  unfold fill_rtcdate, TIME. cbn [reads]. unfold m_bind, m_ret. repeat (case_match; simplify_eq/=; try done).
Qed.

Lemma TIME_range : Forall (fun r => 0 <= r < 256) TIME.
Proof. repeat constructor; done. Qed.

Lemma raw_same d d' : same_time d d' -> raw d' = raw d.
Proof using.
  intros H. unfold raw. f_equal. apply list_fmap_ext. intros i r Hi. by eapply H, list_elem_of_lookup_2.
Qed.

(** What [fill_rtcdate] returns, with and without a tick. *)
Lemma fill_ok s :
  let d := hw_dev s in
  exists t d', fill_rtcdate s = Done t (Hw (hw_mem s) d') /\ passes d d' /\
    rtc_reg d' CMOS_STATB = rtc_reg d CMOS_STATB /\
    ((6 <= rtc_quiet d)%nat /\ t = raw d /\ same_time d d' /\ (rtc_quiet d' = rtc_quiet d - 6)%nat \/
     (rtc_quiet d < 6)%nat /\ (58 <= rtc_quiet d')%nat).
Proof using.
  intros d. destruct (reads_ok TIME s TIME_range ltac:(simpl; lia)) as (vs & d' & E & P & F & S).
  exists (date_of vs), d'. split; [rewrite fill_reads; unfold m_bind; by rewrite E|]. do 2 (split; [done|]).
  specialize (S ltac:(done)). unfold seen in S. fold d in S. change (length TIME) with 6%nat in S. destruct (decide _) as [Hq|Hq].
  - left. destruct S as (-> & T & Q). done.
  - right. destruct S as (_ & _ & _ & _ & _ & _ & Q). lia.
Qed.

(** A turn up to the look at the update flag. *)
Lemma half_turn_ok s :
  let d := hw_dev s in
  exists t a d', (let! t := fill_rtcdate in let! a := cmos_read CMOS_STATA in m_ret (t, a)) s = Done (t, a) (Hw (hw_mem s) d') /\
    passes d d' /\ rtc_reg d' CMOS_STATB = rtc_reg d CMOS_STATB /\
    ((6 <= rtc_quiet d)%nat -> t = raw d) /\ ((38 < rtc_quiet d)%nat -> Z.land a CMOS_UIP = 0) /\
    ((7 <= rtc_quiet d)%nat /\ same_time d d' /\ (rtc_quiet d' = rtc_quiet d - 7)%nat \/
     (rtc_quiet d < 7)%nat /\ (57 <= rtc_quiet d')%nat).
Proof using.
  intros d. destruct (fill_ok s) as (t & d1 & E1 & P1 & F1 & C1). fold d in P1, F1, C1.
  destruct (cmos_read_ok CMOS_STATA (Hw (hw_mem s) d1) ltac:(by vm_compute)) as (d2 & E2 & P2 & F2 & C2). simpl in *.
  exists t, (rtc_reg d1 CMOS_STATA), d2. split; [unfold m_bind; by rewrite E1, E2|].
  split; [by eapply passes_trans|]. split; [congruence|]. split; [intros; destruct C1 as [(_ & Ht & _)|(Hlt & _)]; [exact Ht|lia]|].
  split; [intros Hq; apply rtc_uip; destruct C1 as [(_ & _ & _ & Q1)|(? & _)]; lia|].
  destruct C1 as [(Hq & _ & T1 & Q1)|(Hq & Q1)].
  - rewrite Q1 in C2. destruct (rtc_quiet d - 6)%nat as [|n] eqn:En.
    + right. lia.
    + destruct C2 as [C2 T2]. left. split; [lia|]. split; [by eapply same_time_trans|lia].
  - right. destruct (rtc_quiet d1) as [|n]; [lia|]. destruct C2 as [C2 _]. lia.
Qed.

(** What the loop returns. *)
Definition told s (t : rtcdate) (s' : hw D) : Prop :=
  hw_mem s' = hw_mem s /\ passes (hw_dev s) (hw_dev s') /\ rtc_reg (hw_dev s') CMOS_STATB = rtc_reg (hw_dev s) CMOS_STATB /\
  exists d, passes (hw_dev s) d /\ passes d (hw_dev s') /\ t = raw d.

Lemma told_later s d t s' :
  passes (hw_dev s) d -> rtc_reg d CMOS_STATB = rtc_reg (hw_dev s) CMOS_STATB ->
  told (Hw (hw_mem s) d) t s' -> told s t s'.
Proof using.
  intros P F (E & P' & F' & d1 & P1 & P2 & Et). split; [done|]. split; [by eapply passes_trans|]. split; [simpl in *; congruence|].
  exists d1. split; [by eapply passes_trans|done].
Qed.

(** One turn: it returns a time the clock showed, or goes on; it does so only before a tick,
    with fewer reads to go, or long before the next one. *)
Lemma turn_ok fuel s Q :
  let d := hw_dev s in
  (forall t s', told s t s' -> Q t s') ->
  (forall d', passes d d' -> rtc_reg d' CMOS_STATB = rtc_reg d CMOS_STATB -> (rtc_quiet d <= 38)%nat ->
    (rtc_quiet d' < rtc_quiet d)%nat \/ (38 < rtc_quiet d')%nat ->
    returns (cmostime_loop fuel) (Hw (hw_mem s) d') Q) ->
  returns (cmostime_loop (S fuel)) s Q.
Proof using.
  intros d HQ Hgo. destruct (half_turn_ok s) as (t1 & a & d2 & E & P2 & F2 & Et & Ha & C). fold d in P2, F2, Et, Ha, C.
  cbn [cmostime_loop]. enough (H : returns (let! r := (let! t := fill_rtcdate in let! a := cmos_read CMOS_STATA in m_ret (t, a)) in
    if negb (Z.land r.2 CMOS_UIP =? 0) then cmostime_loop fuel else
    let! t2 := fill_rtcdate in if bool_decide (r.1 = t2) then m_ret r.1 else cmostime_loop fuel) s Q).
  { destruct H as (x & s' & H & Hq). exists x, s'. split; [|done]. rewrite <- H. unfold m_bind, m_ret.
    destruct (fill_rtcdate s) as [? s1| |]; [|done..]. by destruct (cmos_read CMOS_STATA s1). }
  eapply returns_Done; [exact E|]. cbn [fst snd]. destruct (Z.eqb_spec (Z.land a CMOS_UIP) 0) as [Hu|Hu]; cbn [negb].
  - destruct (fill_ok (Hw (hw_mem s) d2)) as (t2 & d3 & E3 & P3 & F3 & C3). cbn [hw_mem hw_dev] in *.
    eapply returns_Done; [exact E3|]. case_bool_decide as Heq.
    + apply returns_ret, HQ. split; [done|]. simpl. split; [by eapply passes_trans|]. split; [by rewrite F3, F2|].
      destruct C as [(Hq & _)|(Hq & Hq2)].
      * exists d. split; [apply passes_refl|]. split; [by eapply passes_trans|]. apply Et. lia.
      * destruct C3 as [(_ & -> & _)|(? & _)]; [|lia]. by exists d2.
    + assert (Hn : ~ (13 <= rtc_quiet d)%nat).
      { intros Hn. destruct C as [(_ & T & Hq2)|(? & _)]; [|lia]. destruct C3 as [(_ & -> & _)|(? & _)]; [|lia].
        destruct Heq. rewrite Et by lia. symmetry. by apply raw_same. }
      apply Hgo; [by eapply passes_trans|by rewrite F3, F2|lia|].
      destruct C as [(Hq & _ & Hq2)|(Hq & Hq2)], C3 as [(Hq3 & _ & _ & Hq4)|(Hq3 & Hq4)]; lia.
  - apply Hgo; [done|done| |].
    + destruct (decide (38 < rtc_quiet d)%nat) as [Hq|]; [by specialize (Ha Hq)|lia].
    + destruct C as [(Hq & _ & Hq2)|(Hq & Hq2)]; lia.
Qed.

Lemma loop_ok fuel s :
  (rtc_quiet (hw_dev s) + 2 <= fuel)%nat \/ (38 < rtc_quiet (hw_dev s) /\ 1 <= fuel)%nat ->
  returns (cmostime_loop fuel) s (told s).
Proof using.
  revert s. induction fuel as [|fuel IH]; intros s Hf; [lia|].
  apply turn_ok; [done|]. intros d' P F Hq Hd. eapply returns_mono; [apply IH; simpl; lia|].
  intros t s' T. by eapply told_later.
Qed.

Lemma passes_format d d' : passes d d' -> rtc_reg d' CMOS_STATB = rtc_reg d CMOS_STATB.
Proof using.
  induction 1 as [d|d v d' Hv _ IH|d d' _ IH]; [done| |].
  - rewrite IH. destruct (rtc_select d v Hv) as (_ & -> & _). done.
  - by rewrite IH, rtc_format.
Qed.

(** The time the clock shows: its registers are numbers, or pairs of decimal digits. *)
Definition field d (r : Z) : Z :=
  let v := rtc_reg d r in
  if Z.testbit (rtc_reg d CMOS_STATB) 2 then v else 10 * (v / 16) + v mod 16.
Definition shown d : rtcdate :=
  Rtcdate (field d SECS) (field d MINS) (field d HOURS) (field d DAY) (field d MONTH) (field d YEAR + 2000).

Lemma binary_flag v : (Z.land v (Z.shiftl 1 2) =? 0) = negb (Z.testbit v 2).
Proof.
  assert (E : Z.land v (Z.shiftl 1 2) = if Z.testbit v 2 then 4 else 0).
  { apply Z.bits_inj'. intros n Hn. rewrite Z.land_spec. change (Z.shiftl 1 2) with (2 ^ 2). rewrite Z.pow2_bits_eqb by lia.
    destruct (Z.eqb_spec 2 n) as [<-|Hne].
    - by destruct (Z.testbit v 2).
    - rewrite andb_false_r. destruct (Z.testbit v 2); [|by rewrite Z.testbit_0_l].
      change 4 with (2 ^ 2). rewrite Z.pow2_bits_eqb by lia. lia. }
  rewrite E. by destruct (Z.testbit v 2).
Qed.

Lemma CONV_digits v : 0 <= v < 256 -> CONV v = 10 * (v / 16) + v mod 16.
Proof.
  intros Hv. unfold CONV. rewrite Z.shiftr_div_pow2 by lia. change 0xf with (Z.ones 4). rewrite Z.land_ones by lia.
  change (2 ^ 4) with 16. rewrite u32_small by zlia. lia.
Qed.
End Clock.


(** A clock that counts seconds, in decimal digits. *)
Record clock := Clock { ck_sel : Z; ck_secs : Z; ck_quiet : nat }.
Definition clock_reg (d : clock) (r : Z) : Z :=
  if r =? SECS then 16 * (ck_secs d mod 60 / 10) + ck_secs d mod 10
  else if r =? YEAR then 0x26
  else if r =? CMOS_STATA then (if decide (32 < ck_quiet d)%nat then 0 else CMOS_UIP)
  else if r =? CMOS_STATB then 2
  else 1.
Definition clock_step (d : clock) : clock :=
  match ck_quiet d with
  | S n => Clock (ck_sel d) (ck_secs d) n
  | O => Clock (ck_sel d) (ck_secs d + 1) 100
  end.
#[local] Instance clock_ports : Ports clock :=
  {| inb port d := (clock_reg d (ck_sel d), clock_step d);
     outb port v d := Clock v (ck_secs d) (ck_quiet d);
     insl _ _ d := ([], d); outsl _ _ d := d |}.

Lemma clock_range d r : 0 <= clock_reg d r < 256.
Proof. unfold clock_reg. change CMOS_UIP with 128. repeat case_match; zlia. Qed.

#[local] Instance clock_rtc : Rtc clock.
Proof.
  refine {| rtc_sel := ck_sel; rtc_reg := clock_reg; rtc_quiet := ck_quiet |}.
  - done.
  - done.
  - apply clock_range.
  - done.
  - intros d n E. simpl. unfold clock_step. rewrite E. split; [done|]. intros r Hr. unfold clock_reg. simpl.
    repeat (apply elem_of_cons in Hr as [->|Hr]; [done|]). by apply not_elem_of_nil in Hr.
  - intros d E. simpl. unfold clock_step. rewrite E. simpl. lia.
  - intros d Hq. unfold clock_reg. simpl. by rewrite decide_True.
Defined.

(** A tick in the middle of the first turn. *)
Definition clock_near : hw clock := Hw (fun _ => 0) (Clock 0 29 3).

(** ** The I/O APIC *)

(** Its registers are reached through a window: [io_sel] is the register selected. Those of
    the redirection table hold what is written to them. *)
Class IoApic (D : Type) {mmio : Mmio D} := {
  io_sel : D -> Z;
  io_reg : D -> Z -> Z;
  io_select d r : 0 <= r < 4294967296 ->
    io_sel (reg_write ioapic_reg r d) = r /\ io_reg (reg_write ioapic_reg r d) = io_reg d;
  io_read d : (reg_read ioapic_data d).1 = io_reg d (io_sel d) /\ io_reg (reg_read ioapic_data d).2 = io_reg d;
  io_write d v r : REG_TABLE <= io_sel d ->
    io_reg (reg_write ioapic_data v d) r = if r =? io_sel d then v else io_reg d r }.

Section Routing.
Context {D : Type} {ports : Ports D} {mmio : Mmio D} {io : IoApic D}.
Implicit Types (s : hw D).

Abbreviation regs s := (io_reg (hw_dev s)).

Lemma ioapicwrite_ok r v s :
  REG_TABLE <= r < 4294967296 -> 0 <= v < 4294967296 ->
  returns (ioapicwrite r v) s (fun _ s' => forall r', regs s' r' = if r' =? r then v else regs s r').
Proof using.
  intros Hr Hv. change REG_TABLE with 16 in Hr. destruct (io_select (hw_dev s) r ltac:(lia)) as [E1 E2].
  eexists _, _. split; [unfold ioapicwrite, mm_write; munf; reflexivity|]. intros r'. cbn [hw_dev].
  rewrite !u32_small by lia. rewrite io_write by (rewrite E1; change REG_TABLE with 16; lia). by rewrite E1, E2.
Qed.

Lemma ioapicread_ok r s : 0 <= r < 4294967296 -> returns (ioapicread r) s (fun v s' => v = regs s r /\ regs s' = regs s).
Proof using.
  intros Hr. destruct (io_select (hw_dev s) r Hr) as [E1 E2]. unfold ioapicread, mm_write, mm_read.
  apply returns_modify, returns_get. cbn [hw_dev]. rewrite u32_small by lia. set (d1 := reg_write _ r _) in *.
  destruct (io_read d1) as [F1 F2]. rewrite E1 in F1. destruct (reg_read ioapic_data d1) as [v d2]. simpl in *.
  eapply returns_Done; [reflexivity|]. apply returns_ret. simpl. by rewrite F1, F2, E2.
Qed.

(** Entry [irq] of the redirection table. *)
Definition low s (irq : Z) : Z := regs s (REG_TABLE + 2 * irq).
Definition high s (irq : Z) : Z := regs s (REG_TABLE + 2 * irq + 1).

(** Two writes set an entry and leave the others alone. *)
Lemma entry_ok irq lo hi s :
  0 <= irq < 256 -> 0 <= lo < 4294967296 -> 0 <= hi < 4294967296 ->
  returns (ioapicwrite (REG_TABLE + 2 * irq) lo ;;; ioapicwrite (REG_TABLE + 2 * irq + 1) hi) s (fun _ s' =>
    forall j, low s' j = (if j =? irq then lo else low s j) /\ high s' j = (if j =? irq then hi else high s j)).
Proof using.
  intros Hi Hl Hh. change REG_TABLE with 16. rstep ioapicwrite_ok; [change REG_TABLE with 16; lia|done|].
  intros _ s1 E1. rlast ioapicwrite_ok; [change REG_TABLE with 16; lia|done|]. intros _ s2 E2 j. unfold low, high.
  change REG_TABLE with 16. rewrite !E2, !E1. split; repeat case_match; lia.
Qed.

Lemma disabled_vector i : 0 <= i < 256 -> Z.lor INT_DISABLED (T_IRQ0 + i) = 65536 + (32 + i).
Proof.
  intros Hi. assert (H : forallb (fun k => Z.lor INT_DISABLED (T_IRQ0 + Z.of_nat k) =? 65536 + (32 + Z.of_nat k)) (seq 0 256) = true)
    by by vm_compute.
  rewrite forallb_forall in H. specialize (H (Z.to_nat i)). rewrite Z2Nat.id, Z.eqb_eq in H by lia. apply H, in_seq. lia.
Qed.

(** The loop of [ioapicinit]. *)
Lemma mask_ok n k s :
  (k + n <= 256)%nat ->
  returns (mfor (seq k n) (fun i =>
    let i := Z.of_nat i in
    ioapicwrite (REG_TABLE + 2 * i) (Z.lor INT_DISABLED (T_IRQ0 + i)) ;;;
    ioapicwrite (REG_TABLE + 2 * i + 1) 0)) s (fun _ s' => forall j,
      (Z.of_nat k <= j < Z.of_nat (k + n) -> low s' j = 65536 + (32 + j) /\ high s' j = 0) /\
      (~ (Z.of_nat k <= j < Z.of_nat (k + n)) -> low s' j = low s j /\ high s' j = high s j)).
Proof using.
  revert k s. induction n as [|n IH]; intros k s Hk; cbn [seq mfor].
  { apply returns_ret. intros j. split; [lia|done]. }
  eapply returns_bind; [cbv zeta; apply entry_ok; [lia|rewrite disabled_vector by lia; lia|lia]|]. cbv beta.
  intros _ s1 E1. rlast (IH (S k)); [lia|]. intros _ s' E' j. rewrite disabled_vector in E1 by lia.
  destruct (E' j) as [Ha Hb], (E1 j) as [El Eh]. split; intros Hj.
  - destruct (decide (j = Z.of_nat k)) as [->|Hne]; [|apply Ha; lia].
    destruct Hb as [-> ->]; [lia|]. rewrite El, Eh, Z.eqb_refl. done.
  - destruct Hb as [-> ->]; [lia|]. rewrite El, Eh. by replace (j =? Z.of_nat k) with false by lia.
Qed.

Definition maxintr s : Z := Z.land (Z.shiftr (regs s REG_VER) 16) 0xFF.

Lemma maxintr_range s : 0 <= maxintr s < 256.
Proof using. unfold maxintr. change 0xFF with (Z.ones 8). rewrite Z.land_ones by lia. change (2 ^ 8) with 256. zlia. Qed.

Lemma ioapicinit_ok s :
  returns ioapicinit s (fun _ s' => forall j, 0 <= j <= maxintr s -> low s' j = 65536 + (32 + j) /\ high s' j = 0).
Proof using.
  pose proof (maxintr_range s) as Hm. unfold ioapicinit. rstep ioapicread_ok; [by vm_compute|]. intros v s1 [-> E1].
  rstep ioapicread_ok; [by vm_compute|]. intros id s2 [_ E2]. fold (maxintr s).
  rlast mask_ok; [lia|]. intros _ s' E j Hj. apply E. lia.
Qed.

Lemma ioapicenable_ok irq cpu s :
  0 <= irq < 256 -> 0 <= cpu < 256 ->
  returns (ioapicenable irq cpu) s (fun _ s' => forall j,
    low s' j = (if j =? irq then 32 + irq else low s j) /\ high s' j = (if j =? irq then cpu * 16777216 else high s j)).
Proof using.
  intros Hi Hc. unfold ioapicenable. rewrite Z.shiftl_mul_pow2 by lia. change (2 ^ 24) with 16777216. change T_IRQ0 with 32.
  apply entry_ok; lia.
Qed.
End Routing.

(** After the calls [main] makes through ioapicinit, consoleinit, uartinit and ideinit, the
    I/O APIC delivers exactly the interrupts of the keyboard, the serial port and the disk:
    their entries carry the vectors that trap dispatches on, edge-triggered and unmasked, for
    processors 0, 0 and the last one; every other entry is masked. *)
Theorem interrupts_routed {D} {mmio : Mmio D} {io : IoApic D} (s : hw D) ncpu :
  IRQ_IDE <= maxintr s -> 1 <= ncpu <= Z.of_nat NCPU ->
  exists s', (ioapicinit ;;; ioapicenable IRQ_KBD 0 ;;; ioapicenable IRQ_COM1 0 ;;; ioapicenable IRQ_IDE (ncpu - 1)) s
      = Done tt s' /\
    forall irq, 0 <= irq <= maxintr s ->
      (if (irq =? IRQ_KBD) || (irq =? IRQ_COM1) || (irq =? IRQ_IDE) then low s' irq = T_IRQ0 + irq
       else low s' irq = INT_DISABLED + T_IRQ0 + irq) /\
      high s' irq = if irq =? IRQ_IDE then (ncpu - 1) * 16777216 else 0.
Proof.
  intros Hm Hn. enough (H : returns (ioapicinit ;;; ioapicenable IRQ_KBD 0 ;;; ioapicenable IRQ_COM1 0 ;;; ioapicenable IRQ_IDE (ncpu - 1)) s
    (fun _ s' => forall irq, 0 <= irq <= maxintr s ->
      (if (irq =? IRQ_KBD) || (irq =? IRQ_COM1) || (irq =? IRQ_IDE) then low s' irq = T_IRQ0 + irq
       else low s' irq = INT_DISABLED + T_IRQ0 + irq) /\
      high s' irq = if irq =? IRQ_IDE then (ncpu - 1) * 16777216 else 0)).
  { destruct H as ([] & s' & E & H). by exists s'. }
  unfold NCPU, IRQ_IDE, IRQ_KBD, IRQ_COM1, T_IRQ0, INT_DISABLED in *. rstep ioapicinit_ok. intros _ s1 E1.
  rstep ioapicenable_ok; [lia|lia|]. intros _ s2 E2. rstep ioapicenable_ok; [lia|lia|]. intros _ s3 E3.
  rlast ioapicenable_ok; [lia|lia|]. intros _ s4 E4 irq Hi.
  destruct (E4 irq) as [L4 H4], (E3 irq) as [L3 H3], (E2 irq) as [L2 H2], (E1 irq Hi) as [L1 H1].
  rewrite L4, H4, L3, H3, L2, H2, L1, H1.
  destruct (Z.eqb_spec irq 1), (Z.eqb_spec irq 4), (Z.eqb_spec irq 14); simpl; lia.
Qed.

(** A window on a table of registers. *)
Record window := Window { w_sel : Z; w_reg : Z -> Z }.
#[local] Instance window_mmio : Mmio window :=
  {| reg_read a d := (w_reg d (w_sel d), d);
     reg_write a v d := if a =? ioapic_reg then Window v (w_reg d)
       else Window (w_sel d) (fun r => if r =? w_sel d then v else w_reg d r) |}.
#[local] Instance window_ioapic : IoApic window.
Proof. by refine {| io_sel := w_sel; io_reg := w_reg |}. Defined.

Lemma interrupts_routed_witness :
  let s := Hw (fun _ => 0) (Window 0 (fun r => if r =? REG_VER then 0x170011 else 0)) in
  IRQ_IDE <= maxintr s /\
  exists s', (ioapicinit ;;; ioapicenable IRQ_KBD 0 ;;; ioapicenable IRQ_COM1 0 ;;; ioapicenable IRQ_IDE (2 - 1)) s
      = Done tt s' /\ low s' 14 = 46 /\ high s' 14 = 16777216 /\ low s' 5 = 65573.
Proof.
  intros s. assert (Hm : IRQ_IDE <= maxintr s) by by vm_compute. split; [exact Hm|].
  destruct (interrupts_routed s 2 Hm) as (s' & E & H); [unfold NCPU; lia|]. exists s'. split; [exact E|].
  assert (R : maxintr s = 23) by by vm_compute. rewrite R in H.
  destruct (H 14) as [L14 H14]; [lia|]. destruct (H 5) as [L5 _]; [lia|]. done.
Defined.

(** ** The local APIC *)

(** The registers that hold what is written to them. *)
Definition HOLDING : list Z := [TPR; SVR; ICRHI; TIMER; PCINT; LINT0; LINT1; ERROR; TICR; TDCR].

(** [l_sent] are the commands sent so far, each with its destination; [l_busy] is the number
    of reads for which the last one is still being delivered. *)
Class LocalApic (D : Type) {ports : Ports D} {mmio : Mmio D} (lapic : Z) (patience : nat) := {
  l_reg : D -> Z -> Z;
  l_sent : D -> list (Z * Z);
  l_busy : D -> nat;
  l_hold d i v : i ∈ HOLDING -> let d' := reg_write (lapic + 4 * i) v d in
    (forall j, l_reg d' j = if j =? i then v else l_reg d j) /\ l_sent d' = l_sent d;
  l_ack d i v : i = EOI \/ i = ESR -> let d' := reg_write (lapic + 4 * i) v d in
    l_reg d' = l_reg d /\ l_sent d' = l_sent d;
  l_send d v : let d' := reg_write (lapic + 4 * ICRLO) v d in
    l_reg d' = l_reg d /\ l_sent d' = l_sent d ++ [(l_reg d ICRHI, v)] /\ (l_busy d' <= patience)%nat;
  l_read d i : let r := reg_read (lapic + 4 * i) d in
    l_reg r.2 = l_reg d /\ l_sent r.2 = l_sent d /\ (l_busy r.2 <= l_busy d)%nat;
  l_wait d : let r := reg_read (lapic + 4 * ICRLO) d in
    match l_busy d with S n => (l_busy r.2 <= n)%nat | O => Z.land r.1 DELIVS = 0 end;
  l_port d p v : let d' := outb p v d in l_reg d' = l_reg d /\ l_sent d' = l_sent d }.

Section Local.
Context {D : Type} {ports : Ports D} {mmio : Mmio D} {lapic : Z} {patience : nat} {la : LocalApic D lapic patience}.
Implicit Types (s : hw D).

Abbreviation held s := (l_reg (hw_dev s)).
Abbreviation sent s := (l_sent (hw_dev s)).

(** A step that leaves the memory alone. *)
Definition lapic_step (m : M (hw D) unit) s (R : (Z -> Z) -> list (Z * Z) -> nat -> Prop) : Prop :=
  returns m s (fun _ s' => hw_mem s' = hw_mem s /\ R (held s') (sent s') (l_busy (hw_dev s'))).

Lemma lapicr_ok i s : returns (lapicr lapic i) s (fun _ s' =>
  hw_mem s' = hw_mem s /\ held s' = held s /\ sent s' = sent s /\ (l_busy (hw_dev s') <= l_busy (hw_dev s))%nat).
Proof using.
  unfold lapicr, mm_read. apply returns_get. pose proof (l_read (hw_dev s) i) as H. cbv zeta in H.
  destruct (reg_read _ _) as [v d]. eapply returns_Done; [reflexivity|]. apply returns_ret. simpl in *. naive_solver.
Qed.

Lemma lapicw_ok i v s (R : (Z -> Z) -> list (Z * Z) -> nat -> Prop) :
  (let d := reg_write (lapic + 4 * i) (u32 v) (hw_dev s) in forall b, (b <= l_busy d)%nat -> R (l_reg d) (l_sent d) b) ->
  lapic_step (lapicw lapic i v) s R.
Proof using.
  intros HR. unfold lapic_step, lapicw, mm_write. apply returns_modify. rstep lapicr_ok. intros _ s' (Em & Eh & Es & Hb).
  apply returns_ret. rewrite Em, Eh, Es. auto.
Qed.

Lemma hold_ok i v s : i ∈ HOLDING -> 0 <= v < 4294967296 ->
  lapic_step (lapicw lapic i v) s (fun h t _ => (forall j, h j = if j =? i then v else held s j) /\ t = sent s).
Proof using. intros Hi Hv. apply lapicw_ok. cbv zeta. intros b _. rewrite u32_small by lia. by apply l_hold. Qed.

Lemma ack_ok i s : i = EOI \/ i = ESR -> lapic_step (lapicw lapic i 0) s (fun h t _ => h = held s /\ t = sent s).
Proof using. intros Hi. apply lapicw_ok. cbv zeta. intros b _. by apply l_ack. Qed.

Lemma send_ok v s : 0 <= v < 4294967296 ->
  lapic_step (lapicw lapic ICRLO v) s (fun h t b => h = held s /\ t = sent s ++ [(held s ICRHI, v)] /\ (b <= patience)%nat).
Proof using.
  intros Hv. apply lapicw_ok. cbv zeta. intros b Hb. rewrite u32_small in * by lia.
  destruct (l_send (hw_dev s) v) as (? & ? & ?). do 2 (split; [done|]). lia.
Qed.

Lemma icr_wait_ok fuel s : (l_busy (hw_dev s) < fuel)%nat -> lapic_step (icr_wait lapic fuel) s (fun h t _ => h = held s /\ t = sent s).
Proof using.
  revert s. induction fuel as [|fuel IH]; intros s Hf; [lia|]. cbn [icr_wait]. unfold lapicr, mm_read, lapic_step.
  apply returns_bind_assoc, returns_get. pose proof (l_read (hw_dev s) ICRLO) as (E1 & E2 & E3).
  pose proof (l_wait (hw_dev s)) as Hb. cbv zeta in *. destruct (reg_read _ _) as [v d]. simpl in *.
  eapply returns_Done; [reflexivity|]. destruct (Z.eqb_spec (Z.land v DELIVS) 0) as [Hz|Hz]; simpl.
  - apply returns_ret. simpl. rewrite E1, E2. done.
  - destruct (l_busy (hw_dev s)) as [|n]; [done|]. rlast (IH (Hw (hw_mem s) d)); [simpl; lia|]. simpl. by rewrite E1, E2.
Qed.

Lemma dev_out_ok p v s : returns (dev_out p v) s (fun _ s' => hw_mem s' = hw_mem s /\ held s' = held s /\ sent s' = sent s).
Proof using.
  unfold dev_out, port_out, zoom. eexists _, _. split; [munf; reflexivity|]. simpl. destruct (l_port (hw_dev s) p (u8 v)). done.
Qed.
End Local.

(** One write of a plain register, one acknowledgement. *)
Ltac hold :=
  (eapply returns_bind; [apply hold_ok; [by repeat (apply elem_of_cons; (by left) || right)|by vm_compute]|]; cbv beta).
Ltac ack := (eapply returns_bind; [apply ack_ok; (by left) || (by right)|]; cbv beta).

Lemma pcint_ok {D} {ports : Ports D} {mmio : Mmio D} {lapic patience} {la : LocalApic D lapic patience} (b : bool) (s : hw D) :
  returns (when b (lapicw lapic PCINT MASKED)) s (fun _ s' => hw_mem s' = hw_mem s /\
    (forall j, j <> PCINT -> l_reg (hw_dev s') j = l_reg (hw_dev s) j) /\ l_sent (hw_dev s') = l_sent (hw_dev s)).
Proof.
  destruct b; [|by apply returns_ret].
  rlast (hold_ok PCINT MASKED s); [by repeat (apply elem_of_cons; (by left) || right)|by vm_compute|].
  intros _ s' (Em & Eh & Es). split; [done|]. split; [|done]. intros j Hj. rewrite Eh. by rewrite (proj2 (Z.eqb_neq j PCINT)).
Qed.

(** [lapicinit] leaves the local APIC enabled with the spurious vector, its timer periodic
    with the vector of the timer interrupt, the local lines masked, errors on their vector and
    no priority threshold, and sends one broadcast INIT; it comes back when the command has
    been delivered. *)
Theorem lapicinit_spec {D} {ports : Ports D} {mmio : Mmio D} {lapic patience} {la : LocalApic D lapic patience} (s : hw D) fuel :
  lapic <> 0 -> (patience < fuel)%nat ->
  lapic_step (lapicinit lapic fuel) s (fun h t _ =>
    h SVR = Z.lor ENABLE (T_IRQ0 + IRQ_SPURIOUS) /\ h TDCR = X1 /\ h TIMER = Z.lor PERIODIC (T_IRQ0 + IRQ_TIMER) /\
    h TICR = 10000000 /\ h LINT0 = MASKED /\ h LINT1 = MASKED /\ h ERROR = T_IRQ0 + IRQ_ERROR /\ h TPR = 0 /\
    t = l_sent (hw_dev s) ++ [(0, Z.lor (Z.lor BCAST INIT) LEVEL)]).
Proof.
  intros Hl Hf. unfold lapicinit. rewrite (proj2 (Z.eqb_neq lapic 0)) by done. unfold lapic_step.
  hold. intros _ s1 (M1 & H1 & T1). hold. intros _ s2 (M2 & H2 & T2). hold. intros _ s3 (M3 & H3 & T3).
  hold. intros _ s4 (M4 & H4 & T4). hold. intros _ s5 (M5 & H5 & T5). hold. intros _ s6 (M6 & H6 & T6).
  rstep lapicr_ok. intros v s7 (M7 & H7 & T7 & _). rstep pcint_ok. intros _ s8 (M8 & H8 & T8).
  hold. intros _ s9 (M9 & H9 & T9). ack. intros _ s10 (M10 & H10 & T10). ack. intros _ s11 (M11 & H11 & T11).
  ack. intros _ s12 (M12 & H12 & T12). hold. intros _ s13 (M13 & H13 & T13).
  eapply returns_bind; [apply send_ok; by vm_compute|]. cbv beta. intros _ s14 (M14 & H14 & T14 & B14).
  eapply returns_bind; [apply icr_wait_ok; lia|]. cbv beta. intros _ s15 (M15 & H15 & T15).
  rlast (hold_ok TPR 0 s15); [by repeat (apply elem_of_cons; (by left) || right)|by vm_compute|].
  intros _ s16 (M16 & H16 & T16). split; [congruence|].
  assert (E : forall j, j <> PCINT -> l_reg (hw_dev s16) j = if j =? TPR then 0 else if j =? ICRHI then 0 else
    if j =? ERROR then T_IRQ0 + IRQ_ERROR else if j =? LINT1 then MASKED else if j =? LINT0 then MASKED else
    if j =? TICR then 10000000 else if j =? TIMER then Z.lor PERIODIC (T_IRQ0 + IRQ_TIMER) else
    if j =? TDCR then X1 else if j =? SVR then Z.lor ENABLE (T_IRQ0 + IRQ_SPURIOUS) else l_reg (hw_dev s) j).
  { intros j Hj. by rewrite H16, H15, H14, H13, H12, H11, H10, H9, H8, H7, H6, H5, H4, H3, H2, H1 by done. }
  rewrite !E by done. do 8 (split; [done|]).
  rewrite T16, T15, T14, T13, T12, T11, T10, T9, T8, T7, T6, T5, T4, T3, T2, T1, H13. done.
Qed.

(** ** Starting another processor *)

Definition word16 (m : mem) (a : Z) : Z := m a + 256 * m (a + 1).

Lemma startup_vector p : 0 <= p < 256 -> Z.lor STARTUP p = STARTUP + p.
Proof.
  intros Hp. assert (H : forallb (fun k => Z.lor STARTUP (Z.of_nat k) =? STARTUP + Z.of_nat k) (seq 0 256) = true) by by vm_compute.
  rewrite forallb_forall in H. specialize (H (Z.to_nat p)). rewrite Z2Nat.id, Z.eqb_eq in H by lia. apply H, in_seq. lia.
Qed.

(** The warm reset vector, an address of the form segment:offset. *)
Lemma reset_vector m a v :
  0 <= v < 65536 ->
  let m' := store8 (store8 (store8 (store8 m a 0) (a + 1) (0 / 256)) (a + 2) v) (a + 2 + 1) (v / 256) in
  word16 m' a = 0 /\ word16 m' (a + 2) = v /\ (bytes_ok m -> bytes_ok m') /\ forall x, ~ (a <= x < a + 4) -> m' x = m x.
Proof.
  intros Hv m'. unfold m', word16. split; [|split; [|split]].
  - by rewrite !(store8_ne _ (a + 2 + 1)), !(store8_ne _ (a + 2)), store8_eq, store8_ne, store8_eq by lia.
  - rewrite store8_eq, store8_ne, store8_eq by lia. unfold u8. zlia.
  - intros Hb. by do 4 apply bytes_ok_store8.
  - intros x Hx. by rewrite !store8_ne by lia.
Qed.

Lemma store16_ok {D} {ports : Ports D} {mmio : Mmio D} a v (s : hw D) :
  returns (store16 a v) s (fun _ s' => hw_dev s' = hw_dev s /\ hw_mem s' = store8 (store8 (hw_mem s) a v) (a + 1) (v / 256)).
Proof. eexists _, _. split; [reflexivity|]. done. Qed.

(** A destination and a command. *)
Lemma ipi_ok {D} {ports : Ports D} {mmio : Mmio D} {lapic patience} {la : LocalApic D lapic patience} to v (s : hw D) :
  0 <= to < 4294967296 -> 0 <= v < 4294967296 ->
  returns (lapicw lapic ICRHI to ;;; lapicw lapic ICRLO v) s (fun _ s' =>
    hw_mem s' = hw_mem s /\ l_reg (hw_dev s') ICRHI = to /\ l_sent (hw_dev s') = l_sent (hw_dev s) ++ [(to, v)]).
Proof.
  intros Ht Hv. eapply returns_bind; [apply hold_ok; [by repeat (apply elem_of_cons; (by left) || right)|done]|]. cbv beta.
  intros _ s1 (M1 & H1 & T1). eapply returns_mono; [by apply send_ok|]. cbv beta. intros _ s2 (M2 & H2 & T2 & _).
  rewrite M2, M1, T2, T1, H2, H1, Z.eqb_refl. done.
Qed.

(** To start a processor at a page of low memory [lapicstartap] sets the warm reset vector
    to that page and sends the target, and no one else, an INIT that is asserted and deasserted
    and two STARTUP commands with the number of the page. *)
Theorem lapicstartap_spec {D} {ports : Ports D} {mmio : Mmio D} {lapic patience} {la : LocalApic D lapic patience}
    (s : hw D) apicid addr :
  0 <= apicid < 256 -> 0 <= addr < 0x100000 -> addr mod 4096 = 0 ->
  returns (lapicstartap lapic apicid addr) s (fun _ s' =>
    let to := apicid * 16777216 in
    l_sent (hw_dev s') = l_sent (hw_dev s) ++
      [(to, INIT + LEVEL + ASSERT); (to, INIT + LEVEL); (to, STARTUP + addr / 4096); (to, STARTUP + addr / 4096)] /\
    word16 (hw_mem s') (P2V 0x467) = 0 /\ 16 * word16 (hw_mem s') (P2V 0x469) = addr /\
    (bytes_ok (hw_mem s) -> bytes_ok (hw_mem s')) /\
    forall x, ~ (P2V 0x467 <= x < P2V 0x467 + 4) -> hw_mem s' x = hw_mem s x).
Proof.
  intros Hi Ha Hp. unfold lapicstartap. rewrite !Z.shiftl_mul_pow2, !Z.shiftr_div_pow2 by lia.
  change (2 ^ 24) with 16777216. change (2 ^ 4) with 16. change (2 ^ 12) with 4096. rewrite startup_vector by zlia.
  set (to := apicid * 16777216). assert (Hto : 0 <= to < 4294967296) by lia.
  assert (Hs : 0 <= STARTUP + addr / 4096 < 4294967296) by (unfold STARTUP; zlia).
  assert (HI : ICRHI ∈ HOLDING) by by repeat (apply elem_of_cons; (by left) || right).
  rstep dev_out_ok. intros _ s1 (M1 & H1 & T1). rstep dev_out_ok. intros _ s2 (M2 & H2 & T2).
  change (P2V (Z.lor (0x40 * 16) 0x67)) with (P2V 0x467).
  rstep store16_ok. intros _ s3 (D3 & M3). rstep store16_ok. intros _ s4 (D4 & M4). rewrite M3, M2, M1 in M4. clear M3.
  eapply returns_bind; [apply hold_ok; [exact HI|done]|]. cbv beta. intros _ s5 (M5 & H5 & T5).
  eapply returns_bind; [apply send_ok; by vm_compute|]. cbv beta. intros _ s6 (M6 & H6 & T6 & _).
  eapply returns_bind; [apply send_ok; by vm_compute|]. cbv beta. intros _ s7 (M7 & H7 & T7 & _).
  cbn [seq mfor]. rstep ipi_ok; [done|done|]. intros _ s8 (M8 & H8 & T8). rstep ipi_ok; [done|done|].
  intros _ s9 (M9 & H9 & T9). apply returns_ret. cbv zeta.
  rewrite T9, T8, T7, H6, H5, T6, H5, T5, D4, D3, T2, T1, Z.eqb_refl, <- !app_assoc. split; [done|].
  rewrite M9, M8, M7, M6, M5, M4. destruct (reset_vector (hw_mem s) (P2V 0x467) (addr / 16)) as (R1 & R2 & R3 & R4); [zlia|].
  split; [exact R1|]. split; [|exact (conj R3 R4)]. change (P2V 0x469) with (P2V 0x467 + 2). rewrite R2. zlia.
Qed.
