(* ===== verification/MpSpec.v ===== *)
(** * What mpinit makes of the tables

    [table_scan] reads a configuration table up to its end or to the first entry of an unknown
    type. In the first case [mpinit] returns with the processors of the table, and [mycpu]
    of proc.c finds each of them; in the second case it never returns. *)

From stdpp Require Import base tactics numbers list strings.
From Stdlib Require Import ZArith Lia ZifyNat ZifyBool.
From S2P Require Import Prelude Layout Ports Spinlock Mp.

(** ** Entries of the table *)

Inductive entry := EProc (id : Z) | EIoapic (id : Z) | EOther (ty : Z).

Definition entry_size (x : entry) : Z := match x with EProc _ => 20 | _ => 8 end.
Definition entry_at (m : mem) (p : Z) (x : entry) : Prop :=
  match x with
  | EProc id => m p = MPPROC /\ m (p + 1) = id
  | EIoapic id => m p = MPIOAPIC /\ m (p + 1) = id
  | EOther ty => m p = ty /\ (ty = MPBUS \/ ty = MPIOINTR \/ ty = MPLINTR)
  end.
Definition known (ty : Z) : Prop := 0 <= ty <= 4.

(** The entries from [p] on, up to the end of the table ([true]) or to an entry of an unknown
    type ([false]). *)
Inductive table_scan (m : mem) (e : Z) : Z -> list entry -> bool -> Prop :=
  | scan_end p : e <= p -> table_scan m e p [] true
  | scan_unknown p : p < e -> ~ known (m p) -> table_scan m e p [] false
  | scan_entry p x es b : p < e -> entry_at m p x -> table_scan m e (p + entry_size x) es b -> table_scan m e p (x :: es) b.

Lemma entry_exists m p : known (m p) -> exists x, entry_at m p x.
Proof.
  intros H. unfold known in H. destruct (decide (m p = 0)); [by exists (EProc (m (p + 1)))|].
  destruct (decide (m p = 2)); [by exists (EIoapic (m (p + 1)))|].
  exists (EOther (m p)). split; [done|]. unfold MPBUS, MPIOINTR, MPLINTR. lia.
Qed.

Lemma scan_total m e p : exists es b, table_scan m e p es b.
Proof.
  remember (Z.to_nat (e - p)) as n eqn:E. revert p E. induction (lt_wf n) as [n _ IH]. intros p ->.
  destruct (Z_le_gt_dec e p) as [Hp|Hp]; [eexists _, _; by apply scan_end|].
  destruct (decide (0 <= m p <= 4)) as [Hk|Hk]; [|eexists _, _; apply scan_unknown; [lia|done]].
  destruct (entry_exists m p Hk) as [x Hx].
  assert (Hs : 0 < entry_size x) by (destruct x; simpl; lia).
  destruct (IH (Z.to_nat (e - (p + entry_size x))) ltac:(lia) _ eq_refl) as (es & b & S).
  exists (x :: es), b. apply scan_entry; [lia|done|done].
Qed.

(** ** The loop *)

Section Loop.
Context {D : Type} {ports : Ports D}.
Abbreviation St := (mpst D).

(** What an entry does to the variables. *)
Definition enter (s : St) (x : entry) : St :=
  match x with
  | EProc id => if ms_ncpu s <? Z.of_nat NCPU then add_cpu id s else s
  | EIoapic id => set_ioapicid id s
  | EOther _ => s
  end.

Lemma mpinit_loop_entry m fuel p e ismp x (s : St) :
  entry_at m p x -> p < e -> 0 <= p -> e + 20 < 4294967296 ->
  mpinit_loop m (S fuel) p e ismp s = mpinit_loop m fuel (p + entry_size x) e ismp (enter s x).
Proof.
  intros Hx Hp H0 He. cbn [mpinit_loop]. rewrite (proj2 (Z.ltb_lt p e)) by done.
  destruct x as [id|id|ty]; destruct Hx as [Hm Hi]; rewrite Hm; cbn [entry_size].
  - change (MPPROC =? MPPROC) with true. cbv iota. unfold MPPROC_SIZE. rewrite u32_small by lia. munf. unfold load_mpproc.
    cbn [pr_apicid enter]. rewrite Hi. by destruct (_ <? _).
  - change (MPIOAPIC =? MPPROC) with false. change (MPIOAPIC =? MPIOAPIC) with true. cbv iota. unfold MPIOAPIC_SIZE.
    rewrite u32_small by lia. munf. unfold load_mpioapic. cbn [io_apicno enter]. by rewrite Hi.
  - rewrite (u32_small (p + 8)) by lia. destruct Hi as [-> |[-> | ->]]; done.
Qed.

Lemma scan_returns m e p es b fuel ismp (s : St) :
  table_scan m e p es b -> b = true -> (length es < fuel)%nat -> 0 <= p -> e + 20 < 4294967296 ->
  mpinit_loop m fuel p e ismp s = Done ismp (foldl enter s es).
Proof.
  intros Hs. revert fuel s. induction Hs as [p Hp|p Hp Hk|p x es b Hp Hx Hs IH]; intros fuel s Hb Hf H0 He; [|done|].
  - destruct fuel as [|fuel]; [simpl in Hf; lia|]. cbn [mpinit_loop]. by rewrite (proj2 (Z.ltb_ge p e)).
  - destruct fuel as [|fuel]; [simpl in Hf; lia|]. rewrite (mpinit_loop_entry _ _ _ _ _ x) by done. simpl in Hf.
    apply IH; [done|lia|destruct x; simpl; lia|done].
Qed.

(** At an entry of an unknown type the loop stays where it is. *)
Lemma unknown_spins m e p fuel ismp (s : St) : p < e -> ~ known (m p) -> mpinit_loop m fuel p e ismp s = Blocked s.
Proof.
  intros Hp Hk. revert ismp. unfold known in Hk. induction fuel as [|fuel IH]; intros ismp; [done|]. cbn [mpinit_loop].
  unfold MPPROC, MPIOAPIC, MPBUS, MPIOINTR, MPLINTR. rewrite (proj2 (Z.ltb_lt p e)) by done.
  replace (m p =? 0) with false by lia. replace (m p =? 2) with false by lia.
  replace ((m p =? 1) || (m p =? 3) || (m p =? 4)) with false by lia. apply IH.
Qed.

Lemma scan_spins m e p es b fuel ismp (s : St) :
  table_scan m e p es b -> b = false -> 0 <= p -> e + 20 < 4294967296 ->
  exists s', mpinit_loop m fuel p e ismp s = Blocked s'.
Proof.
  intros Hs. revert fuel s. induction Hs as [p Hp|p Hp Hk|p x es b Hp Hx Hs IH]; intros fuel s Hb H0 He; [done| |].
  - exists s. by apply unknown_spins.
  - destruct fuel as [|fuel]; [by exists s|]. rewrite (mpinit_loop_entry _ _ _ _ _ x) by done.
    apply IH; [done|destruct x; simpl; lia|done].
Qed.
End Loop.

(** ** The processors *)

Definition procs (es : list entry) : list Z := omap (fun x => match x with EProc id => Some id | _ => None end) es.
Definition ioapics (es : list entry) : list Z := omap (fun x => match x with EIoapic id => Some id | _ => None end) es.

Section Cpus.
Context {D : Type} {ports : Ports D}.
Abbreviation St := (mpst D).

(** The APIC ids of the processors found. *)
Definition ids (s : St) : list Z := take (Z.to_nat (ms_ncpu s)) (apicid <$> ms_cpus s).
Record cpus_ok (s : St) : Prop := CpusOk {
  co_len : length (ms_cpus s) = NCPU;
  co_ncpu : 0 <= ms_ncpu s <= Z.of_nat NCPU }.

Lemma length_ids s : cpus_ok s -> Z.of_nat (length (ids s)) = ms_ncpu s.
Proof using. intros [Hl Hn]. unfold ids. rewrite length_take, length_fmap. lia. Qed.

Lemma add_cpu_ids s id : cpus_ok s -> ms_ncpu s < Z.of_nat NCPU -> ids (add_cpu id s) = ids s ++ [id] /\ cpus_ok (add_cpu id s).
Proof using.
  intros [Hl Hn] Hlt. split; [|split; simpl; [by rewrite length_alter|lia]]. unfold ids, add_cpu. cbn [ms_ncpu ms_cpus].
  set (n := Z.to_nat (ms_ncpu s)). replace (Z.to_nat (ms_ncpu s + 1)) with (S n) by lia.
  destruct (lookup_lt_is_Some_2 (ms_cpus s) n) as [c Hc]; [lia|].
  erewrite take_S_r; [|rewrite list_lookup_fmap, list_lookup_alter_eq, Hc; reflexivity]. f_equal.
  rewrite <- !fmap_take. f_equal. by rewrite take_alter, decide_False by lia.
Qed.

Lemma enter_ids s x : cpus_ok s -> ids (enter s x) = take NCPU (ids s ++ procs [x]) /\ cpus_ok (enter s x).
Proof using.
  intros C. pose proof (length_ids s C) as Hl. destruct x as [id|id|ty]; cbn [enter].
  - change (procs [EProc id]) with [id]. destruct (Z.ltb_spec (ms_ncpu s) (Z.of_nat NCPU)) as [Hlt|Hge].
    + destruct (add_cpu_ids s id C Hlt) as [-> ?]. split; [|done]. rewrite take_ge; [done|]. rewrite length_app. simpl. lia.
    + split; [|done]. rewrite take_app_le by lia. rewrite take_ge; [done|]. destruct C. lia.
  - rewrite app_nil_r. destruct C. split; [|done]. rewrite take_ge; [done|lia].
  - rewrite app_nil_r. destruct C. split; [|done]. rewrite take_ge; [done|lia].
Qed.

Lemma enter_all s es :
  cpus_ok s -> ids (foldl enter s es) = take NCPU (ids s ++ procs es) /\ cpus_ok (foldl enter s es).
Proof using.
  revert s. induction es as [|x es IH]; intros s C; cbn [foldl].
  - change (procs []) with (@nil Z). rewrite app_nil_r. split; [|done]. rewrite take_ge; [done|]. pose proof (length_ids s C). destruct C. lia.
  - destruct (enter_ids s x C) as [E C']. destruct (IH _ C') as [E' C'']. split; [|done]. rewrite E', E.
    assert (procs (x :: es) = procs [x] ++ procs es) as -> by by destruct x.
    rewrite app_assoc. generalize (ids s ++ procs [x]). intros l. apply list_eq. intros i.
    destruct (decide (i < NCPU)%nat) as [Hi|Hi]; [|by rewrite !lookup_take_ge by lia].
    rewrite !lookup_take_lt by done. destruct (decide (i < length l)%nat) as [Hl|Hl].
    + rewrite !lookup_app_l by (rewrite ?length_take; lia). by rewrite lookup_take_lt.
    + rewrite !lookup_app_r by (rewrite ?length_take; lia). f_equal. rewrite length_take. lia.
Qed.

Lemma enter_rest (s : St) es :
  ms_ioapicid (foldl enter s es) = default (ms_ioapicid s) (last (ioapics es)) /\
  ms_lapic (foldl enter s es) = ms_lapic s /\ ms_dev (foldl enter s es) = ms_dev s.
Proof using.
  revert s. induction es as [|x es IH]; intros s; [done|]. cbn [foldl]. destruct (IH (enter s x)) as (-> & -> & ->).
  destruct x as [id|id|ty]; cbn [enter].
  - by destruct (_ <? _).
  - split; [|done]. change (ioapics (EIoapic id :: es)) with (id :: ioapics es). rewrite last_cons. by destruct (last _).
  - done.
Qed.

(** A processor of the table finds its entry. *)
Lemma search_ids s i id : NoDup (ids s) -> ids s !! i = Some id -> mycpu_search (ms_cpus s) (Z.to_nat (ms_ncpu s)) id = Some i.
Proof using.
  intros Hd Hi. unfold mycpu_search. unfold ids in Hd, Hi. rewrite <- fmap_take in Hd, Hi.
  set (l := take _ _) in *. destruct (find_idx _ 0 l) as [j|] eqn:E.
  - apply find_idx_Some in E as (x & _ & Hx & Hp & _). f_equal. rewrite Nat.sub_0_r in Hx. apply Z.eqb_eq in Hp.
    eapply (NoDup_lookup _ _ _ id Hd); [|done]. rewrite list_lookup_fmap, Hx. simpl. by rewrite Hp.
  - rewrite list_lookup_fmap in Hi. destruct (l !! i) as [x|] eqn:Ex; [|done]. injection Hi as Hi.
    pose proof (find_idx_None _ _ _ E _ _ Ex) as Hp. lia.
Qed.
End Cpus.

(** ** [mpinit] *)

(** The variables after [mpinit] has read the entries [es] of the table at [conf]. *)
Record machine {D} (m : mem) (conf : Z) (es : list entry) (s0 s : mpst D) : Prop := Machine {
  mn_ids : ids s = take NCPU (procs es);
  mn_ncpu : ms_ncpu s = Z.of_nat (length (ids s));
  mn_ioapic : ms_ioapicid s = default (ms_ioapicid s0) (last (ioapics es));
  mn_lapic : ms_lapic s = mc_lapicaddr (load_mpconf m conf);
  mn_mycpu i id : NoDup (ids s) -> ids s !! i = Some id ->
    mycpu_lookup (ms_cpus s) (Z.to_nat (ms_ncpu s)) id false = Done i tt }.

Lemma machine_dev {D} m conf es (s0 s s' : mpst D) :
  ms_cpus s' = ms_cpus s -> ms_ncpu s' = ms_ncpu s -> ms_ioapicid s' = ms_ioapicid s -> ms_lapic s' = ms_lapic s ->
  machine m conf es s0 s -> machine m conf es s0 s'.
Proof. intros E1 E2 E3 E4 []. unfold ids in *. split; unfold ids; rewrite ?E1, ?E2, ?E3, ?E4; done. Qed.

Lemma machine_entered {D} m conf es (s0 : mpst D) :
  cpus_ok s0 -> ms_ncpu s0 = 0 ->
  machine m conf es s0 (foldl enter (set_lapic (mc_lapicaddr (load_mpconf m conf)) s0) es).
Proof.
  intros C Hn. set (s1 := set_lapic _ s0). assert (C1 : cpus_ok s1) by (by destruct C).
  destruct (enter_all s1 es C1) as [Ei C']. destruct (enter_rest s1 es) as (Eo & El & _).
  assert (Ei0 : ids s1 = []) by (unfold ids, s1; simpl; by rewrite Hn). rewrite Ei0 in Ei.
  split; [done|by rewrite length_ids|done|done|].
  intros i id Hd Hi. unfold mycpu_lookup. by rewrite (search_ids _ i).
Qed.

Lemma mpconfig_conf m mp conf : mpconfig m = Some (mp, conf) -> 0 <= conf.
Proof.
  unfold mpconfig. destruct (mpsearch m) as [p|]; [|done]. repeat (destruct (_ =? 0); [|try done]); try done;
    repeat case_match; try done; intros [= <- <-]; unfold P2V, u32; zlia.
Qed.

(** C29. What [mpinit] makes of the configuration table it finds: when every entry up to the
    end of the table has a known type it returns with the APIC ids of the first [NCPU]
    processors of the table in [cpus], the address of the local APIC and the id of the last
    I/O APIC, and [mycpu] then finds every processor by its own id; when it meets an entry of
    an unknown type it never returns, for the [break] leaves the [switch] and not the loop. *)
Theorem mpinit_spec {D} {ports : Ports D} m mp conf (s0 : mpst D) :
  (forall a, 0 <= m a < 256) -> mpconfig m = Some (mp, conf) -> conf + 65600 < 4294967296 ->
  cpus_ok s0 -> ms_ncpu s0 = 0 ->
  exists es b, table_scan m (conf + mc_length (load_mpconf m conf)) (conf + MPCONF_SIZE) es b /\
    if b then forall fuel, (length es < fuel)%nat -> exists s, mpinit m fuel s0 = Done tt s /\ machine m conf es s0 s
    else forall fuel, exists s, mpinit m fuel s0 = Blocked s.
Proof.
  intros Hb Hc Ht C Hn. pose proof (mpconfig_conf _ _ _ Hc) as H0.
  assert (Hl : 0 <= mc_length (load_mpconf m conf) < 65536).
  { unfold load_mpconf, load16. cbn [mc_length]. pose proof (Hb (conf + 4)). pose proof (Hb (conf + 4 + 1)). lia. }
  set (e := conf + mc_length (load_mpconf m conf)) in *. change MPCONF_SIZE with 44.
  destruct (scan_total m e (conf + 44)) as (es & b & Hs). exists es, b. split; [done|].
  assert (Hrun : forall fuel, mpinit m fuel s0 =
    (let! ismp := mpinit_loop m fuel (conf + 44) e true in
     if negb ismp then panic "Didn't find a suitable machine" else
     when (negb (mp_imcrp (load_mp m mp) =? 0))
       (zoom ms_dev_lens (port_out 0x22 0x70 ;;; let! v := port_in 0x23 in port_out 0x23 (Z.lor v 1))))
      (set_lapic (mc_lapicaddr (load_mpconf m conf)) s0)).
  { intros fuel. unfold mpinit. rewrite Hc. change MPCONF_SIZE with 44. fold e. rewrite !u32_small by lia. done. }
  destruct b; intros fuel.
  - intros Hf. rewrite Hrun. erewrite bind_Done by (apply (scan_returns _ _ _ _ _ _ _ _ Hs); (done || lia)).
    cbn [negb]. pose proof (machine_entered m conf es s0 C Hn) as M. set (s1 := foldl _ _ _) in *.
    destruct (mp_imcrp _ =? 0); cbn [negb when]; [by exists s1|].
    unfold zoom, port_out, port_in. munf. destruct (inb _ _) as [v d]. eexists. split; [reflexivity|].
    by eapply machine_dev; [..|exact M].
  - rewrite Hrun. destruct (scan_spins m e (conf + 44) es false fuel true (set_lapic (mc_lapicaddr (load_mpconf m conf)) s0) Hs)
      as [s' E]; [done|lia|lia|]. exists s'. unfold m_bind. by rewrite E.
Qed.

(** ** A table with two processors *)

Definition checked (bytes : Z -> list Z) : list Z := bytes (u8 (- foldr Z.add 0 (bytes 0))).
Definition sample_mp : list Z := checked (fun ck => MP_SIG ++ [0; 0x10; 0x0F; 0; 1; 4; ck; 0; 1; 0; 0; 0]).
Definition sample_entries (last : Z) : list Z :=
  [0; 0; 0x11; 3] ++ replicate 16 0 ++ [0; 2; 0x11; 1] ++ replicate 16 0 ++ [1; 0; 0; 0; 0; 0; 0; 0] ++
  [last; 5; 0x11; 1; 0; 0; 0xC0; 0xFE].
Definition sample_conf (last : Z) : list Z :=
  checked (fun ck => PCMP_SIG ++ [100; 0; 4; ck] ++ replicate 26 0 ++ [4; 0; 0; 0; 0xE0; 0xFE; 0; 0; 0; 0] ++ sample_entries last).
Definition sample_mem (last : Z) : mem :=
  store_bytes (store_bytes (fun _ => 0) (P2V 0xF0000) sample_mp) (P2V 0xF1000) (sample_conf last).

#[local] Instance no_ports : Ports unit :=
  {| inb _ d := (0, d); outb _ _ d := d; insl _ n d := ([], d); outsl _ _ d := d |}.
Definition sample_cpus : mpst unit := MpSt (replicate NCPU (Cpu 0 0 0 None false)) 0 0 0 tt.

Lemma store_bytes_range m a l : (forall x, 0 <= m x < 256) -> forall x, 0 <= store_bytes m a l x < 256.
Proof.
  revert m a. induction l as [|v l IH]; intros m a Hm x; simpl; [done|]. apply IH. intros y. unfold store8, u8.
  destruct (y =? a); [zlia|done].
Qed.
Lemma sample_mem_range last a : 0 <= sample_mem last a < 256.
Proof. by repeat apply store_bytes_range. Qed.

Lemma mpinit_spec_witness :
  mpconfig (sample_mem 2) = Some (P2V 0xF0000, P2V 0xF1000) /\
  (exists s, mpinit (sample_mem 2) 5 sample_cpus = Done tt s /\ ids s = [0; 2] /\ ms_ioapicid s = 5) /\
  exists es b, table_scan (sample_mem 2) (P2V 0xF1000 + 100) (P2V 0xF1000 + 44) es b /\
    if b then forall fuel, (length es < fuel)%nat -> exists s, mpinit (sample_mem 2) fuel sample_cpus = Done tt s /\
                machine (sample_mem 2) (P2V 0xF1000) es sample_cpus s
    else forall fuel, exists s, mpinit (sample_mem 2) fuel sample_cpus = Blocked s.
Proof.
  split; [by vm_compute|]. split; [eexists; by vm_compute|].
  apply (mpinit_spec (sample_mem 2) (P2V 0xF0000) (P2V 0xF1000) sample_cpus);
    [apply sample_mem_range|by vm_compute|by vm_compute|by split|done].
Defined.

(** The same table with an entry of type 7 in the place of the I/O APIC. *)
Lemma unknown_entry_spins fuel : exists s, mpinit (sample_mem 7) fuel sample_cpus = Blocked s.
Proof.
  assert (S : table_scan (sample_mem 7) (P2V 0xF1000 + 100) (P2V 0xF1000 + 44) [EProc 0; EProc 2; EOther 1] false).
  { do 2 (apply scan_entry; [by vm_compute|by vm_compute|]). apply scan_entry; [by vm_compute|split; [by vm_compute|by left]|].
    apply scan_unknown; [by vm_compute|]. assert (E : sample_mem 7 (P2V 0xF1000 + 44 + 20 + 20 + 8) = 7) by by vm_compute.
    unfold known. cbn [entry_size]. rewrite E. lia. }
  destruct (scan_spins _ _ _ _ _ fuel true (set_lapic 0xFEE00000 sample_cpus) S eq_refl) as [s E]; [by vm_compute..|].
  exists s. unfold mpinit. assert (E0 : mpconfig (sample_mem 7) = Some (P2V 0xF0000, P2V 0xF1000)) by by vm_compute. rewrite E0.
  assert (E1 : mc_lapicaddr (load_mpconf (sample_mem 7) (P2V 0xF1000)) = 0xFEE00000) by by vm_compute. rewrite E1.
  assert (E2 : u32 (P2V 0xF1000 + mc_length (load_mpconf (sample_mem 7) (P2V 0xF1000))) = P2V 0xF1000 + 100) by by vm_compute.
  unfold m_bind at 1. unfold modify. cbv zeta. rewrite E2. unfold m_bind. change (u32 (P2V 0xF1000 + MPCONF_SIZE)) with (P2V 0xF1000 + 44).
  by rewrite E.
Qed.
