(* ===== verification/PTable.v ===== *)
(** * The process table: data and table-level operations of proc.c

    [struct proc], [ptable] with its five ring-buffer run queues, [enqueue],
    [dequeue], [wakeup1] and the loops over [ptable.proc] that [kill], [chpr]
    and [exit] run with [ptable.lock] held. The queues are shown to implement
    first-in first-out lists as long as a ring never holds [NPROC] entries. *)

From stdpp Require Import base tactics numbers list strings.
From Stdlib Require Import ZArith Lia ZifyNat.
From S2P Require Import Prelude Layout Spinlock.

(** ** Data *)

(** proc.h [enum procstate]. *)
Inductive procstate := UNUSED | EMBRYO | SLEEPING | RUNNABLE | RUNNING | ZOMBIE.

#[export] Instance procstate_eq_dec : EqDecision procstate.
Proof. solve_decision. Defined.

(** The integer the C enumeration gives each state. *)
Definition procstate_Z (s : procstate) : Z :=
  match s with
  | UNUSED => 0 | EMBRYO => 1 | SLEEPING => 2 | RUNNABLE => 3 | RUNNING => 4
  | ZOMBIE => 5
  end.

(** The addresses processes sleep on; distinct kernel objects have distinct
    addresses. *)
Inductive chan :=
  | ChNull
  | ChProc (i : nat)
  | ChTicks
  | ChAddr (a : Z).

#[export] Instance chan_eq_dec : EqDecision chan.
Proof. solve_decision. Defined.

(** A [struct proc*] used as a sleep channel. *)
Definition proc_chan (p : option nat) : chan :=
  match p with Some i => ChProc i | None => ChNull end.

(** x86.h [struct trapframe] (the padding halves of the segment registers left out). *)
Record trapframe := Trapframe {
  tf_edi : Z;
  tf_esi : Z;
  tf_ebp : Z;
  tf_oesp : Z;
  tf_ebx : Z;
  tf_edx : Z;
  tf_ecx : Z;
  tf_eax : Z;
  tf_gs : Z;
  tf_fs : Z;
  tf_es : Z;
  tf_ds : Z;
  tf_trapno : Z;
  tf_err : Z;
  tf_eip : Z;
  tf_cs : Z;
  tf_eflags : Z;
  tf_esp : Z;
  tf_ss : Z }.

Definition set_tf_eax (v : Z) (r : trapframe) : trapframe :=
    Trapframe (tf_edi r) (tf_esi r) (tf_ebp r) (tf_oesp r) (tf_ebx r) (tf_edx
    r) (tf_ecx r) v (tf_gs r) (tf_fs r) (tf_es r) (tf_ds r) (tf_trapno r)
    (tf_err r) (tf_eip r) (tf_cs r) (tf_eflags r) (tf_esp r) (tf_ss r).
Definition set_tf_es (v : Z) (r : trapframe) : trapframe :=
    Trapframe (tf_edi r) (tf_esi r) (tf_ebp r) (tf_oesp r) (tf_ebx r) (tf_edx
    r) (tf_ecx r) (tf_eax r) (tf_gs r) (tf_fs r) v (tf_ds r) (tf_trapno r)
    (tf_err r) (tf_eip r) (tf_cs r) (tf_eflags r) (tf_esp r) (tf_ss r).
Definition set_tf_ds (v : Z) (r : trapframe) : trapframe :=
    Trapframe (tf_edi r) (tf_esi r) (tf_ebp r) (tf_oesp r) (tf_ebx r) (tf_edx
    r) (tf_ecx r) (tf_eax r) (tf_gs r) (tf_fs r) (tf_es r) v (tf_trapno r)
    (tf_err r) (tf_eip r) (tf_cs r) (tf_eflags r) (tf_esp r) (tf_ss r).
Definition set_tf_eip (v : Z) (r : trapframe) : trapframe :=
    Trapframe (tf_edi r) (tf_esi r) (tf_ebp r) (tf_oesp r) (tf_ebx r) (tf_edx
    r) (tf_ecx r) (tf_eax r) (tf_gs r) (tf_fs r) (tf_es r) (tf_ds r)
    (tf_trapno r) (tf_err r) v (tf_cs r) (tf_eflags r) (tf_esp r) (tf_ss r).
Definition set_tf_cs (v : Z) (r : trapframe) : trapframe :=
    Trapframe (tf_edi r) (tf_esi r) (tf_ebp r) (tf_oesp r) (tf_ebx r) (tf_edx
    r) (tf_ecx r) (tf_eax r) (tf_gs r) (tf_fs r) (tf_es r) (tf_ds r)
    (tf_trapno r) (tf_err r) (tf_eip r) v (tf_eflags r) (tf_esp r) (tf_ss r).
Definition set_tf_eflags (v : Z) (r : trapframe) : trapframe :=
    Trapframe (tf_edi r) (tf_esi r) (tf_ebp r) (tf_oesp r) (tf_ebx r) (tf_edx
    r) (tf_ecx r) (tf_eax r) (tf_gs r) (tf_fs r) (tf_es r) (tf_ds r)
    (tf_trapno r) (tf_err r) (tf_eip r) (tf_cs r) v (tf_esp r) (tf_ss r).
Definition set_tf_esp (v : Z) (r : trapframe) : trapframe :=
    Trapframe (tf_edi r) (tf_esi r) (tf_ebp r) (tf_oesp r) (tf_ebx r) (tf_edx
    r) (tf_ecx r) (tf_eax r) (tf_gs r) (tf_fs r) (tf_es r) (tf_ds r)
    (tf_trapno r) (tf_err r) (tf_eip r) (tf_cs r) (tf_eflags r) v (tf_ss r).
Definition set_tf_ss (v : Z) (r : trapframe) : trapframe :=
    Trapframe (tf_edi r) (tf_esi r) (tf_ebp r) (tf_oesp r) (tf_ebx r) (tf_edx
    r) (tf_ecx r) (tf_eax r) (tf_gs r) (tf_fs r) (tf_es r) (tf_ds r)
    (tf_trapno r) (tf_err r) (tf_eip r) (tf_cs r) (tf_eflags r) (tf_esp r) v.

(** proc.h [struct context]. *)
Record context := Context {
  ctx_edi : Z;
  ctx_esi : Z;
  ctx_ebx : Z;
  ctx_ebp : Z;
  ctx_eip : Z }.

Definition set_ctx_eip (v : Z) (r : context) : context :=
    Context (ctx_edi r) (ctx_esi r) (ctx_ebx r) (ctx_ebp r) v.

(** What [allocproc] lays out at the top of the kernel stack: the trap frame, the
    return address below it and the saved context. *)
Record kstk := Kstk { ks_tf : trapframe; ks_ret : Z; ks_ctx : context }.

(** proc.h [struct proc]. File, inode, page-directory and stack pointers are addresses
    (0 is null); a [struct proc*] is an index into [ptable.proc]; [p_kstk] is
    the part of the kernel stack that [p_tf] and [p_context] point into. *)
Record proc := Proc {
  p_sz : Z;
  p_pgdir : Z;
  p_kstack : Z;
  p_state : procstate;
  p_pid : Z;
  p_parent : option nat;
  p_tf : Z;
  p_context : Z;
  p_chan : chan;
  p_killed : Z;
  p_ofile : list Z;
  p_cwd : Z;
  p_name : list Z;
  p_priority : Z;
  p_ctime : Z;
  p_etime : Z;
  p_wtime : Z;
  p_rtime : Z;
  p_queue : Z;
  p_modtime : Z;
  p_retime : Z;
  p_num_run : Z;
  p_ticks : list Z;
  p_last_executed : Z;
  p_run_curr : Z;
  p_kstk : kstk }.

Definition set_p_sz (v : Z) (r : proc) : proc :=
    Proc v (p_pgdir r) (p_kstack r) (p_state r) (p_pid r) (p_parent r) (p_tf
    r) (p_context r) (p_chan r) (p_killed r) (p_ofile r) (p_cwd r) (p_name r)
    (p_priority r) (p_ctime r) (p_etime r) (p_wtime r) (p_rtime r) (p_queue r)
    (p_modtime r) (p_retime r) (p_num_run r) (p_ticks r) (p_last_executed r)
    (p_run_curr r) (p_kstk r).
Definition set_p_pgdir (v : Z) (r : proc) : proc :=
    Proc (p_sz r) v (p_kstack r) (p_state r) (p_pid r) (p_parent r) (p_tf r)
    (p_context r) (p_chan r) (p_killed r) (p_ofile r) (p_cwd r) (p_name r)
    (p_priority r) (p_ctime r) (p_etime r) (p_wtime r) (p_rtime r) (p_queue r)
    (p_modtime r) (p_retime r) (p_num_run r) (p_ticks r) (p_last_executed r)
    (p_run_curr r) (p_kstk r).
Definition set_p_kstack (v : Z) (r : proc) : proc :=
    Proc (p_sz r) (p_pgdir r) v (p_state r) (p_pid r) (p_parent r) (p_tf r)
    (p_context r) (p_chan r) (p_killed r) (p_ofile r) (p_cwd r) (p_name r)
    (p_priority r) (p_ctime r) (p_etime r) (p_wtime r) (p_rtime r) (p_queue r)
    (p_modtime r) (p_retime r) (p_num_run r) (p_ticks r) (p_last_executed r)
    (p_run_curr r) (p_kstk r).
Definition set_p_state (v : procstate) (r : proc) : proc :=
    Proc (p_sz r) (p_pgdir r) (p_kstack r) v (p_pid r) (p_parent r) (p_tf r)
    (p_context r) (p_chan r) (p_killed r) (p_ofile r) (p_cwd r) (p_name r)
    (p_priority r) (p_ctime r) (p_etime r) (p_wtime r) (p_rtime r) (p_queue r)
    (p_modtime r) (p_retime r) (p_num_run r) (p_ticks r) (p_last_executed r)
    (p_run_curr r) (p_kstk r).
Definition set_p_pid (v : Z) (r : proc) : proc :=
    Proc (p_sz r) (p_pgdir r) (p_kstack r) (p_state r) v (p_parent r) (p_tf r)
    (p_context r) (p_chan r) (p_killed r) (p_ofile r) (p_cwd r) (p_name r)
    (p_priority r) (p_ctime r) (p_etime r) (p_wtime r) (p_rtime r) (p_queue r)
    (p_modtime r) (p_retime r) (p_num_run r) (p_ticks r) (p_last_executed r)
    (p_run_curr r) (p_kstk r).
Definition set_p_parent (v : option nat) (r : proc) : proc :=
    Proc (p_sz r) (p_pgdir r) (p_kstack r) (p_state r) (p_pid r) v (p_tf r)
    (p_context r) (p_chan r) (p_killed r) (p_ofile r) (p_cwd r) (p_name r)
    (p_priority r) (p_ctime r) (p_etime r) (p_wtime r) (p_rtime r) (p_queue r)
    (p_modtime r) (p_retime r) (p_num_run r) (p_ticks r) (p_last_executed r)
    (p_run_curr r) (p_kstk r).
Definition set_p_tf (v : Z) (r : proc) : proc :=
    Proc (p_sz r) (p_pgdir r) (p_kstack r) (p_state r) (p_pid r) (p_parent r)
    v (p_context r) (p_chan r) (p_killed r) (p_ofile r) (p_cwd r) (p_name r)
    (p_priority r) (p_ctime r) (p_etime r) (p_wtime r) (p_rtime r) (p_queue r)
    (p_modtime r) (p_retime r) (p_num_run r) (p_ticks r) (p_last_executed r)
    (p_run_curr r) (p_kstk r).
Definition set_p_context (v : Z) (r : proc) : proc :=
    Proc (p_sz r) (p_pgdir r) (p_kstack r) (p_state r) (p_pid r) (p_parent r)
    (p_tf r) v (p_chan r) (p_killed r) (p_ofile r) (p_cwd r) (p_name r)
    (p_priority r) (p_ctime r) (p_etime r) (p_wtime r) (p_rtime r) (p_queue r)
    (p_modtime r) (p_retime r) (p_num_run r) (p_ticks r) (p_last_executed r)
    (p_run_curr r) (p_kstk r).
Definition set_p_chan (v : chan) (r : proc) : proc :=
    Proc (p_sz r) (p_pgdir r) (p_kstack r) (p_state r) (p_pid r) (p_parent r)
    (p_tf r) (p_context r) v (p_killed r) (p_ofile r) (p_cwd r) (p_name r)
    (p_priority r) (p_ctime r) (p_etime r) (p_wtime r) (p_rtime r) (p_queue r)
    (p_modtime r) (p_retime r) (p_num_run r) (p_ticks r) (p_last_executed r)
    (p_run_curr r) (p_kstk r).
Definition set_p_killed (v : Z) (r : proc) : proc :=
    Proc (p_sz r) (p_pgdir r) (p_kstack r) (p_state r) (p_pid r) (p_parent r)
    (p_tf r) (p_context r) (p_chan r) v (p_ofile r) (p_cwd r) (p_name r)
    (p_priority r) (p_ctime r) (p_etime r) (p_wtime r) (p_rtime r) (p_queue r)
    (p_modtime r) (p_retime r) (p_num_run r) (p_ticks r) (p_last_executed r)
    (p_run_curr r) (p_kstk r).
Definition set_p_ofile (v : list Z) (r : proc) : proc :=
    Proc (p_sz r) (p_pgdir r) (p_kstack r) (p_state r) (p_pid r) (p_parent r)
    (p_tf r) (p_context r) (p_chan r) (p_killed r) v (p_cwd r) (p_name r)
    (p_priority r) (p_ctime r) (p_etime r) (p_wtime r) (p_rtime r) (p_queue r)
    (p_modtime r) (p_retime r) (p_num_run r) (p_ticks r) (p_last_executed r)
    (p_run_curr r) (p_kstk r).
Definition set_p_cwd (v : Z) (r : proc) : proc :=
    Proc (p_sz r) (p_pgdir r) (p_kstack r) (p_state r) (p_pid r) (p_parent r)
    (p_tf r) (p_context r) (p_chan r) (p_killed r) (p_ofile r) v (p_name r)
    (p_priority r) (p_ctime r) (p_etime r) (p_wtime r) (p_rtime r) (p_queue r)
    (p_modtime r) (p_retime r) (p_num_run r) (p_ticks r) (p_last_executed r)
    (p_run_curr r) (p_kstk r).
Definition set_p_name (v : list Z) (r : proc) : proc :=
    Proc (p_sz r) (p_pgdir r) (p_kstack r) (p_state r) (p_pid r) (p_parent r)
    (p_tf r) (p_context r) (p_chan r) (p_killed r) (p_ofile r) (p_cwd r) v
    (p_priority r) (p_ctime r) (p_etime r) (p_wtime r) (p_rtime r) (p_queue r)
    (p_modtime r) (p_retime r) (p_num_run r) (p_ticks r) (p_last_executed r)
    (p_run_curr r) (p_kstk r).
Definition set_p_priority (v : Z) (r : proc) : proc :=
    Proc (p_sz r) (p_pgdir r) (p_kstack r) (p_state r) (p_pid r) (p_parent r)
    (p_tf r) (p_context r) (p_chan r) (p_killed r) (p_ofile r) (p_cwd r)
    (p_name r) v (p_ctime r) (p_etime r) (p_wtime r) (p_rtime r) (p_queue r)
    (p_modtime r) (p_retime r) (p_num_run r) (p_ticks r) (p_last_executed r)
    (p_run_curr r) (p_kstk r).
Definition set_p_ctime (v : Z) (r : proc) : proc :=
    Proc (p_sz r) (p_pgdir r) (p_kstack r) (p_state r) (p_pid r) (p_parent r)
    (p_tf r) (p_context r) (p_chan r) (p_killed r) (p_ofile r) (p_cwd r)
    (p_name r) (p_priority r) v (p_etime r) (p_wtime r) (p_rtime r) (p_queue
    r) (p_modtime r) (p_retime r) (p_num_run r) (p_ticks r) (p_last_executed
    r) (p_run_curr r) (p_kstk r).
Definition set_p_etime (v : Z) (r : proc) : proc :=
    Proc (p_sz r) (p_pgdir r) (p_kstack r) (p_state r) (p_pid r) (p_parent r)
    (p_tf r) (p_context r) (p_chan r) (p_killed r) (p_ofile r) (p_cwd r)
    (p_name r) (p_priority r) (p_ctime r) v (p_wtime r) (p_rtime r) (p_queue
    r) (p_modtime r) (p_retime r) (p_num_run r) (p_ticks r) (p_last_executed
    r) (p_run_curr r) (p_kstk r).
Definition set_p_wtime (v : Z) (r : proc) : proc :=
    Proc (p_sz r) (p_pgdir r) (p_kstack r) (p_state r) (p_pid r) (p_parent r)
    (p_tf r) (p_context r) (p_chan r) (p_killed r) (p_ofile r) (p_cwd r)
    (p_name r) (p_priority r) (p_ctime r) (p_etime r) v (p_rtime r) (p_queue
    r) (p_modtime r) (p_retime r) (p_num_run r) (p_ticks r) (p_last_executed
    r) (p_run_curr r) (p_kstk r).
Definition set_p_rtime (v : Z) (r : proc) : proc :=
    Proc (p_sz r) (p_pgdir r) (p_kstack r) (p_state r) (p_pid r) (p_parent r)
    (p_tf r) (p_context r) (p_chan r) (p_killed r) (p_ofile r) (p_cwd r)
    (p_name r) (p_priority r) (p_ctime r) (p_etime r) (p_wtime r) v (p_queue
    r) (p_modtime r) (p_retime r) (p_num_run r) (p_ticks r) (p_last_executed
    r) (p_run_curr r) (p_kstk r).
Definition set_p_queue (v : Z) (r : proc) : proc :=
    Proc (p_sz r) (p_pgdir r) (p_kstack r) (p_state r) (p_pid r) (p_parent r)
    (p_tf r) (p_context r) (p_chan r) (p_killed r) (p_ofile r) (p_cwd r)
    (p_name r) (p_priority r) (p_ctime r) (p_etime r) (p_wtime r) (p_rtime r)
    v (p_modtime r) (p_retime r) (p_num_run r) (p_ticks r) (p_last_executed r)
    (p_run_curr r) (p_kstk r).
Definition set_p_modtime (v : Z) (r : proc) : proc :=
    Proc (p_sz r) (p_pgdir r) (p_kstack r) (p_state r) (p_pid r) (p_parent r)
    (p_tf r) (p_context r) (p_chan r) (p_killed r) (p_ofile r) (p_cwd r)
    (p_name r) (p_priority r) (p_ctime r) (p_etime r) (p_wtime r) (p_rtime r)
    (p_queue r) v (p_retime r) (p_num_run r) (p_ticks r) (p_last_executed r)
    (p_run_curr r) (p_kstk r).
Definition set_p_retime (v : Z) (r : proc) : proc :=
    Proc (p_sz r) (p_pgdir r) (p_kstack r) (p_state r) (p_pid r) (p_parent r)
    (p_tf r) (p_context r) (p_chan r) (p_killed r) (p_ofile r) (p_cwd r)
    (p_name r) (p_priority r) (p_ctime r) (p_etime r) (p_wtime r) (p_rtime r)
    (p_queue r) (p_modtime r) v (p_num_run r) (p_ticks r) (p_last_executed r)
    (p_run_curr r) (p_kstk r).
Definition set_p_num_run (v : Z) (r : proc) : proc :=
    Proc (p_sz r) (p_pgdir r) (p_kstack r) (p_state r) (p_pid r) (p_parent r)
    (p_tf r) (p_context r) (p_chan r) (p_killed r) (p_ofile r) (p_cwd r)
    (p_name r) (p_priority r) (p_ctime r) (p_etime r) (p_wtime r) (p_rtime r)
    (p_queue r) (p_modtime r) (p_retime r) v (p_ticks r) (p_last_executed r)
    (p_run_curr r) (p_kstk r).
Definition set_p_ticks (v : list Z) (r : proc) : proc :=
    Proc (p_sz r) (p_pgdir r) (p_kstack r) (p_state r) (p_pid r) (p_parent r)
    (p_tf r) (p_context r) (p_chan r) (p_killed r) (p_ofile r) (p_cwd r)
    (p_name r) (p_priority r) (p_ctime r) (p_etime r) (p_wtime r) (p_rtime r)
    (p_queue r) (p_modtime r) (p_retime r) (p_num_run r) v (p_last_executed r)
    (p_run_curr r) (p_kstk r).
Definition set_p_last_executed (v : Z) (r : proc) : proc :=
    Proc (p_sz r) (p_pgdir r) (p_kstack r) (p_state r) (p_pid r) (p_parent r)
    (p_tf r) (p_context r) (p_chan r) (p_killed r) (p_ofile r) (p_cwd r)
    (p_name r) (p_priority r) (p_ctime r) (p_etime r) (p_wtime r) (p_rtime r)
    (p_queue r) (p_modtime r) (p_retime r) (p_num_run r) (p_ticks r) v
    (p_run_curr r) (p_kstk r).
Definition set_p_kstk (v : kstk) (r : proc) : proc :=
    Proc (p_sz r) (p_pgdir r) (p_kstack r) (p_state r) (p_pid r) (p_parent r)
    (p_tf r) (p_context r) (p_chan r) (p_killed r) (p_ofile r) (p_cwd r)
    (p_name r) (p_priority r) (p_ctime r) (p_etime r) (p_wtime r) (p_rtime r)
    (p_queue r) (p_modtime r) (p_retime r) (p_num_run r) (p_ticks r)
    (p_last_executed r) (p_run_curr r) v.

(** [struct { ... } ptable]: the run queues are arrays of [NPROC] process
    pointers used as rings, [queue_head]/[queue_tail] their indices. *)
Record ptable := PTable {
  pt_lock : spinlock;
  pt_proc : list proc;
  queue_head : list nat;
  queue_tail : list nat;
  pt_queue : list (list (option nat)) }.

Definition set_pt_lock (v : spinlock) (t : ptable) : ptable :=
  PTable v (pt_proc t) (queue_head t) (queue_tail t) (pt_queue t).
Definition set_pt_proc (v : list proc) (t : ptable) : ptable :=
  PTable (pt_lock t) v (queue_head t) (queue_tail t) (pt_queue t).
Definition set_queue_head (v : list nat) (t : ptable) : ptable :=
  PTable (pt_lock t) (pt_proc t) v (queue_tail t) (pt_queue t).
Definition set_queue_tail (v : list nat) (t : ptable) : ptable :=
  PTable (pt_lock t) (pt_proc t) (queue_head t) v (pt_queue t).
Definition set_pt_queue (v : list (list (option nat))) (t : ptable) : ptable :=
  PTable (pt_lock t) (pt_proc t) (queue_head t) (queue_tail t) v.

(** [ptable] and its processes before any code has run: zeroed memory. *)
Definition zero_trapframe : trapframe := Trapframe 0 0 0 0 0 0 0 0 0 0 0 0 0 0 0 0 0 0 0.
Definition zero_proc : proc :=
  Proc 0 0 0 UNUSED 0 None 0 0 ChNull 0 (replicate 16 0) 0 (replicate 16 0) 0 0 0 0 0 0 0 0 0
    (replicate 5 0) 0 0 (Kstk zero_trapframe 0 (Context 0 0 0 0 0)).
Definition zero_ptable : ptable :=
  PTable (Spinlock 0 "" None (replicate 10 0)) (replicate NPROC zero_proc)
    (replicate 5 0%nat) (replicate 5 0%nat) (replicate 5 (replicate NPROC None)).

(** Update one entry of [ptable.proc]. *)
Definition upd (i : nat) (f : proc -> proc) (t : ptable) : ptable :=
  set_pt_proc (alter f i (pt_proc t)) t.

(** [slice]: the number of consecutive runs a process of each queue gets. *)
Definition slice : list Z := [1; 2; 4; 8; 16].

Definition Ageing_const : Z := 1000.

(** ** Table-level operations (called with [ptable.lock] held) *)

Definition enqueue (queue_number : Z) (new : nat) : M ptable unit :=
  if (4 <? queue_number) || (queue_number <? 0)
  then panic "out of bound quenumber"
  else
    let q := Z.to_nat queue_number in
    let! tail_end := gets (fun t => default 0%nat (queue_tail t !! q)) in
    modify (fun t => set_pt_queue (alter (<[tail_end := Some new]>) q (pt_queue t)) t) ;;;
    modify (upd new (set_p_queue queue_number)) ;;;
    modify (fun t => set_queue_tail
      (<[q := ((default 0 (queue_tail t !! q) + 1) mod NPROC)%nat]> (queue_tail t)) t).

Definition dequeue (queue_number : Z) : M ptable unit :=
  if (4 <? queue_number) || (queue_number <? 0)
  then panic "out of bound quenumber"
  else
    let q := Z.to_nat queue_number in
    modify (fun t => set_queue_head
      (<[q := ((default 0 (queue_head t !! q) + 1) mod NPROC)%nat]> (queue_head t)) t).

(** One iteration of the loop of [wakeup1]. *)
Definition wakeup1_body (c : chan) (i : nat) : M ptable unit :=
  let! t := get in
  match pt_proc t !! i with
  | None => m_ret tt
  | Some p =>
      if bool_decide (p_state p = SLEEPING) && bool_decide (p_chan p = c) then
        modify (upd i (set_p_state RUNNABLE)) ;;;
        enqueue (p_queue p) i
      else m_ret tt
  end.

Definition wakeup1 (c : chan) : M ptable unit :=
  mfor (seq 0 NPROC) (wakeup1_body c).

(** The loop of [kill] over the table: mark the process, wake it if it sleeps,
    and stop at the first match. The result says whether one was found. *)
Fixpoint kill_scan (pid : Z) (l : list nat) : M ptable bool :=
  match l with
  | [] => m_ret false
  | i :: l =>
      let! t := get in
      match pt_proc t !! i with
      | Some p =>
          if p_pid p =? pid then
            modify (upd i (set_p_killed 1)) ;;;
            when (bool_decide (p_state p = SLEEPING))
              (modify (upd i (set_p_state RUNNABLE)) ;;; enqueue (p_queue p) i) ;;;
            m_ret true
          else kill_scan pid l
      | None => kill_scan pid l
      end
  end.

(** The loop of [chpr]. *)
Fixpoint chpr_scan (pid priority : Z) (l : list nat) : M ptable unit :=
  match l with
  | [] => m_ret tt
  | i :: l =>
      let! t := get in
      match pt_proc t !! i with
      | Some p =>
          if p_pid p =? pid then modify (upd i (set_p_priority priority))
          else chpr_scan pid priority l
      | None => chpr_scan pid priority l
      end
  end.

(** The loop of [exit] that passes abandoned children to [init]. *)
Definition reparent_body (cur : nat) (initproc : option nat) (i : nat)
    : M ptable unit :=
  let! t := get in
  match pt_proc t !! i with
  | Some p =>
      if bool_decide (p_parent p = Some cur) then
        modify (upd i (set_p_parent initproc)) ;;;
        when (bool_decide (p_state p = ZOMBIE)) (wakeup1 (proc_chan initproc))
      else m_ret tt
  | None => m_ret tt
  end.
Definition reparent (cur : nat) (initproc : option nat) : M ptable unit :=
  mfor (seq 0 NPROC) (reparent_body cur initproc).

(** ** The rings as first-in first-out lists *)

#[local] Arguments Nat.modulo : simpl never.

Record ptable_wf (t : ptable) : Prop := {
  wf_procs : length (pt_proc t) = NPROC;
  wf_heads : length (queue_head t) = 5%nat;
  wf_tails : length (queue_tail t) = 5%nat;
  wf_queues : length (pt_queue t) = 5%nat;
  wf_head : forall q h, queue_head t !! q = Some h -> (h < NPROC)%nat;
  wf_tail : forall q k, queue_tail t !! q = Some k -> (k < NPROC)%nat;
  wf_ring : forall q l, pt_queue t !! q = Some l -> length l = NPROC }.

(** [ring l h n]: the [n] entries of the ring from index [h] on. *)
Definition ring (l : list (option nat)) (h n : nat) : list (option nat) :=
  (fun k => default None (l !! ((h + k) mod NPROC)%nat)) <$> seq 0 n.

Definition ring_len (h k : nat) : nat := ((k + NPROC - h) mod NPROC)%nat.

(** The contents of queue [q], oldest first. *)
Definition qcontents (t : ptable) (q : nat) : list (option nat) :=
  let h := default 0%nat (queue_head t !! q) in
  let k := default 0%nat (queue_tail t !! q) in
  ring (default [] (pt_queue t !! q)) h (ring_len h k).

Lemma ring_len_lt h k : (ring_len h k < NPROC)%nat.
Proof. apply Nat.mod_upper_bound. done. Qed.

Lemma length_ring l h n : length (ring l h n) = n.
Proof. unfold ring. by rewrite length_fmap, length_seq. Qed.

Lemma length_qcontents t q : (length (qcontents t q) < NPROC)%nat.
Proof. unfold qcontents. rewrite length_ring. apply ring_len_lt. Qed.

Lemma ring_len_tail h k : (h < NPROC)%nat -> (k < NPROC)%nat ->
  (ring_len h k < NPROC - 1)%nat ->
  ring_len h ((k + 1) mod NPROC) = S (ring_len h k).
Proof. unfold ring_len, NPROC. intros. zlia. Qed.

Lemma ring_len_head h k n : (h < NPROC)%nat -> (k < NPROC)%nat ->
  ring_len h k = S n -> ring_len ((h + 1) mod NPROC) k = n.
Proof. unfold ring_len, NPROC. intros. zlia. Qed.

Lemma ring_pos h k : (h < NPROC)%nat -> (k < NPROC)%nat ->
  ((h + ring_len h k) mod NPROC)%nat = k.
Proof. unfold ring_len, NPROC. intros. zlia. Qed.

Lemma ring_index_inj h i j : (h < NPROC)%nat -> (i < NPROC)%nat -> (j < NPROC)%nat ->
  ((h + i) mod NPROC)%nat = ((h + j) mod NPROC)%nat -> i = j.
Proof. unfold NPROC. intros. zlia. Qed.

Lemma ring_snoc l h k x : length l = NPROC -> (h < NPROC)%nat -> (k < NPROC)%nat ->
  (ring_len h k < NPROC - 1)%nat ->
  ring (<[k := x]> l) h (S (ring_len h k)) = ring l h (ring_len h k) ++ [x].
Proof.
  intros Hl Hh Hk Hn. unfold ring.
  rewrite seq_S, fmap_app. simpl. f_equal.
  - apply list_fmap_ext. intros i j Hj. apply lookup_seq in Hj as [-> Hi].
    rewrite list_lookup_insert_ne; [done|].
    intros E. rewrite <- (ring_pos h k) in E by done.
    apply ring_index_inj in E; [lia|done| |]; unfold NPROC in *; lia.
  - rewrite ring_pos by done. rewrite list_lookup_insert_eq by lia. done.
Qed.

Lemma ring_tail l h n : (h < NPROC)%nat ->
  ring l h (S n) = default None (l !! h) :: ring l ((h + 1) mod NPROC) n.
Proof.
  intros Hh. unfold ring. simpl. f_equal.
  - rewrite Nat.add_0_r. by rewrite Nat.mod_small.
  - rewrite <- seq_shift, <- list_fmap_compose. apply list_fmap_ext.
    intros i j Hj. simpl. f_equal. f_equal. unfold NPROC in *. zlia.
Qed.

Lemma lookup_total_default {A} (l : list A) i d : (i < length l)%nat ->
  l !! i = Some (default d (l !! i)).
Proof. intros H. destruct (lookup_lt_is_Some_2 l i H) as [x ->]. done. Qed.

Section QueueFacts.
Variable t : ptable.
Hypothesis Hwf : ptable_wf t.

Lemma queue_parts q : (q < 5)%nat ->
  exists h k l, queue_head t !! q = Some h /\ queue_tail t !! q = Some k /\
    pt_queue t !! q = Some l /\ (h < NPROC)%nat /\ (k < NPROC)%nat /\
    length l = NPROC.
Proof using Hwf.
  intros Hq. destruct Hwf.
  destruct (lookup_lt_is_Some_2 (queue_head t) q) as [h Eh]; [lia|].
  destruct (lookup_lt_is_Some_2 (queue_tail t) q) as [k Ek]; [lia|].
  destruct (lookup_lt_is_Some_2 (pt_queue t) q) as [l El]; [lia|].
  exists h, k, l. naive_solver.
Qed.

(** The table after [enqueue]. *)
Definition enqueued (qn : Z) (new : nat) : ptable :=
  let q := Z.to_nat qn in
  let k := default 0%nat (queue_tail t !! q) in
  PTable (pt_lock t) (alter (set_p_queue qn) new (pt_proc t)) (queue_head t)
    (<[q := ((k + 1) mod NPROC)%nat]> (queue_tail t))
    (alter (<[k := Some new]>) q (pt_queue t)).

Lemma enqueue_run qn new : 0 <= qn <= 4 ->
  enqueue qn new t = Done tt (enqueued qn new).
Proof using.
  intros Hq. unfold enqueue. destruct (Z.ltb_spec 4 qn); [lia|].
  destruct (Z.ltb_spec qn 0); [lia|]. done.
Qed.

Lemma enqueue_panic qn new : qn < 0 \/ 4 < qn ->
  enqueue qn new t = Panic "out of bound quenumber".
Proof using.
  intros Hq. unfold enqueue. destruct (Z.ltb_spec 4 qn); [done|].
  destruct (Z.ltb_spec qn 0); [done|lia].
Qed.

Lemma enqueued_wf qn new : 0 <= qn <= 4 -> ptable_wf (enqueued qn new).
Proof using Hwf.
  intros Hq. destruct Hwf. unfold enqueued.
  split; simpl; rewrite ?length_alter, ?length_insert; try done.
  - intros q k. rewrite list_lookup_insert_Some.
    intros [(_ & <- & _)|[_ ?]]; [|eauto]. by apply Nat.mod_upper_bound.
  - intros q l. rewrite list_alter_Some.
    intros [(_ & ? & ? & ->)|[_ ?]]; [|eauto]. rewrite length_insert. eauto.
Qed.

Lemma enqueued_contents qn new q : 0 <= qn <= 4 -> (q < 5)%nat ->
  (length (qcontents t (Z.to_nat qn)) < NPROC - 1)%nat ->
  qcontents (enqueued qn new) q =
  if decide (q = Z.to_nat qn) then qcontents t q ++ [Some new] else qcontents t q.
Proof using Hwf.
  intros Hq Hq5 Hlen. unfold qcontents, enqueued in *; simpl.
  destruct (queue_parts (Z.to_nat qn)) as (h & k & l & Eh & Ek & El & Hh & Hk & Hl);
    [lia|]. rewrite Eh, Ek, El in Hlen. simpl in Hlen. rewrite length_ring in Hlen.
  case_decide as E.
  - subst q. rewrite Eh, Ek, El; simpl. rewrite list_lookup_insert_eq
      by (apply lookup_lt_Some in Ek; done).
    rewrite list_lookup_alter_eq, El; simpl. rewrite ring_len_tail by done.
    by apply ring_snoc.
  - rewrite list_lookup_insert_ne, list_lookup_alter_ne by done. done.
Qed.

Definition dequeued (qn : Z) : ptable :=
  let q := Z.to_nat qn in
  set_queue_head
    (<[q := ((default 0 (queue_head t !! q) + 1) mod NPROC)%nat]> (queue_head t)) t.

Lemma dequeue_run qn : 0 <= qn <= 4 -> dequeue qn t = Done tt (dequeued qn).
Proof using.
  intros Hq. unfold dequeue. destruct (Z.ltb_spec 4 qn); [lia|].
  destruct (Z.ltb_spec qn 0); [lia|]. done.
Qed.

Lemma dequeued_wf qn : 0 <= qn <= 4 -> ptable_wf (dequeued qn).
Proof using Hwf.
  intros Hq. destruct Hwf. unfold dequeued.
  split; simpl; rewrite ?length_insert; try done.
  intros q k. rewrite list_lookup_insert_Some.
  intros [(_ & <- & _)|[_ ?]]; [|eauto]. by apply Nat.mod_upper_bound.
Qed.

Lemma dequeued_contents qn q x l : 0 <= qn <= 4 -> (q < 5)%nat ->
  qcontents t (Z.to_nat qn) = x :: l ->
  qcontents (dequeued qn) q = if decide (q = Z.to_nat qn) then l else qcontents t q.
Proof using Hwf.
  intros Hq Hq5 Hc. unfold qcontents, dequeued in *; simpl.
  destruct (queue_parts (Z.to_nat qn)) as (h & k & r & Eh & Ek & El & Hh & Hk & Hl);
    [lia|]. rewrite Eh, Ek, El in Hc. simpl in Hc.
  case_decide as E; [|by rewrite list_lookup_insert_ne by done].
  subst q. rewrite Eh, Ek, El; simpl.
  rewrite list_lookup_insert_eq by (apply lookup_lt_Some in Eh; done). simpl.
  destruct (ring_len h k) as [|n] eqn:En; [done|].
  rewrite ring_tail in Hc by done. injection Hc as _ <-.
  by rewrite (ring_len_head h k n).
Qed.
End QueueFacts.
