(* ===== verification/RunQueue.v ===== *)
(** * The run-queue invariant of the multilevel feedback queues (proc.c)

    [qinv] says that a process is RUNNABLE exactly when it is in one of the five
    queues, in the one [p->queue] names, and only once. Each place where
    proc.c makes a process RUNNABLE ([fork], [wakeup1], [kill], the scheduler)
    or takes one off a queue is shown to keep it. *)

From stdpp Require Import base tactics numbers list sets strings.
From Stdlib Require Import ZArith Lia ZifyNat.
From S2P Require Import Prelude Layout Spinlock PTable.

#[local] Arguments Nat.modulo : simpl never.

Record qinv (t : ptable) : Prop := {
  qi_wf : ptable_wf t;
  qi_range : forall i p, pt_proc t !! i = Some p -> 0 <= p_queue p <= 4;
  qi_entry : forall q e, (q < 5)%nat -> e ∈ qcontents t q ->
    exists i p, e = Some i /\ pt_proc t !! i = Some p /\
      p_state p = RUNNABLE /\ p_queue p = Z.of_nat q;
  qi_runnable : forall i p, pt_proc t !! i = Some p -> p_state p = RUNNABLE ->
    Some i ∈ qcontents t (Z.to_nat (p_queue p));
  qi_nodup : forall q, (q < 5)%nat -> NoDup (qcontents t q) }.

(** Some slot of the table is not RUNNABLE. The rings have [NPROC] entries and
    [head == tail] means empty, so a ring that held all [NPROC] processes would
    look empty; this is what keeps one entry free. *)
Definition spare (t : ptable) : Prop :=
  exists j p, pt_proc t !! j = Some p /\ p_state p <> RUNNABLE.

(** Making process [i] RUNNABLE and putting it on queue [qn]. *)
Definition make_runnable (qn : Z) (i : nat) (t : ptable) : ptable :=
  enqueued (upd i (set_p_state RUNNABLE) t) qn i.

(** Only [pt_proc] decides what [upd] leaves of the queues. *)
Lemma qcontents_upd i f t q : qcontents (upd i f t) q = qcontents t q.
Proof. done. Qed.

Lemma upd_wf i f t : ptable_wf t -> ptable_wf (upd i f t).
Proof.
  intros []. split; simpl; try done. by rewrite length_alter.
Qed.

Lemma upd_lookup i f t j p' :
  pt_proc (upd i f t) !! j = Some p' <->
  (i = j /\ exists p, pt_proc t !! j = Some p /\ p' = f p) \/
  (i <> j /\ pt_proc t !! j = Some p').
Proof. apply list_alter_Some. Qed.

Section QueueInvariant.
Variable t : ptable.
Hypothesis Hq : qinv t.

Lemma not_queued i p q : pt_proc t !! i = Some p -> p_state p <> RUNNABLE ->
  (q < 5)%nat -> Some i ∉ qcontents t q.
Proof using Hq.
  intros Hi Hs Hq5 Hin. destruct (qi_entry _ Hq q _ Hq5 Hin) as (k & p' & E & Hk & Hr & _).
  simplify_eq.
Qed.

(** Two processes that are not queued leave room in every ring. *)
Lemma queue_room i j q : i <> j -> (i < NPROC)%nat -> (j < NPROC)%nat -> (q < 5)%nat ->
  Some i ∉ qcontents t q -> Some j ∉ qcontents t q ->
  (length (qcontents t q) < NPROC - 1)%nat.
Proof using Hq.
  intros Hne Hi Hj Hq5 Hni Hnj.
  assert (NoDup (Some i :: Some j :: qcontents t q)) as Hnd.
  { constructor; [|constructor; [done|by apply qi_nodup]].
    rewrite elem_of_cons. naive_solver. }
  assert (Some i :: Some j :: qcontents t q ⊆ Some <$> seq 0 NPROC) as Hsub.
  { intros e. rewrite !elem_of_cons, list_elem_of_fmap.
    intros [->|[->|He]].
    - exists i. split; [done|]. apply elem_of_seq. lia.
    - exists j. split; [done|]. apply elem_of_seq. lia.
    - destruct (qi_entry _ Hq q e Hq5 He) as (k & p & -> & Hk & _).
      apply lookup_lt_Some in Hk. rewrite (wf_procs _ (qi_wf _ Hq)) in Hk.
      exists k. split; [done|]. apply elem_of_seq. lia. }
  assert (length (Some i :: Some j :: qcontents t q) <= length (Some <$> seq 0 NPROC))%nat
    as Hle.
  { apply submseteq_length, NoDup_submseteq; [done|]. intros e He. by apply Hsub. }
  rewrite length_fmap, length_seq in Hle. simpl in Hle. unfold NPROC in *. lia.
Qed.

(** Field updates that change neither RUNNABLE-ness nor the queue of a
    RUNNABLE process. *)
Lemma upd_qinv i f :
  (forall p, pt_proc t !! i = Some p ->
    (p_state (f p) = RUNNABLE <-> p_state p = RUNNABLE) /\
    0 <= p_queue (f p) <= 4 /\
    (p_state p = RUNNABLE -> p_queue (f p) = p_queue p)) ->
  qinv (upd i f t).
Proof using Hq.
  intros Hf. pose proof Hq as [Hwf Hr He Hru Hnd]. split.
  - by apply upd_wf.
  - intros j p'. rewrite upd_lookup. intros [(<- & p & Hp & ->)|[_ Hp]];
      [by apply Hf|eauto].
  - intros q e Hq5 Hin. rewrite qcontents_upd in Hin.
    destruct (He q e Hq5 Hin) as (k & p & -> & Hk & Hs & Hqk).
    destruct (decide (i = k)) as [->|Hne].
    + exists k, (f p). destruct (Hf p Hk) as (H1 & H2 & H3). split; [done|].
      split; [|split; [by apply H1|by rewrite H3]].
      apply upd_lookup. eauto.
    + exists k, p. split; [done|]. split; [|done]. apply upd_lookup. auto.
  - intros j p'. rewrite upd_lookup, qcontents_upd.
    intros [(<- & p & Hp & ->)|[_ Hp]] Hs; [|eauto].
    destruct (Hf p Hp) as (H1 & H2 & H3). apply H1 in Hs. rewrite H3 by done. eauto.
  - intros q. rewrite qcontents_upd. apply Hnd.
Qed.

(** A process that was not RUNNABLE becomes RUNNABLE and is queued. *)
Lemma make_runnable_qinv qn i p :
  0 <= qn <= 4 -> pt_proc t !! i = Some p -> p_state p <> RUNNABLE ->
  (exists j p', j <> i /\ pt_proc t !! j = Some p' /\ p_state p' <> RUNNABLE) ->
  qinv (make_runnable qn i t).
Proof using Hq.
  intros Hqn Hi Hs (j & pj & Hji & Hj & Hsj).
  pose proof Hq as [Hwf Hr He Hru Hnd].
  pose proof (lookup_lt_Some _ _ _ Hi) as Hil. pose proof (lookup_lt_Some _ _ _ Hj) as Hjl.
  rewrite (wf_procs _ Hwf) in Hil, Hjl.
  set (t1 := upd i (set_p_state RUNNABLE) t).
  assert (ptable_wf t1) as Hwf1 by by apply upd_wf.
  assert (forall q, (q < 5)%nat -> qcontents (make_runnable qn i t) q =
    if decide (q = Z.to_nat qn) then qcontents t q ++ [Some i] else qcontents t q) as Hc.
  { intros q Hq5. unfold make_runnable. fold t1.
    rewrite enqueued_contents; [done|done|done|done|].
    unfold t1. rewrite qcontents_upd. apply (queue_room i j); try done; try lia.
    - eapply not_queued; [exact Hi|done|lia].
    - eapply not_queued; [exact Hj|done|lia]. }
  assert (forall k p', pt_proc (make_runnable qn i t) !! k = Some p' <->
    (k = i /\ p' = set_p_queue qn (set_p_state RUNNABLE p)) \/
    (k <> i /\ pt_proc t !! k = Some p')) as Hl.
  { intros k p'. unfold make_runnable, enqueued; simpl.
    destruct (decide (k = i)) as [->|Hne].
    - rewrite !list_lookup_alter_eq, Hi; simpl. naive_solver.
    - rewrite !list_lookup_alter_ne by done. naive_solver. }
  split.
  - by apply enqueued_wf.
  - intros k p' [[-> ->]|[_ Hk]]%Hl; [done|eauto].
  - intros q e Hq5. rewrite Hc by done. case_decide as Eq.
    + rewrite elem_of_app, list_elem_of_singleton. intros [Hin| ->].
      * destruct (He q e Hq5 Hin) as (k & p' & -> & Hk & Hs' & Hq').
        exists k, p'. split; [done|]. split; [|done]. apply Hl. right.
        split; [|done]. intros ->. simplify_eq.
      * exists i, (set_p_queue qn (set_p_state RUNNABLE p)). split; [done|].
        split; [apply Hl; auto|]. split; [done|]. simpl. lia.
    + intros Hin. destruct (He q e Hq5 Hin) as (k & p' & -> & Hk & Hs' & Hq').
      exists k, p'. split; [done|]. split; [|done]. apply Hl. right.
      split; [|done]. intros ->. simplify_eq.
  - intros k p' [[-> ->]|[Hne Hk]]%Hl Hsk.
    + simpl. rewrite Hc, decide_True by (done || lia). set_solver.
    + pose proof (Hr _ _ Hk). rewrite Hc by lia.
      pose proof (Hru _ _ Hk Hsk). case_decide; [set_solver|done].
  - intros q Hq5. rewrite Hc by done. case_decide; [|by apply Hnd].
    apply NoDup_app. split; [by apply Hnd|]. split; [|apply NoDup_singleton].
    intros e Hin. rewrite list_elem_of_singleton. intros ->.
    by apply (not_queued i p q Hi Hs Hq5).
Qed.

(** Taking the head [i] of queue [qn] off and changing it to a state that is
    not RUNNABLE. *)
Lemma dequeue_qinv qn i l f :
  0 <= qn <= 4 -> qcontents t (Z.to_nat qn) = Some i :: l ->
  (forall p, p_state (f p) <> RUNNABLE /\ p_queue (f p) = p_queue p) ->
  qinv (upd i f (dequeued t qn)).
Proof using Hq.
  intros Hqn Hc Hf. pose proof Hq as [Hwf Hr He Hru Hnd].
  assert (forall q, (q < 5)%nat -> qcontents (upd i f (dequeued t qn)) q =
    if decide (q = Z.to_nat qn) then l else qcontents t q) as Hcs.
  { intros q Hq5. rewrite qcontents_upd. by eapply dequeued_contents. }
  destruct (He (Z.to_nat qn) (Some i)) as (? & p & [= <-] & Hi & Hs & Hqi);
    [lia|rewrite Hc; set_solver|].
  pose proof (Hnd (Z.to_nat qn) ltac:(lia)) as Hndq. rewrite Hc in Hndq.
  apply NoDup_cons in Hndq as [Hnin Hndl].
  split.
  - by apply upd_wf, dequeued_wf.
  - intros k p'. rewrite upd_lookup. intros [(<- & p1 & Hp1 & ->)|[_ Hk]].
    + destruct (Hf p1) as [_ ->]. eapply Hr, Hp1.
    + eapply Hr, Hk.
  - intros q e Hq5 Hin. rewrite Hcs in Hin by done.
    assert (e ∈ qcontents t q /\ e <> Some i) as [Hin' Hne].
    { case_decide as Eq; [subst q; rewrite Hc; split; [set_solver|congruence]|].
      split; [done|]. intros ->.
      destruct (He q _ Hq5 Hin) as (? & p1 & [= <-] & Hi1 & _ & Hq1).
      simplify_eq. lia. }
    destruct (He q e Hq5 Hin') as (k & p' & -> & Hk & Hs' & Hq').
    exists k, p'. split; [done|]. split; [|done]. apply upd_lookup.
    right. split; [congruence|done].
  - intros k p'. rewrite upd_lookup. intros [(<- & p1 & Hp1 & ->)|[Hne Hk]] Hsk.
    + by destruct (Hf p1).
    + pose proof (Hr _ _ Hk). rewrite Hcs by lia. simpl in Hk.
      pose proof (Hru _ _ Hk Hsk) as Hin. case_decide as Eq; [|done].
      rewrite Eq, Hc in Hin. apply elem_of_cons in Hin as [|]; [congruence|done].
  - intros q Hq5. rewrite Hcs by done. case_decide; [done|by apply Hnd].
Qed.
End QueueInvariant.

Lemma zero_ptable_wf : ptable_wf zero_ptable.
Proof.
  split; try done; intros q x; unfold zero_ptable; cbn [queue_head queue_tail pt_queue];
    intros [-> _]%lookup_replicate; unfold NPROC; rewrite ?length_replicate; lia.
Qed.

Lemma zero_ptable_qinv : qinv zero_ptable.
Proof.
  assert (forall q, (q < 5)%nat -> qcontents zero_ptable q = []) as Hc.
  { intros q Hq. do 5 (destruct q as [|q]; [done|]). lia. }
  split.
  - apply zero_ptable_wf.
  - intros i p [-> _]%lookup_replicate. done.
  - intros q e Hq. rewrite Hc by done. by rewrite elem_of_nil.
  - intros i p [-> _]%lookup_replicate. done.
  - intros q Hq. rewrite Hc by done. constructor.
Qed.

(** ** [wakeup1] and [kill] *)

(** What [wakeup1 c] does to a process. *)
Definition woken (c : chan) (p : proc) : proc :=
  if bool_decide (p_state p = SLEEPING) && bool_decide (p_chan p = c)
  then set_p_state RUNNABLE p else p.

Lemma set_p_queue_same p : set_p_queue (p_queue p) p = p.
Proof. by destruct p. Qed.

Lemma woken_queue c p : p_queue (woken c p) = p_queue p.
Proof. unfold woken. by destruct (_ && _). Qed.

Lemma woken_woken c p : woken c (woken c p) = woken c p.
Proof.
  unfold woken at 2 3. destruct (_ && _) eqn:E; [done|]. unfold woken. by rewrite E.
Qed.

Lemma make_runnable_lookup i p t j : pt_proc t !! i = Some p ->
  pt_proc (make_runnable (p_queue p) i t) !! j =
  if decide (i = j) then Some (set_p_state RUNNABLE p) else pt_proc t !! j.
Proof.
  intros Hi. unfold make_runnable, enqueued; simpl. case_decide as E.
  - subst j. by rewrite !list_lookup_alter_eq, Hi.
  - by rewrite !list_lookup_alter_ne.
Qed.

Definition queues_in_range (t : ptable) : Prop :=
  forall i p, pt_proc t !! i = Some p -> 0 <= p_queue p <= 4.

Lemma wakeup1_body_run c i t : queues_in_range t ->
  wakeup1_body c i t =
  Done tt (match pt_proc t !! i with
           | Some p => if bool_decide (p_state p = SLEEPING) && bool_decide (p_chan p = c)
                       then make_runnable (p_queue p) i t else t
           | None => t
           end).
Proof.
  intros Hr. unfold wakeup1_body. munf. destruct (pt_proc t !! i) as [p|] eqn:Hi; [|done].
  destruct (_ && _); [|done]. by rewrite enqueue_run by eauto.
Qed.

Lemma wakeup1_body_spec c i t : queues_in_range t ->
  exists t', wakeup1_body c i t = Done tt t' /\
    (forall j, pt_proc t' !! j =
      if decide (i = j) then woken c <$> pt_proc t !! j else pt_proc t !! j) /\
    pt_lock t' = pt_lock t /\ queue_head t' = queue_head t /\
    queues_in_range t' /\
    (qinv t -> spare t' -> qinv t').
Proof.
  intros Hr. eexists. split; [by apply wakeup1_body_run|].
  destruct (pt_proc t !! i) as [p|] eqn:Hi.
  2: { split; [|by auto 6]. intros j. destruct (decide (i = j)); [subst; by rewrite Hi|done]. }
  destruct (bool_decide _ && bool_decide _) eqn:E.
  2: { split; [|by auto 6]. intros j. destruct (decide (i = j)); [subst|done]. rewrite Hi; simpl.
       unfold woken. by rewrite E. }
  assert (forall j, pt_proc (make_runnable (p_queue p) i t) !! j =
    if decide (i = j) then woken c <$> pt_proc t !! j else pt_proc t !! j) as Hl.
  { intros j. rewrite make_runnable_lookup by done. destruct (decide (i = j)); [subst|done].
    rewrite Hi; simpl. unfold woken. by rewrite E. }
  split; [done|]. split; [done|]. split; [done|]. split.
  - intros j p'. rewrite Hl. destruct (decide (i = j)); [|apply Hr].
    destruct (pt_proc t !! j) eqn:Hj; simpl; [|done]. intros [= <-].
    rewrite woken_queue. eapply Hr, Hj.
  - intros Hq (j & pj & Hj & Hsj). apply andb_prop in E as [Es%bool_decide_eq_true _].
    assert (j <> i) as Hne.
    { intros ->. rewrite make_runnable_lookup, decide_True in Hj by done. by simplify_eq. }
    apply make_runnable_qinv with p; [done|eauto|done|congruence|].
    exists j, pj. split; [done|]. split; [|done].
    rewrite make_runnable_lookup, decide_False in Hj by done. done.
Qed.

Lemma wakeup1_list_spec c l t : queues_in_range t ->
  exists t', mfor l (wakeup1_body c) t = Done tt t' /\
    (forall j, pt_proc t' !! j =
      if decide (j ∈ l) then woken c <$> pt_proc t !! j else pt_proc t !! j) /\
    pt_lock t' = pt_lock t /\ queue_head t' = queue_head t /\
    queues_in_range t' /\ (qinv t -> spare t' -> qinv t').
Proof.
  revert t. induction l as [|i l IH]; intros t Hr.
  { exists t. repeat (split; [done|]). done. }
  destruct (wakeup1_body_spec c i t Hr) as (t1 & E1 & L1 & K1 & H1 & R1 & Q1).
  destruct (IH t1 R1) as (t2 & E2 & L2 & K2 & H2 & R2 & Q2).
  exists t2. simpl mfor. rewrite (bind_Done _ _ _ _ _ E1). split; [done|].
  split; [|split; [congruence|split; [congruence|split; [done|]]]].
  - intros j. rewrite L2, !L1.
    destruct (decide (j ∈ l)) as [Hl|Hl], (decide (i = j)) as [Hij|Hij],
      (decide (j ∈ i :: l)) as [Hin|Hin]; rewrite elem_of_cons in Hin; try done;
      try (exfalso; intuition congruence).
    destruct (pt_proc t !! j); simpl; [|done]. by rewrite woken_woken.
  - intros Hq Hsp. apply Q2; [|done]. apply Q1; [done|].
    destruct Hsp as (j & p & Hj & Hs). rewrite L2 in Hj.
    destruct (pt_proc t1 !! j) as [p1|] eqn:Hj1; [|by case_decide].
    exists j, p1. split; [done|]. intros Hr1. case_decide; simpl in Hj; simplify_eq.
    unfold woken in Hs. rewrite Hr1 in Hs. by simpl in Hs.
Qed.

Lemma wakeup1_run c t : queues_in_range t -> length (pt_proc t) = NPROC ->
  exists t', wakeup1 c t = Done tt t' /\
    pt_proc t' = woken c <$> pt_proc t /\
    pt_lock t' = pt_lock t /\ queue_head t' = queue_head t /\
    queues_in_range t' /\ (qinv t -> spare t' -> qinv t').
Proof.
  intros Hr Hlen.
  destruct (wakeup1_list_spec c (seq 0 NPROC) t Hr) as (t' & E & L & K & H & R & Q).
  exists t'. split; [done|]. split; [|done]. apply list_eq. intros j.
  rewrite L, list_lookup_fmap. case_decide as Hin; [done|].
  rewrite elem_of_seq in Hin. rewrite lookup_ge_None_2 by lia. done.
Qed.

(** [kill_scan]: the first entry with the pid, if any. *)
Definition killed (p : proc) : proc :=
  if bool_decide (p_state p = SLEEPING)
  then set_p_state RUNNABLE (set_p_killed 1 p) else set_p_killed 1 p.

Lemma kill_scan_run pid l t : queues_in_range t ->
  (forall i, i ∈ l -> is_Some (pt_proc t !! i)) ->
  let hit := list_find (fun i => p_pid <$> pt_proc t !! i = Some pid) l in
  exists t', kill_scan pid l t = Done (bool_decide (is_Some hit)) t' /\
    (forall j, pt_proc t' !! j =
      match hit with
      | Some (_, i) => if decide (i = j) then killed <$> pt_proc t !! j else pt_proc t !! j
      | None => pt_proc t !! j
      end) /\
    pt_lock t' = pt_lock t /\ (qinv t -> spare t' -> qinv t').
Proof.
  intros Hr. induction l as [|i l IH]; intros Hl; simpl.
  { exists t. done. }
  destruct (Hl i) as [p Hi]; [set_solver|]. munf. rewrite Hi; simpl.
  destruct (Z.eqb_spec (p_pid p) pid) as [Hp|Hp].
  - rewrite decide_True by by rewrite <- Hp.
    unfold killed. case_bool_decide as Hs; simpl.
    + rewrite enqueue_run by eauto. eexists. split; [done|].
      assert (forall j, pt_proc (make_runnable (p_queue p) i (upd i (set_p_killed 1) t)) !! j =
        if decide (i = j) then killed <$> pt_proc t !! j else pt_proc t !! j) as Hlk.
      { intros j. assert (pt_proc (upd i (set_p_killed 1) t) !! i = Some (set_p_killed 1 p)).
        { simpl. by rewrite list_lookup_alter_eq, Hi. }
        rewrite (make_runnable_lookup i (set_p_killed 1 p)) by done.
        destruct (decide (i = j)); [subst j; rewrite Hi; simpl; unfold killed;
          by rewrite bool_decide_eq_true_2|].
        simpl. by rewrite list_lookup_alter_ne. }
      split; [|split; [done|]].
      * intros j. unfold make_runnable in Hlk. rewrite Hlk. destruct (decide (i = j)); [|done].
        unfold killed. done.
      * intros Hq (j & pj & Hj & Hsj).
        pose proof Hj as Hj'. unfold make_runnable in Hlk. rewrite Hlk in Hj'.
        assert (j <> i) as Hne.
        { intros ->. rewrite decide_True, Hi in Hj' by done. simpl in Hj'. simplify_eq.
          unfold killed in Hsj. by rewrite bool_decide_eq_true_2 in Hsj. }
        rewrite decide_False in Hj' by done.
        apply (make_runnable_qinv (upd i (set_p_killed 1) t)) with (set_p_killed 1 p).
        -- apply upd_qinv; [done|]. intros p0 Hp0. simplify_eq.
           split; [done|]. split; [exact (Hr _ _ Hi)|done].
        -- exact (Hr _ _ Hi).
        -- simpl. by rewrite list_lookup_alter_eq, Hi.
        -- simpl. congruence.
        -- exists j, pj. split; [done|]. split; [|done]. simpl.
           by rewrite list_lookup_alter_ne.
    + eexists. split; [done|]. split; [|split; [done|]].
      * intros j. simpl. rewrite list_lookup_alter. destruct (decide (i = j)); [subst|done].
        rewrite Hi; simpl. unfold killed. by rewrite bool_decide_eq_false_2.
      * intros Hq _. apply upd_qinv; [done|]. intros p0 Hp0. simplify_eq.
        split; [done|]. split; [exact (Hr _ _ Hi)|done].
  - rewrite decide_False by congruence.
    destruct IH as (t' & E & L & K & Q); [set_solver|].
    exists t'. rewrite E. by destruct (list_find _ l) as [[? ?]|].
Qed.

(** ** [reparent] *)

Section Reparent.
Variables (cur : nat) (init : option nat).

(** Passing a child of [cur] to [init]. *)
Definition adopt (p : proc) : proc :=
  if bool_decide (p_parent p = Some cur) then set_p_parent init p else p.

Definition zombie_child (p : proc) : bool :=
  bool_decide (p_parent p = Some cur) && bool_decide (p_state p = ZOMBIE).

Definition wake_init (b : bool) (p : proc) : proc :=
  if b then woken (proc_chan init) p else p.

Definition zombie_at (t : ptable) (i : nat) : bool :=
  default false (zombie_child <$> pt_proc t !! i).

Lemma wake_init_wake_init b b' p :
  wake_init b (wake_init b' p) = wake_init (b || b') p.
Proof using. destruct b, b'; simpl; try done. apply woken_woken. Qed.

Lemma adopt_wake_init b p : adopt (wake_init b p) = wake_init b (adopt p).
Proof using.
  destruct b; [|done]. unfold wake_init, adopt, woken; destruct p; simpl.
  destruct (bool_decide (p_state = SLEEPING)) eqn:E1,
    (bool_decide (p_chan = proc_chan init)) eqn:E2,
    (bool_decide (p_parent = Some cur)) eqn:E3; simpl; by rewrite ?E1, ?E2, ?E3.
Qed.

Lemma zombie_child_wake_init b p : zombie_child (wake_init b p) = zombie_child p.
Proof using.
  destruct b; [|done]. unfold wake_init, woken, zombie_child. destruct p; simpl.
  destruct p_state; simpl; try done. by destruct (bool_decide (p_chan = proc_chan init)).
Qed.

(** The state of the table after some of its entries were visited. *)
Record adopted (visited : nat -> bool) (b : bool) (t t' : ptable) : Prop := {
  ad_lookup : forall j, pt_proc t' !! j =
    (fun p => wake_init b (if visited j then adopt p else p)) <$> pt_proc t !! j;
  ad_lock : pt_lock t' = pt_lock t;
  ad_range : queues_in_range t -> queues_in_range t';
  ad_qinv : qinv t -> spare t' -> qinv t' }.

Lemma adopt_qinv t i p : qinv t -> pt_proc t !! i = Some p ->
  qinv (upd i (set_p_parent init) t).
Proof using.
  intros Hq Hp. apply upd_qinv; [done|]. intros q Hl. split; [done|].
  split; [exact (qi_range _ Hq _ _ Hl)|done].
Qed.

Lemma reparent_body_spec i t : queues_in_range t -> length (pt_proc t) = NPROC ->
  exists t', reparent_body cur init i t = Done tt t' /\
    adopted (fun j => bool_decide (i = j)) (zombie_at t i) t t'.
Proof using.
  intros Hr Hlen. unfold reparent_body. munf. unfold zombie_at.
  destruct (pt_proc t !! i) as [p|] eqn:Hi.
  2: { exists t. split; [done|]. split; try done. intros j. simpl.
       destruct (bool_decide (i = j)) eqn:Hij; [apply bool_decide_eq_true in Hij as <-|].
       - by rewrite Hi.
       - by destruct (pt_proc t !! j). }
  assert (forall j, pt_proc (upd i (set_p_parent init) t) !! j =
    (fun q => if bool_decide (i = j) then set_p_parent init q else q) <$> pt_proc t !! j) as Hl.
  { intros j. simpl. case_bool_decide as E.
    - subst j. by rewrite list_lookup_alter_eq.
    - rewrite list_lookup_alter_ne by done. by destruct (pt_proc t !! j). }
  assert (queues_in_range (upd i (set_p_parent init) t)) as Hr1.
  { intros j q. rewrite upd_lookup. intros [(<- & q0 & Hq0 & ->)|[_ Hj]].
    - exact (Hr _ _ Hq0).
    - exact (Hr _ _ Hj). }
  simpl. unfold zombie_child. case_bool_decide as Hpar; simpl.
  2: { exists t. split; [done|]. split; try done. intros j.
       destruct (bool_decide (i = j)) eqn:Hij; [apply bool_decide_eq_true in Hij as <-|].
       - rewrite Hi. simpl. unfold adopt. by rewrite bool_decide_eq_false_2.
       - by destruct (pt_proc t !! j). }
  assert (forall j q, pt_proc t !! j = Some q ->
    (if bool_decide (i = j) then set_p_parent init q else q) =
    (if bool_decide (i = j) then adopt q else q)) as Had.
  { intros j q Hj. case_bool_decide as E; [|done]. subst j. assert (q = p) as -> by congruence.
    unfold adopt. by rewrite bool_decide_eq_true_2. }
  case_bool_decide as Hz; simpl.
  - destruct (wakeup1_run (proc_chan init) _ Hr1) as (t' & E & L & K & _ & R & Q);
      [simpl; by rewrite length_alter|].
    exists t'. split; [done|]. split; [|done|done|].
    + intros j. rewrite L, list_lookup_fmap, Hl.
      destruct (pt_proc t !! j) as [q|] eqn:Hj; simpl; [|done]. by rewrite (Had j q Hj).
    + intros Hq. apply Q. by apply adopt_qinv with p.
  - eexists. split; [done|]. split; [|done|done|].
    + intros j. rewrite Hl. destruct (pt_proc t !! j) as [q|] eqn:Hj; simpl; [|done].
      by rewrite (Had j q Hj).
    + intros Hq _. by apply adopt_qinv with p.
Qed.

Lemma adopted_zombie_at v b t t' i : adopted v b t t' -> v i = false ->
  zombie_at t' i = zombie_at t i.
Proof using.
  intros [L _ _ _] Hv. unfold zombie_at. rewrite L, Hv.
  destruct (pt_proc t !! i); simpl; [|done]. apply zombie_child_wake_init.
Qed.

Lemma adopted_spare v b t t' : adopted v b t t' -> spare t' -> spare t.
Proof using.
  intros [L _ _ _] (j & q & Hj & Hs). rewrite L in Hj.
  destruct (pt_proc t !! j) as [p|] eqn:E; simplify_eq/=. exists j, p. split; [done|].
  intros Hr. apply Hs. destruct b, (v j); unfold wake_init, woken, adopt; simpl;
    repeat case_bool_decide; simpl in *; congruence.
Qed.

Lemma adopted_trans v1 v2 b1 b2 t1 t2 t3 :
  adopted v1 b1 t1 t2 -> adopted v2 b2 t2 t3 ->
  (forall j, v1 j = true -> v2 j = false) ->
  adopted (fun j => v1 j || v2 j) (b1 || b2) t1 t3.
Proof using.
  intros A1 A2 Hd. pose proof (adopted_spare _ _ _ _ A2) as Hsp.
  destruct A1 as [L1 K1 R1 Q1], A2 as [L2 K2 R2 Q2].
  split; [|congruence|auto|auto].
  intros j. rewrite L2, L1. destruct (pt_proc t1 !! j) as [p|]; simpl; [|done]. f_equal.
  specialize (Hd j). destruct (v1 j), (v2 j); simpl;
    rewrite ?adopt_wake_init, wake_init_wake_init, orb_comm; try done.
  by specialize (Hd eq_refl).
Qed.

Lemma reparent_list_spec l : forall t, queues_in_range t -> length (pt_proc t) = NPROC ->
  NoDup l ->
  exists t', mfor l (reparent_body cur init) t = Done tt t' /\
    adopted (fun j => bool_decide (j ∈ l)) (existsb (zombie_at t) l) t t'.
Proof using.
  induction l as [|i l IH]; intros t Hr Hlen Hnd.
  { exists t. split; [done|]. split; try done. intros j. simpl. by destruct (pt_proc t !! j). }
  apply NoDup_cons in Hnd as [Hni Hnd].
  destruct (reparent_body_spec i t Hr Hlen) as (t1 & E1 & A1).
  assert (length (pt_proc t1) = NPROC) as Hlen1.
  { rewrite <- Hlen. apply length_same_dom. intros j. rewrite (ad_lookup _ _ _ _ A1).
    by destruct (pt_proc t !! j). }
  destruct (IH t1 (ad_range _ _ _ _ A1 Hr) Hlen1 Hnd) as (t2 & E2 & A2).
  exists t2. simpl mfor. rewrite (bind_Done _ _ _ _ _ E1). split; [done|].
  assert (existsb (zombie_at t1) l = existsb (zombie_at t) l) as Hex.
  { apply existsb_ext_in. intros j Hj. apply (adopted_zombie_at _ _ _ _ _ A1).
    apply bool_decide_eq_false. intros ->. by apply Hni, list_elem_of_In. }
  rewrite Hex in A2. pose proof (adopted_trans _ _ _ _ _ _ _ A1 A2) as A.
  destruct A as [L K R Q].
  { intros j Hj%bool_decide_eq_true. subst j. by apply bool_decide_eq_false. }
  split; try done. intros j. rewrite L. destruct (pt_proc t !! j); simpl; [|done]. do 3 f_equal.
  assert (bool_decide (i = j) || bool_decide (j ∈ l) = bool_decide (j ∈ i :: l)) as ->; [|done].
  rewrite <- bool_decide_or. apply bool_decide_ext. rewrite elem_of_cons. naive_solver.
Qed.

(** All children of [cur] get [init] as parent, and [init] is woken if one of
    them is a ZOMBIE. *)
Lemma reparent_run t : queues_in_range t -> length (pt_proc t) = NPROC ->
  exists t', reparent cur init t = Done tt t' /\
    adopted (fun _ => true) (existsb zombie_child (pt_proc t)) t t'.
Proof using.
  intros Hr Hlen. destruct (reparent_list_spec (seq 0 NPROC) t Hr Hlen) as (t' & E & [L K R Q]).
  { apply NoDup_seq. }
  exists t'. split; [done|].
  assert (existsb (zombie_at t) (seq 0 NPROC) = existsb zombie_child (pt_proc t)) as Hex.
  { rewrite <- Hlen. unfold zombie_at. generalize (pt_proc t). intros l.
    apply eq_true_iff_eq. rewrite !existsb_exists. split.
    - intros (i & Hi & Hz). destruct (l !! i) as [p|] eqn:El; simpl in Hz; [|done].
      exists p. split; [|done]. apply list_elem_of_In. by eapply list_elem_of_lookup_2.
    - intros (p & Hp & Hz). apply list_elem_of_In, list_elem_of_lookup_1 in Hp as [i Hi].
      exists i. rewrite Hi. split; [|done]. apply in_seq.
      apply lookup_lt_Some in Hi. lia. }
  rewrite Hex in *. split; try done. intros j. rewrite L.
  destruct (pt_proc t !! j) eqn:Hj; [|done]. apply lookup_lt_Some in Hj.
  rewrite bool_decide_eq_true_2; [done|]. apply elem_of_seq. lia.
Qed.
End Reparent.
