(* ===== verification/Proc.v ===== *)
(** * Processes: the system-call side of proc.c, and [switchuvm]/[switchkvm] of vm.c

    Every routine runs on one processor ([me]) over [pstate]: that processor's
    [struct cpu], the process table with its lock, and the globals of proc.c.
    Memory, files and the file system are reached through the interface
    [KernelEnv]. A routine that calls [sched] is split at the context switch:
    [*_enter] runs up to [swtch], [*_resume] is what runs when the scheduler
    switches back. *)

From stdpp Require Import base tactics numbers list strings.
From Stdlib Require Import ZArith Lia ZifyNat.
From S2P Require Import Prelude Layout Spinlock CString PTable.

(** What proc.c calls in the rest of the kernel: kalloc.c, vm.c, file.c, fs.c and
    log.c. *)
Class KernelEnv (E : Type) := {
  kalloc : M E Z;
  kfree : Z -> M E unit;
  setupkvm : M E Z;
  inituvm : Z -> M E unit;
  allocuvm : Z -> Z -> Z -> M E Z;
  deallocuvm : Z -> Z -> Z -> M E Z;
  copyuvm : Z -> Z -> M E Z;
  freevm : Z -> M E unit;
  filedup : Z -> M E Z;
  fileclose : Z -> M E unit;
  idup : Z -> M E Z;
  iput : Z -> M E unit;
  namei_root : M E Z;
  begin_op : M E unit;
  end_op : M E unit;
  iinit : Z -> M E unit;
  initlog : Z -> M E unit }.

(** The processor registers and the task-state fields that [switchuvm] and
    [switchkvm] load. *)
Record hw := Hw {
  cr3 : Z;
  gdt_tss : segdesc;
  ts_ss0 : Z;
  ts_esp0 : Z;
  ts_iomb : Z;
  tr : Z }.

Definition set_cr3 (v : Z) (r : hw) : hw :=
    Hw v (gdt_tss r) (ts_ss0 r) (ts_esp0 r) (ts_iomb r) (tr r).
Definition set_gdt_tss (v : segdesc) (r : hw) : hw :=
    Hw (cr3 r) v (ts_ss0 r) (ts_esp0 r) (ts_iomb r) (tr r).
Definition set_ts_ss0 (v : Z) (r : hw) : hw :=
    Hw (cr3 r) (gdt_tss r) v (ts_esp0 r) (ts_iomb r) (tr r).
Definition set_ts_esp0 (v : Z) (r : hw) : hw :=
    Hw (cr3 r) (gdt_tss r) (ts_ss0 r) v (ts_iomb r) (tr r).
Definition set_ts_iomb (v : Z) (r : hw) : hw :=
    Hw (cr3 r) (gdt_tss r) (ts_ss0 r) (ts_esp0 r) v (tr r).
Definition set_tr (v : Z) (r : hw) : hw :=
    Hw (cr3 r) (gdt_tss r) (ts_ss0 r) (ts_esp0 r) (ts_iomb r) v.

Record pstate (E : Type) := PState {
  ps_cpu : cpu;
  ps_hw : hw;
  ps_table : ptable;
  ps_initproc : option nat;
  ps_nextpid : Z;
  ps_flag : Z;
  ps_first : Z;
  ps_ticks : Z;
  ps_kpgdir : Z;
  ps_env : E }.
Arguments ps_cpu {E} _.
Arguments ps_hw {E} _.
Arguments ps_table {E} _.
Arguments ps_initproc {E} _.
Arguments ps_nextpid {E} _.
Arguments ps_flag {E} _.
Arguments ps_first {E} _.
Arguments ps_ticks {E} _.
Arguments ps_kpgdir {E} _.
Arguments ps_env {E} _.
Arguments PState {E} _ _ _ _ _ _ _ _ _ _.
Definition set_ps_cpu {E} (v : cpu) (s : pstate E) : pstate E :=
    PState v (ps_hw s) (ps_table s) (ps_initproc s) (ps_nextpid s) (ps_flag s)
    (ps_first s) (ps_ticks s) (ps_kpgdir s) (ps_env s).
Definition set_ps_hw {E} (v : hw) (s : pstate E) : pstate E :=
    PState (ps_cpu s) v (ps_table s) (ps_initproc s) (ps_nextpid s) (ps_flag
    s) (ps_first s) (ps_ticks s) (ps_kpgdir s) (ps_env s).
Definition set_ps_table {E} (v : ptable) (s : pstate E) : pstate E :=
    PState (ps_cpu s) (ps_hw s) v (ps_initproc s) (ps_nextpid s) (ps_flag s)
    (ps_first s) (ps_ticks s) (ps_kpgdir s) (ps_env s).
Definition set_ps_initproc {E} (v : option nat) (s : pstate E) : pstate E :=
    PState (ps_cpu s) (ps_hw s) (ps_table s) v (ps_nextpid s) (ps_flag s)
    (ps_first s) (ps_ticks s) (ps_kpgdir s) (ps_env s).
Definition set_ps_nextpid {E} (v : Z) (s : pstate E) : pstate E :=
    PState (ps_cpu s) (ps_hw s) (ps_table s) (ps_initproc s) v (ps_flag s)
    (ps_first s) (ps_ticks s) (ps_kpgdir s) (ps_env s).
Definition set_ps_flag {E} (v : Z) (s : pstate E) : pstate E :=
    PState (ps_cpu s) (ps_hw s) (ps_table s) (ps_initproc s) (ps_nextpid s) v
    (ps_first s) (ps_ticks s) (ps_kpgdir s) (ps_env s).
Definition set_ps_first {E} (v : Z) (s : pstate E) : pstate E :=
    PState (ps_cpu s) (ps_hw s) (ps_table s) (ps_initproc s) (ps_nextpid s)
    (ps_flag s) v (ps_ticks s) (ps_kpgdir s) (ps_env s).
Definition set_ps_ticks {E} (v : Z) (s : pstate E) : pstate E :=
    PState (ps_cpu s) (ps_hw s) (ps_table s) (ps_initproc s) (ps_nextpid s)
    (ps_flag s) (ps_first s) v (ps_kpgdir s) (ps_env s).
Definition set_ps_kpgdir {E} (v : Z) (s : pstate E) : pstate E :=
    PState (ps_cpu s) (ps_hw s) (ps_table s) (ps_initproc s) (ps_nextpid s)
    (ps_flag s) (ps_first s) (ps_ticks s) v (ps_env s).
Definition set_ps_env {E} (v : E) (s : pstate E) : pstate E :=
    PState (ps_cpu s) (ps_hw s) (ps_table s) (ps_initproc s) (ps_nextpid s)
    (ps_flag s) (ps_first s) (ps_ticks s) (ps_kpgdir s) v.

(** The lock argument of [sleep]: null, [&ptable.lock], or a lock of another
    component. *)
Inductive sleep_lock (E : Type) :=
  | LkNull
  | LkPtable
  | LkOther (l : lens E spinlock).
Arguments LkNull {E}.
Arguments LkPtable {E}.
Arguments LkOther {E} l.

(** userdata.h [struct proc_stat]. *)
Record proc_stat := ProcStat {
  s_pid : Z; s_runtime : Z; s_num_run : Z; s_current_queue : Z; s_ticks : list Z }.

(** The result of one scan of the table by [wait]: a reaped child, or whether the
    caller has children at all. *)
Inductive scan_result :=
  | Reaped (pid : Z)
  | NoZombie (havekids : bool).
(** The same for [waitx], with the values stored through its two pointers. *)
Inductive scanx_result :=
  | ReapedX (pid wtime rtime : Z)
  | NoZombieX (havekids : bool).

Definition TRAPFRAME_SIZE : Z := 76.
Definition CONTEXT_SIZE : Z := 20.

Section Proc.
Context {E : Type} {HE : KernelEnv E}.
(** The executing processor; what [getcallerpcs] records; the addresses of
    [trapret] (trapasm.S) and [forkret]; the size of the initcode binary; and
    the address of this processor's task-state segment. *)
Variable me : nat.
Variable callers : list Z.
Variables trapret forkret_addr initcode_size tss_addr : Z.

Abbreviation PS := (pstate E).

Definition env {A} (m : M E A) : M PS A :=
  zoom (Lens ps_env set_ps_env) m.
Definition table {A} (m : M ptable A) : M PS A :=
  zoom (Lens ps_table set_ps_table) m.
Definition oncpu {A} (m : M cpu A) : M PS A :=
  zoom (Lens ps_cpu set_ps_cpu) m.
Definition setp (i : nat) (f : proc -> proc) : M PS unit :=
  modify (fun s => set_ps_table (upd i f (ps_table s)) s).
Definition getp (i : nat) : M PS (option proc) :=
  gets (fun s => pt_proc (ps_table s) !! i).

Definition ptlock : lens PS lkst :=
  Lens (fun s => Lkst (ps_cpu s) (pt_lock (ps_table s)))
       (fun l s => set_ps_table (set_pt_lock (llock l) (ps_table s))
                     (set_ps_cpu (lcpu l) s)).
Definition otherlock (k : lens E spinlock) : lens PS lkst :=
  Lens (fun s => Lkst (ps_cpu s) (lget k (ps_env s)))
       (fun l s => set_ps_env (lset k (llock l) (ps_env s))
                     (set_ps_cpu (lcpu l) s)).
Definition acquire_pt : M PS unit := zoom ptlock (acquire me callers).
Definition release_pt : M PS unit := zoom ptlock (release me).

Definition pinit : M PS unit :=
  modify (fun s => set_ps_table
    (set_pt_lock (initlock "ptable" (pt_lock (ps_table s))) (ps_table s)) s).

Definition myproc : M PS (option nat) :=
  oncpu (pushcli me) ;;;
  oncpu (mycpu me) ;;;
  let! c := gets ps_cpu in
  oncpu (popcli me) ;;;
  m_ret (cpu_proc c).

(** Using a null [curproc] faults in the kernel, which [trap] turns into a
    panic. *)
Definition curproc : M PS (nat * proc) :=
  let! p := myproc in
  match p with
  | None => panic "trap"
  | Some i =>
      let! q := getp i in
      match q with None => panic "trap" | Some q => m_ret (i, q) end
  end.

(** The statements of [allocproc] after the lock is released, up to the stack. *)
Definition init_times (tk : Z) (p : proc) : proc :=
  set_p_ticks (replicate 5 0)
    (set_p_num_run 0 (set_p_last_executed 0 (set_p_wtime 0 (set_p_rtime 0
      (set_p_retime (s32 tk) (set_p_etime (s32 tk) (set_p_ctime (s32 tk) p))))))).

(** The stack layout of [allocproc]: trap frame, return address, context. *)
Definition init_stack (k : Z) (p : proc) : proc :=
  let sp := u32 (k + KSTACKSIZE) in
  let sp := u32 (sp - TRAPFRAME_SIZE) in
  let p := set_p_tf sp p in
  let sp := u32 (sp - 4) in
  let p := set_p_kstk (Kstk (ks_tf (p_kstk p)) trapret (ks_ctx (p_kstk p))) p in
  let sp := u32 (sp - CONTEXT_SIZE) in
  let p := set_p_context sp p in
  set_p_kstk (Kstk (ks_tf (p_kstk p)) (ks_ret (p_kstk p))
                (set_ctx_eip forkret_addr (Context 0 0 0 0 0))) p.

Definition allocproc : M PS (option nat) :=
  acquire_pt ;;;
  let! t := gets ps_table in
  match find_idx (fun p => bool_decide (p_state p = UNUSED)) 0 (pt_proc t) with
  | None => release_pt ;;; m_ret None
  | Some p =>
      setp p (set_p_state EMBRYO) ;;;
      let! n := gets ps_nextpid in
      modify (set_ps_nextpid (s32 (n + 1))) ;;;
      setp p (set_p_pid n) ;;;
      setp p (set_p_priority 60) ;;;
      setp p (set_p_queue 0) ;;;
      release_pt ;;;
      let! tk := gets ps_ticks in
      setp p (init_times tk) ;;;
      let! k := env kalloc in
      setp p (set_p_kstack k) ;;;
      if k =? 0 then setp p (set_p_state UNUSED) ;;; m_ret None
      else setp p (init_stack k) ;;; m_ret (Some p)
  end.

Definition switchkvm : M PS unit :=
  modify (fun s => set_ps_hw (set_cr3 (V2P (ps_kpgdir s)) (ps_hw s)) s).

Definition switchuvm (p : option nat) : M PS unit :=
  match p with
  | None => panic "switchuvm: no process"
  | Some i =>
      let! q := getp i in
      match q with
      | None => panic "trap"
      | Some q =>
          if p_kstack q =? 0 then panic "switchuvm: no kstack"
          else if p_pgdir q =? 0 then panic "switchuvm: no pgdir"
          else
            oncpu (pushcli me) ;;;
            oncpu (mycpu me) ;;;
            modify (fun s =>
              let d := SEG16 STS_T32A tss_addr (104 - 1) 0 in
              let d := Segdesc (sd_lim_15_0 d) (sd_base_15_0 d) (sd_base_23_16 d)
                (sd_type d) 0 (sd_dpl d) (sd_p d) (sd_lim_19_16 d) (sd_avl d)
                (sd_rsv1 d) (sd_db d) (sd_g d) (sd_base_31_24 d) in
              set_ps_hw
                (set_cr3 (V2P (p_pgdir q)) (set_tr (Z.shiftl SEG_TSS 3)
                  (set_ts_iomb 0xFFFF (set_ts_esp0 (u32 (p_kstack q + KSTACKSIZE))
                    (set_ts_ss0 (Z.shiftl SEG_KDATA 3) (set_gdt_tss d (ps_hw s))))))) s) ;;;
            oncpu (popcli me)
      end
  end.

Definition userinit : M PS unit :=
  let! p := allocproc in
  modify (set_ps_initproc p) ;;;
  match p with
  | None => panic "trap"
  | Some i =>
      let! d := env setupkvm in
      setp i (set_p_pgdir d) ;;;
      if d =? 0 then panic "userinit: out of memory?"
      else
        env (inituvm d) ;;;
        setp i (set_p_sz PGSIZE) ;;;
        setp i (fun q =>
          let tf := Trapframe 0 0 0 0 0 0 0 0 0 0 0 0 0 0 0 0 0 0 0 in
          let tf := set_tf_cs (Z.lor (Z.shiftl SEG_UCODE 3) DPL_USER) tf in
          let tf := set_tf_ds (Z.lor (Z.shiftl SEG_UDATA 3) DPL_USER) tf in
          let tf := set_tf_es (tf_ds tf) tf in
          let tf := set_tf_ss (tf_ds tf) tf in
          let tf := set_tf_eflags FL_IF tf in
          let tf := set_tf_esp PGSIZE tf in
          let tf := set_tf_eip 0 tf in
          set_p_kstk (Kstk tf (ks_ret (p_kstk q)) (ks_ctx (p_kstk q))) q) ;;;
        setp i (fun q => set_p_name
          (safestrcpy_buf (p_name q) [105; 110; 105; 116; 99; 111; 100; 101; 0] 16) q) ;;;
        let! r := env namei_root in
        setp i (set_p_cwd r) ;;;
        acquire_pt ;;;
        setp i (set_p_state RUNNABLE) ;;;
        setp i (set_p_modtime 0) ;;;
        table (enqueue 0 i) ;;;
        release_pt
  end.

Definition growproc (n : Z) : M PS Z :=
  let! c := curproc in
  let '(i, q) := c in
  let sz := p_sz q in
  let! r :=
    (if 0 <? n then env (allocuvm (p_pgdir q) sz (u32 (sz + n)))
     else if n <? 0 then env (deallocuvm (p_pgdir q) sz (u32 (sz + n)))
     else m_ret sz) in
  if negb (n =? 0) && (r =? 0) then m_ret (-1)
  else
    setp i (set_p_sz (u32 r)) ;;;
    switchuvm (Some i) ;;;
    m_ret 0.

(** The loop of [fork] over the parent's open files. *)
Fixpoint dup_files (np : nat) (i : nat) (files : list Z) : M PS unit :=
  match files with
  | [] => m_ret tt
  | f :: files =>
      when (negb (f =? 0))
        (let! g := env (filedup f) in
         setp np (fun q => set_p_ofile (<[i := g]> (p_ofile q)) q)) ;;;
      dup_files np (S i) files
  end.

Definition fork : M PS Z :=
  let! c := curproc in
  let '(cur, q) := c in
  let! np := allocproc in
  match np with
  | None => m_ret (-1)
  | Some np =>
      let! d := env (copyuvm (p_pgdir q) (p_sz q)) in
      setp np (set_p_pgdir d) ;;;
      let! child := getp np in
      if d =? 0 then
        env (kfree (default 0 (p_kstack <$> child))) ;;;
        setp np (set_p_kstack 0) ;;;
        setp np (set_p_state UNUSED) ;;;
        m_ret (-1)
      else
        setp np (set_p_sz (p_sz q)) ;;;
        setp np (set_p_parent (Some cur)) ;;;
        setp np (fun r => set_p_kstk
          (Kstk (set_tf_eax 0 (ks_tf (p_kstk q))) (ks_ret (p_kstk r))
             (ks_ctx (p_kstk r))) r) ;;;
        dup_files np 0 (p_ofile q) ;;;
        let! w := env (idup (p_cwd q)) in
        setp np (set_p_cwd w) ;;;
        setp np (fun r => set_p_name (safestrcpy_buf (p_name r) (p_name q) 16) r) ;;;
        let! child := getp np in
        let pid := default 0 (p_pid <$> child) in
        acquire_pt ;;;
        setp np (set_p_state RUNNABLE) ;;;
        setp np (set_p_modtime 0) ;;;
        table (enqueue 0 np) ;;;
        release_pt ;;;
        m_ret pid
  end.

(** [sched] up to the context switch; the result is the saved [intena]. *)
Definition sched : M PS Z :=
  let! c := curproc in
  let '(i, p) := c in
  let! h := zoom ptlock (holding me) in
  if negb h then panic "sched ptable.lock"
  else
    let! cp := gets ps_cpu in
    if negb (ncli cp =? 1) then panic "sched locks"
    else if bool_decide (p_state p = RUNNING) then panic "sched running"
    else if negb (Z.land (readeflags cp) FL_IF =? 0) then panic "sched interruptible"
    else m_ret (intena cp).

(** [sched] after the scheduler has switched back to this thread. *)
Definition sched_resume (intena : Z) : M PS unit :=
  oncpu (modify (set_intena intena)).

Definition yield_enter : M PS Z :=
  acquire_pt ;;;
  let! c := curproc in
  setp (fst c) (set_p_state RUNNABLE) ;;;
  sched.
Definition yield_resume (intena : Z) : M PS unit :=
  sched_resume intena ;;;
  release_pt.

Definition forkret : M PS unit :=
  release_pt ;;;
  let! f := gets ps_first in
  when (negb (f =? 0))
    (modify (set_ps_first 0) ;;; env (iinit ROOTDEV) ;;; env (initlog ROOTDEV)).

Definition sleep_enter (c : chan) (lk : sleep_lock E) : M PS Z :=
  let! p := myproc in
  match p with
  | None => panic "sleep"
  | Some i =>
      match lk with
      | LkNull => panic "sleep without lk"
      | _ =>
          match lk with
          | LkOther k => acquire_pt ;;; zoom (otherlock k) (release me)
          | _ => m_ret tt
          end ;;;
          setp i (set_p_chan c) ;;;
          setp i (set_p_state SLEEPING) ;;;
          sched
      end
  end.
Definition sleep_resume (i : nat) (lk : sleep_lock E) (intena : Z) : M PS unit :=
  sched_resume intena ;;;
  setp i (set_p_chan ChNull) ;;;
  match lk with
  | LkOther k => release_pt ;;; zoom (otherlock k) (acquire me callers)
  | _ => m_ret tt
  end.

Definition wakeup (c : chan) : M PS unit :=
  acquire_pt ;;;
  table (wakeup1 c) ;;;
  release_pt.

(** The loop of [exit] over the open files. *)
Fixpoint close_files (cur : nat) (i : nat) (files : list Z) : M PS unit :=
  match files with
  | [] => m_ret tt
  | f :: files =>
      when (negb (f =? 0))
        (env (fileclose f) ;;;
         setp cur (fun q => set_p_ofile (<[i := 0]> (p_ofile q)) q)) ;;;
      close_files cur (S i) files
  end.

(** [exit] up to the final switch to the scheduler, from which it never comes
    back. *)
Definition exit : M PS Z :=
  let! c := curproc in
  let '(cur, q) := c in
  let! init := gets ps_initproc in
  if bool_decide (init = Some cur) then panic "init exiting"
  else
    close_files cur 0 (p_ofile q) ;;;
    let! tk := gets ps_ticks in
    setp cur (set_p_etime (s32 tk)) ;;;
    env begin_op ;;;
    env (iput (p_cwd q)) ;;;
    env end_op ;;;
    setp cur (set_p_cwd 0) ;;;
    acquire_pt ;;;
    let! q := getp cur in
    table (wakeup1 (proc_chan (q ≫= p_parent))) ;;;
    table (reparent cur init) ;;;
    setp cur (set_p_state ZOMBIE) ;;;
    sched.

Definition getpinfo : M PS (Z * option proc_stat) :=
  let! p := myproc in
  match p with
  | Some i =>
      let! q := getp i in
      m_ret (1, (fun q => ProcStat (p_pid q) (p_rtime q) (p_num_run q) (p_queue q)
                            (take 5 (p_ticks q))) <$> q)
  | None => m_ret (0, None)
  end.

(** Freeing a reaped child in [wait]. *)
Definition reap (i : nat) (p : proc) : M PS unit :=
  env (kfree (p_kstack p)) ;;;
  setp i (set_p_kstack 0) ;;;
  env (freevm (p_pgdir p)) ;;;
  setp i (set_p_pid 0) ;;;
  setp i (set_p_parent None) ;;;
  setp i (fun q => set_p_name (<[0%nat := 0]> (p_name q)) q) ;;;
  setp i (set_p_killed 0) ;;;
  setp i (set_p_state UNUSED).

Fixpoint wait_scan (cur : nat) (l : list nat) (havekids : bool) : M PS scan_result :=
  match l with
  | [] => m_ret (NoZombie havekids)
  | i :: l =>
      let! q := getp i in
      match q with
      | None => wait_scan cur l havekids
      | Some p =>
          if negb (bool_decide (p_parent p = Some cur)) then wait_scan cur l havekids
          else if bool_decide (p_state p = ZOMBIE) then
            reap i p ;;;
            release_pt ;;;
            m_ret (Reaped (p_pid p))
          else wait_scan cur l true
      end
  end.

(** One round of the [for(;;)] of [wait], with the lock held: [Some r] is the
    returned value, [None] means the process has gone to sleep. *)
Definition wait_round (cur : nat) : M PS (option Z) :=
  let! r := wait_scan cur (seq 0 NPROC) false in
  match r with
  | Reaped pid => m_ret (Some pid)
  | NoZombie havekids =>
      let! q := getp cur in
      if negb havekids || negb (default 0 (p_killed <$> q) =? 0) then
        release_pt ;;; m_ret (Some (-1))
      else sleep_enter (ChProc cur) LkPtable ;;; m_ret None
  end.
Definition wait_enter : M PS (option Z) :=
  let! c := curproc in
  acquire_pt ;;;
  wait_round (fst c).
Definition wait_resume (cur : nat) (intena : Z) : M PS (option Z) :=
  sleep_resume cur LkPtable intena ;;;
  wait_round cur.

(** [waitx] also clears the times of the reaped child. *)
Definition reapx (i : nat) (p : proc) : M PS unit :=
  reap i p ;;;
  setp i (set_p_ctime 0) ;;;
  setp i (set_p_etime 0) ;;;
  setp i (set_p_rtime 0) ;;;
  setp i (set_p_wtime 0) ;;;
  setp i (set_p_modtime 0).

Fixpoint waitx_scan (cur : nat) (l : list nat) (havekids : bool) : M PS scanx_result :=
  match l with
  | [] => m_ret (NoZombieX havekids)
  | i :: l =>
      let! q := getp i in
      match q with
      | None => waitx_scan cur l havekids
      | Some p =>
          if negb (bool_decide (p_parent p = Some cur)) then waitx_scan cur l havekids
          else if bool_decide (p_state p = ZOMBIE) then
            let g := s32 (p_etime p - p_ctime p) in
            let h := s32 (g - p_rtime p) in
            reapx i p ;;;
            release_pt ;;;
            m_ret (ReapedX (p_pid p) h (p_rtime p))
          else waitx_scan cur l true
      end
  end.
Definition waitx_round (cur : nat) : M PS (option (Z * option (Z * Z))) :=
  let! r := waitx_scan cur (seq 0 NPROC) false in
  match r with
  | ReapedX pid w r => m_ret (Some (pid, Some (w, r)))
  | NoZombieX havekids =>
      let! q := getp cur in
      if negb havekids || negb (default 0 (p_killed <$> q) =? 0) then
        release_pt ;;; m_ret (Some (-1, None))
      else sleep_enter (ChProc cur) LkPtable ;;; m_ret None
  end.
Definition waitx_enter : M PS (option (Z * option (Z * Z))) :=
  let! c := curproc in
  acquire_pt ;;;
  waitx_round (fst c).
Definition waitx_resume (cur : nat) (intena : Z)
    : M PS (option (Z * option (Z * Z))) :=
  sleep_resume cur LkPtable intena ;;;
  waitx_round cur.

Definition kill (pid : Z) : M PS Z :=
  acquire_pt ;;;
  let! found := table (kill_scan pid (seq 0 NPROC)) in
  release_pt ;;;
  m_ret (if found then 0 else -1).

Definition chpr (priority : Z) : M PS Z :=
  let! c := curproc in
  let pid := p_pid (snd c) in
  acquire_pt ;;;
  table (chpr_scan pid priority (seq 0 NPROC)) ;;;
  release_pt ;;;
  m_ret pid.
End Proc.
