(* ===== verification/Sched.v ===== *)
(** * The scheduler of proc.c: the DEFAULT, PBS, FCFS and MLFQ policies

    [scheduler] is compiled with one of four policies. Its choice of a process
    is a function of the process table ([pick_*]); its loop body ([*_round])
    runs with [ptable.lock] held and calls [swtch], whose effect - everything
    that happens until the process gives the processor back - is a parameter.
    [Module Mlfq] interleaves several processors under the MLFQ policy. *)

From stdpp Require Import base tactics numbers list sets strings.
From Stdlib Require Import ZArith Lia ZifyNat.
From S2P Require Import Prelude Layout Spinlock CString PTable RunQueue Proc.

#[local] Arguments Nat.modulo : simpl never.

(** ** Choosing a process *)

Definition runnable (p : proc) : bool := bool_decide (p_state p = RUNNABLE).

(** DEFAULT: the [for] loop stops at the first RUNNABLE entry, or leaves [p] at
    [&ptable.proc[NPROC]]. *)
Definition default_scan (t : ptable) : nat :=
  default NPROC (find_idx runnable 0 (pt_proc t)).

(** The word read as [p->state]. One past the end of [ptable.proc] the fourth
    word is [queue_head[3]]. *)
Definition state_word (t : ptable) (i : nat) : Z :=
  if (i <? NPROC)%nat then default 0 ((procstate_Z ∘ p_state) <$> pt_proc t !! i)
  else Z.of_nat (default 0%nat (queue_head t !! 3%nat)).

Definition pick_default (t : ptable) : option nat :=
  let p := default_scan t in
  if state_word t p =? procstate_Z RUNNABLE then Some p else None.

(** PBS: one iteration of the search for the highest-priority process. *)
Definition pbs_step (highP : option (nat * proc)) (e : nat * proc)
    : option (nat * proc) :=
  let '(i, p1) := e in
  match highP with
  | Some (h, ph) =>
      if runnable p1 && (p_priority p1 <? p_priority ph) then Some (i, p1)
      else if runnable p1 && (p_priority ph =? p_priority p1) then
        if p_last_executed p1 <? p_last_executed ph then Some (i, p1) else highP
      else highP
  | None => if runnable p1 then Some (i, p1) else None
  end.
Definition pick_pbs (t : ptable) : option nat :=
  fst <$> fold_left pbs_step (imap pair (pt_proc t)) None.

(** FCFS: one iteration of the search for the earliest creation time. *)
Definition fcfs_step (minP : option (nat * proc)) (e : nat * proc)
    : option (nat * proc) :=
  let '(i, p1) := e in
  if negb (runnable p1) then minP
  else match minP with
       | Some (_, pm) => if p_ctime p1 <? p_ctime pm then Some (i, p1) else minP
       | None => Some (i, p1)
       end.
Definition pick_fcfs (t : ptable) : option nat :=
  fst <$> fold_left fcfs_step (imap pair (pt_proc t)) None.

(** MLFQ: the [while] loop over one ring; a ring has fewer than [NPROC] entries,
    so [NPROC] iterations reach the tail. *)
Fixpoint mlfq_scan (l : list (option nat)) (i tail fuel : nat) : option nat :=
  match fuel with
  | O => None
  | S fuel =>
      if (i =? tail)%nat then None
      else match default None (l !! i) with
           | Some p => Some p
           | None => mlfq_scan l ((i + 1) mod NPROC)%nat tail fuel
           end
  end.
Fixpoint mlfq_search (t : ptable) (priorities : list nat) : option nat :=
  match priorities with
  | [] => None
  | q :: rest =>
      match mlfq_scan (default [] (pt_queue t !! q)) (default 0%nat (queue_head t !! q))
              (default 0%nat (queue_tail t !! q)) NPROC with
      | Some p => Some p
      | None => mlfq_search t rest
      end
  end.
Definition pick_mlfq (t : ptable) : option nat := mlfq_search t (seq 0 5).

(** ** Ageing (MLFQ) *)

(** The inner [for] loop of the ageing code on queue [q], at index [i]. *)
Fixpoint ageing_loop (ticks : Z) (q i fuel : nat) : M ptable unit :=
  match fuel with
  | O => block
  | S fuel =>
      let! t := get in
      if (i =? default 0 (queue_tail t !! q))%nat then m_ret tt
      else
        match default None (default [] (pt_queue t !! q) !! i) with
        | None => panic "trap"
        | Some p =>
            match pt_proc t !! p with
            | None => panic "trap"
            | Some pr =>
                when (Ageing_const <? u32 (ticks - p_last_executed pr))
                  (dequeue (Z.of_nat q) ;;; enqueue (p_queue pr - 1) p) ;;;
                ageing_loop ticks q ((i + 1) mod NPROC)%nat fuel
            end
        end
  end.
Definition ageing_queue (ticks : Z) (q : nat) : M ptable unit :=
  let! t := get in
  ageing_loop ticks q (default 0%nat (queue_head t !! q)) (S NPROC).
Definition ageing (ticks : Z) : M ptable unit :=
  mfor (seq 1 4) (ageing_queue ticks).

(** The test [ticks > ageing_update + Ageing_const], in unsigned arithmetic. *)
Definition ageing_due (ticks ageing_update : Z) : bool :=
  u32 (s32 (ageing_update + Ageing_const)) <? ticks.

(** ** The table side of an MLFQ slice *)

(** [p->state == RUNNABLE] for a process pointer. *)
Definition is_runnable (p : nat) (t : ptable) : bool :=
  bool_decide (p_state <$> pt_proc t !! p = Some RUNNABLE).

(** [a < slice[p->queue]]. *)
Definition slice_left (p : nat) (a : Z) (t : ptable) : bool :=
  a <? default 0 (slice !! Z.to_nat (default 0 (p_queue <$> pt_proc t !! p))).

(** [p->num_run++] and [p->state = RUNNING]. *)
Definition count_run (p : nat) : M ptable unit :=
  modify (upd p (fun q => set_p_num_run (s32 (p_num_run q + 1)) q)).
Definition mark_running (p : nat) : M ptable unit :=
  modify (upd p (set_p_state RUNNING)).

(** Choosing a process and taking it off its queue. *)
Definition mlfq_take : M ptable (option nat) :=
  let! t := get in
  match pick_mlfq t with
  | None => m_ret None
  | Some p =>
      match pt_proc t !! p with
      | None => panic "trap"
      | Some pr =>
          if negb (is_runnable p t) then panic "process is sleeping"
          else dequeue (p_queue pr) ;;; m_ret (Some p)
      end
  end.

(** [if (p->state == RUNNABLE) ...] after the slice. *)
Definition mlfq_requeue (p : nat) : M ptable unit :=
  let! t := get in
  match pt_proc t !! p with
  | None => panic "trap"
  | Some pr =>
      if is_runnable p t then
        when (p_queue pr <? 4) (modify (upd p (set_p_queue (p_queue pr + 1)))) ;;;
        enqueue (if p_queue pr <? 4 then p_queue pr + 1 else p_queue pr) p
      else m_ret tt
  end.

(** ** The rounds of [scheduler] *)

Section Rounds.
Context {E : Type} {HE : KernelEnv E}.
Variable me : nat.
Variable callers : list Z.
Variable tss_addr : Z.
(** [swtch p]: from the switch to [p]'s context until the switch back. *)
Variable swtch : nat -> M (pstate E) unit.

Abbreviation PS := (pstate E).

(** The statements before the [for(;;)]; the result is [ageing_update]. *)
Definition scheduler_start : M PS Z :=
  let! f := gets ps_flag in
  when (f =? 0)
    (modify (fun s => set_ps_table
       (set_queue_tail (replicate 5 0%nat)
          (set_queue_head (replicate 5 0%nat) (ps_table s))) s) ;;;
     modify (fun s => set_ps_flag (s32 (ps_flag s + 1)) s)) ;;;
  oncpu (mycpu me) ;;;
  oncpu (modify (set_cpu_proc None)) ;;;
  let! tk := gets ps_ticks in
  m_ret (s32 tk).

(** Switching to a chosen process and back. *)
Definition run_proc (p : nat) : M PS unit :=
  oncpu (modify (set_cpu_proc (Some p))) ;;;
  switchuvm me tss_addr (Some p) ;;;
  setp p (set_p_state RUNNING) ;;;
  swtch p ;;;
  switchkvm ;;;
  oncpu (modify (set_cpu_proc None)).

(** A choice of [&ptable.proc[NPROC]] is not followed further: [switchuvm] would
    read the queue indices as a process. *)
Definition default_round : M PS unit :=
  let! t := gets ps_table in
  match pick_default t with
  | Some p => run_proc p
  | None => m_ret tt
  end.

(** [if (p != 0 && p->state == RUNNABLE)] for a pointer kept from an earlier
    round. *)
Definition still_runnable (t : ptable) (p : option nat) : bool :=
  match p with
  | Some i => is_runnable i t
  | None => false
  end.

(** [p] is the scheduler's variable, which PBS and FCFS keep from round to
    round; the result is its new value. *)
Definition pbs_round (p : option nat) : M PS (option nat) :=
  let! t := gets ps_table in
  let p := match pick_pbs t with Some h => Some h | None => p end in
  match p with
  | Some i =>
      if still_runnable t p then
        let! tk := gets ps_ticks in
        setp i (set_p_last_executed (s32 tk)) ;;;
        run_proc i ;;;
        m_ret p
      else m_ret p
  | None => m_ret p
  end.

Definition fcfs_round (p : option nat) : M PS (option nat) :=
  let! t := gets ps_table in
  let minP := pick_fcfs t in
  let p := if still_runnable t minP then minP else p in
  match p with
  | Some i => if still_runnable t p then run_proc i ;;; m_ret p else m_ret p
  | None => m_ret p
  end.

(** The loop that gives a process its slice; [a] counts the runs. *)
Fixpoint mlfq_slices (p : nat) (a : Z) (fuel : nat) : M PS unit :=
  match fuel with
  | O => block
  | S fuel =>
      let! left := gets (fun s => slice_left p a (ps_table s)) in
      if left then
        let! r := gets (fun s => is_runnable p (ps_table s)) in
        when r
          (table (count_run p) ;;;
           oncpu (modify (set_cpu_proc (Some p))) ;;;
           switchuvm me tss_addr (Some p) ;;;
           table (mark_running p) ;;;
           swtch p ;;;
           switchkvm) ;;;
        oncpu (modify (set_cpu_proc None)) ;;;
        let! r := gets (fun s => is_runnable p (ps_table s)) in
        if negb r then m_ret tt else mlfq_slices p (a + 1) fuel
      else m_ret tt
  end.

(** The longest slice is 16 runs, so 17 tests of the loop condition suffice. *)
Definition mlfq_round (ageing_update : Z) : M PS Z :=
  let! p := table mlfq_take in
  match p with
  | Some p => mlfq_slices p 0 17 ;;; table (mlfq_requeue p)
  | None => m_ret tt
  end ;;;
  let! tk := gets ps_ticks in
  if ageing_due tk ageing_update then table (ageing tk) ;;; m_ret (s32 tk)
  else m_ret ageing_update.

(** One turn of the [for(;;)] around a policy's round. *)
Definition scheduler_turn {A} (round : M PS A) : M PS A :=
  oncpu (modify sti) ;;;
  acquire_pt me callers ;;;
  let! r := round in
  release_pt me ;;;
  m_ret r.
End Rounds.

(** ** The choices of PBS and FCFS are minima *)

(** Lexicographic comparison of scheduling keys. *)
Definition klt (a b : Z * Z) : bool :=
  (a.1 <? b.1) || ((a.1 =? b.1) && (a.2 <? b.2)).

Definition pbs_key (p : proc) : Z * Z := (p_priority p, p_last_executed p).
Definition fcfs_key (p : proc) : Z * Z := (p_ctime p, 0).

(** [i] is the RUNNABLE entry with the least key, the first one of several. *)
Definition best (key : proc -> Z * Z) (t : ptable) (i : nat) : Prop :=
  exists p, pt_proc t !! i = Some p /\ p_state p = RUNNABLE /\
    forall j q, pt_proc t !! j = Some q -> p_state q = RUNNABLE ->
      klt (key p) (key q) = true \/ (key p = key q /\ (i <= j)%nat).

Definition none_runnable (t : ptable) : Prop :=
  forall j q, pt_proc t !! j = Some q -> p_state q <> RUNNABLE.

Section Argmin.
Variable key : proc -> Z * Z.

Definition argmin_step (acc : option (nat * proc)) (e : nat * proc)
    : option (nat * proc) :=
  if negb (runnable e.2) then acc
  else match acc with
       | Some b => if klt (key e.2) (key b.2) then Some e else acc
       | None => Some e
       end.

(** What the fold has found in the entries [l], whose first index is [n]. *)
Definition argmin_ok (n : nat) (l : list proc) (acc : option (nat * proc)) : Prop :=
  match acc with
  | Some (i, p) => (n <= i)%nat /\ l !! (i - n)%nat = Some p /\ p_state p = RUNNABLE /\
      forall j q, l !! j = Some q -> p_state q = RUNNABLE ->
        klt (key p) (key q) = true \/ (key p = key q /\ (i <= n + j)%nat)
  | None => forall j q, l !! j = Some q -> p_state q <> RUNNABLE
  end.

Lemma klt_trans a b c : klt a b = true -> klt b c = true -> klt a c = true.
Proof using. destruct a, b, c. unfold klt; simpl. lia. Qed.

Lemma klt_total a b : klt a b = false -> klt b a = true \/ b = a.
Proof using.
  destruct a, b. unfold klt; simpl. intros. destruct (decide (z = z1 /\ z0 = z2)).
  - right. naive_solver.
  - left. lia.
Qed.

Lemma argmin_snoc l x acc : argmin_ok 0 l acc ->
  argmin_ok 0 (l ++ [x]) (argmin_step acc (length l, x)).
Proof using.
  intros Hacc. unfold argmin_step, runnable; simpl. case_bool_decide as Hx; simpl.
  - destruct acc as [[i p]|]; simpl in *.
    + destruct Hacc as (Hi & Hp & Hr & Hmin). rewrite Nat.sub_0_r in *.
      pose proof (lookup_lt_Some _ _ _ Hp) as Hlt.
      destruct (klt (key x) (key p)) eqn:Hk; simpl.
      * rewrite Nat.sub_0_r. split; [lia|]. split; [by apply list_lookup_middle|].
        split; [done|]. intros j q [Hj|[Hge Hj]]%lookup_app_Some Hq.
        -- left. destruct (Hmin j q Hj Hq) as [H|[<- _]]; [by eapply klt_trans|done].
        -- apply list_lookup_singleton_Some in Hj as [Hj <-]. right. split; [done|lia].
      * rewrite Nat.sub_0_r. split; [lia|]. split; [by apply lookup_app_l_Some|].
        split; [done|]. intros j q [Hj|[Hge Hj]]%lookup_app_Some Hq; [eauto|].
        apply list_lookup_singleton_Some in Hj as [Hj <-].
        destruct (klt_total _ _ Hk); [by left|right]. split; [done|lia].
    + rewrite Nat.sub_0_r. split; [lia|]. split; [by apply list_lookup_middle|].
      split; [done|]. intros j q [Hj|[Hge Hj]]%lookup_app_Some Hq; [by destruct (Hacc j q)|].
      apply list_lookup_singleton_Some in Hj as [Hj <-]. right. split; [done|lia].
  - destruct acc as [[i p]|]; simpl in *.
    + destruct Hacc as (Hi & Hp & Hr & Hmin). rewrite Nat.sub_0_r in *.
      split; [lia|]. split; [by apply lookup_app_l_Some|]. split; [done|].
      intros j q [Hj|[Hge Hj]]%lookup_app_Some Hq; [eauto|].
      by apply list_lookup_singleton_Some in Hj as [Hj <-].
    + intros j q [Hj|[Hge Hj]]%lookup_app_Some; [eauto|].
      by apply list_lookup_singleton_Some in Hj as [Hj <-].
Qed.

Lemma argmin_fold l : argmin_ok 0 l (fold_left argmin_step (imap pair l) None).
Proof using.
  induction l as [|x l IH] using rev_ind; [by intros j q|].
  rewrite imap_app, fold_left_app. simpl. rewrite Nat.add_0_r. by apply argmin_snoc.
Qed.

Lemma argmin_pick t step :
  (forall acc e, step acc e = argmin_step acc e) ->
  match fst <$> fold_left step (imap pair (pt_proc t)) None with
  | Some i => best key t i
  | None => none_runnable t
  end.
Proof using.
  intros Hstep. assert (forall l a, fold_left step l a = fold_left argmin_step l a) as ->.
  { induction l as [|e l IH]; intros a; simpl; [done|]. by rewrite Hstep. }
  pose proof (argmin_fold (pt_proc t)) as H.
  destruct (fold_left _ _ _) as [[i p]|]; simpl in *; [|done].
  destruct H as (_ & Hp & Hr & Hmin). rewrite Nat.sub_0_r in Hp. by exists p.
Qed.
End Argmin.

Lemma pbs_step_argmin acc e : pbs_step acc e = argmin_step pbs_key acc e.
Proof.
  destruct e as [i p1]. unfold pbs_step, argmin_step; simpl.
  destruct (runnable p1), acc as [[h ph]|]; simpl; try done.
  unfold klt; simpl. destruct (Z.ltb_spec (p_priority p1) (p_priority ph)); simpl; [done|].
  destruct (Z.eqb_spec (p_priority ph) (p_priority p1)),
    (Z.eqb_spec (p_priority p1) (p_priority ph)); simpl; try congruence; by destruct (_ <? _).
Qed.

Lemma fcfs_step_argmin acc e : fcfs_step acc e = argmin_step fcfs_key acc e.
Proof.
  destruct e as [i p1]. unfold fcfs_step, argmin_step; simpl.
  destruct (runnable p1), acc as [[h ph]|]; simpl; try done.
  unfold klt; simpl. by rewrite andb_false_r, orb_false_r.
Qed.

(** PBS chooses, of the RUNNABLE processes, the one with the smallest priority
    number, among equals the one that ran least recently, among these the first
    of the table; it chooses none only if no process is RUNNABLE. *)
Theorem pick_pbs_best t :
  match pick_pbs t with
  | Some i => best pbs_key t i
  | None => none_runnable t
  end.
Proof. apply argmin_pick, pbs_step_argmin. Qed.

(** FCFS chooses the RUNNABLE process created first, among equals the first of
    the table; it chooses none only if no process is RUNNABLE. *)
Theorem pick_fcfs_best t :
  match pick_fcfs t with
  | Some i => best fcfs_key t i
  | None => none_runnable t
  end.
Proof. apply argmin_pick, fcfs_step_argmin. Qed.

(** DEFAULT chooses the first RUNNABLE entry of the table (it is not round
    robin), and none only if no process is RUNNABLE, provided the word behind
    the table, [queue_head[3]], is not 3. *)
Theorem pick_default_first t :
  length (pt_proc t) = NPROC -> queue_head t !! 3%nat <> Some 3%nat ->
  match pick_default t with
  | Some i => best (fun _ => (0, 0)) t i
  | None => none_runnable t
  end.
Proof.
  intros Hlen Hq. unfold pick_default, default_scan.
  destruct (find_idx runnable 0 (pt_proc t)) as [i|] eqn:E; simpl.
  - destruct (find_idx_Some _ _ _ _ E) as (p & _ & Hp & Hr & Hmin).
    rewrite Nat.sub_0_r in *. apply bool_decide_eq_true in Hr.
    pose proof (lookup_lt_Some _ _ _ Hp). unfold state_word.
    rewrite (proj2 (Nat.ltb_lt _ _)), Hp by lia. simpl. rewrite Hr. simpl.
    exists p. split; [done|]. split; [done|]. intros j q Hj Hs. right. split; [done|].
    destruct (decide (i <= j)%nat); [done|]. assert (runnable q = false) as Hn.
    { apply (Hmin j); [lia|done]. }
    by apply bool_decide_eq_false in Hn.
  - unfold state_word. simpl. destruct (Z.eqb_spec (Z.of_nat (default 0%nat (queue_head t !! 3%nat))) 3)
      as [H3|_].
    + exfalso. apply Hq. destruct (queue_head t !! 3%nat); simpl in *; [f_equal; lia|lia].
    + intros j q Hj Hs. pose proof (find_idx_None _ _ _ E j q Hj) as Hn.
      by apply bool_decide_eq_false in Hn.
Qed.

Lemma pick_default_first_witness :
  let t := upd 5 (set_p_state RUNNABLE) (upd 9 (set_p_state RUNNABLE) zero_ptable) in
  pick_default t = Some 5%nat /\ best (fun _ => (0, 0)) t 5.
Proof.
  intros t. assert (pick_default t = Some 5%nat) as E by reflexivity. split; [exact E|].
  pose proof (pick_default_first t eq_refl ltac:(discriminate)) as H. by rewrite E in H.
Defined.
