(* ===== verification/Mlfq.v ===== *)
(** * The MLFQ scheduler on several processors (proc.c, [#ifdef MLFQ])

    The table-level steps of the scheduler are shown to keep the run-queue
    invariant, and [Module Smp] interleaves the schedulers of several
    processors with what running processes do to the table. *)

From stdpp Require Import base tactics numbers list sets strings.
From Stdlib Require Import ZArith Lia ZifyNat.
From S2P Require Import Prelude Layout Spinlock PTable RunQueue Proc Sched.

#[local] Arguments Nat.modulo : simpl never.

(** ** The choice *)

(** The first process of a queue's contents. *)
Definition first_entry (l : list (option nat)) : option nat :=
  match list_find (fun e => e <> None) l with
  | Some (_, e) => e
  | None => None
  end.

Lemma mlfq_scan_ring l i tail fuel : (i < NPROC)%nat -> (tail < NPROC)%nat ->
  (ring_len i tail < fuel)%nat ->
  mlfq_scan l i tail fuel = first_entry (ring l i (ring_len i tail)).
Proof.
  revert i. induction fuel as [|fuel IH]; intros i Hi Ht Hf; [lia|].
  simpl. destruct (Nat.eqb_spec i tail) as [->|Hne].
  - assert (ring_len tail tail = 0)%nat as -> by (unfold ring_len, NPROC in *; zlia). done.
  - destruct (ring_len i tail) as [|n] eqn:En.
    { exfalso. unfold ring_len, NPROC in *. zlia. }
    pose proof (ring_len_head i tail n Hi Ht En) as Hn.
    rewrite ring_tail by done. unfold first_entry; simpl.
    destruct (default None (l !! i)); [done|].
    rewrite IH; [|by apply Nat.mod_upper_bound|done|lia].
    rewrite Hn. unfold first_entry. by destruct (list_find _ (ring _ _ _)) as [[??]|].
Qed.

#[local] Arguments mlfq_scan : simpl never.

Definition queue_scan (t : ptable) (q : nat) : option nat :=
  mlfq_scan (default [] (pt_queue t !! q)) (default 0%nat (queue_head t !! q))
    (default 0%nat (queue_tail t !! q)) NPROC.

Lemma queue_scan_head t q : qinv t -> (q < 5)%nat ->
  queue_scan t q = match qcontents t q with e :: _ => e | [] => None end.
Proof.
  intros Hq Hq5. unfold queue_scan.
  destruct (queue_parts t (qi_wf _ Hq) q Hq5) as (h & k & l & Eh & Ek & El & Hh & Hk & Hl).
  rewrite mlfq_scan_ring; [|by rewrite Eh|by rewrite Ek|apply ring_len_lt].
  fold (qcontents t q). destruct (qcontents t q) as [|e r] eqn:Ec; [done|].
  destruct (qi_entry _ Hq q e Hq5) as (i & p & -> & _); [rewrite Ec; set_solver|]. done.
Qed.

Lemma mlfq_search_spec t n k : qinv t -> (n + k <= 5)%nat ->
  match mlfq_search t (seq n k) with
  | Some p => exists q l, (n <= q < n + k)%nat /\ qcontents t q = Some p :: l /\
      forall q', (n <= q' < q)%nat -> qcontents t q' = []
  | None => forall q, (n <= q < n + k)%nat -> qcontents t q = []
  end.
Proof.
  intros Hq. revert n. induction k as [|k IH]; intros n Hr; [simpl; lia|].
  simpl. change (mlfq_scan _ _ _ _) with (queue_scan t n). rewrite queue_scan_head by (done || lia).
  specialize (IH (S n) ltac:(lia)). destruct (qcontents t n) as [|e r] eqn:Ec.
  - destruct (mlfq_search t (seq (S n) k)) as [p|].
    + destruct IH as (q & l & Hin & Hc & Hbefore). exists q, l.
      split; [lia|]. split; [done|]. intros q' Hq'.
      destruct (decide (q' = n)) as [->|]; [done|]. apply Hbefore. lia.
    + intros q Hqr. destruct (decide (q = n)) as [->|]; [done|]. apply IH. lia.
  - destruct (qi_entry _ Hq n e ltac:(lia)) as (i & p & -> & _); [rewrite Ec; set_solver|].
    exists n, r. split; [lia|]. split; [done|]. lia.
Qed.

(** The process at the head of the first non-empty queue. *)
Lemma pick_mlfq_spec t : qinv t ->
  match pick_mlfq t with
  | Some i => exists p l, pt_proc t !! i = Some p /\ p_state p = RUNNABLE /\
      qcontents t (Z.to_nat (p_queue p)) = Some i :: l /\
      forall j q, pt_proc t !! j = Some q -> p_state q = RUNNABLE ->
        p_queue p <= p_queue q
  | None => none_runnable t
  end.
Proof.
  intros Hq. unfold pick_mlfq. pose proof (mlfq_search_spec t 0 5 Hq ltac:(lia)) as H.
  assert (forall j r, pt_proc t !! j = Some r -> p_state r = RUNNABLE ->
    (Z.to_nat (p_queue r) < 5)%nat /\ qcontents t (Z.to_nat (p_queue r)) <> []) as Hne.
  { intros j r Hj Hs. pose proof (qi_range _ Hq _ _ Hj). split; [lia|].
    pose proof (qi_runnable _ Hq _ _ Hj Hs) as Hin. intros E. rewrite E in Hin.
    by apply elem_of_nil in Hin. }
  destruct (mlfq_search _ _) as [i|].
  - destruct H as (q & l & Hqr & Hc & Hb).
    destruct (qi_entry _ Hq q (Some i)) as (? & p & [= <-] & Hp & Hs & Hpq);
      [lia|rewrite Hc; set_solver|].
    exists p, l. split; [done|]. split; [done|]. split; [by rewrite Hpq, Nat2Z.id|].
    intros j r Hj Hr. destruct (Hne j r Hj Hr) as [_ Hnn].
    destruct (decide (p_queue p <= p_queue r)); [done|]. exfalso. apply Hnn, Hb.
    pose proof (qi_range _ Hq _ _ Hj). lia.
  - intros j r Hj Hs. destruct (Hne j r Hj Hs) as [Hlt Hnn]. apply Hnn, H. lia.
Qed.

(** MLFQ chooses the process that has waited longest in the lowest-numbered
    queue that has one, and none only if no process is RUNNABLE. *)
Theorem pick_mlfq_first t : qinv t ->
  match pick_mlfq t with
  | Some i => exists p l, pt_proc t !! i = Some p /\ p_state p = RUNNABLE /\
      qcontents t (Z.to_nat (p_queue p)) = Some i :: l /\
      forall j q, pt_proc t !! j = Some q -> p_state q = RUNNABLE ->
        p_queue p <= p_queue q
  | None => none_runnable t
  end.
Proof. apply pick_mlfq_spec. Qed.

Lemma pick_mlfq_first_witness :
  let t := make_runnable 2 7 zero_ptable in
  qinv t /\ pick_mlfq t = Some 7%nat /\ ~ none_runnable t.
Proof.
  intros t. assert (qinv t) as Hq.
  { apply make_runnable_qinv with zero_proc; [apply zero_ptable_qinv|lia|done|done|].
    by exists 0%nat, zero_proc. }
  split; [exact Hq|]. pose proof (pick_mlfq_first t Hq) as H.
  assert (pick_mlfq t = Some 7%nat) as E by reflexivity. split; [exact E|].
  rewrite E in H. destruct H as (p & l & Hp & Hs & _). intros Hn. by apply (Hn 7%nat p).
Defined.

(** ** Taking a process off its queue and putting it back *)

Lemma upd_same i f t p : pt_proc t !! i = Some p -> f p = p -> upd i f t = t.
Proof.
  intros Hp Hf. unfold upd. replace (alter f i (pt_proc t)) with (pt_proc t); [by destruct t|].
  apply list_eq. intros j. destruct (decide (i = j)) as [->|Hne].
  - rewrite list_lookup_alter_eq, Hp; simpl. by rewrite Hf.
  - by rewrite list_lookup_alter_ne.
Qed.

Lemma upd_upd i f g t : upd i f (upd i g t) = upd i (fun p => f (g p)) t.
Proof. unfold upd, set_pt_proc; simpl. f_equal. apply list_alter_alter_eq. Qed.

Lemma upd_ext i f g t : (forall p, pt_proc t !! i = Some p -> f p = g p) ->
  upd i f t = upd i g t.
Proof. intros H. unfold upd. f_equal. by apply list_alter_ext. Qed.

Lemma upd_self i f t p : pt_proc t !! i = Some p -> pt_proc (upd i f t) !! i = Some (f p).
Proof. intros H. simpl. by rewrite list_lookup_alter_eq, H. Qed.

Lemma upd_other i j f t : i <> j -> pt_proc (upd i f t) !! j = pt_proc t !! j.
Proof. intros H. simpl. by rewrite list_lookup_alter_ne. Qed.

(** [off t p]: the scheduler has taken the RUNNABLE process [p] off its queue;
    were it RUNNING, the table would be in order. *)
Definition off (t : ptable) (p : nat) : Prop :=
  qinv (upd p (set_p_state RUNNING) t) /\
  exists pr, pt_proc t !! p = Some pr /\ p_state pr = RUNNABLE.

(** Entries other than [p] are the same. *)
Definition same_others (p : nat) (t t' : ptable) : Prop :=
  forall j, j <> p -> pt_proc t' !! j = pt_proc t !! j.

Lemma is_runnable_true p t pr : pt_proc t !! p = Some pr ->
  is_runnable p t = bool_decide (p_state pr = RUNNABLE).
Proof. intros H. unfold is_runnable. rewrite H. simpl. apply bool_decide_ext. split; congruence. Qed.

Lemma mlfq_take_run t : qinv t ->
  match pick_mlfq t with
  | None => mlfq_take t = Done None t
  | Some i => exists p, pt_proc t !! i = Some p /\ p_state p = RUNNABLE /\
      mlfq_take t = Done (Some i) (dequeued t (p_queue p)) /\
      off (dequeued t (p_queue p)) i
  end.
Proof.
  intros Hq. unfold mlfq_take. munf. pose proof (pick_mlfq_spec t Hq) as H.
  destruct (pick_mlfq t) as [i|]; [|done].
  destruct H as (p & l & Hp & Hs & Hc & _). rewrite Hp. pose proof (qi_range _ Hq _ _ Hp).
  rewrite (is_runnable_true _ _ _ Hp), bool_decide_eq_true_2 by done. simpl.
  rewrite dequeue_run by done. exists p. split; [done|]. split; [done|]. split; [done|].
  split; [|by exists p]. by apply dequeue_qinv with l.
Qed.

(** The queue a process goes to after using up its slice. *)
Definition demoted (pr : proc) : Z := if p_queue pr <? 4 then p_queue pr + 1 else p_queue pr.

Lemma off_spare t p t' : off t p -> same_others p t t' ->
  (exists pr', pt_proc t' !! p = Some pr' /\ p_state pr' = RUNNABLE) -> spare t' ->
  exists j pj, j <> p /\ pt_proc t !! j = Some pj /\ p_state pj <> RUNNABLE.
Proof.
  intros _ Hso (pr' & Hp & Hr) (j & pj & Hj & Hs). exists j, pj.
  assert (j <> p) by (intros ->; simplify_eq). by rewrite <- Hso.
Qed.

Lemma off_make_runnable t p qn : off t p -> 0 <= qn <= 4 ->
  (exists j pj, j <> p /\ pt_proc t !! j = Some pj /\ p_state pj <> RUNNABLE) ->
  qinv (enqueued t qn p).
Proof.
  intros [Hq (pr & Hp & Hs)] Hqn (j & pj & Hne & Hj & Hsj).
  assert (upd p (set_p_state RUNNABLE) (upd p (set_p_state RUNNING) t) = t) as Ht.
  { rewrite upd_upd. apply upd_same with pr; [done|]. rewrite <- Hs. by destruct pr. }
  rewrite <- Ht at 1. apply (make_runnable_qinv _ Hq) with (set_p_state RUNNING pr).
  - done.
  - by apply upd_self.
  - done.
  - exists j, pj. split; [done|]. by rewrite upd_other by done.
Qed.

Lemma enqueued_upd_queue t qn p v : enqueued (upd p (set_p_queue v) t) qn p = enqueued t qn p.
Proof.
  unfold enqueued; simpl. f_equal. rewrite list_alter_alter_eq.
  apply list_alter_ext; [by intros []|done].
Qed.

Lemma enqueued_self t qn p pr : pt_proc t !! p = Some pr ->
  pt_proc (enqueued t qn p) !! p = Some (set_p_queue qn pr).
Proof. intros H. simpl. by rewrite list_lookup_alter_eq, H. Qed.

Lemma enqueued_other t qn p j : p <> j -> pt_proc (enqueued t qn p) !! j = pt_proc t !! j.
Proof. intros H. simpl. by rewrite list_lookup_alter_ne. Qed.

Lemma mlfq_requeue_run t p pr : off t p -> pt_proc t !! p = Some pr ->
  mlfq_requeue p t = Done tt (enqueued t (demoted pr) p) /\ 0 <= demoted pr <= 4.
Proof.
  intros [Hq (pr' & Hp & Hs)] Hpr. assert (pr' = pr) as -> by congruence.
  assert (0 <= p_queue pr <= 4) as Hr.
  { pose proof (qi_range _ Hq p _ (upd_self p _ t pr Hp)) as H. done. }
  assert (0 <= demoted pr <= 4) as Hd.
  { unfold demoted. destruct (Z.ltb_spec (p_queue pr) 4); lia. }
  split; [|done]. unfold mlfq_requeue. munf. rewrite Hp.
  rewrite (is_runnable_true _ _ _ Hp), bool_decide_eq_true_2 by done.
  unfold demoted in *. destruct (p_queue pr <? 4); simpl; rewrite enqueue_run by done; [|done].
  by rewrite enqueued_upd_queue.
Qed.

(** ** Running a process until it gives the processor back *)

(** What a processor's scheduler is doing: choosing a process, or waiting in
    [swtch] for process [p], whose slice has seen [a] runs. *)
Inductive mode := Idle | Running (p : nat) (a : Z).

(** From the loop test of the slice to the next [swtch], or to the end of the
    slice and the release of the lock. *)
Definition slice_continue (p : nat) (a : Z) : M ptable mode :=
  let! left := gets (slice_left p a) in
  let! r := gets (is_runnable p) in
  if left && r then count_run p ;;; mark_running p ;;; m_ret (Running p a)
  else mlfq_requeue p ;;; m_ret Idle.

(** From the choice of a process to its first [swtch]. *)
Definition mlfq_dispatch : M ptable mode :=
  let! p := mlfq_take in
  match p with
  | Some p => slice_continue p 0
  | None => m_ret Idle
  end.

(** From the return of [swtch] to the next one, or to the end of the slice. *)
Definition mlfq_back (p : nat) (a : Z) : M ptable mode :=
  let! r := gets (is_runnable p) in
  if r then slice_continue p (a + 1) else mlfq_requeue p ;;; m_ret Idle.

(** What is left of [t] after [p] was dispatched again or put back. *)
Record continued (p : nat) (t : ptable) (m : mode) (t' : ptable) : Prop := {
  ct_inv : spare t' -> qinv t';
  ct_others : same_others p t t';
  ct_mode : m = Idle \/ exists a, m = Running p a;
  ct_state : p_state <$> pt_proc t' !! p =
    Some (match m with Idle => RUNNABLE | Running _ _ => RUNNING end) }.

Lemma slice_continue_spec t p a : off t p ->
  exists m t', slice_continue p a t = Done m t' /\ continued p t m t'.
Proof.
  intros Hoff. pose proof Hoff as [Hq (pr & Hp & Hs)]. unfold slice_continue. munf.
  rewrite (is_runnable_true _ _ _ Hp), bool_decide_eq_true_2, andb_true_r by done.
  destruct (slice_left p a t).
  - unfold count_run, mark_running. munf. eexists _, _. split; [done|].
    rewrite upd_upd. split.
    + intros _. replace (upd p _ t) with
        (upd p (fun q => set_p_num_run (s32 (p_num_run q + 1)) q) (upd p (set_p_state RUNNING) t))
        by by rewrite upd_upd.
      apply upd_qinv; [done|]. intros q Hl. split; [done|]. split; [|done].
      exact (qi_range _ Hq _ _ Hl).
    + intros j Hj. by apply upd_other.
    + eauto.
    + by rewrite (upd_self _ _ _ _ Hp).
  - destruct (mlfq_requeue_run t p pr Hoff Hp) as [-> Hd]. eexists _, _. split; [done|].
    assert (same_others p t (enqueued t (demoted pr) p)) as Hso.
    { intros j Hj. by apply enqueued_other. }
    split; [|done|by left|by rewrite (enqueued_self _ _ _ _ Hp); simpl; rewrite Hs].
    intros Hsp. apply off_make_runnable; [done|done|]. eapply off_spare; [done|done| |done].
    eexists. split; [by apply enqueued_self|done].
Qed.

Lemma slice_left_0 t p pr : pt_proc t !! p = Some pr -> 0 <= p_queue pr <= 4 ->
  slice_left p 0 t = true.
Proof.
  intros Hp Hr. unfold slice_left. rewrite Hp; simpl.
  assert (p_queue pr = 0 \/ p_queue pr = 1 \/ p_queue pr = 2 \/ p_queue pr = 3 \/
    p_queue pr = 4) as [-> | [-> | [-> | [-> | ->]]]] by lia; done.
Qed.

Lemma mlfq_dispatch_spec t : qinv t ->
  match pick_mlfq t with
  | None => mlfq_dispatch t = Done Idle t
  | Some p => exists t', mlfq_dispatch t = Done (Running p 0) t' /\ qinv t' /\
      same_others p t t' /\ p_state <$> pt_proc t !! p = Some RUNNABLE /\
      p_state <$> pt_proc t' !! p = Some RUNNING
  end.
Proof.
  intros Hq. unfold mlfq_dispatch. pose proof (mlfq_take_run t Hq) as H.
  destruct (pick_mlfq t) as [p|]; [|by rewrite (bind_Done _ _ _ _ _ H)].
  destruct H as (pr & Hp & Hs & E & Hoff). rewrite (bind_Done _ _ _ _ _ E).
  destruct (slice_continue_spec _ p 0 Hoff) as (m & t' & Ec & [Hi Ho Hm Hst]).
  assert (m = Running p 0) as ->.
  { assert (pt_proc (dequeued t (p_queue pr)) !! p = Some pr) as Hp' by done.
    revert Ec. unfold slice_continue. munf. rewrite (slice_left_0 _ _ _ Hp' (qi_range _ Hq _ _ Hp)).
    rewrite (is_runnable_true _ _ _ Hp'), bool_decide_eq_true_2 by done. by intros [= <- _]. }
  exists t'. split; [done|]. split.
  { apply Hi. destruct (pt_proc t' !! p) as [pr'|] eqn:E'; simpl in Hst; [|done].
    exists p, pr'. split; [done|]. congruence. }
  split; [done|]. rewrite Hp. simpl. by rewrite Hs.
Qed.

(** ** Ageing *)

(** [ticks - p->last_executed > Ageing_const] for a queue entry. *)
Definition aged (tk : Z) (t : ptable) (e : option nat) : bool :=
  match e ≫= (pt_proc t !!.) with
  | Some p => Ageing_const <? u32 (tk - p_last_executed p)
  | None => false
  end.

(** The aged entries of queue [q] are its oldest ones. *)
Definition aged_first (tk : Z) (t : ptable) (q : nat) : Prop :=
  exists l1 l2, qcontents t q = l1 ++ l2 /\
    (forall e, e ∈ l1 -> aged tk t e = true) /\ (forall e, e ∈ l2 -> aged tk t e = false).

(** The tables agree on the processes up to [p->queue]. *)
Definition same_but_queue (t t' : ptable) : Prop :=
  forall j, set_p_queue 0 <$> pt_proc t' !! j = set_p_queue 0 <$> pt_proc t !! j.

Lemma same_but_queue_trans t1 t2 t3 :
  same_but_queue t1 t2 -> same_but_queue t2 t3 -> same_but_queue t1 t3.
Proof. intros H1 H2 j. by rewrite H2, H1. Qed.

Lemma same_but_queue_proj {A} (f : proc -> A) t t' j : same_but_queue t t' ->
  (forall p, f (set_p_queue 0 p) = f p) -> f <$> pt_proc t' !! j = f <$> pt_proc t !! j.
Proof.
  intros H Hf. specialize (H j). apply (f_equal (fmap (M:=option) f)) in H.
  destruct (pt_proc t' !! j), (pt_proc t !! j); simpl in *; try done. by rewrite !Hf in H.
Qed.

Lemma same_but_queue_aged tk t t' e : same_but_queue t t' -> aged tk t' e = aged tk t e.
Proof.
  intros H. unfold aged. destruct e as [j|]; [|done]. simpl.
  pose proof (same_but_queue_proj p_last_executed t t' j H ltac:(by intros [])) as Hl.
  destruct (pt_proc t' !! j), (pt_proc t !! j); simplify_eq/=; try done. congruence.
Qed.

Lemma same_but_queue_state t t' j : same_but_queue t t' ->
  p_state <$> pt_proc t' !! j = p_state <$> pt_proc t !! j.
Proof. intros H. apply same_but_queue_proj; [done|by intros []]. Qed.

Lemma same_but_queue_spare t t' : same_but_queue t t' -> spare t -> spare t'.
Proof.
  intros H (j & p & Hj & Hs). pose proof (same_but_queue_state t t' j H) as Hst.
  rewrite Hj in Hst. destruct (pt_proc t' !! j) as [p'|] eqn:E; simplify_eq/=.
  exists j, p'. split; [done|]. congruence.
Qed.

(** The part of the loop in which no entry is aged changes nothing. *)
Lemma ageing_loop_rest tk q t l k n : forall i fuel,
  qinv t -> (q < 5)%nat -> pt_queue t !! q = Some l -> queue_tail t !! q = Some k ->
  (i < NPROC)%nat -> (k < NPROC)%nat -> ring_len i k = n -> (n < fuel)%nat ->
  (forall e, e ∈ ring l i n -> aged tk t e = false /\ is_Some (e ≫= (pt_proc t !!.))) ->
  ageing_loop tk q i fuel t = Done tt t.
Proof.
  induction n as [|n IH]; intros i [|fuel] Hq Hq5 Hl Hk Hi Hk' Hn Hf Hr; try lia.
  - simpl. munf. rewrite Hk; simpl. destruct (Nat.eqb_spec i k) as [->|Hne]; [done|].
    exfalso. unfold ring_len, NPROC in *. zlia.
  - simpl. munf. rewrite Hk; simpl. destruct (Nat.eqb_spec i k) as [->|Hne].
    { exfalso. unfold ring_len, NPROC in *. zlia. }
    rewrite ring_tail in Hr by done. rewrite Hl; simpl.
    destruct (Hr (default None (l !! i))) as [Ha [pr Hs]]; [set_solver|].
    destruct (default None (l !! i)) as [p|]; simpl in Hs; [|done].
    unfold aged in Ha; simpl in Ha. rewrite Hs in Ha |- *. rewrite Ha.
    apply IH; try done; [by apply Nat.mod_upper_bound|by apply ring_len_head|lia|].
    intros e He. apply Hr. set_solver.
Qed.

Lemma queue_head_seq t q h e r : qinv t -> (q < 5)%nat -> queue_head t !! q = Some h ->
  qcontents t q = e :: r ->
  exists k l, queue_tail t !! q = Some k /\ pt_queue t !! q = Some l /\
    h <> k /\ default None (l !! h) = e.
Proof.
  intros Hq Hq5 Hh Hc.
  destruct (queue_parts t (qi_wf _ Hq) q Hq5) as (h' & k & l & Eh & Ek & El & Hh' & Hk & Hl).
  simplify_eq. unfold qcontents in Hc. rewrite Hh, Ek, El in Hc. simpl in Hc.
  exists k, l. split; [done|]. split; [done|]. split.
  - intros ->. assert (ring_len k k = 0)%nat as E0 by (unfold ring_len, NPROC in *; zlia).
    by rewrite E0 in Hc.
  - destruct (ring_len h k) as [|n]; [done|]. rewrite ring_tail in Hc by done. congruence.
Qed.

(** Moving the head of queue [q] one queue up. *)
Lemma promote_spec t q i r : qinv t -> spare t -> (1 <= q < 5)%nat ->
  qcontents t q = Some i :: r ->
  let t' := enqueued (dequeued t (Z.of_nat q)) (Z.of_nat q - 1) i in
  qinv t' /\ same_but_queue t t' /\
  forall q', (q' < 5)%nat -> qcontents t' q' =
    if decide (q' = q) then r
    else if decide (q' = (q - 1)%nat) then qcontents t q' ++ [Some i]
    else qcontents t q'.
Proof.
  intros Hq (j & pj & Hj & Hsj) Hq5 Hc t'.
  destruct (qi_entry _ Hq q (Some i)) as (? & p & [= <-] & Hi & Hs & Hpq);
    [lia|rewrite Hc; set_solver|].
  assert (off (dequeued t (Z.of_nat q)) i) as Hoff.
  { split; [|by exists p]. apply dequeue_qinv with r; [done|lia|by rewrite Nat2Z.id|done]. }
  assert (j <> i) as Hji by (intros ->; simplify_eq).
  split; [|split].
  - apply off_make_runnable; [done|lia|]. by exists j, pj.
  - intros m. unfold t'. destruct (decide (i = m)) as [->|Hne].
    + rewrite (enqueued_self _ _ _ p) by done. rewrite Hi. by destruct p.
    + by rewrite enqueued_other.
  - intros q' Hq'.
    assert (forall x, (x < 5)%nat -> qcontents (dequeued t (Z.of_nat q)) x =
      if decide (x = q) then r else qcontents t x) as Hd.
    { intros x Hx. rewrite (dequeued_contents t (qi_wf _ Hq) _ x (Some i) r);
        rewrite ?Nat2Z.id; (done || lia). }
    unfold t'. rewrite enqueued_contents.
    + replace (Z.to_nat (Z.of_nat q - 1)) with (q - 1)%nat by lia. rewrite Hd by done.
      destruct (decide (q' = q)), (decide (q' = (q - 1)%nat)); try done; lia.
    + apply dequeued_wf; [apply Hq|lia].
    + lia.
    + done.
    + replace (Z.to_nat (Z.of_nat q - 1)) with (q - 1)%nat by lia.
      rewrite Hd, decide_False by lia.
      pose proof (lookup_lt_Some _ _ _ Hi). pose proof (lookup_lt_Some _ _ _ Hj).
      rewrite (wf_procs _ (qi_wf _ Hq)) in *.
      apply (queue_room t Hq i j); try done; try lia.
      * intros Hin. destruct (qi_entry _ Hq (q - 1)%nat _ ltac:(lia) Hin)
          as (? & p' & [= <-] & Hi' & _ & Hq''). simplify_eq. lia.
      * eapply not_queued; [done|done|done|lia].
Qed.

(** The effect of ageing on one queue whose aged entries [l1] come first. *)
Record promoted (q : nat) (l1 l2 : list (option nat)) (t t' : ptable) : Prop := {
  pr_inv : qinv t';
  pr_same : same_but_queue t t';
  pr_contents : forall q', (q' < 5)%nat -> qcontents t' q' =
    if decide (q' = q) then l2
    else if decide (q' = (q - 1)%nat) then qcontents t q' ++ l1
    else qcontents t q' }.

Lemma ageing_loop_spec tk q l2 l1 : forall t h fuel,
  qinv t -> spare t -> (1 <= q < 5)%nat -> queue_head t !! q = Some h ->
  qcontents t q = l1 ++ l2 -> (length (l1 ++ l2) < fuel)%nat ->
  (forall e, e ∈ l1 -> aged tk t e = true) -> (forall e, e ∈ l2 -> aged tk t e = false) ->
  exists t', ageing_loop tk q h fuel t = Done tt t' /\ promoted q l1 l2 t t'.
Proof.
  induction l1 as [|e l1 IH]; intros t h fuel Hq Hsp Hq5 Hh Hc Hf Ha Hn.
  - exists t. split.
    + destruct (queue_parts t (qi_wf _ Hq) q ltac:(lia))
        as (h' & k & l & Eh & Ek & El & Hh' & Hk & Hl).
      assert (h' = h) as -> by congruence. simpl in Hc, Hf.
      assert (ring l h (ring_len h k) = l2) as Hring.
      { rewrite <- Hc. unfold qcontents. by rewrite Eh, Ek, El. }
      apply (ageing_loop_rest tk q t l k (ring_len h k)); try done; [lia| |].
      * by rewrite <- Hring, length_ring in Hf.
      * intros e. rewrite Hring. intros He. split; [by apply Hn|].
        destruct (qi_entry _ Hq q e) as (i & p & -> & Hi & _); [lia|by rewrite Hc|].
        simpl. by rewrite Hi.
    + split; [done|done|]. intros q' Hq'. rewrite app_nil_r.
      destruct (decide (q' = q)); [by subst|]. by destruct (decide _).
  - destruct fuel as [|fuel]; [lia|].
    destruct (qi_entry _ Hq q e) as (i & p & -> & Hi & Hs & Hpq);
      [lia|rewrite Hc; set_solver|].
    destruct (queue_head_seq t q h (Some i) (l1 ++ l2) Hq ltac:(lia) Hh Hc)
      as (k & l & Ek & El & Hhk & Hlh).
    pose proof (Ha (Some i) ltac:(set_solver)) as Hai. unfold aged in Hai; simpl in Hai.
    rewrite Hi in Hai.
    destruct (promote_spec t q i (l1 ++ l2) Hq Hsp Hq5 Hc) as (Hq1 & Hs1 & Hc1).
    simpl ageing_loop. munf. rewrite Ek, El. change (default [] (Some l)) with l.
    change (default 0%nat (Some k)) with k. rewrite Hlh, Hi.
    destruct (Nat.eqb_spec h k) as [|_]; [done|]. rewrite Hai.
    rewrite dequeue_run by lia. rewrite enqueue_run by lia. rewrite Hpq in *.
    set (t1 := enqueued (dequeued t (Z.of_nat q)) (Z.of_nat q - 1) i) in *.
    destruct (IH t1 ((h + 1) mod NPROC)%nat fuel) as (t' & E & [Hi' Hs' Hc']); try done.
    + by eapply same_but_queue_spare.
    + unfold t1, enqueued, dequeued; simpl. rewrite Nat2Z.id, Hh.
      rewrite list_lookup_insert_eq by by apply lookup_lt_Some in Hh. done.
    + rewrite Hc1, decide_True by (done || lia). done.
    + simpl in Hf. lia.
    + intros e He. rewrite (same_but_queue_aged _ t) by done. apply Ha. set_solver.
    + intros e He. rewrite (same_but_queue_aged _ t) by done. by apply Hn.
    + exists t'. split; [done|]. split; [done|by eapply same_but_queue_trans|].
      intros q' Hq'. rewrite Hc', Hc1 by done.
      destruct (decide (q' = q)); [done|]. destruct (decide (q' = (q - 1)%nat)); [|done].
      by rewrite <- app_assoc.
Qed.

Lemma ageing_queue_spec tk q t : qinv t -> spare t -> (1 <= q < 5)%nat ->
  aged_first tk t q ->
  exists l1 l2 t', qcontents t q = l1 ++ l2 /\ ageing_queue tk q t = Done tt t' /\
    promoted q l1 l2 t t' /\
    (forall e, e ∈ l1 -> aged tk t e = true) /\ (forall e, e ∈ l2 -> aged tk t e = false).
Proof.
  intros Hq Hsp Hq5 (l1 & l2 & Hc & Ha & Hn). exists l1, l2.
  destruct (queue_parts t (qi_wf _ Hq) q ltac:(lia)) as (h & k & l & Eh & _).
  destruct (ageing_loop_spec tk q l2 l1 t h (S NPROC)) as (t' & E & Hp); try done.
  - rewrite <- Hc. pose proof (length_qcontents t q). lia.
  - exists t'. unfold ageing_queue. munf. rewrite Eh. simpl default. done.
Qed.

Lemma promoted_aged_first tk q q' l1 l2 t t' : promoted q l1 l2 t t' ->
  (q < q' < 5)%nat -> aged_first tk t q' -> aged_first tk t' q'.
Proof.
  intros [_ Hs Hc] Hq' (k1 & k2 & Hk & Ha & Hn). exists k1, k2.
  rewrite Hc by lia. rewrite !decide_False by lia. split; [done|].
  split; intros e He; rewrite (same_but_queue_aged _ t) by done; auto.
Qed.

Lemma ageing_list_spec tk n : forall q t, qinv t -> spare t -> (1 <= q)%nat -> (q + n = 5)%nat ->
  (forall q', (q <= q' < 5)%nat -> aged_first tk t q') ->
  exists t', mfor (seq q n) (ageing_queue tk) t = Done tt t' /\ qinv t' /\
    same_but_queue t t'.
Proof.
  induction n as [|n IH]; intros q t Hq Hsp Hq1 Hqn Haf.
  { exists t. done. }
  destruct (ageing_queue_spec tk q t Hq Hsp ltac:(lia) ltac:(apply Haf; lia))
    as (l1 & l2 & t1 & Hc & E & Hp & _ & _).
  destruct (IH (S q) t1) as (t' & E' & Hq' & Hs'); try lia.
  - apply Hp.
  - eapply same_but_queue_spare; [apply Hp|done].
  - intros q' Hr. apply (promoted_aged_first tk q q' l1 l2 t t1 Hp); [lia|]. apply Haf. lia.
  - exists t'. simpl mfor. rewrite (bind_Done _ _ _ _ _ E). split; [done|]. split; [done|].
    eapply same_but_queue_trans; [apply Hp|done].
Qed.

(** Ageing a table whose queues have their aged entries first keeps the
    invariant and changes nothing but the queues of processes. *)
Lemma ageing_run tk t : qinv t -> spare t ->
  (forall q, (1 <= q < 5)%nat -> aged_first tk t q) ->
  exists t', ageing tk t = Done tt t' /\ qinv t' /\ same_but_queue t t'.
Proof. intros Hq Hsp Haf. apply ageing_list_spec; (done || lia). Qed.

(** ** Several processors *)

Module Smp.
Record sys := Sys { st_table : ptable; st_cpus : list mode }.

(** What [exit] does to the table with the lock held, up to [sched]. *)
Definition exit_table (p : nat) (init : option nat) : M ptable unit :=
  let! t := get in
  wakeup1 (proc_chan (pt_proc t !! p ≫= p_parent)) ;;;
  reparent p init ;;;
  modify (upd p (set_p_state ZOMBIE)).

(** A change of fields other than [state] and [queue]. *)
Definition plain (f : proc -> proc) : Prop :=
  forall p, p_state (f p) = p_state p /\ p_queue (f p) = p_queue p.

(** The statements of [allocproc] under the lock, on the slot it found. *)
Definition alloc_slot (pid : Z) (p : proc) : proc :=
  set_p_queue 0 (set_p_priority 60 (set_p_pid pid (set_p_state EMBRYO p))).

(** One critical section of [ptable.lock], or a write outside it to a process
    only the writer uses. Processor [c] is the one that executes it; in
    [s_yield], [s_sleep] and [s_exit] it goes on in its scheduler. Ageing is
    included where the aged entries of each queue come first; what it does
    otherwise is [ageing_loses_process] below. *)
Inductive step (init : option nat) : sys -> sys -> Prop :=
  | s_dispatch t t' cpus c m : cpus !! c = Some Idle ->
      mlfq_dispatch t = Done m t' ->
      step init (Sys t cpus) (Sys t' (<[c := m]> cpus))
  | s_yield t t' cpus c p a m : cpus !! c = Some (Running p a) ->
      mlfq_back p a (upd p (set_p_state RUNNABLE) t) = Done m t' ->
      step init (Sys t cpus) (Sys t' (<[c := m]> cpus))
  | s_sleep t t' cpus c p a m ch : cpus !! c = Some (Running p a) ->
      mlfq_back p a (upd p (fun q => set_p_state SLEEPING (set_p_chan ch q)) t) = Done m t' ->
      step init (Sys t cpus) (Sys t' (<[c := m]> cpus))
  | s_exit t t1 t' cpus c p a m : cpus !! c = Some (Running p a) ->
      exit_table p init t = Done tt t1 -> mlfq_back p a t1 = Done m t' ->
      step init (Sys t cpus) (Sys t' (<[c := m]> cpus))
  | s_wakeup t t' cpus ch : wakeup1 ch t = Done tt t' ->
      step init (Sys t cpus) (Sys t' cpus)
  | s_kill t t' cpus pid b : kill_scan pid (seq 0 NPROC) t = Done b t' ->
      step init (Sys t cpus) (Sys t' cpus)
  | s_alloc t cpus i pid : p_state <$> pt_proc t !! i = Some UNUSED ->
      step init (Sys t cpus) (Sys (upd i (alloc_slot pid) t) cpus)
  | s_alloc_failed t cpus i : p_state <$> pt_proc t !! i = Some EMBRYO ->
      step init (Sys t cpus) (Sys (upd i (set_p_state UNUSED) t) cpus)
  | s_publish t t' cpus i : p_state <$> pt_proc t !! i = Some EMBRYO ->
      enqueue 0 i (upd i (fun q => set_p_modtime 0 (set_p_state RUNNABLE q)) t) = Done tt t' ->
      step init (Sys t cpus) (Sys t' cpus)
  | s_reap t cpus i : p_state <$> pt_proc t !! i = Some ZOMBIE ->
      step init (Sys t cpus) (Sys (upd i (set_p_state UNUSED) t) cpus)
  | s_plain t cpus i f : plain f ->
      step init (Sys t cpus) (Sys (upd i f t) cpus)
  | s_ageing t t' cpus c tk : cpus !! c = Some Idle -> spare t ->
      (forall q, (1 <= q < 5)%nat -> aged_first tk t q) ->
      ageing tk t = Done tt t' ->
      step init (Sys t cpus) (Sys t' cpus).

(** The states reached while some slot of the table is not RUNNABLE. *)
Inductive reachable (init : option nat) (s0 : sys) : sys -> Prop :=
  | r_refl : reachable init s0 s0
  | r_step s s' : reachable init s0 s -> step init s s' -> spare (st_table s') ->
      reachable init s0 s'.

Definition running (t : ptable) (j : nat) : Prop :=
  p_state <$> pt_proc t !! j = Some RUNNING.

Record cpu_inv (t : ptable) (cpus : list mode) : Prop := {
  ci_running : forall j, running t j <-> exists c a, cpus !! c = Some (Running j a);
  ci_unique : forall c c' j a a', cpus !! c = Some (Running j a) ->
    cpus !! c' = Some (Running j a') -> c = c' }.

Record inv (s : sys) : Prop := {
  i_queues : qinv (st_table s);
  i_cpus : cpu_inv (st_table s) (st_cpus s) }.

Lemma cpu_inv_same t t' cpus : cpu_inv t cpus ->
  (forall j, running t' j <-> running t j) -> cpu_inv t' cpus.
Proof. intros [H1 H2] H. split; [|done]. intros j. by rewrite H, H1. Qed.

Lemma cpu_inv_state t t' cpus : cpu_inv t cpus ->
  (forall j, p_state <$> pt_proc t' !! j = p_state <$> pt_proc t !! j) -> cpu_inv t' cpus.
Proof. intros Hi H. apply cpu_inv_same with t; [done|]. intros j. unfold running. by rewrite H. Qed.

Lemma cpu_inv_start t t' cpus c p a : cpu_inv t cpus -> cpus !! c = Some Idle ->
  ~ running t p -> (forall j, running t' j <-> j = p \/ running t j) ->
  cpu_inv t' (<[c := Running p a]> cpus).
Proof.
  intros [H1 H2] Hc Hnp H. split.
  - intros j. rewrite H. split.
    + intros [->|Hj].
      { exists c, a. apply list_lookup_insert_eq. by apply lookup_lt_Some in Hc. }
      apply H1 in Hj as (c' & a' & Hc'). exists c', a'.
      rewrite list_lookup_insert_ne; [done|]. intros ->. simplify_eq.
    + intros (c' & a' & [(-> & [= <- <-] & _)|[_ Hc']]%list_lookup_insert_Some);
        [by left|right]. apply H1. eauto.
  - intros c1 c2 j a1 a2 [(<- & [= <- <-] & _)|[Hn1 Hc1]]%list_lookup_insert_Some
      [(<- & E & _)|[Hn2 Hc2]]%list_lookup_insert_Some; simplify_eq; [done| | |by eapply H2].
    + exfalso. apply Hnp, H1. eauto.
    + exfalso. apply Hnp, H1. eauto.
Qed.

Lemma cpu_inv_again t t' cpus c p a a' : cpu_inv t cpus ->
  cpus !! c = Some (Running p a) -> (forall j, running t' j <-> running t j) ->
  cpu_inv t' (<[c := Running p a']> cpus).
Proof.
  intros [H1 H2] Hc H. pose proof (lookup_lt_Some _ _ _ Hc) as Hlt. split.
  - intros j. rewrite H, H1. split.
    + intros (c1 & a1 & Hc1). destruct (decide (c = c1)) as [->|Hne]; simplify_eq.
      * exists c1, a'. by apply list_lookup_insert_eq.
      * exists c1, a1. by rewrite list_lookup_insert_ne.
    + intros (c1 & a1 & [(-> & [= <- <-] & _)|[_ Hc1]]%list_lookup_insert_Some); eauto.
  - intros c1 c2 j a1 a2 [(<- & [= <- <-] & _)|[Hn1 Hc1]]%list_lookup_insert_Some
      [(<- & E & _)|[Hn2 Hc2]]%list_lookup_insert_Some; simplify_eq; eauto.
Qed.

Lemma cpu_inv_stop t t' cpus c p a : cpu_inv t cpus -> cpus !! c = Some (Running p a) ->
  (forall j, running t' j <-> j <> p /\ running t j) ->
  cpu_inv t' (<[c := Idle]> cpus).
Proof.
  intros [H1 H2] Hc H. split.
  - intros j. rewrite H, H1. split.
    + intros (Hj & c1 & a1 & Hc1). exists c1, a1. rewrite list_lookup_insert_ne; [done|].
      intros ->. simplify_eq.
    + intros (c1 & a1 & [(_ & [=] & _)|[Hne Hc1]]%list_lookup_insert_Some).
      split; [|eauto]. intros ->. apply Hne. by eapply H2.
  - intros c1 c2 j a1 a2 [(_ & [=] & _)|[Hn1 Hc1]]%list_lookup_insert_Some
      [(_ & [=] & _)|[Hn2 Hc2]]%list_lookup_insert_Some. by eapply H2.
Qed.

Lemma continued_inv t0 t cpus c p a m t' : cpu_inv t0 cpus ->
  cpus !! c = Some (Running p a) -> same_others p t0 t ->
  continued p t m t' -> cpu_inv t' (<[c := m]> cpus).
Proof.
  intros Hci Hc Hso [_ Ho [->|[a' ->]] Hst].
  - eapply cpu_inv_stop; [done|done|]. intros j. unfold running.
    destruct (decide (j = p)) as [->|Hne]; [rewrite Hst; split; [done|intros [Hx _]; by destruct Hx]|].
    rewrite Ho, Hso by done. tauto.
  - eapply cpu_inv_again; [done|done|]. intros j. unfold running.
    destruct (decide (j = p)) as [->|Hne].
    + rewrite Hst. split; [intros _|done]. apply (ci_running _ _ Hci). eauto.
    + by rewrite Ho, Hso.
Qed.

(** [swtch] comes back from a process that is not RUNNABLE. *)
Lemma back_not_runnable t p pr a : pt_proc t !! p = Some pr -> p_state pr <> RUNNABLE ->
  mlfq_back p a t = Done Idle t.
Proof.
  intros Hp Hs. assert (is_runnable p t = false) as Er.
  { rewrite (is_runnable_true _ _ _ Hp). by apply bool_decide_eq_false_2. }
  unfold mlfq_back, mlfq_requeue. munf. by rewrite Er, Hp, Er.
Qed.

Lemma running_proc s c p a : inv s -> st_cpus s !! c = Some (Running p a) ->
  exists pr, pt_proc (st_table s) !! p = Some pr /\ p_state pr = RUNNING.
Proof.
  intros [_ [H _]] Hc. assert (running (st_table s) p) as Hr by (apply H; eauto).
  unfold running in Hr. destruct (pt_proc (st_table s) !! p) as [pr|]; simplify_eq/=. eauto.
Qed.

(** A RUNNING process that becomes RUNNABLE in [yield] is off its queue. *)
Lemma yield_off t p pr : qinv t -> pt_proc t !! p = Some pr -> p_state pr = RUNNING ->
  off (upd p (set_p_state RUNNABLE) t) p.
Proof.
  intros Hq Hp Hs. split.
  - rewrite upd_upd. rewrite upd_same with (p := pr); [done|done|].
    rewrite <- Hs. by destruct pr.
  - exists (set_p_state RUNNABLE pr). split; [by apply upd_self|done].
Qed.

Lemma yield_back t p pr a : qinv t -> pt_proc t !! p = Some pr -> p_state pr = RUNNING ->
  exists m t', mlfq_back p a (upd p (set_p_state RUNNABLE) t) = Done m t' /\
    continued p (upd p (set_p_state RUNNABLE) t) m t'.
Proof.
  intros Hq Hp Hs. unfold mlfq_back. munf.
  rewrite (is_runnable_true _ _ _ (upd_self p _ t pr Hp)), bool_decide_eq_true_2 by done.
  apply slice_continue_spec. by eapply yield_off.
Qed.

(** The table after process [p] stopped running for a state that is not
    RUNNABLE. *)
Lemma stopped_inv t cpus c p pr a f : inv (Sys t cpus) -> cpus !! c = Some (Running p a) ->
  pt_proc t !! p = Some pr -> p_state pr = RUNNING ->
  (forall q, p_state (f q) <> RUNNABLE /\ p_state (f q) <> RUNNING /\
     p_queue (f q) = p_queue q) ->
  inv (Sys (upd p f t) (<[c := Idle]> cpus)).
Proof.
  intros [Hq Hci] Hc Hp Hs Hf. simpl in *. split; simpl.
  - apply upd_qinv; [done|]. intros q Hl. assert (q = pr) as -> by congruence.
    destruct (Hf pr) as (H1 & H2 & H3). split; [rewrite Hs; split; congruence|].
    rewrite H3. split; [exact (qi_range _ Hq _ _ Hp)|congruence].
  - eapply cpu_inv_stop; [done|done|]. intros j. unfold running.
    destruct (decide (j = p)) as [->|Hne].
    + rewrite (upd_self _ _ _ _ Hp). simpl. destruct (Hf pr) as (_ & H2 & _).
      split; [congruence|intros [Hx _]; by destruct Hx].
    + rewrite upd_other by done. tauto.
Qed.

Lemma woken_running c p : p_state (woken c p) = RUNNING <-> p_state p = RUNNING.
Proof.
  unfold woken. destruct (_ && _) eqn:E; [|done].
  apply andb_prop in E as [E%bool_decide_eq_true _]. simpl. rewrite E. done.
Qed.

Lemma fmap_running (f : proc -> proc) (o : option proc) :
  (forall p, p_state (f p) = RUNNING <-> p_state p = RUNNING) ->
  p_state <$> (f <$> o) = Some RUNNING <-> p_state <$> o = Some RUNNING.
Proof.
  intros H. destruct o as [p|]; simpl; [|done].
  split; intros [= E]; f_equal; by apply H.
Qed.

Lemma running_spare t p : running t p -> spare t.
Proof.
  unfold running. destruct (pt_proc t !! p) as [pr|] eqn:E; intros H; simplify_eq/=.
  exists p, pr. split; [done|]. congruence.
Qed.

Lemma exit_table_spec init t p : qinv t -> running t p ->
  exists t2, exit_table p init t = Done tt (upd p (set_p_state ZOMBIE) t2) /\
    qinv t2 /\ forall j, running t2 j <-> running t j.
Proof.
  intros Hq Hp. pose proof (qi_wf _ Hq) as Hwf.
  set (ch := proc_chan (pt_proc t !! p ≫= p_parent)).
  destruct (wakeup1_run ch t (qi_range _ Hq) (wf_procs _ Hwf)) as (t1 & E1 & L1 & _ & _ & R1 & Q1).
  assert (forall j, running t1 j <-> running t j) as H1.
  { intros j. unfold running. rewrite L1, list_lookup_fmap. apply fmap_running, woken_running. }
  assert (qinv t1) as Hq1 by (apply Q1; [done|apply running_spare with p; by apply H1]).
  destruct (reparent_run p init t1 (qi_range _ Hq1) (wf_procs _ (qi_wf _ Hq1)))
    as (t2 & E2 & A2).
  assert (forall j, running t2 j <-> running t1 j) as H2.
  { intros j. unfold running. rewrite (ad_lookup _ _ _ _ _ _ A2). apply fmap_running.
    intros q. unfold wake_init. destruct (existsb _ _); rewrite ?woken_running;
      unfold adopt; by destruct (bool_decide _). }
  exists t2. split.
  { unfold exit_table. munf. fold ch. rewrite E1, E2. done. }
  split; [|intros j; by rewrite H2, H1].
  apply (ad_qinv _ _ _ _ _ _ A2); [done|]. apply running_spare with p. by apply H2, H1.
Qed.

(** A step on a process that neither was nor becomes RUNNING or RUNNABLE. *)
Lemma quiet_inv t cpus i st f : inv (Sys t cpus) -> p_state <$> pt_proc t !! i = Some st ->
  st <> RUNNABLE -> st <> RUNNING ->
  (forall p, p_state (f p) <> RUNNABLE /\ p_state (f p) <> RUNNING /\
    (0 <= p_queue p <= 4 -> 0 <= p_queue (f p) <= 4)) ->
  inv (Sys (upd i f t) cpus).
Proof.
  intros [Hq Hci] Hi Hs1 Hs2 Hf. simpl in *.
  destruct (pt_proc t !! i) as [p|] eqn:Hp; simplify_eq/=. destruct (Hf p) as (F1 & F2 & F3).
  split; simpl.
  - apply upd_qinv; [done|]. intros q Hl. assert (q = p) as -> by congruence.
    split; [tauto|]. split; [exact (F3 (qi_range _ Hq _ _ Hp))|tauto].
  - eapply cpu_inv_same; [done|]. intros j. unfold running.
    destruct (decide (i = j)) as [<-|Hne]; [|by rewrite upd_other].
    rewrite (upd_self _ _ _ _ Hp), Hp. simpl. split; intros [= E]; tauto.
Qed.

Lemma plain_inv t cpus i f : inv (Sys t cpus) -> plain f -> inv (Sys (upd i f t) cpus).
Proof.
  intros [Hq Hci] Hf. simpl in *. split; simpl.
  - apply upd_qinv; [done|]. intros q Hl. destruct (Hf q) as [-> ->]. split; [done|].
    split; [exact (qi_range _ Hq _ _ Hl)|done].
  - eapply cpu_inv_state; [done|]. intros j. destruct (decide (i = j)) as [<-|Hne].
    + simpl. rewrite list_lookup_alter_eq. destruct (pt_proc t !! i) as [p|]; simpl; [|done].
      by destruct (Hf p) as [-> _].
    + by rewrite upd_other.
Qed.

Lemma publish_inv t t' cpus i : inv (Sys t cpus) ->
  p_state <$> pt_proc t !! i = Some EMBRYO ->
  enqueue 0 i (upd i (fun q => set_p_modtime 0 (set_p_state RUNNABLE q)) t) = Done tt t' ->
  spare t' -> inv (Sys t' cpus).
Proof.
  intros [Hq Hci] Hi E (j & pj & Hj & Hsj). simpl in *.
  destruct (pt_proc t !! i) as [p|] eqn:Hp; simplify_eq/=.
  rewrite enqueue_run in E by lia. injection E as <-.
  set (t1 := upd i (set_p_modtime 0) t).
  assert (qinv t1) as Hq1.
  { apply upd_qinv; [done|]. intros q Hl. split; [done|].
    split; [exact (qi_range _ Hq _ _ Hl)|done]. }
  assert (enqueued (upd i (fun q => set_p_modtime 0 (set_p_state RUNNABLE q)) t) 0 i =
    make_runnable 0 i t1) as Em by (unfold make_runnable, t1; by rewrite upd_upd).
  rewrite Em in *. assert (pt_proc t1 !! i = Some (set_p_modtime 0 p)) as Hp1 by by apply upd_self.
  assert (forall k, i <> k -> pt_proc (make_runnable 0 i t1) !! k = pt_proc t !! k) as Ho.
  { intros k Hk. unfold make_runnable, t1. by rewrite enqueued_other, !upd_other. }
  assert (pt_proc (make_runnable 0 i t1) !! i =
    Some (set_p_queue 0 (set_p_state RUNNABLE (set_p_modtime 0 p)))) as Hs'.
  { apply enqueued_self. by apply upd_self. }
  assert (i <> j) as Hij by (intros <-; simplify_eq/=).
  split; simpl.
  - apply (make_runnable_qinv t1 Hq1) with (set_p_modtime 0 p); [lia|done|simpl; congruence|].
    exists j, pj. split; [done|]. unfold t1. rewrite upd_other by done.
    by rewrite <- (Ho j).
  - eapply cpu_inv_same; [done|]. intros k. unfold running.
    destruct (decide (i = k)) as [<-|Hk]; [|by rewrite Ho].
    rewrite Hs', Hp. simpl. split; congruence.
Qed.

Lemma dispatch_inv t cpus c : inv (Sys t cpus) -> cpus !! c = Some Idle ->
  exists m t', mlfq_dispatch t = Done m t' /\ inv (Sys t' (<[c := m]> cpus)).
Proof.
  intros [Hq Hci] Hc. simpl in *. pose proof (mlfq_dispatch_spec t Hq) as H.
  destruct (pick_mlfq t) as [p|].
  - destruct H as (t' & E & Hq' & Ho & Hp & Hp'). exists (Running p 0), t'.
    split; [done|]. split; simpl; [done|].
    eapply cpu_inv_start; [done|done|unfold running; rewrite Hp; congruence|].
    intros j. unfold running. destruct (decide (j = p)) as [->|Hne]; [tauto|].
    rewrite Ho by done. tauto.
  - exists Idle, t. split; [done|]. by rewrite list_insert_id.
Qed.

Lemma yield_inv t cpus c p a : inv (Sys t cpus) -> cpus !! c = Some (Running p a) ->
  exists m t', mlfq_back p a (upd p (set_p_state RUNNABLE) t) = Done m t' /\
    (spare t' -> inv (Sys t' (<[c := m]> cpus))).
Proof.
  intros Hinv Hc. destruct (running_proc _ c p a Hinv Hc) as (pr & Hp & Hs).
  destruct Hinv as [Hq Hci]. simpl in *.
  destruct (yield_back t p pr a Hq Hp Hs) as (m & t' & E & Hct).
  exists m, t'. split; [done|]. intros Hsp. split; simpl; [by apply Hct|].
  eapply continued_inv; [exact Hci|done| |done]. intros j Hj. by apply upd_other.
Qed.

Lemma sleep_inv t cpus c p a ch : inv (Sys t cpus) -> cpus !! c = Some (Running p a) ->
  let t' := upd p (fun q => set_p_state SLEEPING (set_p_chan ch q)) t in
  mlfq_back p a t' = Done Idle t' /\ inv (Sys t' (<[c := Idle]> cpus)).
Proof.
  intros Hinv Hc t'. destruct (running_proc _ c p a Hinv Hc) as (pr & Hp & Hs).
  split; [|by eapply stopped_inv].
  eapply back_not_runnable; [by apply upd_self|done].
Qed.

Lemma exit_inv init t cpus c p a : inv (Sys t cpus) -> cpus !! c = Some (Running p a) ->
  exists t', exit_table p init t = Done tt t' /\ mlfq_back p a t' = Done Idle t' /\
    inv (Sys t' (<[c := Idle]> cpus)).
Proof.
  intros Hinv Hc. destruct (running_proc _ c p a Hinv Hc) as (pr & Hp & Hs).
  assert (running t p) as Hr by (unfold running; simpl in Hp; rewrite Hp; simpl; congruence).
  destruct Hinv as [Hq Hci]. destruct (exit_table_spec init t p Hq Hr) as (t2 & E & Hq2 & H2).
  assert (inv (Sys t2 cpus)) as Hinv2.
  { split; simpl; [done|]. by eapply cpu_inv_same. }
  destruct (running_proc _ c p a Hinv2 Hc) as (pr2 & Hp2 & Hs2). simpl in *.
  eexists. split; [done|]. split; [|by eapply stopped_inv].
  eapply back_not_runnable; [by apply upd_self|done].
Qed.

Lemma wakeup_inv t cpus ch : inv (Sys t cpus) ->
  exists t', wakeup1 ch t = Done tt t' /\ (spare t' -> inv (Sys t' cpus)).
Proof.
  intros [Hq Hci]. simpl in *.
  destruct (wakeup1_run ch t (qi_range _ Hq) (wf_procs _ (qi_wf _ Hq)))
    as (t' & E & L & _ & _ & _ & Q).
  exists t'. split; [done|]. intros Hsp. split; simpl; [auto|].
  eapply cpu_inv_same; [done|]. intros j. unfold running. rewrite L, list_lookup_fmap.
  apply fmap_running, woken_running.
Qed.

Lemma kill_inv t cpus pid : inv (Sys t cpus) ->
  exists b t', kill_scan pid (seq 0 NPROC) t = Done b t' /\ (spare t' -> inv (Sys t' cpus)).
Proof.
  intros [Hq Hci]. cbn [st_table st_cpus] in *.
  destruct (kill_scan_run pid (seq 0 NPROC) t (qi_range _ Hq)) as (t' & E & L & _ & Q).
  { intros i Hi%elem_of_seq. apply lookup_lt_is_Some_2.
    rewrite (wf_procs _ (qi_wf _ Hq)). lia. }
  eexists _, t'. split; [done|]. intros Hsp. split; simpl; [auto|].
  eapply cpu_inv_same; [done|]. intros j. unfold running. rewrite L.
  destruct (list_find _ _) as [[n i]|]; [|done]. destruct (decide (i = j)); [|done].
  apply fmap_running. intros p. unfold killed.
  destruct (bool_decide (p_state p = SLEEPING)) eqn:Ep; [|done].
  apply bool_decide_eq_true in Ep. simpl. by rewrite Ep.
Qed.

Lemma step_inv init s s' : inv s -> step init s s' -> spare (st_table s') -> inv s'.
Proof.
  intros Hinv Hst Hsp.
  destruct Hst as
    [t t' cpus c m Hc E|t t' cpus c p a m Hc E|t t' cpus c p a m ch Hc E
    |t t1 t' cpus c p a m Hc E E'|t t' cpus ch E|t t' cpus pid b E|t cpus i pid Hi
    |t cpus i Hi|t t' cpus i Hi E|t cpus i Hi|t cpus i f Hf|t t' cpus c tk Hc Hsp0 Haf E];
    cbn [st_table] in Hsp.
  - destruct (dispatch_inv t cpus c Hinv Hc) as (m1 & t1 & E1 & H1). by mdet.
  - destruct (yield_inv t cpus c p a Hinv Hc) as (m1 & t1 & E1 & H1). mdet. auto.
  - destruct (sleep_inv t cpus c p a ch Hinv Hc) as (E1 & H1). by mdet.
  - destruct (exit_inv init t cpus c p a Hinv Hc) as (t2 & E1 & E2 & H1). by mdet.
  - destruct (wakeup_inv t cpus ch Hinv) as (t1 & E1 & H1). mdet. auto.
  - destruct (kill_inv t cpus pid Hinv) as (b1 & t1 & E1 & H1). mdet. auto.
  - eapply quiet_inv; [done|done|done|done|]. intros p. done.
  - eapply quiet_inv; [done|done|done|done|]. intros p. done.
  - by eapply publish_inv.
  - eapply quiet_inv; [done|done|done|done|]. intros p. done.
  - by apply plain_inv.
  - destruct Hinv as [Hq Hci]. simpl in *.
    destruct (ageing_run tk t Hq Hsp0 Haf) as (t1 & E1 & Hq1 & Hs1). mdet.
    split; simpl; [done|]. eapply cpu_inv_state; [done|].
    intros j. by apply same_but_queue_state.
Qed.

Definition boot (ncpu : nat) : sys := Sys zero_ptable (replicate ncpu Idle).

Lemma boot_inv ncpu : inv (boot ncpu).
Proof.
  split; [apply zero_ptable_qinv|]. split.
  - intros j. unfold running. split.
    + destruct (pt_proc (st_table (boot ncpu)) !! j) as [p|] eqn:E; [|done].
      by apply lookup_replicate in E as [-> _].
    + by intros (c & a & [? _]%lookup_replicate).
  - by intros c c' j a a' [? _]%lookup_replicate.
Qed.

Lemma mlfq_inv_reachable ncpu init s : reachable init (boot ncpu) s -> inv s.
Proof.
  induction 1 as [|s s' Hr IH Hst Hsp]; [apply boot_inv|]. by eapply step_inv.
Qed.


(** A slot is allocated, published and dispatched on the second of two
    processors. *)
Definition sample_table : ptable :=
  make_runnable 0 0 (upd 0 (set_p_modtime 0) (upd 0 (alloc_slot 1) zero_ptable)).
End Smp.

(** ** What ageing does when the aged entries do not come first *)

(** Queue 1 holds process 0, which ran at tick 5000, and behind it process 1,
    which has not run since tick 0 (it has just been woken). *)
Definition mixed_table : ptable :=
  make_runnable 1 1 (make_runnable 1 0 (upd 0 (set_p_last_executed 5000) zero_ptable)).

Lemma mixed_table_ok : qinv mixed_table /\ spare mixed_table.
Proof.
  split; [|by exists 2%nat, zero_proc].
  apply make_runnable_qinv with zero_proc; [|lia|done|done|by exists 2%nat, zero_proc].
  apply make_runnable_qinv with (set_p_last_executed 5000 zero_proc);
    [|lia|done|done|by exists 2%nat, zero_proc].
  apply upd_qinv; [apply zero_ptable_qinv|]. intros p [= <-]. done.
Qed.

(** Ageing takes the head off the queue, not the entry it found old: from a
    table in order, it leaves process 0 RUNNABLE and in no queue, process 1 in
    two queues, and the scheduler panics when it meets process 1 again after
    that has gone to sleep. *)
Theorem ageing_loses_process : qinv mixed_table /\ spare mixed_table /\
  exists t t1, ageing 5500 mixed_table = Done tt t /\
    p_state <$> pt_proc t !! 0%nat = Some RUNNABLE /\
    (forall q, (q < 5)%nat -> Some 0%nat ∉ qcontents t q) /\
    Some 1%nat ∈ qcontents t 0 /\ Some 1%nat ∈ qcontents t 1 /\
    mlfq_dispatch t = Done (Running 1 0) t1 /\
    mlfq_dispatch (upd 1 (set_p_state SLEEPING) t1) = Panic "process is sleeping".
Proof.
  destruct mixed_table_ok as [Hq Hs]. split; [done|]. split; [done|].
  eexists _, _. split; [vm_compute; reflexivity|]. split; [done|]. split; [|split; [|split]].
  - intros q Hq5 Hin. do 5 (destruct q as [|q];
      [vm_compute in Hin; repeat (apply elem_of_cons in Hin as [|Hin]; [done|]);
       by apply elem_of_nil in Hin|]). lia.
  - by left.
  - by left.
  - split; [vm_compute; reflexivity|]. vm_compute. reflexivity.
Qed.
