(* ===== verification/ProcSpec.v ===== *)
(** * What the process system calls do (theorems on Proc.v)

    Each routine is run from a state where [ptable.lock] is free and the
    processor's interrupt bookkeeping is in order ([ready]); the theorems give its
    result and the table it leaves, with the lock free again and the interrupt
    flag as before. *)

From stdpp Require Import base tactics numbers list sets strings.
From Stdlib Require Import ZArith Lia ZifyNat.
From S2P Require Import Prelude Layout Spinlock CString PTable RunQueue Proc Mlfq.

#[local] Arguments Nat.modulo : simpl never.
#[local] Opaque NPROC.

(** ** The lock around a critical section *)

Lemma wf_set_lock l t : ptable_wf t -> ptable_wf (set_pt_lock l t).
Proof. by intros []. Qed.

Lemma qinv_set_lock l t : qinv t -> qinv (set_pt_lock l t).
Proof. intros [Hwf ? ? ? ?]. split; [by apply wf_set_lock|assumption..]. Qed.

Lemma spare_set_lock l t : spare (set_pt_lock l t) <-> spare t.
Proof. done. Qed.

(** [pnf] reduces field accesses and updates of a state given by its fields;
    [pstep] runs the statements at the head of the code that need no lemma. *)
Ltac pnf := cbv beta iota delta [set_ps_cpu set_ps_hw set_ps_table set_ps_initproc set_ps_nextpid set_ps_flag
  set_ps_first set_ps_ticks set_ps_kpgdir set_ps_env ps_cpu ps_hw ps_table ps_initproc
  ps_nextpid ps_flag ps_first ps_ticks ps_kpgdir ps_env lget lset].
Ltac pstep := pnf; repeat (erewrite bind_Done; [|reflexivity]; pnf).

Lemma popped_popped c : popped (popped c) = popped c.
Proof. unfold popped; simpl. by destruct (ncli c =? 0). Qed.

(** What every system call leaves of the processor: the nesting depth, the
    interrupt flag and the current process are those before. *)
Definition same_cpu (c c' : cpu) : Prop :=
  cpu_ok c' /\ ncli c' = ncli c /\ eflags_if c' = eflags_if c /\ cpu_proc c' = cpu_proc c.

Lemma same_cpu_popped c : cpu_ok c -> same_cpu c (popped c).
Proof. intros H. split; [by apply cpu_ok_popped|done]. Qed.

(** The processor and the lock after a system call, from [H : ready s]. *)
Ltac restored H :=
  simpl; rewrite ?popped_popped; split; [split; [by apply cpu_ok_popped, (proj1 H)|done]|];
  split; [by apply same_cpu_popped, (proj1 H)|].

Section Critical.
Context {E : Type} {HE : KernelEnv E}.
Variable me : nat.
Variable callers : list Z.
Implicit Types (s : pstate E).

Definition ready s : Prop := cpu_ok (ps_cpu s) /\ free_lock (pt_lock (ps_table s)).

(** The state inside the critical section, and the one after it with table [t]. *)
Definition locked_state s : pstate E :=
  set_ps_table (set_pt_lock (taken (pt_lock (ps_table s)) me callers) (ps_table s))
    (set_ps_cpu (pushed (ps_cpu s)) s).
Definition unlocked_state s : pstate E :=
  set_ps_table (set_pt_lock (freed (pt_lock (ps_table s))) (ps_table s)) s.

Lemma acquire_pt_run s : ready s -> acquire_pt me callers s = Done tt (locked_state s).
Proof.
  intros [Hc Hl]. unfold acquire_pt, zoom; simpl. by rewrite acquire_run.
Qed.

Lemma release_pt_run s c : cpu_ok c -> ps_cpu s = pushed c ->
  held_by (pt_lock (ps_table s)) me ->
  release_pt me s = Done tt (set_ps_cpu (popped c) (unlocked_state s)).
Proof.
  intros Hc Hs Hl. unfold release_pt, zoom; simpl. rewrite Hs, release_run by done.
  by destruct s.
Qed.

Lemma release_locked s t' : ready s -> pt_lock t' = taken (pt_lock (ps_table s)) me callers ->
  release_pt me (set_ps_table t' (locked_state s)) =
  Done tt (set_ps_cpu (popped (ps_cpu s))
    (set_ps_table (set_pt_lock (freed (pt_lock t')) t') s)).
Proof.
  intros [Hc Hl] Ht. rewrite (release_pt_run _ (ps_cpu s)); [by destruct s|done|done|].
  simpl. by rewrite Ht.
Qed.

Lemma myproc_run s : cpu_ok (ps_cpu s) ->
  myproc me s = Done (cpu_proc (ps_cpu s)) (set_ps_cpu (popped (ps_cpu s)) s).
Proof.
  intros Hc. unfold myproc, oncpu, m_bind, zoom, gets; simpl.
  rewrite pushcli_run. simpl. by rewrite popcli_run.
Qed.

Lemma curproc_run s i p : cpu_ok (ps_cpu s) -> cpu_proc (ps_cpu s) = Some i ->
  pt_proc (ps_table s) !! i = Some p ->
  curproc me s = Done (i, p) (set_ps_cpu (popped (ps_cpu s)) s).
Proof.
  intros Hc Hi Hp. unfold curproc. rewrite (bind_Done _ _ _ _ _ (myproc_run s Hc)).
  rewrite Hi. unfold getp. munf. simpl. by rewrite Hp.
Qed.

Lemma ready_popped s : ready s -> ready (set_ps_cpu (popped (ps_cpu s)) s).
Proof. intros [Hc Hl]. split; [by apply cpu_ok_popped|done]. Qed.

(** ** [kill] *)

(** The entry [kill pid] acts on: the first one with that pid. *)
Definition first_with_pid (pid : Z) (t : ptable) : option nat :=
  snd <$> list_find (fun i => p_pid <$> pt_proc t !! i = Some pid) (seq 0 NPROC).

Lemma kill_run pid s : ready s -> qinv (ps_table s) ->
  exists s', kill me callers pid s =
      Done (match first_with_pid pid (ps_table s) with Some _ => 0 | None => -1 end) s' /\
    ready s' /\ same_cpu (ps_cpu s) (ps_cpu s') /\
    (forall j, pt_proc (ps_table s') !! j =
      if decide (first_with_pid pid (ps_table s) = Some j)
      then killed <$> pt_proc (ps_table s) !! j else pt_proc (ps_table s) !! j) /\
    (spare (ps_table s') -> qinv (ps_table s')).
Proof.
  intros Hr Hq. unfold kill. rewrite (bind_Done _ _ _ _ _ (acquire_pt_run s Hr)).
  set (t := ps_table (locked_state s)).
  assert (qinv t) as Hqt by by apply qinv_set_lock.
  destruct (kill_scan_run pid (seq 0 NPROC) t (qi_range _ Hqt)) as (t' & E' & L & K & Q).
  { intros i Hi%elem_of_seq. apply lookup_lt_is_Some_2.
    rewrite (wf_procs _ (qi_wf _ Hqt)). lia. }
  unfold table. erewrite bind_Done by (by apply zoom_Done).
  rewrite (bind_Done _ _ _ _ _ (release_locked s t' Hr K)).
  unfold first_with_pid. change (pt_proc (ps_table s)) with (pt_proc t).
  eexists. split; [|split; [|split; [|split]]].
  - unfold m_ret. clear. destruct (list_find _ _) as [[??]|]; reflexivity.
  - split; [by apply cpu_ok_popped, Hr|]. done.
  - by apply same_cpu_popped, Hr.
  - intros j. simpl. rewrite L. destruct (list_find _ _) as [[n i]|]; simpl; [|done].
    destruct (decide (i = j)) as [->|Hne]; [by rewrite decide_True|].
    by rewrite decide_False by congruence.
  - intros Hsp. by apply qinv_set_lock, Q.
Qed.

(** ** [allocproc] *)

Variables trapret forkret_addr tss_addr initcode_size : Z.

(** The slot found, initialised up to the kernel stack. *)
Definition claimed (n tk : Z) (p : proc) : proc :=
  init_times tk (set_p_queue 0 (set_p_priority 60 (set_p_pid n (set_p_state EMBRYO p)))).
Definition fresh_proc (n tk k : Z) (p : proc) : proc :=
  init_stack trapret forkret_addr k (set_p_kstack k (claimed n tk p)).

Definition first_unused (t : ptable) : option nat :=
  find_idx (fun p => bool_decide (p_state p = UNUSED)) 0 (pt_proc t).

(** The state after [allocproc] left slot [i] as [f p] and the memory as [e]. *)
Definition after_alloc (i : nat) (f : proc -> proc) (e : E) s : pstate E :=
  PState (popped (ps_cpu s)) (ps_hw s)
    (upd i f (set_pt_lock (freed (taken (pt_lock (ps_table s)) me callers)) (ps_table s)))
    (ps_initproc s) (s32 (ps_nextpid s + 1)) (ps_flag s) (ps_first s) (ps_ticks s)
    (ps_kpgdir s) e.

Lemma upd_set_lock i f l t : upd i f (set_pt_lock l t) = set_pt_lock l (upd i f t).
Proof. done. Qed.

Lemma upd_compose i f g t : upd i f (upd i g t) = upd i (f ∘ g) t.
Proof. exact (upd_upd i f g t). Qed.

Lemma pt_lock_upd i f t : pt_lock (upd i f t) = pt_lock t.
Proof. done. Qed.

Lemma pt_lock_set_lock l t : pt_lock (set_pt_lock l t) = l.
Proof. done. Qed.

Lemma set_lock_set_lock l l' t : set_pt_lock l (set_pt_lock l' t) = set_pt_lock l t.
Proof. done. Qed.

(** Merging consecutive updates of one process. *)
Ltac merge_upd := repeat (rewrite <- ?upd_set_lock;
  rewrite ?upd_compose, ?pt_lock_upd, ?pt_lock_set_lock, ?set_lock_set_lock).

Lemma allocproc_full s : ready s -> first_unused (ps_table s) = None ->
  allocproc me callers trapret forkret_addr s =
  Done None (set_ps_cpu (popped (ps_cpu s)) (set_ps_table
    (set_pt_lock (freed (taken (pt_lock (ps_table s)) me callers)) (ps_table s)) s)).
Proof.
  intros Hr Hn. unfold allocproc. rewrite (bind_Done _ _ _ _ _ (acquire_pt_run s Hr)).
  unfold gets at 1, m_bind at 1. fold (first_unused (ps_table (locked_state s))).
  change (first_unused (ps_table (locked_state s))) with (first_unused (ps_table s)).
  rewrite Hn. pose proof (release_locked s (ps_table (locked_state s)) Hr eq_refl) as E1.
  unfold m_bind. replace (locked_state s) with
    (set_ps_table (ps_table (locked_state s)) (locked_state s)) by by destruct s.
  rewrite E1. by destruct s.
Qed.

Lemma allocproc_found s i k e : ready s -> first_unused (ps_table s) = Some i ->
  kalloc (ps_env s) = Done k e ->
  allocproc me callers trapret forkret_addr s =
  if k =? 0
  then Done None (after_alloc i (fun p => set_p_state UNUSED
         (set_p_kstack 0 (claimed (ps_nextpid s) (ps_ticks s) p))) e s)
  else Done (Some i) (after_alloc i (fresh_proc (ps_nextpid s) (ps_ticks s) k) e s).
Proof.
  intros Hr Hi Hk. unfold allocproc. rewrite (bind_Done _ _ _ _ _ (acquire_pt_run s Hr)).
  unfold gets at 1, m_bind at 1. fold (first_unused (ps_table (locked_state s))).
  change (first_unused (ps_table (locked_state s))) with (first_unused (ps_table s)).
  rewrite Hi. unfold setp. repeat (erewrite bind_Done; [|reflexivity]).
  erewrite bind_Done by (apply (release_pt_run _ (ps_cpu s)); [apply Hr|done|done]).
  unfold env. destruct s as [c h t ip np fl fi tk kp en]. simpl in *. munf. simpl. rewrite Hk.
  destruct (Z.eqb_spec k 0) as [->|]; unfold after_alloc, unlocked_state; simpl; merge_upd; done.
Qed.

(** ** [fork] *)

(** The child's file table: the parent's open files over what the slot had. *)
Fixpoint dup_list (i : nat) (files dst : list Z) : list Z :=
  match files with
  | [] => dst
  | f :: files => dup_list (S i) files (if f =? 0 then dst else <[i := f]> dst)
  end.

Lemma dup_list_lookup files : forall i dst j, (i + length files <= length dst)%nat ->
  dup_list i files dst !! j =
  match (if (j <? i)%nat then None else files !! (j - i)%nat) with
  | Some f => if f =? 0 then dst !! j else Some f
  | None => dst !! j
  end.
Proof.
  induction files as [|f files IH]; intros i dst j Hl; simpl in *.
  { by destruct (j <? i)%nat. }
  rewrite IH by (destruct (f =? 0); rewrite ?length_insert; lia).
  destruct (Nat.ltb_spec j (S i)), (Nat.ltb_spec j i); try lia.
  - destruct (f =? 0); [done|]. by rewrite list_lookup_insert_ne by lia.
  - assert (j = i) as -> by lia. rewrite Nat.sub_diag. simpl. destruct (f =? 0); [done|].
    apply list_lookup_insert_eq. lia.
  - replace (j - i)%nat with (S (j - S i)) by lia. simpl.
    destruct (files !! (j - S i)%nat) as [g|]; [destruct (g =? 0); [|done]|];
      destruct (f =? 0); try done; by rewrite list_lookup_insert_ne by lia.
Qed.

(** [filedup] and [idup] return their argument. *)
Definition dup_laws : Prop :=
  (forall f e, f <> 0 -> exists e', filedup f e = Done f e') /\
  (forall w e, exists e', idup w e = Done w e').

Lemma dup_files_run np files : dup_laws -> forall i s,
  exists e', dup_files np i files s = Done tt (set_ps_env e' (set_ps_table
    (upd np (fun q => set_p_ofile (dup_list i files (p_ofile q)) q) (ps_table s)) s)).
Proof.
  intros [Hdup _]. induction files as [|f files IH]; intros i s; simpl.
  - exists (ps_env s). unfold m_ret. f_equal. destruct s as [? ? t ? ? ? ? ? ? ?]; simpl.
    f_equal. symmetry. unfold upd. rewrite list_alter_id by by intros []. by destruct t.
  - unfold when. destruct (Z.eqb_spec f 0) as [->|Hf]; simpl negb; cbv iota.
    + erewrite bind_Done by reflexivity. apply IH.
    + destruct (Hdup f (ps_env s) Hf) as [e1 E1].
      rewrite bind_assoc. erewrite bind_Done by (apply zoom_Done; exact E1).
      unfold setp. erewrite bind_Done by reflexivity.
      destruct (IH (S i) (set_ps_table (upd np
        (fun q => set_p_ofile (<[i:=f]> (p_ofile q)) q) (ps_table s)) (set_ps_env e1 s)))
        as [e' E']. exists e'. unfold m_ret in *.
      simpl in *. rewrite E'. f_equal. destruct s; simpl. by rewrite upd_upd.
Qed.

(** The child that [fork] makes of slot contents [p] for parent [q] at [cur]. *)
Definition forked (cur : nat) (q : proc) (n tk k d : Z) (p : proc) : proc :=
  let c := fresh_proc n tk k p in
  set_p_modtime 0 (set_p_state RUNNABLE
    (set_p_name (safestrcpy_buf (p_name c) (p_name q) 16)
      (set_p_cwd (p_cwd q)
        (set_p_ofile (dup_list 0 (p_ofile q) (p_ofile c))
          (set_p_kstk (Kstk (set_tf_eax 0 (ks_tf (p_kstk q))) (ks_ret (p_kstk c))
                         (ks_ctx (p_kstk c)))
            (set_p_parent (Some cur) (set_p_sz (p_sz q) (set_p_pgdir d c)))))))).

Section Fork.
Variables (s : pstate E) (cur : nat) (q : proc).
Hypothesis Hready : ready s.
Hypothesis Hcur : cpu_proc (ps_cpu s) = Some cur.
Hypothesis Hq : pt_proc (ps_table s) !! cur = Some q.

Lemma fork_full : first_unused (ps_table s) = None ->
  exists s', fork me callers trapret forkret_addr s = Done (-1) s' /\ ready s' /\
    same_cpu (ps_cpu s) (ps_cpu s') /\ pt_proc (ps_table s') = pt_proc (ps_table s).
Proof using Hready Hcur Hq.
  intros Hn. unfold fork.
  rewrite (bind_Done _ _ _ _ _ (curproc_run s cur q (proj1 Hready) Hcur Hq)).
  rewrite (bind_Done _ _ _ _ _ (allocproc_full _ (ready_popped s Hready) Hn)).
  eexists. split; [reflexivity|]. simpl. rewrite popped_popped.
  split; [|split; [by apply same_cpu_popped, Hready|done]].
  split; [by apply cpu_ok_popped, Hready|done].
Qed.

Lemma fork_no_memory i k e e1 e2 :
  first_unused (ps_table s) = Some i -> kalloc (ps_env s) = Done k e ->
  (k <> 0 -> copyuvm (p_pgdir q) (p_sz q) e = Done 0 e1 /\ kfree k e1 = Done tt e2) ->
  exists s', fork me callers trapret forkret_addr s = Done (-1) s' /\ ready s' /\
    same_cpu (ps_cpu s) (ps_cpu s') /\ same_others i (ps_table s) (ps_table s') /\
    (exists p, pt_proc (ps_table s') !! i = Some p /\ p_state p = UNUSED /\ p_kstack p = 0) /\
    ps_env s' = (if k =? 0 then e else e2).
Proof using Hready Hcur Hq.
  intros Hi Hk Hm. unfold fork.
  rewrite (bind_Done _ _ _ _ _ (curproc_run s cur q (proj1 Hready) Hcur Hq)).
  pose proof (allocproc_found _ i k e (ready_popped s Hready) Hi Hk) as Ea.
  destruct (find_idx_Some _ _ _ _ Hi) as (p & _ & Hp & _). rewrite Nat.sub_0_r in Hp.
  destruct (Z.eqb_spec k 0) as [->|Hk0]; rewrite (bind_Done _ _ _ _ _ Ea).
  - eexists. split; [reflexivity|]. restored Hready.
    split; [intros j Hj; by rewrite upd_other|]. split; [|done].
    eexists. split; [by rewrite list_lookup_alter_eq, Hp|done].
  - destruct (Hm Hk0) as [Hc Hf]. unfold env, setp, getp.
    erewrite bind_Done by (apply zoom_Done; exact Hc).
    repeat (erewrite bind_Done; [|reflexivity]). simpl. rewrite !list_lookup_alter_eq, Hp. simpl.
    erewrite bind_Done by (apply zoom_Done; exact Hf).
    eexists. split; [reflexivity|]. restored Hready.
    split; [intros j Hj; by rewrite !upd_other|]. split; [|done].
    eexists. split; [by rewrite !list_lookup_alter_eq, Hp|done].
Qed.

Lemma fork_child i k e d e1 : dup_laws ->
  first_unused (ps_table s) = Some i -> kalloc (ps_env s) = Done k e -> k <> 0 ->
  copyuvm (p_pgdir q) (p_sz q) e = Done d e1 -> d <> 0 ->
  exists e' p, pt_proc (ps_table s) !! i = Some p /\ p_state p = UNUSED /\
    fork me callers trapret forkret_addr s = Done (ps_nextpid s)
      (PState (popped (ps_cpu s)) (ps_hw s)
        (set_pt_lock (freed (taken (pt_lock (ps_table s)) me callers))
          (enqueued (upd i (forked cur q (ps_nextpid s) (ps_ticks s) k d) (ps_table s)) 0 i))
        (ps_initproc s) (s32 (ps_nextpid s + 1)) (ps_flag s) (ps_first s) (ps_ticks s)
        (ps_kpgdir s) e').
Proof using Hready Hcur Hq.
  intros Hlaws Hi Hk Hk0 Hc Hd. unfold fork.
  rewrite (bind_Done _ _ _ _ _ (curproc_run s cur q (proj1 Hready) Hcur Hq)).
  pose proof (allocproc_found _ i k e (ready_popped s Hready) Hi Hk) as Ea.
  rewrite (proj2 (Z.eqb_neq k 0) Hk0) in Ea. rewrite (bind_Done _ _ _ _ _ Ea). clear Ea.
  destruct (find_idx_Some _ _ _ _ Hi) as (p & _ & Hp & Hs & _). rewrite Nat.sub_0_r in Hp.
  apply bool_decide_eq_true in Hs. pose proof (proj1 Hready) as Hok. clear Hready.
  destruct s as [c h t ip np fl fi tk kp en]. unfold after_alloc. cbn [ps_cpu ps_table] in *.
  unfold env, setp, getp. pnf. erewrite bind_Done by (apply zoom_Done; exact Hc).
  pstep. rewrite (proj2 (Z.eqb_neq d 0) Hd). pstep.
  match goal with |- context [m_bind (dup_files i 0 _) _ ?S] =>
    destruct (dup_files_run i (p_ofile q) Hlaws 0 S) as [e2 E2];
    rewrite (bind_Done _ _ _ _ _ E2); clear E2
  end.
  destruct (proj2 Hlaws (p_cwd q) e2) as [e3 E3].
  pnf. erewrite bind_Done by (apply zoom_Done; exact E3). pstep. merge_upd.
  rewrite (upd_self i _ _ p) by done. cbn [fmap option_fmap option_map default].
  erewrite bind_Done by (apply acquire_pt_run; split; [by repeat apply cpu_ok_popped|done]).
  unfold locked_state. pnf. do 2 (erewrite bind_Done; [|reflexivity]; pnf). merge_upd. unfold table.
  rewrite (upd_ext i _ (forked cur q np tk k d)) by (intros x _; destruct x, q;
    lazy - [safestrcpy_buf dup_list u32 s32 replicate]; reflexivity).
  erewrite bind_Done by (apply zoom_Done, enqueue_run; lia). pnf.
  erewrite bind_Done by (apply (release_pt_run _ (popped (popped c)));
    [by repeat apply cpu_ok_popped|done|done]).
  exists e3, p. split; [done|]. split; [done|]. unfold m_ret, unlocked_state. pnf.
  by rewrite !popped_popped.
Qed.

Lemma re_runnable y :
  set_p_state RUNNABLE (set_p_state EMBRYO (set_p_modtime 0 (set_p_state RUNNABLE y))) =
  set_p_modtime 0 (set_p_state RUNNABLE y).
Proof using. by destruct y. Qed.

Lemma forked_runnable n tk k d p :
  set_p_state RUNNABLE (set_p_state EMBRYO (forked cur q n tk k d p)) = forked cur q n tk k d p.
Proof using. unfold forked. cbv zeta. apply re_runnable. Qed.

Lemma forked_qinv i n tk k d p : qinv (ps_table s) ->
  pt_proc (ps_table s) !! i = Some p -> p_state p = UNUSED ->
  let t' := enqueued (upd i (forked cur q n tk k d) (ps_table s)) 0 i in
  spare t' -> qinv t'.
Proof using.
  intros Hqi Hp Hs t' (j & pj & Hj & Hsj).
  set (f := fun x => set_p_state EMBRYO (forked cur q n tk k d x)).
  assert (qinv (upd i f (ps_table s))) as Hq1.
  { apply upd_qinv; [done|]. intros x Hx. assert (x = p) as -> by congruence.
    split; [split; [done|congruence]|]. split; [done|congruence]. }
  assert (t' = make_runnable 0 i (upd i f (ps_table s))) as Et.
  { unfold make_runnable, f. rewrite upd_upd.
    rewrite (upd_ext i _ (forked cur q n tk k d) (ps_table s)); [reflexivity|].
    intros x _. apply forked_runnable. }
  assert (i <> j) as Hij.
  { intros <-. unfold t' in Hj. rewrite (enqueued_self _ _ _ (forked cur q n tk k d p)) in Hj
      by by apply upd_self. by injection Hj as <-. }
  rewrite Et. apply (make_runnable_qinv _ Hq1) with (f p); [lia|by apply upd_self|done|].
  exists j, pj. split; [done|]. split; [|done]. rewrite upd_other by done.
  unfold t' in Hj. by rewrite enqueued_other, upd_other in Hj.
Qed.

End Fork.
End Critical.

#[local] Transparent NPROC.

(** ** A sample kernel for the witnesses *)

(** Memory that hands out fresh page addresses and never reclaims them; files and
    inodes without reference counts. *)
Definition sample_kernel : KernelEnv Z := {|
  kalloc := fun n => Done (0x80400000 + 4096 * n) (n + 1);
  kfree := fun _ => m_ret tt;
  setupkvm := fun n => Done (0x80400000 + 4096 * n) (n + 1);
  inituvm := fun _ => m_ret tt;
  allocuvm := fun _ _ n => m_ret n;
  deallocuvm := fun _ _ n => m_ret n;
  copyuvm := fun _ _ n => Done (0x80400000 + 4096 * n) (n + 1);
  freevm := fun _ => m_ret tt;
  filedup := fun f => m_ret f;
  fileclose := fun _ => m_ret tt;
  idup := fun w => m_ret w;
  iput := fun _ => m_ret tt;
  namei_root := m_ret 7;
  begin_op := m_ret tt;
  end_op := m_ret tt;
  iinit := fun _ => m_ret tt;
  initlog := fun _ => m_ret tt |}.

(** Process 0 (init) sleeps in [wait]; process 1, its child, runs on processor 0
    and has processes 2 (a ZOMBIE) and 3 (asleep) as children. *)
Definition sample_ptable : ptable :=
  upd 3 (fun p => set_p_pid 4 (set_p_parent (Some 1%nat) (set_p_state SLEEPING (set_p_chan ChTicks p))))
  (upd 2 (fun p => set_p_pid 3 (set_p_parent (Some 1%nat) (set_p_state ZOMBIE (set_p_kstack 4096 p))))
  (upd 1 (fun p => set_p_pid 2 (set_p_parent (Some 0%nat) (set_p_state RUNNING
     (set_p_cwd 7 (set_p_sz 8192 (set_p_pgdir 0x80100000 (set_p_ofile (5 :: replicate 15 0) p)))))))
  (upd 0 (fun p => set_p_pid 1 (set_p_state SLEEPING (set_p_chan (ChProc 0) p))) zero_ptable))).

Definition sample_caller : proc := default zero_proc (pt_proc sample_ptable !! 1%nat).

Definition sample_state : pstate Z :=
  PState (Cpu 0 0 0 (Some 1%nat) true) (Hw 0 (SEG 0 0 0 0) 0 0 0 0) sample_ptable (Some 0%nat)
    5 1 0 100 0x80200000 0.

Lemma sample_ready : ready sample_state.
Proof. split; [by split|by split]. Qed.

Lemma sample_qinv : qinv sample_ptable.
Proof.
  repeat (apply upd_qinv; [|by intros p [= <-]]). apply zero_ptable_qinv.
Qed.

Lemma sample_dup_laws : dup_laws (HE := sample_kernel).
Proof. split; [intros f e _; by exists e|intros w e; by exists e]. Qed.


(** [kill] marks the first process with the given pid, makes it RUNNABLE and
    queues it if it was asleep, changes no other process and returns 0, or -1 if
    there is none; the lock and the interrupt flag are as before. *)
Theorem kill_spec {E : Type} {HE : KernelEnv E} me callers pid (s : pstate E) :
  ready s -> qinv (ps_table s) ->
  exists s', kill me callers pid s =
      Done (match first_with_pid pid (ps_table s) with Some _ => 0 | None => -1 end) s' /\
    ready s' /\ same_cpu (ps_cpu s) (ps_cpu s') /\
    (forall j, pt_proc (ps_table s') !! j =
      if decide (first_with_pid pid (ps_table s) = Some j)
      then killed <$> pt_proc (ps_table s) !! j else pt_proc (ps_table s) !! j) /\
    (spare (ps_table s') -> qinv (ps_table s')).
Proof. apply kill_run. Qed.

Lemma kill_spec_witness : exists s', kill (E := Z) 0 [] 4 sample_state = Done 0 s' /\
  p_state <$> pt_proc (ps_table s') !! 3%nat = Some RUNNABLE.
Proof.
  destruct (kill_spec (HE := sample_kernel) 0 [] 4 sample_state sample_ready sample_qinv)
    as (s' & E & _ & _ & L & _).
  exists s'. split; [exact E|]. rewrite L. reflexivity.
Defined.
