(* ===== verification/WaitExit.v ===== *)
(** * [sleep], [wait], [waitx] and [exit] (theorems on Proc.v)

    [sleep] and [exit] end in the switch to the scheduler with [ptable.lock] held
    and nested once, which [sched] tests; [wait] either reaps the first exited
    child, fails, or goes to sleep on the caller itself. *)

From stdpp Require Import base tactics numbers list sets strings.
From Stdlib Require Import ZArith Lia ZifyNat.
From S2P Require Import Prelude Layout Spinlock CString PTable RunQueue Proc Mlfq ProcSpec.

#[local] Arguments Nat.modulo : simpl never.
#[local] Opaque NPROC.

Section WaitExit.
Context {E : Type} {HE : KernelEnv E}.
Variable me : nat.
Variable callers : list Z.
Implicit Types (s : pstate E).

(** Inside the critical section, with no other lock held. *)
Definition in_critical (c : cpu) s : Prop :=
  cpu_ok c /\ ncli c = 0 /\ ps_cpu s = pushed c /\ held_by (pt_lock (ps_table s)) me.

Lemma in_critical_locked s : ready s -> ncli (ps_cpu s) = 0 ->
  in_critical (ps_cpu s) (locked_state me callers s).
Proof. intros [Hc Hl] Hn. by split. Qed.

Lemma pushed_ok c : cpu_ok c -> cpu_ok (pushed c) /\ popped (pushed c) = pushed c.
Proof. intros H. split; [by apply cpu_ok_pushed|by apply popped_pushed]. Qed.

(** [sched] lets the switch happen exactly when the caller is no longer RUNNING. *)
Lemma sched_run c s i p : in_critical c s -> cpu_proc c = Some i ->
  pt_proc (ps_table s) !! i = Some p ->
  sched me s = if bool_decide (p_state p = RUNNING) then Panic "sched running"
               else Done (intena (pushed c)) s.
Proof.
  intros (Hc & Hn & Hs & Hl) Hi Hp. destruct (pushed_ok c Hc) as [Hok Hpp].
  assert (set_ps_cpu (popped (ps_cpu s)) s = s) as Es by (rewrite Hs, Hpp, <- Hs; by destruct s).
  unfold sched. erewrite bind_Done
    by (apply (curproc_run me s i p); rewrite ?Hs; done). rewrite Es.
  erewrite bind_Done.
  2: { apply zoom_Done. simpl lget. apply holding_run. by rewrite Hs. }
  destruct Hl as [Hl1 Hl2]. rewrite Hl1, Hl2, bool_decide_eq_true_2 by done. simpl.
  munf. simpl. rewrite Hs, Hpp. simpl. rewrite Hn. simpl.
  case_bool_decide; simpl; [done|]. f_equal.
  destruct s as [c0 h [l0 ? ? ? ?] ? ? ? ? ? ? ?]. simpl in *. by subst.
Qed.

(** ** [sleep] on [&ptable.lock], as [wait] calls it *)

Definition put_to_sleep (c : chan) (p : proc) : proc := set_p_state SLEEPING (set_p_chan c p).

Lemma sleep_ptable_run c s i p ch : in_critical c s -> cpu_proc c = Some i ->
  pt_proc (ps_table s) !! i = Some p ->
  sleep_enter me callers ch LkPtable s =
  Done (intena (pushed c)) (set_ps_table (upd i (put_to_sleep ch) (ps_table s)) s).
Proof.
  intros Hin Hi Hp. pose proof Hin as (Hc & Hn & Hs & Hl).
  destruct (pushed_ok c Hc) as [Hok Hpp]. unfold sleep_enter.
  assert (set_ps_cpu (popped (ps_cpu s)) s = s) as Es by (rewrite Hs, Hpp, <- Hs; by destruct s).
  erewrite bind_Done by (apply myproc_run; by rewrite Hs).
  rewrite Es, Hs. change (cpu_proc (pushed c)) with (cpu_proc c). rewrite Hi.
  unfold setp. do 3 (erewrite bind_Done; [|reflexivity]). simpl.
  rewrite (upd_upd i (set_p_state SLEEPING) (set_p_chan ch)). fold (put_to_sleep ch).
  rewrite (sched_run c _ i (put_to_sleep ch p)); [by destruct s| |done|].
  - destruct s. by simpl in *.
  - simpl. by rewrite list_lookup_alter_eq, Hp.
Qed.

(** ** [wait] *)

Section Wait.
Variable cur : nat.

Definition child_at (t : ptable) (i : nat) : bool :=
  default false ((fun p => bool_decide (p_parent p = Some cur)) <$> pt_proc t !! i).

(** What [wait] leaves of a reaped child. *)
Definition reaped (p : proc) : proc :=
  set_p_state UNUSED (set_p_killed 0 (set_p_name (<[0%nat := 0]> (p_name p))
    (set_p_parent None (set_p_pid 0 (set_p_kstack 0 p))))).

(** The first exited child and whether there are children, as [wait] sees them. *)
Definition first_zombie (t : ptable) : option nat := find (zombie_at cur t) (seq 0 NPROC).
Definition has_child (t : ptable) : bool := existsb (child_at t) (seq 0 NPROC).

Lemma wait_scan_eq l : forall hk s,
  wait_scan me cur l hk s =
  match find (zombie_at cur (ps_table s)) l with
  | Some i =>
      let p := default zero_proc (pt_proc (ps_table s) !! i) in
      (reap i p ;;; release_pt me ;;; m_ret (Reaped (p_pid p))) s
  | None => Done (NoZombie (hk || existsb (child_at (ps_table s)) l)) s
  end.
Proof using.
  induction l as [|i l IH]; intros hk s; simpl wait_scan; cbn [find existsb].
  { by rewrite orb_false_r. }
  unfold getp. erewrite bind_Done by reflexivity.
  unfold zombie_at at 1, child_at at 1, zombie_child.
  destruct (pt_proc (ps_table s) !! i) as [p|] eqn:Hi; simpl; [|apply IH].
  destruct (bool_decide (p_parent p = Some cur)); simpl; [|apply IH].
  destruct (bool_decide (p_state p = ZOMBIE)); simpl; [by rewrite Hi|]. rewrite IH.
  destruct (find _ _); [done|]. by rewrite orb_true_r.
Qed.

Lemma first_zombie_Some t i : first_zombie t = Some i ->
  exists p, pt_proc t !! i = Some p /\ p_parent p = Some cur /\ p_state p = ZOMBIE.
Proof using.
  intros [_ Hz]%find_some. unfold zombie_at, zombie_child in Hz.
  destruct (pt_proc t !! i) as [p|]; simpl in Hz; [|done].
  apply andb_prop in Hz as [?%bool_decide_eq_true ?%bool_decide_eq_true]. eauto.
Qed.

(** [reap] with the kernel stack and the page tables freed. *)
Lemma reap_run i p s e1 e2 : kfree (p_kstack p) (ps_env s) = Done tt e1 ->
  freevm (p_pgdir p) e1 = Done tt e2 ->
  reap i p s = Done tt (set_ps_env e2 (set_ps_table (upd i reaped (ps_table s)) s)).
Proof using.
  intros Hk Hf. unfold reap, env, setp. destruct s as [c h t ip np fl fi tk kp en].
  simpl in *. erewrite bind_Done by (apply zoom_Done; exact Hk). pstep.
  erewrite bind_Done by (apply zoom_Done; exact Hf). pstep. unfold modify. pnf.
  rewrite !upd_compose. reflexivity.
Qed.

Variable q : proc.

(** The three outcomes of a round of [wait] with the lock held. *)
Lemma wait_round_reap c s i p e1 e2 : in_critical c s ->
  first_zombie (ps_table s) = Some i -> pt_proc (ps_table s) !! i = Some p ->
  kfree (p_kstack p) (ps_env s) = Done tt e1 -> freevm (p_pgdir p) e1 = Done tt e2 ->
  wait_round me callers cur s = Done (Some (p_pid p))
    (set_ps_cpu (popped c) (set_ps_env e2 (set_ps_table
      (upd i reaped (set_pt_lock (freed (pt_lock (ps_table s))) (ps_table s))) s))).
Proof using.
  intros (Hc & Hn & Hs & Hl) Hz Hp Hk Hf. unfold wait_round, first_zombie in *.
  unfold m_bind at 1. rewrite wait_scan_eq, Hz, Hp. simpl default. cbv zeta.
  rewrite (bind_Done _ _ _ _ _ (reap_run i p s e1 e2 Hk Hf)).
  erewrite bind_Done by (by apply (release_pt_run me _ c)).
  unfold m_ret, unlocked_state. destruct s. done.
Qed.

Lemma wait_round_fail c s : in_critical c s -> first_zombie (ps_table s) = None ->
  pt_proc (ps_table s) !! cur = Some q ->
  has_child (ps_table s) = false \/ p_killed q <> 0 ->
  wait_round me callers cur s = Done (Some (-1)) (set_ps_cpu (popped c) (unlocked_state s)).
Proof using.
  intros (Hc & Hn & Hs & Hl) Hz Hq Hor. unfold wait_round, first_zombie, has_child in *.
  unfold m_bind at 1. rewrite wait_scan_eq, Hz. rewrite orb_false_l. unfold getp.
  erewrite bind_Done by reflexivity. rewrite Hq.
  change (default 0 (p_killed <$> Some q)) with (p_killed q).
  assert (negb (existsb (child_at (ps_table s)) (seq 0 NPROC)) || negb (p_killed q =? 0) = true)
    as ->.
  { destruct Hor as [->|Hk]; [done|]. by rewrite (proj2 (Z.eqb_neq _ _) Hk), orb_true_r. }
  erewrite bind_Done by (by apply (release_pt_run me _ c)). done.
Qed.

Lemma wait_round_sleep c s : in_critical c s -> first_zombie (ps_table s) = None ->
  pt_proc (ps_table s) !! cur = Some q -> cpu_proc c = Some cur ->
  has_child (ps_table s) = true -> p_killed q = 0 ->
  wait_round me callers cur s =
  Done None (set_ps_table (upd cur (put_to_sleep (ChProc cur)) (ps_table s)) s).
Proof using.
  intros Hin Hz Hq Hcur Hch Hk. unfold wait_round, first_zombie, has_child in *.
  unfold m_bind at 1. rewrite wait_scan_eq, Hz, Hch. rewrite orb_false_l. unfold getp.
  erewrite bind_Done by reflexivity. rewrite Hq.
  change (default 0 (p_killed <$> Some q)) with (p_killed q). rewrite Hk. simpl.
  by erewrite bind_Done by (by eapply sleep_ptable_run).
Qed.

Section Enter.
Variable s : pstate E.
Hypothesis Hready : ready s.
Hypothesis Hncli : ncli (ps_cpu s) = 0.
Hypothesis Hcur : cpu_proc (ps_cpu s) = Some cur.
Hypothesis Hq : pt_proc (ps_table s) !! cur = Some q.

(** The state in which [wait] starts its first round. *)
Definition wait_start : pstate E :=
  locked_state me callers (set_ps_cpu (popped (ps_cpu s)) s).

Lemma wait_enter_eq : wait_enter me callers s = wait_round me callers cur wait_start.
Proof using Hready Hcur Hq.
  unfold wait_enter.
  rewrite (bind_Done _ _ _ _ _ (curproc_run me s cur q (proj1 Hready) Hcur Hq)).
  by rewrite (bind_Done _ _ _ _ _ (acquire_pt_run me callers _ (ready_popped s Hready))).
Qed.

Lemma wait_start_critical : in_critical (popped (ps_cpu s)) wait_start.
Proof using Hready Hncli.
  apply (in_critical_locked (set_ps_cpu (popped (ps_cpu s)) s));
    [by apply ready_popped|done].
Qed.

(** C35. [wait] on a process with an exited child frees the first one of the table
    and returns its pid; without children, or killed, it returns -1; otherwise it
    puts the caller to sleep on itself, still holding the table's lock. *)
Theorem wait_spec :
  match first_zombie (ps_table s) with
  | Some i => forall p e1 e2, pt_proc (ps_table s) !! i = Some p ->
      kfree (p_kstack p) (ps_env s) = Done tt e1 -> freevm (p_pgdir p) e1 = Done tt e2 ->
      exists s', wait_enter me callers s = Done (Some (p_pid p)) s' /\ ready s' /\
        same_cpu (ps_cpu s) (ps_cpu s') /\ ps_env s' = e2 /\
        pt_proc (ps_table s') !! i = Some (reaped p) /\
        same_others i (ps_table s) (ps_table s')
  | None =>
      if negb (has_child (ps_table s)) || negb (p_killed q =? 0)
      then exists s', wait_enter me callers s = Done (Some (-1)) s' /\ ready s' /\
        same_cpu (ps_cpu s) (ps_cpu s') /\ pt_proc (ps_table s') = pt_proc (ps_table s)
      else exists s', wait_enter me callers s = Done None s' /\
        held_by (pt_lock (ps_table s')) me /\
        pt_proc (ps_table s') !! cur = Some (put_to_sleep (ChProc cur) q) /\
        same_others cur (ps_table s) (ps_table s')
  end.
Proof using Hready Hncli Hcur Hq.
  rewrite wait_enter_eq. pose proof wait_start_critical as Hcr.
  change (first_zombie (ps_table s)) with (first_zombie (ps_table wait_start)).
  change (has_child (ps_table s)) with (has_child (ps_table wait_start)).
  destruct (first_zombie (ps_table wait_start)) as [i|] eqn:Hz.
  - intros p e1 e2 Hp Hk Hf. eexists. split; [by apply (wait_round_reap _ _ i p e1 e2 Hcr)|].
    restored Hready. split; [done|].
    split; [by rewrite list_lookup_alter_eq, Hp|].
    intros j Hj. by rewrite upd_other.
  - destruct (has_child (ps_table wait_start)) eqn:Hch, (Z.eqb_spec (p_killed q) 0); simpl.
    + eexists. split; [by eapply wait_round_sleep|]. split; [done|]. simpl.
      split; [by rewrite list_lookup_alter_eq, Hq|]. intros j Hj. by rewrite upd_other.
    + eexists. split; [apply (wait_round_fail _ _ Hcr Hz Hq); by right|]. by restored Hready.
    + eexists. split; [apply (wait_round_fail _ _ Hcr Hz Hq); by left|]. by restored Hready.
    + eexists. split; [apply (wait_round_fail _ _ Hcr Hz Hq); by left|]. by restored Hready.
Qed.
End Enter.
End Wait.

(** ** [waitx] *)

Section Waitx.
Variables (cur : nat) (q : proc).

(** The waiting time [waitx] reports. *)
Definition waited (p : proc) : Z := s32 (s32 (p_etime p - p_ctime p) - p_rtime p).

Definition reapedx (p : proc) : proc :=
  set_p_modtime 0 (set_p_wtime 0 (set_p_rtime 0 (set_p_etime 0 (set_p_ctime 0 (reaped p))))).

Lemma waitx_scan_eq l : forall hk s,
  waitx_scan me cur l hk s =
  match find (zombie_at cur (ps_table s)) l with
  | Some i =>
      let p := default zero_proc (pt_proc (ps_table s) !! i) in
      (reapx i p ;;; release_pt me ;;; m_ret (ReapedX (p_pid p) (waited p) (p_rtime p))) s
  | None => Done (NoZombieX (hk || existsb (child_at cur (ps_table s)) l)) s
  end.
Proof using.
  induction l as [|i l IH]; intros hk s; simpl waitx_scan; cbn [find existsb].
  { by rewrite orb_false_r. }
  unfold getp. erewrite bind_Done by reflexivity.
  unfold zombie_at at 1, child_at at 1, zombie_child.
  destruct (pt_proc (ps_table s) !! i) as [p|] eqn:Hi; simpl; [|apply IH].
  destruct (bool_decide (p_parent p = Some cur)); simpl; [|apply IH].
  destruct (bool_decide (p_state p = ZOMBIE)); simpl; [by rewrite Hi|]. rewrite IH.
  destruct (find _ _); [done|]. by rewrite orb_true_r.
Qed.

Lemma reapx_run i p s e1 e2 : kfree (p_kstack p) (ps_env s) = Done tt e1 ->
  freevm (p_pgdir p) e1 = Done tt e2 ->
  reapx i p s = Done tt (set_ps_env e2 (set_ps_table (upd i reapedx (ps_table s)) s)).
Proof using.
  intros Hk Hf. unfold reapx, setp.
  rewrite (bind_Done _ _ _ _ _ (reap_run i p s e1 e2 Hk Hf)).
  destruct s as [c h t ip np fl fi tk kp en]. pstep. unfold modify. pnf.
  rewrite !upd_compose. reflexivity.
Qed.

(** [waitx] frees the first exited child like [wait], and reports its running
    time and the rest of its life time as waiting time. *)
Lemma waitx_reap s i p e1 e2 : ready s -> ncli (ps_cpu s) = 0 ->
  cpu_proc (ps_cpu s) = Some cur -> pt_proc (ps_table s) !! cur = Some q ->
  first_zombie cur (ps_table s) = Some i -> pt_proc (ps_table s) !! i = Some p ->
  kfree (p_kstack p) (ps_env s) = Done tt e1 -> freevm (p_pgdir p) e1 = Done tt e2 ->
  exists s', waitx_enter me callers s =
      Done (Some (p_pid p, Some (waited p, p_rtime p))) s' /\ ready s' /\
    same_cpu (ps_cpu s) (ps_cpu s') /\ ps_env s' = e2 /\
    pt_proc (ps_table s') !! i = Some (reapedx p) /\
    same_others i (ps_table s) (ps_table s').
Proof using.
  intros Hr Hn Hc Hq Hz Hp Hk Hf. unfold waitx_enter.
  rewrite (bind_Done _ _ _ _ _ (curproc_run me s cur q (proj1 Hr) Hc Hq)).
  rewrite (bind_Done _ _ _ _ _ (acquire_pt_run me callers _ (ready_popped s Hr))).
  set (s1 := locked_state _ _ _). unfold waitx_round, m_bind at 1.
  change (find (zombie_at cur (ps_table s)) (seq 0 NPROC) = Some i) in Hz.
  rewrite waitx_scan_eq. change (ps_table s1) with
    (set_pt_lock (taken (pt_lock (ps_table s)) me callers) (ps_table s)).
  change (find (zombie_at cur (set_pt_lock (taken (pt_lock (ps_table s)) me callers) (ps_table s)))
    (seq 0 NPROC)) with (find (zombie_at cur (ps_table s)) (seq 0 NPROC)).
  rewrite Hz. cbn [pt_proc set_pt_lock fst]. rewrite Hp. cbn [default from_option id]. cbv zeta.
  rewrite (bind_Done _ _ _ _ _ (reapx_run i p s1 e1 e2 Hk Hf)).
  erewrite bind_Done by (apply (release_pt_run me _ (popped (ps_cpu s)));
    [by apply cpu_ok_popped, Hr|done|done]).
  eexists. split; [reflexivity|]. restored Hr. split; [done|].
  split; [by rewrite list_lookup_alter_eq, Hp|]. intros j Hj. simpl. by rewrite list_lookup_alter_ne.
Qed.
End Waitx.

(** ** [exit] *)

(** The file table after the loop of [exit]. *)
Fixpoint close_list (i : nat) (files dst : list Z) : list Z :=
  match files with
  | [] => dst
  | f :: files => close_list (S i) files (if f =? 0 then dst else <[i := 0]> dst)
  end.

Lemma close_list_zero files : forall i dst,
  (forall j f, dst !! j = Some f -> (j < i)%nat -> f = 0) ->
  (forall j, (i <= j)%nat -> dst !! j = files !! (j - i)%nat) ->
  forall j f, close_list i files dst !! j = Some f -> f = 0.
Proof using.
  induction files as [|g files IH]; intros i dst Hlow Hhigh j f; simpl.
  - intros Hj. destruct (decide (j < i)%nat); [eauto|].
    rewrite Hhigh in Hj by lia. by rewrite lookup_nil in Hj.
  - apply IH.
    + intros j' f' Hj' Hlt. destruct (decide (j' = i)) as [->|Hne].
      * destruct (Z.eqb_spec g 0) as [->|Hg].
        -- rewrite Hhigh, Nat.sub_diag in Hj' by lia. simpl in Hj'. congruence.
        -- apply list_lookup_insert_Some in Hj' as [(_ & <- & _)|[? _]]; done.
      * destruct (g =? 0); [apply (Hlow j'); [done|lia]|].
        rewrite list_lookup_insert_ne in Hj' by done. apply (Hlow j'); [done|lia].
    + intros j' Hj'. assert (dst !! j' = files !! (j' - S i)%nat) as Ed.
      { rewrite Hhigh by lia. by replace (j' - i)%nat with (S (j' - S i)) by lia. }
      destruct (g =? 0); [done|]. by rewrite list_lookup_insert_ne by lia.
Qed.

(** [fileclose], [begin_op], [iput] and [end_op] return. *)
Definition close_laws : Prop :=
  (forall f e, f <> 0 -> exists e', fileclose f e = Done tt e') /\
  (forall w e, exists e1 e2 e3, begin_op e = Done tt e1 /\ iput w e1 = Done tt e2 /\
     end_op e2 = Done tt e3).

Lemma close_files_run cur files : close_laws -> forall i s,
  exists e', close_files cur i files s = Done tt (set_ps_env e' (set_ps_table
    (upd cur (fun q => set_p_ofile (close_list i files (p_ofile q)) q) (ps_table s)) s)).
Proof using.
  intros [Hcl _]. induction files as [|f files IH]; intros i s; simpl.
  - exists (ps_env s). unfold m_ret. f_equal. destruct s as [? ? t ? ? ? ? ? ? ?]; simpl.
    f_equal. symmetry. unfold upd. rewrite list_alter_id by by intros []. by destruct t.
  - unfold when. destruct (Z.eqb_spec f 0) as [->|Hf]; simpl negb; cbv iota.
    + erewrite bind_Done by reflexivity. apply IH.
    + destruct (Hcl f (ps_env s) Hf) as [e1 E1].
      rewrite bind_assoc. erewrite bind_Done by (apply zoom_Done; exact E1).
      unfold setp. erewrite bind_Done by reflexivity.
      destruct (IH (S i) (set_ps_table (upd cur
        (fun q => set_p_ofile (<[i:=0]> (p_ofile q)) q) (ps_table s)) (set_ps_env e1 s)))
        as [e' E']. exists e'. simpl in *. rewrite E'. f_equal. destruct s; simpl.
      by rewrite upd_upd.
Qed.

(** The exiting process before it becomes a ZOMBIE. *)
Definition stripped (tk : Z) (q : proc) : proc :=
  set_p_cwd 0 (set_p_etime (s32 tk) (set_p_ofile (close_list 0 (p_ofile q) (p_ofile q)) q)).

(** What the exit of [cur] does to another process. *)
Definition after_exit (cur : nat) (init parent : option nat) (b : bool) (p : proc) : proc :=
  wake_init init b (adopt cur init (woken (proc_chan parent) p)).

Lemma exit_init s cur q : ready s -> cpu_proc (ps_cpu s) = Some cur ->
  pt_proc (ps_table s) !! cur = Some q -> ps_initproc s = Some cur ->
  exit me callers s = Panic "init exiting".
Proof using.
  intros Hr Hc Hq Hi. unfold exit.
  rewrite (bind_Done _ _ _ _ _ (curproc_run me s cur q (proj1 Hr) Hc Hq)).
  unfold gets. erewrite bind_Done by reflexivity. simpl. rewrite Hi.
  by rewrite bool_decide_eq_true_2.
Qed.

(** The part of [exit] before the lock is taken. *)
Lemma exit_strip s cur q : close_laws -> ready s -> cpu_proc (ps_cpu s) = Some cur ->
  pt_proc (ps_table s) !! cur = Some q -> ps_initproc s <> Some cur ->
  exists e', exit me callers s =
    (acquire_pt me callers ;;;
     let! q := getp cur in
     table (wakeup1 (proc_chan (q ≫= p_parent))) ;;;
     table (reparent cur (ps_initproc s)) ;;;
     setp cur (set_p_state ZOMBIE) ;;;
     sched me)
    (set_ps_env e' (set_ps_table (upd cur (stripped (ps_ticks s)) (ps_table s))
       (set_ps_cpu (popped (ps_cpu s)) s))).
Proof using.
  intros Hl Hr Hc Hq Hi. unfold exit.
  rewrite (bind_Done _ _ _ _ _ (curproc_run me s cur q (proj1 Hr) Hc Hq)).
  unfold gets at 1. erewrite bind_Done by reflexivity. cbn [ps_initproc set_ps_cpu].
  rewrite bool_decide_eq_false_2 by done.
  match goal with |- context [m_bind (close_files cur 0 _) _ ?S] =>
    destruct (close_files_run cur (p_ofile q) Hl 0 S) as [e0 E0];
    rewrite (bind_Done _ _ _ _ _ E0); clear E0
  end.
  destruct (proj2 Hl (p_cwd q) e0) as (e1 & e2 & e3 & E1 & E2 & E3).
  destruct s as [c h t ip np fl fi tk kp en]. unfold env at 1 2 3, setp at 1 2. cbn [ps_table] in Hq.
  pstep. erewrite bind_Done by (apply zoom_Done; exact E1). pnf.
  erewrite bind_Done by (apply zoom_Done; exact E2). pnf.
  erewrite bind_Done by (apply zoom_Done; exact E3). pstep. exists e3.
  rewrite !upd_compose. erewrite (upd_ext cur _ (stripped tk)); [reflexivity|].
  intros x Hx. assert (x = q) as -> by congruence. done.
Qed.

Lemma existsb_lookup {A} (f : A -> bool) l :
  existsb f l = true <-> exists i x, l !! i = Some x /\ f x = true.
Proof using.
  rewrite existsb_exists. split.
  - intros (x & Hx & Hf). apply list_elem_of_In, list_elem_of_lookup_1 in Hx as [i Hi]. eauto.
  - intros (i & x & Hi & Hf). exists x. split; [|done].
    apply list_elem_of_In. by eapply list_elem_of_lookup_2.
Qed.

Lemma zombie_child_woken cur c p : zombie_child cur (woken c p) = zombie_child cur p.
Proof using.
  unfold woken, zombie_child. destruct p; simpl. destruct p_state; simpl; try done.
  by destruct (bool_decide (p_chan = c)).
Qed.

Lemma stripped_qinv t cur q tk : qinv t -> pt_proc t !! cur = Some q ->
  qinv (upd cur (stripped tk) t).
Proof using.
  intros Hq Hc. apply upd_qinv; [done|]. intros p Hp. split; [done|].
  split; [exact (qi_range _ Hq _ _ Hp)|done].
Qed.

Lemma after_exit_running cur init parent b p : p_state p = RUNNING ->
  p_state (after_exit cur init parent b p) = RUNNING.
Proof using.
  intros Hr. unfold after_exit, wake_init, adopt, woken. rewrite Hr. simpl.
  destruct (bool_decide (p_parent p = Some cur)), b; simpl; by rewrite Hr.
Qed.

Lemma after_exit_fields cur init parent b p :
  p_pid (after_exit cur init parent b p) = p_pid p /\
  p_cwd (after_exit cur init parent b p) = p_cwd p /\
  p_ofile (after_exit cur init parent b p) = p_ofile p /\
  p_queue (after_exit cur init parent b p) = p_queue p.
Proof using.
  unfold after_exit, wake_init, adopt, woken.
  by repeat match goal with |- context [if ?x then _ else _] => destruct x end.
Qed.

(** Stripping the exiting process does not change who is an exited child. *)
Lemma zombie_child_upd cur tk t q : pt_proc t !! cur = Some q ->
  (exists j p, pt_proc (upd cur (stripped tk) t) !! j = Some p /\ zombie_child cur p = true) <->
  (exists j p, pt_proc t !! j = Some p /\ zombie_child cur p = true).
Proof using.
  intros Hc. split.
  - intros (j & p & Hj & Hz). apply upd_lookup in Hj as [(<- & p0 & Hp0 & ->)|[_ Hj]]; eauto.
  - intros (j & p & Hj & Hz). destruct (decide (cur = j)) as [->|Hne].
    + exists j, (stripped tk p). split; [by apply upd_self|done].
    + exists j, p. by rewrite upd_other.
Qed.

(** The table after the wakeups and the reparenting of [exit]. *)
Lemma exit_table_effect t cur q init : qinv t -> pt_proc t !! cur = Some q ->
  p_state q = RUNNING ->
  exists t1 t2 b, wakeup1 (proc_chan (p_parent q)) t = Done tt t1 /\
    reparent cur init t1 = Done tt t2 /\ pt_lock t2 = pt_lock t /\ qinv t2 /\
    (b = true <-> exists j p, pt_proc t !! j = Some p /\ zombie_child cur p = true) /\
    forall j, pt_proc t2 !! j = after_exit cur init (p_parent q) b <$> pt_proc t !! j.
Proof using.
  intros Hq Hc Hr. pose proof (qi_wf _ Hq) as Hwf.
  destruct (wakeup1_run (proc_chan (p_parent q)) t (qi_range _ Hq) (wf_procs _ Hwf))
    as (t1 & E1 & L1 & K1 & _ & R1 & Q1).
  assert (pt_proc t1 !! cur = Some (woken (proc_chan (p_parent q)) q)) as Hc1
    by by rewrite L1, list_lookup_fmap, Hc.
  assert (p_state (woken (proc_chan (p_parent q)) q) = RUNNING) as Hr1
    by (unfold woken; by rewrite Hr).
  assert (qinv t1) as Hq1.
  { apply Q1; [done|]. exists cur, (woken (proc_chan (p_parent q)) q). split; [done|].
    congruence. }
  destruct (reparent_run cur init t1 R1 (wf_procs _ (qi_wf _ Hq1))) as (t2 & E2 & A2).
  exists t1, t2, (existsb (zombie_child cur) (pt_proc t1)).
  assert (forall j, pt_proc t2 !! j = after_exit cur init (p_parent q)
    (existsb (zombie_child cur) (pt_proc t1)) <$> pt_proc t !! j) as HL.
  { intros j. rewrite (ad_lookup _ _ _ _ _ _ A2), L1, list_lookup_fmap.
    by destruct (pt_proc t !! j). }
  split; [done|]. split; [done|]. split; [by rewrite (ad_lock _ _ _ _ _ _ A2)|].
  split; [|split; [|done]].
  - apply (ad_qinv _ _ _ _ _ _ A2); [done|].
    eexists cur, _. split; [by rewrite HL, Hc|]. simpl. by rewrite after_exit_running.
  - rewrite existsb_lookup. split.
    + intros (j & p & Hj & Hz). rewrite L1, list_lookup_fmap in Hj.
      destruct (pt_proc t !! j) as [p0|] eqn:E0; simpl in Hj; [|done]. injection Hj as <-.
      rewrite zombie_child_woken in Hz. eauto.
    + intros (j & p & Hj & Hz). eexists j, _. rewrite L1, list_lookup_fmap, Hj. split; [done|].
      by rewrite zombie_child_woken.
Qed.

End WaitExit.

(** ** Witnesses *)

#[local] Transparent NPROC.

Lemma wait_spec_witness : exists s', wait_enter (HE := sample_kernel) 0 [] sample_state =
    Done (Some 3) s' /\ p_state <$> pt_proc (ps_table s') !! 2%nat = Some UNUSED.
Proof.
  pose proof (wait_spec (HE := sample_kernel) 0 [] 1 sample_caller sample_state sample_ready
    eq_refl eq_refl eq_refl) as H.
  assert (first_zombie 1 (ps_table sample_state) = Some 2%nat) as E by reflexivity.
  rewrite E in H. destruct (H _ 0 0 eq_refl eq_refl eq_refl) as (s' & Er & _ & _ & _ & Hp & _).
  exists s'. split; [exact Er|]. by rewrite Hp.
Defined.

