(* ===== verification/Kalloc.v ===== *)
(** * The physical page allocator (kalloc.c)

    The free pages form a linked list threaded through the pages themselves. The
    operations work on byte memory; [kinv] relates it to the list of free page
    addresses, and [client] runs the allocator with a client that writes to the
    pages it holds. *)

From stdpp Require Import base tactics numbers list sets strings.
From Stdlib Require Import ZArith Lia ZifyNat.
From S2P Require Import Prelude Layout Spinlock CString.

(** [kmem] and the memory it manages, with the processor that takes [kmem.lock]. *)
Record kstate := KState {
  k_cpu : cpu;
  k_mem : mem;
  kmem_lock : spinlock;
  kmem_use_lock : Z;
  kmem_freelist : Z }.

Definition set_k_mem (v : mem) (s : kstate) : kstate :=
  KState (k_cpu s) v (kmem_lock s) (kmem_use_lock s) (kmem_freelist s).
Definition set_kmem_use_lock (v : Z) (s : kstate) : kstate :=
  KState (k_cpu s) (k_mem s) (kmem_lock s) v (kmem_freelist s).
Definition set_kmem_freelist (v : Z) (s : kstate) : kstate :=
  KState (k_cpu s) (k_mem s) (kmem_lock s) (kmem_use_lock s) v.

Definition kmem_lens : lens kstate lkst :=
  Lens (fun s => Lkst (k_cpu s) (kmem_lock s))
       (fun l s => KState (lcpu l) (k_mem s) (llock l) (kmem_use_lock s) (kmem_freelist s)).

Section Kalloc.
(** The executing processor, what [getcallerpcs] records, and the address [end]
    where the linker puts the end of the kernel. *)
Variable me : nat.
Variable callers : list Z.
Variable kend : Z.

Definition kfree (v : Z) : M kstate unit :=
  if negb (v mod PGSIZE =? 0) || (v <? kend) || (PHYSTOP <=? V2P v) then panic "kfree"
  else
    modify (fun s => set_k_mem (memset (k_mem s) v 1 PGSIZE) s) ;;;
    let! u := gets kmem_use_lock in
    when (negb (u =? 0)) (zoom kmem_lens (acquire me callers)) ;;;
    modify (fun s => set_k_mem (store32 (k_mem s) v (kmem_freelist s)) s) ;;;
    modify (set_kmem_freelist v) ;;;
    let! u := gets kmem_use_lock in
    when (negb (u =? 0)) (zoom kmem_lens (release me)).

Definition kalloc : M kstate Z :=
  let! u := gets kmem_use_lock in
  when (negb (u =? 0)) (zoom kmem_lens (acquire me callers)) ;;;
  let! r := gets kmem_freelist in
  when (negb (r =? 0)) (modify (fun s => set_kmem_freelist (load32 (k_mem s) r) s)) ;;;
  let! u := gets kmem_use_lock in
  when (negb (u =? 0)) (zoom kmem_lens (release me)) ;;;
  m_ret r.

(** The loop of [freerange] from page [p] on. *)
Fixpoint freerange_loop (p vend : Z) (fuel : nat) : M kstate unit :=
  match fuel with
  | O => block
  | S fuel =>
      if u32 (p + PGSIZE) <=? vend then kfree p ;;; freerange_loop (u32 (p + PGSIZE)) vend fuel
      else m_ret tt
  end.
(** One iteration per page, and the last test. *)
Definition freerange (vstart vend : Z) : M kstate unit :=
  freerange_loop (PGROUNDUP vstart) vend (S (Z.to_nat (vend / PGSIZE))).

Definition kinit1 (vstart vend : Z) : M kstate unit :=
  modify (fun s => KState (k_cpu s) (k_mem s) (initlock "kmem" (kmem_lock s))
    (kmem_use_lock s) (kmem_freelist s)) ;;;
  modify (set_kmem_use_lock 0) ;;;
  freerange vstart vend.

Definition kinit2 (vstart vend : Z) : M kstate unit :=
  freerange vstart vend ;;;
  modify (set_kmem_use_lock 1).

(** ** The free list *)

(** A page the allocator may manage. *)
Definition page_ok (a : Z) : Prop :=
  a mod PGSIZE = 0 /\ kend <= a /\ 0 < a /\ KERNBASE <= a < KERNBASE + PHYSTOP.

Definition in_page (a x : Z) : Prop := a <= x < a + PGSIZE.

(** The list of free pages starting at [h], linked through their first words. *)
Fixpoint flist (m : mem) (h : Z) (l : list Z) : Prop :=
  match l with
  | [] => h = 0
  | a :: l => h = a /\ page_ok a /\ flist m (load32 m a) l
  end.

Definition kready (s : kstate) : Prop :=
  cpu_ok (k_cpu s) /\ (kmem_use_lock s <> 0 -> free_lock (kmem_lock s)).

Record kinv (s : kstate) (l : list Z) : Prop := {
  ki_ready : kready s;
  ki_bytes : bytes_ok (k_mem s);
  ki_list : flist (k_mem s) (kmem_freelist s) l;
  ki_nodup : NoDup l }.

Lemma pages_disjoint a b x : page_ok a -> page_ok b -> in_page a x -> in_page b x -> a = b.
Proof. unfold page_ok, in_page, PGSIZE. intros [Ha _] [Hb _] H1 H2. zlia. Qed.

Lemma flist_pages m h l : flist m h l -> forall a, a ∈ l -> page_ok a.
Proof.
  revert h. induction l as [|b l IH]; intros h; simpl.
  - intros _ a. by rewrite elem_of_nil.
  - intros (-> & Hb & Hl) a. rewrite elem_of_cons. intros [->|Ha]; [done|by eapply IH].
Qed.

(** The list survives a change of memory outside its pages. *)
Lemma flist_frame m m' h l :
  (forall a x, a ∈ l -> in_page a x -> m' x = m x) -> flist m h l -> flist m' h l.
Proof.
  revert h. induction l as [|a l IH]; intros h Hm; simpl; [done|].
  intros (-> & Ha & Hl). split; [done|]. split; [done|].
  replace (load32 m' a) with (load32 m a).
  - apply IH; [|done]. intros b x Hb. apply Hm. set_solver.
  - apply load32_ext. intros x Hx. symmetry. apply (Hm a); [set_solver|].
    unfold in_page, PGSIZE. lia.
Qed.

(** A page outside the list may be overwritten. *)
Lemma flist_other m m' h l v : flist m h l -> page_ok v -> v ∉ l ->
  (forall x, ~ in_page v x -> m' x = m x) -> flist m' h l.
Proof.
  intros Hl Hv Hni Hm. eapply flist_frame; [|done]. intros a x Ha Hx. apply Hm. intros Hvx.
  apply Hni. rewrite (pages_disjoint v a x); [done|done| |done|done].
  by eapply flist_pages.
Qed.

Lemma page_ok_V2P v : page_ok v -> V2P v < PHYSTOP.
Proof. unfold page_ok, V2P, KERNBASE, PHYSTOP. intros (_ & _ & _ & H). rewrite u32_small; lia. Qed.

(** ** The operations against the list *)

(** The lock bookkeeping around an operation. *)
Definition after_lock (s : kstate) : cpu * spinlock :=
  if kmem_use_lock s =? 0 then (k_cpu s, kmem_lock s)
  else (popped (k_cpu s), freed (taken (kmem_lock s) me callers)).

Lemma after_lock_ready s m fl : kready s ->
  kready (KState (after_lock s).1 m (after_lock s).2 (kmem_use_lock s) fl).
Proof.
  intros [Hc Hl]. unfold after_lock. destruct (Z.eqb_spec (kmem_use_lock s) 0) as [E|E]; simpl.
  - by split.
  - split; [by apply cpu_ok_popped|done].
Qed.

Lemma kfree_run s v : kready s -> page_ok v ->
  kfree v s = Done tt (KState (after_lock s).1
    (store32 (memset (k_mem s) v 1 PGSIZE) v (kmem_freelist s)) (after_lock s).2
    (kmem_use_lock s) v).
Proof.
  intros [Hc Hl] Hv. pose proof (page_ok_V2P v Hv) as Hp. destruct Hv as (Hv1 & Hv2 & _).
  unfold kfree. rewrite Hv1. simpl negb.
  rewrite (proj2 (Z.ltb_ge _ _)), (proj2 (Z.leb_gt _ _)) by lia. simpl orb. cbv iota.
  unfold after_lock. destruct s as [c m l u fl]. simpl in *. munf. simpl.
  destruct (Z.eqb_spec u 0) as [->|Hu]; simpl; [done|].
  rewrite acquire_run by auto. simpl.
  destruct (Z.eqb_spec u 0); [done|]. simpl. rewrite release_run by done. done.
Qed.

Lemma kalloc_run s : kready s ->
  kalloc s = Done (kmem_freelist s) (KState (after_lock s).1 (k_mem s) (after_lock s).2
    (kmem_use_lock s)
    (if kmem_freelist s =? 0 then 0 else load32 (k_mem s) (kmem_freelist s))).
Proof.
  intros [Hc Hl]. unfold kalloc, after_lock. destruct s as [c m l u fl]. simpl in *. munf. simpl.
  destruct (Z.eqb_spec u 0) as [->|Hu]; simpl.
  - destruct (Z.eqb_spec fl 0) as [->|Hf]; done.
  - rewrite acquire_run by auto. simpl. destruct (Z.eqb_spec fl 0) as [->|Hf]; simpl;
      (destruct (Z.eqb_spec u 0); [done|]); simpl; by rewrite release_run.
Qed.

(** The memory [kfree] leaves. *)
Lemma kfree_mem m v fl x : ~ in_page v x ->
  store32 (memset m v 1 PGSIZE) v fl x = m x.
Proof.
  unfold in_page, PGSIZE. intros Hx. rewrite store32_ne by lia.
  rewrite memset_fill by lia. apply fill_out. lia.
Qed.

Lemma kfree_ok s l v : kinv s l -> page_ok v -> v ∉ l ->
  exists s', kfree v s = Done tt s' /\ kinv s' (v :: l) /\
    (forall x, ~ in_page v x -> k_mem s' x = k_mem s x).
Proof.
  intros [Hr Hb Hl Hn] Hv Hni. eexists. split; [by apply kfree_run|]. split.
  - split; simpl.
    + by apply after_lock_ready.
    + apply bytes_ok_store32. intros x. rewrite memset_fill by (unfold PGSIZE; lia).
      by apply bytes_ok_fill.
    + split; [done|]. split; [done|]. rewrite load32_store32_eq.
      assert (u32 (kmem_freelist s) = kmem_freelist s) as ->.
      { apply u32_small. destruct l as [|a l]; simpl in Hl; [lia|].
        destruct Hl as (-> & Ha & _). destruct Ha as (_ & _ & ? & ?).
        unfold KERNBASE, PHYSTOP in *. lia. }
      eapply flist_other; [done|done|done|]. intros x Hx. by apply kfree_mem.
    + by constructor.
  - intros x Hx. simpl. by apply kfree_mem.
Qed.

Lemma kalloc_ok s l : kinv s l ->
  exists s', kalloc s = Done (default 0 (head l)) s' /\ kinv s' (tail l) /\ k_mem s' = k_mem s.
Proof.
  intros [Hr Hb Hl Hn]. destruct l as [|a l]; simpl in *.
  - eexists. split; [rewrite kalloc_run by done; by rewrite Hl|]. split; [|done].
    split; simpl; [by apply after_lock_ready|done|done|constructor].
  - destruct Hl as (Ha & Hp & Hl). apply NoDup_cons in Hn as [Hni Hn].
    eexists. split; [rewrite kalloc_run by done; by rewrite Ha|]. split; [|done].
    split; simpl; [by apply after_lock_ready|done| |done].
    assert ((a =? 0) = false) as -> by (apply Z.eqb_neq; destruct Hp as (_ & _ & ? & _); lia).
    done.
Qed.

Lemma kfree_bad v s : v mod PGSIZE <> 0 \/ v < kend \/ PHYSTOP <= V2P v ->
  kfree v s = Panic "kfree".
Proof.
  intros Hb. unfold kfree. destruct (Z.eqb_spec (v mod PGSIZE) 0), (Z.ltb_spec v kend),
    (Z.leb_spec PHYSTOP (V2P v)); simpl; try done; lia.
Qed.

(** ** Clients *)

(** What a kernel does with the allocator: it gets pages, gives back pages it
    holds, and writes to the pages it holds. *)
Inductive client (s0 : kstate) : list Z -> kstate -> Prop :=
  | c_start : client s0 [] s0
  | c_alloc held s a s' : client s0 held s -> kalloc s = Done a s' ->
      client s0 (if a =? 0 then held else a :: held) s'
  | c_free h1 a h2 s s' : client s0 (h1 ++ a :: h2) s -> kfree a s = Done tt s' ->
      client s0 (h1 ++ h2) s'
  | c_write held s m : client s0 held s -> bytes_ok m ->
      (forall x, (forall a, a ∈ held -> ~ in_page a x) -> m x = k_mem s x) ->
      client s0 held (set_k_mem m s).

(** The pages are either held or free, never both. *)
Definition partition (pages held free : list Z) : Prop := held ++ free ≡ₚ pages.

Lemma client_inv s0 pages held s : kinv s0 pages -> client s0 held s ->
  exists free, kinv s free /\ partition pages held free.
Proof.
  intros H0. induction 1 as [|held s a s' Hc IH E|h1 a h2 s s' Hc IH E|held s m Hc IH Hb Hm].
  - exists pages. split; [done|]. unfold partition. done.
  - destruct IH as (free & Hk & Hp). destruct (kalloc_ok s free Hk) as (s1 & E1 & Hk1 & _).
    mdet. destruct free as [|b free]; simpl in *.
    + exists []. done.
    + assert ((b =? 0) = false) as ->.
      { apply Z.eqb_neq. pose proof (ki_list _ _ Hk) as (_ & (_ & _ & ? & _) & _). lia. }
      exists free. split; [done|]. unfold partition in *. rewrite <- Hp. simpl.
      by rewrite Permutation_middle.
  - destruct IH as (free & Hk & Hp). unfold partition in Hp.
    assert (NoDup (h1 ++ a :: h2 ++ free)) as Hnd.
    { rewrite app_comm_cons, app_assoc, Hp. apply H0. }
    apply NoDup_app in Hnd as (_ & _ & Hnd). apply NoDup_cons in Hnd as [Hni _].
    assert (page_ok a) as Ha.
    { eapply flist_pages; [apply H0|]. rewrite <- Hp. set_solver. }
    destruct (kfree_ok s free a Hk Ha ltac:(set_solver)) as (s1 & E1 & Hk1 & _). mdet.
    exists (a :: free). split; [done|]. unfold partition. rewrite <- Hp.
    rewrite <- !app_assoc. apply Permutation_app_head. simpl. by rewrite Permutation_middle.
  - destruct IH as (free & Hk & Hp). exists free. split; [|done].
    destruct Hk as [Hr Hbs Hl Hn]. split; simpl; [done|done| |done].
    eapply flist_frame; [|done]. intros b x Hb' Hx. apply Hm. intros a Ha Hax.
    assert (NoDup (held ++ free)) as Hnd by (unfold partition in Hp; rewrite Hp; apply H0).
    apply NoDup_app in Hnd as (_ & Hd & _). apply (Hd a Ha).
    rewrite (pages_disjoint a b x); [done| | |done|done].
    + eapply flist_pages; [apply H0|]. unfold partition in Hp. rewrite <- Hp. set_solver.
    + eapply flist_pages; [apply Hl|done].
Qed.

(** C14. The allocator never gives out a page twice: whatever its client writes to
    the pages it holds, these are distinct pages of the initial pool, giving one
    back succeeds, and a further page is one the client does not hold; 0 is
    returned only when the client holds them all. *)
Theorem allocator_safe s0 pages held s : kinv s0 pages -> client s0 held s ->
  NoDup held /\ (forall a, a ∈ held -> a ∈ pages /\ exists s', kfree a s = Done tt s') /\
  exists a s', kalloc s = Done a s' /\
    ((a ∈ pages /\ (a ∉ held) /\ a <> 0) \/ (a = 0 /\ (held ≡ₚ pages))).
Proof.
  intros H0 Hc. destruct (client_inv s0 pages held s H0 Hc) as (free & Hk & Hp).
  assert (NoDup (held ++ free)) as Hnd by (unfold partition in Hp; rewrite Hp; apply H0).
  apply NoDup_app in Hnd as (Hh & Hd & Hf). unfold partition in Hp.
  split; [done|]. split.
  - intros a Ha. assert (a ∈ pages) as Hin by (rewrite <- Hp; set_solver).
    split; [done|]. destruct (kfree_ok s free a Hk) as (s' & E & _); [|by apply Hd|eauto].
    eapply flist_pages; [apply H0|done].
  - destruct (kalloc_ok s free Hk) as (s' & E & _). eexists _, s'. split; [done|].
    destruct free as [|a free]; simpl.
    + right. by rewrite app_nil_r in Hp.
    + left. split; [rewrite <- Hp; set_solver|]. split; [intros Ha; apply (Hd a Ha); set_solver|].
      pose proof (ki_list _ _ Hk) as (_ & (_ & _ & ? & _) & _). lia.
Qed.

(** ** The initial pool *)

(** The [n] pages from address [p] on. *)
Definition pages_from (p : Z) (n : nat) : list Z := (fun i => p + PGSIZE * Z.of_nat i) <$> seq 0 n.

Lemma pages_from_S p n : pages_from p (S n) = p :: pages_from (p + PGSIZE) n.
Proof.
  unfold pages_from. simpl. f_equal; [lia|]. rewrite <- seq_shift, <- list_fmap_compose.
  apply list_fmap_ext. intros i x _. simpl. lia.
Qed.

Lemma elem_of_pages_from p n a : a ∈ pages_from p n <->
  exists i, (i < n)%nat /\ a = p + PGSIZE * Z.of_nat i.
Proof.
  unfold pages_from. rewrite list_elem_of_fmap. split.
  - intros (i & -> & Hi%elem_of_seq). exists i. split; [lia|done].
  - intros (i & Hi & ->). exists i. split; [done|]. apply elem_of_seq. lia.
Qed.

Lemma freerange_loop_ok vend n : forall p l s fuel,
  kinv s l -> (n < fuel)%nat -> (forall a, a ∈ pages_from p n -> page_ok a /\ a ∉ l) ->
  0 <= p -> p + PGSIZE * Z.of_nat n <= vend < p + PGSIZE * Z.of_nat n + PGSIZE ->
  vend + PGSIZE < 4294967296 ->
  exists s', freerange_loop p vend fuel s = Done tt s' /\
    kinv s' (reverse (pages_from p n) ++ l) /\
    (forall x, ~ p <= x < p + PGSIZE * Z.of_nat n -> k_mem s' x = k_mem s x).
Proof.
  induction n as [|n IH]; intros p l s [|fuel] Hk Hf Hp H0 Hv Hw; try lia;
    unfold PGSIZE in *; simpl freerange_loop; rewrite u32_small by (unfold PGSIZE; lia).
  - rewrite (proj2 (Z.leb_gt _ _)) by (unfold PGSIZE; lia). by exists s.
  - rewrite (proj2 (Z.leb_le _ _)) by (unfold PGSIZE; lia).
    rewrite pages_from_S in *. destruct (Hp p ltac:(set_solver)) as [Hpp Hpl].
    destruct (kfree_ok s l p Hk Hpp Hpl) as (s1 & E1 & Hk1 & Hx1).
    rewrite (bind_Done _ _ _ _ _ E1).
    destruct (IH (p + 4096) (p :: l) s1 fuel) as (s' & E' & Hk' & Hx'); try (unfold PGSIZE; lia); try done.
    + intros a Ha. destruct (Hp a ltac:(set_solver)) as [Ha1 Ha2]. split; [done|].
      apply elem_of_pages_from in Ha as (i & _ & ->). rewrite elem_of_cons. unfold PGSIZE.
      intros [|]; [lia|done].
    + exists s'. split; [done|]. rewrite reverse_cons, <- app_assoc. split; [done|].
      intros x Hx. rewrite Hx' by (unfold PGSIZE; lia). apply Hx1. unfold in_page, PGSIZE. lia.
Qed.

(** The first page and the number of pages of the range [vstart, vend). *)
Definition range_pages (vstart vend : Z) : list Z :=
  pages_from (PGROUNDUP vstart) (Z.to_nat ((vend - PGROUNDUP vstart) / PGSIZE)).

Lemma freerange_ok vstart vend l s : kinv s l ->
  0 <= PGROUNDUP vstart <= vend -> vend + PGSIZE < 4294967296 ->
  (forall a, a ∈ range_pages vstart vend -> page_ok a /\ a ∉ l) ->
  exists s', freerange vstart vend s = Done tt s' /\
    kinv s' (reverse (range_pages vstart vend) ++ l) /\
    (forall x, ~ PGROUNDUP vstart <= x < vend -> k_mem s' x = k_mem s x).
Proof.
  intros Hk Hr Hw Hp.
  destruct (freerange_loop_ok vend (Z.to_nat ((vend - PGROUNDUP vstart) / PGSIZE)) (PGROUNDUP vstart) l s
    (S (Z.to_nat (vend / PGSIZE)))) as (s' & E & Hk' & Hx); try done; try (unfold PGSIZE in *; zlia).
  exists s'. split; [exact E|]. split; [done|]. intros x Hn. apply Hx. unfold PGSIZE in *. zlia.
Qed.
End Kalloc.

(** After [kinit1] the free list holds exactly the whole pages of the range it
    was given, highest address first. *)
Theorem kinit1_pool me callers kend vstart vend s :
  cpu_ok (k_cpu s) -> bytes_ok (k_mem s) -> kmem_freelist s = 0 ->
  kend <= PGROUNDUP vstart -> KERNBASE <= PGROUNDUP vstart <= vend ->
  vend <= KERNBASE + PHYSTOP ->
  exists s', kinit1 me callers kend vstart vend s = Done tt s' /\
    kinv kend s' (reverse (range_pages vstart vend)) /\
    (forall x, ~ PGROUNDUP vstart <= x < vend -> k_mem s' x = k_mem s x) /\
    forall a, a ∈ range_pages vstart vend <->
      (a mod PGSIZE = 0 /\ PGROUNDUP vstart <= a /\ a + PGSIZE <= vend).
Proof.
  intros Hc Hb Hf Hk Hs Hv.
  assert (0 <= PGROUNDUP vstart /\ PGROUNDUP vstart mod PGSIZE = 0) as [Hs0 Hs1].
  { unfold KERNBASE in *. split; [lia|]. rewrite PGROUNDUP_eq. unfold PGSIZE. zlia. }
  assert (forall a, a ∈ range_pages vstart vend <->
    (a mod PGSIZE = 0 /\ PGROUNDUP vstart <= a /\ a + PGSIZE <= vend)) as Hmem.
  { intros a. unfold range_pages. rewrite elem_of_pages_from. unfold PGSIZE in *. split.
    - intros (i & Hi & ->). zlia.
    - intros (H1 & H2 & H3). exists (Z.to_nat ((a - PGROUNDUP vstart) / 4096)). zlia. }
  set (s1 := KState (k_cpu s) (k_mem s) (initlock "kmem" (kmem_lock s)) 0 (kmem_freelist s)).
  destruct (freerange_ok me callers kend vstart vend [] s1) as (s' & E & Hk' & Hx).
  - split; [by split|done|done|constructor].
  - unfold KERNBASE in *. lia.
  - unfold KERNBASE, PHYSTOP, PGSIZE in *. lia.
  - intros a (H1 & H2 & H3)%Hmem. split; [|apply not_elem_of_nil].
    unfold page_ok, KERNBASE, PHYSTOP, PGSIZE in *. lia.
  - exists s'. rewrite app_nil_r in Hk'. split; [|by split]. unfold kinit1.
    do 2 (erewrite bind_Done; [|reflexivity]). exact E.
Qed.

Definition sample_kstate : kstate :=
  KState (Cpu 0 0 0 None false) (fun _ => 0) (Spinlock 0 "" None []) 0 0.

Lemma kinit1_pool_witness : exists s',
  kinit1 0 [] 0x80100800 0x80100800 0x80103000 sample_kstate = Done tt s' /\
  kinv 0x80100800 s' [0x80102000; 0x80101000].
Proof.
  destruct (kinit1_pool 0 [] 0x80100800 0x80100800 0x80103000 sample_kstate) as (s' & E & Hk & _);
    [by split|intros a; simpl; lia|done|by vm_compute|by vm_compute|by vm_compute|].
  exists s'. split; [exact E|exact Hk].
Defined.

(** The pool of the sample, with one page handed out. *)
Lemma allocator_safe_witness : exists s0 s1 held, kinv 0 s0 [0x80102000; 0x80101000] /\
  client 0 [] 0 s0 held s1 /\ held = [0x80102000] /\
  exists a s', kalloc 0 [] s1 = Done a s' /\ a <> 0x80102000.
Proof.
  set (m := store32 (fun _ => 0) 0x80102000 0x80101000).
  set (s0 := KState (Cpu 0 0 0 None false) m (Spinlock 0 "" None []) 0 0x80102000).
  assert (kinv 0 s0 [0x80102000; 0x80101000]) as Hk.
  { split; [by split| |by vm_compute|].
    - apply bytes_ok_store32. intros a. lia.
    - repeat constructor; rewrite ?elem_of_cons, ?elem_of_nil; lia. }
  destruct (kalloc 0 [] s0) as [a s1| |] eqn:E; [|by vm_compute in E..].
  assert (a = 0x80102000) as -> by (vm_compute in E; congruence).
  pose proof (c_alloc 0 [] 0 s0 [] s0 _ s1 (c_start 0 [] 0 s0) E) as Hc. simpl in Hc.
  destruct (allocator_safe 0 [] 0 s0 _ _ _ Hk Hc) as (_ & _ & a & s' & E' & Ha).
  exists s0, s1, [0x80102000]. split; [exact Hk|]. split; [exact Hc|]. split; [done|].
  exists a, s'. split; [exact E'|]. destruct Ha as [(_ & Hn & _)|[-> _]]; [set_solver|lia].
Defined.
