(* ===== verification/Vm.v ===== *)
(** * Page tables (vm.c)

    The routines walk and build two-level page tables in the memory of Kalloc.v,
    addressed through the kernel's direct map. The proofs view a page directory
    as the function [pte_of] from virtual addresses to page-table entries. *)

From stdpp Require Import base tactics numbers list sets strings.
From Stdlib Require Import ZArith Lia ZifyNat.
From S2P Require Import Prelude Layout Spinlock CString Kalloc.

Definition present (pte : Z) : bool := negb (Z.land pte PTE_P =? 0).
Definition user (pte : Z) : bool := negb (Z.land pte PTE_U =? 0).

Definition rd (a : Z) : M kstate Z := gets (fun s => load32 (k_mem s) a).
Definition wr (a v : Z) : M kstate unit :=
  modify (fun s => set_k_mem (store32 (k_mem s) a v) s).
Definition mset (a c n : Z) : M kstate unit :=
  modify (fun s => set_k_mem (memset (k_mem s) a c n) s).
Definition mmove (d s n : Z) : M kstate unit :=
  modify (fun k => set_k_mem (memmove (k_mem k) d s (Z.to_nat n)) k).

(** One entry of [kmap[]]. *)
Record kmap := Kmap { km_virt : Z; km_phys_start : Z; km_phys_end : Z; km_perm : Z }.

Section Vm.
Variable me : nat.
Variable callers : list Z.
(** The linker symbols [end] and [data]. *)
Variables kend data : Z.

Abbreviation kalloc := (kalloc me callers).
Abbreviation kfree := (kfree me callers kend).

(** A null result is 0. *)
Definition walkpgdir (pgdir va : Z) (alloc : bool) : M kstate Z :=
  let pde := pgdir + 4 * PDX va in
  let! d := rd pde in
  if present d then m_ret (P2V (PTE_ADDR d) + 4 * PTX va)
  else if negb alloc then m_ret 0
  else
    let! pgtab := kalloc in
    if pgtab =? 0 then m_ret 0
    else
      mset pgtab 0 PGSIZE ;;;
      wr pde (Z.lor (Z.lor (Z.lor (V2P pgtab) PTE_P) PTE_W) PTE_U) ;;;
      m_ret (pgtab + 4 * PTX va).

(** The [for(;;)] of [mappages]; it ends at page [last]. *)
Fixpoint mappages_loop (pgdir a last pa perm : Z) (fuel : nat) : M kstate Z :=
  match fuel with
  | O => block
  | S fuel =>
      let! pte := walkpgdir pgdir a true in
      if pte =? 0 then m_ret (-1)
      else
        let! v := rd pte in
        if present v then panic "remap"
        else
          wr pte (Z.lor (Z.lor pa perm) PTE_P) ;;;
          if a =? last then m_ret 0
          else mappages_loop pgdir (u32 (a + PGSIZE)) last (u32 (pa + PGSIZE)) perm fuel
  end.
(** From [a] the loop reaches [last] after [(last - a) / PGSIZE] steps of
    unsigned arithmetic. *)
Definition mappages (pgdir va size pa perm : Z) : M kstate Z :=
  let a := PGROUNDDOWN va in
  let last := PGROUNDDOWN (u32 (va + size - 1)) in
  mappages_loop pgdir a last pa perm (S (Z.to_nat (u32 (last - a) / PGSIZE))).

Definition kmaps : list kmap :=
  [ Kmap KERNBASE 0 EXTMEM PTE_W;
    Kmap KERNLINK (V2P KERNLINK) (V2P data) 0;
    Kmap data (V2P data) PHYSTOP PTE_W;
    Kmap DEVSPACE DEVSPACE 0 PTE_W ].

(** The loop of [deallocuvm]; every turn advances [a] by a page at least. *)
Fixpoint deallocuvm_loop (pgdir a oldsz : Z) (fuel : nat) : M kstate unit :=
  match fuel with
  | O => block
  | S fuel =>
      if negb (a <? oldsz) then m_ret tt
      else
        let! pte := walkpgdir pgdir a false in
        if pte =? 0 then
          deallocuvm_loop pgdir
            (u32 (u32 (PGADDR (PDX a + 1) 0 0 - PGSIZE) + PGSIZE)) oldsz fuel
        else
          let! v := rd pte in
          when (present v)
            (let pa := PTE_ADDR v in
             if pa =? 0 then panic "kfree"
             else kfree (P2V pa) ;;; wr pte 0) ;;;
          deallocuvm_loop pgdir (u32 (a + PGSIZE)) oldsz fuel
  end.
Definition deallocuvm (pgdir oldsz newsz : Z) : M kstate Z :=
  if oldsz <=? newsz then m_ret oldsz
  else
    deallocuvm_loop pgdir (PGROUNDUP newsz) oldsz (S (Z.to_nat (oldsz / PGSIZE + 1))) ;;;
    m_ret newsz.

(** The loop of [freevm] over the page directory. *)
Definition freevm_tables (pgdir : Z) : M kstate unit :=
  mfor (seq 0 (Z.to_nat NPDENTRIES)) (fun i =>
    let! e := rd (pgdir + 4 * Z.of_nat i) in
    when (present e) (kfree (P2V (PTE_ADDR e)))).
Definition freevm (pgdir : Z) : M kstate unit :=
  if pgdir =? 0 then panic "freevm: no pgdir"
  else
    deallocuvm pgdir KERNBASE 0 ;;;
    freevm_tables pgdir ;;;
    kfree pgdir.

(** The loop of [setupkvm] over [kmap]; the result says whether it succeeded. *)
Fixpoint setup_maps (pgdir : Z) (l : list kmap) : M kstate bool :=
  match l with
  | [] => m_ret true
  | k :: l =>
      let! r := mappages pgdir (km_virt k) (u32 (km_phys_end k - km_phys_start k))
                  (km_phys_start k) (km_perm k) in
      if r <? 0 then m_ret false else setup_maps pgdir l
  end.
Definition setupkvm : M kstate Z :=
  let! pgdir := kalloc in
  if pgdir =? 0 then m_ret 0
  else
    mset pgdir 0 PGSIZE ;;;
    if DEVSPACE <? P2V PHYSTOP then panic "PHYSTOP too high"
    else
      let! ok := setup_maps pgdir kmaps in
      if ok then m_ret pgdir else freevm pgdir ;;; m_ret 0.

(** [init] is the address of the binary. A null [mem] faults in [memset]. *)
Definition inituvm (pgdir init sz : Z) : M kstate unit :=
  if PGSIZE <=? sz then panic "inituvm: more than a page"
  else
    let! mem := kalloc in
    if mem =? 0 then panic "trap"
    else
      mset mem 0 PGSIZE ;;;
      mappages pgdir 0 PGSIZE (V2P mem) (Z.lor PTE_W PTE_U) ;;;
      mmove mem init sz.

(** The loop of [allocuvm] from page [a] on. *)
Fixpoint allocuvm_loop (pgdir a oldsz newsz : Z) (fuel : nat) : M kstate Z :=
  match fuel with
  | O => block
  | S fuel =>
      if negb (a <? newsz) then m_ret newsz
      else
        let! mem := kalloc in
        if mem =? 0 then deallocuvm pgdir newsz oldsz ;;; m_ret 0
        else
          mset mem 0 PGSIZE ;;;
          let! r := mappages pgdir a PGSIZE (V2P mem) (Z.lor PTE_W PTE_U) in
          if r <? 0 then deallocuvm pgdir newsz oldsz ;;; kfree mem ;;; m_ret 0
          else allocuvm_loop pgdir (u32 (a + PGSIZE)) oldsz newsz fuel
  end.
Definition allocuvm (pgdir oldsz newsz : Z) : M kstate Z :=
  if KERNBASE <=? newsz then m_ret 0
  else if newsz <? oldsz then m_ret oldsz
  else allocuvm_loop pgdir (PGROUNDUP oldsz) oldsz newsz (S (Z.to_nat (newsz / PGSIZE + 1))).

Definition clearpteu (pgdir uva : Z) : M kstate unit :=
  let! pte := walkpgdir pgdir uva false in
  if pte =? 0 then panic "clearpteu"
  else
    let! v := rd pte in
    wr pte (Z.land v (Z.lnot PTE_U)).

(** The loop of [copyuvm] from page [i] on; [false] is [goto bad]. *)
Fixpoint copyuvm_loop (pgdir d i sz : Z) (fuel : nat) : M kstate bool :=
  match fuel with
  | O => block
  | S fuel =>
      if negb (i <? sz) then m_ret true
      else
        let! pte := walkpgdir pgdir i false in
        if pte =? 0 then panic "copyuvm: pte should exist"
        else
          let! v := rd pte in
          if negb (present v) then panic "copyuvm: page not present"
          else
            let! mem := kalloc in
            if mem =? 0 then m_ret false
            else
              mmove mem (P2V (PTE_ADDR v)) PGSIZE ;;;
              let! r := mappages d i PGSIZE (V2P mem) (PTE_FLAGS v) in
              if r <? 0 then kfree mem ;;; m_ret false
              else copyuvm_loop pgdir d (u32 (i + PGSIZE)) sz fuel
  end.
Definition copyuvm (pgdir sz : Z) : M kstate Z :=
  let! d := setupkvm in
  if d =? 0 then m_ret 0
  else
    let! ok := copyuvm_loop pgdir d 0 sz (S (Z.to_nat (sz / PGSIZE + 1))) in
    if ok then m_ret d else freevm d ;;; m_ret 0.

(** There is no test for a null [pte]: the word at address 0 is read then. *)
Definition uva2ka (pgdir uva : Z) : M kstate Z :=
  let! pte := walkpgdir pgdir uva false in
  let! v := rd pte in
  if negb (present v) then m_ret 0
  else if negb (user v) then m_ret 0
  else m_ret (P2V (PTE_ADDR v)).

(** [copyout] of the bytes [src], wherever they are: the string of another process or an
    array on the kernel's stack. *)
Fixpoint copyout_loop (pgdir va : Z) (src : list Z) (fuel : nat) : M kstate Z :=
  match fuel with
  | O => block
  | S fuel =>
      let len := Z.of_nat (length src) in
      if negb (0 <? len) then m_ret 0
      else
        let va0 := PGROUNDDOWN va in
        let! pa0 := uva2ka pgdir va0 in
        if pa0 =? 0 then m_ret (-1)
        else
          let n := u32 (PGSIZE - (va - va0)) in
          let n := Z.to_nat (if len <? n then len else n) in
          modify (fun s => set_k_mem (store_bytes (k_mem s) (pa0 + (va - va0)) (take n src)) s) ;;;
          copyout_loop pgdir (u32 (va0 + PGSIZE)) (drop n src) fuel
  end.
Definition copyout (pgdir va : Z) (src : list Z) : M kstate Z :=
  copyout_loop pgdir va src (S (S (S (Z.to_nat (Z.of_nat (length src) / PGSIZE))))).

(** [readi ip dst off n] of fs.c, for the inode being loaded, and the state it runs on. *)
Context {S : Type} (km : lens S kstate).
Variable readi : Z -> Z -> Z -> M S Z.

Fixpoint loaduvm_loop (pgdir addr offset i sz : Z) (fuel : nat) : M S Z :=
  match fuel with
  | O => block
  | Datatypes.S fuel =>
      if negb (i <? sz) then m_ret 0
      else
        let! pte := zoom km (walkpgdir pgdir (u32 (addr + i)) false) in
        if pte =? 0 then panic "loaduvm: address should exist"
        else
          let! v := zoom km (rd pte) in
          let n := if u32 (sz - i) <? PGSIZE then u32 (sz - i) else PGSIZE in
          let! r := readi (P2V (PTE_ADDR v)) (u32 (offset + i)) n in
          if negb (r =? n) then m_ret (-1)
          else loaduvm_loop pgdir addr offset (u32 (i + PGSIZE)) sz fuel
  end.
Definition loaduvm (pgdir addr offset sz : Z) : M S Z :=
  if negb (addr mod PGSIZE =? 0) then panic "loaduvm: addr must be page aligned"
  else loaduvm_loop pgdir addr offset 0 sz (Datatypes.S (Z.to_nat (sz / PGSIZE + 1))).
End Vm.
