(* ===== verification/VmSpec.v ===== *)
(** * What the page-table routines do (theorems on Vm.v)

    [pd_wf] says that a page directory and its page tables are distinct pages the
    allocator has handed out. Under it, [walkpgdir] and [mappages] are updates of
    the function [pte_of] from virtual addresses to page-table entries. *)

From stdpp Require Import base tactics numbers list sets strings.
From Stdlib Require Import ZArith Lia ZifyNat.
From S2P Require Import Prelude Layout Spinlock CString Kalloc Vm.

(** ** Entries and pages *)

Lemma land_1 x : Z.land x 1 = x mod 2.
Proof. apply (Z.land_ones x 1). lia. Qed.

Lemma present_odd x : present x = negb (x mod 2 =? 0).
Proof. unfold present, PTE_P. by rewrite land_1. Qed.

Lemma lor_low a b : a mod 4096 = 0 -> 0 <= b < 4096 -> Z.lor a b = a + b.
Proof.
  intros Ha Hb. pose proof (lor_disjoint (a / 4096) b 12 ltac:(lia) Hb) as H.
  rewrite Z.shiftl_mul_pow2 in H by lia. change (2 ^ 12) with 4096 in H.
  replace (a / 4096 * 4096) with a in H by zlia. done.
Qed.

Lemma PTE_ADDR_low a b : a mod 4096 = 0 -> 0 <= b < 4096 -> 0 <= a < 4294967296 ->
  PTE_ADDR (a + b) = a.
Proof. intros Ha Hb Hr. rewrite PTE_ADDR_eq, u32_small by zlia. zlia. Qed.

(** The page a virtual address lies in determines its two table indices. *)
Lemma same_page va va' : PGROUNDDOWN va = PGROUNDDOWN va' <-> PDX va = PDX va' /\ PTX va = PTX va'.
Proof.
  rewrite !PGROUNDDOWN_eq, !PDX_div, !PTX_div.
  pose proof (u32_range va). pose proof (u32_range va'). zlia.
Qed.

Definition pde_at (m : mem) (d i : Z) : Z := load32 m (d + 4 * i).
Definition table (e : Z) : Z := P2V (PTE_ADDR e).
Definition pte_addr (m : mem) (d va : Z) : Z := table (pde_at m d (PDX va)) + 4 * PTX va.
Definition pte_of (m : mem) (d va : Z) : Z :=
  if present (pde_at m d (PDX va)) then load32 m (pte_addr m d va) else 0.

(** The number of indices below [n] with [f]. *)
Fixpoint count (f : nat -> bool) (n : nat) : nat :=
  match n with O => 0%nat | S n => ((if f n then 1 else 0) + count f n)%nat end.

Lemma count_mono f g n : (forall i, (i < n)%nat -> f i = true -> g i = true) -> (count f n <= count g n)%nat.
Proof.
  induction n as [|n IH]; intros H; [done|]. cbn [count]. specialize (IH ltac:(intros; apply H; (done || lia))).
  specialize (H n ltac:(lia)). destruct (f n), (g n); lia.
Qed.

Lemma count_ext f g n : (forall i, (i < n)%nat -> g i = f i) -> count g n = count f n.
Proof. induction n as [|n IH]; intros H; [done|]. cbn [count]. rewrite H, IH by (intros; lia || (apply H; lia)). done. Qed.

Lemma count_new f g i n : (i < n)%nat -> f i = false -> g i = true -> (forall j, (j < n)%nat -> j <> i -> g j = f j) ->
  count g n = S (count f n).
Proof.
  induction n as [|n IH]; intros Hi Hf Hg Hj; [lia|]. cbn [count]. destruct (decide (i = n)) as [->|Hne].
  - rewrite Hf, Hg, (count_ext f g n) by (intros; apply Hj; lia). done.
  - rewrite Hj by lia. rewrite IH by (done || lia || (intros; apply Hj; lia)). destruct (f n); lia.
Qed.

(** The number of page tables of a directory. *)
Definition tables (m : mem) (d : Z) : nat := count (fun i => present (pde_at m d (Z.of_nat i))) 1024.

(** Every page that is no longer free became a table, for an entry in [P]. *)
Record grown (m : mem) (free : list Z) (m' : mem) (free' : list Z) (d : Z) (P : Z -> Prop) : Prop := Grown {
  gr_count : (tables m' d + length free' = tables m d + length free)%nat;
  gr_where : forall j, 0 <= j < 1024 -> present (pde_at m' d j) = true -> present (pde_at m d j) = true \/ P j }.

Lemma grown_refl m free d P : grown m free m free d P.
Proof. split; [done|by left]. Qed.

Lemma grown_trans m free m1 free1 m2 free2 d (P Q R : Z -> Prop) :
  grown m free m1 free1 d P -> grown m1 free1 m2 free2 d Q -> (forall j, P j \/ Q j -> R j) -> grown m free m2 free2 d R.
Proof.
  intros [A1 A2] [B1 B2] H. split; [lia|]. intros j Hj Hp. destruct (B2 j Hj Hp) as [Hp1|]; [|auto].
  destruct (A2 j Hj Hp1); auto.
Qed.

Section VmSpec.
Variable me : nat.
Variable callers : list Z.
Variable kend : Z.

Abbreviation page_ok := (page_ok kend).
Abbreviation kinv := (kinv kend).

(** The directory and the page tables it points to are distinct pages that are not
    free. *)
Record pd_wf (m : mem) (free : list Z) (d : Z) : Prop := {
  pd_dir : page_ok d;
  pd_notfree : d ∉ free;
  pd_table : forall i, 0 <= i < 1024 -> present (pde_at m d i) = true ->
    page_ok (table (pde_at m d i)) /\ (table (pde_at m d i) ∉ free) /\
    table (pde_at m d i) <> d;
  pd_inj : forall i j, 0 <= i < 1024 -> 0 <= j < 1024 -> present (pde_at m d i) = true ->
    present (pde_at m d j) = true -> table (pde_at m d i) = table (pde_at m d j) -> i = j }.

(** A word of a page is untouched by changes outside the page. *)
Lemma load32_page m m' a i : 0 <= i < 1024 ->
  (forall x, in_page a x -> m' x = m x) -> load32 m' (a + 4 * i) = load32 m (a + 4 * i).
Proof.
  intros Hi H. apply load32_ext. intros x Hx. apply H. unfold in_page, PGSIZE. lia.
Qed.

Lemma store32_outside m a i v b x : page_ok a -> page_ok b -> a <> b -> 0 <= i < 1024 ->
  in_page b x -> store32 m (a + 4 * i) v x = m x.
Proof.
  intros Ha Hb Hne Hi Hx. apply store32_ne.
  destruct (decide (a + 4 * i <= x < a + 4 * i + 4)); [|lia].
  exfalso. apply Hne. apply (pages_disjoint kend a b x Ha Hb); [|done].
  unfold in_page, PGSIZE. lia.
Qed.

Lemma memset_outside m a c b x : page_ok a -> page_ok b -> a <> b -> in_page b x ->
  memset m a c PGSIZE x = m x.
Proof.
  intros Ha Hb Hne Hx. rewrite memset_fill by (unfold PGSIZE; lia). apply fill_out.
  destruct (decide (a <= x < a + PGSIZE)); [|lia].
  exfalso. apply Hne. by apply (pages_disjoint kend a b x).
Qed.

Lemma load32_zero_page m a i : 0 <= i < 1024 -> load32 (memset m a 0 PGSIZE) (a + 4 * i) = 0.
Proof.
  intros Hi. unfold load32. rewrite !memset_fill by (unfold PGSIZE; lia).
  rewrite !fill_in by (unfold PGSIZE; lia). done.
Qed.

Lemma walk_lookup d va s : walkpgdir me callers d va false s =
  Done (if present (pde_at (k_mem s) d (PDX va)) then pte_addr (k_mem s) d va else 0) s.
Proof.
  unfold walkpgdir, rd. munf. fold (pde_at (k_mem s) d (PDX va)).
  by destruct (present _).
Qed.

(** Writes outside the free pages keep the allocator's invariant. *)
Lemma kinv_write s free m : kinv s free -> bytes_ok m ->
  (forall a x, a ∈ free -> in_page a x -> m x = k_mem s x) -> kinv (set_k_mem m s) free.
Proof.
  intros [Hr Hb Hl Hn] Hm Hx. split; simpl; [done|done| |done]. by eapply flist_frame.
Qed.

(** The page-directory entry for a fresh page table. *)
Definition new_pde (pg : Z) : Z := Z.lor (Z.lor (Z.lor (V2P pg) PTE_P) PTE_W) PTE_U.

Lemma new_pde_facts pg : page_ok pg ->
  0 <= new_pde pg < 4294967296 /\ present (new_pde pg) = true /\ table (new_pde pg) = pg.
Proof.
  intros (Hm & _ & _ & Hr). unfold new_pde, table, P2V. rewrite <- !Z.lor_assoc.
  change (Z.lor PTE_P (Z.lor PTE_W PTE_U)) with 7. unfold V2P, KERNBASE, PHYSTOP, PGSIZE in *.
  rewrite u32_small by lia. rewrite lor_low by zlia. split; [lia|]. split.
  - rewrite present_odd. destruct (Z.eqb_spec ((pg - 2147483648 + 7) mod 2) 0); [zlia|done].
  - rewrite PTE_ADDR_low by zlia. rewrite u32_small by lia. lia.
Qed.

(** What a routine may change: the directory, its tables and free pages. *)
Definition touches (m : mem) (free : list Z) (d x : Z) : Prop :=
  in_page d x \/ (exists a, a ∈ free /\ in_page a x) \/
  (exists i, 0 <= i < 1024 /\ present (pde_at m d i) = true /\ in_page (table (pde_at m d i)) x).

(** Installing a zeroed page table [pg] for the absent entry [i]. *)
Section Install.
Variables (m : mem) (free : list Z) (d i pg : Z).
Hypothesis Hwf : pd_wf m (pg :: free) d.
Hypothesis Hpg : page_ok pg.
Hypothesis Hpgf : pg ∉ free.
Hypothesis Hi : 0 <= i < 1024.
Hypothesis Habs : present (pde_at m d i) = false.

Definition installed : mem := store32 (memset m pg 0 PGSIZE) (d + 4 * i) (new_pde pg).

Lemma install_dir_ne : d <> pg.
Proof using Hwf Hpg Hpgf Hi Habs. pose proof (pd_notfree _ _ _ Hwf). set_solver. Qed.

Lemma install_outside b x : page_ok b -> b <> d -> b <> pg -> in_page b x -> installed x = m x.
Proof using Hwf Hpg Hpgf Hi Habs.
  intros Hb Hd Hp Hx. unfold installed.
  rewrite (store32_outside _ d i _ b) by (apply Hwf || done).
  by apply (memset_outside _ pg _ b).
Qed.

Lemma install_pde j : 0 <= j < 1024 ->
  pde_at installed d j = if decide (j = i) then new_pde pg else pde_at m d j.
Proof using Hwf Hpg Hpgf Hi Habs.
  intros Hj. unfold pde_at, installed. destruct (decide (j = i)) as [->|Hne].
  - rewrite load32_store32_eq. apply u32_small, (new_pde_facts pg Hpg).
  - rewrite load32_store32_ne by lia. apply load32_page; [done|].
    intros x Hx. apply (memset_outside _ pg _ d); try done; [apply Hwf|].
    pose proof install_dir_ne. congruence.
Qed.

Lemma install_grown : grown m (pg :: free) installed free d (eq i).
Proof using Hwf Hpg Hpgf Hi Habs.
  destruct (new_pde_facts pg Hpg) as (_ & Hpr & _). split.
  - assert (E : tables installed d = S (tables m d)); [|cbn [length]; lia]. apply (count_new _ _ (Z.to_nat i)); [lia|..].
    + by rewrite Z2Nat.id by lia.
    + by rewrite Z2Nat.id, install_pde, decide_True by (done || lia).
    + intros j Hj Hne. by rewrite install_pde, decide_False by lia.
  - intros j Hj. rewrite install_pde by done. destruct (decide (j = i)) as [->|]; [by right|by left].
Qed.

Lemma install_new_table j : 0 <= j < 1024 -> load32 installed (pg + 4 * j) = 0.
Proof using Hwf Hpg Hpgf Hi Habs.
  intros Hj. transitivity (load32 (memset m pg 0 PGSIZE) (pg + 4 * j));
    [|by apply load32_zero_page]. apply load32_page; [done|]. intros x Hx.
  apply (store32_outside _ d i _ pg); [apply Hwf|done|apply install_dir_ne|done|done].
Qed.

Lemma install_wf : pd_wf installed free d.
Proof using Hwf Hpg Hpgf Hi Habs.
  destruct (new_pde_facts pg Hpg) as (_ & Hpr & Htab). pose proof Hwf as [H1 H2 H3 H4]. split.
  - done.
  - set_solver.
  - intros j Hj. rewrite install_pde by done. destruct (decide (j = i)) as [->|Hne].
    + intros _. rewrite Htab. split; [done|]. split; [done|]. pose proof install_dir_ne. congruence.
    + intros Hp. destruct (H3 j Hj Hp) as (T1 & T2 & T3). split; [done|]. split; [set_solver|done].
  - intros j k Hj Hk. rewrite !install_pde by done.
    destruct (decide (j = i)) as [->|Hne], (decide (k = i)) as [->|Hne']; try done.
    + intros _ Hp. rewrite Htab. intros E. destruct (H3 k Hk Hp) as (_ & T2 & _). set_solver.
    + intros Hp _. rewrite Htab. intros E. destruct (H3 j Hj Hp) as (_ & T2 & _). set_solver.
    + auto.
Qed.

Lemma install_pte va : pte_of installed d va = pte_of m d va.
Proof using Hwf Hpg Hpgf Hi Habs.
  destruct (new_pde_facts pg Hpg) as (_ & Hpr & Htab).
  pose proof (PDX_range va) as Hv. pose proof (PTX_range va) as Ht.
  unfold pte_of, pte_addr. rewrite install_pde by done.
  destruct (decide (PDX va = i)) as [->|Hne].
  - rewrite Hpr, Habs, Htab. by apply install_new_table.
  - destruct (present (pde_at m d (PDX va))) eqn:Hp; [|done].
    destruct (pd_table _ _ _ Hwf _ Hv Hp) as (T1 & T2 & T3).
    apply load32_page; [done|]. intros x Hx.
    apply (install_outside (table (pde_at m d (PDX va)))); [done|done|set_solver|done].
Qed.

Lemma install_frame x : ~ touches m (pg :: free) d x -> installed x = m x.
Proof using Hwf Hpg Hpgf Hi Habs.
  intros Hx. unfold installed. rewrite store32_ne.
  - rewrite memset_fill by (unfold PGSIZE; lia). apply fill_out.
    destruct (decide (pg <= x < pg + PGSIZE)) as [Hin|Hin]; [|lia].
    exfalso. apply Hx. right; left. exists pg. split; [set_solver|done].
  - destruct (decide (d <= x < d + PGSIZE)) as [Hin|Hin]; [by exfalso; apply Hx; left|].
    unfold PGSIZE in Hin. lia.
Qed.

Lemma install_touches x : touches installed free d x -> touches m (pg :: free) d x.
Proof using Hwf Hpg Hpgf Hi Habs.
  intros [Hx|[(a & Ha & Hx)|(j & Hj & Hpj & Hx)]].
  - by left.
  - right; left. exists a. split; [set_solver|done].
  - rewrite install_pde in Hpj, Hx by done. destruct (decide (j = i)) as [->|Hne].
    + right; left. exists pg. destruct (new_pde_facts pg Hpg) as (_ & _ & Htab).
      rewrite Htab in Hx. split; [set_solver|done].
    + right; right. eauto.
Qed.
End Install.

(** [walkpgdir] with [alloc] set finds or makes the page table; it returns 0 only
    when no page is free. *)
Lemma walk_alloc d va s free : kinv s free -> pd_wf (k_mem s) free d ->
  exists r s' free', walkpgdir me callers d va true s = Done r s' /\
    kinv s' free' /\ pd_wf (k_mem s') free' d /\ (free' ⊆ free) /\
    (forall va', pte_of (k_mem s') d va' = pte_of (k_mem s) d va') /\
    (forall x, ~ touches (k_mem s) free d x -> k_mem s' x = k_mem s x) /\
    (forall x, touches (k_mem s') free' d x -> touches (k_mem s) free d x) /\
    grown (k_mem s) free (k_mem s') free' d (eq (PDX va)) /\
    ((r = 0 /\ free = [] /\ free' = [] /\ k_mem s' = k_mem s /\ present (pde_at (k_mem s) d (PDX va)) = false) \/
     (r <> 0 /\ r = pte_addr (k_mem s') d va /\ present (pde_at (k_mem s') d (PDX va)) = true)).
Proof.
  intros Hk Hwf. pose proof (PDX_range va) as Hv. pose proof (PTX_range va) as Ht.
  unfold walkpgdir, rd. erewrite bind_Done by reflexivity.
  fold (pde_at (k_mem s) d (PDX va)). destruct (present (pde_at (k_mem s) d (PDX va))) eqn:Hp.
  { eexists _, s, free. split; [done|]. do 6 (split; [done|]). split; [apply grown_refl|]. right.
    split; [|done]. destruct (pd_table _ _ _ Hwf _ Hv Hp) as ((_ & _ & ? & _) & _ & _).
    fold (table (pde_at (k_mem s) d (PDX va))). lia. }
  change (negb true) with false. cbv iota.
  destruct (kalloc_ok me callers kend s free Hk) as (s1 & E1 & Hk1 & Hm1).
  rewrite (bind_Done _ _ _ _ _ E1). destruct free as [|pg free]; simpl in E1, Hk1 |- *.
  { exists 0, s1, []. rewrite Hm1. split; [done|]. split; [done|]. split; [done|].
    do 4 (split; [done|]). split; [apply grown_refl|]. by left. }
  pose proof (ki_list _ _ _ Hk) as (_ & Hpg & _). pose proof (ki_nodup _ _ _ Hk) as Hnd.
  apply NoDup_cons in Hnd as [Hpgf _].
  destruct (Z.eqb_spec pg 0) as [->|Hpg0]; [destruct Hpg as (_ & _ & ? & _); lia|].
  unfold mset, wr. do 2 (erewrite bind_Done; [|reflexivity]).
  fold (new_pde pg). set (s' := set_k_mem _ _).
  assert (k_mem s' = installed (k_mem s) d (PDX va) pg) as Hm'.
  { unfold s', installed. simpl. by rewrite Hm1. }
  assert (bytes_ok (k_mem s')) as Hb'.
  { unfold s'. simpl. apply bytes_ok_store32. intros x.
    rewrite memset_fill by (unfold PGSIZE; lia). apply bytes_ok_fill. rewrite Hm1. apply Hk. }
  assert (forall b x, page_ok b -> b <> d -> b <> pg -> in_page b x -> k_mem s' x = k_mem s x) as Ho.
  { intros b x ? ? ? ?. rewrite Hm'. by eapply install_outside. }
  assert (kinv s' free) as Hk'.
  { apply (kinv_write s1); [done|done|]. intros a x Ha Hx.
    transitivity (k_mem s x); [apply (Ho a); [| | |done]|by rewrite Hm1].
    - eapply flist_pages; [apply Hk1|done].
    - intros ->. apply (pd_notfree _ _ _ Hwf). set_solver.
    - intros ->. done. }
  eexists _, s', free. split; [done|]. split; [done|].
  split; [rewrite Hm'; by apply install_wf|]. split; [set_solver|].
  split; [intros va'; rewrite Hm'; by eapply install_pte|].
  split; [intros x Hx; rewrite Hm'; by eapply install_frame|].
  split; [intros x; rewrite Hm'; by eapply install_touches|].
  split; [rewrite Hm'; by apply install_grown|].
  right. unfold pte_addr. rewrite Hm'.
  rewrite (install_pde _ free _ _ _ Hwf Hpg Hpgf Hv Hp), decide_True by done.
  destruct (new_pde_facts pg Hpg) as (_ & Hpr & Htab). rewrite Htab. split; [|done].
  destruct Hpg as (_ & _ & ? & _). lia.
Qed.

(** Writing the entry for [va] in its page table. *)
Section WritePte.
Variables (m : mem) (free : list Z) (d va v : Z).
Hypothesis Hwf : pd_wf m free d.
Hypothesis Hpres : present (pde_at m d (PDX va)) = true.
Hypothesis Hv : 0 <= v < 4294967296.

Definition written : mem := store32 m (pte_addr m d va) v.

Lemma written_outside b x : page_ok b -> b <> table (pde_at m d (PDX va)) -> in_page b x ->
  written x = m x.
Proof using Hwf Hpres Hv.
  intros Hb Hne Hx. destruct (pd_table _ _ _ Hwf _ (PDX_range va) Hpres) as (T1 & _ & _).
  unfold written, pte_addr.
  apply (store32_outside _ (table (pde_at m d (PDX va))) (PTX va) v b);
    [done|done|by apply not_eq_sym|apply PTX_range|done].
Qed.

Lemma written_pde i : 0 <= i < 1024 -> pde_at written d i = pde_at m d i.
Proof using Hwf Hpres Hv.
  intros Hi. apply load32_page; [done|]. intros x Hx. apply (written_outside d); [apply Hwf| |done].
  destruct (pd_table _ _ _ Hwf _ (PDX_range va) Hpres) as (_ & _ & T3). congruence.
Qed.

Lemma written_grown : grown m free written free d (fun _ => False).
Proof using Hwf Hpres Hv.
  split; [|intros j Hj; rewrite written_pde by done; by left].
  f_equal. apply (count_ext (fun i => present (pde_at m d (Z.of_nat i)))). intros i Hi. by rewrite written_pde by lia.
Qed.

Lemma written_wf : pd_wf written free d.
Proof using Hwf Hpres Hv.
  pose proof Hwf as [H1 H2 H3 H4]. split; [done|done| |].
  - intros i Hi. rewrite written_pde by done. auto.
  - intros i j Hi Hj. rewrite !written_pde by done. auto.
Qed.

Lemma written_pte va' : pte_of written d va' =
  if decide (PGROUNDDOWN va' = PGROUNDDOWN va) then v else pte_of m d va'.
Proof using Hwf Hpres Hv.
  pose proof (PDX_range va) as Hd. pose proof (PDX_range va') as Hd'.
  pose proof (PTX_range va) as Ht. pose proof (PTX_range va') as Ht'.
  unfold pte_of, pte_addr. rewrite written_pde by done.
  destruct (decide (PGROUNDDOWN va' = PGROUNDDOWN va)) as [E|E]; rewrite same_page in E.
  - destruct E as [E1 E2]. rewrite E1, E2, Hpres. unfold written, pte_addr.
    rewrite load32_store32_eq. by apply u32_small.
  - destruct (present (pde_at m d (PDX va'))) eqn:Hp; [|done].
    destruct (decide (PDX va' = PDX va)) as [E1|E1].
    + rewrite E1. unfold written, pte_addr. apply load32_store32_ne. lia.
    + apply load32_page; [done|]. intros x Hx.
      apply (written_outside (table (pde_at m d (PDX va')))); [|intros Et|done].
      * by destruct (pd_table _ _ _ Hwf _ Hd' Hp).
      * by apply (pd_inj _ _ _ Hwf) in Et.
Qed.

Lemma written_frame x : ~ touches m free d x -> written x = m x.
Proof using Hwf Hpres Hv.
  intros Hx. unfold written, pte_addr. apply store32_ne.
  set (T := table (pde_at m d (PDX va))).
  destruct (decide (T <= x < T + PGSIZE)) as [Hin|Hin].
  - exfalso. apply Hx. right; right. exists (PDX va).
    split; [apply PDX_range|done].
  - pose proof (PTX_range va). unfold PGSIZE in Hin. lia.
Qed.

Lemma written_touches x : touches written free d x -> touches m free d x.
Proof using Hwf Hpres Hv.
  intros [Hx|[Hx|(j & Hj & Hpj & Hx)]]; [by left|by right; left|].
  rewrite written_pde in Hpj, Hx by done. right; right. eauto.
Qed.

Lemma written_kinv s : kinv s free -> k_mem s = m -> kinv (set_k_mem written s) free.
Proof using Hwf Hpres Hv.
  intros Hk Hm. apply kinv_write; [done| |].
  - apply bytes_ok_store32. rewrite <- Hm. apply Hk.
  - intros a x Ha Hx. rewrite Hm. apply (written_outside a); [| |done].
    + eapply flist_pages; [apply Hk|done].
    + intros ->. by destruct (pd_table _ _ _ Hwf _ (PDX_range va) Hpres) as (_ & T2 & _).
Qed.
End WritePte.

(** ** [mappages] *)

(** The entries after [k] pages from [a] on were mapped to [pa] on. *)
Definition mapped (a pa perm k va old : Z) : Z :=
  if (a <=? PGROUNDDOWN va) && (PGROUNDDOWN va <? a + PGSIZE * k)
  then Z.lor (Z.lor (pa + (PGROUNDDOWN va - a)) perm) PTE_P else old.

Lemma PGROUNDDOWN_aligned a : a mod 4096 = 0 -> 0 <= a < 4294967296 -> PGROUNDDOWN a = a.
Proof. intros H1 H2. rewrite PGROUNDDOWN_eq, u32_small by done. lia. Qed.

Lemma PGROUNDDOWN_mod va : PGROUNDDOWN va mod 4096 = 0.
Proof. rewrite PGROUNDDOWN_eq. zlia. Qed.

Lemma mapped_entry pa perm : pa mod 4096 = 0 -> 0 <= pa < 4294967296 -> 0 <= perm < 4096 ->
  0 <= Z.lor (Z.lor pa perm) PTE_P < 4294967296.
Proof.
  intros H1 H2 H3. rewrite <- Z.lor_assoc. assert (0 <= Z.lor perm PTE_P < 4096) as Hp.
  { split; [apply Z.lor_nonneg; unfold PTE_P; lia|].
    destruct (decide (Z.lor perm PTE_P = 0)) as [->|]; [lia|].
    apply (Z.log2_lt_pow2 _ 12); [pose proof (Z.lor_nonneg perm PTE_P); unfold PTE_P in *; lia|].
    rewrite Z.log2_lor by (unfold PTE_P; lia). unfold PTE_P. simpl Z.log2.
    destruct (decide (perm = 0)) as [->|]; [simpl; lia|].
    apply Z.max_lub_lt; [|lia]. apply Z.log2_lt_pow2; lia. }
  rewrite lor_low by done. zlia.
Qed.

Lemma mapped_S a pa perm k va old : a mod 4096 = 0 -> 0 <= k ->
  mapped (a + PGSIZE) (pa + PGSIZE) perm k va
    (if decide (PGROUNDDOWN va = a) then Z.lor (Z.lor pa perm) PTE_P else old) =
  mapped a pa perm (k + 1) va old.
Proof.
  intros Ha Hk. unfold mapped. pose proof (PGROUNDDOWN_mod va) as Hp. unfold PGSIZE.
  destruct (decide (PGROUNDDOWN va = a)) as [E|E];
    destruct (Z.leb_spec a (PGROUNDDOWN va)), (Z.ltb_spec (PGROUNDDOWN va) (a + 4096 * (k + 1))),
      (Z.leb_spec (a + 4096) (PGROUNDDOWN va)), (Z.ltb_spec (PGROUNDDOWN va) (a + 4096 + 4096 * k));
    simpl; try done; try zlia.
  - by rewrite E, Z.sub_diag, Z.add_0_r.
  - do 2 f_equal. lia.
Qed.

(** What [mappages] leaves: entries mapped for the first [k] pages, nothing else
    changed outside the directory, its tables and pages that were free. *)
Record map_done (d a pa perm : Z) (k : nat) (s : kstate) (free : list Z) (s' : kstate)
    (free' : list Z) : Prop := {
  md_kinv : kinv s' free';
  md_wf : pd_wf (k_mem s') free' d;
  md_free : free' ⊆ free;
  md_pte : forall va, pte_of (k_mem s') d va =
    mapped a pa perm (Z.of_nat k) va (pte_of (k_mem s) d va);
  md_grown : grown (k_mem s) free (k_mem s') free' d (fun j => exists va, PDX va = j /\ a <= va < a + PGSIZE * Z.of_nat k);
  md_frame : forall x, ~ touches (k_mem s) free d x -> k_mem s' x = k_mem s x;
  md_touches : forall x, touches (k_mem s') free' d x -> touches (k_mem s) free d x }.

Lemma mapped_0 a pa perm va old : mapped a pa perm 0 va old = old.
Proof.
  unfold mapped, PGSIZE. destruct (Z.leb_spec a (PGROUNDDOWN va)); [|done].
  destruct (Z.ltb_spec (PGROUNDDOWN va) (a + 4096 * 0)); [lia|done].
Qed.

Lemma mapped_1 a pa perm va old : a mod 4096 = 0 ->
  mapped a pa perm 1 va old =
  if decide (PGROUNDDOWN va = a) then Z.lor (Z.lor pa perm) PTE_P else old.
Proof. intros Ha. change 1 with (0 + 1) at 1. by rewrite <- mapped_S, mapped_0. Qed.

(** One turn of the loop of [mappages]: the entry is found or made, and set. *)
Lemma map_one d a pa perm s free : kinv s free -> pd_wf (k_mem s) free d ->
  a mod 4096 = 0 -> 0 <= a < 4294967296 ->
  pa mod 4096 = 0 -> 0 <= pa < 4294967296 -> 0 <= perm < 4096 ->
  present (pte_of (k_mem s) d a) = false ->
  (exists s1, walkpgdir me callers d a true s = Done 0 s1 /\ map_done d a pa perm 0 s free s1 []) \/
  (exists pte s1 s2 free1, walkpgdir me callers d a true s = Done pte s1 /\ pte <> 0 /\
     present (load32 (k_mem s1) pte) = false /\
     s2 = set_k_mem (store32 (k_mem s1) pte (Z.lor (Z.lor pa perm) PTE_P)) s1 /\
     map_done d a pa perm 1 s free s2 free1).
Proof.
  intros Hk Hwf Ha Har Hpa Hpar Hperm Habs.
  destruct (walk_alloc d a s free Hk Hwf)
    as (r & s1 & free1 & E & Hk1 & Hwf1 & Hsub & Hpte & Hfr & Hto & Hgr & [(-> & -> & -> & Hsame & _)|(Hr0 & Hr & Hp)]).
  - left. exists s1. split; [done|]. split; try done; [intros va; by rewrite mapped_0|].
    rewrite Hsame. apply grown_refl.
  - right. pose proof (mapped_entry pa perm Hpa Hpar Hperm) as Hv.
    exists r, s1. eexists _, free1. split; [done|]. split; [done|].
    assert (load32 (k_mem s1) r = pte_of (k_mem s1) d a) as El.
    { unfold pte_of. by rewrite Hp, Hr. }
    split; [by rewrite El, Hpte|]. split; [done|]. rewrite Hr.
    change (store32 (k_mem s1) (pte_addr (k_mem s1) d a) (Z.lor (Z.lor pa perm) PTE_P))
      with (written (k_mem s1) d a (Z.lor (Z.lor pa perm) PTE_P)).
    split.
    + by eapply written_kinv.
    + by apply written_wf.
    + done.
    + intros va. simpl. rewrite (written_pte (k_mem s1) free1) by done.
      rewrite (PGROUNDDOWN_aligned a), Hpte by done.
      by rewrite mapped_1.
    + eapply grown_trans; [exact Hgr|by apply written_grown|]. intros j [<-|[]]. exists a. unfold PGSIZE. lia.
    + intros x Hx. simpl. rewrite (written_frame _ free1) by auto. by apply Hfr.
    + intros x Hx. apply Hto. by eapply written_touches.
Qed.

Lemma map_done_trans d a pa perm k s free s1 free1 s2 free2 : a mod 4096 = 0 ->
  map_done d a pa perm 1 s free s1 free1 ->
  map_done d (a + PGSIZE) (pa + PGSIZE) perm k s1 free1 s2 free2 ->
  map_done d a pa perm (S k) s free s2 free2.
Proof.
  intros Ha [_ _ A3 A4 G A5 A6] [B1 B2 B3 B4 G' B5 B6]. split; [done|done|set_solver| | | |auto].
  - intros va. rewrite B4, A4. change (Z.of_nat 1) with 1. rewrite mapped_1 by done.
    replace (Z.of_nat (S k)) with (Z.of_nat k + 1) by lia. apply mapped_S; [done|lia].
  - eapply grown_trans; [exact G|exact G'|]. unfold PGSIZE. intros j [(va & ? & ?)|(va & ? & ?)]; exists va; lia.
  - intros x Hx. rewrite B5 by auto. by apply A5.
Qed.

Lemma mappages_loop_spec d perm n : forall a pa s free,
  kinv s free -> pd_wf (k_mem s) free d ->
  a mod 4096 = 0 -> pa mod 4096 = 0 -> 0 <= perm < 4096 ->
  0 <= a -> a + PGSIZE * Z.of_nat n < 4294967296 ->
  0 <= pa -> pa + PGSIZE * Z.of_nat n < 4294967296 ->
  (forall va, a <= PGROUNDDOWN va <= a + PGSIZE * Z.of_nat n ->
     present (pte_of (k_mem s) d va) = false) ->
  exists r k s' free', mappages_loop me callers d a (a + PGSIZE * Z.of_nat n) pa perm (S n) s =
      Done r s' /\ map_done d a pa perm k s free s' free' /\
    ((r = 0 /\ k = S n) \/ (r = -1 /\ (k <= n)%nat /\ free' = [])).
Proof.
  induction n as [|n IH]; intros a pa s free Hk Hwf Ha Hpa Hperm Ha0 Har Hpa0 Hpar Habs;
    pose proof (PGROUNDDOWN_aligned a Ha) as Hra; unfold PGSIZE in *;
    (destruct (map_one d a pa perm s free)
      as [(s1 & E & Hm)|(pte & s1 & s2 & free1 & E & Hne & Hpr & -> & Hm)];
      [done|done|done|lia|done|lia|done|apply Habs; rewrite Hra by lia; lia|
       exists (-1), 0%nat, s1, []; split;
         [by cbn [mappages_loop]; rewrite (bind_Done _ _ _ _ _ E)|split; [done|right; split; [done|split; [lia|done]]]]|]);
    cbn [mappages_loop]; rewrite (bind_Done _ _ _ _ _ E);
    rewrite (proj2 (Z.eqb_neq _ _) Hne); unfold rd; (erewrite bind_Done by reflexivity);
    rewrite Hpr; unfold wr; (erewrite bind_Done by reflexivity).
  - rewrite Z.mul_0_r, Z.add_0_r, Z.eqb_refl. eexists 0, 1%nat, _, free1.
    split; [reflexivity|]. split; [done|by left].
  - rewrite (proj2 (Z.eqb_neq _ _)) by lia. unfold PGSIZE. rewrite !u32_small by lia.
    replace (a + 4096 * Z.of_nat (S n)) with (a + 4096 + 4096 * Z.of_nat n) by lia.
    destruct (IH (a + 4096) (pa + 4096) _ free1 (md_kinv _ _ _ _ _ _ _ _ _ Hm)
      (md_wf _ _ _ _ _ _ _ _ _ Hm)) as (r & k & s' & free' & E' & Hm' & Hres); try lia; try zlia.
    { intros va Hva. rewrite (md_pte _ _ _ _ _ _ _ _ _ Hm). unfold mapped, PGSIZE.
      rewrite (proj2 (Z.ltb_ge _ _)), andb_false_r by lia. apply Habs. lia. }
    exists r, (S k), s', free'. split; [exact E'|].
    split; [by eapply map_done_trans|]. destruct Hres as [[-> ->]|(-> & ? & ->)]; [by left|right; split; [done|split; [lia|done]]].
Qed.

Lemma mappages_ok d va size pa perm s free : kinv s free -> pd_wf (k_mem s) free d ->
  0 <= va -> 0 < size -> va + size <= 4294967296 ->
  pa mod 4096 = 0 -> 0 <= pa -> pa + va mod 4096 + size <= 4294967296 -> 0 <= perm < 4096 ->
  let a := PGROUNDDOWN va in
  let n := Z.to_nat ((PGROUNDDOWN (va + size - 1) - a) / PGSIZE) in
  (forall va', a <= PGROUNDDOWN va' <= PGROUNDDOWN (va + size - 1) ->
     present (pte_of (k_mem s) d va') = false) ->
  exists r k s' free', mappages me callers d va size pa perm s = Done r s' /\
    map_done d a pa perm k s free s' free' /\
    ((r = 0 /\ k = S n) \/ (r = -1 /\ (k <= n)%nat /\ free' = [])).
Proof.
  intros Hk Hwf Hva Hsz Hend Hpa Hpa0 Hpar Hperm a n Habs. unfold mappages.
  rewrite (u32_small (va + size - 1)) by lia. fold a.
  assert (PGROUNDDOWN (va + size - 1) = a + PGSIZE * Z.of_nat n /\ a mod 4096 = 0 /\
    0 <= a /\ a = va - va mod 4096) as (El & Ha & Har & Hn).
  { unfold n, a, PGSIZE. rewrite !PGROUNDDOWN_eq, !u32_small by lia. zlia. }
  rewrite El. replace (a + PGSIZE * Z.of_nat n - a) with (PGSIZE * Z.of_nat n) by lia.
  assert (a + PGSIZE * Z.of_nat n <= va + size - 1) as Hle.
  { rewrite <- El, PGROUNDDOWN_eq, u32_small by lia. zlia. }
  rewrite u32_small by (unfold PGSIZE in *; lia).
  replace (Z.to_nat (PGSIZE * Z.of_nat n / PGSIZE)) with n by (unfold PGSIZE; zlia).
  apply mappages_loop_spec; try done; try (unfold PGSIZE in *; lia).
  intros va' Hva'. apply Habs. by rewrite El.
Qed.

(** C15. [mappages] over pages that are not mapped yet does not panic and maps them in
    order: it returns 0 with every page of the range mapped to consecutive
    physical pages with the given permissions, or -1, out of memory, with only
    the first of them mapped; all other translations are unchanged, and it
    writes only to the directory, its tables and pages that were free. *)
Theorem mappages_spec d va size pa perm s free : kinv s free -> pd_wf (k_mem s) free d ->
  0 <= va -> 0 < size -> va + size <= 4294967296 ->
  pa mod 4096 = 0 -> 0 <= pa -> pa + va mod 4096 + size <= 4294967296 -> 0 <= perm < 4096 ->
  let a := PGROUNDDOWN va in
  let n := Z.to_nat ((PGROUNDDOWN (va + size - 1) - a) / PGSIZE) in
  (forall va', a <= PGROUNDDOWN va' <= PGROUNDDOWN (va + size - 1) ->
     present (pte_of (k_mem s) d va') = false) ->
  exists r k s' free', mappages me callers d va size pa perm s = Done r s' /\
    map_done d a pa perm k s free s' free' /\
    ((r = 0 /\ k = S n) \/ (r = -1 /\ (k <= n)%nat /\ free' = [])).
Proof. apply mappages_ok. Qed.

(** ** [uva2ka] *)

(** [uva2ka] gives kernel access to exactly the pages user code may use, if the
    address has a page table. *)
Lemma uva2ka_spec d va s : present (pde_at (k_mem s) d (PDX va)) = true ->
  uva2ka me callers d va s =
  Done (if present (pte_of (k_mem s) d va) && user (pte_of (k_mem s) d va)
        then table (pte_of (k_mem s) d va) else 0) s.
Proof.
  intros Hp. unfold uva2ka. rewrite (bind_Done _ _ _ _ _ (walk_lookup d va s)).
  unfold rd, pte_of. rewrite Hp. erewrite bind_Done by reflexivity.
  destruct (present (load32 _ _)), (user (load32 _ _)); done.
Qed.

(** Without a page table for the address, [uva2ka] follows the null pointer
    [walkpgdir] returned: its result is decided by the word at address 0. *)
Theorem uva2ka_null d va s : present (pde_at (k_mem s) d (PDX va)) = false ->
  uva2ka me callers d va s =
  Done (if present (load32 (k_mem s) 0) && user (load32 (k_mem s) 0)
        then table (load32 (k_mem s) 0) else 0) s.
Proof.
  intros Hp. unfold uva2ka. rewrite (bind_Done _ _ _ _ _ (walk_lookup d va s)).
  unfold rd. rewrite Hp. erewrite bind_Done by reflexivity.
  destruct (present (load32 _ _)), (user (load32 _ _)); done.
Qed.
End VmSpec.

(** ** Witnesses *)

(** Two free pages and an empty directory behind them. *)
Definition sample_vm : kstate :=
  KState (Cpu 0 0 0 None false) (store32 (fun _ => 0) 0x80102000 0x80101000)
    (Spinlock 0 "" None []) 0 0x80102000.

Lemma sample_vm_kinv : kinv 0 sample_vm [0x80102000; 0x80101000].
Proof.
  split; [by split| |by vm_compute|].
  - apply bytes_ok_store32. intros a. lia.
  - repeat constructor; rewrite ?elem_of_cons, ?elem_of_nil; lia.
Qed.

Lemma sample_vm_empty i : 0 <= i < 1024 -> pde_at (k_mem sample_vm) 0x80103000 i = 0.
Proof. intros Hi. unfold pde_at. simpl. by rewrite load32_store32_ne by lia. Qed.

Lemma sample_vm_wf : pd_wf 0 (k_mem sample_vm) [0x80102000; 0x80101000] 0x80103000.
Proof.
  split.
  - by vm_compute.
  - rewrite !elem_of_cons, elem_of_nil. lia.
  - intros i Hi. by rewrite sample_vm_empty.
  - intros i j Hi Hj. by rewrite sample_vm_empty.
Qed.

Lemma mappages_spec_witness : exists r k s' free',
  mappages 0 [] 0x80103000 0x1000 0x2000 0x5000 PTE_U sample_vm = Done r s' /\
  kinv 0 s' free' /\
  pte_of (k_mem s') 0x80103000 0x1234 =
    mapped (PGROUNDDOWN 0x1000) 0x5000 PTE_U (Z.of_nat k) 0x1234 0.
Proof.
  assert (forall va, pte_of (k_mem sample_vm) 0x80103000 va = 0) as H0.
  { intros va. unfold pte_of. by rewrite sample_vm_empty by apply PDX_range. }
  destruct (mappages_spec 0 [] 0 0x80103000 0x1000 0x2000 0x5000 PTE_U sample_vm
    [0x80102000; 0x80101000] sample_vm_kinv sample_vm_wf ltac:(lia) ltac:(lia) ltac:(lia)
    ltac:(reflexivity) ltac:(lia) ltac:(lia) ltac:(unfold PTE_U; lia)
    ltac:(intros va' _; by rewrite H0)) as (r & k & s' & free' & E & Hm & _).
  exists r, k, s', free'. split; [exact E|]. destruct Hm as [Hk _ _ Hp _ _].
  split; [exact Hk|]. by rewrite Hp, H0.
Defined.

Lemma uva2ka_null_witness : uva2ka 0 [] 0x80103000 0x1000 sample_vm = Done 0 sample_vm.
Proof.
  rewrite (uva2ka_null 0 [] 0x80103000 0x1000 sample_vm); [reflexivity|].
  by rewrite sample_vm_empty by apply PDX_range.
Defined.
