(* ===== verification/Kvm.v ===== *)
(** * The address space of the kernel (vm.c, main.c)

    The segments and the page tables the kernel runs with: [entrypgdir] of main.c right after
    the start, then the table of [setupkvm] that [kvmalloc] loads, and the flat segments of
    [seginit]. *)

From stdpp Require Import base tactics numbers list strings.
From Stdlib Require Import ZArith Lia ZifyNat ZifyBool.
From S2P Require Import Prelude Layout Spinlock CString Kalloc Vm VmSpec.

(** ** Definitions *)

Definition NSEGS : nat := 6.

(** What a processor at its start works on: the allocator and the memory, [kpgdir], the
    control register cr3, the tables [cpus[i].gdt] and the register for the table, as its
    limit and its address. *)
Record kvst := KvSt {
  kv_k : kstate;
  kv_kpgdir : Z;
  kv_cr3 : Z;
  kv_gdt : list (list segdesc);
  kv_gdtr : Z * Z }.

Definition kv_lens : lens kvst kstate :=
  Lens kv_k (fun k s => KvSt k (kv_kpgdir s) (kv_cr3 s) (kv_gdt s) (kv_gdtr s)).
Definition set_kpgdir (v : Z) (s : kvst) : kvst := KvSt (kv_k s) v (kv_cr3 s) (kv_gdt s) (kv_gdtr s).
Definition lcr3 (v : Z) (s : kvst) : kvst := KvSt (kv_k s) (kv_kpgdir s) v (kv_gdt s) (kv_gdtr s).
Definition set_gdt (c : nat) (i : Z) (d : segdesc) (s : kvst) : kvst :=
  KvSt (kv_k s) (kv_kpgdir s) (kv_cr3 s) (alter (<[Z.to_nat i := d]>) c (kv_gdt s)) (kv_gdtr s).
(** The three halves of [pd]: the limit and the two of the address. *)
Definition lgdt (p size : Z) (s : kvst) : kvst :=
  let pd0 := u16 (size - 1) in let pd1 := u16 p in let pd2 := u16 (Z.shiftr p 16) in
  KvSt (kv_k s) (kv_kpgdir s) (kv_cr3 s) (kv_gdt s) (pd0, pd1 + 65536 * pd2).

Section Kvm.
Variable me : nat.
Variable callers : list Z.
(** The linker symbols [end] and [data], and the address of [cpus[i].gdt]. *)
Variables kend data : Z.
Variable gdt_addr : nat -> Z.

Definition switch_kvm : M kvst unit := modify (fun s => lcr3 (V2P (kv_kpgdir s)) s).
Definition kvmalloc : M kvst unit :=
  let! d := zoom kv_lens (setupkvm me callers kend data) in
  modify (set_kpgdir d) ;;;
  switch_kvm.

(** The first two calls of [main]. *)
Definition main_kvm : M kvst unit :=
  zoom kv_lens (kinit1 me callers kend kend (P2V (4 * 1024 * 1024))) ;;;
  kvmalloc.

(** [mycpu() - cpus] *)
Definition cpuid : M kvst nat := zoom kv_lens (zoom (Lens k_cpu (fun c k => KState c (k_mem k) (kmem_lock k) (kmem_use_lock k) (kmem_freelist k))) (mycpu me)).

Definition seginit : M kvst unit :=
  let! c := cpuid in
  modify (set_gdt c SEG_KCODE (SEG (Z.lor STA_X STA_R) 0 0xffffffff 0)) ;;;
  modify (set_gdt c SEG_KDATA (SEG STA_W 0 0xffffffff 0)) ;;;
  modify (set_gdt c SEG_UCODE (SEG (Z.lor STA_X STA_R) 0 0xffffffff DPL_USER)) ;;;
  modify (set_gdt c SEG_UDATA (SEG STA_W 0 0xffffffff DPL_USER)) ;;;
  modify (lgdt (gdt_addr c) (8 * Z.of_nat NSEGS)).
End Kvm.

(** The page directory of entry.S and entryother.S, with pages of 4 Mbyte. *)
Definition entrypgdir : list Z :=
  <[Z.to_nat (Z.shiftr KERNBASE PDXSHIFT) := Z.lor (Z.lor (Z.lor 0 PTE_P) PTE_W) PTE_PS]>
    (<[0%nat := Z.lor (Z.lor (Z.lor 0 PTE_P) PTE_W) PTE_PS]> (replicate (Z.to_nat NPDENTRIES) 0)).

(** ** The kernel's page table *)

(** The entry for [va]: memory from KERNBASE on, its text read-only, and the devices. *)
Definition kernel_pte (data va : Z) : Z :=
  let p := PGROUNDDOWN va in
  if (KERNBASE <=? p) && (p <? KERNBASE + PHYSTOP) then
    Z.lor (Z.lor (p - KERNBASE) (if (KERNLINK <=? p) && (p <? data) then 0 else PTE_W)) PTE_P
  else if DEVSPACE <=? p then Z.lor (Z.lor p PTE_W) PTE_P
  else 0.

(** The entries of the directory it needs. *)
Definition kernel_pde (i : nat) : bool := ((512 <=? i) && (i <? 568) || (1016 <=? i))%nat.
Definition KERNEL_TABLES : nat := 64.

Lemma kernel_tables : count kernel_pde 1024 = KERNEL_TABLES.
Proof. by vm_compute. Qed.

Lemma PGROUNDDOWN_range va : 0 <= PGROUNDDOWN va < 4294967296.
Proof. rewrite PGROUNDDOWN_eq. pose proof (u32_range va). zlia. Qed.

Lemma mapped_out v pa perm n va old : ~ v <= PGROUNDDOWN va < v + 4096 * n -> mapped v pa perm n va old = old.
Proof. intros. unfold mapped, PGSIZE. by rewrite (proj2 (andb_false_iff _ _)) by lia. Qed.
Lemma mapped_in v pa perm n va old : v <= PGROUNDDOWN va < v + 4096 * n ->
  mapped v pa perm n va old = Z.lor (Z.lor (pa + (PGROUNDDOWN va - v)) perm) PTE_P.
Proof. intros. unfold mapped, PGSIZE. by rewrite (proj2 (andb_true_iff _ _)) by lia. Qed.

Section Setup.
Variables (me : nat) (callers : list Z) (kend data : Z).

(** The memory before, and the pages that were free. *)
Variables (m0 : mem) (free0 : list Z).
Definition was_free (x : Z) : Prop := exists a, a ∈ free0 /\ in_page a x.

(** The directory [d] in the making: its entries are those of [E], and the pages that are
    free or tables, [T] in all, would do for all of it. *)
Record building (d : Z) (E : Z -> Z) (T : nat) (s : kstate) (free : list Z) : Prop := Building {
  bd_kinv : kinv kend s free;
  bd_wf : pd_wf kend (k_mem s) free d;
  bd_pte : forall va, pte_of (k_mem s) d va = E va;
  bd_pages : (tables (k_mem s) d + length free = T)%nat;
  bd_where : forall j, 0 <= j < 1024 -> present (pde_at (k_mem s) d j) = true -> kernel_pde (Z.to_nat j) = true;
  bd_touch : forall x, touches (k_mem s) free d x -> was_free x;
  bd_frame : forall x, ~ was_free x -> k_mem s x = m0 x }.

(** A region of whole pages. *)
Lemma map_region d v n pa perm E T s free :
  building d E T s free -> (KERNEL_TABLES < T)%nat ->
  v mod 4096 = 0 -> 0 <= v -> 0 < n -> v + 4096 * n <= 4294967296 ->
  pa mod 4096 = 0 -> 0 <= pa -> pa + 4096 * n <= 4294967296 -> 0 <= perm < 4096 ->
  (forall va, v <= va < v + 4096 * n -> kernel_pde (Z.to_nat (va / 4194304)) = true) ->
  (forall va, v <= PGROUNDDOWN va < v + 4096 * n -> E va = 0) ->
  returns (mappages me callers d v (4096 * n) pa perm) s (fun r s' =>
    r = 0 /\ exists free', building d (fun va => mapped v pa perm n va (E va)) T s' free').
Proof.
  intros [B1 B2 B3 B4 B5 B6 B7] HT Hv Hv0 Hn Hend Hpa Hpa0 Hpe Hperm Hk HE.
  destruct (mappages_ok me callers kend d v (4096 * n) pa perm s free B1 B2) as (r & k & s' & free' & Er & Hd & Hres); try lia.
  { intros va Hva. rewrite B3, HE; [done|]. rewrite (PGROUNDDOWN_eq v), (PGROUNDDOWN_eq (_ - 1)), !u32_small in Hva by lia. zlia. }
  assert (Ev : PGROUNDDOWN v = v) by (apply PGROUNDDOWN_aligned; lia).
  assert (En : Z.of_nat (S (Z.to_nat ((PGROUNDDOWN (v + 4096 * n - 1) - PGROUNDDOWN v) / PGSIZE))) = n).
  { rewrite Ev, PGROUNDDOWN_eq, u32_small by lia. unfold PGSIZE. zlia. }
  rewrite Ev in *. set (l := Z.to_nat _) in *.
  destruct Hd as [D1 D2 D3 D4 [G1 G2] D5 D6].
  assert (Hw : forall j, 0 <= j < 1024 -> present (pde_at (k_mem s') d j) = true -> kernel_pde (Z.to_nat j) = true).
  { intros j Hj Hp. destruct (G2 j Hj Hp) as [Hp'|(va & Hva & Hr)]; [by apply B5|]. subst j. rewrite PDX_div, u32_small.
    - apply Hk. unfold PGSIZE in Hr. destruct Hres as [[_ ->]|(_ & Hle & _)]; lia.
    - unfold PGSIZE in Hr. destruct Hres as [[_ ->]|(_ & Hle & _)]; lia. }
  assert (Ht : (tables (k_mem s') d <= KERNEL_TABLES)%nat).
  { rewrite <- kernel_tables. apply count_mono. intros i Hi Hp. rewrite <- (Nat2Z.id i). apply Hw; [lia|done]. }
  destruct Hres as [[-> ->]|(_ & _ & ->)]; [|change (length []) with 0%nat in G1; lia].
  exists 0, s'. split; [done|]. split; [done|]. exists free'. split; [done|done| |lia|done|auto|].
  - intros va. by rewrite D4, B3, En.
  - intros x Hx. rewrite D5; [by apply B7|]. intros Ht'. by apply Hx, B6.
Qed.

(** A zeroed page is an empty directory. *)
Lemma empty_directory d free s1 :
  free0 = d :: free -> kinv kend s1 free -> page_ok kend d -> d ∉ free -> k_mem s1 = m0 ->
  building d (fun _ => 0) (length free) (set_k_mem (memset (k_mem s1) d 0 PGSIZE) s1) free.
Proof.
  intros Ef Hk Hd Hn Hm. assert (E0 : forall j, 0 <= j < 1024 -> pde_at (memset (k_mem s1) d 0 PGSIZE) d j = 0)
    by (intros; by apply load32_zero_page).
  assert (Ho : forall b x, page_ok kend b -> b <> d -> in_page b x -> memset (k_mem s1) d 0 PGSIZE x = k_mem s1 x).
  { intros b x Hb Hne Hx. by apply (memset_outside kend _ d _ b). }
  split; cbn [k_mem set_k_mem].
  - apply kinv_write; [done| |].
    + intros x. rewrite memset_fill by (unfold PGSIZE; lia). apply bytes_ok_fill, Hk.
    + intros a x Ha Hx. apply (Ho a); [|intros ->; done|done]. eapply flist_pages; [apply Hk|done].
  - split; [done|done|..].
    + intros i Hi. by rewrite E0.
    + intros i j Hi Hj. by rewrite E0.
  - intros va. unfold pte_of. by rewrite E0 by apply PDX_range.
  - rewrite <- (Nat.add_0_l (length free)) at 2. f_equal. unfold tables.
    transitivity (count (fun _ => false) 1024); [|by vm_compute]. apply count_ext. intros i Hi. by rewrite E0 by lia.
  - intros j Hj. by rewrite E0.
  - intros x [Hx|[(a & Ha & Hx)|(i & Hi & Hp & _)]].
    + exists d. rewrite Ef. split; [rewrite elem_of_cons; by auto|done].
    + exists a. rewrite Ef. split; [rewrite elem_of_cons; by auto|done].
    + by rewrite E0 in Hp.
  - intros x Hx. rewrite <- Hm, memset_fill by (unfold PGSIZE; lia). apply fill_out.
    destruct (decide (in_page d x)) as [Hi|Hi]; [|unfold in_page, PGSIZE in *; lia].
    destruct Hx. exists d. rewrite Ef. split; [rewrite elem_of_cons; by auto|done].
Qed.

Lemma building_ext d E E' T s free : (forall va, E' va = E va) -> building d E T s free -> building d E' T s free.
Proof. intros HE [B1 B2 B3 B4 B5 B6 B7]. split; try done. intros va. by rewrite HE. Qed.

(** A turn of the loop of [setupkvm]. *)
Lemma setup_region d k n l E T s free Q :
  building d E T s free -> (KERNEL_TABLES < T)%nat ->
  u32 (km_phys_end k - km_phys_start k) = 4096 * n ->
  km_virt k mod 4096 = 0 -> 0 <= km_virt k -> 0 < n -> km_virt k + 4096 * n <= 4294967296 ->
  km_phys_start k mod 4096 = 0 -> 0 <= km_phys_start k -> km_phys_start k + 4096 * n <= 4294967296 ->
  0 <= km_perm k < 4096 ->
  (forall va, km_virt k <= va < km_virt k + 4096 * n -> kernel_pde (Z.to_nat (va / 4194304)) = true) ->
  (forall va, km_virt k <= PGROUNDDOWN va < km_virt k + 4096 * n -> E va = 0) ->
  (forall s' free', building d (fun va => mapped (km_virt k) (km_phys_start k) (km_perm k) n va (E va)) T s' free' ->
    returns (setup_maps me callers d l) s' Q) ->
  returns (setup_maps me callers d (k :: l)) s Q.
Proof.
  intros B HT En H1 H2 H3 H4 H5 H6 H7 H8 H9 H10 HQ. cbn [setup_maps]. rewrite En.
  rstep map_region; [done..|]. intros r s' (-> & free' & B'). by eapply HQ.
Qed.

(** The pages of the kernel's text, and of its data and the memory after it. *)
Lemma text_pages : data mod 4096 = 0 -> KERNLINK < data < KERNBASE + PHYSTOP ->
  exists n1 n2, 0 < n1 /\ 0 < n2 /\ data = 2148532224 + 4096 * n1 /\ data + 4096 * n2 = 2382364672.
Proof.
  unfold KERNLINK, KERNBASE, EXTMEM, PHYSTOP. intros. exists ((data - 2148532224) / 4096), ((2382364672 - data) / 4096). zlia.
Qed.

(** The entries after the four turns. *)
Lemma kernel_regions n1 n2 va : 0 < n1 -> 0 < n2 -> data = 2148532224 + 4096 * n1 -> data + 4096 * n2 = 2382364672 ->
  kernel_pte data va = mapped 4261412864 4261412864 2 8192 va (mapped data (data - 2147483648) 2 n2 va
    (mapped 2148532224 1048576 0 n1 va (mapped 2147483648 0 2 256 va 0))).
Proof.
  intros H1 H2 H3 H4. unfold kernel_pte. change KERNLINK with 2148532224. change KERNBASE with 2147483648.
  change PHYSTOP with 234881024. change DEVSPACE with 4261412864. change PTE_W with 2. cbv zeta.
  pose proof (PGROUNDDOWN_range va) as Hr. set (p := PGROUNDDOWN va) in *.
  assert (p < 2147483648 \/ 2147483648 <= p < 2148532224 \/ 2148532224 <= p < data \/ data <= p < 2382364672 \/
    2382364672 <= p < 4261412864 \/ 4261412864 <= p) as [C|[C|[C|[C|[C|C]]]]] by lia.
  all: repeat (rewrite mapped_out by (fold p; lia)).
  all: try (rewrite mapped_in by (fold p; lia); fold p).
  all: repeat match goal with |- context [?x <=? ?y] => destruct (Z.leb_spec x y); try lia
    | |- context [?x <? ?y] => destruct (Z.ltb_spec x y); try lia end; simpl.
  all: try done; do 2 f_equal; lia.
Qed.

(** A region of [n] pages from the directory that [B] describes. *)
Ltac region B n HT := eapply (setup_region _ _ n); [exact B|exact HT|..];
    cbn [km_virt km_phys_start km_phys_end km_perm]; rewrite ?u32_small by lia; try (done || lia || zlia).

(** The four regions of [kmap]. *)
Lemma setup_maps_ok d T s free :
  building d (fun _ => 0) T s free -> (KERNEL_TABLES < T)%nat ->
  data mod 4096 = 0 -> KERNLINK < data < KERNBASE + PHYSTOP ->
  returns (setup_maps me callers d (kmaps data)) s (fun ok s' =>
    ok = true /\ exists free', building d (kernel_pte data) T s' free').
Proof.
  intros B0 HT Hd Hr. destruct (text_pages Hd Hr) as (n1 & n2 & Hn1 & Hn2 & E1 & E2).
  assert (Hk : forall va, 2147483648 <= va < 2382364672 \/ 4261412864 <= va < 4294967296 ->
    kernel_pde (Z.to_nat (va / 4194304)) = true) by (intros va Hva; unfold kernel_pde; zlia).
  unfold kmaps. assert (V2P data = data - KERNBASE) as -> by (apply u32_small; unfold KERNBASE; lia).
  change (V2P KERNLINK) with 1048576. change DEVSPACE with 4261412864. change KERNLINK with 2148532224.
  change KERNBASE with 2147483648. change PHYSTOP with 234881024. change EXTMEM with 1048576.
  change PTE_W with 2.
  region B0 256 HT; [intros; apply Hk; lia|]. intros s1 f1 B1.
  region B1 n1 HT; [intros; apply Hk; lia|intros; by rewrite mapped_out by lia|]. intros s2 f2 B2.
  region B2 n2 HT; [intros; apply Hk; lia|intros; by rewrite !mapped_out by lia|]. intros s3 f3 B3.
  region B3 8192 HT; [intros; apply Hk; lia|intros; by rewrite !mapped_out by lia|]. intros s4 f4 B4.
  apply returns_ret. split; [done|]. exists f4. revert B4. apply building_ext. intros va. by apply (kernel_regions n1 n2).
Qed.

Lemma setupkvm_ok s : kinv kend s free0 -> k_mem s = m0 -> (KERNEL_TABLES + 1 < length free0)%nat ->
  data mod 4096 = 0 -> KERNLINK < data < KERNBASE + PHYSTOP ->
  returns (setupkvm me callers kend data) s (fun d s' =>
    head free0 = Some d /\ exists free', building d (kernel_pte data) (length (tail free0)) s' free').
Proof.
  intros Hk Hm Hl Hd Hr. destruct free0 as [|d free] eqn:Ef; [cbn in Hl; lia|]. rewrite <- Ef in *.
  assert (Hp : page_ok kend d) by (eapply flist_pages; [apply Hk|rewrite Ef, elem_of_cons; by left]).
  assert (Hn : d ∉ free) by (pose proof (ki_nodup _ _ _ Hk) as Hn; rewrite Ef in Hn; by apply NoDup_cons in Hn as [? _]).
  destruct (kalloc_ok me callers kend s _ Hk) as (s1 & E1 & Hk1 & Hm1). rewrite Ef in E1, Hk1 |- *. cbn in E1, Hk1.
  unfold setupkvm. eapply returns_Done; [exact E1|]. rewrite (proj2 (Z.eqb_neq d 0)) by (destruct Hp; lia).
  unfold mset. eapply returns_modify. change (DEVSPACE <? P2V PHYSTOP) with false. cbv iota.
  rstep setup_maps_ok; [apply empty_directory; [exact Ef|done|done|done|by rewrite Hm1]|rewrite Ef in Hl; cbn [length] in Hl; lia|done|done|].
  intros ok s' (-> & free' & B). apply returns_ret. split; [done|]. by exists free'.
Qed.
End Setup.

(** ** Translation *)

(** The hardware's translation by tables of 4 Kbyte pages, and by a directory of 4 Mbyte pages. *)
Definition mmu (m : mem) (d va : Z) : option Z :=
  let e := pte_of m d va in
  if present e then Some (PTE_ADDR e + u32 va mod 4096) else None.
Definition mmu_4m (dir : list Z) (va : Z) : option Z :=
  match dir !! Z.to_nat (PDX va) with
  | Some e =>
      if present e && negb (Z.land e PTE_PS =? 0) then Some (Z.land e 0xffc00000 + u32 va mod 4194304) else None
  | None => None
  end.

Lemma entrypgdir_lookup j : (j < 1024)%nat ->
  entrypgdir !! j = Some (if decide (j = 0%nat \/ j = 512%nat) then 131 else 0).
Proof.
  intros Hj. unfold entrypgdir. change (Z.to_nat (Z.shiftr KERNBASE PDXSHIFT)) with 512%nat.
  change (Z.lor (Z.lor (Z.lor 0 PTE_P) PTE_W) PTE_PS) with 131.
  assert (Hl : forall v, length (<[0%nat := v]> (replicate (Z.to_nat NPDENTRIES) 0)) = 1024%nat)
    by (intros; by rewrite length_insert, length_replicate).
  destruct (decide (j = 512%nat)) as [->|H5]; [rewrite list_lookup_insert_eq by (rewrite Hl; lia); by rewrite decide_True by auto|].
  rewrite list_lookup_insert_ne by done. destruct (decide (j = 0%nat)) as [->|H0].
  - rewrite list_lookup_insert_eq by (rewrite length_replicate; by vm_compute). by rewrite decide_True by auto.
  - rewrite list_lookup_insert_ne by done. rewrite lookup_replicate_2 by (change (Z.to_nat NPDENTRIES) with 1024%nat; lia).
    by rewrite decide_False by (intros [|]; done).
Qed.

(** [entrypgdir] maps the first 4 Mbyte of memory at 0 and at KERNBASE, and nothing else. *)
Lemma entry_space va : 0 <= va < 4294967296 ->
  mmu_4m entrypgdir va = (if va <? 4194304 then Some va else
    if (KERNBASE <=? va) && (va <? KERNBASE + 4194304) then Some (va - KERNBASE) else None).
Proof.
  intros Hva. unfold mmu_4m. rewrite PDX_div, u32_small, entrypgdir_lookup by zlia. unfold KERNBASE.
  assert (E : Some (Z.land 131 4290772992 + va mod 4194304) = Some (va mod 4194304)) by done.
  destruct (Z.ltb_spec va 4194304); [rewrite decide_True by zlia; etransitivity; [exact E|]; f_equal; zlia|].
  destruct (Z.leb_spec 2147483648 va), (Z.ltb_spec va (2147483648 + 4194304)); cbn [andb];
    [rewrite decide_True by zlia; etransitivity; [exact E|]; f_equal; zlia|by rewrite decide_False by zlia..].
Qed.

Lemma land_bit_0 q k : 0 <= k -> q mod 2 ^ (k + 1) = 0 -> Z.land q (2 ^ k) = 0.
Proof.
  intros Hk Hq. apply Z.bits_inj'. intros n Hn. rewrite Z.land_spec, Z.pow2_bits_eqb, Z.bits_0 by done.
  destruct (Z.eqb_spec k n) as [<-|]; [|apply andb_false_r].
  rewrite <- (Z.mod_pow2_bits_low q (k + 1)) by lia. by rewrite Hq, Z.bits_0.
Qed.

(** The kernel's entries map memory at KERNBASE. *)
Lemma kernel_pte_memory data va : KERNBASE <= va < KERNBASE + PHYSTOP ->
  present (kernel_pte data va) = true /\ PTE_ADDR (kernel_pte data va) + u32 va mod 4096 = va - KERNBASE /\
  (Z.land (kernel_pte data va) PTE_W =? 0) = ((KERNLINK <=? PGROUNDDOWN va) && (PGROUNDDOWN va <? data)).
Proof.
  unfold KERNBASE, PHYSTOP. intros Hva. pose proof (PGROUNDDOWN_mod va) as Hp0.
  assert (Hp : PGROUNDDOWN va = va - va mod 4096) by (rewrite PGROUNDDOWN_eq, u32_small by lia; lia).
  unfold kernel_pte. cbv zeta. unfold KERNBASE, PHYSTOP. rewrite u32_small by lia.
  rewrite (proj2 (andb_true_iff (2147483648 <=? _) _)) by zlia. set (p := PGROUNDDOWN va) in *.
  assert (H : forall w, w = 0 \/ w = 2 -> Z.lor (Z.lor (p - 2147483648) w) PTE_P = p - 2147483648 + (w + 1)).
  { intros w Hw. unfold PTE_P. rewrite <- Z.lor_assoc, lor_low; [|zlia|destruct Hw as [->| ->]; done].
    by destruct Hw as [->| ->]. }
  assert (W : forall q, q mod 4096 = 0 -> Z.land (q + 3) PTE_W = 2 /\ Z.land (q + 1) PTE_W = 0).
  { intros q Hq. rewrite <- !(lor_low q) by (done || lia). rewrite !Z.land_lor_distr_l.
    assert (Z.land q PTE_W = 0) as ->; [|done]. apply (land_bit_0 q 1); zlia. }
  destruct (W (p - 2147483648) ltac:(zlia)) as [W1 W2]. unfold PTE_W in *.
  destruct ((KERNLINK <=? p) && (p <? data)); rewrite H by auto; rewrite present_odd, PTE_ADDR_low by zlia;
    (split; [apply negb_true_iff, Z.eqb_neq; zlia|split; [lia|]]); [exact (f_equal (fun z => z =? 0) W2)|exact (f_equal (fun z => z =? 0) W1)].
Qed.

(** The pool of [kinit1] for the pages from [end] to 4 Mbyte. *)
Lemma boot_pool kend : KERNBASE <= kend -> PGROUNDUP kend + 4096 * 66 <= KERNBASE + 4194304 -> kend <= KERNBASE + 4194304 ->
  kend <= PGROUNDUP kend /\ (KERNEL_TABLES + 1 < length (reverse (range_pages kend (KERNBASE + 4194304))))%nat.
Proof.
  unfold KERNBASE, KERNEL_TABLES. intros H1 H2 H3. split; [rewrite PGROUNDUP_eq, u32_small; zlia|].
  rewrite length_reverse. unfold range_pages, pages_from. rewrite length_fmap, length_seq. unfold PGSIZE. zlia.
Qed.

(** C25. The first two calls of [main] give the kernel its address space: with 66 pages of memory
    between [end] and 4 Mbyte [kinit1] and [kvmalloc] return, without running out of pages, and
    load a directory whose every entry is the one [kmap] asks for. Kernel addresses [entrypgdir]
    mapped keep their translation, so the code that runs goes on; the kernel's text is
    read-only; the allocator's state is consistent; and of the memory only the pages that were
    free changed. *)
Theorem kernel_space me callers kend data s :
  cpu_ok (k_cpu (kv_k s)) -> bytes_ok (k_mem (kv_k s)) -> kmem_freelist (kv_k s) = 0 ->
  data mod 4096 = 0 -> KERNLINK < data <= kend -> kend <= KERNBASE + 4194304 ->
  PGROUNDUP kend + 4096 * 66 <= KERNBASE + 4194304 ->
  returns (main_kvm me callers kend data) s (fun _ s' => exists free,
    kinv kend (kv_k s') free /\ pd_wf kend (k_mem (kv_k s')) free (kv_kpgdir s') /\
    kv_cr3 s' = V2P (kv_kpgdir s') /\
    (forall va, pte_of (k_mem (kv_k s')) (kv_kpgdir s') va = kernel_pte data va) /\
    (forall va pa, KERNBASE <= va < 4294967296 -> mmu_4m entrypgdir va = Some pa ->
      mmu (k_mem (kv_k s')) (kv_kpgdir s') va = Some pa) /\
    (forall va, KERNLINK <= va < data -> Z.land (pte_of (k_mem (kv_k s')) (kv_kpgdir s') va) PTE_W = 0) /\
    (forall x, ~ PGROUNDUP kend <= x < KERNBASE + 4194304 -> k_mem (kv_k s') x = k_mem (kv_k s) x)).
Proof.
  intros Hc Hb Hf Hd Hdk Hke Hr.
  destruct (boot_pool kend) as [Hup Hlen]; [unfold KERNLINK, EXTMEM in *; lia|done|done|].
  assert (Hk4 : P2V (4 * 1024 * 1024) = KERNBASE + 4194304) by done.
  destruct (kinit1_pool me callers kend kend (KERNBASE + 4194304) (kv_k s)) as (s1 & E1 & K1 & F1 & P1); try done.
  { unfold KERNLINK, EXTMEM, PHYSTOP in *. lia. }
  unfold main_kvm. rewrite Hk4. eapply returns_Done; [apply (zoom_Done kv_lens); exact E1|].
  destruct (setupkvm_ok me callers kend data (k_mem s1) _ s1 K1 eq_refl Hlen Hd) as (d & s2 & E2 & Hh & free & B);
    [unfold PHYSTOP, KERNBASE in *; lia|].
  unfold kvmalloc. eapply returns_Done; [apply (zoom_Done kv_lens); exact E2|].
  eexists _, _. split; [reflexivity|]. exists free. cbn [kv_k kv_kpgdir kv_cr3 kv_lens lset lcr3 set_kpgdir].
  destruct B as [B1 B2 B3 B4 B5 B6 B7]. split; [done|]. split; [done|]. split; [done|]. split; [done|].
  assert (HK : KERNBASE = 2147483648) by done. assert (HP : PHYSTOP = 234881024) by done.
  split; [|split].
  - intros va pa Hva. rewrite entry_space by lia. destruct (Z.ltb_spec va 4194304); [lia|].
    destruct (_ && _) eqn:E; [|done]. intros [= <-]. unfold mmu. rewrite B3.
    destruct (kernel_pte_memory data va) as (-> & -> & _); [lia|done].
  - intros va Hva. rewrite B3. destruct (kernel_pte_memory data va) as (_ & _ & Hw); [unfold KERNLINK, EXTMEM in *; lia|].
    apply Z.eqb_eq. rewrite Hw, PGROUNDDOWN_eq, u32_small by (unfold KERNLINK, EXTMEM in *; lia).
    unfold KERNLINK, EXTMEM in *. zlia.
  - intros x Hx. rewrite B7; [by apply F1|]. intros (a & Ha & Hax). rewrite elem_of_reverse in Ha.
    apply P1 in Ha. unfold in_page, PGSIZE in *. lia.
Qed.

Definition sample_kvst : kvst := KvSt sample_kstate 0 0 (replicate 2 (replicate NSEGS (Segdesc 0 0 0 0 0 0 0 0 0 0 0 0 0))) (0, 0).

(** A kernel with 32 Kbyte of text, that ends at 0x80110a00. *)
Lemma kernel_space_witness :
  returns (main_kvm 0 [] 0x80110a00 0x80108000) sample_kvst (fun _ s' =>
    mmu (k_mem (kv_k s')) (kv_kpgdir s') 0x80100abc = Some 0x100abc /\
    pte_of (k_mem (kv_k s')) (kv_kpgdir s') 0x80107000 = 0x107001 /\
    pte_of (k_mem (kv_k s')) (kv_kpgdir s') 0x80108000 = 0x108003 /\
    pte_of (k_mem (kv_k s')) (kv_kpgdir s') 0xfee00000 = 0xfee00003 /\
    pte_of (k_mem (kv_k s')) (kv_kpgdir s') 0x1000 = 0).
Proof.
  eapply returns_mono.
  - apply (kernel_space 0 [] 0x80110a00 0x80108000 sample_kvst);
      [by split|intros a; cbn; lia|done|done|by vm_compute|by vm_compute|by vm_compute].
  - intros _ s' (free & _ & _ & _ & Hp & Hm & _). rewrite !Hp. split; [by apply Hm|by vm_compute].
Defined.

(** ** Segments *)

(** What the processor reads from a descriptor; the limit is scaled by the granularity. *)
Definition seg_base (d : segdesc) : Z := sd_base_15_0 d + 65536 * sd_base_23_16 d + 16777216 * sd_base_31_24 d.
Definition seg_limit (d : segdesc) : Z :=
  let l := sd_lim_15_0 d + 65536 * sd_lim_19_16 d in
  if sd_g d =? 1 then 4096 * l + 4095 else l.

(** Every field fits the bits it has. *)
Definition seg_wf (d : segdesc) : Prop :=
  0 <= sd_lim_15_0 d < 65536 /\ 0 <= sd_base_15_0 d < 65536 /\ 0 <= sd_base_23_16 d < 256 /\ 0 <= sd_type d < 16 /\
  0 <= sd_s d < 2 /\ 0 <= sd_dpl d < 4 /\ 0 <= sd_p d < 2 /\ 0 <= sd_lim_19_16 d < 16 /\ 0 <= sd_avl d < 2 /\
  0 <= sd_rsv1 d < 2 /\ 0 <= sd_db d < 2 /\ 0 <= sd_g d < 2 /\ 0 <= sd_base_31_24 d < 256.

(** A present 32-bit application segment. *)
Definition segment (d : segdesc) (type base lim dpl : Z) : Prop :=
  seg_wf d /\ seg_base d = base /\ seg_limit d = lim /\ sd_type d = type /\ sd_dpl d = dpl /\ sd_s d = 1 /\ sd_p d = 1 /\ sd_db d = 1.

Lemma SEG_segment type base lim dpl :
  0 <= type < 16 -> 0 <= dpl < 4 -> 0 <= base < 4294967296 -> 0 <= lim < 4294967296 ->
  segment (SEG type base lim dpl) type base (lim / 4096 * 4096 + 4095) dpl.
Proof.
  intros Ht Hd Hb Hl. unfold segment, seg_wf, seg_base, seg_limit, SEG; cbn [sd_lim_15_0 sd_base_15_0 sd_base_23_16
    sd_type sd_s sd_dpl sd_p sd_lim_19_16 sd_avl sd_rsv1 sd_db sd_g sd_base_31_24].
  change 0xffff with (Z.ones 16). change 0xff with (Z.ones 8). rewrite !Z.land_ones, !Z.shiftr_div_pow2, !u32_small by lia.
  change (2 ^ 16) with 65536. change (2 ^ 8) with 256. change (2 ^ 12) with 4096. change (2 ^ 24) with 16777216. change (2 ^ 28) with 268435456.
  change (1 =? 1) with true. cbv iota. zlia.
Qed.

Lemma cpuid_run me s : cpuid me s =
  if eflags_if (k_cpu (kv_k s)) then Panic "mycpu called with interrupts enabled" else Done me s.
Proof. destruct s as [[[a n i p []] m l u f] k c g r]; done. Qed.

Lemma alter_at {A} (f : A -> A) i (l : list A) g : l !! i = Some g -> alter f i l = <[i := f g]> l.
Proof.
  intros H. apply list_eq. intros j. destruct (decide (i = j)) as [<-|Hne].
  - rewrite list_lookup_alter_eq, H, list_lookup_insert_eq by (by eapply lookup_lt_Some). done.
  - by rewrite list_lookup_alter_ne, list_lookup_insert_ne.
Qed.

Lemma seginit_ok me gdt_addr s g :
  kv_gdt s !! me = Some g -> length g = NSEGS -> 0 <= gdt_addr me < 4294967296 ->
  if eflags_if (k_cpu (kv_k s)) then seginit me gdt_addr s = Panic "mycpu called with interrupts enabled"
  else returns (seginit me gdt_addr) s (fun _ s' => exists g' kc kd uc ud,
    kv_gdt s' = <[me := g']> (kv_gdt s) /\ kv_gdtr s' = (47, gdt_addr me) /\
    (kv_k s', kv_kpgdir s', kv_cr3 s') = (kv_k s, kv_kpgdir s, kv_cr3 s) /\
    length g' = NSEGS /\ g' !! 0%nat = g !! 0%nat /\ g' !! Z.to_nat SEG_TSS = g !! Z.to_nat SEG_TSS /\
    g' !! Z.to_nat SEG_KCODE = Some kc /\ segment kc (STA_X + STA_R) 0 0xffffffff 0 /\
    g' !! Z.to_nat SEG_KDATA = Some kd /\ segment kd STA_W 0 0xffffffff 0 /\
    g' !! Z.to_nat SEG_UCODE = Some uc /\ segment uc (STA_X + STA_R) 0 0xffffffff DPL_USER /\
    g' !! Z.to_nat SEG_UDATA = Some ud /\ segment ud STA_W 0 0xffffffff DPL_USER).
Proof.
  intros Hg Hn Ha. unfold seginit. pose proof (cpuid_run me s) as Hc.
  destruct (eflags_if (k_cpu (kv_k s))); [unfold m_bind; by rewrite Hc|]. eapply returns_Done; [exact Hc|].
  do 4 eapply returns_modify. eexists _, _. split; [reflexivity|].
  do 6 (destruct g as [|? g]; [done|]). destruct g; [|done].
  assert (Hi : (me < length (kv_gdt s))%nat) by (by eapply lookup_lt_Some).
  eexists _, (SEG (STA_X + STA_R) 0 0xffffffff 0), (SEG STA_W 0 0xffffffff 0),
    (SEG (STA_X + STA_R) 0 0xffffffff DPL_USER), (SEG STA_W 0 0xffffffff DPL_USER). split; [|split].
  - cbn [kv_gdt lgdt set_gdt]. rewrite (alter_at _ me (kv_gdt s) _ Hg).
    do 3 (erewrite (alter_at _ me (<[me := _]> (kv_gdt s))) by (by apply list_lookup_insert_eq); rewrite list_insert_insert_eq).
    reflexivity.
  - cbn [kv_gdtr lgdt]. f_equal. unfold u16. rewrite Z.shiftr_div_pow2 by lia. change (2 ^ 16) with 65536. zlia.
  - split; [done|]. do 3 (split; [done|]).
    split; [done|]. split; [by apply (SEG_segment (STA_X + STA_R) 0 0xffffffff 0)|].
    split; [done|]. split; [by apply (SEG_segment STA_W 0 0xffffffff 0)|].
    split; [done|]. split; [by apply (SEG_segment (STA_X + STA_R) 0 0xffffffff DPL_USER)|].
    split; [done|]. by apply (SEG_segment STA_W 0 0xffffffff DPL_USER).
Qed.

(** C26. [seginit] gives the processor that runs it well-formed descriptors: the four it stores
    have every field within its bits and are present flat segments of 4 Gbyte, two for the
    kernel and two for users at their privilege, of code and of data; the register
    holds the address and the size of this table; its null and task-state slots, the tables
    of the other processors and the rest of the state are as before. With interrupts on it
    panics. *)
Theorem seginit_segments me gdt_addr s g :
  kv_gdt s !! me = Some g -> length g = NSEGS -> 0 <= gdt_addr me < 4294967296 ->
  if eflags_if (k_cpu (kv_k s)) then seginit me gdt_addr s = Panic "mycpu called with interrupts enabled"
  else returns (seginit me gdt_addr) s (fun _ s' => exists g' kc kd uc ud,
    kv_gdt s' = <[me := g']> (kv_gdt s) /\ kv_gdtr s' = (47, gdt_addr me) /\
    (kv_k s', kv_kpgdir s', kv_cr3 s') = (kv_k s, kv_kpgdir s, kv_cr3 s) /\
    length g' = NSEGS /\ g' !! 0%nat = g !! 0%nat /\ g' !! Z.to_nat SEG_TSS = g !! Z.to_nat SEG_TSS /\
    g' !! Z.to_nat SEG_KCODE = Some kc /\ segment kc (STA_X + STA_R) 0 0xffffffff 0 /\
    g' !! Z.to_nat SEG_KDATA = Some kd /\ segment kd STA_W 0 0xffffffff 0 /\
    g' !! Z.to_nat SEG_UCODE = Some uc /\ segment uc (STA_X + STA_R) 0 0xffffffff DPL_USER /\
    g' !! Z.to_nat SEG_UDATA = Some ud /\ segment ud STA_W 0 0xffffffff DPL_USER).
Proof. apply seginit_ok. Qed.

(** The second processor of two, with its table at 0x80112800. *)
Lemma seginit_segments_witness :
  returns (seginit 1 (fun c => 0x80112770 + 0x90 * Z.of_nat c)) sample_kvst (fun _ s' =>
    kv_gdtr s' = (47, 0x80112800) /\ kv_gdt s' !! 0%nat = kv_gdt sample_kvst !! 0%nat).
Proof.
  eapply returns_mono.
  - apply (seginit_segments 1 (fun c => 0x80112770 + 0x90 * Z.of_nat c) sample_kvst
      (replicate NSEGS (Segdesc 0 0 0 0 0 0 0 0 0 0 0 0 0))); [done|done|by vm_compute].
  - intros _ s' (g' & kc & kd & uc & ud & -> & -> & _). done.
Defined.
