(* ===== verification/Sleeplock.v ===== *)
(** * Sleep locks (sleeplock.c)

    A sleep lock is held by a process, not by a processor. Its inner spin-lock
    [lk->lk] makes each routine one atomic step, which is how the routines are
    written here: the loop of [acquiresleep] that finds the lock taken leaves the
    process asleep ([Blocked]) with the lock unchanged. *)

From stdpp Require Import base tactics numbers list sets strings.
From Stdlib Require Import ZArith Lia ZifyNat.
From S2P Require Import Prelude.

Record sleeplock := SleepLock {
  sl_locked : Z;
  sl_name : string;
  sl_pid : Z }.

Definition initsleeplock (name : string) (_ : sleeplock) : sleeplock := SleepLock 0 name 0.

(** [pid] is [myproc()->pid]. *)
Definition acquiresleep (pid : Z) : M sleeplock unit :=
  let! lk := get in
  if negb (sl_locked lk =? 0) then block
  else put (SleepLock 1 (sl_name lk) pid).

Definition releasesleep : M sleeplock unit :=
  modify (fun lk => SleepLock 0 (sl_name lk) 0).

Definition holdingsleep (pid : Z) : M sleeplock bool :=
  gets (fun lk => negb (sl_locked lk =? 0) && (sl_pid lk =? pid)).

(** The lock taken by process [pid], and the free lock. *)
Definition locked_by (pid : Z) (lk : sleeplock) : Prop := sl_locked lk = 1 /\ sl_pid lk = pid.
Definition unlocked (lk : sleeplock) : Prop := sl_locked lk = 0.

Lemma acquiresleep_run pid lk :
  unlocked lk ->
  acquiresleep pid lk = Done tt (SleepLock 1 (sl_name lk) pid).
Proof. intros H. unfold acquiresleep. munf. by rewrite H. Qed.

Lemma holdingsleep_run pid lk :
  locked_by pid lk -> holdingsleep pid lk = Done true lk.
Proof. intros [H <-]. unfold holdingsleep. munf. by rewrite H, Z.eqb_refl. Qed.

(** ** Processes competing for one lock

    [waiting] are the processes asleep on the lock, [ready] those that will test
    it again. A process that finds the lock taken goes to sleep; [releasesleep]
    wakes all sleepers up. *)
Module Contend.
Record sys := Sys { y_lock : sleeplock; y_waiting : list Z; y_ready : list Z; y_holder : option Z }.

Inductive step : sys -> sys -> Prop :=
  | Arrive pid lk w r h :
      (pid ∉ w ++ r) -> h <> Some pid -> step (Sys lk w r h) (Sys lk w (pid :: r) h)
  | Take pid lk lk' w r1 r2 h :
      acquiresleep pid lk = Done tt lk' ->
      step (Sys lk w (r1 ++ pid :: r2) h) (Sys lk' w (r1 ++ r2) (Some pid))
  | Sleep pid lk lk' w r1 r2 h :
      acquiresleep pid lk = Blocked lk' ->
      step (Sys lk w (r1 ++ pid :: r2) h) (Sys lk' (pid :: w) (r1 ++ r2) h)
  | Leave pid lk lk1 lk2 w r :
      holdingsleep pid lk = Done true lk1 -> releasesleep lk1 = Done tt lk2 ->
      step (Sys lk w r (Some pid)) (Sys lk2 [] (w ++ r) None).

Inductive reachable : sys -> Prop :=
  | R_init name : reachable (Sys (SleepLock 0 name 0) [] [] None)
  | R_step s s' : reachable s -> step s s' -> reachable s'.

(** The lock word agrees with the holder, and nobody sleeps on a free lock. *)
Definition inv (s : sys) : Prop :=
  match y_holder s with
  | Some pid => locked_by pid (y_lock s)
  | None => unlocked (y_lock s) /\ y_waiting s = []
  end.

Lemma reachable_inv s : reachable s -> inv s.
Proof.
  induction 1 as [|s s' _ IH Hs]; [done|].
  destruct Hs as [| ? lk ? ? ? ? h H | ? lk ? ? ? ? h H | ? lk ? ? ? ? H1 H2];
    unfold inv in *; simpl in *.
  - done.
  - unfold acquiresleep in H. cbv beta iota delta [m_bind get put block] in H. by destruct (sl_locked lk =? 0); simplify_eq/=.
  - unfold acquiresleep in H. cbv beta iota delta [m_bind get put block] in H.
    destruct (sl_locked lk =? 0) eqn:E; simplify_eq/=.
    destruct h; [done|]. unfold unlocked in IH. destruct IH as [IH _].
    by rewrite IH in E.
  - unfold releasesleep in H2. cbv beta iota delta [modify] in H2. by simplify_eq/=.
Qed.


End Contend.
