(* ===== verification/Bio.v ===== *)
(** * The buffer cache (bio.c, buf.h) and the memory disk (memide.c)

    The cache is an array of buffers in a doubly linked ring through the [prev] and
    [next] fields; the ring's head is one more entry of the array. The disk is the
    one of memide.c, an array of blocks. Each section under [bcache.lock] is one
    atomic step. [ring] relates the links to the list of buffers in order of use. *)

From stdpp Require Import base tactics numbers functions list sets gmap strings.
From Stdlib Require Import ZArith Lia ZifyNat.
From S2P Require Import Prelude Layout Sleeplock.

Definition B_VALID : Z := 2.
Definition B_DIRTY : Z := 4.

(** A disk block: [BSIZE] bytes. *)
Abbreviation bdata := (list Z).

Record buf := Buf {
  b_flags : Z;
  b_dev : Z;
  b_blockno : Z;
  b_lock : sleeplock;
  b_refcnt : Z;
  b_prev : nat;
  b_next : nat;
  b_data : bdata }.

Definition zero_buf : buf :=
  Buf 0 0 0 (SleepLock 0 EmptyString 0) 0 0 0 (replicate (Z.to_nat BSIZE) 0).

Definition set_b_flags (v : Z) (b : buf) : buf :=
  Buf v (b_dev b) (b_blockno b) (b_lock b) (b_refcnt b) (b_prev b) (b_next b) (b_data b).
Definition set_b_lock (v : sleeplock) (b : buf) : buf :=
  Buf (b_flags b) (b_dev b) (b_blockno b) v (b_refcnt b) (b_prev b) (b_next b) (b_data b).
Definition set_b_refcnt (v : Z) (b : buf) : buf :=
  Buf (b_flags b) (b_dev b) (b_blockno b) (b_lock b) v (b_prev b) (b_next b) (b_data b).
Definition set_b_prev (v : nat) (b : buf) : buf :=
  Buf (b_flags b) (b_dev b) (b_blockno b) (b_lock b) (b_refcnt b) v (b_next b) (b_data b).
Definition set_b_next (v : nat) (b : buf) : buf :=
  Buf (b_flags b) (b_dev b) (b_blockno b) (b_lock b) (b_refcnt b) (b_prev b) v (b_data b).
Definition set_b_data (v : bdata) (b : buf) : buf :=
  Buf (b_flags b) (b_dev b) (b_blockno b) (b_lock b) (b_refcnt b) (b_prev b) (b_next b) v.

(** Buffer pointers are indices; [HEAD] is [&bcache.head]. *)
Abbreviation HEAD := NBUF (only parsing).

(** [bs_disk] is [memdisk], [disksize] blocks. [bs_hist] is not part of the program:
    it keeps every content the disk has had since the start, so that a crash can be
    spoken of as the disk of some moment. *)
Record bstate := BState {
  bs_buf : list buf;
  bs_disk : list bdata;
  bs_hist : list (list bdata) }.

Definition getb (s : bstate) (i : nat) : buf := default zero_buf (bs_buf s !! i).
Definition updb (i : nat) (f : buf -> buf) (s : bstate) : bstate :=
  BState (alter f i (bs_buf s)) (bs_disk s) (bs_hist s).
Definition set_disk (d : list bdata) (s : bstate) : bstate :=
  BState (bs_buf s) d (bs_hist s ++ [d]).

(** The sleep lock of buffer [i]. *)
Definition lock_lens (i : nat) : lens bstate sleeplock :=
  Lens (fun s => b_lock (getb s i)) (fun lk s => updb i (set_b_lock lk) s).

Definition b_next_of (s : bstate) (i : nat) : nat := b_next (getb s i).
Definition b_prev_of (s : bstate) (i : nat) : nat := b_prev (getb s i).

(** ** bio.c *)

(** Put [b] between the head and the first buffer:
    [b->next = head.next; b->prev = &head; head.next->prev = b; head.next = b]. *)
Definition link_first (b : nat) (s : bstate) : bstate :=
  let s := updb b (set_b_next (b_next_of s HEAD)) s in
  let s := updb b (set_b_prev HEAD) s in
  let s := updb (b_next_of s HEAD) (set_b_prev b) s in
  updb HEAD (set_b_next b) s.

(** One turn of the loop of [binit]. *)
Definition binit_step (b : nat) : M bstate unit :=
  modify (fun s => updb b (set_b_next (b_next_of s HEAD)) s) ;;;
  modify (updb b (set_b_prev HEAD)) ;;;
  modify (fun s => updb b (set_b_lock (initsleeplock "buffer" (b_lock (getb s b)))) s) ;;;
  modify (fun s => updb (b_next_of s HEAD) (set_b_prev b) s) ;;;
  modify (updb HEAD (set_b_next b)).

Definition binit : M bstate unit :=
  modify (updb HEAD (set_b_prev HEAD)) ;;;
  modify (updb HEAD (set_b_next HEAD)) ;;;
  mfor (seq 0 NBUF) binit_step.

(** The two loops of [bget]; the ring has [NBUF] buffers, which is the fuel. *)
Fixpoint scan (step : nat -> nat) (s : bstate) (p : buf -> bool) (b : nat) (fuel : nat)
  : option nat :=
  if (b =? HEAD)%nat then None
  else if p (getb s b) then Some b
  else match fuel with O => None | S fuel => scan step s p (step b) fuel end.

Definition caches (dev blockno : Z) (b : buf) : bool :=
  (b_dev b =? dev) && (b_blockno b =? blockno).
Definition unused (b : buf) : bool :=
  (b_refcnt b =? 0) && (Z.land (b_flags b) B_DIRTY =? 0).
(** [b->dev = dev; b->blockno = blockno; b->flags = 0; b->refcnt = 1]. *)
Definition recycle (dev blockno : Z) (b : buf) : buf :=
  Buf 0 dev blockno (b_lock b) 1 (b_prev b) (b_next b) (b_data b).

Section Bio.
(** [myproc()->pid]. *)
Variable pid : Z.

Definition bget (dev blockno : Z) : M bstate nat :=
  let! s := get in
  match scan (b_next_of s) s (caches dev blockno) (b_next_of s HEAD) NBUF with
  | Some b =>
      modify (updb b (fun x => set_b_refcnt (u32 (b_refcnt x + 1)) x)) ;;;
      zoom (lock_lens b) (acquiresleep pid) ;;;
      m_ret b
  | None =>
      match scan (b_prev_of s) s unused (b_prev_of s HEAD) NBUF with
      | Some b =>
          modify (updb b (recycle dev blockno)) ;;;
          zoom (lock_lens b) (acquiresleep pid) ;;;
          m_ret b
      | None => panic "bget: no buffers"
      end
  end.

(** memide.c *)
Definition iderw (b : nat) : M bstate unit :=
  let! held := zoom (lock_lens b) (holdingsleep pid) in
  if negb held then panic "iderw: buf not locked" else
  let! x := gets (fun s => getb s b) in
  if Z.land (b_flags x) (Z.lor B_VALID B_DIRTY) =? B_VALID then panic "iderw: nothing to do" else
  if negb (b_dev x =? 1) then panic "iderw: request not for disk 1" else
  let! disk := gets bs_disk in
  if Z.of_nat (length disk) <=? b_blockno x then panic "iderw: block out of range" else
  let p := Z.to_nat (b_blockno x) in
  (if negb (Z.land (b_flags x) B_DIRTY =? 0) then
     modify (updb b (fun x => set_b_flags (Z.land (b_flags x) (Z.lnot B_DIRTY)) x)) ;;;
     modify (set_disk (<[p := b_data x]> disk))
   else
     modify (updb b (set_b_data (default [] (disk !! p))))) ;;;
  modify (updb b (fun x => set_b_flags (Z.lor (b_flags x) B_VALID) x)).

Definition bread (dev blockno : Z) : M bstate nat :=
  let! b := bget dev blockno in
  let! x := gets (fun s => getb s b) in
  when (Z.land (b_flags x) B_VALID =? 0) (iderw b) ;;;
  m_ret b.

Definition bwrite (b : nat) : M bstate unit :=
  let! held := zoom (lock_lens b) (holdingsleep pid) in
  if negb held then panic "bwrite" else
  modify (updb b (fun x => set_b_flags (Z.lor (b_flags x) B_DIRTY) x)) ;;;
  iderw b.

Definition brelse (b : nat) : M bstate unit :=
  let! held := zoom (lock_lens b) (holdingsleep pid) in
  if negb held then panic "brelse" else
  zoom (lock_lens b) releasesleep ;;;
  modify (updb b (fun x => set_b_refcnt (u32 (b_refcnt x - 1)) x)) ;;;
  let! x := gets (fun s => getb s b) in
  when (b_refcnt x =? 0)
    (modify (fun s => updb (b_next_of s b) (set_b_prev (b_prev_of s b)) s) ;;;
     modify (fun s => updb (b_prev_of s b) (set_b_next (b_next_of s b)) s) ;;;
     modify (link_first b)).
End Bio.

(** ** The ring, on the [next] and [prev] links alone *)
Section Ring.
Implicit Types (N P : nat -> nat) (l : list nat).

(** [links N P x l y]: following [N] from [x] visits [l] and arrives at [y], and [P]
    leads back. *)
Fixpoint links N P (x : nat) l (y : nat) : Prop :=
  match l with
  | [] => N x = y /\ P y = x
  | z :: l => N x = z /\ P z = x /\ links N P z l y
  end.

Definition ring N P (h : nat) l : Prop := NoDup (h :: l) /\ links N P h l h.

Lemma links_app N P x l1 b l2 y :
  links N P x (l1 ++ b :: l2) y <-> links N P x l1 b /\ links N P b l2 y.
Proof. revert x. induction l1 as [|z l1 IH]; intros x; simpl; [tauto|]. rewrite IH. tauto. Qed.

Lemma links_frame N P N' P' x l y :
  links N P x l y ->
  (forall i, i = x \/ i ∈ l -> N' i = N i) ->
  (forall i, i = y \/ i ∈ l -> P' i = P i) ->
  links N' P' x l y.
Proof.
  revert x. induction l as [|z l IH]; intros x; simpl; intros H HN HP.
  - rewrite HN, HP by auto. done.
  - destruct H as (H1 & H2 & H3). rewrite HN, HP by set_solver.
    split; [done|]. split; [done|]. apply IH; [done|..]; set_solver.
Qed.

(** [b->next->prev = b->prev; b->prev->next = b->next]. *)
Lemma ring_unlink N P h l1 b l2 :
  ring N P h (l1 ++ b :: l2) ->
  ring (<[P b := N b]> N) (<[N b := P b]> P) h (l1 ++ l2).
Proof.
  intros [Hnd Hl]. split.
  { eapply sublist_NoDup; [done|]. apply sublist_skip, sublist_app; [done|]. by apply sublist_cons. }
  apply NoDup_cons in Hnd as [Hh Hnd]. apply NoDup_app in Hnd as (Hn1 & Hd & Hn2).
  apply NoDup_cons in Hn2 as [Hb Hn2]. apply links_app in Hl as [L1 L2].
  destruct l2 as [|n l2]; simpl in L2.
  - destruct L2 as [E1 E2]. rewrite E1, app_nil_r.
    destruct l1 as [|p l1 _] using rev_ind; simpl in L1.
    + destruct L1 as [E3 E4]. rewrite E4. simpl. by rewrite !fn_lookup_insert.
    + apply NoDup_app in Hn1 as (Hn1 & Hd1 & _).
      apply links_app in L1 as [L1 [E3 E4]]. rewrite E4. apply links_app. split.
      * eapply links_frame; [done|..]; intros i Hi; (rewrite fn_lookup_insert_ne; [done|set_solver]).
      * simpl. rewrite !fn_lookup_insert. done.
  - destruct L2 as (E1 & E2 & L2). rewrite E1.
    assert (L2' : forall M, links (<[M := n]> N) (<[n := M]> P) n l2 h \/ M ∈ n :: l2).
    { intros M. destruct (decide (M ∈ n :: l2)); [by right|left].
      apply NoDup_cons in Hn2 as [Hn Hn2].
      eapply links_frame; [done|..]; intros i Hi; (rewrite fn_lookup_insert_ne; [done|set_solver]). }
    destruct l1 as [|p l1 _] using rev_ind; simpl in L1.
    + destruct L1 as [E3 E4]. rewrite E4. simpl. rewrite !fn_lookup_insert.
      split; [done|]. split; [done|]. destruct (L2' h); [done|set_solver].
    + apply NoDup_app in Hn1 as (Hn1 & Hd1 & _).
      apply links_app in L1 as [L1 [E3 E4]]. rewrite E4.
      rewrite <- app_assoc. apply links_app. split.
      * eapply links_frame; [done|..]; intros i Hi; (rewrite fn_lookup_insert_ne; [done|set_solver]).
      * simpl. rewrite !fn_lookup_insert.
        split; [done|]. split; [done|]. destruct (L2' p) as [|Hp]; [done|].
        destruct (Hd p); [by apply elem_of_app; right; left|]. by right.
Qed.

(** [link_first]. *)
Lemma ring_link_first N P h b l :
  ring N P h l -> b <> h -> (b ∉ l) ->
  ring (<[h := b]> (<[b := N h]> N)) (<[N h := b]> (<[b := h]> P)) h (b :: l).
Proof.
  intros [Hnd Hl] Hbh Hbl. apply NoDup_cons in Hnd as [Hh Hnd]. split.
  { repeat apply NoDup_cons_2; set_solver. }
  simpl. rewrite fn_lookup_insert. split; [done|].
  destruct l as [|n l]; simpl in Hl.
  - destruct Hl as [E1 E2]. rewrite E1. simpl.
    rewrite (fn_lookup_insert_ne _ h b), !fn_lookup_insert,
      (fn_lookup_insert_ne _ h b), fn_lookup_insert by done. done.
  - destruct Hl as (E1 & E2 & Hl). rewrite E1. simpl.
    rewrite (fn_lookup_insert_ne _ n b) by set_solver. rewrite fn_lookup_insert.
    rewrite (fn_lookup_insert_ne _ h b) by done. rewrite !fn_lookup_insert.
    split; [done|]. split; [done|]. split; [done|].
    apply NoDup_cons in Hnd as [Hn Hnd].
    eapply links_frame; [done|..]; intros i Hi; rewrite !fn_lookup_insert_ne; set_solver.
Qed.

Lemma links_rev N P x l y : links N P x l y -> links P N y (rev l) x.
Proof.
  revert x. induction l as [|z l IH]; intros x; simpl; [tauto|].
  intros (H1 & H2 & H3). apply links_app. split; [by apply IH|done].
Qed.

(** A loop of [bget] finds the first buffer of the ring that satisfies its test. *)
Lemma scan_find N P s p x l fuel :
  links N P x l HEAD -> (HEAD ∉ l) -> (length l <= fuel)%nat ->
  scan N s p (N x) fuel = find (fun i => p (getb s i)) l.
Proof.
  revert x fuel. induction l as [|z l IH]; intros x fuel; simpl.
  - intros [-> _] _ _. by destruct fuel.
  - intros (-> & _ & Hl) Hh Hf. apply not_elem_of_cons in Hh as [Hz Hh].
    destruct fuel as [|fuel]; [lia|]. simpl.
    rewrite (proj2 (Nat.eqb_neq z HEAD)) by done.
    destruct (p (getb s z)); [done|]. apply IH; [done|done|lia].
Qed.
End Ring.
