(* ===== verification/BioSpec.v ===== *)
(** * What the buffer cache promises

    The abstract state of the cache is the disk and the blocks pinned in memory with
    contents that the disk does not have yet. [rep] says that a concrete cache
    represents an abstract state while a process holds some buffers, and the
    operations of bio.c are shown to act on it: reading a block, writing it to disk,
    pinning it, releasing it. *)

From stdpp Require Import base tactics numbers functions list sets gmap strings.
From Stdlib Require Import ZArith Lia ZifyNat.
From S2P Require Import Prelude Layout Sleeplock Bio.

Record astate := AState {
  a_disk : list bdata;
  a_dirty : gmap Z bdata;
  a_hist : list (list bdata) }.

Definition blk (d : list bdata) (n : Z) : bdata := default [] (d !! Z.to_nat n).
Definition put_blk (n : Z) (x : bdata) (d : list bdata) : list bdata := <[Z.to_nat n := x]> d.

(** What a reader of block [n] sees. *)
Definition view (A : astate) (n : Z) : bdata := default (blk (a_disk A) n) (a_dirty A !! n).

Definition in_disk (d : list bdata) (n : Z) : Prop := 0 <= n < Z.of_nat (length d).

(** Block [n] written to disk; block [n] pinned with contents [x]. *)
Definition a_write (n : Z) (x : bdata) (A : astate) : astate :=
  AState (put_blk n x (a_disk A)) (delete n (a_dirty A))
    (a_hist A ++ [put_blk n x (a_disk A)]).
Definition a_pin (n : Z) (x : bdata) (A : astate) : astate :=
  AState (a_disk A) (<[n := x]> (a_dirty A)) (a_hist A).

(** The buffers a process holds: index, block number and current contents. *)
Abbreviation holds := (gmap nat (Z * bdata)).

Definition is_valid (b : buf) : bool := Z.testbit (b_flags b) 1.
Definition is_dirty (b : buf) : bool := Z.testbit (b_flags b) 2.

#[local] Arguments Z.testbit : simpl never.

Section Flags.
Lemma land_bit f k : 0 <= k -> Z.land f (2 ^ k) = if Z.testbit f k then 2 ^ k else 0.
Proof.
  intros Hk. apply Z.bits_inj'. intros n Hn. rewrite Z.land_spec, Z.pow2_bits_eqb by done.
  destruct (Z.eqb_spec k n) as [<-|Hne]; destruct (Z.testbit f k) eqn:E;
    rewrite ?Z.pow2_bits_eqb, ?Z.bits_0, ?andb_false_r by done;
    rewrite ?E, ?Z.eqb_refl; [done|done| |done].
  symmetry. by apply Z.eqb_neq.
Qed.

Lemma dirty_flag b : (Z.land (b_flags b) B_DIRTY =? 0) = negb (is_dirty b).
Proof. unfold is_dirty, B_DIRTY. rewrite (land_bit _ 2) by done. by destruct (Z.testbit _ _). Qed.

Lemma valid_flag b : (Z.land (b_flags b) B_VALID =? 0) = negb (is_valid b).
Proof. unfold is_valid, B_VALID. rewrite (land_bit _ 1) by done. by destruct (Z.testbit _ _). Qed.

Lemma synced_flags b :
  (Z.land (b_flags b) (Z.lor B_VALID B_DIRTY) =? B_VALID) = is_valid b && negb (is_dirty b).
Proof.
  unfold is_valid, is_dirty, B_VALID, B_DIRTY. rewrite Z.land_lor_distr_r.
  rewrite (land_bit _ 1), (land_bit _ 2) by done.
  by destruct (Z.testbit _ 1), (Z.testbit _ 2).
Qed.

Lemma testbit_set_valid f : Z.testbit (Z.lor f B_VALID) 1 = true.
Proof. rewrite Z.lor_spec. apply orb_true_r. Qed.
Lemma testbit_set_valid_dirty f : Z.testbit (Z.lor f B_VALID) 2 = Z.testbit f 2.
Proof. rewrite Z.lor_spec. apply orb_false_r. Qed.
Lemma testbit_set_dirty f : Z.testbit (Z.lor f B_DIRTY) 2 = true.
Proof. rewrite Z.lor_spec. apply orb_true_r. Qed.
Lemma testbit_set_dirty_valid f : Z.testbit (Z.lor f B_DIRTY) 1 = Z.testbit f 1.
Proof. rewrite Z.lor_spec. apply orb_false_r. Qed.
Lemma testbit_clear_dirty f : Z.testbit (Z.land f (Z.lnot B_DIRTY)) 2 = false.
Proof. rewrite Z.land_spec. apply andb_false_r. Qed.
Lemma testbit_clear_dirty_valid f : Z.testbit (Z.land f (Z.lnot B_DIRTY)) 1 = Z.testbit f 1.
Proof. rewrite Z.land_spec. apply andb_true_r. Qed.
End Flags.

Create Rewrite HintDb flags.
#[export] Hint Rewrite testbit_set_valid testbit_set_valid_dirty testbit_set_dirty
  testbit_set_dirty_valid testbit_clear_dirty testbit_clear_dirty_valid : flags.

Section Rep.
Variable pid : Z.
Implicit Types (A : astate) (H : holds) (s : bstate) (b : buf).

Definition held_ok A b (n : Z) (x : bdata) : Prop :=
  b_refcnt b = 1 /\ locked_by pid (b_lock b) /\
  b_dev b = 1 /\ b_blockno b = n /\ b_data b = x /\ in_disk (a_disk A) n /\
  is_valid b = true /\ is_dirty b = bool_decide (is_Some (a_dirty A !! n)).

(** A buffer nobody holds is either still empty or holds what readers see. *)
Definition free_ok A b : Prop :=
  b_refcnt b = 0 /\ unlocked (b_lock b) /\
  ((b_dev b = 0 /\ is_dirty b = false) \/
   (b_dev b = 1 /\ in_disk (a_disk A) (b_blockno b) /\
    b_data b = view A (b_blockno b) /\ is_valid b = true /\
    is_dirty b = bool_decide (is_Some (a_dirty A !! b_blockno b)))).

Definition buf_ok A H (i : nat) b : Prop :=
  length (b_data b) = Z.to_nat BSIZE /\
  match H !! i with
  | Some (n, x) => held_ok A b n x
  | None => free_ok A b
  end.

Record content A H (bs : list buf) : Prop := Content {
  c_len : length bs = S NBUF;
  c_ok i b : (i < NBUF)%nat -> bs !! i = Some b -> buf_ok A H i b;
  c_inj i j b b' : (i < NBUF)%nat -> (j < NBUF)%nat -> bs !! i = Some b -> bs !! j = Some b' ->
    b_dev b = 1 -> b_dev b' = 1 -> b_blockno b = b_blockno b' -> i = j;
  c_held i : is_Some (H !! i) -> (i < NBUF)%nat;
  c_pinned n : is_Some (a_dirty A !! n) ->
    exists i b, (i < NBUF)%nat /\ bs !! i = Some b /\ b_dev b = 1 /\ b_blockno b = n }.

(** The ring lists every buffer once. *)
Definition lru s (l : list nat) : Prop :=
  ring (b_next_of s) (b_prev_of s) HEAD l /\ l ≡ₚ seq 0 NBUF.

Record rep A H s : Prop := Rep {
  r_disk : bs_disk s = a_disk A;
  r_hist : bs_hist s = a_hist A;
  r_blocks : Forall (fun x => length x = Z.to_nat BSIZE) (a_disk A);
  r_content : content A H (bs_buf s);
  r_lru : exists l, lru s l }.

(** ** Updating one buffer *)

Lemma getb_lookup s i b : bs_buf s !! i = Some b -> getb s i = b.
Proof. intros E. unfold getb. by rewrite E. Qed.

Lemma updb_updb i f g s : updb i f (updb i g s) = updb i (fun b => f (g b)) s.
Proof. unfold updb. simpl. by rewrite list_alter_alter_eq. Qed.

Lemma getb_updb i f s b : bs_buf s !! i = Some b -> getb (updb i f s) i = f b.
Proof. intros E. unfold getb, updb. simpl. by rewrite list_lookup_alter_eq, E. Qed.

Lemma getb_updb_ne i j f s : i <> j -> getb (updb i f s) j = getb s j.
Proof. intros E. unfold getb, updb. simpl. by rewrite list_lookup_alter_ne. Qed.

Lemma updb_lookup i f s b : bs_buf s !! i = Some b -> bs_buf (updb i f s) !! i = Some (f b).
Proof. intros E. unfold updb. simpl. by rewrite list_lookup_alter_eq, E. Qed.

(** An update that leaves the links alone leaves the ring alone. *)
Lemma lru_updb s l i f :
  lru s l -> (forall b, b_next (f b) = b_next b /\ b_prev (f b) = b_prev b) ->
  lru (updb i f s) l.
Proof.
  intros [[Hnd Hl] Hp] Hf. split; [split; [done|] | done].
  assert (E : forall j, b_next_of (updb i f s) j = b_next_of s j /\
                        b_prev_of (updb i f s) j = b_prev_of s j).
  { intros j. unfold b_next_of, b_prev_of. destruct (decide (i = j)) as [<-|Hne].
    - destruct (bs_buf s !! i) as [b|] eqn:E.
      + rewrite (getb_updb _ _ _ _ E), (getb_lookup _ _ _ E). apply Hf.
      + unfold getb, updb. simpl. by rewrite list_lookup_alter_eq, E.
    - by rewrite getb_updb_ne. }
  eapply links_frame; [done|..]; intros; apply E.
Qed.

Lemma content_update A H A' H' bs i b b' :
  content A H bs -> bs !! i = Some b -> (i < NBUF)%nat ->
  buf_ok A' H' i b' ->
  (forall j x, j <> i -> (j < NBUF)%nat -> bs !! j = Some x ->
     buf_ok A H j x -> buf_ok A' H' j x) ->
  (forall j x, j <> i -> (j < NBUF)%nat -> bs !! j = Some x ->
     b_dev x = 1 -> b_blockno x = b_blockno b' -> False) ->
  (forall j, is_Some (H' !! j) -> j = i \/ is_Some (H !! j)) ->
  (forall n, is_Some (a_dirty A' !! n) ->
     b_dev b' = 1 /\ (b_blockno b' = n \/
       (is_Some (a_dirty A !! n) /\ (b_dev b = 1 -> b_blockno b <> n)))) ->
  content A' H' (<[i := b']> bs).
Proof.
  intros C Hb Hi Hok Hfr Hinj Hh Hp.
  assert (Hlt : (i < length bs)%nat) by (rewrite (c_len _ _ _ C); lia).
  assert (L : forall j x, <[i := b']> bs !! j = Some x ->
            (j = i /\ x = b') \/ (j <> i /\ bs !! j = Some x)).
  { intros j x Hx. destruct (decide (j = i)) as [->|Hne].
    - rewrite list_lookup_insert_eq in Hx by done. left. naive_solver.
    - rewrite list_lookup_insert_ne in Hx by done. by right. }
  split.
  - by rewrite length_insert, (c_len _ _ _ C).
  - intros j x Hj [[-> ->]|[Hne Hx]]%L; [done|]. apply Hfr; [done..|]. by apply (c_ok _ _ _ C).
  - intros j k x y Hj Hk [[-> ->]|[Hne Hx]]%L [[-> ->]|[Hne' Hy]]%L Dx Dy En.
    + done.
    + destruct (Hinj k y); auto.
    + destruct (Hinj j x); auto.
    + by apply (c_inj _ _ _ C j k x y).
  - intros j [->|Hj]%Hh; [done|]. by apply (c_held _ _ _ C).
  - intros n Hn. destruct (Hp n Hn) as [D [E|[Hn' Hne]]].
    + exists i, b'. rewrite list_lookup_insert_eq by done. done.
    + destruct (c_pinned _ _ _ C n Hn') as (j & x & Hj & Hx & Dx & Ex).
      exists j, x. split; [done|]. split; [|done].
      rewrite list_lookup_insert_ne; [done|]. intros <-. simplify_eq. by destruct Hne.
Qed.

Lemma updb_insert i f s b :
  bs_buf s !! i = Some b -> bs_buf (updb i f s) = <[i := f b]> (bs_buf s).
Proof.
  intros E. unfold updb. simpl. apply list_eq. intros j. destruct (decide (i = j)) as [<-|Hne].
  - rewrite list_lookup_alter_eq, E, list_lookup_insert_eq by (by apply lookup_lt_is_Some; eauto).
    done.
  - by rewrite list_lookup_alter_ne, list_lookup_insert_ne.
Qed.

(** ** The sleep lock of a buffer *)

Lemma acquire_buf s i b :
  bs_buf s !! i = Some b -> unlocked (b_lock b) ->
  zoom (lock_lens i) (acquiresleep pid) s =
    Done tt (updb i (set_b_lock (SleepLock 1 (sl_name (b_lock b)) pid)) s).
Proof.
  intros E Hu. unfold zoom, lock_lens. cbn [lget lset].
  by rewrite (getb_lookup _ _ _ E), acquiresleep_run.
Qed.

Lemma holding_buf s i b :
  bs_buf s !! i = Some b -> locked_by pid (b_lock b) ->
  zoom (lock_lens i) (holdingsleep pid) s = Done true s.
Proof.
  intros E Hl. unfold zoom, lock_lens. cbn [lget lset].
  rewrite (getb_lookup _ _ _ E), holdingsleep_run by done.
  f_equal. destruct s as [bs d h]. unfold updb. simpl in *. f_equal.
  apply list_eq. intros j. destruct (decide (i = j)) as [<-|Hne].
  - rewrite list_lookup_alter_eq, E. by destruct b.
  - by rewrite list_lookup_alter_ne.
Qed.

(** ** Finding a buffer *)

Lemma lru_scan s l p :
  lru s l ->
  scan (b_next_of s) s p (b_next_of s HEAD) NBUF = find (fun i => p (getb s i)) l /\
  scan (b_prev_of s) s p (b_prev_of s HEAD) NBUF = find (fun i => p (getb s i)) (rev l).
Proof.
  intros [[Hnd Hl] Hp]. apply NoDup_cons in Hnd as [Hh _].
  assert (Hlen : length l = NBUF) by (rewrite Hp; apply length_seq).
  split; eapply scan_find; eauto using links_rev.
  - lia.
  - by rewrite list_elem_of_In, <- in_rev, <- list_elem_of_In.
  - rewrite length_rev. lia.
Qed.

Lemma lru_in s l i : lru s l -> i ∈ l <-> (i < NBUF)%nat.
Proof. intros [_ Hp]. rewrite Hp, elem_of_seq. lia. Qed.

(** The first loop of [bget] finds the buffer of a cached block, if there is one. *)
Lemma scan_hit A H s n :
  rep A H s ->
  match scan (b_next_of s) s (caches 1 n) (b_next_of s HEAD) NBUF with
  | Some i => (i < NBUF)%nat /\ exists b, bs_buf s !! i = Some b /\ b_dev b = 1 /\ b_blockno b = n
  | None => forall i b, (i < NBUF)%nat -> bs_buf s !! i = Some b -> b_dev b = 1 ->
      b_blockno b <> n
  end.
Proof.
  intros R. destruct (r_lru _ _ _ R) as [l Hl]. rewrite (proj1 (lru_scan _ _ _ Hl)).
  destruct (find _ l) as [i|] eqn:E.
  - apply find_some in E as [Hin Hc]. apply list_elem_of_In, (lru_in _ _ _ Hl) in Hin.
    split; [done|]. destruct (lookup_lt_is_Some_2 (bs_buf s) i) as [b Hb].
    { rewrite (c_len _ _ _ (r_content _ _ _ R)). lia. }
    exists b. rewrite (getb_lookup _ _ _ Hb) in Hc. unfold caches in Hc.
    apply andb_true_iff in Hc as [?%Z.eqb_eq ?%Z.eqb_eq]. done.
  - intros i b Hi Hb D Hn.
    pose proof (find_none _ _ E i) as F. simpl in F. rewrite (getb_lookup _ _ _ Hb) in F.
    unfold caches in F. rewrite D, Hn, !Z.eqb_refl in F. simpl in F.
    by assert (true = false) by (by apply F, list_elem_of_In, (lru_in _ _ _ Hl)).
Qed.

Lemma rep_lookup A H s i : rep A H s -> (i < NBUF)%nat -> exists b, bs_buf s !! i = Some b.
Proof.
  intros R Hi. apply lookup_lt_is_Some_2. rewrite (c_len _ _ _ (r_content _ _ _ R)). lia.
Qed.

(** Each buffer that cannot be recycled is held or caches a pinned block, a different
    one for each. *)
Lemma used_buffers A H s :
  rep A H s -> (forall i, (i < NBUF)%nat -> unused (getb s i) = false) ->
  (NBUF <= size (a_dirty A) + size H)%nat.
Proof.
  intros R Hused. set (free := filter (fun i => H !! i = None) (seq 0 NBUF)).
  set (no := fun i => b_blockno (getb s i)).
  assert (Hfree : forall i, i ∈ free -> exists b, bs_buf s !! i = Some b /\ (i < NBUF)%nat /\
            b_dev b = 1 /\ is_Some (a_dirty A !! b_blockno b)).
  { intros i [HH Hi%elem_of_seq]%list_elem_of_filter.
    destruct (rep_lookup _ _ _ i R) as [b Hb]; [lia|]. exists b.
    destruct (c_ok _ _ _ (r_content _ _ _ R) i b ltac:(lia) Hb) as [_ Hok]. rewrite HH in Hok.
    specialize (Hused i ltac:(lia)). rewrite (getb_lookup _ _ _ Hb) in Hused.
    unfold unused in Hused. destruct Hok as (Hr & _ & Hok).
    rewrite Hr, dirty_flag in Hused. simpl in Hused. apply negb_false_iff in Hused.
    split; [done|]. split; [lia|]. rewrite Hused in Hok.
    destruct Hok as [[_ ?]|(Hd & _ & _ & _ & Hx)]; [done|].
    split; [done|]. by eapply bool_decide_eq_true_1. }
  assert (L1 : (length (no <$> free) <= size (a_dirty A))%nat).
  { rewrite <- size_dom. unfold size, set_size, compose. apply submseteq_length, NoDup_submseteq.
    - apply NoDup_fmap_2_strong; [|apply NoDup_filter, NoDup_seq].
      intros i j Hi Hj Hn. destruct (Hfree i Hi) as (b & Hb & Li & Db & _).
      destruct (Hfree j Hj) as (c & Hc & Lj & Dc & _). unfold no in Hn.
      rewrite (getb_lookup _ _ _ Hb), (getb_lookup _ _ _ Hc) in Hn.
      by apply (c_inj _ _ _ (r_content _ _ _ R) i j b c).
    - intros n (i & -> & Hi)%list_elem_of_fmap. destruct (Hfree i Hi) as (b & Hb & _ & _ & Hs).
      unfold no. rewrite (getb_lookup _ _ _ Hb). by apply elem_of_elements, elem_of_dom. }
  assert (L2 : (length (filter (fun i => ~ H !! i = None) (seq 0 NBUF)) <= size H)%nat).
  { rewrite <- size_dom. unfold size, set_size, compose. apply submseteq_length, NoDup_submseteq.
    - apply NoDup_filter, NoDup_seq.
    - intros i [HH _]%list_elem_of_filter. apply elem_of_elements, elem_of_dom.
      destruct (H !! i); [eauto|done]. }
  rewrite length_fmap in L1. fold free in L1.
  pose proof (Permutation_length (filter_app_complement (fun i => H !! i = None) (seq 0 NBUF))) as E.
  rewrite length_app, length_seq in E. fold free in E. unfold NBUF in *. lia.
Qed.

Lemma scan_free A H s :
  rep A H s -> (size (a_dirty A) + size H < NBUF)%nat ->
  exists i b, scan (b_prev_of s) s unused (b_prev_of s HEAD) NBUF = Some i /\
    (i < NBUF)%nat /\ bs_buf s !! i = Some b /\ H !! i = None /\ is_dirty b = false.
Proof.
  intros R Hroom. destruct (r_lru _ _ _ R) as [l Hl]. rewrite (proj2 (lru_scan _ _ _ Hl)).
  destruct (find _ (rev l)) as [i|] eqn:E.
  - apply find_some in E as [Hin Hu]. apply in_rev in Hin.
    apply list_elem_of_In, (lru_in _ _ _ Hl) in Hin.
    destruct (rep_lookup _ _ _ i R Hin) as [b Hb]. rewrite (getb_lookup _ _ _ Hb) in Hu.
    unfold unused in Hu. rewrite dirty_flag in Hu.
    apply andb_true_iff in Hu as [Hr%Z.eqb_eq Hd%negb_true_iff].
    exists i, b. split; [done|]. split; [done|]. split; [done|]. split; [|done].
    destruct (c_ok _ _ _ (r_content _ _ _ R) i b Hin Hb) as [_ Hok].
    destruct (H !! i) as [[n x]|]; [|done]. destruct Hok as [Hr1 _]. congruence.
  - exfalso. assert (F : (NBUF <= size (a_dirty A) + size H)%nat).
    { apply (used_buffers _ _ _ R). intros i Hi. apply (find_none _ _ E i).
      by rewrite <- in_rev, <- list_elem_of_In, (lru_in _ _ _ Hl). }
    lia.
Qed.

(** The buffer [bread] returns, for a cached block and for a block read from disk. *)
Definition taken (b : buf) : buf :=
  set_b_lock (SleepLock 1 (sl_name (b_lock b)) pid) (set_b_refcnt (u32 (b_refcnt b + 1)) b).
Definition loaded (n : Z) (x : bdata) (b : buf) : buf :=
  Buf B_VALID 1 n (SleepLock 1 (sl_name (b_lock b)) pid) 1 (b_prev b) (b_next b) x.

Lemma bread_hit s n i b :
  scan (b_next_of s) s (caches 1 n) (b_next_of s HEAD) NBUF = Some i ->
  bs_buf s !! i = Some b -> unlocked (b_lock b) -> is_valid b = true ->
  bread pid 1 n s = Done i (updb i taken s).
Proof.
  intros E Hb Hu Hv. unfold bread, bget. rewrite bind_assoc. mstep. rewrite E.
  mstep. rewrite bind_assoc.
  erewrite bind_Done; [|eapply acquire_buf; [apply updb_lookup, Hb|done]]. cbv beta.
  mstep. mstep. rewrite updb_updb, (getb_updb _ _ _ _ Hb).
  cbn [b_flags set_b_lock set_b_refcnt b_lock b_refcnt].
  rewrite valid_flag, Hv. munf. simpl. f_equal.
  unfold updb. f_equal. by apply list_alter_ext; [intros; simplify_eq|].
Qed.

Lemma bread_miss s n i b :
  scan (b_next_of s) s (caches 1 n) (b_next_of s HEAD) NBUF = None ->
  scan (b_prev_of s) s unused (b_prev_of s HEAD) NBUF = Some i ->
  bs_buf s !! i = Some b -> unlocked (b_lock b) -> in_disk (bs_disk s) n ->
  bread pid 1 n s = Done i (updb i (loaded n (blk (bs_disk s) n)) s).
Proof.
  intros E1 E2 Hb Hu Hn. unfold bread, bget. rewrite bind_assoc. mstep. rewrite E1, E2.
  mstep. rewrite bind_assoc.
  erewrite bind_Done; [|eapply acquire_buf; [apply updb_lookup, Hb|done]]. cbv beta.
  mstep. mstep. rewrite updb_updb, (getb_updb _ _ _ _ Hb).
  cbn [b_flags set_b_lock recycle b_lock]. change (Z.land 0 B_VALID =? 0) with true.
  cbn [when]. unfold iderw. rewrite bind_assoc.
  erewrite bind_Done; [|eapply holding_buf; [by apply updb_lookup|done]].
  cbv beta. change (negb true) with false. cbv iota. mstep.
  rewrite (getb_updb _ _ _ _ Hb). cbn [b_flags set_b_lock recycle b_lock b_dev b_blockno].
  change (Z.land 0 (Z.lor B_VALID B_DIRTY) =? B_VALID) with false.
  change (negb (1 =? 1)) with false. cbv iota. mstep. cbn [bs_disk updb].
  unfold in_disk in Hn. rewrite (proj2 (Z.leb_gt _ _)) by lia. cbv iota.
  change (negb (Z.land 0 B_DIRTY =? 0)) with false. cbv iota. mstep. mstep.
  rewrite !updb_updb. munf. f_equal. unfold updb. cbn [bs_buf bs_disk bs_hist]. f_equal.
  apply list_alter_ext; [|done]. intros x Hx. rewrite Hb in Hx.
  injection Hx as <-. reflexivity.
Qed.

(** ** Refinement: the operations on the abstract state *)

Lemma buf_ok_other A H i j b v : j <> i -> buf_ok A H j b -> buf_ok A (<[i := v]> H) j b.
Proof. intros Hne. unfold buf_ok. by rewrite lookup_insert_ne by done. Qed.

Lemma blk_length d n :
  Forall (fun x => length x = Z.to_nat BSIZE) d -> in_disk d n ->
  length (blk d n) = Z.to_nat BSIZE.
Proof.
  intros F [Hn1 Hn2]. unfold blk. destruct (lookup_lt_is_Some_2 d (Z.to_nat n)) as [x Hx]; [lia|].
  rewrite Hx. simpl. apply (Forall_lookup_1 _ _ _ _ F Hx).
Qed.

(** A buffer update that keeps the links, as an update of the representation. *)
Lemma rep_updb A H A' H' s i b f :
  rep A H s -> bs_buf s !! i = Some b ->
  (forall x, b_next (f x) = b_next x /\ b_prev (f x) = b_prev x) ->
  a_disk A' = a_disk A -> a_hist A' = a_hist A ->
  content A' H' (<[i := f b]> (bs_buf s)) -> rep A' H' (updb i f s).
Proof.
  intros R Hb Hf ED EH C. split.
  - simpl. rewrite ED. apply R.
  - simpl. rewrite EH. apply R.
  - rewrite ED. apply R.
  - by rewrite (updb_insert _ _ _ _ Hb).
  - destruct (r_lru _ _ _ R) as [l Hl]. exists l. by apply lru_updb.
Qed.

(** [bread] returns a locked buffer with what readers of the block see; it changes
    neither the disk nor the pinned blocks. Unless the block is pinned, it needs a
    buffer that is neither held nor pinned. *)
Lemma bread_ok A H s n :
  rep A H s -> in_disk (a_disk A) n -> (forall i x, H !! i <> Some (n, x)) ->
  is_Some (a_dirty A !! n) \/ (size (a_dirty A) + size H < NBUF)%nat ->
  exists i s', bread pid 1 n s = Done i s' /\ H !! i = None /\
    rep A (<[i := (n, view A n)]> H) s'.
Proof.
  intros R Hn Hnot Hroom. pose proof (r_content _ _ _ R) as C. pose proof (scan_hit _ _ _ n R) as Hs.
  destruct (scan (b_next_of s) _ _ _ _) as [i|] eqn:E.
  - destruct Hs as (Hi & b & Hb & Db & Nb).
    pose proof (c_ok _ _ _ C i b Hi Hb) as [Hlen Hok].
    assert (HH : H !! i = None).
    { destruct (H !! i) as [[m x]|] eqn:HH; [|done]. destruct Hok as (_ & _ & _ & Em & _).
      rewrite Nb in Em. subst m. by destruct (Hnot i x). }
    rewrite HH in Hok. destruct Hok as (Hr & Hu & [[D0 _]|(_ & Hin & Hx & Hv & Hd)]); [lia|].
    exists i, (updb i taken s). split; [by eapply bread_hit|]. split; [done|].
    eapply rep_updb; [done..|]. eapply content_update; [done|done|done|..].
    + split; [done|]. rewrite lookup_insert_eq. unfold held_ok, taken. simpl.
      rewrite Hr, Db, Nb, <- Nb, Hx. done.
    + intros j x Hne _ _. by apply buf_ok_other.
    + intros j x Hne Hj Hx' Dx En. apply Hne. eapply (c_inj _ _ _ C); eauto.
    + intros j [v Hv']. apply lookup_insert_Some in Hv' as [[<- _]|[_ ?]]; [by left|right; eauto].
    + intros m Hm. split; [done|]. destruct (decide (b_blockno b = m)); [by left|right; auto].
  - assert (Hclean : ~ is_Some (a_dirty A !! n)).
    { intros Hsm. destruct (c_pinned _ _ _ C n Hsm) as (j & x & Hj & Hx & Dx & Nx).
      by apply (Hs j x). }
    destruct Hroom as [?|Hroom]; [done|]. apply eq_None_not_Some in Hclean.
    destruct (scan_free _ _ _ R Hroom) as (i & b & E2 & Hi & Hb & HH & Hd).
    pose proof (c_ok _ _ _ C i b Hi Hb) as [Hlen Hok]. rewrite HH in Hok.
    destruct Hok as (Hr & Hu & Hk).
    exists i, (updb i (loaded n (blk (a_disk A) n)) s). split.
    { rewrite <- (r_disk _ _ _ R). eapply bread_miss; eauto. by rewrite (r_disk _ _ _ R). }
    split; [done|]. eapply rep_updb; [done..|]. eapply content_update; [done|done|done|..].
    + split; [by apply blk_length; [apply R|]|]. rewrite lookup_insert_eq.
      unfold held_ok, view. rewrite Hclean. done.
    + intros j x Hne _ _. by apply buf_ok_other.
    + intros j x Hne Hj Hx' Dx En. by apply (Hs j x).
    + intros j [v Hv']. apply lookup_insert_Some in Hv' as [[<- _]|[_ ?]]; [by left|right; eauto].
    + intros m Hm. split; [done|]. right. split; [done|]. intros Db Em.
      destruct Hk as [[? _]|(_ & _ & _ & _ & Hx)]; [lia|].
      rewrite Hd, Em in Hx. symmetry in Hx. by apply bool_decide_eq_false_1 in Hx.
Qed.

Lemma held_lookup A H s i n x :
  rep A H s -> H !! i = Some (n, x) ->
  (i < NBUF)%nat /\ exists b, bs_buf s !! i = Some b /\ length (b_data b) = Z.to_nat BSIZE /\
    held_ok A b n x.
Proof.
  intros R HH. pose proof (r_content _ _ _ R) as C.
  assert (Hi : (i < NBUF)%nat) by (apply (c_held _ _ _ C); eauto).
  split; [done|]. destruct (rep_lookup _ _ _ i R Hi) as [b Hb]. exists b. split; [done|].
  pose proof (c_ok _ _ _ C i b Hi Hb) as [Hl Hok]. by rewrite HH in Hok.
Qed.

(** Changing the bytes of a held buffer. *)
Lemma edit_ok A H s i n x y :
  rep A H s -> H !! i = Some (n, x) -> length y = Z.to_nat BSIZE ->
  rep A (<[i := (n, y)]> H) (updb i (set_b_data y) s).
Proof.
  intros R HH Hy. pose proof (r_content _ _ _ R) as C.
  destruct (held_lookup _ _ _ _ _ _ R HH) as (Hi & b & Hb & _ & Hr & Hk & Db & Nb & Hx & Hrest).
  eapply rep_updb; [done..|]. eapply content_update; [done|done|done|..].
  - split; [done|]. rewrite lookup_insert_eq. done.
  - intros j z Hne _ _. by apply buf_ok_other.
  - intros j z Hne Hj Hz Dz En. apply Hne. eapply (c_inj _ _ _ C); eauto.
  - intros j [v Hv']. apply lookup_insert_Some in Hv' as [[<- _]|[_ ?]]; [by left|right; eauto].
  - intros m Hm. split; [done|]. destruct (decide (b_blockno b = m)); [by left|right; auto].
Qed.

(** [log_write] marks a held buffer dirty. *)
Lemma pin_ok A H s i n x :
  rep A H s -> H !! i = Some (n, x) ->
  rep (a_pin n x A) H (updb i (fun b => set_b_flags (Z.lor (b_flags b) B_DIRTY) b) s).
Proof.
  intros R HH. pose proof (r_content _ _ _ R) as C.
  destruct (held_lookup _ _ _ _ _ _ R HH) as (Hi & b & Hb & Hl & Hr & Hk & Db & Nb & Hx & Hin & Hv & Hd).
  assert (Hother : forall j z, j <> i -> (j < NBUF)%nat -> bs_buf s !! j = Some z -> b_dev z = 1 ->
            b_blockno z <> n).
  { intros j z Hne Hj Hz Dz En. apply Hne. eapply (c_inj _ _ _ C); eauto. congruence. }
  eapply rep_updb; [done..|]. eapply content_update; [done|done|done|..].
  - split; [done|]. rewrite HH. unfold held_ok, is_valid, is_dirty. simpl.
    autorewrite with flags. rewrite lookup_insert_eq. do 7 (split; [done|]).
    by rewrite bool_decide_eq_true_2.
  - intros j z Hne Hj Hz [Hlz Hok]. split; [done|].
    destruct (H !! j) as [[m y]|] eqn:HHj.
    + destruct Hok as (? & ? & Dz & Nz & ? & ? & ? & ?). unfold held_ok. simpl.
      rewrite lookup_insert_ne; [done|]. intros <-. by apply (Hother j z).
    + destruct Hok as (? & ? & Hcase). split; [done|]. split; [done|].
      destruct Hcase as [?|(Dz & ? & ? & ? & ?)]; [by left|]. right. unfold view. simpl. rewrite lookup_insert_ne; [done|]. intros E.
      by apply (Hother j z).
  - intros j z Hne Hj Hz Dz En. simpl in En. rewrite Nb in En. by apply (Hother j z).
  - intros j Hv'. by right.
  - intros m Hm. split; [done|]. simpl. destruct (decide (b_blockno b = m)) as [|Hne]; [by left|right].
    simpl in Hm. rewrite lookup_insert_ne in Hm by congruence. done.
Qed.

Definition synced (b : buf) : buf :=
  set_b_flags (Z.lor (Z.land (Z.lor (b_flags b) B_DIRTY) (Z.lnot B_DIRTY)) B_VALID) b.

Lemma bwrite_run s i b :
  bs_buf s !! i = Some b -> locked_by pid (b_lock b) -> b_dev b = 1 ->
  in_disk (bs_disk s) (b_blockno b) ->
  bwrite pid i s =
    Done tt (updb i synced (set_disk (put_blk (b_blockno b) (b_data b) (bs_disk s)) s)).
Proof.
  intros Hb Hl Db [Hn1 Hn2]. unfold bwrite, iderw.
  rewrite (bind_Done _ _ _ _ _ (holding_buf _ _ _ Hb Hl)).
  change (negb true) with false. cbv iota. mstep.
  erewrite bind_Done; [|eapply holding_buf; [apply updb_lookup, Hb|done]].
  cbv beta. change (negb true) with false. cbv iota. mstep.
  rewrite (getb_updb _ _ _ _ Hb). rewrite synced_flags, dirty_flag.
  unfold is_dirty. cbn [b_flags set_b_flags b_dev b_blockno].
  autorewrite with flags. rewrite andb_false_r, Db.
  change (negb (1 =? 1)) with false. cbv iota. mstep.
  rewrite (proj2 (Z.leb_gt _ _)) by (simpl; lia).
  change (negb (negb true)) with true. cbv iota. mstep. mstep. munf.
  unfold updb, set_disk. simpl. by rewrite !list_alter_alter_eq.
Qed.

Lemma in_disk_put d m n x : in_disk (put_blk m x d) n <-> in_disk d n.
Proof. unfold in_disk, put_blk. by rewrite length_insert. Qed.

Lemma blk_put_eq d n x : in_disk d n -> blk (put_blk n x d) n = x.
Proof.
  intros [? ?]. unfold blk, put_blk. by rewrite list_lookup_insert_eq by lia.
Qed.

Lemma blk_put_ne d m n x : 0 <= m -> 0 <= n -> m <> n -> blk (put_blk m x d) n = blk d n.
Proof. intros. unfold blk, put_blk. by rewrite list_lookup_insert_ne by lia. Qed.

(** [bwrite] puts the contents of a held buffer on the disk. *)
Lemma bwrite_ok A H s i n x :
  rep A H s -> H !! i = Some (n, x) ->
  exists s', bwrite pid i s = Done tt s' /\ rep (a_write n x A) H s'.
Proof.
  intros R HH. pose proof (r_content _ _ _ R) as C.
  destruct (held_lookup _ _ _ _ _ _ R HH) as (Hi & b & Hb & Hl & Hr & Hk & Db & Nb & Hx & Hin & Hv & Hd).
  eexists. split.
  { eapply bwrite_run; eauto. by rewrite (r_disk _ _ _ R), Nb. }
  rewrite (r_disk _ _ _ R), Nb, Hx.
  assert (Hother : forall j z, j <> i -> (j < NBUF)%nat -> bs_buf s !! j = Some z -> b_dev z = 1 ->
            b_blockno z <> n).
  { intros j z Hne Hj Hz Dz En. apply Hne. eapply (c_inj _ _ _ C); eauto. congruence. }
  split.
  - done.
  - simpl. by rewrite (r_hist _ _ _ R).
  - apply Forall_insert; [apply R|]. by rewrite <- Hx.
  - rewrite (updb_insert i synced (set_disk (put_blk n x (a_disk A)) s) b Hb). eapply content_update; [done|done|done|..].
    + split; [done|]. rewrite HH. unfold held_ok, synced, is_valid, is_dirty. simpl.
      autorewrite with flags. rewrite lookup_delete_eq, in_disk_put. done.
    + intros j z Hne Hj Hz [Hlz Hok]. split; [done|].
      destruct (H !! j) as [[m y]|] eqn:HHj.
      * destruct Hok as (? & ? & Dz & Nz & ? & ? & ? & ?). unfold held_ok. simpl.
        rewrite lookup_delete_ne, in_disk_put; [done|]. intros <-. by apply (Hother j z).
      * destruct Hok as (? & ? & Hcase). split; [done|]. split; [done|].
        destruct Hcase as [?|(Dz & Hz1 & Hz2 & ? & ?)]; [by left|]. right.
        assert (n <> b_blockno z) by (intros E; by apply (Hother j z)).
        destruct Hin, Hz1. unfold view. simpl.
        rewrite lookup_delete_ne, in_disk_put, blk_put_ne by done. done.
    + intros j z Hne Hj Hz Dz En. simpl in En. rewrite Nb in En. by apply (Hother j z).
    + intros j Hv'. by right.
    + intros m Hm. simpl in Hm. destruct (decide (n = m)) as [->|Hne].
      * rewrite lookup_delete_eq in Hm. by destruct Hm.
      * rewrite lookup_delete_ne in Hm by done. split; [done|]. right. split; [done|]. congruence.
  - destruct (r_lru _ _ _ R) as [l Hl']. exists l. by apply lru_updb.
Qed.

(** ** Releasing a buffer *)

(** A buffer without its links. *)
Definition core (b : buf) : buf := set_b_prev 0 (set_b_next 0 b).

Lemma content_core A H bs bs' :
  content A H bs -> core <$> bs' = core <$> bs -> content A H bs'.
Proof.
  intros C E.
  assert (F : forall i b', bs' !! i = Some b' -> exists b, bs !! i = Some b /\ core b = core b').
  { intros i b' Hb. assert (G : (core <$> bs') !! i = Some (core b')).
    { by rewrite list_lookup_fmap, Hb. }
    rewrite E, list_lookup_fmap in G. destruct (bs !! i) as [b|]; [|done].
    exists b. split; [done|]. by apply (inj Some) in G. }
  assert (K : forall b b', core b = core b' ->
    b_flags b = b_flags b' /\ b_dev b = b_dev b' /\ b_blockno b = b_blockno b' /\
    b_lock b = b_lock b' /\ b_refcnt b = b_refcnt b' /\ b_data b = b_data b').
  { intros [] [] G. injection G; intros; subst; done. }
  split.
  - rewrite <- (length_fmap core), E, length_fmap. apply C.
  - intros i b' Hi Hb. destruct (F _ _ Hb) as (b & Hb' & (E1 & E2 & E3 & E4 & E5 & E6)%K).
    pose proof (c_ok _ _ _ C i b Hi Hb') as Hok. revert Hok.
    unfold buf_ok, held_ok, free_ok, is_valid, is_dirty. by rewrite E1, E2, E3, E4, E5, E6.
  - intros i j b1 b2 Hi Hj H1 H2.
    destruct (F _ _ H1) as (c1 & G1 & (_ & E2 & E3 & _)%K).
    destruct (F _ _ H2) as (c2 & G2 & (_ & E2' & E3' & _)%K).
    rewrite <- E2, <- E3, <- E2', <- E3'. by apply (c_inj _ _ _ C).
  - apply C.
  - intros n Hn. destruct (c_pinned _ _ _ C n Hn) as (i & b & Hi & Hb & D & N).
    assert (G : (core <$> bs) !! i = Some (core b)) by by rewrite list_lookup_fmap, Hb.
    rewrite <- E, list_lookup_fmap in G. destruct (bs' !! i) as [b'|] eqn:Hb'; [|done].
    injection G as ? ? ? ? ? ?. exists i, b'. split; [done|]. split; [done|]. split; congruence.
Qed.

Lemma core_updb i f s :
  (forall b, core (f b) = core b) -> core <$> bs_buf (updb i f s) = core <$> bs_buf s.
Proof.
  intros Hf. unfold updb. simpl. apply list_eq. intros j. rewrite !list_lookup_fmap.
  destruct (decide (i = j)) as [<-|Hne].
  - rewrite list_lookup_alter_eq. destruct (bs_buf s !! i); simpl; by rewrite ?Hf.
  - by rewrite list_lookup_alter_ne.
Qed.

(** [b->next->prev = b->prev; b->prev->next = b->next] *)
Definition unlink (b : nat) (s : bstate) : bstate :=
  let s := updb (b_next_of s b) (set_b_prev (b_prev_of s b)) s in
  updb (b_prev_of s b) (set_b_next (b_next_of s b)) s.

Lemma b_next_of_set i v s j :
  (i < length (bs_buf s))%nat ->
  b_next_of (updb i (set_b_next v) s) j = <[i := v]> (b_next_of s) j /\
  b_prev_of (updb i (set_b_next v) s) j = b_prev_of s j.
Proof.
  intros [b Hb]%lookup_lt_is_Some_2. unfold b_next_of, b_prev_of.
  destruct (decide (i = j)) as [<-|Hne].
  - rewrite (getb_updb _ _ _ _ Hb), fn_lookup_insert, (getb_lookup _ _ _ Hb). done.
  - by rewrite getb_updb_ne, fn_lookup_insert_ne.
Qed.

Lemma b_prev_of_set i v s j :
  (i < length (bs_buf s))%nat ->
  b_prev_of (updb i (set_b_prev v) s) j = <[i := v]> (b_prev_of s) j /\
  b_next_of (updb i (set_b_prev v) s) j = b_next_of s j.
Proof.
  intros [b Hb]%lookup_lt_is_Some_2. unfold b_next_of, b_prev_of.
  destruct (decide (i = j)) as [<-|Hne].
  - rewrite (getb_updb _ _ _ _ Hb), fn_lookup_insert, (getb_lookup _ _ _ Hb). done.
  - by rewrite getb_updb_ne, fn_lookup_insert_ne.
Qed.

Lemma ring_ext N P N' P' h l :
  (forall j, N' j = N j) -> (forall j, P' j = P j) -> ring N P h l -> ring N' P' h l.
Proof. intros HN HP [Hnd Hl]. split; [done|]. eapply links_frame; eauto. Qed.

Lemma length_updb i f s : length (bs_buf (updb i f s)) = length (bs_buf s).
Proof. apply length_alter. Qed.

Lemma links_range N P x l y z :
  links N P x l y -> z = x \/ z ∈ l -> N z = y \/ N z ∈ l.
Proof.
  revert x. induction l as [|w l IH]; intros x; simpl.
  - intros [<- _] [->|Hz]; [by left|]. by apply not_elem_of_nil in Hz.
  - intros (Hw & _ & Hl) [->|Hz].
    + right. rewrite Hw. by left.
    + apply elem_of_cons in Hz. destruct (IH w Hl Hz); [by left|right; by right].
Qed.

Lemma lru_bound s l z :
  lru s l -> length (bs_buf s) = S NBUF -> (z <= NBUF)%nat ->
  (b_next_of s z < length (bs_buf s))%nat /\ (b_prev_of s z < length (bs_buf s))%nat.
Proof.
  intros L Hlen Hz. pose proof (lru_in _ _ z L) as Hin. pose proof (fun i => lru_in _ _ i L) as Hin'.
  destruct L as [[_ Hl] _]. pose proof (links_rev _ _ _ _ _ Hl) as Hr.
  assert (Hz' : z = HEAD \/ z ∈ l) by (rewrite Hin; lia).
  rewrite Hlen. split.
  - destruct (links_range _ _ _ _ _ z Hl Hz') as [->|H']; [lia|]. apply Hin' in H'. lia.
  - assert (Hz'' : z = HEAD \/ z ∈ rev l).
    { by rewrite list_elem_of_In, <- in_rev, <- list_elem_of_In. }
    destruct (links_range _ _ _ _ _ z Hr Hz'') as [->|H']; [lia|].
    rewrite list_elem_of_In, <- in_rev, <- list_elem_of_In in H'. apply Hin' in H'. lia.
Qed.

Lemma unlink_ring s l1 i l2 :
  lru s (l1 ++ i :: l2) -> length (bs_buf s) = S NBUF -> (i < NBUF)%nat ->
  ring (b_next_of (unlink i s)) (b_prev_of (unlink i s)) HEAD (l1 ++ l2).
Proof.
  intros L Hlen Hi. destruct (lru_bound _ _ i L Hlen) as [B1 B2]; [lia|].
  destruct L as [Hr Hp].
  set (s1 := updb (b_next_of s i) (set_b_prev (b_prev_of s i)) s).
  assert (L1 : length (bs_buf s1) = length (bs_buf s)) by (unfold s1; by rewrite length_updb).
  assert (N1 : forall j, b_prev_of s1 j = <[b_next_of s i := b_prev_of s i]> (b_prev_of s) j /\
                         b_next_of s1 j = b_next_of s j) by (intros; by apply b_prev_of_set).
  assert (EP : b_prev_of s1 i = b_prev_of s i).
  { rewrite (proj1 (N1 i)). unfold insert, fn_insert. by destruct (decide _). }
  unfold unlink. fold s1. cbv zeta. rewrite EP, (proj2 (N1 i)).
  pose proof (fun j => b_next_of_set (b_prev_of s i) (b_next_of s i) s1 j ltac:(lia)) as N2.
  eapply ring_ext; [| |by eapply ring_unlink]; intros j.
  - rewrite (proj1 (N2 j)). unfold insert, fn_insert. destruct (decide _); [done|]. apply N1.
  - rewrite (proj2 (N2 j)). apply N1.
Qed.

Lemma link_first_ring s i l :
  ring (b_next_of s) (b_prev_of s) HEAD l -> length (bs_buf s) = S NBUF ->
  (b_next_of s HEAD < length (bs_buf s))%nat -> (i < NBUF)%nat -> (i ∉ l) ->
  ring (b_next_of (link_first i s)) (b_prev_of (link_first i s)) HEAD (i :: l).
Proof.
  intros Hr Hlen B Hi Hni. unfold link_first.
  set (s1 := updb i (set_b_next (b_next_of s HEAD)) s).
  set (s2 := updb i (set_b_prev HEAD) s1).
  set (s3 := updb (b_next_of s2 HEAD) (set_b_prev i) s2).
  assert (L1 : length (bs_buf s1) = S NBUF) by (unfold s1; by rewrite length_updb).
  assert (L2 : length (bs_buf s2) = S NBUF) by (unfold s2; by rewrite length_updb).
  assert (L3 : length (bs_buf s3) = S NBUF) by (unfold s3; by rewrite length_updb).
  assert (N1 : forall j, b_next_of s1 j = <[i := b_next_of s HEAD]> (b_next_of s) j /\
                         b_prev_of s1 j = b_prev_of s j) by (intros; apply b_next_of_set; lia).
  assert (N2 : forall j, b_prev_of s2 j = <[i := HEAD]> (b_prev_of s1) j /\
                         b_next_of s2 j = b_next_of s1 j) by (intros; apply b_prev_of_set; lia).
  assert (EH : b_next_of s2 HEAD = b_next_of s HEAD).
  { rewrite (proj2 (N2 _)), (proj1 (N1 _)). apply fn_lookup_insert_ne. lia. }
  assert (N3 : forall j, b_prev_of s3 j = <[b_next_of s2 HEAD := i]> (b_prev_of s2) j /\
                         b_next_of s3 j = b_next_of s2 j).
  { intros. apply b_prev_of_set. rewrite EH. lia. }
  eapply ring_ext; [| |eapply (ring_link_first _ _ _ i); [done|lia|done]].
  - intros j. rewrite (proj1 (b_next_of_set HEAD i s3 j ltac:(lia))).
    unfold insert, fn_insert. destruct (decide (HEAD = j)); [done|].
    rewrite (proj2 (N3 j)), (proj2 (N2 j)), (proj1 (N1 j)). done.
  - intros j. rewrite (proj2 (b_next_of_set HEAD i s3 j ltac:(lia))), (proj1 (N3 j)), EH.
    unfold insert, fn_insert. destruct (decide (b_next_of s HEAD = j)); [done|].
    rewrite (proj1 (N2 j)). unfold insert, fn_insert.
    destruct (decide (i = j)); [done|]. apply N1.
Qed.

Definition released (b : buf) : buf :=
  set_b_refcnt (u32 (b_refcnt b - 1)) (set_b_lock (SleepLock 0 (sl_name (b_lock b)) 0) b).

Lemma brelse_run s i b :
  bs_buf s !! i = Some b -> locked_by pid (b_lock b) -> b_refcnt b = 1 ->
  brelse pid i s = Done tt (link_first i (unlink i (updb i released s))).
Proof.
  intros Hb Hl Hr. unfold brelse.
  rewrite (bind_Done _ _ _ _ _ (holding_buf _ _ _ Hb Hl)).
  change (negb true) with false. cbv iota.
  erewrite bind_Done; [|unfold zoom, lock_lens, releasesleep, modify; cbn [lget lset]; reflexivity].
  mstep. rewrite updb_updb, (getb_lookup _ _ _ Hb).
  match goal with |- context [updb i ?f s] => replace (updb i f s) with (updb i released s) end.
  { mstep. rewrite (getb_updb _ _ _ _ Hb). cbn [b_refcnt set_b_refcnt released].
    rewrite Hr. change (u32 (1 - 1) =? 0) with true. reflexivity. }
  unfold updb. f_equal. apply list_alter_ext; [|done]. intros x Hx. rewrite Hb in Hx.
  by injection Hx as <-.
Qed.

Lemma unlink_core i s : core <$> bs_buf (unlink i s) = core <$> bs_buf s.
Proof. unfold unlink. by rewrite !core_updb. Qed.

Lemma link_first_core i s : core <$> bs_buf (link_first i s) = core <$> bs_buf s.
Proof. unfold link_first. by rewrite !core_updb. Qed.

(** [brelse] gives the buffer up and makes it the most recently used one. *)
Lemma brelse_ok A H s i n l1 l2 :
  rep A H s -> H !! i = Some (n, view A n) -> lru s (l1 ++ i :: l2) ->
  exists s', brelse pid i s = Done tt s' /\ rep A (delete i H) s' /\ lru s' (i :: l1 ++ l2).
Proof.
  intros R HH L. pose proof (r_content _ _ _ R) as C.
  destruct (held_lookup _ _ _ _ _ _ R HH) as (Hi & b & Hb & Hl & Hr & Hk & Db & Nb & Hx & Hin & Hv & Hd).
  eexists. split; [by eapply brelse_run|].
  set (s1 := updb i released s).
  assert (C1 : content A (delete i H) (bs_buf s1)).
  { unfold s1. rewrite (updb_insert _ _ _ _ Hb). eapply content_update; [done|done|done|..].
    - split; [done|]. rewrite lookup_delete_eq. unfold free_ok. simpl. rewrite Hr.
      split; [done|]. split; [done|]. right. by rewrite Nb.
    - intros j z Hne _ _. unfold buf_ok. by rewrite lookup_delete_ne by done.
    - intros j z Hne Hj Hz Dz En. apply Hne. eapply (c_inj _ _ _ C); eauto.
    - intros j Hj. right. rewrite lookup_delete_is_Some in Hj. tauto.
    - intros m Hm. split; [done|]. destruct (decide (b_blockno b = m)); [by left|right; auto]. }
  assert (L1 : lru s1 (l1 ++ i :: l2)) by by apply lru_updb.
  pose proof (unlink_ring _ _ _ _ L1 (c_len _ _ _ C1) Hi) as U.
  assert (Len : length (bs_buf (unlink i s1)) = S NBUF).
  { unfold unlink. rewrite !length_updb. apply C1. }
  destruct L1 as [[Hnd _] Hperm].
  assert (Hp : i :: l1 ++ l2 ≡ₚ seq 0 NBUF) by (rewrite <- Hperm; by rewrite Permutation_middle).
  assert (Hni : i ∉ l1 ++ l2).
  { assert (Hnd' : NoDup (i :: l1 ++ l2)) by (rewrite Hp; apply NoDup_seq).
    by apply NoDup_cons in Hnd' as [? _]. }
  assert (B : (b_next_of (unlink i s1) HEAD < S NBUF)%nat).
  { destruct U as [_ U]. destruct (links_range _ _ _ _ _ HEAD U) as [E|E]; [by left|lia|].
    assert (E' : b_next_of (unlink i s1) HEAD ∈ seq 0 NBUF) by (rewrite <- Hp; by right).
    apply elem_of_seq in E'. lia. }
  assert (L' : lru (link_first i (unlink i s1)) (i :: l1 ++ l2)).
  { split; [|done]. apply link_first_ring; [done|done|lia|done|done]. }
  split; [|done]. split; [apply R|apply R|apply R| |by eexists].
  eapply content_core; [exact C1|]. by rewrite link_first_core, unlink_core.
Qed.

Lemma brelse_rep A H s i n :
  rep A H s -> H !! i = Some (n, view A n) ->
  exists s', brelse pid i s = Done tt s' /\ rep A (delete i H) s'.
Proof.
  intros R HH. destruct (r_lru _ _ _ R) as [l L].
  destruct (held_lookup _ _ _ _ _ _ R HH) as [Hi _].
  apply (lru_in _ _ _ L), list_elem_of_split in Hi as (l1 & l2 & ->).
  destruct (brelse_ok _ _ _ _ _ _ _ R HH L) as (s' & E & R' & _). eauto.
Qed.

Lemma view_write_eq A n x : in_disk (a_disk A) n -> view (a_write n x A) n = x.
Proof. intros. unfold view. simpl. by rewrite lookup_delete_eq, blk_put_eq. Qed.

Lemma view_write_ne A m n x : 0 <= m -> 0 <= n -> m <> n -> view (a_write m x A) n = view A n.
Proof. intros. unfold view. simpl. by rewrite lookup_delete_ne, blk_put_ne. Qed.

(** ** Start-up

    [bcache] is zero-initialised; [binit] links the buffers, the last one first. *)
Definition zero_bcache : list buf := replicate (S NBUF) zero_buf.

Definition booted (i : nat) : buf :=
  Buf 0 0 0 (if (i =? HEAD)%nat then SleepLock 0 EmptyString 0 else SleepLock 0 "buffer" 0) 0
    (if (i =? HEAD)%nat then 0 else S i)%nat
    (if (i =? 0)%nat then HEAD else (i - 1))%nat (replicate (Z.to_nat BSIZE) 0).

Lemma binit_run d h :
  binit (BState zero_bcache d h) = Done tt (BState (booted <$> seq 0 (S NBUF)) d h).
Proof. vm_compute. reflexivity. Qed.

Lemma binit_ok d h :
  Forall (fun x => length x = Z.to_nat BSIZE) d ->
  exists s, binit (BState zero_bcache d h) = Done tt s /\ rep (AState d ∅ h) ∅ s /\
    lru s (rev (seq 0 NBUF)).
Proof.
  intros Hd. eexists. split; [apply binit_run|].
  assert (L : lru (BState (booted <$> seq 0 (S NBUF)) d h) (rev (seq 0 NBUF))).
  { split; [|by rewrite <- Permutation_rev]. split.
    - rewrite <- Permutation_rev. apply NoDup_cons. rewrite elem_of_seq.
      split; [lia|apply NoDup_seq].
    - vm_compute. repeat split. }
  split; [|done]. split; [done|done|done| |by eexists].
  assert (F : forall i b, (booted <$> seq 0 (S NBUF)) !! i = Some b -> b = booted i).
  { intros i b Hb. rewrite list_lookup_fmap in Hb. apply fmap_Some in Hb as (j & Hj & ->).
    apply lookup_seq in Hj as [-> _]. done. }
  split.
  - by vm_compute.
  - intros i b Hi ->%F. split; [done|]. rewrite lookup_empty. split; [done|]. split; [|by left].
    unfold booted. simpl. by destruct (i =? HEAD)%nat.
  - intros i j b b' _ _ ->%F _ Db. by simpl in Db.
  - intros i [v Hv]. by rewrite lookup_empty in Hv.
  - intros n [v Hv]. simpl in Hv. by rewrite lookup_empty in Hv.
Qed.
End Rep.

Lemma find_split {A} (p : A -> bool) l x :
  find p l = Some x -> exists l1 l2, l = l1 ++ x :: l2 /\ forall y, y ∈ l1 -> p y = false.
Proof.
  induction l as [|y l IH]; simpl; [done|]. destruct (p y) eqn:E.
  - intros [= ->]. exists [], l. split; [done|]. intros z Hz. by apply not_elem_of_nil in Hz.
  - intros (l1 & l2 & -> & H)%IH. exists (y :: l1), l2. split; [done|].
    intros z [->|Hz]%elem_of_cons; [done|by apply H].
Qed.

(** Which buffer [bread] returns. *)
Lemma bread_shape pid A H s n l i s' :
  rep pid A H s -> lru s l -> in_disk (a_disk A) n -> (forall i x, H !! i <> Some (n, x)) ->
  is_Some (a_dirty A !! n) \/ (size (a_dirty A) + size H < NBUF)%nat ->
  bread pid 1 n s = Done i s' ->
  exists l1 l2 f, l = l1 ++ i :: l2 /\ s' = updb i f s /\
    (forall b, b_next (f b) = b_next b /\ b_prev (f b) = b_prev b) /\
    (caches 1 n (getb s i) = true \/ forall j, j ∈ l2 -> unused (getb s j) = false).
Proof.
  intros R L Hn Hnot Hroom E.
  destruct (lru_scan s l (caches 1 n) L) as [Sc _].
  pose proof (scan_hit _ _ _ _ n R) as Hs. rewrite Sc in Hs.
  destruct (find _ l) as [k|] eqn:F.
  - destruct Hs as (Hk & b & Hb & Db & Nb).
    pose proof (c_ok _ _ _ _ (r_content _ _ _ _ R) k b Hk Hb) as [_ Hok].
    destruct (H !! k) as [[m x]|] eqn:HH.
    { destruct Hok as (_ & _ & _ & Em & _). rewrite Nb in Em. subst m. by destruct (Hnot k x). }
    destruct Hok as (_ & Hu & [[D0 _]|(_ & _ & _ & Hv & _)]); [lia|].
    rewrite (bread_hit pid s n k b Sc Hb Hu Hv) in E. injection E as -> <-.
    apply find_some in F as [Fin Fc]. apply list_elem_of_In, list_elem_of_split in Fin as (l1 & l2 & ->).
    exists l1, l2, (taken pid). do 3 (split; [done|]). by left.
  - destruct Hroom as [Hp|Hroom].
    { destruct (c_pinned _ _ _ _ (r_content _ _ _ _ R) n Hp) as (j & x & Hj & Hx & Dx & Nx).
      by destruct (Hs j x). }
    destruct (scan_free pid A H s R Hroom) as (k & b & E2 & Hk & Hb & HH & Hd).
    pose proof (c_ok _ _ _ _ (r_content _ _ _ _ R) k b Hk Hb) as [_ Hok]. rewrite HH in Hok.
    rewrite (bread_miss pid s n k b Sc E2 Hb) in E;
      [|apply Hok|by rewrite (r_disk _ _ _ _ R)]. injection E as -> <-.
    destruct (lru_scan s l unused L) as [_ Sp]. rewrite Sp in E2.
    apply find_split in E2 as (l2 & l1 & El & Hl).
    exists (rev l1), (rev l2). eexists. split; [|split; [done|split; [done|]]].
    + rewrite <- (rev_involutive l), El, rev_app_distr. simpl. by rewrite <- app_assoc.
    + right. intros j Hj. apply Hl. by rewrite list_elem_of_In, <- in_rev, <- list_elem_of_In in Hj.
Qed.

(** C28. The buffer cache is coherent and replaces the least recently used buffer. With
    [l] the buffers in order of use: [bread] of a block nobody holds returns a buffer
    locked by the caller with the contents every reader sees, changing neither the
    disk nor any pinned block; if the block was not cached, all buffers used less
    recently than the recycled one are held or pinned. [brelse] of that buffer
    returns and makes it the most recently used. *)
Theorem bread_brelse_spec pid A H s n l :
  rep pid A H s -> lru s l -> in_disk (a_disk A) n -> (forall i x, H !! i <> Some (n, x)) ->
  is_Some (a_dirty A !! n) \/ (size (a_dirty A) + size H < NBUF)%nat ->
  exists i s' l1 l2, bread pid 1 n s = Done i s' /\ l = l1 ++ i :: l2 /\
    rep pid A (<[i := (n, view A n)]> H) s' /\ lru s' l /\
    (caches 1 n (getb s i) = true \/ forall j, j ∈ l2 -> unused (getb s j) = false) /\
    exists s2, brelse pid i s' = Done tt s2 /\ rep pid A H s2 /\ lru s2 (i :: l1 ++ l2).
Proof.
  intros R L Hn Hnot Hroom.
  destruct (bread_ok pid A H s n R Hn Hnot Hroom) as (i & s' & E & Hi & R').
  destruct (bread_shape _ _ _ _ _ _ _ _ R L Hn Hnot Hroom E) as (l1 & l2 & f & El & Es & Hf & Hc).
  assert (L' : lru s' l) by (rewrite Es; by apply lru_updb).
  exists i, s', l1, l2. do 5 (split; [done|]). rewrite El in L'.
  destruct (brelse_ok pid A _ s' i n l1 l2 R' (lookup_insert_eq _ _ _) L') as (s2 & E2 & R2 & L2).
  exists s2. by rewrite delete_insert_id in R2.
Qed.

Lemma bread_brelse_spec_witness :
  exists i s', binit (BState zero_bcache [replicate (Z.to_nat BSIZE) 7] []) = Done tt s' /\
    exists s2, bread 3 1 0 s' = Done i s2 /\ exists s3, brelse 3 i s2 = Done tt s3.
Proof.
  destruct (binit_ok 3 [replicate (Z.to_nat BSIZE) 7] []) as (s & E & R & L).
  - by apply Forall_singleton.
  - destruct (bread_brelse_spec 3 _ ∅ s 0 _ R L) as (i & s' & l1 & l2 & E1 & _ & _ & _ & _ & s2 & E2 & _).
    + unfold in_disk. simpl. lia.
    + by intros.
    + right. cbn [a_dirty]. rewrite !map_size_empty. unfold NBUF. lia.
    + exists i, s. split; [exact E|]. exists s'. split; [exact E1|]. by exists s2.
Defined.
