(* ===== verification/Ide.v ===== *)
(** * The IDE disk driver (ide.c)

    The requests form a linked list through [b->qnext], whose first one the controller works
    on. The driver reaches the controller through the port instructions of x86.h, which are
    the interface [Ports]; what the controller does is stated in IdeSpec. [iderw] is split
    where it sleeps: [iderw] runs up to the first [sleep], [iderw_resume] is one more turn of
    the loop around it. *)

From stdpp Require Import base tactics numbers list sets gmap strings.
From Stdlib Require Import ZArith Lia ZifyNat.
From S2P Require Import Prelude Layout Ports Sleeplock Bio.

Definition SECTOR_SIZE : Z := 512.
Definition IDE_BSY : Z := 0x80.
Definition IDE_DRDY : Z := 0x40.
Definition IDE_DF : Z := 0x20.
Definition IDE_ERR : Z := 0x01.
Definition IDE_CMD_READ : Z := 0x20.
Definition IDE_CMD_WRITE : Z := 0x30.
Definition IDE_CMD_RDMUL : Z := 0xc4.
Definition IDE_CMD_WRMUL : Z := 0xc5.

(** [id_qnext] is the field [qnext] of the buffers; [id_asleep] are the buffers whose
    process sleeps on them in [iderw]. *)
Record idest (D : Type) := IdeSt {
  id_buf : list buf;
  id_qnext : nat -> option nat;
  id_queue : option nat;
  id_havedisk1 : bool;
  id_asleep : gset nat;
  id_dev : D }.
Arguments IdeSt {D}.
Arguments id_buf {D}.
Arguments id_qnext {D}.
Arguments id_queue {D}.
Arguments id_havedisk1 {D}.
Arguments id_asleep {D}.
Arguments id_dev {D}.

Section Ide.
Context {D : Type} {ports : Ports D}.
(** The turns after which a loop that polls the controller is taken to spin for ever. *)
Variable patience : nat.

Abbreviation St := (idest D).

Definition set_id_buf (v : list buf) (s : St) : St :=
  IdeSt v (id_qnext s) (id_queue s) (id_havedisk1 s) (id_asleep s) (id_dev s).
Definition set_id_qnext (v : nat -> option nat) (s : St) : St :=
  IdeSt (id_buf s) v (id_queue s) (id_havedisk1 s) (id_asleep s) (id_dev s).
Definition set_id_queue (v : option nat) (s : St) : St :=
  IdeSt (id_buf s) (id_qnext s) v (id_havedisk1 s) (id_asleep s) (id_dev s).
Definition set_id_havedisk1 (v : bool) (s : St) : St :=
  IdeSt (id_buf s) (id_qnext s) (id_queue s) v (id_asleep s) (id_dev s).
Definition set_id_asleep (v : gset nat) (s : St) : St :=
  IdeSt (id_buf s) (id_qnext s) (id_queue s) (id_havedisk1 s) v (id_dev s).
Definition set_id_dev (v : D) (s : St) : St :=
  IdeSt (id_buf s) (id_qnext s) (id_queue s) (id_havedisk1 s) (id_asleep s) v.

Definition ibuf (s : St) (b : nat) : buf := default zero_buf (id_buf s !! b).
Definition upd_ibuf (b : nat) (f : buf -> buf) (s : St) : St := set_id_buf (alter f b (id_buf s)) s.

Definition p_inb (port : Z) : M St Z :=
  fun s => let '(v, d) := inb port (id_dev s) in Done v (set_id_dev d s).
Definition p_outb (port v : Z) : M St unit :=
  modify (fun s => set_id_dev (outb port (u8 v) (id_dev s)) s).
Definition p_insl (port : Z) (words : nat) : M St (list Z) :=
  fun s => let '(l, d) := insl port words (id_dev s) in Done l (set_id_dev d s).
Definition p_outsl (port : Z) (data : list Z) : M St unit :=
  modify (fun s => set_id_dev (outsl port data (id_dev s)) s).

(** [while(((r = inb(0x1f7)) & (IDE_BSY|IDE_DRDY)) != IDE_DRDY)] *)
Fixpoint idewait_loop (fuel : nat) : M St Z :=
  match fuel with
  | O => block
  | S fuel =>
      let! r := p_inb 0x1f7 in
      if Z.land r (Z.lor IDE_BSY IDE_DRDY) =? IDE_DRDY then m_ret r else idewait_loop fuel
  end.
Definition idewait (checkerr : bool) : M St Z :=
  let! r := idewait_loop patience in
  m_ret (if checkerr && negb (Z.land r (Z.lor IDE_DF IDE_ERR) =? 0) then -1 else 0).

(** [for(i=0; i<1000; i++) if(inb(0x1f7) != 0){ havedisk1 = 1; break; }] *)
Fixpoint find_disk1 (n : nat) : M St unit :=
  match n with
  | O => m_ret tt
  | S n =>
      let! r := p_inb 0x1f7 in
      if negb (r =? 0) then modify (set_id_havedisk1 true) else find_disk1 n
  end.
Definition ideinit : M St unit :=
  let! _ := idewait false in
  p_outb 0x1f6 (Z.lor 0xe0 (Z.shiftl 1 4)) ;;;
  find_disk1 1000 ;;;
  p_outb 0x1f6 (Z.lor 0xe0 (Z.shiftl 0 4)).

Definition idestart (b : option nat) : M St unit :=
  match b with
  | None => panic "idestart"
  | Some b =>
      let! x := gets (fun s => ibuf s b) in
      if FSSIZE <=? b_blockno x then panic "incorrect blockno" else
      let sector_per_block := BSIZE / SECTOR_SIZE in
      let sector := s32 (b_blockno x * sector_per_block) in
      let read_cmd := if sector_per_block =? 1 then IDE_CMD_READ else IDE_CMD_RDMUL in
      let write_cmd := if sector_per_block =? 1 then IDE_CMD_WRITE else IDE_CMD_WRMUL in
      if 7 <? sector_per_block then panic "idestart" else
      let! _ := idewait false in
      p_outb 0x3f6 0 ;;;
      p_outb 0x1f2 sector_per_block ;;;
      p_outb 0x1f3 (Z.land sector 0xff) ;;;
      p_outb 0x1f4 (Z.land (Z.shiftr sector 8) 0xff) ;;;
      p_outb 0x1f5 (Z.land (Z.shiftr sector 16) 0xff) ;;;
      p_outb 0x1f6 (Z.lor (Z.lor 0xe0 (Z.shiftl (Z.land (b_dev x) 1) 4)) (Z.land (Z.shiftr sector 24) 0x0f)) ;;;
      if negb (Z.land (b_flags x) B_DIRTY =? 0) then
        p_outb 0x1f7 write_cmd ;;;
        p_outsl 0x1f0 (b_data x)
      else
        p_outb 0x1f7 read_cmd
  end.

Definition ideintr : M St unit :=
  let! q := gets id_queue in
  match q with
  | None => m_ret tt
  | Some b =>
      modify (fun s => set_id_queue (id_qnext s b) s) ;;;
      let! x := gets (fun s => ibuf s b) in
      when (Z.land (b_flags x) B_DIRTY =? 0)
        (let! r := idewait true in
         when (0 <=? r)
           (let! l := p_insl 0x1f0 (Z.to_nat (BSIZE / 4)) in
            modify (upd_ibuf b (set_b_data l)))) ;;;
      modify (upd_ibuf b (fun x => set_b_flags (Z.lor (b_flags x) B_VALID) x)) ;;;
      modify (upd_ibuf b (fun x => set_b_flags (Z.land (b_flags x) (Z.lnot B_DIRTY)) x)) ;;;
      modify (fun s => set_id_asleep (id_asleep s ∖ {[b]}) s) ;;;
      let! q := gets id_queue in
      when (bool_decide (is_Some q)) (idestart q)
  end.

(** The pointer [pp]: [None] is [&idequeue], [Some b] is [&b->qnext]. *)
Definition deref (s : St) (pp : option nat) : option nat :=
  match pp with None => id_queue s | Some b => id_qnext s b end.
Definition assign (pp v : option nat) (s : St) : St :=
  match pp with
  | None => set_id_queue v s
  | Some b => set_id_qnext (fun i => if (i =? b)%nat then v else id_qnext s i) s
  end.
(** The loop that moves [pp] to the end of the queue; at most [NBUF] buffers are queued. *)
Fixpoint find_end (fuel : nat) (s : St) (pp : option nat) : option (option nat) :=
  match deref s pp with
  | None => Some pp
  | Some b => match fuel with O => None | S fuel => find_end fuel s (Some b) end
  end.

(** [while((b->flags & (B_VALID|B_DIRTY)) != B_VALID) sleep(b, &idelock)], up to [sleep]; is
    the request finished? *)
Definition iderw_resume (b : nat) : M St bool :=
  let! x := gets (fun s => ibuf s b) in
  if Z.land (b_flags x) (Z.lor B_VALID B_DIRTY) =? B_VALID then m_ret true
  else modify (fun s => set_id_asleep ({[b]} ∪ id_asleep s) s) ;;; m_ret false.

(** [pid] is [myproc()->pid]. *)
Definition iderw (pid : Z) (b : nat) : M St bool :=
  let! x := gets (fun s => ibuf s b) in
  if negb (negb (sl_locked (b_lock x) =? 0) && (sl_pid (b_lock x) =? pid)) then panic "iderw: buf not locked" else
  if Z.land (b_flags x) (Z.lor B_VALID B_DIRTY) =? B_VALID then panic "iderw: nothing to do" else
  let! have := gets id_havedisk1 in
  if negb (b_dev x =? 0) && negb have then panic "iderw: ide disk 1 not present" else
  modify (assign (Some b) None) ;;;
  let! s := get in
  match find_end NBUF s None with
  | None => block
  | Some pp =>
      modify (assign pp (Some b)) ;;;
      let! q := gets id_queue in
      when (bool_decide (q = Some b)) (idestart (Some b)) ;;;
      iderw_resume b
  end.
End Ide.
