(* ===== verification/IdeSpec.v ===== *)
(** * The IDE driver implements the disk of memide.c

    [ata] is what the ATA documents promise of the command block of a controller; [AtaBus]
    says that the ports behave so. The processes that call [iderw], the interrupts and the
    rest of the kernel, which meanwhile works on other buffers, are a step relation. Every
    run of it is a run in which each request is served, at its interrupt and in the order of
    the requests, by the atomic [iderw] of memide.c. *)

From stdpp Require Import base tactics numbers list sets gmap strings.
From Stdlib Require Import ZArith Lia ZifyNat ZifyBool.
From S2P Require Import Prelude Layout Ports Sleeplock Bio Ide.

(** ** The controller *)

(** The sectors by drive and number, the registers by port, and the command waiting for its
    data: is it a write, the drive and the sector. *)
Record ata := Ata {
  a_sector : Z -> Z -> list Z;
  a_reg : Z -> Z;
  a_cmd : option (bool * Z * Z) }.

Definition ata_lba (a : ata) : Z :=
  a_reg a 0x1f3 + 256 * a_reg a 0x1f4 + 65536 * a_reg a 0x1f5 + 16777216 * (a_reg a 0x1f6 mod 16).
Definition ata_drive (a : ata) : Z := a_reg a 0x1f6 / 16 mod 2.

(** Writing a register; writing the command register starts the command. Only transfers of
    one sector are described. *)
Definition ata_outb (port v : Z) (a : ata) : ata :=
  if port =? 0x1f7 then
    Ata (a_sector a) (a_reg a)
      (if negb (a_reg a 0x1f2 =? 1) then None
       else if v =? 0x20 then Some (false, ata_drive a, ata_lba a)
       else if v =? 0x30 then Some (true, ata_drive a, ata_lba a)
       else None)
  else Ata (a_sector a) (fun p => if p =? port then v else a_reg a p) (a_cmd a).

Definition ata_outsl (data : list Z) (a : ata) : ata :=
  match a_cmd a with
  | Some (true, dr, n) =>
      Ata (fun dr' n' => if (dr' =? dr) && (n' =? n) then data else a_sector a dr' n') (a_reg a) None
  | _ => a
  end.

Definition ata_insl (a : ata) : list Z * ata :=
  match a_cmd a with
  | Some (false, dr, n) => (a_sector a dr n, Ata (a_sector a) (a_reg a) None)
  | _ => ([], a)
  end.

(** The state after [n] reads of the status register. *)
Fixpoint polled {D} `{Ports D} (n : nat) (d : D) : D :=
  match n with O => d | S n => polled n (inb 0x1f7 d).2 end.

Definition is_ready (r : Z) : bool := Z.land r (Z.lor IDE_BSY IDE_DRDY) =? IDE_DRDY.

(** A controller that follows the protocol, gets ready within [patience] reads of its status
    and has no errors to report. *)
Class AtaBus (D : Type) `{Ports D} (patience : nat) := {
  view : D -> ata;
  view_inb d : view (inb 0x1f7 d).2 = view d;
  view_outb p v d : view (outb p v d) = ata_outb p v (view d);
  view_insl d dr n : a_cmd (view d) = Some (false, dr, n) ->
    (insl 0x1f0 128 d).1 = (ata_insl (view d)).1 /\ view (insl 0x1f0 128 d).2 = (ata_insl (view d)).2;
  view_outsl d data : length data = 512%nat -> view (outsl 0x1f0 data d) = ata_outsl data (view d);
  ata_ready d : exists n, (n < patience)%nat /\ is_ready (inb 0x1f7 (polled n d)).1 = true;
  ata_healthy d : is_ready (inb 0x1f7 d).1 = true -> Z.land (inb 0x1f7 d).1 (Z.lor IDE_DF IDE_ERR) = 0 }.

(** ** The steps of the driver *)

Definition dirty (x : buf) : bool := negb (Z.land (b_flags x) B_DIRTY =? 0).
Definition finished (x : buf) : bool := Z.land (b_flags x) (Z.lor B_VALID B_DIRTY) =? B_VALID.

(** What a caller of [iderw] guarantees of its buffer. *)
Record request_ok (pid : Z) (x : buf) : Prop := RequestOk {
  rq_locked : sl_locked (b_lock x) <> 0;
  rq_pid : sl_pid (b_lock x) = pid;
  rq_dev : b_dev x = 1;
  rq_block : 0 <= b_blockno x < FSSIZE;
  rq_data : length (b_data x) = 512%nat;
  rq_todo : finished x = false }.

(** The controller was [a] and now works for [x]. *)
Definition started (x : buf) (a a' : ata) : Prop :=
  if dirty x then
    a_cmd a' = None /\
    a_sector a' = fun dr n => if (dr =? 1) && (n =? b_blockno x) then b_data x else a_sector a dr n
  else a_cmd a' = Some (false, 1, b_blockno x) /\ a_sector a' = a_sector a.

Section Driver.
Context {D : Type} {ports : Ports D} {patience : nat} {bus : AtaBus D patience}.
Implicit Types (s : idest D).

Lemma idewait_loop_ok n fuel s :
  (n < fuel)%nat -> is_ready (inb 0x1f7 (polled n (id_dev s))).1 = true ->
  returns (idewait_loop fuel) s (fun r s' =>
    Z.land r (Z.lor IDE_DF IDE_ERR) = 0 /\ exists d, s' = set_id_dev d s /\ view d = view (id_dev s)).
Proof using bus.
  revert n s. induction fuel as [|fuel IH]; intros n s Hn Hr; [lia|].
  cbn [idewait_loop]. pose proof (ata_healthy (id_dev s)) as Hh. pose proof (view_inb (id_dev s)) as Hv.
  destruct (inb 0x1f7 (id_dev s)) as [r d] eqn:E.
  apply returns_Done with r (set_id_dev d s); [unfold p_inb; by rewrite E|].
  destruct (Z.land r (Z.lor IDE_BSY IDE_DRDY) =? IDE_DRDY) eqn:Er.
  { apply returns_ret. split; [by apply Hh|]. by exists d. }
  destruct n as [|n]; simpl in Hr; rewrite E in Hr; [simpl in Hr; unfold is_ready in Hr; congruence|].
  rlast (IH n (set_id_dev d s)); [lia|done|]. intros r' s' (H0 & d' & -> & Hd). simpl in *.
  split; [done|]. exists d'. split; [done|congruence].
Qed.

Lemma idewait_ok c s :
  returns (idewait patience c) s (fun r s' => r = 0 /\ exists d, s' = set_id_dev d s /\ view d = view (id_dev s)).
Proof using bus.
  destruct (ata_ready (id_dev s)) as (n & Hn & Hr).
  rstep idewait_loop_ok; [done..|]. intros r s' [H0 Hd]. apply returns_ret. split; [|done].
  rewrite H0. by destruct c.
Qed.

(** The four register bytes make up the sector number. *)
Lemma lba_bytes n :
  0 <= n < FSSIZE ->
  u8 (Z.land n 0xff) + 256 * u8 (Z.land (Z.shiftr n 8) 0xff) + 65536 * u8 (Z.land (Z.shiftr n 16) 0xff)
    + 16777216 * (u8 (Z.lor (Z.lor 0xe0 (Z.shiftl (Z.land 1 1) 4)) (Z.land (Z.shiftr n 24) 0x0f)) mod 16) = n /\
  u8 (Z.lor (Z.lor 0xe0 (Z.shiftl (Z.land 1 1) 4)) (Z.land (Z.shiftr n 24) 0x0f)) / 16 mod 2 = 1.
Proof.
  unfold FSSIZE. intros Hn. rewrite !Z.shiftr_div_pow2 by lia.
  change 0xff with (Z.ones 8). change 0x0f with (Z.ones 4). rewrite !Z.land_ones by lia.
  replace (n / 2 ^ 24) with 0 by zlia. change (0 mod 2 ^ 4) with 0. rewrite Z.lor_0_r.
  change (Z.lor 0xe0 (Z.shiftl (Z.land 1 1) 4)) with 0xf0. unfold u8. zlia.
Qed.

(** The registers written one after the other, then the command. *)
Definition programmed (cmd v3 v4 v5 v6 : Z) (a : ata) : ata :=
  ata_outb 0x1f7 cmd (ata_outb 0x1f6 v6 (ata_outb 0x1f5 v5 (ata_outb 0x1f4 v4 (ata_outb 0x1f3 v3
    (ata_outb 0x1f2 1 (ata_outb 0x3f6 0 a)))))).

Lemma outb_sector p v a : a_sector (ata_outb p v a) = a_sector a.
Proof using. unfold ata_outb. by destruct (p =? 0x1f7). Qed.

Lemma outb_reg p v a q : p <> 0x1f7 -> a_reg (ata_outb p v a) q = if q =? p then v else a_reg a q.
Proof using. intros. unfold ata_outb. by rewrite (proj2 (Z.eqb_neq p 0x1f7)). Qed.

Lemma outb_cmd (w : bool) a :
  a_reg a 0x1f2 = 1 -> a_cmd (ata_outb 0x1f7 (if w then 0x30 else 0x20) a) = Some (w, ata_drive a, ata_lba a).
Proof using. intros H. unfold ata_outb. rewrite H. by destruct w. Qed.

Lemma programmed_cmd (w : bool) v3 v4 v5 v6 n a :
  v3 + 256 * v4 + 65536 * v5 + 16777216 * (v6 mod 16) = n -> v6 / 16 mod 2 = 1 ->
  a_cmd (programmed (if w then 0x30 else 0x20) v3 v4 v5 v6 a) = Some (w, 1, n) /\
  a_sector (programmed (if w then 0x30 else 0x20) v3 v4 v5 v6 a) = a_sector a.
Proof using.
  intros El Ed. unfold programmed. split; [|by rewrite !outb_sector].
  rewrite outb_cmd by by rewrite !outb_reg.
  unfold ata_drive, ata_lba. rewrite !outb_reg by done. simpl. by rewrite El, Ed.
Qed.

Lemma idestart_ok s b x pid :
  id_buf s !! b = Some x -> request_ok pid x ->
  returns (idestart patience (Some b)) s (fun _ s' =>
    exists d, s' = set_id_dev d s /\ started x (view (id_dev s)) (view d)).
Proof using bus.
  intros Hb [_ _ Hdev Hblk Hlen _]. unfold idestart. apply returns_gets.
  assert (Ex : ibuf s b = x) by (unfold ibuf; by rewrite Hb). rewrite Ex.
  replace (FSSIZE <=? b_blockno x) with false by lia.
  change (BSIZE / SECTOR_SIZE) with 1. change (1 =? 1) with true. change (7 <? 1) with false. cbv iota zeta.
  assert (Es : s32 (b_blockno x * 1) = b_blockno x) by (rewrite Z.mul_1_r; apply s32_small; unfold FSSIZE in *; lia).
  rewrite Es, Hdev. destruct (lba_bytes (b_blockno x) Hblk) as [El Ed].
  rstep idewait_ok. intros _ s1 (_ & d1 & -> & Hv). do 6 apply returns_modify.
  set (v3 := u8 (Z.land (b_blockno x) 0xff)) in *.
  set (v4 := u8 (Z.land (Z.shiftr (b_blockno x) 8) 0xff)) in *.
  set (v5 := u8 (Z.land (Z.shiftr (b_blockno x) 16) 0xff)) in *.
  set (v6 := u8 (Z.lor _ _)) in *. clearbody v3 v4 v5 v6.
  unfold started. destruct (dirty x) eqn:Ew; unfold dirty in Ew; rewrite Ew.
  - apply returns_modify. eexists _, _. split; [done|]. eexists. split; [done|]. simpl.
    rewrite view_outsl, !view_outb, Hv by done.
    change (u8 0) with 0. change (u8 1) with 1. change (u8 IDE_CMD_WRITE) with 0x30.
    destruct (programmed_cmd true _ _ _ _ _ (view (id_dev s)) El Ed) as [Ec Ese].
    unfold programmed in Ec, Ese. cbv iota in Ec, Ese. unfold ata_outsl. rewrite Ec.
    split; [done|]. cbn [a_sector]. by rewrite Ese.
  - eexists _, _. split; [done|]. eexists. split; [done|]. simpl.
    rewrite !view_outb, Hv.
    change (u8 0) with 0. change (u8 1) with 1. change (u8 IDE_CMD_READ) with 0x20.
    apply (programmed_cmd false _ _ _ _ _ _ El Ed).
Qed.

(** ** Callers, interrupts and the rest of the kernel *)

(** [y_calls]: the processes inside [iderw], by buffer. *)
Record sys := Sys { y_ide : idest D; y_calls : gmap nat Z }.

(** What is seen of a step: a request, the service of one, and what the rest of the kernel
    makes of the buffers. *)
Inductive label :=
  | Req (b : nat)
  | Serve (pid : Z) (b : nat)
  | Env (bufs : list buf).

(** Other code leaves alone what is protected by the lock of a buffer. *)
Definition untouched (x y : buf) : Prop :=
  b_flags y = b_flags x /\ b_dev y = b_dev x /\ b_blockno y = b_blockno x /\
  b_lock y = b_lock x /\ b_data y = b_data x.

Inductive step : sys -> list label -> sys -> Prop :=
  | Request pid b x s s' r calls :
      (b < NBUF)%nat -> calls !! b = None -> id_buf s !! b = Some x -> request_ok pid x ->
      iderw patience pid b s = Done r s' ->
      step (Sys s calls) [Req b] (Sys s' (if r then calls else <[b := pid]> calls))
  | Interrupt s s' calls :
      ideintr patience s = Done tt s' ->
      step (Sys s calls)
        (match id_queue s with Some b => [Serve (default 0 (calls !! b)) b] | None => [] end)
        (Sys s' calls)
  | Resume pid b s s' r calls :
      calls !! b = Some pid -> (b ∉ id_asleep s) -> iderw_resume b s = Done r s' ->
      step (Sys s calls) [] (Sys s' (if r then delete b calls else calls))
  | Environment bufs s calls :
      (forall b x, is_Some (calls !! b) -> id_buf s !! b = Some x -> exists y, bufs !! b = Some y /\ untouched x y) ->
      step (Sys s calls) [Env bufs] (Sys (set_id_buf bufs s) calls).

Inductive runs (s0 : sys) : list label -> sys -> Prop :=
  | Runs_nil : runs s0 [] s0
  | Runs_step tr (y : sys) ls (y' : sys) : runs s0 tr y -> step y ls y' -> runs s0 (tr ++ ls) y'.

(** The same with the disk of memide.c, which serves a request at once. *)
Inductive astep : bstate -> label -> bstate -> Prop :=
  | A_req a b : astep a (Req b) a
  | A_serve a pid b a' : Bio.iderw pid b a = Done tt a' -> astep a (Serve pid b) a'
  | A_env a bufs : astep a (Env bufs) (BState bufs (bs_disk a) (bs_hist a)).

Inductive aruns (a0 : bstate) : list label -> bstate -> Prop :=
  | Aruns_nil : aruns a0 [] a0
  | Aruns_step tr a l a' : aruns a0 tr a -> astep a l a' -> aruns a0 (tr ++ [l]) a'.

Definition requests (tr : list label) : list nat := omap (fun l => match l with Req b => Some b | _ => None end) tr.
Definition served (tr : list label) : list nat := omap (fun l => match l with Serve _ b => Some b | _ => None end) tr.

(** The links from [h] run through the queue [q]. *)
Fixpoint chain (next : nat -> option nat) (h : option nat) (q : list nat) : Prop :=
  match q with
  | [] => h = None
  | b :: q => h = Some b /\ chain next (next b) q
  end.

(** The controller's sectors are the blocks of [disk], but for the request at the front of
    the queue, which has been started. *)
Definition working (bufs : list buf) (q : list nat) (disk : list bdata) (v : ata) : Prop :=
  exists v0, (forall n, 0 <= n < FSSIZE -> a_sector v0 1 n = default [] (disk !! Z.to_nat n)) /\
  match q with
  | [] => a_sector v = a_sector v0
  | b :: _ => exists x, bufs !! b = Some x /\ started x v0 v
  end.

Record rel (q : list nat) (s : idest D) (calls : gmap nat Z) (a : bstate) : Prop := Rel {
  r_chain : chain (id_qnext s) (id_queue s) q;
  r_nodup : NoDup q;
  r_small b : b ∈ q -> (b < NBUF)%nat;
  r_req b : b ∈ q -> exists pid x, calls !! b = Some pid /\ id_buf s !! b = Some x /\ request_ok pid x;
  r_done b pid : calls !! b = Some pid -> (b ∉ q) -> exists x, id_buf s !! b = Some x /\ finished x = true;
  r_asleep b : b ∈ id_asleep s <-> b ∈ q;
  r_have : id_havedisk1 s = true;
  r_buf : bs_buf a = id_buf s;
  r_len : length (bs_disk a) = Z.to_nat FSSIZE;
  r_dev : working (id_buf s) q (bs_disk a) (view (id_dev s)) }.

(** *** The environment and the return of a caller *)

Lemma request_untouched pid x y : untouched x y -> request_ok pid x -> request_ok pid y.
Proof using. intros (E1 & E2 & E3 & E4 & E5) []. split; unfold finished in *; congruence. Qed.

Lemma started_untouched x y v0 v : untouched x y -> started x v0 v -> started y v0 v.
Proof using. intros (E1 & E2 & E3 & E4 & E5). unfold started, dirty. by rewrite E1, E3, E5. Qed.

Lemma rel_env q s calls a bufs :
  rel q s calls a ->
  (forall b x, is_Some (calls !! b) -> id_buf s !! b = Some x -> exists y, bufs !! b = Some y /\ untouched x y) ->
  rel q (set_id_buf bufs s) calls (BState bufs (bs_disk a) (bs_hist a)).
Proof using.
  intros [] He. split; simpl; try done.
  - intros b Hb. destruct (r_req0 b Hb) as (pid & x & Hc & Hx & Hr).
    destruct (He b x) as (y & Hy & U); [by rewrite Hc|done|]. exists pid, y. eauto using request_untouched.
  - intros b pid Hc Hq. destruct (r_done0 b pid Hc Hq) as (x & Hx & Hf).
    destruct (He b x) as (y & Hy & U); [by rewrite Hc|done|]. exists y. split; [done|].
    unfold finished in *. by rewrite (proj1 U).
  - destruct r_dev0 as (v0 & Hd & Hw). exists v0. split; [done|]. destruct q as [|b q]; [done|].
    destruct (r_req0 b) as (pid & x & Hc & Hx & _); [by left|].
    destruct (He b x) as (y & Hy & U); [by rewrite Hc|done|]. exists y. split; [done|].
    destruct Hw as (x' & Hx' & Hs). simplify_eq. eauto using started_untouched.
Qed.

Lemma rel_resume q s calls a b pid r s' :
  rel q s calls a -> calls !! b = Some pid -> (b ∉ id_asleep s) -> iderw_resume b s = Done r s' ->
  s' = s /\ r = true /\ rel q s (delete b calls) a.
Proof using.
  intros R Hc Ha. rewrite (r_asleep _ _ _ _ R) in Ha.
  destruct (r_done _ _ _ _ R b pid Hc Ha) as (x & Hx & Hf).
  assert (E : iderw_resume b s = Done true s).
  { unfold iderw_resume, ibuf. munf. rewrite Hx. simpl. unfold finished in Hf. by rewrite Hf. }
  rewrite E. intros [= <- <-]. split; [done|]. split; [done|]. destruct R. split; try done.
  - intros b' Hb'. destruct (r_req0 b' Hb') as (pid' & x' & ? & ? & ?). exists pid', x'.
    rewrite lookup_delete_ne by set_solver. done.
  - intros b' pid'. rewrite lookup_delete_Some. intros [_ ?]. eauto.
Qed.

(** *** A request *)

Lemma chain_frame next next' h q : (forall i, i ∈ q -> next' i = next i) -> chain next h q -> chain next' h q.
Proof using.
  revert h. induction q as [|c q IH]; intros h Hn; simpl; [done|].
  intros [-> H]. split; [done|]. rewrite Hn by by left. apply IH; [|done]. intros. apply Hn. by right.
Qed.

(** The loop finds the end of the queue, and the assignment there appends [b]. *)
Lemma append_ok q b fuel s pp :
  chain (id_qnext s) (deref s pp) q -> NoDup q -> (b ∉ q) -> (forall i, pp = Some i -> i <> b /\ i ∉ q) ->
  id_qnext s b = None -> (length q <= fuel)%nat ->
  exists pp', find_end fuel s pp = Some pp' /\ (pp' = pp \/ exists i, i ∈ q /\ pp' = Some i) /\
    chain (id_qnext (assign pp' (Some b) s)) (deref (assign pp' (Some b) s) pp) (q ++ [b]).
Proof using.
  revert fuel pp. induction q as [|c q IH]; intros fuel pp Hc Hn Hb Hp Hnone Hl; simpl in Hc.
  - exists pp. split; [destruct fuel; simpl; by rewrite Hc|]. split; [by left|].
    destruct pp as [i|]; simpl; [rewrite Nat.eqb_refl|]; (split; [done|]); [|done].
    destruct (Hp i) as [Hi _]; [done|]. replace (b =? i)%nat with false by lia. done.
  - destruct Hc as [Hc Hq]. apply NoDup_cons in Hn as [Hcq Hn]. destruct fuel as [|fuel]; simpl in Hl; [lia|].
    destruct (IH fuel (Some c)) as (pp' & Hf & Hw & Hch); [done|done|set_solver| |done|lia|].
    { intros i [= <-]. split; [set_solver|done]. }
    exists pp'. split; [simpl; by rewrite Hc|]. split.
    { right. destruct Hw as [->|(i & Hi & ->)]; [exists c; set_solver|exists i; set_solver]. }
    assert (Hd : deref (assign pp' (Some b) s) pp = Some c).
    { destruct pp as [j|]; [|by destruct Hw as [->|(i & _ & ->)]].
      destruct (Hp j eq_refl) as [_ [Hjc Hjq]%not_elem_of_cons].
      destruct Hw as [->|(i & Hi & ->)]; simpl.
      - by rewrite (proj2 (Nat.eqb_neq j c)).
      - rewrite (proj2 (Nat.eqb_neq j i)); [done|]. by intros ->. }
    simpl. by rewrite Hd.
Qed.

Lemma queue_length q : NoDup q -> (forall b, b ∈ q -> (b < NBUF)%nat) -> (length q <= NBUF)%nat.
Proof using.
  intros Hn Hs. rewrite <- (length_seq NBUF 0). apply submseteq_length, NoDup_submseteq; [done|].
  intros b Hb. apply elem_of_seq. pose proof (Hs b Hb). lia.
Qed.

Lemma started_sector x v0 v1 v : a_sector v1 = a_sector v0 -> started x v1 v -> started x v0 v.
Proof using. intros E. unfold started. by rewrite E. Qed.

Lemma request_unlinked q s calls a b :
  rel q s calls a -> calls !! b = None -> (b ∉ q) /\ rel q (assign (Some b) None s) calls a.
Proof using.
  intros [] Hn. assert (Hq : b ∉ q) by (intros Hq; destruct (r_req0 b Hq) as (? & ? & ? & _); congruence).
  split; [done|]. split; try done. simpl. eapply chain_frame; [|done]. intros i Hi. simpl.
  destruct (Nat.eqb_spec i b); set_solver.
Qed.

(** The queue with [b] appended and its caller asleep, the controller working for the front. *)
Lemma rel_append q s calls a b pid x s' d :
  rel q s calls a -> calls !! b = None -> (b < NBUF)%nat -> id_buf s !! b = Some x -> request_ok pid x ->
  (b ∉ q) -> chain (id_qnext s') (id_queue s') (q ++ [b]) ->
  id_buf s' = id_buf s -> id_havedisk1 s' = id_havedisk1 s -> id_asleep s' = {[b]} ∪ id_asleep s -> id_dev s' = d ->
  working (id_buf s) (q ++ [b]) (bs_disk a) (view d) ->
  rel (q ++ [b]) s' (<[b := pid]> calls) a.
Proof using.
  intros [] Hn Hb Hx Hr Hq Hc Eb Eh Ea <- Hw. split; rewrite ?Eb, ?Eh; try done.
  - apply NoDup_app. split; [done|]. split; [set_solver|apply NoDup_singleton].
  - set_solver.
  - intros b' [Hb'|Hb'%list_elem_of_singleton]%elem_of_app; [|subst b'].
    + rewrite lookup_insert_ne by set_solver. auto.
    + exists pid, x. by rewrite lookup_insert_eq.
  - intros b' pid' Hc' [Hq' Hne]%not_elem_of_app. rewrite lookup_insert_ne in Hc' by set_solver. eauto.
  - intros b'. rewrite Ea, elem_of_union, elem_of_singleton, elem_of_app, r_asleep0. set_solver.
Qed.

Lemma iderw_resume_waits b s x :
  id_buf s !! b = Some x -> finished x = false ->
  iderw_resume b s = Done false (set_id_asleep ({[b]} ∪ id_asleep s) s).
Proof using. intros Hx Hf. unfold iderw_resume, ibuf. munf. rewrite Hx. simpl. unfold finished in Hf. by rewrite Hf. Qed.

(** [iderw] up to the queue: the checks pass and the request is appended. *)
Lemma iderw_queued q s calls a b pid x :
  rel q s calls a -> calls !! b = None -> id_buf s !! b = Some x -> request_ok pid x ->
  exists pp, let s1 := assign pp (Some b) (assign (Some b) None s) in
    chain (id_qnext s1) (id_queue s1) (q ++ [b]) /\
    id_buf s1 = id_buf s /\ id_havedisk1 s1 = id_havedisk1 s /\ id_asleep s1 = id_asleep s /\ id_dev s1 = id_dev s /\
    iderw patience pid b s = ((when (bool_decide (id_queue s1 = Some b)) (idestart patience (Some b)) ;;; iderw_resume b) s1).
Proof using.
  intros R Hn Hx Hr. destruct (request_unlinked _ _ _ _ _ R Hn) as [Hq R1].
  destruct (append_ok q b NBUF (assign (Some b) None s) None) as (pp & Hf & _ & Hc).
  { apply R1. } { apply R1. } { done. } { done. } { simpl. by rewrite Nat.eqb_refl. }
  { apply queue_length; apply R1. }
  exists pp. cbv zeta. split; [done|]. do 4 (split; [by destruct pp|]).
  unfold iderw. destruct Hr. munf. unfold ibuf at 1 2 3 4. rewrite Hx. change (default zero_buf (Some x)) with x.
  rewrite (proj2 (Z.eqb_neq _ 0)), rq_pid0, Z.eqb_refl by done. cbn [negb andb].
  unfold finished in rq_todo0. rewrite rq_todo0. cbv beta iota.
  rewrite (r_have _ _ _ _ R), Bool.andb_false_r. cbv beta iota. by rewrite Hf.
Qed.

Lemma iderw_ok q s calls a b pid x :
  rel q s calls a -> (b < NBUF)%nat -> calls !! b = None -> id_buf s !! b = Some x -> request_ok pid x ->
  returns (iderw patience pid b) s (fun r s' => r = false /\ rel (q ++ [b]) s' (<[b := pid]> calls) a).
Proof using bus.
  intros R Hb Hn Hx Hr. destruct (iderw_queued _ _ _ _ _ _ _ R Hn Hx Hr) as (pp & Hc & Eb & Eh & Ea & Ed & E).
  set (s1 := assign pp _ _) in *. unfold returns. rewrite E.
  destruct (request_unlinked _ _ _ _ _ R Hn) as [Hq _]. destruct (r_dev _ _ _ _ R) as (v0 & Hd & Hw).
  destruct q as [|c q].
  - rewrite bool_decide_true by apply Hc.
    apply (returns_bind _ _ _ _ (fun _ s' => exists d, s' = set_id_dev d s1 /\ started x (view (id_dev s)) (view d))).
    { rlast (idestart_ok s1 b x pid); [by rewrite Eb|done|]. by rewrite Ed. }
    intros _ s2 (d & -> & Hs). exists false. eexists. split.
    { apply iderw_resume_waits with x; [simpl; by rewrite Eb|apply Hr]. }
    split; [done|]. eapply (rel_append []); eauto; simpl; [by rewrite Ea|].
    exists v0. split; [done|]. exists x. split; [done|]. eauto using started_sector.
  - simpl in Hc. rewrite bool_decide_false by (destruct Hc as [-> _]; set_solver).
    exists false. eexists. split.
    { simpl. munf. apply iderw_resume_waits with x; [by rewrite Eb|apply Hr]. }
    split; [done|]. eapply (rel_append (c :: q)); eauto; simpl; [by rewrite Ea|].
    by exists v0.
Qed.

(** *** An interrupt *)

Lemma flags_served f : Z.land (Z.lor f B_VALID) (Z.lnot B_DIRTY) = Z.lor (Z.land f (Z.lnot B_DIRTY)) B_VALID.
Proof using. by rewrite Z.land_lor_distr_l. Qed.

Lemma flags_clean f : Z.land f B_DIRTY = 0 -> Z.land f (Z.lnot B_DIRTY) = f.
Proof using.
  intros H. apply Z.bits_inj'. intros n Hn. rewrite Z.land_spec, Z.lnot_spec by done.
  assert (Ht : Z.testbit (Z.land f B_DIRTY) n = false) by by rewrite H, Z.bits_0.
  rewrite Z.land_spec in Ht. destruct (Z.testbit f n), (Z.testbit B_DIRTY n); done.
Qed.

Lemma flags_finished f : Z.land (Z.land (Z.lor f B_VALID) (Z.lnot B_DIRTY)) (Z.lor B_VALID B_DIRTY) = B_VALID.
Proof using.
  rewrite <- Z.land_assoc. change (Z.land (Z.lnot B_DIRTY) (Z.lor B_VALID B_DIRTY)) with B_VALID.
  apply Z.bits_inj'. intros n Hn. rewrite Z.land_spec, Z.lor_spec. by destruct (Z.testbit f n), (Z.testbit B_VALID n).
Qed.

(** The buffer after its request was served with the data [l]. *)
Definition served_buf (l : bdata) (x : buf) : buf :=
  set_b_flags (Z.land (Z.lor (b_flags x) B_VALID) (Z.lnot B_DIRTY)) (set_b_data l x).

Lemma alter_written {A} (f : A -> A) b (l : list A) x : l !! b = Some x -> alter f b l = <[b := f x]> l.
Proof using.
  intros H. apply list_eq. intros i. destruct (decide (i = b)) as [->|Hne].
  - rewrite list_lookup_alter_eq, list_lookup_insert_eq, H; [done|]. by eapply lookup_lt_Some.
  - by rewrite list_lookup_alter_ne, list_lookup_insert_ne.
Qed.

Lemma alter_alter_insert {A} (f g : A -> A) b (l : list A) x :
  l !! b = Some x -> alter g b (alter f b l) = <[b := g (f x)]> l.
Proof using.
  intros H. rewrite (alter_written f b l x H), (alter_written g b _ (f x)), list_insert_insert_eq; [done|].
  apply list_lookup_insert_eq. by eapply lookup_lt_Some.
Qed.

Definition block_of (disk : list bdata) (x : buf) : bdata := default [] (disk !! Z.to_nat (b_blockno x)).

(** What memide.c's [iderw] does with a request. *)
Lemma memide_serves pid b x a :
  bs_buf a !! b = Some x -> request_ok pid x -> length (bs_disk a) = Z.to_nat FSSIZE ->
  exists a', Bio.iderw pid b a = Done tt a' /\
    bs_buf a' = <[b := served_buf (if dirty x then b_data x else block_of (bs_disk a) x) x]> (bs_buf a) /\
    bs_disk a' = (if dirty x then <[Z.to_nat (b_blockno x) := b_data x]> (bs_disk a) else bs_disk a).
Proof using.
  intros Hx [Hl Hp Hd Hb _ Hf] Hlen. unfold Bio.iderw, holdingsleep. munf. unfold lock_lens. cbn [lget lset].
  assert (Eg : getb a b = x) by (unfold getb; by rewrite Hx).
  assert (Ea : updb b (set_b_lock (b_lock x)) a = a).
  { unfold updb. rewrite (alter_written _ b _ x Hx), list_insert_id; [by destruct a|]. by destruct x. }
  rewrite Eg, Ea, (proj2 (Z.eqb_neq _ 0)), Hp, Z.eqb_refl by done. cbn [negb andb]. cbv beta iota.
  rewrite Eg. unfold finished in Hf. rewrite Hf, Hd. change (1 =? 1) with true. cbn [negb]. cbv beta iota. rewrite Hlen.
  replace (Z.of_nat (Z.to_nat FSSIZE) <=? b_blockno x) with false by (unfold FSSIZE in *; lia).
  unfold dirty. destruct (Z.land (b_flags x) B_DIRTY =? 0) eqn:Ed; cbn [negb]; eexists; (split; [done|]); simpl.
  - split; [|done]. rewrite (alter_alter_insert _ _ b _ x Hx). f_equal. unfold served_buf, set_b_flags, set_b_data. simpl.
    rewrite flags_served, flags_clean by lia. done.
  - split; [|done]. rewrite (alter_alter_insert _ _ b _ x Hx). f_equal. unfold served_buf, set_b_flags, set_b_data. simpl.
    by rewrite flags_served.
Qed.

Lemma set_id_dev_dev d d' s : set_id_dev d (set_id_dev d' s) = set_id_dev d s.
Proof using. done. Qed.

(** The transfer of the data a finished read has to offer. *)
Lemma transfer_ok s b x v0 :
  id_buf s !! b = Some x -> started x v0 (view (id_dev s)) ->
  returns (when (Z.land (b_flags x) B_DIRTY =? 0)
    (let! r := idewait patience true in
     when (0 <=? r)
       (let! l := p_insl 0x1f0 (Z.to_nat (BSIZE / 4)) in modify (upd_ibuf b (set_b_data l))))) s
    (fun _ s' => exists d,
      s' = set_id_buf (<[b := set_b_data (if dirty x then b_data x else a_sector v0 1 (b_blockno x)) x]> (id_buf s)) (set_id_dev d s) /\
      a_sector (view d) = a_sector (view (id_dev s))).
Proof using bus.
  intros Hx Hs. unfold started, dirty in *. destruct (Z.land (b_flags x) B_DIRTY =? 0); simpl in *.
  - rstep idewait_ok. intros r s1 (-> & d1 & -> & Hv). change (0 <=? 0) with true. cbn [when].
    destruct Hs as [Hc Hsec]. rewrite <- Hv in Hc. destruct (view_insl d1 _ _ Hc) as [Hl Hv2].
    change (Z.to_nat (BSIZE / 4)) with 128%nat. unfold p_insl.
    destruct (insl 0x1f0 128 d1) as [l d2] eqn:E. eexists tt, _. split.
    { unfold m_bind. simpl. rewrite E. done. }
    exists d2. unfold ata_insl in Hl, Hv2. rewrite Hc in Hl, Hv2. simpl in Hl, Hv2. split.
    + unfold upd_ibuf. simpl. rewrite (alter_written _ b _ x Hx), Hl, Hv, Hsec. done.
    + rewrite Hv2. simpl. by rewrite Hv.
  - eexists tt, _. split; [done|]. exists (id_dev s). split; [|done].
    rewrite list_insert_id; [by destruct s|]. by destruct x.
Qed.

(** Sectors and blocks after the front request: a write has reached the disk. *)
Lemma served_disk x v0 v disk n :
  (forall n, 0 <= n < FSSIZE -> a_sector v0 1 n = default [] (disk !! Z.to_nat n)) ->
  length disk = Z.to_nat FSSIZE -> 0 <= b_blockno x < FSSIZE -> started x v0 v -> 0 <= n < FSSIZE ->
  a_sector v 1 n =
    default [] ((if dirty x then <[Z.to_nat (b_blockno x) := b_data x]> disk else disk) !! Z.to_nat n).
Proof using.
  intros Hd Hl Hb Hs Hn. unfold started in Hs. destruct (dirty x); destruct Hs as [_ ->]; [|by apply Hd].
  change (1 =? 1) with true. cbn [andb]. destruct (Z.eqb_spec n (b_blockno x)) as [->|Hne].
  - rewrite list_lookup_insert_eq by (unfold FSSIZE in *; lia). done.
  - rewrite list_lookup_insert_ne by lia. by apply Hd.
Qed.

(** The queue without its front, before the next request is started. *)
Lemma rel_served b q s calls a a' x l s' :
  rel (b :: q) s calls a -> id_buf s !! b = Some x ->
  bs_buf a' = <[b := served_buf l x]> (bs_buf a) -> length (bs_disk a') = Z.to_nat FSSIZE ->
  id_buf s' = <[b := served_buf l x]> (id_buf s) -> id_qnext s' = id_qnext s -> id_queue s' = id_qnext s b ->
  id_havedisk1 s' = true -> id_asleep s' = id_asleep s ∖ {[b]} ->
  working (id_buf s') q (bs_disk a') (view (id_dev s')) ->
  rel q s' calls a'.
Proof using.
  intros [] Hx Ea El Eb En Eq Eh Es Hw. apply NoDup_cons in r_nodup0 as [Hbq Hnd].
  split; rewrite ?En, ?Eq, ?Ea, ?Eb, ?r_buf0; try done.
  - apply r_chain0.
  - intros. apply r_small0. by right.
  - intros c Hc. rewrite list_lookup_insert_ne by set_solver. apply r_req0. by right.
  - intros c pid Hc Hq. destruct (decide (c = b)) as [->|Hne].
    + exists (served_buf l x). rewrite list_lookup_insert_eq by by eapply lookup_lt_Some.
      split; [done|]. apply Z.eqb_eq, flags_finished.
    + rewrite list_lookup_insert_ne by done. apply (r_done0 c pid Hc). set_solver.
  - intros c. rewrite Es, elem_of_difference, elem_of_singleton, r_asleep0, elem_of_cons. set_solver.
  - by rewrite <- Eb.
Qed.

Lemma ideintr_ok b q s calls a :
  rel (b :: q) s calls a ->
  exists pid a', calls !! b = Some pid /\ Bio.iderw pid b a = Done tt a' /\
    returns (ideintr patience) s (fun _ s' => rel q s' calls a').
Proof using bus.
  intros R. destruct (r_req _ _ _ _ R b) as (pid & x & Hc & Hx & Hr); [by left|].
  destruct (memide_serves pid b x a) as (a' & Ha & Hbuf & Hdisk); [by rewrite (r_buf _ _ _ _ R)|done|apply R|].
  exists pid, a'. split; [done|]. split; [done|].
  destruct (r_dev _ _ _ _ R) as (v0 & Hd & x' & Hx' & Hs). simplify_eq.
  assert (El : (if dirty x then b_data x else block_of (bs_disk a) x) =
               (if dirty x then b_data x else a_sector v0 1 (b_blockno x))).
  { destruct (dirty x); [done|]. unfold block_of. by rewrite Hd by apply Hr. }
  rewrite El in Hbuf. set (l := if dirty x then _ else _) in *.
  assert (Hlen : length (bs_disk a') = Z.to_nat FSSIZE).
  { rewrite Hdisk. destruct (dirty x); rewrite ?length_insert; apply R. }
  destruct (r_chain _ _ _ _ R) as [Hq Hch].
  unfold ideintr. apply returns_gets. rewrite Hq. apply returns_modify, returns_gets.
  assert (Ex : ibuf (set_id_queue (id_qnext s b) s) b = x) by (unfold ibuf; simpl; by rewrite Hx).
  rewrite Ex. rstep (transfer_ok (set_id_queue (id_qnext s b) s) b x v0); [done..|].
  intros _ s1 (d & -> & Hdev). fold l. simpl in Hdev. do 3 apply returns_modify. apply returns_gets.
  match goal with |- returns _ ?t _ => set (s2 := t) end.
  assert (Eb : id_buf s2 = <[b := served_buf l x]> (id_buf s)).
  { unfold s2, upd_ibuf. simpl. rewrite (alter_alter_insert _ _ b _ (set_b_data l x)).
    - by rewrite list_insert_insert_eq.
    - apply list_lookup_insert_eq. by eapply lookup_lt_Some. }
  assert (Hag : forall n, 0 <= n < FSSIZE -> a_sector (view d) 1 n = default [] (bs_disk a' !! Z.to_nat n)).
  { intros n Hn. rewrite Hdev, Hdisk. eapply served_disk; [done|apply R|apply Hr|done|done]. }
  change (id_queue s2) with (id_qnext s b). destruct q as [|c q]; simpl in Hch.
  - rewrite Hch. rewrite bool_decide_false by by intros [? ?]. eexists tt, _. split; [done|].
    eapply (rel_served b [] s); eauto; [apply R|]. by exists (view d).
  - destruct Hch as [Hn Hch]. rewrite Hn, bool_decide_true by done. cbn [when].
    destruct (r_req _ _ _ _ R c) as (pidc & y & _ & Hy & Hyr); [by right; left|].
    assert (Hbc : b <> c) by (pose proof (r_nodup _ _ _ _ R) as [? _]%NoDup_cons; set_solver).
    assert (Hy2 : id_buf s2 !! c = Some y) by by rewrite Eb, list_lookup_insert_ne.
    rlast (idestart_ok s2 c y pidc); [done..|]. intros _ s3 (d' & -> & Hst).
    eapply (rel_served b (c :: q) s); eauto; [apply R|]. exists (view d). split; [done|]. by exists y.
Qed.

(** *** Runs *)

(** The driver at rest, with the buffers [bufs] and nobody inside [iderw]. *)
Record at_rest (y : sys) : Prop := AtRest {
  ar_queue : id_queue (y_ide y) = None;
  ar_calls : y_calls y = ∅;
  ar_asleep : id_asleep (y_ide y) = ∅;
  ar_have : id_havedisk1 (y_ide y) = true }.

(** The memory disk with the sectors of drive 1. *)
Definition drive1 (y : sys) : bstate :=
  BState (id_buf (y_ide y)) ((fun n => a_sector (view (id_dev (y_ide y))) 1 (Z.of_nat n)) <$> seq 0 (Z.to_nat FSSIZE)) [].

Lemma rel_rest y : at_rest y -> rel [] (y_ide y) (y_calls y) (drive1 y).
Proof using.
  intros []. unfold drive1. split; cbn [bs_buf bs_disk]; rewrite ?ar_queue0, ?ar_calls0, ?ar_asleep0; try done.
  - constructor.
  - set_solver.
  - set_solver.
  - set_solver.
  - exists (view (id_dev (y_ide y))). split; [|done]. intros n Hn.
    rewrite list_lookup_fmap, lookup_seq_lt by (unfold FSSIZE in *; lia). simpl. f_equal. lia.
Qed.

Lemma runs_rel y0 tr y :
  at_rest y0 -> runs y0 tr y ->
  exists q a, rel q (y_ide y) (y_calls y) a /\ aruns (drive1 y0) tr a /\ requests tr = served tr ++ q.
Proof using bus.
  intros H0. induction 1 as [|tr y ls y' _ IH Hs]; [exists [], (drive1 y0); eauto using rel_rest, aruns|].
  destruct IH as (q & a & R & Ha & Hq). unfold requests, served in *. rewrite !omap_app, Hq.
  destruct Hs as [pid b x s s' r calls Hb Hn Hx Hr E|s s' calls E|pid b s s' r calls Hc Hw E|bufs s calls He]; simpl in *.
  - destruct (iderw_ok q s calls a b pid x) as (r' & s1 & E1 & -> & R1); [done..|].
    rewrite E in E1. injection E1 as -> ->. exists (q ++ [b]), a. split; [done|].
    split; [eauto using aruns, astep|]. by rewrite app_nil_r, app_assoc.
  - destruct q as [|b q].
    + pose proof (r_chain _ _ _ _ R) as Hch. simpl in Hch. rewrite Hch.
      assert (E1 : ideintr patience s = Done tt s) by (unfold ideintr; munf; by rewrite Hch).
      rewrite E in E1. injection E1 as ->. exists [], a. simpl. by rewrite !app_nil_r.
    + destruct (ideintr_ok _ _ _ _ _ R) as (pid & a' & Hc & Ea & [] & s1 & E1 & R1).
      rewrite E in E1. injection E1 as ->. destruct (r_chain _ _ _ _ R) as [-> _].
      exists q, a'. split; [done|]. rewrite Hc. split; [eauto using aruns, astep|].
      simpl. by rewrite app_nil_r, <- app_assoc.
  - destruct (rel_resume _ _ _ _ _ _ _ _ R Hc Hw E) as (-> & -> & R1). exists q, a. by rewrite !app_nil_r.
  - exists q, (BState bufs (bs_disk a) (bs_hist a)). split; [by apply rel_env|].
    split; [eauto using aruns, astep|]. by rewrite !app_nil_r.
Qed.
End Driver.

(** ** The theorems *)

(** C16. However processes request blocks, the rest of the kernel works on other buffers and
    interrupts arrive, the driver's run is a run of the memory disk of memide.c that serves
    each request atomically at its interrupt: requests are served in the order they were
    made, the buffers are the same at every moment, a process sleeps exactly while its
    request is queued and finds it finished when it wakes, and with no request queued the
    drive holds the blocks of the memory disk. *)
Theorem ide_refines_memide {D} {ports : Ports D} {patience} {bus : AtaBus D patience} (y0 y : sys) tr :
  at_rest y0 -> runs (patience := patience) y0 tr y ->
  exists q a, aruns (drive1 y0) tr a /\ requests tr = served tr ++ q /\
    bs_buf a = id_buf (y_ide y) /\
    (forall b, b ∈ id_asleep (y_ide y) <-> b ∈ q) /\
    (forall b pid, y_calls y !! b = Some pid -> (b ∉ q) ->
       exists x, id_buf (y_ide y) !! b = Some x /\ finished x = true) /\
    (q = [] -> forall n, 0 <= n < FSSIZE ->
       a_sector (view (id_dev (y_ide y))) 1 n = default [] (bs_disk a !! Z.to_nat n)).
Proof.
  intros H0 Hr. destruct (runs_rel y0 tr y H0 Hr) as (q & a & R & Ha & Hq). exists q, a.
  split; [done|]. split; [done|]. destruct R as [_ _ _ _ Hd Hs _ Hb _ (v0 & Hv & Hw)].
  do 3 (split; [done|]). intros -> n Hn. rewrite Hw. by apply Hv.
Qed.

(** The interrupt handler run [n] times. *)
Fixpoint interrupts {D} {ports : Ports D} (patience n : nat) : M (idest D) unit :=
  match n with
  | O => m_ret tt
  | S n => ideintr patience ;;; interrupts patience n
  end.

Lemma interrupts_drain {D} {ports : Ports D} {patience} {bus : AtaBus D patience} q (s : idest D) calls a :
  rel q s calls a -> returns (interrupts patience (length q)) s (fun _ s' => exists a', rel [] s' calls a').
Proof.
  revert s a. induction q as [|b q IH]; intros s a R; simpl; [apply returns_ret; by exists a|].
  destruct (ideintr_ok _ _ _ _ _ R) as (pid & a' & _ & _ & H).
  rstep H. intros _ s' R'. by eapply IH.
Qed.

(** C18. The driver makes progress: in every state it can reach, a request for a locked buffer
    is accepted without a panic, and at most [NBUF] interrupts later every request is
    served, the queue is empty and no process sleeps in [iderw]. *)
Theorem ide_drains {D} {ports : Ports D} {patience} {bus : AtaBus D patience} (y0 y : sys) tr :
  at_rest y0 -> runs (patience := patience) y0 tr y ->
  (forall b pid x, (b < NBUF)%nat -> y_calls y !! b = None -> id_buf (y_ide y) !! b = Some x -> request_ok pid x ->
     exists s', iderw patience pid b (y_ide y) = Done false s') /\
  exists n, (n <= NBUF)%nat /\ returns (interrupts patience n) (y_ide y) (fun _ s' =>
    id_queue s' = None /\ id_asleep s' = ∅ /\
    forall b pid, y_calls y !! b = Some pid -> exists x, id_buf s' !! b = Some x /\ finished x = true).
Proof.
  intros H0 Hr. destruct (runs_rel y0 tr y H0 Hr) as (q & a & R & _ & _). split.
  - intros b pid x Hb Hn Hx Hq. destruct (iderw_ok _ _ _ _ _ _ _ R Hb Hn Hx Hq) as (r & s' & E & -> & _). eauto.
  - exists (length q). split; [apply queue_length; apply R|].
    destruct (interrupts_drain _ _ _ _ R) as (u & s' & E & a' & R'). exists u, s'. split; [done|].
    split; [apply R'|]. split.
    + apply set_eq. intros b. rewrite (r_asleep _ _ _ _ R'). set_solver.
    + intros b pid Hc. apply (r_done _ _ _ _ R' b pid Hc). set_solver.
Qed.

(** ** A drive to run the driver with *)

(** A controller that is always ready. *)
#[local] Instance sample_ports : Ports ata := {
  inb _ d := (0x40, d);
  outb := ata_outb;
  insl _ _ := ata_insl;
  outsl _ data d := ata_outsl data d }.

#[local] Instance sample_bus : AtaBus ata 1.
Proof. refine {| view := fun d => d |}; try done. intros d. by exists 0%nat; split; [lia|]. Defined.

Definition sample_drive : ata := Ata (fun _ n => replicate 512 (n mod 256)) (fun _ => 0) None.
Definition sample_bufs : list buf :=
  [Buf 0 1 7 (SleepLock 1 EmptyString 3) 1 0 0 (replicate 512 0);
   Buf B_DIRTY 1 8 (SleepLock 1 EmptyString 4) 1 0 0 (replicate 512 9)].
Definition sample_sys : sys (D := ata) :=
  Sys (IdeSt sample_bufs (fun _ => None) None true ∅ sample_drive) ∅.

Lemma sample_rest : at_rest sample_sys.
Proof. done. Qed.

Lemma sample_requests : exists s, runs (patience := 1) sample_sys [Req 0; Req 1; Serve 3 0] (Sys s {[0%nat := 3; 1%nat := 4]}).
Proof.
  pose proof (rel_rest _ sample_rest) as R0.
  assert (Q0 : request_ok 3 (Buf 0 1 7 (SleepLock 1 EmptyString 3) 1 0 0 (replicate 512 0))) by by repeat constructor.
  assert (Q1 : request_ok 4 (Buf B_DIRTY 1 8 (SleepLock 1 EmptyString 4) 1 0 0 (replicate 512 9))) by by repeat constructor.
  destruct (iderw_ok (patience := 1) _ _ _ _ 0 3 _ R0 ltac:(unfold NBUF; lia) eq_refl eq_refl Q0) as (r1 & s1 & E1 & -> & R1).
  assert (H1 : id_buf s1 !! 1%nat = Some (Buf B_DIRTY 1 8 (SleepLock 1 EmptyString 4) 1 0 0 (replicate 512 9))).
  { rewrite <- (r_buf _ _ _ _ R1). done. }
  destruct (iderw_ok (patience := 1) _ _ _ _ 1 4 _ R1 ltac:(unfold NBUF; lia) eq_refl H1 Q1) as (r2 & s2 & E2 & -> & R2).
  destruct (ideintr_ok (patience := 1) _ _ _ _ _ R2) as (pid & a' & _ & _ & [] & s3 & E3 & _).
  exists s3. pose proof (Interrupt _ _ (<[1%nat := 4]> (<[0%nat := 3]> ∅)) E3) as S3.
  destruct (r_chain _ _ _ _ R2) as [Hq _]. rewrite Hq in S3.
  eapply (Runs_step _ [Req 0; Req 1] _ [Serve 3 0] _); [|exact S3].
  eapply (Runs_step _ [Req 0] _ [Req 1] _); [|by eapply (Request 4 1 _ _ _ false (<[0%nat := 3]> ∅)); eauto; unfold NBUF; lia].
  eapply (Runs_step _ [] _ [Req 0] _); [constructor|]. by eapply (Request 3 0 _ _ _ false ∅); eauto; unfold NBUF; lia.
Qed.

Lemma ide_refines_memide_witness :
  exists (s : idest ata) a, aruns (drive1 sample_sys) [Req 0; Req 1; Serve 3 0] a /\ bs_buf a = id_buf s /\ id_asleep s = {[1%nat]}.
Proof.
  destruct sample_requests as [s Hr]. exists s.
  destruct (ide_refines_memide _ _ _ sample_rest Hr) as (q & a & Ha & Hq & Hb & Hs & _).
  exists a. split; [done|]. split; [done|]. injection Hq as <-. apply set_eq. intros b.
  simpl in Hs. rewrite Hs. set_solver.
Defined.

Lemma ide_drains_witness :
  exists (s : idest ata) n, (n <= NBUF)%nat /\ returns (interrupts 1 n) s (fun _ s' => id_queue s' = None /\ id_asleep s' = ∅).
Proof.
  destruct sample_requests as [s Hr]. exists s.
  destruct (ide_drains _ _ _ sample_rest Hr) as (_ & n & Hn & u & s' & E & H1 & H2 & _).
  exists n. split; [done|]. exists u, s'. done.
Defined.

(** ** A read that fails *)

(** When the controller reports an error for a read, the handler skips the transfer but marks
    the buffer valid all the same: the caller gets the old contents as those of the block. *)
Section Faulty.
Context {D : Type} {ports : Ports D} (faulty : forall d, inb 0x1f7 d = (Z.lor IDE_DRDY IDE_ERR, d)).

Lemma read_error_marks_valid (s : idest D) b x :
  id_queue s = Some b -> id_qnext s b = None -> id_buf s !! b = Some x -> dirty x = false ->
  exists s' y, ideintr 1 s = Done tt s' /\ id_buf s' !! b = Some y /\ finished y = true /\ b_data y = b_data x.
Proof using faulty.
  intros Hq Hn Hx Hd. unfold dirty in Hd. apply Bool.negb_false_iff in Hd.
  assert (E : exists s', ideintr 1 s = Done tt s' /\
    id_buf s' = alter (fun x => set_b_flags (Z.land (b_flags x) (Z.lnot B_DIRTY)) x) b
      (alter (fun x => set_b_flags (Z.lor (b_flags x) B_VALID) x) b (id_buf s))).
  { unfold ideintr, idewait, idewait_loop, p_inb, ibuf. munf. rewrite Hq. simpl. rewrite Hx, Hn. simpl.
    rewrite Hd, faulty. simpl. eexists. split; [done|]. done. }
  destruct E as (s' & E & Eb). exists s'. eexists. split; [done|].
  rewrite Eb, (alter_alter_insert _ _ b _ x Hx), list_lookup_insert_eq by by eapply lookup_lt_Some.
  split; [done|]. split; [apply Z.eqb_eq, flags_finished|done].
Qed.
End Faulty.
