(* ===== verification/Log.v ===== *)
(** * The write-ahead log (log.c)

    The definitions translate log.c over the buffer cache of [Bio]. Each section
    under [log.lock] is one atomic step; [begin_op] that has to wait leaves the
    process asleep ([Blocked]). The log header occupies one block: word 0 is [n], the
    words after it are the block numbers. *)

From stdpp Require Import base tactics numbers list sets gmap strings.
From Stdlib Require Import ZArith Lia ZifyNat.
From S2P Require Import Prelude Layout Sleeplock Bio.

(** ** Words in a block *)

Definition byte_at (x : bdata) (o : nat) : Z := default 0 (x !! o).
Definition ld32 (x : bdata) (o : nat) : Z :=
  byte_at x o + 256 * byte_at x (o + 1) + 65536 * byte_at x (o + 2) + 16777216 * byte_at x (o + 3).
Definition st32 (o : nat) (v : Z) (x : bdata) : bdata :=
  <[(o + 3)%nat := u8 (v / 16777216)]> (<[(o + 2)%nat := u8 (v / 65536)]>
    (<[(o + 1)%nat := u8 (v / 256)]> (<[o := u8 v]> x))).

Lemma length_st32 o v x : length (st32 o v x) = length x.
Proof. unfold st32. by rewrite !length_insert. Qed.

Lemma byte_at_insert x i j v :
  (i < length x)%nat -> byte_at (<[i := v]> x) j = if decide (i = j) then v else byte_at x j.
Proof.
  intros. unfold byte_at. destruct (decide (i = j)) as [<-|Hne].
  - by rewrite list_lookup_insert_eq.
  - by rewrite list_lookup_insert_ne.
Qed.

Ltac byte_at_st32 :=
  unfold ld32, st32; rewrite !byte_at_insert by (rewrite ?length_insert; lia);
  repeat first [rewrite decide_True by lia | rewrite decide_False by lia].

Lemma ld32_st32_eq x o v : (o + 4 <= length x)%nat -> ld32 (st32 o v x) o = u32 v.
Proof. intros. byte_at_st32. unfold u8, u32. zlia. Qed.

Lemma ld32_st32_ne x o p v :
  (o + 4 <= length x)%nat -> (o + 4 <= p)%nat \/ (p + 4 <= o)%nat ->
  ld32 (st32 o v x) p = ld32 x p.
Proof. intros. byte_at_st32. done. Qed.

(** [lh->n] and [lh->block[i]] of a header block. *)
Definition hdr_n (x : bdata) : Z := s32 (ld32 x 0).
Definition hdr_block (x : bdata) (i : nat) : Z := s32 (ld32 x (4 + 4 * i)).

Record logheader := LogHeader {
  lh_n : Z;
  lh_block : list Z }.

(** [struct log], and the buffer cache it works on. *)
Record logst := LogSt {
  lg_start : Z;
  lg_size : Z;
  lg_outstanding : Z;
  lg_committing : Z;
  lg_dev : Z;
  lg_lh : logheader;
  lg_bs : bstate }.

Definition set_outstanding (v : Z) (s : logst) : logst :=
  LogSt (lg_start s) (lg_size s) v (lg_committing s) (lg_dev s) (lg_lh s) (lg_bs s).
Definition set_committing (v : Z) (s : logst) : logst :=
  LogSt (lg_start s) (lg_size s) (lg_outstanding s) v (lg_dev s) (lg_lh s) (lg_bs s).
Definition set_lh (v : logheader) (s : logst) : logst :=
  LogSt (lg_start s) (lg_size s) (lg_outstanding s) (lg_committing s) (lg_dev s) v (lg_bs s).
Definition set_n (n : Z) (s : logst) : logst := set_lh (LogHeader n (lh_block (lg_lh s))) s.
Definition set_block (i : nat) (b : Z) (s : logst) : logst :=
  set_lh (LogHeader (lh_n (lg_lh s)) (<[i := b]> (lh_block (lg_lh s)))) s.

Definition bs_lens : lens logst bstate :=
  Lens lg_bs (fun b s => LogSt (lg_start s) (lg_size s) (lg_outstanding s) (lg_committing s)
    (lg_dev s) (lg_lh s) b).

Definition log_n (s : logst) : nat := Z.to_nat (lh_n (lg_lh s)).
Definition log_block (s : logst) (i : nat) : Z := default 0 (lh_block (lg_lh s) !! i).

Section Log.
Variable pid : Z.

Definition l_bread (n : Z) : M logst nat :=
  let! s := get in zoom bs_lens (bread pid (u32 (lg_dev s)) (u32 n)).
Definition l_bwrite (b : nat) : M logst unit := zoom bs_lens (bwrite pid b).
Definition l_brelse (b : nat) : M logst unit := zoom bs_lens (brelse pid b).
(** [memmove(dst->data, src->data, BSIZE)] *)
Definition l_copy (dst src : nat) : M logst unit :=
  zoom bs_lens (modify (fun s => updb dst (set_b_data (b_data (getb s src))) s)).
Definition l_edit (b : nat) (f : bdata -> bdata) : M logst unit :=
  zoom bs_lens (modify (fun s => updb b (fun x => set_b_data (f (b_data x)) x) s)).

(** One turn of the loop of [install_trans]. *)
Definition install_step (tail : nat) : M logst unit :=
  let! s := get in
  let! lbuf := l_bread (lg_start s + Z.of_nat tail + 1) in
  let! dbuf := l_bread (log_block s tail) in
  l_copy dbuf lbuf ;;;
  l_bwrite dbuf ;;;
  l_brelse lbuf ;;;
  l_brelse dbuf.

Definition install_trans : M logst unit :=
  let! s := get in mfor (seq 0 (log_n s)) install_step.

Definition read_head : M logst unit :=
  let! s := get in
  let! b := l_bread (lg_start s) in
  let! x := gets (fun s => b_data (getb (lg_bs s) b)) in
  modify (set_n (hdr_n x)) ;;;
  let! s := get in
  mfor (seq 0 (log_n s)) (fun i => modify (set_block i (hdr_block x i))) ;;;
  l_brelse b.

Definition write_head : M logst unit :=
  let! s := get in
  let! b := l_bread (lg_start s) in
  l_edit b (st32 0 (lh_n (lg_lh s))) ;;;
  mfor (seq 0 (log_n s)) (fun i => l_edit b (st32 (4 + 4 * i) (log_block s i))) ;;;
  l_bwrite b ;;;
  l_brelse b.

Definition recover_from_log : M logst unit :=
  read_head ;;;
  install_trans ;;;
  modify (set_n 0) ;;;
  write_head.

(** [readsb] (fs.c): the fields of the super block [initlog] uses, words 3 and 4 of
    block 1. *)
Definition readsb_log (dev : Z) : M logst (Z * Z) :=
  let! b := zoom bs_lens (bread pid (u32 dev) 1) in
  let! x := gets (fun s => b_data (getb (lg_bs s) b)) in
  l_brelse b ;;;
  m_ret (ld32 x 12, ld32 x 16).

Definition initlog (dev : Z) : M logst unit :=
  if BSIZE <=? 4 + 4 * LOGSIZE then panic "initlog: too big logheader" else
  let! sb := readsb_log dev in
  modify (fun s => LogSt (s32 (snd sb)) (s32 (fst sb)) (lg_outstanding s) (lg_committing s)
    dev (lg_lh s) (lg_bs s)) ;;;
  recover_from_log.

Definition begin_op : M logst unit :=
  let! s := get in
  if negb (lg_committing s =? 0) then block
  else if LOGSIZE <? lh_n (lg_lh s) + (lg_outstanding s + 1) * MAXOPBLOCKS then block
  else modify (set_outstanding (lg_outstanding s + 1)).

Definition write_log_step (tail : nat) : M logst unit :=
  let! s := get in
  let! to := l_bread (lg_start s + Z.of_nat tail + 1) in
  let! from := l_bread (log_block s tail) in
  l_copy to from ;;;
  l_bwrite to ;;;
  l_brelse from ;;;
  l_brelse to.

Definition write_log : M logst unit :=
  let! s := get in mfor (seq 0 (log_n s)) write_log_step.

Definition commit : M logst unit :=
  let! s := get in
  when (0 <? lh_n (lg_lh s))
    (write_log ;;;
     write_head ;;;
     install_trans ;;;
     modify (set_n 0) ;;;
     write_head).

Definition end_op : M logst unit :=
  modify (fun s => set_outstanding (lg_outstanding s - 1) s) ;;;
  let! s := get in
  if negb (lg_committing s =? 0) then panic "log.committing" else
  if lg_outstanding s =? 0 then
    modify (set_committing 1) ;;;
    commit ;;;
    modify (set_committing 0)
  else m_ret tt.

(** [for (i = 0; i < log.lh.n; i++) if (log.lh.block[i] == b->blockno) break;] *)
Fixpoint absorb (blocks : list Z) (n : nat) (blockno : Z) (i : nat) : nat :=
  match n with
  | O => i
  | S n => if u32 (default 0 (blocks !! i)) =? blockno then i else absorb blocks n blockno (S i)
  end.

Definition log_write (b : nat) : M logst unit :=
  let! s := get in
  if (LOGSIZE <=? lh_n (lg_lh s)) || (lg_size s - 1 <=? lh_n (lg_lh s))
  then panic "too big a transaction" else
  if lg_outstanding s <? 1 then panic "log_write outside of trans" else
  let blockno := b_blockno (getb (lg_bs s) b) in
  let i := absorb (lh_block (lg_lh s)) (log_n s) blockno 0 in
  modify (set_block i (s32 blockno)) ;;;
  when (Z.of_nat i =? lh_n (lg_lh s)) (modify (set_n (lh_n (lg_lh s) + 1))) ;;;
  zoom bs_lens (modify (updb b (fun x => set_b_flags (Z.lor (b_flags x) B_DIRTY) x))).
End Log.
