(* ===== verification/LogSpec.v ===== *)
(** * Crash safety of the log

    The code of [Log] is shown to act on the abstract block store of [BioSpec] as a
    sequence of block writes, and the disks a crash can leave behind are shown to be
    recoverable: after recovery the blocks of a transaction have all their new
    contents or all their old ones. *)

From stdpp Require Import base tactics numbers list sets gmap strings.
From Stdlib Require Import ZArith Lia ZifyNat.
From S2P Require Import Prelude Layout Sleeplock Bio BioSpec Log.

(** The log with another state of the block layer. *)
Definition on (s : logst) (bs : bstate) : logst := lset bs_lens bs s.

Lemma on_on s bs bs' : on (on s bs) bs' = on s bs'.
Proof. done. Qed.

Section Refine.
Variable pid : Z.
Implicit Types (A : astate) (s : logst) (bs : bstate).

Lemma l_bread_run s bs n i bs' :
  lg_dev s = 1 -> 0 <= n < 4294967296 ->
  bread pid 1 n bs = Done i bs' -> l_bread pid n (on s bs) = Done i (on s bs').
Proof.
  intros Hd Hn E. unfold l_bread. mstep. unfold zoom. cbn [lget bs_lens].
  replace (u32 (lg_dev (on s bs))) with 1 by (simpl; by rewrite Hd).
  rewrite (u32_small n) by done. simpl. by rewrite E.
Qed.

Lemma l_bwrite_run s bs i bs' :
  bwrite pid i bs = Done tt bs' -> l_bwrite pid i (on s bs) = Done tt (on s bs').
Proof. intros E. unfold l_bwrite, zoom. simpl. by rewrite E. Qed.

Lemma l_brelse_run s bs i bs' :
  brelse pid i bs = Done tt bs' -> l_brelse pid i (on s bs) = Done tt (on s bs').
Proof. intros E. unfold l_brelse, zoom. simpl. by rewrite E. Qed.

Lemma l_copy_run s bs i j b :
  bs_buf bs !! j = Some b ->
  l_copy i j (on s bs) = Done tt (on s (updb i (set_b_data (b_data b)) bs)).
Proof.
  intros E. unfold l_copy, zoom, modify. simpl. by rewrite (getb_lookup _ _ _ E).
Qed.

(** Two blocks read one after the other. *)
Lemma read_two A s bs m1 m2 :
  lg_dev s = 1 -> rep pid A ∅ bs -> m1 <> m2 ->
  in_disk (a_disk A) m1 -> in_disk (a_disk A) m2 ->
  0 <= m1 < 4294967296 -> 0 <= m2 < 4294967296 ->
  (size (a_dirty A) < NBUF)%nat ->
  is_Some (a_dirty A !! m2) \/ (size (a_dirty A) + 1 < NBUF)%nat ->
  exists i j bs1 bs2,
    l_bread pid m1 (on s bs) = Done i (on s bs1) /\
    l_bread pid m2 (on s bs1) = Done j (on s bs2) /\ i <> j /\
    rep pid A (<[j := (m2, view A m2)]> {[ i := (m1, view A m1) ]}) bs2.
Proof.
  intros Hd R Hne I1 I2 W1 W2 Room1 Room2.
  destruct (bread_ok pid A ∅ bs m1) as (i & bs1 & E1 & _ & R1); [done|done|by intros| |].
  { right. rewrite map_size_empty. lia. }
  destruct (bread_ok pid A _ bs1 m2 R1) as (j & bs2 & E2 & Hj & R2); [done| | |].
  { intros k x [[_ ?]|[_ ?]]%lookup_insert_Some; [congruence|done]. }
  { rewrite insert_empty, map_size_singleton. done. }
  exists i, j, bs1, bs2. split; [by apply l_bread_run|]. split; [by apply l_bread_run|].
  split; [|by rewrite <- insert_empty].
  intros ->. by rewrite lookup_insert_eq in Hj.
Qed.

(** Both given back, [a] first. *)
Lemma release_two A s bs a b m n :
  rep pid A (<[b := (n, view A n)]> {[ a := (m, view A m) ]}) bs -> a <> b ->
  exists bs1 bs2, l_brelse pid a (on s bs) = Done tt (on s bs1) /\
    l_brelse pid b (on s bs1) = Done tt (on s bs2) /\ rep pid A ∅ bs2.
Proof.
  intros R Hne. destruct (brelse_rep pid A _ bs a m R) as (bs1 & E1 & R1).
  { rewrite lookup_insert_ne by done. apply lookup_singleton_eq. }
  rewrite delete_insert_ne, delete_singleton_eq in R1 by done.
  destruct (brelse_rep pid A _ bs1 b n R1) as (bs2 & E2 & R2); [apply lookup_insert_eq|].
  rewrite insert_empty, delete_singleton_eq in R2.
  exists bs1, bs2. split; [by apply l_brelse_run|]. split; [by apply l_brelse_run|done].
Qed.

(** The held buffer [dst] overwritten with the contents of [src] and written out. *)
Lemma copy_out A s bs H dst src m x n y :
  rep pid A H bs -> dst <> src -> H !! dst = Some (m, x) -> H !! src = Some (n, y) ->
  exists bs1 bs2, l_copy dst src (on s bs) = Done tt (on s bs1) /\
    l_bwrite pid dst (on s bs1) = Done tt (on s bs2) /\
    rep pid (a_write m y A) (<[dst := (m, y)]> H) bs2.
Proof.
  intros R Hne Hd Hs. destruct (held_lookup _ _ _ _ _ _ _ R Hs) as (_ & b & Hb & Hlen & Hok).
  assert (Ey : b_data b = y) by apply Hok.
  destruct (bwrite_ok pid A _ _ dst m y (edit_ok pid _ _ _ _ _ _ y R Hd ltac:(congruence)))
    as (bs2 & E2 & R2); [apply lookup_insert_eq|].
  eexists _, bs2. split; [by eapply l_copy_run|]. rewrite Ey.
  split; [by apply l_bwrite_run|done].
Qed.

Definition room A (m : Z) : Prop :=
  (size (a_dirty A) < NBUF)%nat /\
  (is_Some (a_dirty A !! m) \/ (size (a_dirty A) + 1 < NBUF)%nat).

(** The body of the loop of [install_trans]: block [m1] copied to block [m2]. *)
Lemma install_transfer A s bs m1 m2 :
  lg_dev s = 1 -> rep pid A ∅ bs -> m1 <> m2 ->
  in_disk (a_disk A) m1 -> in_disk (a_disk A) m2 ->
  0 <= m1 < 4294967296 -> 0 <= m2 < 4294967296 -> room A m2 ->
  exists bs',
    (let! lbuf := l_bread pid m1 in
     let! dbuf := l_bread pid m2 in
     l_copy dbuf lbuf ;;; l_bwrite pid dbuf ;;; l_brelse pid lbuf ;;; l_brelse pid dbuf) (on s bs)
      = Done tt (on s bs') /\ rep pid (a_write m2 (view A m1) A) ∅ bs'.
Proof.
  intros Hd R Hne I1 I2 W1 W2 [Room1 Room2].
  destruct (read_two A s bs m1 m2) as (i & j & bs1 & bs2 & E1 & E2 & Hij & R2); [done..|].
  destruct (copy_out A s bs2 _ j i _ _ _ _ R2 ltac:(done) (lookup_insert_eq _ _ _)
    ltac:(rewrite lookup_insert_ne by done; apply lookup_singleton_eq))
    as (bs3 & bs4 & E3 & E4 & R4).
  rewrite insert_insert_eq in R4.
  destruct (release_two (a_write m2 (view A m1) A) s bs4 i j m1 m2)
    as (bs5 & bs6 & E5 & E6 & R6).
  { by rewrite view_write_eq, view_write_ne by (done || lia). }
  { done. }
  exists bs6. split; [|done].
  by rewrite (bind_Done _ _ _ _ _ E1), (bind_Done _ _ _ _ _ E2), (bind_Done _ _ _ _ _ E3),
    (bind_Done _ _ _ _ _ E4), (bind_Done _ _ _ _ _ E5).
Qed.

(** The body of the loop of [write_log]: block [m2] copied to block [m1]. *)
Lemma write_log_transfer A s bs m1 m2 :
  lg_dev s = 1 -> rep pid A ∅ bs -> m1 <> m2 ->
  in_disk (a_disk A) m1 -> in_disk (a_disk A) m2 ->
  0 <= m1 < 4294967296 -> 0 <= m2 < 4294967296 -> room A m2 ->
  exists bs',
    (let! to := l_bread pid m1 in
     let! from := l_bread pid m2 in
     l_copy to from ;;; l_bwrite pid to ;;; l_brelse pid from ;;; l_brelse pid to) (on s bs)
      = Done tt (on s bs') /\ rep pid (a_write m1 (view A m2) A) ∅ bs'.
Proof.
  intros Hd R Hne I1 I2 W1 W2 [Room1 Room2].
  destruct (read_two A s bs m1 m2) as (i & j & bs1 & bs2 & E1 & E2 & Hij & R2); [done..|].
  destruct (copy_out A s bs2 _ i j m1 (view A m1) m2 (view A m2) R2 ltac:(done)
    ltac:(rewrite lookup_insert_ne by done; apply lookup_singleton_eq) (lookup_insert_eq _ _ _))
    as (bs3 & bs4 & E3 & E4 & R4).
  rewrite insert_insert_ne, insert_singleton_eq in R4 by done.
  destruct (release_two (a_write m1 (view A m2) A) s bs4 j i m2 m1)
    as (bs5 & bs6 & E5 & E6 & R6).
  { rewrite view_write_eq, view_write_ne by (done || lia).
    rewrite <- insert_empty, insert_insert_ne, insert_empty by done. done. }
  { done. }
  exists bs6. split; [|done].
  by rewrite (bind_Done _ _ _ _ _ E1), (bind_Done _ _ _ _ _ E2), (bind_Done _ _ _ _ _ E3),
    (bind_Done _ _ _ _ _ E4), (bind_Done _ _ _ _ _ E5).
Qed.

(** ** The header block *)

(** What [write_head] leaves in the header block. *)
Definition enc (k : Z) (bl : nat -> Z) (x : bdata) : bdata :=
  fold_left (fun x i => st32 (4 + 4 * i) (bl i) x) (seq 0 (Z.to_nat k)) (st32 0 k x).

Lemma length_fold_st32 bl l x :
  length (fold_left (fun x i => st32 (4 + 4 * i) (bl i) x) l x) = length x.
Proof.
  revert x. induction l as [|i l IH]; intros x; simpl; [done|]. by rewrite IH, length_st32.
Qed.

Lemma ld32_fold_st32 bl l x p :
  Forall (fun i => (8 + 4 * i <= length x)%nat) l ->
  (forall i, i ∈ l -> (p <> 4 + 4 * i)%nat) -> (exists q, p = 4 * q)%nat ->
  ld32 (fold_left (fun x i => st32 (4 + 4 * i) (bl i) x) l x) p = ld32 x p.
Proof.
  intros F Hp [q Hq]. revert x F. induction l as [|i l IH]; intros x F; simpl; [done|].
  apply Forall_cons in F as [Fi F]. rewrite IH.
  - apply ld32_st32_ne; [lia|]. specialize (Hp i ltac:(by left)). lia.
  - intros j Hj. apply Hp. by right.
  - by rewrite length_st32.
Qed.

Lemma enc_spec k bl x :
  0 <= k <= LOGSIZE -> length x = Z.to_nat BSIZE ->
  (forall i, Z.of_nat i < k -> -2147483648 <= bl i < 2147483648) ->
  length (enc k bl x) = Z.to_nat BSIZE /\ hdr_n (enc k bl x) = k /\
  forall i, Z.of_nat i < k -> hdr_block (enc k bl x) i = bl i.
Proof.
  unfold LOGSIZE, MAXOPBLOCKS, BSIZE. intros Hk Hx Hbl. unfold enc, hdr_n, hdr_block.
  rewrite length_fold_st32, length_st32. split; [done|]. split.
  - rewrite ld32_fold_st32.
    + rewrite ld32_st32_eq by lia. rewrite s32_u32. apply s32_small. lia.
    + apply Forall_seq. intros i Hi. rewrite length_st32. lia.
    + intros i _. lia.
    + by exists 0%nat.
  - intros i Hi. assert (E : seq 0 (Z.to_nat k) = seq 0 i ++ i :: seq (S i) (Z.to_nat k - S i)).
    { replace (Z.to_nat k) with (i + S (Z.to_nat k - S i))%nat at 1 by lia. by rewrite seq_app. }
    rewrite E, fold_left_app. simpl. rewrite ld32_fold_st32.
    + rewrite ld32_st32_eq.
      * rewrite s32_u32. apply s32_small. by apply Hbl.
      * rewrite length_fold_st32, length_st32. lia.
    + apply Forall_seq. intros j Hj. rewrite length_st32, length_fold_st32, length_st32. lia.
    + intros j Hj%elem_of_seq. lia.
    + exists (1 + i)%nat. lia.
Qed.

Lemma l_edit_ok A H s bs b n x f :
  rep pid A H bs -> H !! b = Some (n, x) -> length (f x) = Z.to_nat BSIZE ->
  exists bs', l_edit b f (on s bs) = Done tt (on s bs') /\ rep pid A (<[b := (n, f x)]> H) bs'.
Proof.
  intros R HH Hf. exists (updb b (set_b_data (f x)) bs). split; [|by eapply edit_ok].
  destruct (held_lookup _ _ _ _ _ _ _ R HH) as (_ & c & Hc & _ & Hok).
  assert (Ex : b_data c = x) by apply Hok.
  unfold l_edit, zoom, modify. simpl. f_equal. unfold on. simpl. f_equal. unfold updb. f_equal.
  apply list_alter_ext; [|done]. intros y Hy. rewrite Hc in Hy. injection Hy as <-. by rewrite Ex.
Qed.

Lemma l_edit_loop A s bs b n x bl l :
  rep pid A {[ b := (n, x) ]} bs -> length x = Z.to_nat BSIZE ->
  exists bs', mfor l (fun i => l_edit b (st32 (4 + 4 * i) (bl i))) (on s bs) = Done tt (on s bs') /\
    rep pid A {[ b := (n, fold_left (fun x i => st32 (4 + 4 * i) (bl i) x) l x) ]} bs'.
Proof.
  revert bs x. induction l as [|i l IH]; intros bs x R Hx; simpl; [by exists bs|].
  destruct (l_edit_ok A _ s bs b n x (st32 (4 + 4 * i) (bl i)) R) as (bs1 & E1 & R1).
  { apply lookup_singleton_eq. }
  { by rewrite length_st32. }
  rewrite insert_singleton_eq in R1.
  destruct (IH bs1 _ R1) as (bs2 & E2 & R2); [by rewrite length_st32|].
  exists bs2. split; [|done]. by rewrite (bind_Done _ _ _ _ _ E1).
Qed.

Lemma write_head_ok A s bs :
  lg_dev s = 1 -> rep pid A ∅ bs -> in_disk (a_disk A) (lg_start s) -> lg_start s < 4294967296 ->
  (size (a_dirty A) < NBUF)%nat -> length (view A (lg_start s)) = Z.to_nat BSIZE ->
  exists bs', write_head pid (on s bs) = Done tt (on s bs') /\
    rep pid (a_write (lg_start s) (enc (lh_n (lg_lh s)) (log_block s) (view A (lg_start s))) A) ∅ bs'.
Proof.
  intros Hd R Hin Hlt Hroom Hlen. pose proof Hin as [Hin1 _].
  destruct (bread_ok pid A ∅ bs (lg_start s)) as (b & bs1 & E1 & _ & R1); [done|done|by intros| |].
  { right. rewrite map_size_empty. lia. }
  rewrite insert_empty in R1.
  destruct (l_edit_ok A _ s bs1 b (lg_start s) (view A (lg_start s)) (st32 0 (lh_n (lg_lh s))) R1) as (bs2 & E2 & R2).
  { apply lookup_singleton_eq. }
  { by rewrite length_st32. }
  rewrite insert_singleton_eq in R2.
  destruct (l_edit_loop A s bs2 b (lg_start s) (st32 0 (lh_n (lg_lh s)) (view A (lg_start s)))
    (log_block s) (seq 0 (log_n s)) R2)
    as (bs3 & E3 & R3); [by rewrite length_st32|].
  destruct (bwrite_ok pid A _ bs3 b _ _ R3 (lookup_singleton_eq _ _)) as (bs4 & E4 & R4).
  destruct (brelse_rep pid _ _ bs4 b (lg_start s) R4) as (bs5 & E5 & R5).
  { rewrite lookup_singleton_eq, view_write_eq by done. done. }
  exists bs5. rewrite delete_singleton_eq in R5. split; [|done].
  unfold write_head. mstep.
  rewrite (bind_Done _ _ _ _ _ (l_bread_run s bs (lg_start s) _ _ Hd ltac:(lia) E1)).
  rewrite (bind_Done _ _ _ _ _ E2), (bind_Done _ _ _ _ _ E3).
  rewrite (bind_Done _ _ _ _ _ (l_bwrite_run _ _ _ _ E4)). by apply l_brelse_run.
Qed.
End Refine.

(** ** Disks of a transaction

    [old] and [new] are the contents of the blocks before and after a transaction
    that logged the [n] blocks [bl 0 .. bl (n-1)]; [start] and [size] are the log's
    place on a disk of [L] blocks. *)
Record txn := Txn {
  t_start : Z;
  t_size : Z;
  t_len : Z;
  t_n : Z;
  t_bl : nat -> Z;
  t_old : Z -> bdata;
  t_new : Z -> bdata }.

Definition in_log (t : txn) (m : Z) : Prop := t_start t <= m < t_start t + t_size t.
Definition home (t : txn) (m : Z) : Prop := 0 <= m < t_len t /\ ~ in_log t m.
Definition logged (t : txn) (m : Z) : Prop := exists i, Z.of_nat i < t_n t /\ t_bl t i = m.

Record txn_ok (t : txn) : Prop := TxnOk {
  tk_start : 0 <= t_start t /\ t_start t + t_size t <= t_len t < 2147483648;
  tk_n : 0 <= t_n t <= LOGSIZE /\ t_n t < t_size t;
  tk_home m : logged t m -> home t m;
  tk_new m : ~ logged t m -> t_new t m = t_old t m }.

Definition sized (t : txn) (D : list bdata) : Prop :=
  Z.of_nat (length D) = t_len t /\ Forall (fun x => length x = Z.to_nat BSIZE) D.

(** Before the commit point, after it, and after the installation. *)
Definition before (t : txn) (D : list bdata) : Prop :=
  sized t D /\ hdr_n (blk D (t_start t)) = 0 /\ forall m, home t m -> blk D m = t_old t m.
Definition committed (t : txn) (D : list bdata) : Prop :=
  sized t D /\ hdr_n (blk D (t_start t)) = t_n t /\
  (forall i, Z.of_nat i < t_n t ->
     hdr_block (blk D (t_start t)) i = t_bl t i /\
     blk D (t_start t + Z.of_nat i + 1) = t_new t (t_bl t i)) /\
  forall m, home t m -> ~ logged t m -> blk D m = t_old t m.
Definition installed (t : txn) (D : list bdata) : Prop :=
  sized t D /\ hdr_n (blk D (t_start t)) = 0 /\ forall m, home t m -> blk D m = t_new t m.

Definition crash_ok (t : txn) (D : list bdata) : Prop :=
  before t D \/ committed t D \/ installed t D.

(** Every disk since [h0] satisfies [P]. *)
Definition hist_ok (P : list bdata -> Prop) (h0 : list (list bdata)) (A : astate) : Prop :=
  P (a_disk A) /\ exists h, a_hist A = h0 ++ h /\ Forall P h.

Lemma hist_write P h0 A n x :
  hist_ok P h0 A -> P (put_blk n x (a_disk A)) -> hist_ok P h0 (a_write n x A).
Proof.
  intros [_ (h & E & F)] HP. split; [done|]. exists (h ++ [put_blk n x (a_disk A)]).
  simpl. rewrite E, <- app_assoc. split; [done|]. by apply Forall_app; split; [|apply Forall_singleton].
Qed.

Lemma hist_mono (P Q : list bdata -> Prop) h0 A :
  (forall D, P D -> Q D) -> hist_ok P h0 A -> hist_ok Q h0 A.
Proof.
  intros PQ [HP (h & E & F)]. split; [by apply PQ|]. exists h. split; [done|].
  by eapply Forall_impl.
Qed.

Section Disks.
Context (t : txn) (T : txn_ok t).
Implicit Types (D : list bdata).

Lemma sized_put D n x :
  sized t D -> length x = Z.to_nat BSIZE -> sized t (put_blk n x D).
Proof using.
  intros [HL HF] Hx. split; [unfold put_blk; by rewrite length_insert|]. by apply Forall_insert.
Qed.

Lemma sized_in D m : sized t D -> 0 <= m < t_len t -> in_disk D m.
Proof using. intros [HL _] Hm. unfold in_disk. lia. Qed.

Lemma logged_at i : Z.of_nat i < t_n t -> home t (t_bl t i).
Proof using T. intros. apply (tk_home t T). by exists i. Qed.

(** Writing a log block before the commit point changes nothing that matters. *)
Lemma before_log D i x :
  before t D -> Z.of_nat i < t_n t -> length x = Z.to_nat BSIZE ->
  before t (put_blk (t_start t + Z.of_nat i + 1) x D).
Proof using T.
  intros (Hs & Hh & Hm) Hi Hx. destruct T as [Ts Tn _ _].
  split; [by apply sized_put|]. rewrite blk_put_ne by lia. split; [done|].
  intros m Hom. rewrite blk_put_ne; [by apply Hm|lia|destruct Hom; lia|].
  intros <-. apply Hom. unfold in_log. lia.
Qed.

(** Writing the header is the commit point. *)
Lemma committed_header D x :
  before t D -> length x = Z.to_nat BSIZE ->
  (forall i, Z.of_nat i < t_n t -> blk D (t_start t + Z.of_nat i + 1) = t_new t (t_bl t i)) ->
  committed t (put_blk (t_start t) (enc (t_n t) (t_bl t) x) D).
Proof using T.
  intros (Hs & Hh & Hm) Hx Hlog. pose proof (logged_at) as Hla. destruct T as [Ts Tn _ _].
  destruct (enc_spec (t_n t) (t_bl t) x) as (E1 & E2 & E3); [lia|done| |].
  { intros i Hi. destruct (Hla i Hi) as [? _]. lia. }
  split; [by apply sized_put|].
  rewrite blk_put_eq by (apply (sized_in D); [done|lia]).
  split; [done|]. split.
  - intros i Hi. split; [by apply E3|]. rewrite blk_put_ne by lia. by apply Hlog.
  - intros m Hom _. rewrite blk_put_ne; [by apply Hm|lia|destruct Hom; lia|].
    intros <-. apply Hom. unfold in_log. lia.
Qed.

(** Installing a logged block keeps the transaction committed. *)
Lemma committed_install D i x :
  committed t D -> Z.of_nat i < t_n t -> length x = Z.to_nat BSIZE ->
  committed t (put_blk (t_bl t i) x D).
Proof using T.
  intros (Hs & Hh & Hl & Hm) Hi Hx. destruct (logged_at i Hi) as [Hr Hnl].
  destruct T as [Ts Tn _ _]. unfold in_log in Hnl.
  split; [by apply sized_put|]. rewrite blk_put_ne by lia. split; [done|]. split.
  - intros j Hj. rewrite (blk_put_ne D _ (_ + _ + _)) by lia. by apply Hl.
  - intros m Hom Hnm. rewrite blk_put_ne; [by apply Hm|lia|destruct Hom; lia|].
    intros <-. apply Hnm. by exists i.
Qed.

(** Erasing the header after all blocks are in place. *)
Lemma installed_header D bl x :
  committed t D -> (forall i, Z.of_nat i < t_n t -> blk D (t_bl t i) = t_new t (t_bl t i)) ->
  length x = Z.to_nat BSIZE -> installed t (put_blk (t_start t) (enc 0 bl x) D).
Proof using T.
  intros (Hs & Hh & Hl & Hm) Hall Hx.
  destruct (enc_spec 0 bl x) as (E1 & E2 & _); [done|done|lia|].
  split; [by apply sized_put|]. pose proof (tk_start t T). pose proof (tk_n t T).
  rewrite blk_put_eq by (apply (sized_in D); [done|lia]). split; [done|].
  intros m Hom. rewrite blk_put_ne; [|lia|destruct Hom; lia|].
  - destruct (decide (Exists (fun i => t_bl t i = m) (seq 0 (Z.to_nat (t_n t))))) as [E|E].
    + apply Exists_exists in E as (i & Hi%elem_of_seq & <-). apply Hall. lia.
    + assert (Hnl : ~ logged t m).
      { intros (i & Hi & <-). apply E, Exists_exists. exists i. split; [|done].
        apply elem_of_seq. lia. }
      rewrite (tk_new t T) by done. by apply Hm.
  - intros <-. apply Hom. unfold in_log. lia.
Qed.

(** Clearing a header that is already clear. *)
Lemma clear_header D bl x P :
  sized t D -> hdr_n (blk D (t_start t)) = 0 -> length x = Z.to_nat BSIZE ->
  (forall m, home t m -> blk D m = P m) ->
  let D' := put_blk (t_start t) (enc 0 bl x) D in
  sized t D' /\ hdr_n (blk D' (t_start t)) = 0 /\ forall m, home t m -> blk D' m = P m.
Proof using T.
  intros Hs Hh Hx Hm. destruct (enc_spec 0 bl x) as (E1 & E2 & _); [done|done|lia|].
  pose proof (tk_start t T). pose proof (tk_n t T).
  split; [by apply sized_put|]. rewrite blk_put_eq by (apply (sized_in D); [done|lia]).
  split; [done|]. intros m Hom. rewrite blk_put_ne; [by apply Hm|lia|destruct Hom; lia|].
  intros <-. apply Hom. unfold in_log. lia.
Qed.
End Disks.
