(* ===== verification/LogCrash.v ===== *)
(** * Commit and recovery are atomic under crashes

    [log_inv] is the invariant of the log between operations. Committing passes only
    through disks that [crash_ok] describes, and recovery started on such a disk, with
    an empty cache, ends with the old or with the new contents of every block. *)

From stdpp Require Import base tactics numbers list sets gmap strings.
From Stdlib Require Import ZArith Lia ZifyNat.
From S2P Require Import Prelude Layout Sleeplock Bio BioSpec Log LogSpec.

(** The log of [s] lies where [t] says, on device 1. *)
Definition at_log (t : txn) (s : logst) : Prop :=
  lg_dev s = 1 /\ lg_start s = t_start t /\ lg_size s = t_size t.

(** The in-memory header lists the blocks of [t]. *)
Definition lists (t : txn) (s : logst) : Prop :=
  lh_n (lg_lh s) = t_n t /\ forall i, Z.of_nat i < t_n t -> log_block s i = t_bl t i.

Section Crash.
Variable pid : Z.
Context (t : txn) (T : txn_ok t).
Implicit Types (A : astate) (s : logst) (bs : bstate).

Lemma mfor_rep (I : list nat -> astate -> Prop) f s l A bs :
  (forall i l A bs, I (i :: l) A -> rep pid A ∅ bs ->
     exists bs' A', f i (on s bs) = Done tt (on s bs') /\ rep pid A' ∅ bs' /\ I l A') ->
  I l A -> rep pid A ∅ bs ->
  exists bs' A', mfor l f (on s bs) = Done tt (on s bs') /\ rep pid A' ∅ bs' /\ I [] A'.
Proof using.
  intros Hf. revert A bs. induction l as [|i l IH]; intros A bs HI R; simpl; [by exists bs, A|].
  destruct (Hf i l A bs HI R) as (bs1 & A1 & E1 & R1 & I1).
  destruct (IH A1 bs1 I1 R1) as (bs2 & A2 & E2 & R2 & I2).
  exists bs2, A2. split; [|done]. by rewrite (bind_Done _ _ _ _ _ E1).
Qed.

Lemma view_clean A m : a_dirty A !! m = None -> view A m = blk (a_disk A) m.
Proof using. intros E. unfold view. by rewrite E. Qed.

Lemma log_blk_clean A m :
  (forall k, is_Some (a_dirty A !! k) -> logged t k) -> in_log t m -> a_dirty A !! m = None.
Proof using T.
  intros Hd Hm. apply eq_None_not_Some. intros [_ Hn]%Hd%(tk_home t T). done.
Qed.

Lemma sized_blk D m : sized t D -> 0 <= m < t_len t -> length (blk D m) = Z.to_nat BSIZE.
Proof using. intros Hs Hm. apply blk_length; [apply Hs|by eapply sized_in]. Qed.

(** ** Installation *)

Record inst_inv (P : list bdata -> Prop) (h0 : list (list bdata)) (l : list nat) (A : astate)
  : Prop := InstInv {
  ii_hist : hist_ok P h0 A;
  ii_com : committed t (a_disk A);
  ii_dirty m : is_Some (a_dirty A !! m) -> logged t m;
  ii_room : (size (a_dirty A) + 1 < NBUF)%nat \/
    ((size (a_dirty A) < NBUF)%nat /\ forall i, i ∈ l -> is_Some (a_dirty A !! t_bl t i));
  ii_todo i : i ∈ l -> Z.of_nat i < t_n t;
  ii_done i : Z.of_nat i < t_n t -> (i ∉ l) ->
    blk (a_disk A) (t_bl t i) = t_new t (t_bl t i) /\ a_dirty A !! t_bl t i = None }.

Lemma install_step_ok P h0 s i l A bs :
  (forall D, committed t D -> P D) -> at_log t s -> lists t s ->
  inst_inv P h0 (i :: l) A -> rep pid A ∅ bs ->
  exists bs' A', install_step pid i (on s bs) = Done tt (on s bs') /\ rep pid A' ∅ bs' /\
    inst_inv P h0 l A'.
Proof using T.
  intros HP (Hdev & Hst & _) (_ & Hbl) I R. pose proof (ii_todo _ _ _ _ I i ltac:(by left)) as Hi.
  destruct (logged_at t T i Hi) as [Hr Hnl]. pose proof (tk_start t T) as Ts. pose proof (tk_n t T) as Tn.
  pose proof (ii_com _ _ _ _ I) as Hcom. pose proof Hcom as (Hs & _ & Hlog & _).
  assert (Hin : in_log t (t_start t + Z.of_nat i + 1)) by (unfold in_log; lia).
  assert (Hv : view A (t_start t + Z.of_nat i + 1) = t_new t (t_bl t i)).
  { rewrite view_clean; [by apply Hlog|]. apply log_blk_clean; [apply I|done]. }
  destruct (install_transfer pid A s bs (t_start t + Z.of_nat i + 1) (t_bl t i)) as (bs' & E & R').
  { done. } { done. } { intros Heq. by rewrite <- Heq in Hnl. }
  { apply (sized_in t); [done|lia]. } { by apply (sized_in t). } { lia. } { lia. }
  { destruct (ii_room _ _ _ _ I) as [?|[? Hsm]]; split; [lia|by right|done|].
    left. apply Hsm. by left. }
  eexists bs', _. split; [|split; [exact R'|]].
  { unfold install_step. mstep. unfold log_block in *. simpl. rewrite Hst, (Hbl i Hi). exact E. }
  rewrite Hv.
  assert (Hlen : length (t_new t (t_bl t i)) = Z.to_nat BSIZE).
  { rewrite <- (proj2 (Hlog i Hi)). apply sized_blk; [done|lia]. }
  assert (Hcom' : committed t (put_blk (t_bl t i) (t_new t (t_bl t i)) (a_disk A))).
  { by apply committed_install. }
  split; simpl.
  - apply hist_write; [apply I|by apply HP].
  - done.
  - intros m [_ Hm]%lookup_delete_is_Some. by apply (ii_dirty _ _ _ _ I).
  - left. rewrite map_size_delete. pose proof (ii_room _ _ _ _ I) as Hroom.
    destruct (a_dirty A !! t_bl t i) eqn:Hdi; destruct Hroom as [?|[? Hsm]]; unfold NBUF, id in *; try lia.
    destruct (Hsm i ltac:(by left)) as [? ?]. congruence.
  - intros j Hj. apply (ii_todo _ _ _ _ I). by right.
  - intros j Hj Hnj. destruct (decide (t_bl t j = t_bl t i)) as [->|Hne].
    + rewrite blk_put_eq, lookup_delete_eq; [done|]. by apply (sized_in t).
    + destruct (logged_at t T j Hj) as [Hrj _]. rewrite blk_put_ne, lookup_delete_ne by (done || lia).
      apply (ii_done _ _ _ _ I); [done|]. intros [->|?]%elem_of_cons; done.
Qed.

Lemma inst_inv_clean P h0 A : inst_inv P h0 [] A -> a_dirty A = ∅.
Proof using.
  intros I. apply map_empty. intros m. apply eq_None_not_Some. intros Hm.
  destruct (ii_dirty _ _ _ _ I m Hm) as (i & Hi & <-).
  destruct (ii_done _ _ _ _ I i Hi (not_elem_of_nil i)) as [_ E]. rewrite E in Hm.
  by destruct Hm.
Qed.

Lemma install_ok P h0 s A bs :
  (forall D, committed t D -> P D) -> at_log t s -> lists t s ->
  inst_inv P h0 (seq 0 (Z.to_nat (t_n t))) A -> rep pid A ∅ bs ->
  exists bs' A', install_trans pid (on s bs) = Done tt (on s bs') /\ rep pid A' ∅ bs' /\
    inst_inv P h0 [] A'.
Proof using T.
  intros HP Hat Hli I R. unfold install_trans. mstep.
  replace (log_n (on s bs)) with (Z.to_nat (t_n t)) by (unfold log_n; simpl; by rewrite (proj1 Hli)).
  eapply (mfor_rep (inst_inv P h0)); [|done|done]. intros. by eapply install_step_ok.
Qed.

(** ** Writing the log *)

Record wlog_inv (Dm : gmap Z bdata) (h0 : list (list bdata)) (l : list nat) (A : astate)
  : Prop := WlogInv {
  wi_hist : hist_ok (before t) h0 A;
  wi_dirty : a_dirty A = Dm;
  wi_todo i : i ∈ l -> Z.of_nat i < t_n t;
  wi_done i : Z.of_nat i < t_n t -> (i ∉ l) ->
    blk (a_disk A) (t_start t + Z.of_nat i + 1) = t_new t (t_bl t i) }.

(** The pinned blocks of a transaction are the logged ones. *)
Record pinned (Dm : gmap Z bdata) : Prop := Pinned {
  pn_logged m : is_Some (Dm !! m) -> logged t m;
  pn_new i : Z.of_nat i < t_n t -> Dm !! t_bl t i = Some (t_new t (t_bl t i));
  pn_len i : Z.of_nat i < t_n t -> length (t_new t (t_bl t i)) = Z.to_nat BSIZE;
  pn_size : (size Dm < NBUF)%nat }.

Lemma write_log_step_ok Dm h0 s i l A bs :
  pinned Dm -> at_log t s -> lists t s ->
  wlog_inv Dm h0 (i :: l) A -> rep pid A ∅ bs ->
  exists bs' A', write_log_step pid i (on s bs) = Done tt (on s bs') /\ rep pid A' ∅ bs' /\
    wlog_inv Dm h0 l A'.
Proof using T.
  intros Pn (Hdev & Hst & _) (_ & Hbl) I R. pose proof (wi_todo _ _ _ _ I i ltac:(by left)) as Hi.
  destruct (logged_at t T i Hi) as [Hr Hnl]. pose proof (tk_start t T) as Ts. pose proof (tk_n t T) as Tn.
  pose proof (wi_hist _ _ _ _ I) as [(Hs & _) _]. pose proof (wi_dirty _ _ _ _ I) as Ed.
  assert (Hin : in_log t (t_start t + Z.of_nat i + 1)) by (unfold in_log; lia).
  assert (Hv : view A (t_bl t i) = t_new t (t_bl t i)).
  { unfold view. by rewrite Ed, (pn_new _ Pn i Hi). }
  assert (Hclean : Dm !! (t_start t + Z.of_nat i + 1) = None).
  { apply eq_None_not_Some. intros [_ ?]%(pn_logged _ Pn)%(tk_home t T). done. }
  destruct (write_log_transfer pid A s bs (t_start t + Z.of_nat i + 1) (t_bl t i)) as (bs' & E & R').
  { done. } { done. } { intros Heq. by rewrite <- Heq in Hnl. }
  { apply (sized_in t); [done|lia]. } { by apply (sized_in t). } { lia. } { lia. }
  { unfold room. rewrite Ed, (pn_new _ Pn i Hi). split; [apply Pn|left; eauto]. }
  eexists bs', _. split; [|split; [exact R'|]].
  { unfold write_log_step. mstep. unfold log_block in *. simpl. rewrite Hst, (Hbl i Hi). exact E. }
  rewrite Hv. split.
  - apply hist_write; [apply I|]. apply before_log; [done|apply I|done|by apply Pn].
  - simpl. rewrite Ed. by apply delete_id.
  - intros j Hj. apply (wi_todo _ _ _ _ I). by right.
  - intros j Hj Hnj. simpl. destruct (decide (j = i)) as [->|Hne].
    + rewrite blk_put_eq; [done|]. apply (sized_in t); [done|lia].
    + rewrite blk_put_ne by lia. apply (wi_done _ _ _ _ I); [done|].
      intros [->|?]%elem_of_cons; done.
Qed.

Lemma write_log_ok Dm s A bs :
  pinned Dm -> at_log t s -> lists t s -> before t (a_disk A) -> a_dirty A = Dm ->
  rep pid A ∅ bs ->
  exists bs' A', write_log pid (on s bs) = Done tt (on s bs') /\ rep pid A' ∅ bs' /\
    wlog_inv Dm (a_hist A) [] A'.
Proof using T.
  intros Pn Hat Hli Hb Hd R. unfold write_log. mstep.
  replace (log_n (on s bs)) with (Z.to_nat (t_n t)) by (unfold log_n; simpl; by rewrite (proj1 Hli)).
  eapply (mfor_rep (wlog_inv Dm (a_hist A))).
  - intros. by eapply write_log_step_ok.
  - split; [split; [done|exists []; by rewrite app_nil_r]|done| |].
    + intros i [_ ?]%elem_of_seq. lia.
    + intros i Hi Hn. destruct Hn. apply elem_of_seq. lia.
  - done.
Qed.

(** [write_head] when the header block is not pinned. *)
Lemma write_head_log s A bs :
  at_log t s -> sized t (a_disk A) -> (size (a_dirty A) < NBUF)%nat ->
  a_dirty A !! t_start t = None -> rep pid A ∅ bs ->
  exists bs', write_head pid (on s bs) = Done tt (on s bs') /\
    rep pid (a_write (t_start t)
      (enc (lh_n (lg_lh s)) (log_block s) (blk (a_disk A) (t_start t))) A) ∅ bs'.
Proof using T.
  intros (Hdev & Hst & _) Hs Hroom Hcl R. pose proof (tk_start t T). pose proof (tk_n t T).
  rewrite <- (view_clean A) by done. rewrite <- Hst in *.
  apply write_head_ok; [done|done|apply (sized_in t); [done|lia]|lia|done|].
  rewrite view_clean by done. apply sized_blk; [done|lia].
Qed.

Lemma enc_ext k bl bl' x :
  (forall i, Z.of_nat i < k -> bl i = bl' i) -> enc k bl x = enc k bl' x.
Proof using.
  intros E. unfold enc.
  assert (G : forall l y, (forall i, i ∈ l -> bl i = bl' i) ->
    fold_left (fun x i => st32 (4 + 4 * i) (bl i) x) l y =
    fold_left (fun x i => st32 (4 + 4 * i) (bl' i) x) l y).
  { induction l as [|i l IH]; intros y H; simpl; [done|]. rewrite H by by left.
    apply IH. intros j Hj. apply H. by right. }
  apply G. intros i [_ Hi]%elem_of_seq. apply E. lia.
Qed.

(** ** Commit *)

Lemma commit_ok s A bs :
  pinned (a_dirty A) -> at_log t s -> lists t s -> 0 < t_n t -> before t (a_disk A) ->
  rep pid A ∅ bs ->
  exists bs' A', commit pid (on s bs) = Done tt (on (set_n 0 s) bs') /\ rep pid A' ∅ bs' /\
    hist_ok (crash_ok t) (a_hist A) A' /\ installed t (a_disk A') /\ a_dirty A' = ∅.
Proof using T.
  intros Pn Hat Hli Hpos Hb R. pose proof (tk_start t T) as Ts. pose proof (tk_n t T) as Tn.
  assert (Hin : in_log t (t_start t)) by (unfold in_log; lia).
  destruct (write_log_ok (a_dirty A) s A bs) as (bs1 & A1 & E1 & R1 & [H1 D1 _ W1]); [done..|].
  assert (Hcl : a_dirty A1 !! t_start t = None).
  { rewrite D1. apply log_blk_clean; [apply Pn|done]. }
  destruct H1 as [Hb1 H1]. pose proof Hb1 as (Hs1 & _).
  destruct (write_head_log s A1 bs1) as (bs2 & E2 & R2); [done|done|rewrite D1; apply Pn|done|done|].
  rewrite (proj1 Hli), (enc_ext _ _ (t_bl t)) in R2 by apply Hli.
  set (A2 := a_write _ _ A1) in R2.
  assert (Hc2 : committed t (a_disk A2)).
  { apply committed_header; [done|done|apply sized_blk; [done|lia]|].
    intros i Hi. apply W1; [done|apply not_elem_of_nil]. }
  assert (H2 : hist_ok (crash_ok t) (a_hist A) A2).
  { apply hist_write; [|right; by left]. apply (hist_mono (before t)); [by left|by split]. }
  assert (D2 : a_dirty A2 = a_dirty A) by (simpl; rewrite <- D1; by apply delete_id).
  destruct (install_ok (crash_ok t) (a_hist A) s A2 bs2) as (bs3 & A3 & E3 & R3 & I3);
    [by right; left|done|done| |done|].
  { split; [done|done| | | |].
    - rewrite D2. apply Pn.
    - right. rewrite D2. split; [apply Pn|]. intros i [_ Hi]%elem_of_seq. rewrite (pn_new _ Pn) by lia. eauto.
    - intros i [_ ?]%elem_of_seq. lia.
    - intros i Hi Hn. destruct Hn. apply elem_of_seq. lia. }
  pose proof (inst_inv_clean _ _ _ I3) as D3.
  pose proof (ii_com _ _ _ _ I3) as Hc3. pose proof Hc3 as (Hs3 & _).
  destruct (write_head_log (set_n 0 s) A3 bs3) as (bs4 & E4 & R4);
    [done|done|by rewrite D3, map_size_empty; unfold NBUF; lia|by rewrite D3|done|].
  eexists bs4, _. split; [|split; [exact R4|]].
  { unfold commit. mstep. simpl. rewrite (proj1 Hli), (proj2 (Z.ltb_lt _ _)) by done. simpl.
    rewrite (bind_Done _ _ _ _ _ E1), (bind_Done _ _ _ _ _ E2), (bind_Done _ _ _ _ _ E3).
    mstep. exact E4. }
  assert (Hi4 : installed t (put_blk (t_start t)
    (enc 0 (log_block (set_n 0 s)) (blk (a_disk A3) (t_start t))) (a_disk A3))).
  { apply installed_header; [done|done| |apply sized_blk; [done|lia]].
    intros i Hi. by apply (ii_done _ _ _ _ I3 i Hi (not_elem_of_nil i)). }
  split; [|split; [exact Hi4|simpl; by rewrite D3, delete_empty]].
  apply hist_write; [apply I3|right; by right].
Qed.

(** ** Recovery *)

Lemma set_blocks_run f l s :
  mfor l (fun i => modify (set_block i (f i))) s =
    Done tt (fold_left (fun s i => set_block i (f i) s) l s).
Proof using. revert s. induction l as [|i l IH]; intros s; simpl; [done|]. mstep. apply IH. Qed.

Lemma set_blocks_frame f l s :
  let s' := fold_left (fun s i => set_block i (f i) s) l s in
  (forall u, at_log u s -> at_log u s') /\ lh_n (lg_lh s') = lh_n (lg_lh s) /\
  length (lh_block (lg_lh s')) = length (lh_block (lg_lh s)) /\ lg_bs s' = lg_bs s.
Proof using.
  revert s. induction l as [|i l IH]; intros s; simpl; [done|].
  destruct (IH (set_block i (f i) s)) as (H1 & H2 & H3 & H4).
  split; [intros u Hu; by apply H1|]. split; [done|].
  rewrite H3, H4. simpl. by rewrite length_insert.
Qed.

Lemma set_blocks_block f l s i :
  (i < length (lh_block (lg_lh s)))%nat -> i ∈ l \/ log_block s i = f i ->
  log_block (fold_left (fun s i => set_block i (f i) s) l s) i = f i.
Proof using.
  revert s. induction l as [|j l IH]; intros s Hi Hin; simpl.
  - destruct Hin as [Hin|]; [by apply not_elem_of_nil in Hin|done].
  - apply IH; [simpl; by rewrite length_insert|].
    destruct (decide (j = i)) as [->|Hne].
    + right. unfold log_block. simpl. by rewrite list_lookup_insert_eq.
    + destruct Hin as [[->|Hin]%elem_of_cons|Hin]; [done|by left|].
      right. unfold log_block in *. simpl. by rewrite list_lookup_insert_ne.
Qed.

Lemma read_head_ok s A bs :
  at_log t s -> sized t (a_disk A) -> a_dirty A = ∅ -> rep pid A ∅ bs ->
  let x := blk (a_disk A) (t_start t) in
  length (lh_block (lg_lh s)) = Z.to_nat LOGSIZE -> hdr_n x <= LOGSIZE ->
  exists s' bs', read_head pid (on s bs) = Done tt (on s' bs') /\ rep pid A ∅ bs' /\ at_log t s' /\
    lh_n (lg_lh s') = hdr_n x /\
    forall i, Z.of_nat i < hdr_n x -> log_block s' i = hdr_block x i.
Proof using T.
  intros Hat Hs Hd R x Hlen Hn. pose proof (tk_start t T). pose proof (tk_n t T).
  assert (Hin : in_disk (a_disk A) (t_start t)) by (apply (sized_in t); [done|lia]).
  destruct (bread_ok pid A ∅ bs (t_start t)) as (b & bs1 & E1 & _ & R1); [done|done|by intros| |].
  { right. rewrite Hd, !map_size_empty. unfold NBUF. lia. }
  rewrite insert_empty, view_clean in R1 by by rewrite Hd.
  destruct (held_lookup _ _ _ _ _ _ _ R1 (lookup_singleton_eq _ _)) as (_ & c & Hc & _ & Hok).
  assert (Ex : b_data c = x) by apply Hok.
  destruct (brelse_rep pid A _ bs1 b (t_start t) R1) as (bs2 & E2 & R2).
  { by rewrite lookup_singleton_eq, view_clean by by rewrite Hd. }
  rewrite delete_singleton_eq in R2.
  set (s1 := set_n (hdr_n x) s). set (l := seq 0 (Z.to_nat (hdr_n x))).
  set (f := fun i => hdr_block x i).
  destruct (set_blocks_frame f l (on s1 bs1)) as (F1 & F2 & F3 & F4).
  set (s2 := fold_left (fun s i => set_block i (f i) s) l (on s1 bs1)) in *.
  exists s2, bs2. split; [|split; [done|split; [by apply F1|split; [done|]]]].
  - unfold read_head. mstep. pose proof Hat as (Hdev & Hst & _).
    replace (lg_start (on s bs)) with (t_start t) by done.
    rewrite (bind_Done _ _ _ _ _ (l_bread_run pid s bs (t_start t) _ _ Hdev ltac:(lia) E1)).
    mstep. change (getb (lg_bs (on s bs1)) b) with (getb bs1 b).
    rewrite (getb_lookup _ _ _ Hc), Ex. mstep. mstep.
    rewrite (bind_Done _ _ _ _ _ (set_blocks_run f _ _)). fold s2.
    change (fold_left _ _ _) with s2.
    replace s2 with (on s2 bs1) at 1 by (change (lg_bs s2 = bs1) in F4; unfold on; simpl; rewrite <- F4; by destruct s2).
    by apply l_brelse_run.
  - intros i Hi. apply set_blocks_block.
    + simpl. rewrite Hlen. lia.
    + left. apply elem_of_seq. lia.
Qed.

(** Recovery with an empty log only rewrites the header. *)
Lemma recover_clear s A bs P :
  at_log t s -> sized t (a_disk A) -> a_dirty A = ∅ -> rep pid A ∅ bs ->
  length (lh_block (lg_lh s)) = Z.to_nat LOGSIZE -> hdr_n (blk (a_disk A) (t_start t)) = 0 ->
  (forall m, home t m -> blk (a_disk A) m = P m) ->
  exists s' bs' A', recover_from_log pid (on s bs) = Done tt (on s' bs') /\ rep pid A' ∅ bs' /\
    a_dirty A' = ∅ /\
    hist_ok (fun D => sized t D /\ hdr_n (blk D (t_start t)) = 0 /\
                      forall m, home t m -> blk D m = P m) (a_hist A) A'.
Proof using T.
  intros Hat Hs Hd R Hlen Hh HP. pose proof (tk_start t T). pose proof (tk_n t T).
  destruct (read_head_ok s A bs Hat Hs Hd R Hlen) as (s1 & bs1 & E1 & R1 & Hat1 & Hn1 & _).
  { rewrite Hh. done. }
  rewrite Hh in Hn1.
  destruct (write_head_log (set_n 0 s1) A bs1) as (bs2 & E2 & R2);
    [done|done|by rewrite Hd, map_size_empty; unfold NBUF; lia|by rewrite Hd|done|].
  eexists (set_n 0 s1), bs2, _. split; [|split; [exact R2|]].
  { unfold recover_from_log. rewrite (bind_Done _ _ _ _ _ E1).
    erewrite (bind_Done (install_trans pid)); [|unfold install_trans; mstep; unfold log_n; simpl;
      rewrite Hn1; reflexivity]. mstep. exact E2. }
  split; [simpl; by rewrite Hd, delete_empty|]. apply hist_write.
  - split; [done|]. exists []. by rewrite app_nil_r.
  - apply clear_header; [done|done|done|apply sized_blk; [done|lia]|done].
Qed.

(** Recovery of a committed transaction installs it. *)
Lemma recover_committed s A bs :
  at_log t s -> committed t (a_disk A) -> a_dirty A = ∅ -> rep pid A ∅ bs ->
  length (lh_block (lg_lh s)) = Z.to_nat LOGSIZE ->
  exists s' bs' A', recover_from_log pid (on s bs) = Done tt (on s' bs') /\ rep pid A' ∅ bs' /\
    a_dirty A' = ∅ /\
    hist_ok (fun D => committed t D \/ installed t D) (a_hist A) A' /\ installed t (a_disk A').
Proof using T.
  intros Hat Hc Hd R Hlen. pose proof Hc as (Hs & Hh & Hl & _).
  pose proof (tk_start t T) as Ts. pose proof (tk_n t T) as Tn.
  destruct (read_head_ok s A bs Hat Hs Hd R Hlen) as (s1 & bs1 & E1 & R1 & Hat1 & Hn1 & Hb1).
  { rewrite Hh. lia. }
  rewrite Hh in Hn1, Hb1.
  destruct (install_ok (fun D => committed t D \/ installed t D) (a_hist A) s1 A bs1)
    as (bs2 & A2 & E2 & R2 & I2); [by left|done| | |done|].
  { split; [done|]. intros i Hi. rewrite Hb1 by done. by apply Hl. }
  { split.
    - split; [by left|]. exists []. by rewrite app_nil_r.
    - done.
    - intros m [x Hm]. by rewrite Hd in Hm.
    - left. rewrite Hd, map_size_empty. unfold NBUF. lia.
    - intros i [_ ?]%elem_of_seq. lia.
    - intros i Hi Hn. destruct Hn. apply elem_of_seq. lia. }
  pose proof (inst_inv_clean _ _ _ I2) as D2.
  pose proof (ii_com _ _ _ _ I2) as Hc2. pose proof Hc2 as (Hs2 & _).
  destruct (write_head_log (set_n 0 s1) A2 bs2) as (bs3 & E3 & R3);
    [done|done|by rewrite D2, map_size_empty; unfold NBUF; lia|by rewrite D2|done|].
  eexists (set_n 0 s1), bs3, _. split; [|split; [exact R3|]].
  { unfold recover_from_log. rewrite (bind_Done _ _ _ _ _ E1), (bind_Done _ _ _ _ _ E2).
    mstep. exact E3. }
  assert (Hi3 : installed t (put_blk (t_start t)
    (enc 0 (log_block (set_n 0 s1)) (blk (a_disk A2) (t_start t))) (a_disk A2))).
  { apply installed_header; [done|done| |apply sized_blk; [done|lia]].
    intros i Hi. by apply (ii_done _ _ _ _ I2 i Hi (not_elem_of_nil i)). }
  split; [simpl; by rewrite D2, delete_empty|]. split; [|exact Hi3].
  apply hist_write; [apply I2|by right].
Qed.
End Crash.

(** ** The log between operations *)

Record log_inv (A : astate) (s : logst) : Prop := LogInv {
  li_dev : lg_dev s = 1;
  li_geom : 0 <= lg_start s /\
    lg_start s + lg_size s <= Z.of_nat (length (a_disk A)) < 2147483648 /\ lg_size s <= LOGSIZE;
  li_len : length (lh_block (lg_lh s)) = Z.to_nat LOGSIZE;
  li_n : 0 <= lh_n (lg_lh s) < lg_size s;
  li_home i : Z.of_nat i < lh_n (lg_lh s) ->
    0 <= log_block s i < Z.of_nat (length (a_disk A)) /\
    ~ (lg_start s <= log_block s i < lg_start s + lg_size s);
  li_dirty m : is_Some (a_dirty A !! m) <->
    exists i, Z.of_nat i < lh_n (lg_lh s) /\ log_block s i = m;
  li_hdr : hdr_n (blk (a_disk A) (lg_start s)) = 0 }.

(** The fields the operations of a transaction leave alone. *)
Definition same_log s s' : Prop :=
  lg_start s' = lg_start s /\ lg_size s' = lg_size s /\
  lg_outstanding s' = lg_outstanding s /\ lg_committing s' = lg_committing s.

Definition the_txn (A : astate) (s : logst) : txn :=
  Txn (lg_start s) (lg_size s) (Z.of_nat (length (a_disk A))) (lh_n (lg_lh s)) (log_block s)
    (blk (a_disk A)) (view A).

Section Atomic.
Variable pid : Z.
Implicit Types (A : astate) (s : logst) (bs : bstate) (D : list bdata).

Lemma the_txn_ok A s : log_inv A s -> txn_ok (the_txn A s).
Proof.
  intros I. pose proof (li_geom _ _ I). pose proof (li_n _ _ I). split; simpl.
  - lia.
  - lia.
  - intros m (i & Hi & <-). apply (li_home _ _ I i Hi).
  - intros m Hm. unfold view. destruct (a_dirty A !! m) eqn:E; [|done].
    destruct Hm. apply (li_dirty _ _ I). eauto.
Qed.

Lemma pinned_dirty A s bs : rep pid A ∅ bs -> log_inv A s -> pinned (the_txn A s) (a_dirty A).
Proof.
  intros R I. pose proof (r_content _ _ _ _ R) as C.
  assert (Hsm : forall i, Z.of_nat i < lh_n (lg_lh s) -> is_Some (a_dirty A !! log_block s i)).
  { intros i Hi. apply (li_dirty _ _ I). eauto. }
  split; simpl.
  - intros m Hm. by apply (li_dirty _ _ I).
  - intros i [x Hx]%Hsm. unfold view. by rewrite Hx.
  - intros i Hi%Hsm. destruct (c_pinned _ _ _ _ C _ Hi) as (j & b & Hj & Hb & Db & Nb).
    destruct (c_ok _ _ _ _ C j b Hj Hb) as [Hl Hok]. rewrite lookup_empty in Hok.
    destruct Hok as (_ & _ & [[? _]|(_ & _ & Hd & _)]); [lia|]. by rewrite <- Nb, <- Hd.
  - pose proof (li_geom _ _ I) as G. pose proof (li_n _ _ I) as N.
    unfold LOGSIZE, MAXOPBLOCKS in G.
    apply (Nat.le_lt_trans _ (length (log_block s <$> seq 0 (Z.to_nat (lh_n (lg_lh s)))))).
    + rewrite <- size_dom. unfold size, set_size, compose.
      apply submseteq_length, NoDup_submseteq; [apply NoDup_elements|].
      intros m Hm%elem_of_elements%elem_of_dom. apply (li_dirty _ _ I) in Hm as (i & Hi & <-).
      apply list_elem_of_fmap. exists i. split; [done|]. apply elem_of_seq. lia.
    + rewrite length_fmap, length_seq. unfold NBUF. lia.
Qed.

(** The log structure of a machine that has just restarted with buffer cache [bs]. *)
Definition fresh s bs : logst :=
  LogSt (lg_start s) (lg_size s) 0 0 (lg_dev s) (LogHeader 0 (replicate (Z.to_nat LOGSIZE) 0)) bs.

(** The disks a crash can leave behind: the disk at any moment of a [commit] that
    starts in [s], or at any moment of a recovery that was itself started after such
    a crash. *)
Inductive crash_disk s : list bdata -> Prop :=
  | CrashCommit s' D :
      commit pid s = Done tt s' ->
      D ∈ bs_disk (lg_bs s) :: drop (length (bs_hist (lg_bs s))) (bs_hist (lg_bs s')) ->
      crash_disk s D
  | CrashRecover D bs s' D' :
      crash_disk s D -> binit (BState zero_bcache D []) = Done tt bs ->
      recover_from_log pid (fresh s bs) = Done tt s' -> D' ∈ bs_hist (lg_bs s') ->
      crash_disk s D'.

Lemma before_start A s bs :
  rep pid A ∅ bs -> log_inv A s -> before (the_txn A s) (a_disk A).
Proof. intros R I. split; [split; [done|apply R]|]. split; [apply (li_hdr _ _ I)|done]. Qed.

Lemma hist_in P h0 A D : hist_ok P h0 A -> D ∈ drop (length h0) (a_hist A) -> P D.
Proof.
  intros [_ (h & -> & F)] HD. rewrite drop_app_length in HD. by eapply Forall_forall.
Qed.

(** What recovery does on any disk a crash can leave. *)
Lemma recover_ok t s D :
  txn_ok t -> at_log t s -> crash_ok t D ->
  exists bs s' A', binit (BState zero_bcache D []) = Done tt bs /\
    recover_from_log pid (fresh s bs) = Done tt s' /\ rep pid A' ∅ (lg_bs s') /\
    hist_ok (crash_ok t) [] A' /\ (before t (a_disk A') \/ installed t (a_disk A')).
Proof.
  intros T Hat Hc.
  assert (Hs : sized t D) by (destruct Hc as [Hc|[Hc|Hc]]; apply Hc).
  destruct (binit_ok pid D [] (proj2 Hs)) as (bs & E & R & _).
  assert (Hat' : at_log t (fresh s bs)) by done.
  assert (Hl : length (lh_block (lg_lh (fresh s bs))) = Z.to_nat LOGSIZE) by done.
  exists bs. destruct Hc as [(_ & Hh & Hm)|[Hc|(_ & Hh & Hm)]].
  - destruct (recover_clear pid t T (fresh s bs) (AState D ∅ []) bs (t_old t) Hat' Hs eq_refl R Hl Hh Hm)
      as (s' & bs' & A' & E' & R' & _ & H'). exists (on s' bs'), A'.
    do 3 (split; [done|]). split; [|left; apply H']. eapply hist_mono; [|exact H'].
    intros D' HD. by left.
  - destruct (recover_committed pid t T (fresh s bs) (AState D ∅ []) bs Hat' Hc eq_refl R Hl)
      as (s' & bs' & A' & E' & R' & _ & H' & Hi). exists (on s' bs'), A'.
    do 3 (split; [done|]). split; [|by right]. eapply hist_mono; [|exact H'].
    intros D' HD. by right.
  - destruct (recover_clear pid t T (fresh s bs) (AState D ∅ []) bs (t_new t) Hat' Hs eq_refl R Hl Hh Hm)
      as (s' & bs' & A' & E' & R' & _ & H'). exists (on s' bs'), A'.
    do 3 (split; [done|]). split; [|right; apply H']. eapply hist_mono; [|exact H'].
    intros D' HD. right. by right.
Qed.

Lemma commit_done A s :
  rep pid A ∅ (lg_bs s) -> log_inv A s ->
  exists s' A', commit pid s = Done tt s' /\ rep pid A' ∅ (lg_bs s') /\ log_inv A' s' /\
    same_log s s' /\ lh_n (lg_lh s') = 0 /\ hist_ok (crash_ok (the_txn A s)) (a_hist A) A' /\
    (forall m, home (the_txn A s) m -> blk (a_disk A') m = view A m).
Proof.
  intros R I. pose proof (the_txn_ok _ _ I) as T.
  pose proof (before_start _ _ _ R I) as Hb.
  destruct (decide (lh_n (lg_lh s) = 0)) as [E0|Hn0].
  - exists s, A. split.
    { unfold commit. mstep. by rewrite E0. }
    do 4 (split; [done|]). split; [split; [by left|exists []; by rewrite app_nil_r]|].
    intros m _. unfold view. destruct (a_dirty A !! m) eqn:E; [|done].
    destruct (proj1 (li_dirty _ _ I m)) as (i & Hi & _); [eauto|lia].
  - pose proof (li_n _ _ I) as Hn.
    destruct (commit_ok pid (the_txn A s) T s A (lg_bs s)) as (bs' & A' & E & R' & H' & Hi & Hd);
      [by eapply pinned_dirty|by split; [apply I|]|done|simpl; lia|done|done|].
    replace (on s (lg_bs s)) with s in E by by destruct s.
    exists (on (set_n 0 s) bs'), A'. do 2 (split; [done|]). split.
    { destruct Hi as (Hs & Hh & _). pose proof (li_geom _ _ I) as G. destruct Hs as [HL _]. simpl in HL.
      split; simpl; [apply I|by rewrite HL|apply I|lia|lia| |done].
      intros m. rewrite Hd. split; [by intros [x ?]|]. intros (i & ? & _). lia. }
    do 3 (split; [done|]). intros m Hm. by apply Hi.
Qed.
End Atomic.
