(* ===== verification/LogOps.v ===== *)
(** * System calls and the log: [begin_op], [log_write], [end_op]

    The operations a file-system call performs on the log, and what they keep:
    [log_inv], the relation between the logged and the pinned blocks, and the bound on
    the size of a transaction. *)

From stdpp Require Import base tactics numbers list sets gmap strings.
From Stdlib Require Import ZArith Lia ZifyNat.
From S2P Require Import Prelude Layout Sleeplock Bio BioSpec Log LogSpec LogCrash.

(** [absorb] stops at the first entry for the block, or at the end. *)
Lemma absorb_spec bl n m i :
  let j := absorb bl n m i in
  (i <= j <= i + n)%nat /\
  (forall k, (i <= k < j)%nat -> u32 (default 0 (bl !! k)) <> m) /\
  ((j < i + n)%nat -> u32 (default 0 (bl !! j)) = m).
Proof.
  revert i. induction n as [|n IH]; intros i; simpl; [split; [lia|]; split; intros; lia|].
  destruct (Z.eqb_spec (u32 (default 0 (bl !! i))) m) as [E|E].
  - split; [lia|]. split; [intros; lia|done].
  - destruct (IH (S i)) as (H1 & H2 & H3). split; [lia|]. split.
    + intros k Hk. destruct (decide (k = i)) as [->|]; [done|]. apply H2. lia.
    + intros. apply H3. lia.
Qed.

Section Ops.
Variable pid : Z.
Implicit Types (A : astate) (s : logst) (bs : bstate).

(** The entry [log_write] uses for block [m]. *)
Definition entry s (m : Z) : nat := absorb (lh_block (lg_lh s)) (log_n s) m 0.

Lemma log_write_run s b :
  let m := b_blockno (getb (lg_bs s) b) in
  lh_n (lg_lh s) < LOGSIZE -> lh_n (lg_lh s) < lg_size s - 1 -> 1 <= lg_outstanding s ->
  0 <= lh_n (lg_lh s) ->
  let n' := if (entry s m =? log_n s)%nat then lh_n (lg_lh s) + 1 else lh_n (lg_lh s) in
  log_write b s = Done tt
    (on (set_lh (LogHeader n' (<[entry s m := s32 m]> (lh_block (lg_lh s)))) s)
        (updb b (fun x => set_b_flags (Z.lor (b_flags x) B_DIRTY) x) (lg_bs s))).
Proof.
  intros m H1 H2 H3 H4 n'. unfold log_write. mstep.
  rewrite (proj2 (Z.leb_gt _ _)), (proj2 (Z.leb_gt _ _)), (proj2 (Z.ltb_ge _ _)) by lia.
  cbn [orb]. cbv zeta. fold m. fold (entry s m). mstep. unfold n', log_n.
  destruct (Z.eqb_spec (Z.of_nat (entry s m)) (lh_n (lg_lh s))) as [E|E];
    destruct (Nat.eqb_spec (entry s m) (Z.to_nat (lh_n (lg_lh s)))) as [E'|E']; try lia; reflexivity.
Qed.

Lemma log_write_inv A H s b m x :
  rep pid A H (lg_bs s) -> log_inv A s -> H !! b = Some (m, x) ->
  ~ (lg_start s <= m < lg_start s + lg_size s) ->
  1 <= lg_outstanding s -> lh_n (lg_lh s) < lg_size s - 1 ->
  exists s', log_write b s = Done tt s' /\ rep pid (a_pin m x A) H (lg_bs s') /\
    log_inv (a_pin m x A) s' /\ same_log s s' /\
    lh_n (lg_lh s') = (if decide (is_Some (a_dirty A !! m)) then lh_n (lg_lh s) else lh_n (lg_lh s) + 1).
Proof.
  intros R I HH Hnl Ho Hroom. pose proof (li_geom _ _ I) as G. pose proof (li_n _ _ I) as Hn.
  destruct (held_lookup _ _ _ _ _ _ _ R HH) as (_ & c & Hc & _ & Hok).
  destruct Hok as (_ & _ & _ & Em & _ & [Hm1 Hm2] & _).
  eexists. split; [apply log_write_run; lia|].
  rewrite (getb_lookup _ _ _ Hc), Em. rewrite s32_small by lia.
  destruct (absorb_spec (lh_block (lg_lh s)) (log_n s) m 0) as (B1 & B2 & B3).
  fold (entry s m) in *. set (j := entry s m) in *. unfold log_n in *.
  assert (U : forall k, Z.of_nat k < lh_n (lg_lh s) -> u32 (log_block s k) = log_block s k).
  { intros k Hk. destruct (li_home _ _ I k Hk). apply u32_small. lia. }
  assert (Hdec : (j = Z.to_nat (lh_n (lg_lh s))) <-> ~ is_Some (a_dirty A !! m)).
  { rewrite (li_dirty _ _ I). split.
    - intros -> (k & Hk & Ek). apply (B2 k); [lia|]. change (u32 (log_block s k) = m). by rewrite U.
    - intros Hno. destruct (decide (j = Z.to_nat (lh_n (lg_lh s)))); [done|].
      destruct Hno. exists j. split; [lia|]. rewrite <- U by lia. apply B3. lia. }
  set (n' := if (j =? Z.to_nat (lh_n (lg_lh s)))%nat then lh_n (lg_lh s) + 1 else lh_n (lg_lh s)).
  assert (En' : n' = lh_n (lg_lh s) + 1 /\ j = Z.to_nat (lh_n (lg_lh s)) \/
                n' = lh_n (lg_lh s) /\ (j < Z.to_nat (lh_n (lg_lh s)))%nat).
  { unfold n'. destruct (Nat.eqb_spec j (Z.to_nat (lh_n (lg_lh s)))); lia. }
  assert (Hjl : (j < length (lh_block (lg_lh s)))%nat).
  { rewrite (li_len _ _ I). lia. }
  assert (LB : forall k bs', log_block (on (set_lh (LogHeader n' (<[j := m]> (lh_block (lg_lh s)))) s) bs') k
    = if decide (k = j) then m else log_block s k).
  { intros k bs'. unfold log_block. simpl. destruct (decide (k = j)) as [->|Hne].
    - by rewrite list_lookup_insert_eq.
    - by rewrite list_lookup_insert_ne. }
  split; [by apply pin_ok|]. split.
  - split; [apply I|apply I|simpl; rewrite length_insert; apply I|simpl; lia| | |apply I].
    + intros k Hk. rewrite LB. destruct (decide (k = j)); [by split; simpl; lia|].
      apply (li_home _ _ I). simpl in Hk. lia.
    + intros k. simpl. rewrite lookup_insert_is_Some, (li_dirty _ _ I). split.
      * intros [<-|[_ (i & Hi & <-)]].
        -- exists j. rewrite LB, decide_True by done. split; [lia|done].
        -- destruct (decide (i = j)) as [->|Hne]; [|exists i; rewrite LB, decide_False by done; lia].
           exists j. rewrite LB, decide_True by done. split; [lia|].
           rewrite <- U by lia. symmetry. apply B3. lia.
      * intros (i & Hi & Ei). rewrite LB in Ei. destruct (decide (i = j)) as [->|Hne]; [by left|].
        destruct (decide (m = k)); [by left|]. right. split; [done|]. exists i. split; [lia|done].
  - split; [done|]. simpl. fold n'.
    destruct (decide (is_Some (a_dirty A !! m))) as [Hs|Hs].
    + destruct En' as [[_ Ej]|[? _]]; [|done]. by apply Hdec in Ej.
    + destruct En' as [[? _]|[_ Ej]]; [done|]. apply Hdec in Hs. lia.
Qed.

(** ** A whole system call

    The typical use of the log (log.c, before [log_write]): read a block, modify it,
    [log_write] it, release it. *)
Definition log_update (m : Z) (f : bdata -> bdata) : M logst unit :=
  let! bp := l_bread pid m in
  l_edit bp f ;;;
  log_write bp ;;;
  l_brelse pid bp.

(** One operation: [begin_op], the updates of some blocks, [end_op]. *)
Definition transaction (us : list (Z * (bdata -> bdata))) : M logst unit :=
  begin_op ;;;
  mfor us (fun u => log_update (fst u) (snd u)) ;;;
  end_op pid.

(** The contents of the blocks after the updates. *)
Definition updates (us : list (Z * (bdata -> bdata))) (c : Z -> bdata) : Z -> bdata :=
  fold_left (fun c u k => if decide (k = fst u) then snd u (c (fst u)) else c k) us c.

Definition update_ok s (A : astate) (u : Z * (bdata -> bdata)) : Prop :=
  0 <= fst u < Z.of_nat (length (a_disk A)) /\
  ~ (lg_start s <= fst u < lg_start s + lg_size s) /\
  forall x, length x = Z.to_nat BSIZE -> length (snd u x) = Z.to_nat BSIZE.

Lemma dirty_bound A s bs : rep pid A ∅ bs -> log_inv A s -> (size (a_dirty A) < NBUF)%nat.
Proof. intros R I. apply (pn_size _ _ (pinned_dirty pid _ _ _ R I)). Qed.

Lemma view_length A s m :
  rep pid A ∅ (lg_bs s) -> log_inv A s -> in_disk (a_disk A) m ->
  length (view A m) = Z.to_nat BSIZE.
Proof.
  intros R I Hm. unfold view. destruct (a_dirty A !! m) as [x|] eqn:E; simpl.
  - assert (Hs : is_Some (a_dirty A !! m)) by eauto.
    apply (li_dirty _ _ I) in Hs as (i & Hi & Ei).
    pose proof (pn_len _ _ (pinned_dirty pid _ _ _ R I) i Hi) as Hl. simpl in Hl.
    unfold view in Hl. by rewrite Ei, E in Hl.
  - apply blk_length; [apply R|done].
Qed.

Lemma l_edit_on A H s b n x f :
  rep pid A H (lg_bs s) -> H !! b = Some (n, x) -> length (f x) = Z.to_nat BSIZE ->
  exists bs, l_edit b f s = Done tt (on s bs) /\ rep pid A (<[b := (n, f x)]> H) bs.
Proof.
  intros. replace (l_edit b f s) with (l_edit b f (on s (lg_bs s))) by by destruct s.
  by eapply l_edit_ok.
Qed.

Lemma log_update_ok A s m f :
  rep pid A ∅ (lg_bs s) -> log_inv A s -> update_ok s A (m, f) ->
  1 <= lg_outstanding s -> lh_n (lg_lh s) < lg_size s - 1 ->
  let A' := a_pin m (f (view A m)) A in
  exists s', log_update m f s = Done tt s' /\ rep pid A' ∅ (lg_bs s') /\ log_inv A' s' /\
    same_log s s' /\ lh_n (lg_lh s') <= lh_n (lg_lh s) + 1.
Proof.
  intros R I (Hm & Hnl & Hf) Ho Hroom A'. simpl in *. pose proof (li_geom _ _ I) as G.
  assert (Hin : in_disk (a_disk A) m) by done.
  destruct (bread_ok pid A ∅ (lg_bs s) m R Hin) as (b & bs1 & E1 & _ & R1); [by intros| |].
  { right. rewrite map_size_empty. pose proof (dirty_bound _ _ _ R I). lia. }
  rewrite insert_empty in R1.
  destruct (l_edit_on A _ (on s bs1) b m (view A m) f R1 (lookup_singleton_eq _ _)) as (bs2 & E2 & R2).
  { by eapply Hf, view_length. }
  rewrite insert_singleton_eq, on_on in *.
  assert (I2 : log_inv A (on s bs2)) by by destruct I.
  destruct (log_write_inv A _ (on s bs2) b m (f (view A m)) R2 I2 (lookup_singleton_eq _ _))
    as (s3 & E3 & R3 & I3 & S3 & N3); [done..|].
  destruct (brelse_rep pid A' _ (lg_bs s3) b m R3) as (bs4 & E4 & R4).
  { rewrite lookup_singleton_eq. unfold view, A'. simpl. by rewrite lookup_insert_eq. }
  rewrite delete_singleton_eq in R4. exists (on s3 bs4). split; [|split; [done|]].
  { unfold log_update. pose proof (l_bread_run pid s (lg_bs s) m b bs1 (li_dev _ _ I) ltac:(lia) E1) as E1'.
    replace (on s (lg_bs s)) with s in E1' by by destruct s.
    rewrite (bind_Done _ _ _ _ _ E1'), (bind_Done _ _ _ _ _ E2), (bind_Done _ _ _ _ _ E3).
    pose proof (l_brelse_run pid s3 _ _ _ E4) as E4'. by destruct s3. }
  split; [by destruct I3|]. split; [done|]. simpl. rewrite N3. simpl. destruct (decide _); lia.
Qed.

Lemma view_pin A m x k : view (a_pin m x A) k = if decide (k = m) then x else view A k.
Proof.
  unfold view. simpl. destruct (decide (k = m)) as [->|Hne].
  - by rewrite lookup_insert_eq.
  - by rewrite lookup_insert_ne.
Qed.

Lemma updates_ext us c c' k : (forall k, c k = c' k) -> updates us c k = updates us c' k.
Proof.
  revert c c'. induction us as [|u us IH]; intros c c' E; simpl; [done|].
  apply IH. intros j. by rewrite !E.
Qed.

Lemma log_updates_ok A s us :
  rep pid A ∅ (lg_bs s) -> log_inv A s -> Forall (update_ok s A) us ->
  1 <= lg_outstanding s -> lh_n (lg_lh s) + Z.of_nat (length us) <= lg_size s - 1 ->
  exists s' A', mfor us (fun u => log_update (fst u) (snd u)) s = Done tt s' /\
    rep pid A' ∅ (lg_bs s') /\ log_inv A' s' /\ same_log s s' /\
    a_disk A' = a_disk A /\ forall k, view A' k = updates us (view A) k.
Proof.
  revert A s. induction us as [|[m f] us IH]; intros A s R I F Ho Hn; simpl.
  { by exists s, A. }
  simpl in Hn. apply Forall_cons in F as [Fm F].
  destruct (log_update_ok A s m f R I Fm Ho) as (s1 & E1 & R1 & I1 & S1 & N1); [lia|].
  destruct S1 as (S1 & S2 & S3 & S4).
  destruct (IH _ s1 R1 I1) as (s2 & A2 & E2 & R2 & I2 & S5 & D2 & V2); [|lia|lia|].
  { eapply Forall_impl; [exact F|]. intros u. unfold update_ok. by rewrite S1, S2. }
  exists s2, A2. split; [by rewrite (bind_Done _ _ _ _ _ E1)|]. split; [done|]. split; [done|].
  split; [unfold same_log in *; naive_solver congruence|]. split; [done|].
  intros k. rewrite V2. apply updates_ext. intros j. simpl. rewrite view_pin. done.
Qed.

(** [end_op] of the last outstanding operation commits. *)
Lemma end_op_last A s :
  rep pid A ∅ (lg_bs s) -> log_inv A s -> lg_outstanding s = 1 -> lg_committing s = 0 ->
  exists s' A', end_op pid s = Done tt s' /\ rep pid A' ∅ (lg_bs s') /\ log_inv A' s' /\
    lh_n (lg_lh s') = 0 /\ lg_outstanding s' = 0 /\ lg_committing s' = 0 /\
    (lg_start s' = lg_start s /\ lg_size s' = lg_size s /\ length (a_disk A') = length (a_disk A)) /\
    forall m, home (the_txn A s) m -> blk (a_disk A') m = view A m.
Proof.
  intros R I Ho Hc. set (s1 := set_committing 1 (set_outstanding 0 s)).
  assert (I1 : log_inv A s1) by by destruct I.
  destruct (commit_done pid A s1 R I1) as (s2 & A2 & E2 & R2 & I2 & S2 & N2 & [Hc2 _] & V2).
  destruct S2 as (S2 & S3 & S4 & S5).
  assert (HL : length (a_disk A2) = length (a_disk A)).
  { destruct Hc2 as [[[HL _] _]|[[[HL _] _]|[[HL _] _]]]; simpl in HL; lia. }
  exists (set_committing 0 s2), A2. split.
  { unfold end_op. mstep. rewrite Ho. change (1 - 1) with 0. mstep. simpl. rewrite Hc. simpl.
    mstep. fold s1. rewrite (bind_Done _ _ _ _ _ E2). done. }
  split; [done|]. split; [by destruct I2|]. done.
Qed.
End Ops.

(** C27. A file-system operation that runs alone, [begin_op], the updates of some blocks
    through [log_write] and [end_op], never panics and never waits if it touches no
    more blocks than the log holds; when it returns the log is empty and every block
    outside the log has on disk exactly the contents the updates give it. *)
Theorem transaction_spec pid A s us :
  rep pid A ∅ (lg_bs s) -> log_inv A s ->
  lh_n (lg_lh s) = 0 -> lg_outstanding s = 0 -> lg_committing s = 0 ->
  Forall (update_ok s A) us -> Z.of_nat (length us) <= lg_size s - 1 ->
  exists s' A', transaction pid us s = Done tt s' /\
    rep pid A' ∅ (lg_bs s') /\ log_inv A' s' /\
    lh_n (lg_lh s') = 0 /\ lg_outstanding s' = 0 /\ lg_committing s' = 0 /\
    forall m, home (the_txn A s) m ->
      blk (bs_disk (lg_bs s')) m = updates us (blk (bs_disk (lg_bs s))) m.
Proof.
  intros R I Hn Ho Hc F Hlen. set (s1 := set_outstanding 1 s).
  assert (I1 : log_inv A s1) by by destruct I.
  assert (E1 : begin_op s = Done tt s1).
  { unfold begin_op. mstep. by rewrite Hc, Hn, Ho. }
  destruct (log_updates_ok pid A s1 us R I1 F) as (s2 & A2 & E2 & R2 & I2 & S2 & D2 & V2);
    [done|simpl; lia|]. destruct S2 as (S2 & S3 & S4 & S5).
  destruct (end_op_last pid A2 s2 R2 I2) as (s3 & A3 & E3 & R3 & I3 & N3 & O3 & C3 & _ & V3);
    [done|by rewrite S5|].
  exists s3, A3. split.
  { unfold transaction. by rewrite (bind_Done _ _ _ _ _ E1), (bind_Done _ _ _ _ _ E2). }
  do 5 (split; [done|]). intros m Hm. rewrite (r_disk _ _ _ _ R3), (r_disk _ _ _ _ R).
  rewrite V3, V2.
  - apply updates_ext. intros k. unfold view. destruct (a_dirty A !! k) eqn:E; [|done].
    destruct (proj1 (li_dirty _ _ I k)) as (i & Hi & _); [eauto|lia].
  - unfold home, in_log in *. simpl in *. by rewrite S2, S3, D2.
Qed.

(** C1. The log makes [commit] atomic under crashes. Between operations, with the pinned
    blocks of a transaction listed in the log, [commit] returns and leaves every block
    outside the log with its new contents. If the machine stops at any moment of the
    commit, or at any moment of a recovery after such a stop, any number of times, then
    restarting with [binit] and running [recover_from_log] returns, with an empty log
    and either every block as before the transaction or every block as after it. *)
Theorem commit_atomic pid A s :
  rep pid A ∅ (lg_bs s) -> log_inv A s ->
  (exists s', commit pid s = Done tt s' /\
     forall m, home (the_txn A s) m -> blk (bs_disk (lg_bs s')) m = view A m) /\
  forall D, crash_disk pid s D ->
    exists bs s', binit (BState zero_bcache D []) = Done tt bs /\
      recover_from_log pid (fresh s bs) = Done tt s' /\
      hdr_n (blk (bs_disk (lg_bs s')) (lg_start s)) = 0 /\
      ((forall m, home (the_txn A s) m -> blk (bs_disk (lg_bs s')) m = blk (bs_disk (lg_bs s)) m) \/
       (forall m, home (the_txn A s) m -> blk (bs_disk (lg_bs s')) m = view A m)).
Proof.
  intros R I. destruct (commit_done pid A s R I) as (s1 & A1 & E1 & R1 & _ & _ & _ & H1 & Hm).
  split.
  { exists s1. split; [done|]. by rewrite (r_disk _ _ _ _ R1). }
  assert (Hat : at_log (the_txn A s) s) by (split; [apply I|done]).
  pose proof (the_txn_ok _ _ I) as T. intros D HD.
  assert (Hc : crash_ok (the_txn A s) D).
  { induction HD as [s' D Es HD | D bs s' D' _ IH Eb Er HD].
    - rewrite E1 in Es. injection Es as <-. rewrite (r_disk _ _ _ _ R), (r_hist _ _ _ _ R),
        (r_hist _ _ _ _ R1) in HD.
      apply elem_of_cons in HD as [->|HD]; [left; by eapply before_start|by eapply hist_in].
    - destruct (recover_ok pid _ s D T Hat IH) as (bs1 & s2 & A2 & Eb' & Er' & R2 & H2 & _).
      rewrite Eb in Eb'. injection Eb' as <-. rewrite Er in Er'. injection Er' as <-.
      rewrite (r_hist _ _ _ _ R2) in HD. by apply (hist_in _ [] A2). }
  destruct (recover_ok pid _ s D T Hat Hc) as (bs1 & s2 & A2 & Eb & Er & R2 & _ & Hfin).
  exists bs1, s2. do 2 (split; [done|]). rewrite (r_disk _ _ _ _ R2), (r_disk _ _ _ _ R).
  destruct Hfin as [(_ & Hh & Hf)|(_ & Hh & Hf)]; split; [done|by left|done|by right].
Qed.

(** ** A disk of 40 blocks with the log at block 2 *)

Definition sample_block (v : Z) : bdata := replicate (Z.to_nat BSIZE) v.
Definition sample_disk : list bdata := replicate 40 (sample_block 0).
Definition sample_astate : astate := AState sample_disk ∅ [].
Definition sample_log (outstanding : Z) : logst :=
  LogSt 2 LOGSIZE outstanding 0 1 (LogHeader 0 (replicate (Z.to_nat LOGSIZE) 0))
    (BState (booted <$> seq 0 (S NBUF)) sample_disk []).

Lemma sample_rep pid o : rep pid sample_astate ∅ (lg_bs (sample_log o)).
Proof.
  destruct (binit_ok pid sample_disk []) as (s & E & R & _).
  - by apply Forall_replicate.
  - rewrite binit_run in E. injection E as <-. exact R.
Qed.

Lemma sample_log_inv o : log_inv sample_astate (sample_log o).
Proof.
  split; simpl.
  - done.
  - by vm_compute.
  - done.
  - by vm_compute.
  - intros i Hi. lia.
  - intros m. rewrite lookup_empty. split; [by intros [? ?]|]. intros (i & Hi & _). lia.
  - by vm_compute.
Qed.

Lemma sample_update_ok o v m :
  32 <= m < 40 -> update_ok (sample_log o) sample_astate (m, fun _ => sample_block v).
Proof.
  intros Hm. split; [simpl; lia|]. split; [simpl; unfold LOGSIZE, MAXOPBLOCKS; lia|].
  intros x _. apply length_replicate.
Qed.

Lemma transaction_spec_witness :
  exists s', transaction 1 [(35, fun _ => sample_block 7); (36, fun _ => sample_block 9)]
      (sample_log 0) = Done tt s' /\
    blk (bs_disk (lg_bs s')) 36 = sample_block 9.
Proof.
  destruct (transaction_spec 1 sample_astate (sample_log 0)
    [(35, fun _ => sample_block 7); (36, fun _ => sample_block 9)]
    (sample_rep 1 0) (sample_log_inv 0) eq_refl eq_refl eq_refl)
    as (s' & A' & E & _ & _ & _ & _ & _ & V).
  - apply Forall_cons; split; [apply sample_update_ok; lia|].
    apply Forall_singleton, sample_update_ok. lia.
  - by vm_compute.
  - exists s'. split; [exact E|]. rewrite V; [reflexivity|].
    unfold home, in_log. simpl. unfold LOGSIZE, MAXOPBLOCKS. lia.
Defined.

Lemma commit_atomic_witness :
  exists s D, crash_disk 1 s D /\
    (exists s', commit 1 s = Done tt s' /\ blk (bs_disk (lg_bs s')) 35 = sample_block 7) /\
    exists bs s', binit (BState zero_bcache D []) = Done tt bs /\
      recover_from_log 1 (fresh s bs) = Done tt s'.
Proof.
  destruct (log_update_ok 1 sample_astate (sample_log 1) 35 (fun _ => sample_block 7)
    (sample_rep 1 1) (sample_log_inv 1)) as (s & _ & R & I & (S1 & S2 & _) & _).
  - apply sample_update_ok. lia.
  - done.
  - by vm_compute.
  - destruct (commit_atomic 1 _ s R I) as [(s' & E & V) C].
    assert (HD : crash_disk 1 s (bs_disk (lg_bs s))) by (eapply CrashCommit; [exact E|by left]).
    exists s, (bs_disk (lg_bs s)). split; [exact HD|]. split.
    + exists s'. split; [exact E|]. rewrite V; [reflexivity|].
      unfold home, in_log. simpl. rewrite S1, S2. simpl. unfold LOGSIZE, MAXOPBLOCKS. lia.
    + destruct (C _ HD) as (bs & s2 & E1 & E2 & _). eauto.
Defined.

(** ** Reservation and capacity *)

(** [begin_op] reserves [MAXOPBLOCKS] blocks for each operation and admits three
    operations at once in a log of [LOGSIZE] blocks, 30 blocks in all; but the header
    takes one of the log's blocks, and [log_write] panics once 29 blocks are logged,
    even for a block that is already in the log. *)
Theorem log_reservation_gap s b :
  lg_size s = LOGSIZE ->
  (lh_n (lg_lh s) = 0 -> lg_outstanding s = 2 -> lg_committing s = 0 ->
     begin_op s = Done tt (set_outstanding 3 s)) /\
  (lh_n (lg_lh s) = 29 -> log_write b s = Panic "too big a transaction").
Proof.
  intros Hs. split.
  - intros Hn Ho Hc. unfold begin_op. mstep. by rewrite Hn, Ho, Hc.
  - intros Hn. unfold log_write. mstep. by rewrite Hs, Hn.
Qed.

Lemma log_reservation_gap_witness :
  begin_op (sample_log 2) = Done tt (sample_log 3) /\
  log_write 0 (set_n 29 (sample_log 3)) = Panic "too big a transaction".
Proof.
  split.
  - by apply (log_reservation_gap (sample_log 2) 0).
  - by apply (log_reservation_gap (set_n 29 (sample_log 3)) 0).
Defined.
