(* ===== verification/Grep.v ===== *)
(** * The pattern matcher and the line filter of grep (grep.c)

    Strings are lists of non-zero bytes, the end of the list being the terminating
    zero. [matchhere] recurses on the pattern; the loop of [matchstar] runs over the
    text inside it. The specification parses the pattern into items and gives each
    list of items its language. *)

From stdpp Require Import base tactics numbers list strings.
From Stdlib Require Import ZArith Lia ZifyNat.
From S2P Require Import Prelude.

Definition CARET : Z := 94.
Definition DOLLAR : Z := 36.
Definition DOT : Z := 46.
Definition STAR : Z := 42.
Definition NL : Z := 10.

(** [matchstar], for the [matchhere] of the rest of the pattern. *)
Fixpoint matchstar (here : list Z -> bool) (c : Z) (text : list Z) : bool :=
  here text ||
  match text with
  | [] => false
  | x :: text => ((x =? c) || (c =? DOT)) && matchstar here c text
  end.

Fixpoint matchhere (re text : list Z) : bool :=
  match re with
  | [] => true
  | c :: re1 =>
      let one :=
        match text with
        | [] => false
        | x :: text1 => ((c =? DOT) || (c =? x)) && matchhere re1 text1
        end in
      match re1 with
      | [] => if c =? DOLLAR then match text with [] => true | _ => false end else one
      | d :: re2 => if d =? STAR then matchstar (matchhere re2) c text else one
      end
  end.

(** The loop of [match] over the positions of the text. *)
Fixpoint match_anywhere (re text : list Z) : bool :=
  matchhere re text ||
  match text with
  | [] => false
  | _ :: text => match_anywhere re text
  end.

Definition match_ (re text : list Z) : bool :=
  match re with
  | c :: re1 => if c =? CARET then matchhere re1 text else match_anywhere re text
  | [] => match_anywhere re text
  end.

(** ** The filter

    The inner loop of [grep] on the bytes of the buffer: it cuts off one line after
    another and writes the matching ones. It returns what it wrote and the bytes from
    [p] on; [line] is the part of the current line already passed by [strchr]. *)
Fixpoint grep_lines (pattern line buf : list Z) : list Z * list Z :=
  match buf with
  | [] => ([], line)
  | x :: buf =>
      if x =? NL then
        let '(out, p) := grep_lines pattern [] buf in
        ((if match_ pattern line then line ++ [NL] else []) ++ out, p)
      else grep_lines pattern (line ++ [x]) buf
  end.

(** The outer loop: each element of [reads] is what one call of [read] brings, [kept]
    the [m] bytes kept in the buffer. *)
Fixpoint grep_loop (pattern kept : list Z) (reads : list (list Z)) : list Z :=
  match reads with
  | [] => []
  | [] :: _ => []
  | chunk :: reads =>
      let buf := kept ++ chunk in
      let '(out, p) := grep_lines pattern [] buf in
      let m := if (length p =? length buf)%nat then 0%nat else length p in
      out ++ grep_loop pattern (if (m =? 0)%nat then [] else p) reads
  end.
Definition grep (pattern : list Z) (reads : list (list Z)) : list Z := grep_loop pattern [] reads.

(** ** The language of a pattern *)

Inductive atom := Any | Chr (c : Z).
Inductive item := One (a : atom) | Many (a : atom).

Definition the_atom (c : Z) : atom := if c =? DOT then Any else Chr c.

(** The items of a pattern, and whether it ends with [$]. *)
Fixpoint items (re : list Z) : list item * bool :=
  match re with
  | [] => ([], false)
  | c :: re1 =>
      let one := let '(l, e) := items re1 in (One (the_atom c) :: l, e) in
      match re1 with
      | [] => if c =? DOLLAR then ([], true) else one
      | d :: re2 => if d =? STAR then let '(l, e) := items re2 in (Many (the_atom c) :: l, e)
                    else one
      end
  end.

Definition fits (a : atom) (x : Z) : Prop := match a with Any => True | Chr c => x = c end.

Inductive lang : list item -> list Z -> Prop :=
  | L_nil : lang [] []
  | L_one a l x s : fits a x -> lang l s -> lang (One a :: l) (x :: s)
  | L_many a l u s : Forall (fits a) u -> lang l s -> lang (Many a :: l) (u ++ s).

(** [text] begins with a match, which is all of it if the pattern ends with [$]. *)
Definition prefix_match (l : list item) (e : bool) (text : list Z) : Prop :=
  exists s rest, text = s ++ rest /\ lang l s /\ (e = true -> rest = []).

Lemma fits_spec c x : (((c =? DOT) || (c =? x)) = true) <-> fits (the_atom c) x.
Proof.
  unfold the_atom. destruct (Z.eqb_spec c DOT); simpl; [tauto|]. rewrite Z.eqb_eq. naive_solver.
Qed.

Lemma fits_spec_star c x : (((x =? c) || (c =? DOT)) = true) <-> fits (the_atom c) x.
Proof. by rewrite <- fits_spec, orb_comm, (Z.eqb_sym x c). Qed.

Lemma prefix_one a l e text :
  prefix_match (One a :: l) e text <->
  exists x text1, text = x :: text1 /\ fits a x /\ prefix_match l e text1.
Proof.
  split.
  - intros (s & rest & -> & Hl & He). inversion Hl; subst. exists x, (s0 ++ rest).
    split; [done|]. split; [done|]. by exists s0, rest.
  - intros (x & text1 & -> & Hf & s & rest & -> & Hl & He). exists (x :: s), rest.
    split; [done|]. split; [by constructor|done].
Qed.

Lemma prefix_many a l e text :
  prefix_match (Many a :: l) e text <->
  prefix_match l e text \/
  exists x text1, text = x :: text1 /\ fits a x /\ prefix_match (Many a :: l) e text1.
Proof.
  split.
  - intros (s & rest & -> & Hl & He). inversion Hl as [| |? ? u s' Hu Hs]; subst.
    destruct u as [|x u]; [left; by exists s', rest|right].
    apply Forall_cons in Hu as [Hx Hu]. exists x, ((u ++ s') ++ rest). split; [done|]. split; [done|].
    exists (u ++ s'), rest. split; [done|]. split; [by constructor|done].
  - intros [(s & rest & -> & Hl & He)|(x & text1 & -> & Hx & s & rest & -> & Hl & He)].
    + exists s, rest. split; [done|]. split; [by apply (L_many a l [] s)|done].
    + inversion Hl as [| |? ? u s' Hu Hs]; subst. exists (x :: u ++ s'), rest.
      split; [done|]. split; [|done]. apply (L_many a l (x :: u) s'); [by constructor|done].
Qed.

Lemma matchstar_spec here c l e text :
  (forall t, here t = true <-> prefix_match l e t) ->
  matchstar here c text = true <-> prefix_match (Many (the_atom c) :: l) e text.
Proof.
  intros Hh. induction text as [|x text IH]; simpl; rewrite prefix_many, orb_true_iff, Hh.
  - split; [intros [?|?]; [by left|done]|]. intros [?|(? & ? & ? & _)]; [by left|done].
  - rewrite andb_true_iff, IH, fits_spec_star. split.
    + intros [?|[? ?]]; [by left|right; eauto].
    + intros [?|(y & t & [= <- <-] & ? & ?)]; [by left|by right].
Qed.

Lemma matchhere_one c l e text (here : list Z -> bool) :
  (forall t, here t = true <-> prefix_match l e t) ->
  match text with [] => false | x :: text1 => ((c =? DOT) || (c =? x)) && here text1 end = true <->
  prefix_match (One (the_atom c) :: l) e text.
Proof.
  intros Hh. rewrite prefix_one. destruct text as [|x text].
  - split; [done|]. by intros (? & ? & ? & _).
  - rewrite andb_true_iff, fits_spec, Hh. split; [eauto|].
    by intros (y & t & [= <- <-] & ? & ?).
Qed.

Lemma matchhere_cons c d re text :
  matchhere (c :: d :: re) text =
    if d =? STAR then matchstar (matchhere re) c text
    else match text with
         | [] => false
         | x :: text => ((c =? DOT) || (c =? x)) && matchhere (d :: re) text
         end.
Proof. reflexivity. Qed.

Lemma items_cons c d re :
  items (c :: d :: re) =
    if d =? STAR then (Many (the_atom c) :: fst (items re), snd (items re))
    else (One (the_atom c) :: fst (items (d :: re)), snd (items (d :: re))).
Proof.
  change (items (c :: d :: re)) with
    (if d =? STAR then let '(l, e) := items re in (Many (the_atom c) :: l, e)
     else let '(l, e) := items (d :: re) in (One (the_atom c) :: l, e)).
  destruct (d =? STAR); [by destruct (items re)|by destruct (items (d :: re))].
Qed.

Lemma matchhere_spec re text :
  matchhere re text = true <-> prefix_match (fst (items re)) (snd (items re)) text.
Proof.
  revert text. remember (length re) as n eqn:Hn. revert re Hn.
  induction (lt_wf n) as [n _ IH]. intros [|c re1] -> text.
  { simpl. split; [|done]. intros _. exists [], text. split; [done|]. split; [constructor|done]. }
  assert (One_ : forall t, match t with [] => false | x :: t1 => ((c =? DOT) || (c =? x)) && matchhere re1 t1 end
      = true <-> prefix_match (One (the_atom c) :: fst (items re1)) (snd (items re1)) t).
  { intros t. apply matchhere_one. intros t1. apply (IH (length re1)); simpl; [lia|done]. }
  destruct re1 as [|d re2].
  - simpl. destruct (c =? DOLLAR) eqn:E; [|by apply One_]. simpl. destruct text as [|x text].
    + split; [|done]. intros _. exists [], []. split; [done|]. split; [constructor|done].
    + split; [done|]. intros (s & rest & Ht & Hl & He). inversion Hl; subst. by rewrite He in Ht.
  - rewrite matchhere_cons, items_cons. destruct (d =? STAR); [|by apply One_].
    apply matchstar_spec. intros t. apply (IH (length re2)); simpl; [lia|done].
Qed.

Lemma match_anywhere_spec re text :
  match_anywhere re text = true <-> exists pre t, text = pre ++ t /\ matchhere re t = true.
Proof.
  induction text as [|x text IH]; simpl; rewrite orb_true_iff.
  - split.
    + intros [?|?]; [|done]. by exists [], [].
    + intros (pre & t & E & Hm). symmetry in E. apply app_eq_nil in E as [-> ->]. by left.
  - rewrite IH. split.
    + intros [?|(pre & t & -> & Hm)]; [by exists [], (x :: text)|by exists (x :: pre), t].
    + intros ([|y pre] & t & E & Hm); simpl in E; [left; by rewrite E|].
      injection E as <- ->. right. eauto.
Qed.

(** C36. [match] is a correct and complete matcher: it answers 1 exactly when some part
    of the text belongs to the language of the pattern's items, a part at the start of
    the text if the pattern begins with [^] and at its end if it ends with [$]. *)
Theorem match_correct re text :
  let anchored := match re with c :: _ => c =? CARET | [] => false end in
  let body := if anchored then drop 1 re else re in
  match_ re text = true <->
  exists pre s post, text = pre ++ s ++ post /\ lang (fst (items body)) s /\
    (anchored = true -> pre = []) /\ (snd (items body) = true -> post = []).
Proof.
  assert (K : forall re1, match_anywhere re1 text = true <->
    exists pre s post, text = pre ++ s ++ post /\ lang (fst (items re1)) s /\
      (false = true -> pre = []) /\ (snd (items re1) = true -> post = [])).
  { intros re1. rewrite match_anywhere_spec. split.
    - intros (pre & t & -> & (s & post & -> & Hl & He)%matchhere_spec). by exists pre, s, post.
    - intros (pre & s & post & -> & Hl & _ & He). exists pre, (s ++ post). split; [done|].
      apply matchhere_spec. by exists s, post. }
  destruct re as [|c re]; simpl; [apply K|]. destruct (c =? CARET) eqn:E; [|apply K].
  rewrite drop_0, matchhere_spec. split.
  - intros (s & post & -> & Hl & He). by exists [], s, post.
  - intros (pre & s & post & -> & Hl & Hp & He). rewrite Hp by done. by exists s, post.
Qed.

(** ** Lines *)

(** Lines joined to a text that ends with the unfinished line [last]. *)
Definition joined (lines : list (list Z)) (last : list Z) : list Z :=
  foldr (fun l t => l ++ NL :: t) last lines.

(** The complete lines of a text that match, each with its newline. *)
Definition filtered (pattern : list Z) (lines : list (list Z)) : list Z :=
  joined (filter (fun l => match_ pattern l = true) lines) [].

Definition is_line (l : list Z) : Prop := NL ∉ l.

Lemma grep_lines_plain pattern line l :
  is_line l -> grep_lines pattern line l = ([], line ++ l).
Proof.
  revert line. induction l as [|x l IH]; intros line Hl; simpl; [by rewrite app_nil_r|].
  apply not_elem_of_cons in Hl as [Hx Hl]. rewrite (proj2 (Z.eqb_neq x NL)) by done.
  rewrite IH by done. by rewrite <- app_assoc.
Qed.

Lemma grep_lines_newline pattern line l buf :
  is_line l ->
  grep_lines pattern line (l ++ NL :: buf) =
    let '(out, p) := grep_lines pattern [] buf in
    ((if match_ pattern (line ++ l) then (line ++ l) ++ [NL] else []) ++ out, p).
Proof.
  revert line. induction l as [|x l IH]; intros line Hl; simpl.
  - by rewrite app_nil_r.
  - apply not_elem_of_cons in Hl as [Hx Hl]. rewrite (proj2 (Z.eqb_neq x NL)) by done.
    rewrite IH by done. by rewrite <- app_assoc.
Qed.

Lemma filtered_cons pattern l lines :
  filtered pattern (l :: lines) =
    (if match_ pattern l then l ++ [NL] else []) ++ filtered pattern lines.
Proof.
  unfold filtered. rewrite filter_cons. destruct (match_ pattern l) eqn:E.
  - rewrite decide_True by done. simpl. by rewrite <- app_assoc.
  - by rewrite decide_False.
Qed.

Lemma filtered_app pattern l1 l2 :
  filtered pattern (l1 ++ l2) = filtered pattern l1 ++ filtered pattern l2.
Proof.
  induction l1 as [|l l1 IH]; [done|]. simpl. by rewrite !filtered_cons, IH, app_assoc.
Qed.

Lemma grep_lines_spec pattern lines last :
  Forall is_line lines -> is_line last ->
  grep_lines pattern [] (joined lines last) = (filtered pattern lines, last).
Proof.
  intros Hl Hlast. induction Hl as [|l lines Hl _ IH].
  - simpl. by rewrite grep_lines_plain.
  - simpl. rewrite grep_lines_newline, IH, filtered_cons by done. done.
Qed.

(** A run of [read] calls, each of which completes at least one line. *)
Inductive line_reads : list Z -> list (list Z) -> list (list Z) -> Prop :=
  | LR_nil kept : is_line kept -> line_reads kept [] []
  | LR_read kept chunk reads l lines last more :
      chunk <> [] -> is_line kept -> Forall is_line (l :: lines) -> is_line last ->
      kept ++ chunk = joined (l :: lines) last ->
      line_reads last reads more ->
      line_reads kept (chunk :: reads) ((l :: lines) ++ more).

Lemma length_joined lines last : (length last <= length (joined lines last))%nat.
Proof. induction lines as [|l lines IH]; simpl; [lia|]. rewrite length_app. simpl. lia. Qed.

Lemma grep_loop_lines pattern kept reads lines :
  line_reads kept reads lines -> grep_loop pattern kept reads = filtered pattern lines.
Proof.
  induction 1 as [|kept chunk reads l lines last more Hne Hk Hl Hlast E _ IH]; [done|].
  cbn [grep_loop]. destruct chunk as [|x chunk]; [done|]. rewrite E, grep_lines_spec by done.
  rewrite (proj2 (Nat.eqb_neq (length last) (length (joined (l :: lines) last)))), filtered_app.
  - destruct (Nat.eqb_spec (length last) 0) as [E0|_].
    + apply length_zero_iff_nil in E0. subst last. by rewrite IH.
    + by rewrite IH.
  - change (joined (l :: lines) last) with (l ++ NL :: joined lines last).
    rewrite length_app. simpl. pose proof (length_joined lines last). lia.
Qed.



(** A [read] that brings only the beginning of a line makes grep forget it: the
    pattern [abc] is found in the line [abc] read at once, and missed when the line
    arrives as [ab] and [c]. *)
Theorem grep_loses_partial_line :
  grep [97; 98; 99] [[97; 98; 99; NL]] = [97; 98; 99; NL] /\
  grep [97; 98; 99] [[97; 98]; [99; NL]] = [].
Proof. done. Qed.
