(* ===== verification/Printf.v ===== *)
(** * Formatted output of user programs (printf.c)

    The bytes given to [putc], in order, are the result. A format is the list of its
    bytes; the arguments are the words after it on the stack, and [%s] reads its
    string from memory. *)

From stdpp Require Import base tactics numbers list strings.
From Stdlib Require Import ZArith Lia ZifyNat.
From S2P Require Import Prelude CString Ulib.

Definition PERCENT : Z := 37.
Definition MINUS : Z := 45.

(** [digits[d]] of the string 0123456789ABCDEF. *)
Definition digit_char (d : Z) : Z := if d <? 10 then 48 + d else 55 + d.

(** [do { buf[i++] = digits[x % base]; } while((x /= base) != 0)]: the buffer, first
    entry first. [x] is below 2^32 and [base] at least 10, so ten turns are enough. *)
Fixpoint digits_loop (x base : Z) (fuel : nat) : list Z :=
  match fuel with
  | O => []
  | S fuel =>
      digit_char (x mod base) ::
      (if x / base =? 0 then [] else digits_loop (x / base) base fuel)
  end.

(** The contents of [buf] when printing starts, and the bytes printed from its end. *)
Definition printint_buf (xx base : Z) (sgn : bool) : list Z :=
  let neg := sgn && (s32 xx <? 0) in
  let x := if neg then u32 (- s32 xx) else u32 xx in
  digits_loop x base 10 ++ (if neg then [MINUS] else []).
Definition printint (xx base : Z) (sgn : bool) : list Z := reverse (printint_buf xx base sgn).

(** The bytes of the string at [s]. *)
Fixpoint read_str (m : mem) (s : Z) (fuel : nat) : option (list Z) :=
  match fuel with
  | O => None
  | S fuel => if m s =? 0 then Some [] else option_map (cons (m s)) (read_str m (s + 1) fuel)
  end.

Definition null_str : list Z := [40; 110; 117; 108; 108; 41].

(** What follows a [%]: the bytes printed and the arguments left. *)
Definition directive (m : mem) (fuel : nat) (c : Z) (ap : list Z) : option (list Z * list Z) :=
  if c =? 100 then
    match ap with w :: ap => Some (printint w 10 true, ap) | [] => None end
  else if (c =? 120) || (c =? 112) then
    match ap with w :: ap => Some (printint w 16 false, ap) | [] => None end
  else if c =? 115 then
    match ap with
    | w :: ap => option_map (fun s => (s, ap)) (if w =? 0 then Some null_str else read_str m w fuel)
    | [] => None
    end
  else if c =? 99 then
    match ap with w :: ap => Some ([u8 w], ap) | [] => None end
  else if c =? PERCENT then Some ([c], ap)
  else Some ([PERCENT; c], ap).

(** The loop over the format; [state] is whether the last byte was [%]. [None]: an
    argument is missing or a string is not terminated within [fuel] bytes. *)
Fixpoint printf_loop (m : mem) (fuel : nat) (state : bool) (fmt ap : list Z) : option (list Z) :=
  match fmt with
  | [] => Some []
  | c :: fmt =>
      if state then
        match directive m fuel c ap with
        | Some (out, ap) => option_map (app out) (printf_loop m fuel false fmt ap)
        | None => None
        end
      else if c =? PERCENT then printf_loop m fuel true fmt ap
      else option_map (cons c) (printf_loop m fuel false fmt ap)
  end.
Definition printf (m : mem) (fuel : nat) (fmt ap : list Z) : option (list Z) :=
  printf_loop m fuel false fmt ap.

(** ** Numbers *)

(** The value of digits, the least significant first. *)
Definition digit_value (c : Z) : Z := if c <? 58 then c - 48 else c - 55.
Fixpoint value_rev (base : Z) (l : list Z) : Z :=
  match l with
  | [] => 0
  | c :: l => digit_value c + base * value_rev base l
  end.

Lemma digit_value_char d : 0 <= d -> digit_value (digit_char d) = d.
Proof.
  intros. unfold digit_value, digit_char. destruct (Z.ltb_spec d 10).
  - destruct (Z.ltb_spec (48 + d) 58); lia.
  - destruct (Z.ltb_spec (55 + d) 58); lia.
Qed.

Lemma digits_loop_value x base fuel :
  2 <= base -> 0 <= x < base ^ Z.of_nat fuel -> value_rev base (digits_loop x base fuel) = x.
Proof.
  intros Hb. revert x. induction fuel as [|fuel IH]; intros x Hx; [simpl in *; lia|].
  cbn [digits_loop value_rev]. rewrite digit_value_char by (apply Z.mod_pos_bound; lia).
  rewrite Nat2Z.inj_succ, Z.pow_succ_r in Hx by lia.
  assert (Hq : 0 <= x / base < base ^ Z.of_nat fuel).
  { split; [apply Z.div_pos; lia|]. apply Z.div_lt_upper_bound; lia. }
  pose proof (Z.div_mod x base ltac:(lia)). destruct (Z.eqb_spec (x / base) 0) as [E|E].
  - simpl. lia.
  - rewrite IH by done. lia.
Qed.

Lemma digits_loop_dec x fuel :
  0 <= x -> Forall (fun c => is_digit c = true) (digits_loop x 10 fuel).
Proof.
  revert x. induction fuel as [|fuel IH]; intros x Hx; simpl; [done|]. constructor.
  - unfold digit_char, is_digit. pose proof (Z.mod_pos_bound x 10).
    destruct (Z.ltb_spec (x mod 10) 10); [|lia]. apply andb_true_iff. lia.
  - destruct (x / 10 =? 0); [done|]. apply IH. apply Z.div_pos; lia.
Qed.

Lemma digits_loop_length x base fuel : (length (digits_loop x base fuel) <= fuel)%nat.
Proof.
  revert x. induction fuel as [|fuel IH]; intros x; simpl; [lia|].
  destruct (x / base =? 0); simpl; [lia|]. specialize (IH (x / base)). lia.
Qed.

Lemma dec_value_app l k n : dec_value (l ++ k) n = dec_value k (dec_value l n).
Proof. apply fold_left_app. Qed.

Lemma dec_value_reverse l :
  Forall (fun c => is_digit c = true) l -> dec_value (reverse l) 0 = value_rev 10 l.
Proof.
  induction 1 as [|c l Hc _ IH]; [done|].
  rewrite reverse_cons, dec_value_app, IH. simpl. unfold digit_value.
  unfold is_digit in Hc. apply andb_true_iff in Hc as [? ?].
  destruct (Z.ltb_spec c 58); lia.
Qed.

(** The value of a printed decimal number. *)
Definition parse_int (s : list Z) : Z :=
  match s with
  | c :: s' => if c =? MINUS then - dec_value s' 0 else dec_value s 0
  | [] => 0
  end.

Lemma digits_loop_nonempty x base fuel : fuel <> O -> digits_loop x base fuel <> [].
Proof. by destruct fuel. Qed.

Lemma digits_nat x :
  0 <= x < 4294967296 ->
  dec_value (reverse (digits_loop x 10 10)) 0 = x /\
  Forall (fun c => is_digit c = true) (reverse (digits_loop x 10 10)).
Proof.
  intros Hx. pose proof (digits_loop_dec x 10 ltac:(lia)) as F. split.
  - rewrite dec_value_reverse by done. apply digits_loop_value; [lia|].
    change (10 ^ Z.of_nat 10) with 10000000000. lia.
  - by apply Forall_reverse.
Qed.

Lemma parse_digits l : Forall (fun c => is_digit c = true) l -> parse_int l = dec_value l 0.
Proof.
  destruct l as [|c l]; [done|]. intros [Hc _]%Forall_cons. simpl.
  destruct (Z.eqb_spec c MINUS) as [->|]; [done|done].
Qed.

Lemma parse_minus l : parse_int (MINUS :: l) = - dec_value l 0.
Proof. reflexivity. Qed.

(** [printint] in base 10 prints every [int] so that reading it back gives the
    number, and it never writes past the 16 bytes of its buffer. *)
Theorem printint_roundtrip v :
  -2147483648 <= v < 2147483648 ->
  parse_int (printint v 10 true) = v /\ (length (printint_buf v 10 true) <= 16)%nat.
Proof.
  intros Hv. unfold printint, printint_buf. rewrite s32_small by lia. split.
  - destruct (Z.ltb_spec v 0) as [Hn|Hn]; simpl andb; cbv iota.
    + rewrite reverse_app. rewrite u32_small by lia.
      change (reverse [MINUS]) with [MINUS]. cbn [app]. rewrite parse_minus.
      destruct (digits_nat (- v)) as [-> _]; lia.
    + rewrite app_nil_r. rewrite u32_small by lia. destruct (digits_nat v) as [E F]; [lia|].
      by rewrite parse_digits.
  - rewrite length_app. destruct (true && (v <? 0)).
    + pose proof (digits_loop_length (u32 (- v)) 10 10). cbn [length]. lia.
    + pose proof (digits_loop_length (u32 v) 10 10). cbn [length]. lia.
Qed.

Lemma printint_roundtrip_witness : parse_int (printint (-2147483648) 10 true) = -2147483648.
Proof. apply (printint_roundtrip (-2147483648)). lia. Defined.

(** [atoi] is the inverse of [printint] on the numbers it can read: on a memory
    that holds the printed form of a non-negative [int], ended by a byte that is not a
    digit, it returns the number. *)
Theorem atoi_printint m a v fuel :
  0 <= v < 2147483648 ->
  (forall i c, printint v 10 true !! i = Some c -> m (a + Z.of_nat i) = c) ->
  is_digit (m (a + Z.of_nat (length (printint v 10 true)))) = false ->
  (11 < fuel)%nat -> atoi m a fuel = Some v.
Proof.
  intros Hv Hm He Hf. unfold printint, printint_buf in *. rewrite s32_small in * by lia.
  rewrite (proj2 (Z.ltb_ge v 0)) in * by lia. simpl andb in *. cbv iota in *.
  rewrite u32_small, app_nil_r in * by lia. destruct (digits_nat v) as [E F]; [lia|].
  unfold atoi. replace (atoi_loop m a 0 fuel) with (atoi_loop m a (s32 0) fuel) by done.
  erewrite (atoi_loop_spec m a (reverse (digits_loop v 10 10)) _ 0 fuel).
  - by rewrite E, s32_small by lia.
  - intros i c Hi. split; [by apply Hm|]. by apply (Forall_lookup_1 _ _ _ _ F Hi).
  - done.
  - done.
  - rewrite length_reverse. pose proof (digits_loop_length v 10 10). lia.
Qed.

Lemma atoi_printint_witness :
  atoi (fun x => default 0 ([52; 50] !! Z.to_nat x)) 0 20 = Some 42.
Proof.
  apply (atoi_printint _ 0 42); [lia| |reflexivity|lia].
  intros i c Hi. change (printint 42 10 true) with [52; 50] in Hi.
  replace (Z.to_nat (0 + Z.of_nat i)) with i by lia. by rewrite Hi.
Defined.

(** ** Formats *)

Inductive piece := Lit (c : Z) | PInt (w : Z) | PHex (w : Z) | PStr (a : Z) (s : list Z) | PChar (w : Z) | PPercent.

(** The bytes of a format and its arguments; what each piece prints. *)
Definition piece_fmt (p : piece) : list Z :=
  match p with
  | Lit c => [c]
  | PInt _ => [PERCENT; 100] | PHex _ => [PERCENT; 120] | PStr _ _ => [PERCENT; 115]
  | PChar _ => [PERCENT; 99] | PPercent => [PERCENT; PERCENT]
  end.
Definition piece_args (p : piece) : list Z :=
  match p with
  | Lit _ | PPercent => []
  | PInt w | PHex w | PStr w _ | PChar w => [w]
  end.
Definition piece_out (p : piece) : list Z :=
  match p with
  | Lit c => [c]
  | PInt w => printint w 10 true | PHex w => printint w 16 false
  | PStr a s => if a =? 0 then null_str else s
  | PChar w => [u8 w] | PPercent => [PERCENT]
  end.
Definition piece_ok (m : mem) (fuel : nat) (p : piece) : Prop :=
  match p with
  | Lit c => c <> PERCENT
  | PStr a s => a = 0 \/ (cstr m a s /\ (length s < fuel)%nat)
  | _ => True
  end.

Lemma read_str_cstr m a s fuel : cstr m a s -> (length s < fuel)%nat -> read_str m a fuel = Some s.
Proof.
  revert a fuel. induction s as [|c s IH]; intros a [|fuel] Hc Hf; simpl in *; try lia.
  - by rewrite Hc.
  - destruct Hc as (E & Hnz & Hc). rewrite E, (proj2 (Z.eqb_neq c 0)) by done.
    by rewrite IH by (done || lia).
Qed.

(** [printf] prints a format piece by piece: literal bytes as they are, each
    directive with its own argument. *)
Theorem printf_pieces m fuel ps :
  Forall (piece_ok m fuel) ps ->
  printf m fuel (concat (piece_fmt <$> ps)) (concat (piece_args <$> ps)) =
    Some (concat (piece_out <$> ps)).
Proof.
  unfold printf. induction 1 as [|p ps Hp _ IH]; [done|].
  rewrite !fmap_cons. cbn [concat]. destruct p as [c|w|w|a s|w|]; cbn [piece_fmt piece_args piece_out app].
  - simpl in Hp. cbn [printf_loop]. rewrite (proj2 (Z.eqb_neq c PERCENT)) by done. by rewrite IH.
  - cbn. cbn in IH. rewrite IH. done.
  - cbn. cbn in IH. rewrite IH. done.
  - cbn [printf_loop]. change (PERCENT =? PERCENT) with true. cbv iota.
    unfold directive. cbn [Z.eqb Pos.eqb orb]. destruct Hp as [->|[Hc Hf]].
    + cbn. cbn in IH. rewrite IH. done.
    + destruct (Z.eqb_spec a 0) as [->|Hne].
      * cbn. cbn in IH. rewrite IH. done.
      * rewrite (read_str_cstr m a s fuel) by done. cbn [option_map]. by rewrite IH.
  - cbn. cbn in IH. rewrite IH. done.
  - cbn. cbn in IH. rewrite IH. done.
Qed.

Lemma printf_pieces_witness :
  printf (fun _ => 0) 4 [112; PERCENT; 100; PERCENT; PERCENT] [7] = Some [112; 55; PERCENT].
Proof.
  apply (printf_pieces (fun _ => 0) 4 [Lit 112; PInt 7; PPercent]).
  repeat (apply Forall_cons; split; [done|]). apply Forall_nil. done.
Defined.
