(* ===== verification/Console.v ===== *)
(** * The console and the serial port (console.c, uart.c, and procdump of proc.c)

    The screen is the CGA memory [crt] and the cursor position, which the code keeps in two
    registers of the controller; [cn_out] is what went to the serial port. The input buffer
    is the array with its three counters. What runs under [cons.lock] is one step, so a lock
    found held is held by the same processor. [consoleread] is split where it sleeps;
    [cn_sleepers] are the processes asleep on [&input.r]. The inode lock that the callers of
    [consoleread] and [consolewrite] hold, and which both release meanwhile, is not part of
    this state. *)

From stdpp Require Import base tactics numbers list strings.
From Stdlib Require Import ZArith Lia ZifyNat.
From S2P Require Import Prelude Layout Spinlock PTable.

Definition BACKSPACE : Z := 0x100.
Definition INPUT_BUF : Z := 128.
(** [C(x)], for a character code. *)
Definition Ctl (x : Z) : Z := x - 64.
Definition CtlD : Z := Ctl 68.
Definition CtlH : Z := Ctl 72.
Definition CtlP : Z := Ctl 80.
Definition CtlU : Z := Ctl 85.
Definition NEWLINE : Z := 10.
Definition RETURN : Z := 13.
Definition DELETE : Z := 0x7f.

Record input := Input {
  in_buf : list Z;
  in_r : Z;
  in_w : Z;
  in_e : Z }.

(** [cn_uart]: is there a uart; [cn_locked]: [cons.lock] is held. *)
Record console := Console {
  cn_input : input;
  cn_crt : Z -> Z;
  cn_pos : Z;
  cn_uart : bool;
  cn_out : list Z;
  cn_locking : bool;
  cn_locked : bool;
  cn_panicked : bool;
  cn_sleepers : list Z }.

Definition set_input (v : input) (s : console) : console :=
  Console v (cn_crt s) (cn_pos s) (cn_uart s) (cn_out s) (cn_locking s) (cn_locked s) (cn_panicked s) (cn_sleepers s).
Definition set_screen (crt : Z -> Z) (pos : Z) (s : console) : console :=
  Console (cn_input s) crt pos (cn_uart s) (cn_out s) (cn_locking s) (cn_locked s) (cn_panicked s) (cn_sleepers s).
Definition set_serial (u : bool) (out : list Z) (s : console) : console :=
  Console (cn_input s) (cn_crt s) (cn_pos s) u out (cn_locking s) (cn_locked s) (cn_panicked s) (cn_sleepers s).
Definition set_locking (v : bool) (s : console) : console :=
  Console (cn_input s) (cn_crt s) (cn_pos s) (cn_uart s) (cn_out s) v (cn_locked s) (cn_panicked s) (cn_sleepers s).
Definition set_held (v : bool) (s : console) : console :=
  Console (cn_input s) (cn_crt s) (cn_pos s) (cn_uart s) (cn_out s) (cn_locking s) v (cn_panicked s) (cn_sleepers s).
Definition set_panicked (v : bool) (s : console) : console :=
  Console (cn_input s) (cn_crt s) (cn_pos s) (cn_uart s) (cn_out s) (cn_locking s) (cn_locked s) v (cn_sleepers s).
Definition set_sleepers (v : list Z) (s : console) : console :=
  Console (cn_input s) (cn_crt s) (cn_pos s) (cn_uart s) (cn_out s) (cn_locking s) (cn_locked s) (cn_panicked s) v.

(** [acquire(&cons.lock)] and [release(&cons.lock)]. *)
Definition cons_acquire : M console unit :=
  let! s := get in
  if cn_locked s then panic "acquire" else put (set_held true s).
Definition cons_release : M console unit :=
  let! s := get in
  if cn_locked s then put (set_held false s) else panic "release".

(** ** Output *)

(** The wait for the transmitter is bounded; the byte is written in any case. *)
Definition uartputc (c : Z) (s : console) : console :=
  if cn_uart s then set_serial true (cn_out s ++ [u8 c]) s else s.

(** [crt[i] = v] *)
Definition set_cell (crt : Z -> Z) (i v : Z) : Z -> Z := fun k => if k =? i then v else crt k.
(** [memmove(crt, crt+80, sizeof(crt[0])*23*80)], then the cells from [pos] set to 0. *)
Definition scroll (crt : Z -> Z) (pos : Z) : Z -> Z := fun k =>
  if (pos <=? k) && (k <? 24 * 80) then 0
  else if (0 <=? k) && (k <? 23 * 80) then crt (k + 80)
  else crt k.

Definition cgaputc (c : Z) : M console unit :=
  let! s := get in
  let pos := cn_pos s in
  let '(crt, pos) :=
    if c =? NEWLINE then (cn_crt s, pos + (80 - pos mod 80))
    else if c =? BACKSPACE then (cn_crt s, if 0 <? pos then pos - 1 else pos)
    else (set_cell (cn_crt s) pos (Z.lor (Z.land c 0xff) 0x0700), pos + 1) in
  if (pos <? 0) || (25 * 80 <? pos) then panic "pos under/overflow" else
  let '(crt, pos) := if 24 <=? pos / 80 then (scroll crt (pos - 80), pos - 80) else (crt, pos) in
  put (set_screen (set_cell crt pos (Z.lor 32 0x0700)) pos s).

(** A processor that finds [panicked] set loops for ever. *)
Definition consputc (c : Z) : M console unit :=
  let! p := gets cn_panicked in
  if p then block else
  modify (fun s => if c =? BACKSPACE then uartputc 8 (uartputc 32 (uartputc 8 s)) else uartputc c s) ;;;
  cgaputc c.

Fixpoint consputs (l : list Z) : M console unit :=
  match l with
  | [] => m_ret tt
  | c :: l => consputc c ;;; consputs l
  end.

(** [digits[d]] of the string 0123456789abcdef. *)
Definition cdigit (d : Z) : Z := if d <? 10 then 48 + d else 87 + d.

(** [x] is below 2^32 and [base] at least 10, so ten turns are enough. *)
Fixpoint cdigits (x base : Z) (fuel : nat) : list Z :=
  match fuel with
  | O => []
  | S fuel => cdigit (x mod base) :: (if x / base =? 0 then [] else cdigits (x / base) base fuel)
  end.
(** The characters [printint] puts, in order. *)
Definition cprintint (xx base : Z) (sgn : bool) : list Z :=
  let neg := sgn && (s32 xx <? 0) in
  let x := if neg then u32 (- s32 xx) else u32 xx in
  reverse (cdigits x base 10 ++ (if neg then [45] else [])).

(** A variable argument: a word, or a pointer to the bytes of a string (null is [None]). *)
Inductive carg :=
  | AInt (v : Z)
  | AStr (s : option (list Z)).

(** What a conversion puts and the arguments it leaves; [None] when the argument it reads is
    missing or of the other kind. *)
Definition cdirective (c : Z) (argp : list carg) : option (list Z * list carg) :=
  if c =? 100 then match argp with AInt v :: argp => Some (cprintint v 10 true, argp) | _ => None end
  else if (c =? 120) || (c =? 112) then
    match argp with AInt v :: argp => Some (cprintint v 16 false, argp) | _ => None end
  else if c =? 115 then
    match argp with
    | AStr s :: argp => Some (default [40; 110; 117; 108; 108; 41] s, argp)
    | _ => None
    end
  else if c =? 37 then Some ([37], argp)
  else Some ([37; c], argp).

Fixpoint cformat (fmt : list Z) (argp : list carg) : option (list Z) :=
  match fmt with
  | [] => Some []
  | c :: fmt =>
      if negb (c =? 37) then option_map (cons c) (cformat fmt argp)
      else match fmt with
           | [] => Some []
           | c :: fmt =>
               match cdirective c argp with
               | Some (out, argp) => option_map (app out) (cformat fmt argp)
               | None => None
               end
           end
  end.

(** [fmt] is null or the bytes of the format. A call whose arguments do not fit its format is
    given no meaning. *)
Definition cprintf (fmt : option (list Z)) (argp : list carg) : M console unit :=
  let! locking := gets cn_locking in
  when locking cons_acquire ;;;
  match fmt with
  | None => panic "null fmt"
  | Some fmt =>
      match cformat fmt argp with
      | Some out => consputs out
      | None => block
      end
  end ;;;
  when locking cons_release.

(** The bytes of a character array up to the first 0. *)
Fixpoint c_string (l : list Z) : list Z :=
  match l with
  | [] => []
  | c :: l => if c =? 0 then [] else c :: c_string l
  end.

(** [states[p->state]] *)
Definition state_name (st : procstate) : list Z :=
  match st with
  | UNUSED => [117; 110; 117; 115; 101; 100]
  | EMBRYO => [101; 109; 98; 114; 121; 111]
  | SLEEPING => [115; 108; 101; 101; 112; 32]
  | RUNNABLE => [114; 117; 110; 98; 108; 101]
  | RUNNING => [114; 117; 110; 32; 32; 32]
  | ZOMBIE => [122; 111; 109; 98; 105; 101]
  end.

(** [for(i = 0; i < 10 && pc[i] != 0; i++) cprintf(" %p", pc[i])] *)
Fixpoint dump_pcs (pcs : list Z) : M console unit :=
  match pcs with
  | [] => m_ret tt
  | pc :: pcs =>
      if pc =? 0 then m_ret tt
      else cprintf (Some [32; 37; 112]) [AInt pc] ;;; dump_pcs pcs
  end.

(** One entry of the process table; [m] is the kernel memory, with the stacks. *)
Definition dump_proc (m : mem) (p : proc) : M console unit :=
  if decide (p_state p = UNUSED) then m_ret tt
  else
    cprintf (Some [37; 100; 32; 37; 115; 32; 37; 115; 32; 37; 100])
      [AInt (p_pid p); AStr (Some (state_name (p_state p))); AStr (Some (c_string (p_name p))); AInt (p_queue p)] ;;;
    when (bool_decide (p_state p = SLEEPING))
      (dump_pcs (getcallerpcs m (u32 (ctx_ebp (ks_ctx (p_kstk p)) + 8)))) ;;;
    cprintf (Some [10]) [].
Definition procdump (m : mem) (procs : list proc) : M console unit := mfor procs (dump_proc m).

(** [panic]: [id] is the local APIC's number and [pcs] what [getcallerpcs] finds. It never
    returns. *)
Definition console_panic (id : Z) (msg : list Z) (pcs : list Z) : M console unit :=
  modify (set_locking false) ;;;
  cprintf (Some [108; 97; 112; 105; 99; 105; 100; 32; 37; 100; 58; 32; 112; 97; 110; 105; 99; 58; 32]) [AInt id] ;;;
  cprintf (Some msg) [] ;;;
  cprintf (Some [10]) [] ;;;
  mfor pcs (fun pc => cprintf (Some [32; 37; 112]) [AInt pc]) ;;;
  modify (set_panicked true) ;;;
  block.

(** [for(i = 0; i < n; i++) consputc(buf[i] & 0xff)] *)
Definition consolewrite (m : mem) (buf n : Z) : M console Z :=
  cons_acquire ;;;
  consputs ((fun i => Z.land (m (buf + Z.of_nat i)) 0xff) <$> seq 0 (Z.to_nat n)) ;;;
  cons_release ;;;
  m_ret n.

(** ** Input *)

Definition slot (c : Z) : nat := Z.to_nat (c mod INPUT_BUF).

Definition set_e (e : Z) (i : input) : input := Input (in_buf i) (in_r i) (in_w i) e.
Definition set_w (w : Z) (i : input) : input := Input (in_buf i) (in_r i) w (in_e i).
Definition set_r (r : Z) (i : input) : input := Input (in_buf i) r (in_w i) (in_e i).
(** [input.buf[input.e++ % INPUT_BUF] = c] *)
Definition put_char (c : Z) (i : input) : input :=
  Input (<[slot (in_e i) := u8 c]> (in_buf i)) (in_r i) (in_w i) (u32 (in_e i + 1)).

(** [input.e--; consputc(BACKSPACE)] *)
Definition erase : M console unit :=
  modify (fun s => set_input (set_e (u32 (in_e (cn_input s) - 1)) (cn_input s)) s) ;;;
  consputc BACKSPACE.

(** The loop of the kill-line case. The characters between [input.w] and [input.e] are never
    more than the buffer has, and each turn erases one. *)
Fixpoint kill_line (fuel : nat) : M console unit :=
  match fuel with
  | O => m_ret tt
  | S fuel =>
      let! i := gets cn_input in
      if negb (in_e i =? in_w i) && negb (default 0 (in_buf i !! slot (in_e i - 1)) =? NEWLINE)
      then erase ;;; kill_line fuel
      else m_ret tt
  end.

(** [wakeup(&input.r)] *)
Definition wakeup_readers : M console unit := modify (set_sleepers []).

(** The [default] case. *)
Definition type_char (c : Z) : M console unit :=
  let! i := gets cn_input in
  when (negb (c =? 0) && (u32 (in_e i - in_r i) <? INPUT_BUF))
    (let c := if c =? RETURN then NEWLINE else c in
     modify (fun s => set_input (put_char c (cn_input s)) s) ;;;
     consputc c ;;;
     let! i := gets cn_input in
     when ((c =? NEWLINE) || (c =? CtlD) || (in_e i =? u32 (in_r i + INPUT_BUF)))
       (modify (fun s => set_input (set_w (in_e (cn_input s)) (cn_input s)) s) ;;;
        wakeup_readers)).

(** The loop over what [getc] returns before it returns a negative number; the result is
    [doprocdump]. *)
Fixpoint consoleintr_loop (chars : list Z) (doprocdump : bool) : M console bool :=
  match chars with
  | [] => m_ret doprocdump
  | c :: chars =>
      if c =? CtlP then consoleintr_loop chars true
      else
        (if c =? CtlU then kill_line (Z.to_nat INPUT_BUF)
         else if (c =? CtlH) || (c =? DELETE) then
           let! i := gets cn_input in
           when (negb (in_e i =? in_w i)) erase
         else type_char c) ;;;
        consoleintr_loop chars doprocdump
  end.

Definition consoleintr (m : mem) (procs : list proc) (chars : list Z) : M console unit :=
  cons_acquire ;;;
  let! doprocdump := consoleintr_loop chars false in
  cons_release ;;;
  when doprocdump (procdump m procs).

(** How a stretch of [consoleread] ends, with the bytes it stored: it returns, or it sleeps
    with [n] bytes to go. *)
Inductive cread :=
  | CReturn (r : Z) (bytes : list Z)
  | CSleep (n : nat) (bytes : list Z).

Definition stored (c : Z) (x : cread) : cread :=
  match x with
  | CReturn r l => CReturn r (c :: l)
  | CSleep n l => CSleep n (c :: l)
  end.

Fixpoint consoleread_loop (pid : Z) (killed : bool) (target n : nat) : M console cread :=
  match n with
  | O => m_ret (CReturn (Z.of_nat target) [])
  | S n' =>
      let! i := gets cn_input in
      if in_r i =? in_w i then
        if killed then m_ret (CReturn (-1) [])
        else modify (fun s => set_sleepers (pid :: cn_sleepers s) s) ;;; m_ret (CSleep n [])
      else
        let c := default 0 (in_buf i !! slot (in_r i)) in
        modify (set_input (set_r (u32 (in_r i + 1)) i)) ;;;
        if c =? CtlD then
          when (n <? target)%nat (modify (set_input (set_r (u32 (u32 (in_r i + 1) - 1)) i))) ;;;
          m_ret (CReturn (Z.of_nat target - Z.of_nat n) [])
        else if c =? NEWLINE then m_ret (CReturn (Z.of_nat target - Z.of_nat n') [c])
        else let! x := consoleread_loop pid killed target n' in m_ret (stored c x)
  end.

(** A stretch of [consoleread], from its call ([n = target]) or from the return of [sleep],
    to its return or to the next [sleep]; the lock is free at both ends. *)
Definition consoleread (pid : Z) (killed : bool) (target n : nat) : M console cread :=
  cons_acquire ;;;
  let! x := consoleread_loop pid killed target n in
  cons_release ;;;
  m_ret x.

(** ** Start-up and the serial port's interrupt *)

Definition consoleinit : M console unit :=
  modify (set_held false) ;;; modify (set_locking true).

(** [status] is the line status register; 0xFF means that there is no port. *)
Definition uartinit (status : Z) : M console unit :=
  if status =? 0xff then m_ret tt
  else
    modify (fun s => set_serial true (cn_out s) s) ;;;
    modify (fun s => foldl (fun s c => uartputc c s) s [120; 118; 54; 46; 46; 46; 10]).

(** [rx] are the bytes received; without a port [uartgetc] has none. *)
Definition uartintr (m : mem) (procs : list proc) (rx : list Z) : M console unit :=
  let! u := gets cn_uart in
  consoleintr m procs (if u then rx else []).
