(* ===== verification/Kbd.v ===== *)
(** * The keyboard driver (kbd.c, kbd.h)

    The state is the word [shift] of modifier bits; the controller's buffer is the list of
    scan codes not yet read. *)

From stdpp Require Import base tactics numbers list.
From Stdlib Require Import ZArith Lia ZifyNat ZifyBool.
From S2P Require Import Prelude PTable Console.

Definition SHIFT : Z := 1.
Definition CTL : Z := 2.
Definition ALT : Z := 4.
Definition CAPSLOCK : Z := 8.
Definition NUMLOCK : Z := 16.
Definition SCROLLLOCK : Z := 32.
Definition E0ESC : Z := 64.

(** An initialised array of 256: the entries listed from the front, then the designated ones,
    then zeros. *)
Definition table (front : list Z) (designated : list (Z * Z)) (d : Z) : Z :=
  match list_find (fun x => x.1 = d) designated with
  | Some (_, (_, v)) => v
  | None => default 0 (front !! Z.to_nat d)
  end.

Definition shiftcode : Z -> Z := table
  []
  [(0x1D, 2); (0x2A, 1); (0x36, 1); (0x38, 4); (0x9D, 2); (0xB8, 4)].
Definition togglecode : Z -> Z := table
  []
  [(0x3A, 8); (0x45, 16); (0x46, 32)].
Definition normalmap : Z -> Z := table
  [0; 27; 49; 50; 51; 52; 53; 54;
   55; 56; 57; 48; 45; 61; 8; 9;
   113; 119; 101; 114; 116; 121; 117; 105;
   111; 112; 91; 93; 10; 0; 97; 115;
   100; 102; 103; 104; 106; 107; 108; 59;
   39; 96; 0; 92; 122; 120; 99; 118;
   98; 110; 109; 44; 46; 47; 0; 42;
   0; 32; 0; 0; 0; 0; 0; 0;
   0; 0; 0; 0; 0; 0; 0; 55;
   56; 57; 45; 52; 53; 54; 43; 49;
   50; 51; 48; 46; 0; 0; 0; 0]
  [(0x9C, 10); (0xB5, 47); (0xC8, 226); (0xD0, 227); (0xC9, 230); (0xD1, 231);
   (0xCB, 228); (0xCD, 229); (0x97, 224); (0xCF, 225); (0xD2, 232); (0xD3, 233)].
Definition shiftmap : Z -> Z := table
  [0; 27; 33; 64; 35; 36; 37; 94;
   38; 42; 40; 41; 95; 43; 8; 9;
   81; 87; 69; 82; 84; 89; 85; 73;
   79; 80; 123; 125; 10; 0; 65; 83;
   68; 70; 71; 72; 74; 75; 76; 58;
   34; 126; 0; 124; 90; 88; 67; 86;
   66; 78; 77; 60; 62; 63; 0; 42;
   0; 32; 0; 0; 0; 0; 0; 0;
   0; 0; 0; 0; 0; 0; 0; 55;
   56; 57; 45; 52; 53; 54; 43; 49;
   50; 51; 48; 46; 0; 0; 0; 0]
  [(0x9C, 10); (0xB5, 47); (0xC8, 226); (0xD0, 227); (0xC9, 230); (0xD1, 231);
   (0xCB, 228); (0xCD, 229); (0x97, 224); (0xCF, 225); (0xD2, 232); (0xD3, 233)].
Definition ctlmap : Z -> Z := table
  [0; 0; 0; 0; 0; 0; 0; 0;
   0; 0; 0; 0; 0; 0; 0; 0;
   17; 23; 5; 18; 20; 25; 21; 9;
   15; 16; 0; 0; 13; 0; 1; 19;
   4; 6; 7; 8; 10; 11; 12; 0;
   0; 0; 0; 28; 26; 24; 3; 22;
   2; 14; 13; 0; 0; 239; 0; 0]
  [(0x9C, 13); (0xB5, 239); (0xC8, 226); (0xD0, 227); (0xC9, 230); (0xD1, 231);
   (0xCB, 228); (0xCD, 229); (0x97, 224); (0xCF, 225); (0xD2, 232); (0xD3, 233)].

(** [charcode[i]] *)
Definition charcode (i : Z) : Z -> Z :=
  if i =? 0 then normalmap else if i =? 1 then shiftmap else ctlmap.

(** [kbdgetc] on one scan code: the new [shift] and what is returned. *)
Definition kbd_code (shift data : Z) : Z * Z :=
  if data =? 0xE0 then (Z.lor shift E0ESC, 0)
  else if negb (Z.land data 0x80 =? 0) then
    let data := if negb (Z.land shift E0ESC =? 0) then data else Z.land data 0x7F in
    (Z.ldiff shift (Z.lor (shiftcode data) E0ESC), 0)
  else
    let '(data, shift) :=
      if negb (Z.land shift E0ESC =? 0) then (Z.lor data 0x80, Z.ldiff shift E0ESC) else (data, shift) in
    let shift := Z.lxor (Z.lor shift (shiftcode data)) (togglecode data) in
    let c := charcode (Z.land shift (Z.lor CTL SHIFT)) data in
    (shift,
     if negb (Z.land shift CAPSLOCK =? 0) then
       if (97 <=? c) && (c <=? 122) then c + (65 - 97)
       else if (65 <=? c) && (c <=? 90) then c + (97 - 65)
       else c
     else c).

(** One call, on the codes waiting at the data port. *)
Definition kbdgetc (shift : Z) (port : list Z) : Z * Z * list Z :=
  match port with
  | [] => (-1, shift, [])
  | data :: port => let '(shift, c) := kbd_code shift data in (c, shift, port)
  end.

(** The calls of [kbdgetc] that the loop of [consoleintr] makes, until one is negative. *)
Fixpoint kbd_drain (shift : Z) (port : list Z) : list Z * Z :=
  match port with
  | [] => ([], shift)
  | data :: port =>
      let '(shift, c) := kbd_code shift data in
      let '(cs, shift) := kbd_drain shift port in (c :: cs, shift)
  end.

Definition kbdintr (m : mem) (procs : list proc) (shift : Z) (port : list Z) : M console Z :=
  let '(cs, shift) := kbd_drain shift port in
  consoleintr m procs cs ;;;
  m_ret shift.

(** ** What the driver hands on *)

Lemma table_range front designated d :
  forallb (fun v => (0 <=? v) && (v <? 256)) (front ++ (snd <$> designated)) = true ->
  0 <= table front designated d < 256.
Proof.
  rewrite forallb_forall. intros H. unfold table. destruct (list_find _ _) as [[j [a v]]|] eqn:El.
  - apply list_find_Some in El as (Hj & _ & _). apply list_elem_of_lookup_2, (list_elem_of_fmap_2 snd) in Hj.
    assert (Hv : v ∈ front ++ (snd <$> designated)).
    { apply elem_of_app. by right. }
    apply list_elem_of_In, H in Hv. lia.
  - destruct (front !! Z.to_nat d) as [v|] eqn:Ef; simpl; [|lia].
    assert (Hv : v ∈ front ++ (snd <$> designated)).
    { apply elem_of_app. left. by eapply list_elem_of_lookup_2. }
    apply list_elem_of_In, H in Hv. lia.
Qed.

(** Every code gives a byte: the loop of [consoleintr] empties the controller's buffer. *)
Lemma kbd_code_byte shift data : 0 <= (kbd_code shift data).2 < 256.
Proof.
  unfold kbd_code. destruct (data =? 0xE0); [simpl; lia|]. destruct (negb _); [simpl; lia|].
  destruct (if negb _ then _ else _) as [d sh]. cbv zeta. cbn [snd].
  set (sh' := Z.lxor _ _). set (c := charcode _ d).
  assert (0 <= c < 256).
  { unfold c, charcode. destruct (_ =? 0); [by apply table_range|]. destruct (_ =? 1); by apply table_range. }
  repeat case_match; lia.
Qed.

(** The scan codes of the keys a to z. *)
Definition letter_codes : list Z :=
  [0x1e; 0x30; 0x2e; 0x20; 0x12; 0x21; 0x22; 0x23; 0x17; 0x24; 0x25; 0x26; 0x32; 0x31; 0x18; 0x19; 0x10;
   0x13; 0x1f; 0x14; 0x16; 0x2f; 0x11; 0x2d; 0x15; 0x2c].

(** What the [k]-th letter key gives: with control its control code, else the letter, a
    capital when exactly one of shift and caps lock is on. *)
Definition letter (shift : Z) (k : nat) : Z :=
  if Z.testbit shift 1 then 1 + Z.of_nat k
  else (if xorb (Z.testbit shift 0) (Z.testbit shift 3) then 65 else 97) + Z.of_nat k.

Definition letters_right (shift : Z) : bool :=
  forallb (fun k =>
    match letter_codes !! k with
    | Some d => bool_decide (kbd_code shift d = (shift, letter shift k)) &&
                bool_decide (kbd_code shift (Z.lor d 0x80) = (shift, 0))
    | None => false
    end) (seq 0 26).

Lemma letters_right_all : forallb (fun n => letters_right (Z.of_nat n)) (seq 0 64) = true.
Proof. by vm_compute. Qed.

(** Pressing and releasing a letter key, whatever modifiers are down and locks are on,
    hands exactly the right character to the console, then 0, which the console ignores, and
    leaves the modifiers as they were. *)
Theorem kbd_letters shift k d port :
  0 <= shift < 64 -> letter_codes !! k = Some d ->
  kbd_drain shift (d :: Z.lor d 0x80 :: port) =
  (letter shift k :: 0 :: (kbd_drain shift port).1, (kbd_drain shift port).2).
Proof.
  intros Hs Hk. pose proof letters_right_all as H. rewrite forallb_forall in H.
  specialize (H (Z.to_nat shift)). rewrite in_seq, Z2Nat.id in H by lia. specialize (H ltac:(lia)).
  unfold letters_right in H. rewrite forallb_forall in H. specialize (H k).
  apply lookup_lt_Some in Hk as Hl. change (length letter_codes) with 26%nat in Hl.
  rewrite in_seq, Hk in H. specialize (H ltac:(lia)).
  apply andb_prop in H as [H1%bool_decide_eq_true H2%bool_decide_eq_true].
  cbn [kbd_drain]. rewrite H1, H2. by destruct (kbd_drain shift port).
Qed.

Lemma kbd_letters_witness : kbd_drain CAPSLOCK [0x10; 0x90] = ([81; 0], CAPSLOCK).
Proof. apply (kbd_letters CAPSLOCK 16 0x10 []); [unfold CAPSLOCK; lia|reflexivity]. Defined.
