(* ===== verification/ConsoleSpec.v ===== *)
(** * The line discipline of the console

    An abstract console holds two lists: the characters that readers may take and the ones
    still being edited. The circular buffer with its three counters implements it: typing,
    erasing, killing a line and committing on the interrupt side, and reading a line on the
    other side, with no reader left asleep while there is something to read. *)

From stdpp Require Import base tactics numbers list strings.
From Stdlib Require Import ZArith Lia ZifyNat ZifyBool.
From S2P Require Import Prelude PTable Console Kbd.

(** ** The abstract console *)

(** The effect of a character on the committed and the edited characters. *)
Definition type_key (c : Z) (x : list Z * list Z) : list Z * list Z :=
  let '(C, E) := x in
  if c =? CtlP then (C, E)
  else if c =? CtlU then (C, [])
  else if (c =? CtlH) || (c =? DELETE) then (C, removelast E)
  else if (c =? 0) || (Z.to_nat INPUT_BUF <=? length C + length E)%nat then (C, E)
  else
    let c := if c =? RETURN then NEWLINE else c in
    if (c =? NEWLINE) || (c =? CtlD) || (length C + S (length E) =? Z.to_nat INPUT_BUF)%nat
    then (C ++ E ++ [c], [])
    else (C, E ++ [c]).
Definition type_keys (cs : list Z) (x : list Z * list Z) : list Z * list Z :=
  foldl (fun x c => type_key c x) x cs.

(** The line at the front: up to and with a newline, or up to a control-D. *)
Fixpoint line (C : list Z) : list Z :=
  match C with
  | [] => []
  | c :: C => if c =? CtlD then [] else if c =? NEWLINE then [c] else c :: line C
  end.
(** Does the front line have its end? *)
Definition closed (C : list Z) : bool := existsb (fun c => (c =? CtlD) || (c =? NEWLINE)) C.

(** A read of [n] bytes when [target] were asked for: its result and the characters left. *)
Definition read_line (killed : bool) (target n : nat) (C : list Z) : cread * list Z :=
  let bytes := take n (line C) in
  let got := Z.of_nat target - Z.of_nat n + Z.of_nat (length bytes) in
  let rest := drop (length bytes) C in
  if (length bytes =? n)%nat then (CReturn got bytes, rest)
  else if closed C then
    (CReturn got bytes, if (length bytes =? 0)%nat && (n =? target)%nat then tail rest else rest)
  else (if killed then CReturn (-1) bytes else CSleep (n - length bytes) bytes, rest).

(** ** The circular buffer *)

Definition window (buf : list Z) (a : Z) (n : nat) : list Z :=
  (fun k => default 0 (buf !! slot (a + Z.of_nat k))) <$> seq 0 n.

Record holds (i : input) (C E : list Z) : Prop := Holds {
  h_len : length (in_buf i) = Z.to_nat INPUT_BUF;
  h_r : 0 <= in_r i < 4294967296;
  h_w : in_w i = u32 (in_r i + Z.of_nat (length C));
  h_e : in_e i = u32 (in_r i + Z.of_nat (length C + length E));
  h_room : (length C + length E <= Z.to_nat INPUT_BUF)%nat;
  h_window : window (in_buf i) (in_r i) (length C + length E) = C ++ E }.

Lemma in_slot_lt c : (slot c < Z.to_nat INPUT_BUF)%nat.
Proof. unfold slot, INPUT_BUF. pose proof (Z.mod_pos_bound c 128). lia. Qed.

Lemma in_slot_u32 c : slot (u32 c) = slot c.
Proof. unfold slot, u32, INPUT_BUF. f_equal. zlia. Qed.

Lemma in_slot_add c k k' :
  0 <= k < INPUT_BUF -> 0 <= k' < INPUT_BUF -> slot (c + k) = slot (c + k') -> k = k'.
Proof. unfold slot, INPUT_BUF. intros. zlia. Qed.

Lemma length_window buf a n : length (window buf a n) = n.
Proof. unfold window. by rewrite length_fmap, length_seq. Qed.

Lemma window_snoc buf a n : window buf a (S n) = window buf a n ++ [default 0 (buf !! slot (a + Z.of_nat n))].
Proof. unfold window. rewrite seq_S, fmap_app. done. Qed.

Lemma window_cons buf a n : window buf a (S n) = default 0 (buf !! slot a) :: window buf (u32 (a + 1)) n.
Proof.
  unfold window. simpl. rewrite Z.add_0_r. f_equal. rewrite <- fmap_S_seq, <- list_fmap_compose.
  apply list_fmap_ext. intros _ k _. simpl.
  rewrite <- (in_slot_u32 (u32 (a + 1) + _)), u32_add_l, in_slot_u32.
  by replace (a + 1 + Z.of_nat k) with (a + Z.of_nat (S k)) by lia.
Qed.

Lemma window_insert buf a n c :
  (n < Z.to_nat INPUT_BUF)%nat ->
  window (<[slot (a + Z.of_nat n) := c]> buf) a n = window buf a n.
Proof.
  intros Hn. apply list_fmap_ext. intros ? k Hk%lookup_seq.
  rewrite list_lookup_insert_ne; [done|]. intros Hs. apply in_slot_add in Hs; unfold INPUT_BUF in *; lia.
Qed.

(** Counters that are at most a buffer apart differ after the wrap-around when they differ. *)
Lemma u32_near r a b : 0 <= a <= 128 -> 0 <= b <= 128 -> (u32 (r + a) =? u32 (r + b)) = (a =? b).
Proof. intros. unfold u32. destruct (Z.eqb_spec a b) as [->|]; [apply Z.eqb_refl|]. zlia. Qed.

Section Buffer.
Context (i : input) (C E : list Z) (H : holds i C E).

Lemma held_count : u32 (in_e i - in_r i) = Z.of_nat (length C + length E).
Proof using H.
  destruct H as [_ _ _ -> Hn _]. rewrite u32_sub_l. unfold INPUT_BUF in Hn.
  rewrite u32_small; lia.
Qed.

Lemma editing : (in_e i =? in_w i) = (length E =? 0)%nat.
Proof using H.
  destruct H as [_ _ -> -> Hn _]. unfold INPUT_BUF in Hn. rewrite u32_near by lia.
  destruct (Nat.eqb_spec (length E) 0); lia.
Qed.

Lemma readable : (in_r i =? in_w i) = (length C =? 0)%nat.
Proof using H.
  destruct H as [_ Hr -> _ Hn _]. unfold INPUT_BUF in Hn. rewrite <- (u32_small (in_r i) Hr) at 1.
  rewrite <- (Z.add_0_r (in_r i)) at 1. rewrite u32_near by lia.
  destruct (Nat.eqb_spec (length C) 0); lia.
Qed.

Lemma full_commit : (in_e i =? u32 (in_r i + INPUT_BUF)) = (length C + length E =? Z.to_nat INPUT_BUF)%nat.
Proof using H.
  destruct H as [_ _ _ -> Hn _]. unfold INPUT_BUF in *. rewrite u32_near by lia.
  destruct (Nat.eqb_spec (length C + length E) (Z.to_nat 128)); lia.
Qed.

Lemma holds_put c :
  (length C + length E < Z.to_nat INPUT_BUF)%nat -> 0 <= c < 256 -> holds (put_char c i) C (E ++ [c]).
Proof.
  intros Hl Hc. destruct H. unfold put_char. assert (u8 c = c) as -> by (unfold u8; zlia).
  assert (Hs : slot (in_e i) = slot (in_r i + Z.of_nat (length C + length E))) by (rewrite h_e0; apply in_slot_u32).
  split; simpl; rewrite ?length_insert, ?length_app; simpl; try done; try lia.
  - rewrite h_e0, u32_add_l. f_equal. lia.
  - rewrite Hs. replace (length C + (length E + 1))%nat with (S (length C + length E)) by lia.
    rewrite window_snoc, window_insert, list_lookup_insert_eq by (rewrite ?h_len0; auto using in_slot_lt).
    simpl. by rewrite h_window0, app_assoc.
Qed.

Lemma holds_commit : holds (set_w (in_e i) i) (C ++ E) [].
Proof.
  destruct H. split; simpl; rewrite ?length_app, ?app_nil_r, ?Nat.add_0_r; done.
Qed.
End Buffer.

Lemma holds_last i C E x :
  holds i C (E ++ [x]) -> default 0 (in_buf i !! slot (in_e i - 1)) = x /\ holds (set_e (u32 (in_e i - 1)) i) C E.
Proof.
  intros [? ? ? He ? Hr]. rewrite length_app in *. simpl in *.
  replace (length C + (length E + 1))%nat with (S (length C + length E)) in * by lia.
  rewrite window_snoc, app_assoc in Hr. apply app_inj_2 in Hr as [Hr [= Hx]]; [|done].
  assert (Hs : slot (in_e i - 1) = slot (in_r i + Z.of_nat (length C + length E))).
  { rewrite He, <- in_slot_u32, u32_sub_l, in_slot_u32. f_equal. lia. }
  split; [by rewrite Hs|]. split; simpl; try done; try lia.
  rewrite He, u32_sub_l. f_equal. lia.
Qed.

Lemma holds_first i c C E :
  holds i (c :: C) E -> default 0 (in_buf i !! slot (in_r i)) = c /\ holds (set_r (u32 (in_r i + 1)) i) C E.
Proof.
  intros [? ? Hw He ? Hr]. simpl in *. rewrite window_cons in Hr. injection Hr as Hx Hr.
  split; [done|]. split; simpl; try done; try lia; [apply u32_range|..].
  - rewrite Hw, u32_add_l. f_equal. lia.
  - rewrite He, u32_add_l. f_equal. lia.
Qed.

(** ** Output *)

(** What output leaves alone. *)
Definition core (s : console) := (cn_input s, cn_uart s, cn_locking s, cn_locked s, cn_panicked s, cn_sleepers s).

(** From [s] to [s'] only text was put: the cursor is on the screen and no cell outside of it
    has changed. *)
Record wrote (s s' : console) : Prop := Wrote {
  w_core : core s' = core s;
  w_pos : 0 <= cn_pos s' < 25 * 80;
  w_off : forall k, k < 0 \/ 25 * 80 <= k -> cn_crt s' k = cn_crt s k }.

Lemma wrote_refl s : 0 <= cn_pos s < 25 * 80 -> wrote s s.
Proof. by split. Qed.

Lemma wrote_trans s1 s2 s3 : wrote s1 s2 -> wrote s2 s3 -> wrote s1 s3.
Proof. intros [C1 _ O1] [C2 P2 O2]. split; [congruence|done|]. intros k Hk. by rewrite O2, O1. Qed.

Lemma uartputc_screen c s :
  core (uartputc c s) = core s /\ cn_pos (uartputc c s) = cn_pos s /\ cn_crt (uartputc c s) = cn_crt s.
Proof. unfold uartputc. by destruct s as [? ? ? [] ? ? ? ? ?]. Qed.

Lemma uart_wrote c s : 0 <= cn_pos s < 25 * 80 -> wrote s (uartputc c s).
Proof. intros. destruct (uartputc_screen c s) as (? & E & F). split; rewrite ?E, ?F; done. Qed.

Lemma set_cell_off crt i v k : k <> i -> set_cell crt i v k = crt k.
Proof. intros. unfold set_cell. by rewrite (proj2 (Z.eqb_neq k i)). Qed.

Lemma scroll_off crt pos k : 0 <= pos -> k < 0 \/ 25 * 80 <= k -> scroll crt pos k = crt k.
Proof.
  intros. unfold scroll. replace ((pos <=? k) && (k <? 24 * 80)) with false by lia.
  by replace ((0 <=? k) && (k <? 23 * 80)) with false by lia.
Qed.

Lemma cgaputc_wrote c s : 0 <= cn_pos s < 25 * 80 -> returns (cgaputc c) s (fun _ s' => wrote s s').
Proof.
  intros Hp. apply returns_get.
  assert (Hmove : forall crt pos, 0 <= pos <= 25 * 80 ->
    (forall k, k < 0 \/ 25 * 80 <= k -> crt k = cn_crt s k) ->
    returns (if (pos <? 0) || (25 * 80 <? pos) then panic "pos under/overflow" else
      let '(crt, pos) := if 24 <=? pos / 80 then (scroll crt (pos - 80), pos - 80) else (crt, pos) in
      put (set_screen (set_cell crt pos (Z.lor 32 0x0700)) pos s)) s (fun _ s' => wrote s s')).
  { intros crt pos Hpos Hc. replace ((pos <? 0) || (25 * 80 <? pos)) with false by lia.
    destruct (24 <=? pos / 80) eqn:E.
    - eexists _, _. split; [done|]. split; simpl; [done|zlia|]. intros k Hk.
      rewrite set_cell_off, scroll_off by zlia. auto.
    - eexists _, _. split; [done|]. split; simpl; [done|zlia|]. intros k Hk.
      rewrite set_cell_off by zlia. auto. }
  destruct (c =? NEWLINE); [apply Hmove; [zlia|done]|].
  destruct (c =? BACKSPACE); [apply Hmove; [destruct (0 <? cn_pos s) eqn:E; lia|done]|].
  apply Hmove; [lia|]. intros k Hk. apply set_cell_off. lia.
Qed.

Section Output.
Context (s : console) (Hpos : 0 <= cn_pos s < 25 * 80) (Hpan : cn_panicked s = false).

Lemma consputc_wrote c : returns (consputc c) s (fun _ s' => wrote s s').
Proof using Hpos Hpan.
  apply returns_gets. rewrite Hpan. apply returns_modify.
  set (s1 := if c =? BACKSPACE then _ else _).
  assert (W : wrote s s1).
  { unfold s1. destruct (c =? BACKSPACE); [|by apply uart_wrote].
    pose proof (uart_wrote 8 s Hpos) as W1. pose proof (uart_wrote 32 _ (w_pos _ _ W1)) as W2.
    pose proof (uart_wrote 8 _ (w_pos _ _ W2)) as W3. eauto using wrote_trans. }
  rlast cgaputc_wrote; [apply W|]. intros _ s' W'. by eapply wrote_trans.
Qed.
End Output.

Lemma wrote_panicked s s' : wrote s s' -> cn_panicked s' = cn_panicked s.
Proof. intros [E _ _]. unfold core in E. congruence. Qed.

Lemma consputs_wrote l s :
  0 <= cn_pos s < 25 * 80 -> cn_panicked s = false -> returns (consputs l) s (fun _ s' => wrote s s').
Proof.
  revert s. induction l as [|c l IH]; intros s Hp Hn; simpl; [by apply returns_ret, wrote_refl|].
  rstep consputc_wrote; [done..|]. intros _ s1 W.
  rlast IH; [apply W|by rewrite (wrote_panicked _ _ W)|]. intros _ s2 W2. by eapply wrote_trans.
Qed.

(** ** The console implements the abstract one *)

Section Refine.
(** Is there a serial port? *)
Context (u : bool).

Record ok (lk : bool) (s : console) (C E : list Z) : Prop := Ok {
  ok_in : holds (cn_input s) C E;
  ok_line : Forall (fun c => c <> NEWLINE) E;
  ok_pos : 0 <= cn_pos s < 25 * 80;
  ok_pan : cn_panicked s = false;
  ok_uart : cn_uart s = u;
  ok_lock : cn_locked s = lk;
  ok_sleep : cn_sleepers s = [] \/ C = [] }.

Lemma ok_wrote lk s s' C E : ok lk s C E -> wrote s s' -> ok lk s' C E.
Proof. intros [] [Ec ? _]. unfold core in Ec. simplify_eq. split; congruence. Qed.

Lemma consputc_ok lk s C E c : ok lk s C E -> returns (consputc c) s (fun _ s' => ok lk s' C E).
Proof. intros H. rlast consputc_wrote; [apply H..|]. intros _ s' W. by eapply ok_wrote. Qed.

Lemma consputs_ok lk s C E l : ok lk s C E -> returns (consputs l) s (fun _ s' => ok lk s' C E).
Proof. intros H. rlast consputs_wrote; [apply H..|]. intros _ s' W. by eapply ok_wrote. Qed.

Lemma acquire_ok s C E : ok false s C E -> returns cons_acquire s (fun _ s' => ok true s' C E).
Proof.
  intros []. apply returns_get. rewrite ok_lock0. eexists _, _. split; [done|]. by split.
Qed.

Lemma release_ok s C E : ok true s C E -> returns cons_release s (fun _ s' => ok false s' C E).
Proof.
  intros []. apply returns_get. rewrite ok_lock0. eexists _, _. split; [done|]. by split.
Qed.

Lemma cprintf_ok s C E fmt argp out :
  ok false s C E -> cformat fmt argp = Some out -> returns (cprintf (Some fmt) argp) s (fun _ s' => ok false s' C E).
Proof.
  intros H Ef. apply returns_gets. rewrite Ef. destruct (cn_locking s); simpl.
  - rstep acquire_ok; [done|]. intros _ s1 H1. rstep consputs_ok; [done|]. intros _ s2 H2. by apply release_ok.
  - apply returns_Done with tt s; [done|]. rstep consputs_ok; [done|]. intros _ s2 H2. by apply returns_ret.
Qed.

Lemma mfor_ok {A} (l : list A) (body : A -> M console unit) s C E :
  (forall a s, ok false s C E -> returns (body a) s (fun _ s' => ok false s' C E)) ->
  ok false s C E -> returns (mfor l body) s (fun _ s' => ok false s' C E).
Proof.
  intros Hb. revert s. induction l as [|a l IH]; intros s H; simpl; [by apply returns_ret|].
  rstep Hb; [done|]. intros _ s1 H1. by apply IH.
Qed.

Lemma dump_pcs_ok pcs s C E : ok false s C E -> returns (dump_pcs pcs) s (fun _ s' => ok false s' C E).
Proof.
  revert s. induction pcs as [|pc pcs IH]; intros s H; simpl; [by apply returns_ret|].
  destruct (pc =? 0); [by apply returns_ret|].
  rstep cprintf_ok; [done|reflexivity|]. intros _ s1 H1. by apply IH.
Qed.

Lemma procdump_ok m procs s C E : ok false s C E -> returns (procdump m procs) s (fun _ s' => ok false s' C E).
Proof.
  apply mfor_ok. clear s. intros p s H. unfold dump_proc. destruct (decide _); [by apply returns_ret|].
  rstep cprintf_ok; [done|reflexivity|]. intros _ s1 H1.
  eapply (returns_bind _ _ _ _ (fun _ s' => ok false s' C E)).
  - destruct (bool_decide _); simpl; [by apply dump_pcs_ok|by apply returns_ret].
  - intros _ s2 H2. by eapply cprintf_ok.
Qed.

Lemma erase_ok s C E x : ok true s C (E ++ [x]) -> returns erase s (fun _ s' => ok true s' C E).
Proof.
  intros []. apply returns_modify. apply consputc_ok.
  split; simpl; try done; [by eapply holds_last|]. by apply Forall_app in ok_line0 as [? _].
Qed.

Lemma kill_line_ok fuel s C E :
  (length E <= fuel)%nat -> ok true s C E -> returns (kill_line fuel) s (fun _ s' => ok true s' C []).
Proof.
  revert s E. induction fuel as [|fuel IH]; intros s E Hl H; simpl.
  { destruct E; [by apply returns_ret|simpl in Hl; lia]. }
  apply returns_gets. rewrite (editing _ C E) by apply H.
  destruct E as [|x E _] using rev_ind; [by apply returns_ret|].
  rewrite length_app in *. simpl in *.
  rewrite (proj1 (holds_last _ C E x (ok_in _ _ _ _ H))).
  replace (length E + 1 =? 0)%nat with false by lia.
  pose proof (ok_line _ _ _ _ H) as [_ [Hx _]%Forall_cons]%Forall_app.
  apply Z.eqb_neq in Hx. rewrite Hx. simpl.
  rstep erase_ok; [done|]. intros _ s1 H1. apply (IH _ E); [lia|done].
Qed.

#[local] Arguments Nat.leb : simpl never.
#[local] Arguments Nat.eqb : simpl never.

Lemma removelast_snoc (E : list Z) x : removelast (E ++ [x]) = E.
Proof. apply removelast_last. Qed.

Lemma commit_line_ok s C E :
  holds (cn_input s) C E -> 0 <= cn_pos s < 25 * 80 -> cn_panicked s = false -> cn_uart s = u -> cn_locked s = true ->
  returns (modify (fun s => set_input (set_w (in_e (cn_input s)) (cn_input s)) s) ;;; wakeup_readers) s
    (fun _ s' => ok true s' (C ++ E) []).
Proof.
  intros. apply returns_modify. eexists _, _. split; [done|].
  split; simpl; try done; [by apply holds_commit|by left].
Qed.

(** The character stored is a byte other than control-P, control-U and the two that erase. *)
Lemma type_char_ok s C E c :
  ok true s C E -> 0 <= c < 256 -> c <> CtlP -> c <> CtlU -> c <> CtlH -> c <> DELETE ->
  returns (type_char c) s (fun _ s' => let '(C', E') := type_key c (C, E) in ok true s' C' E').
Proof.
  intros H Hc N1 N2 N3 N4. apply returns_gets.
  rewrite (held_count _ C E) by apply H. unfold type_key.
  rewrite (proj2 (Z.eqb_neq c CtlP)), (proj2 (Z.eqb_neq c CtlU)), (proj2 (Z.eqb_neq c CtlH)),
    (proj2 (Z.eqb_neq c DELETE)) by done. simpl.
  destruct (c =? 0); simpl; [by apply returns_ret|].
  destruct (Z.to_nat INPUT_BUF <=? length C + length E)%nat eqn:El.
  { replace (_ <? INPUT_BUF) with false by (unfold INPUT_BUF in *; lia). by apply returns_ret. }
  replace (_ <? INPUT_BUF) with true by (unfold INPUT_BUF in *; lia). simpl.
  set (c' := if c =? RETURN then NEWLINE else c).
  assert (Hc' : 0 <= c' < 256) by (unfold c', NEWLINE; destruct (c =? RETURN); lia).
  assert (Hh : holds (put_char c' (cn_input s)) C (E ++ [c'])).
  { apply holds_put; [apply H|unfold INPUT_BUF in *; lia|done]. }
  apply returns_modify. rstep consputc_wrote; [apply H..|]. intros _ s1 W.
  apply returns_gets. destruct W as [Ec Hp _]. injection Ec as Ei Eu _ Elk Epn Esl. rewrite Ei.
  rewrite (full_commit _ C (E ++ [c'])) by done. rewrite length_app. simpl.
  replace (length C + (length E + 1))%nat with (length C + S (length E))%nat by lia.
  destruct (_ || _) eqn:Ek; simpl.
  - apply commit_line_ok; [by rewrite Ei|done|destruct H; congruence..].
  - apply returns_ret. destruct H. split; try congruence. apply Forall_app. split; [done|].
    apply Forall_singleton. apply Bool.orb_false_elim in Ek as [[Ek _]%Bool.orb_false_elim _].
    by apply Z.eqb_neq.
Qed.

Lemma type_keys_cons c cs x : type_keys (c :: cs) x = type_keys cs (type_key c x).
Proof. done. Qed.

Lemma consoleintr_loop_ok chars dp s C E :
  ok true s C E -> Forall (fun c => 0 <= c < 256) chars ->
  returns (consoleintr_loop chars dp) s
    (fun _ s' => let '(C', E') := type_keys chars (C, E) in ok true s' C' E').
Proof.
  revert dp s C E. induction chars as [|c chars IH]; intros dp s C E H Hc; [by apply returns_ret|].
  cbn [consoleintr_loop]. rewrite type_keys_cons.
  apply Forall_cons in Hc as [Hc Hcs]. destruct (c =? CtlP) eqn:EP.
  { unfold type_key. rewrite EP. by apply IH. }
  eapply (returns_bind _ _ _ _ (fun _ s' => let '(C', E') := type_key c (C, E) in ok true s' C' E')).
  - destruct (c =? CtlU) eqn:EU.
    + unfold type_key. rewrite EP, EU. apply kill_line_ok with E; [|done].
      destruct (ok_in _ _ _ _ H). unfold INPUT_BUF in *. lia.
    + destruct ((c =? CtlH) || (c =? DELETE)) eqn:EB.
      * unfold type_key. rewrite EP, EU, EB. apply returns_gets. rewrite (editing _ C E) by apply H.
        destruct E as [|x E _] using rev_ind; [by apply returns_ret|].
        rewrite removelast_snoc, length_app. simpl. replace (length E + 1 =? 0)%nat with false by lia.
        by eapply erase_ok.
      * apply type_char_ok; [done|lia..].
  - intros _ s1 H1. destruct (type_key c (C, E)) as [C1 E1]. by apply IH.
Qed.

Lemma consoleintr_ok m procs chars s C E :
  ok false s C E -> Forall (fun c => 0 <= c < 256) chars ->
  returns (consoleintr m procs chars) s
    (fun _ s' => let '(C', E') := type_keys chars (C, E) in ok false s' C' E').
Proof.
  intros H Hc. rstep acquire_ok; [done|]. intros _ s1 H1.
  rstep consoleintr_loop_ok; [done..|]. intros dp s2 H2. destruct (type_keys chars (C, E)) as [C' E'].
  rstep release_ok; [done|]. intros _ s3 H3.
  destruct dp; simpl; [by apply procdump_ok|by apply returns_ret].
Qed.

Lemma line_closed C : closed C = false -> line C = C.
Proof.
  induction C as [|c C IH]; intros Hc; [done|]. simpl in *.
  apply Bool.orb_false_elim in Hc as [[-> ->]%Bool.orb_false_elim Hc]. by rewrite IH.
Qed.

(** A read that goes past its first character. *)
Lemma read_line_char killed target n c C :
  c <> CtlD -> c <> NEWLINE -> (n < target)%nat ->
  read_line killed target (S n) (c :: C) =
  let '(x, C') := read_line killed target n C in (stored c x, C').
Proof.
  intros Hd Hn Ht. unfold read_line. simpl.
  rewrite (proj2 (Z.eqb_neq c CtlD)), (proj2 (Z.eqb_neq c NEWLINE)) by done. simpl.
  set (b := take n (line C)). replace (n =? target)%nat with false by lia.
  replace (S (length b) =? 0)%nat with false by lia.
  replace (S (length b) =? S n)%nat with (length b =? n)%nat by lia.
  replace (Z.of_nat target - Z.of_nat (S n) + Z.of_nat (S (length b)))
    with (Z.of_nat target - Z.of_nat n + Z.of_nat (length b)) by lia.
  rewrite Bool.andb_false_r. destruct (length b =? n)%nat; [done|].
  destruct (closed C); [done|]. by destruct killed.
Qed.

Lemma set_r_back i C E : holds i C E -> set_r (u32 (u32 (in_r i + 1) - 1)) i = i.
Proof.
  intros H. rewrite u32_sub_l, Z.add_simpl_r, u32_small by apply H. by destruct i.
Qed.

Lemma ok_take s c C E :
  ok true s (c :: C) E -> ok true (set_input (set_r (u32 (in_r (cn_input s) + 1)) (cn_input s)) s) C E.
Proof.
  intros []. split; simpl; try done; [by eapply holds_first|]. left. by destruct ok_sleep0.
Qed.

Lemma consoleread_loop_ok pid killed target n s C E :
  ok true s C E -> (n <= target)%nat ->
  returns (consoleread_loop pid killed target n) s (fun x s' =>
    x = (read_line killed target n C).1 /\ ok true s' (read_line killed target n C).2 E).
Proof.
  revert s C. induction n as [|n IH]; intros s C H Hn; cbn [consoleread_loop].
  { apply returns_ret. unfold read_line. simpl. split; [f_equal; lia|done]. }
  apply returns_gets. rewrite (readable _ C E) by apply H. destruct C as [|c C].
  { change (length [] =? 0)%nat with true. cbv iota. destruct killed; [by apply returns_ret|].
    apply returns_modify, returns_ret. split; [done|]. destruct H. split; simpl; auto. }
  change (length (c :: C) =? 0)%nat with false. cbv iota zeta.
  rewrite (proj1 (holds_first _ c C E (ok_in _ _ _ _ H))).
  pose proof (ok_take _ _ _ _ H) as H1. apply returns_modify.
  destruct (Z.eqb_spec c CtlD) as [->|Hd].
  { unfold read_line. simpl. change (CtlD =? CtlD) with true. simpl.
    change (0 =? S n)%nat with false. change (0 =? 0)%nat with true. cbn [andb].
    destruct (S n <? target)%nat eqn:Et; simpl.
    - apply returns_modify, returns_ret. replace (S n =? target)%nat with false by lia.
      split; [f_equal; lia|]. simpl. rewrite (set_r_back _ (CtlD :: C) E) by apply H. by destruct s.
    - apply returns_Done with tt (set_input (set_r (u32 (in_r (cn_input s) + 1)) (cn_input s)) s); [done|].
      apply returns_ret. replace (S n =? target)%nat with true by lia. split; [f_equal; lia|done]. }
  destruct (Z.eqb_spec c NEWLINE) as [->|Hnl].
  { apply returns_ret. unfold read_line. simpl. change (NEWLINE =? CtlD) with false.
    change (NEWLINE =? NEWLINE) with true. simpl. destruct n; simpl; (split; [f_equal; lia|by rewrite ?drop_0]). }
  rewrite read_line_char by (done || lia). destruct (read_line killed target n C) as [x C'] eqn:Er.
  rstep IH; [done|lia|]. intros y s2 [-> H2]. rewrite Er in *. by apply returns_ret.
Qed.

Lemma consoleread_ok pid killed target n s C E :
  ok false s C E -> (n <= target)%nat ->
  returns (consoleread pid killed target n) s (fun x s' =>
    x = (read_line killed target n C).1 /\ ok false s' (read_line killed target n C).2 E).
Proof.
  intros H Hn. rstep acquire_ok; [done|]. intros _ s1 H1.
  rstep consoleread_loop_ok; [done..|]. intros x s2 [-> H2].
  rstep release_ok; [done|]. intros _ s3 H3. by apply returns_ret.
Qed.

Lemma consolewrite_ok m buf n s C E :
  ok false s C E -> returns (consolewrite m buf n) s (fun r s' => r = n /\ ok false s' C E).
Proof.
  intros H. rstep acquire_ok; [done|]. intros _ s1 H1.
  rstep consputs_ok; [done|]. intros _ s2 H2.
  rstep release_ok; [done|]. intros _ s3 H3. by apply returns_ret.
Qed.

(** ** Histories *)

(** What may happen to the console: scan codes or serial bytes arrive, a stretch of a read
    runs, a process writes. *)
Inductive event :=
  | Codes (port : list Z)
  | Serial (rx : list Z)
  | Reading (pid : Z) (killed : bool) (target n : nat)
  | Writing (m : mem) (buf n : Z).

Definition event_ok (e : event) : Prop :=
  match e with
  | Codes port => Forall (fun d => 0 <= d < 256) port
  | Serial rx => Forall (fun c => 0 <= c < 256) rx
  | Reading _ _ target n => (n <= target)%nat
  | Writing _ _ _ => True
  end.

Section Histories.
Context (m : mem) (procs : list proc).

(** The console and the keyboard driver, with the results of the reads. *)
Fixpoint run (es : list event) (shift : Z) : M console (list cread) :=
  match es with
  | [] => m_ret []
  | Codes port :: es => let! shift := kbdintr m procs shift port in run es shift
  | Serial rx :: es => uartintr m procs rx ;;; run es shift
  | Reading pid killed target n :: es =>
      let! x := consoleread pid killed target n in
      let! xs := run es shift in m_ret (x :: xs)
  | Writing src buf n :: es => let! _ := consolewrite src buf n in run es shift
  end.

(** The abstract console. *)
Fixpoint run_lists (es : list event) (shift : Z) (x : list Z * list Z) : list cread * (list Z * list Z) :=
  match es with
  | [] => ([], x)
  | Codes port :: es =>
      let '(cs, shift) := kbd_drain shift port in run_lists es shift (type_keys cs x)
  | Serial rx :: es => run_lists es shift (type_keys (if u then rx else []) x)
  | Reading _ killed target n :: es =>
      let '(r, C) := read_line killed target n x.1 in
      let '(rs, y) := run_lists es shift (C, x.2) in (r :: rs, y)
  | Writing _ _ _ :: es => run_lists es shift x
  end.

Lemma kbd_drain_bytes shift port : Forall (fun c => 0 <= c < 256) (kbd_drain shift port).1.
Proof using.
  revert shift. induction port as [|d port IH]; intros shift; simpl; [done|].
  pose proof (kbd_code_byte shift d) as Hb. destruct (kbd_code shift d) as [sh c].
  specialize (IH sh). destruct (kbd_drain sh port) as [cs sh']. simpl in *. by constructor.
Qed.

Lemma run_ok es shift s C E :
  ok false s C E -> Forall event_ok es ->
  returns (run es shift) s (fun xs s' => let '(rs, (C', E')) := run_lists es shift (C, E) in
    xs = rs /\ ok false s' C' E').
Proof.
  revert shift s C E. induction es as [|e es IH]; intros shift s C E H Hes; [by apply returns_ret|].
  apply Forall_cons in Hes as [He Hes]. destruct e; simpl in *.
  - pose proof (kbd_drain_bytes shift port) as Hb. unfold kbdintr.
    destruct (kbd_drain shift port) as [cs sh]. apply returns_bind_assoc.
    rstep consoleintr_ok; [done..|]. intros _ s1 H1. destruct (type_keys cs (C, E)).
    apply returns_Done with sh s1; [done|]. by apply IH.
  - unfold uartintr. apply returns_bind_assoc, returns_gets. rewrite (ok_uart _ _ _ _ H).
    rstep consoleintr_ok; [done|by destruct u|]. intros _ s1 H1.
    destruct (type_keys _ (C, E)). by apply IH.
  - rstep consoleread_ok; [done..|]. intros x s1 [-> H1].
    destruct (read_line killed target n C) as [r C1]. simpl in H1 |- *. rstep IH; [done..|]. intros xs s2 H2.
    apply returns_ret. revert H2. destruct (run_lists es shift (C1, E)) as [rs [C2 E2]].
    by intros [-> ?].
  - rstep consolewrite_ok; [done|]. intros _ s1 [_ H1]. by apply IH.
Qed.
End Histories.
End Refine.

(** ** The theorems *)

(** The console as the loader leaves it: zeroed static data, a cursor somewhere on the
    screen. *)
Definition boot (crt : Z -> Z) (pos : Z) : console :=
  Console (Input (replicate (Z.to_nat INPUT_BUF) 0) 0 0 0) crt pos false [] false false false [].

Lemma boot_ok crt pos status :
  0 <= pos < 25 * 80 ->
  returns (consoleinit ;;; uartinit status) (boot crt pos)
    (fun _ s => ok (negb (status =? 0xff)) false s [] []).
Proof.
  intros. unfold consoleinit, uartinit.
  assert (Hh : holds (Input (replicate (Z.to_nat INPUT_BUF) 0) 0 0 0) [] []) by (split; simpl; done || lia).
  destruct (status =? 0xff); eexists _, _; (split; [reflexivity|]); split; simpl; auto.
Qed.

(** C8. From start-up, through any history of keyboard and serial interrupts, reads and
    writes, the console never panics and never hangs, every read gives what the abstract
    line discipline gives (characters typed, erased, killed, committed on newline, control-D
    or a full buffer; a read takes at most a line), the cursor stays on the screen, and a
    process sleeps in [consoleread] only while there is nothing to read. *)
Theorem console_line_discipline m procs crt pos status es :
  0 <= pos < 25 * 80 -> Forall event_ok es ->
  returns (consoleinit ;;; uartinit status ;;; run m procs es 0) (boot crt pos) (fun xs s =>
    exists C E, run_lists (negb (status =? 0xff)) es 0 ([], []) = (xs, (C, E)) /\
    holds (cn_input s) C E /\ 0 <= cn_pos s < 25 * 80 /\ (cn_sleepers s = [] \/ C = [])).
Proof.
  intros Hp Hes. destruct (boot_ok crt pos status Hp) as (? & s1 & E1 & H1).
  destruct (run_ok _ m procs es 0 s1 [] [] H1 Hes) as (xs & s2 & E2 & H2).
  destruct (run_lists _ es 0 ([], [])) as [rs [C E]] eqn:El. destruct H2 as [-> H2].
  exists rs, s2. split.
  - rewrite <- bind_assoc. by rewrite (bind_Done _ _ _ _ _ E1).
  - exists C, E. split; [done|]. destruct H2. done.
Qed.

(** The keys a, b, backspace, c and Enter, then a read of 10. *)
Definition sample_history : list event :=
  [Codes [0x1e; 0x9e; 0x30; 0xb0; 0x0e; 0x8e; 0x2e; 0xae; 0x1c; 0x9c]; Reading 1 false 10 10; Reading 1 false 10 10].

Lemma console_line_discipline_witness :
  returns (consoleinit ;;; uartinit 0x60 ;;; run (fun _ => 0) [] sample_history 0) (boot (fun _ => 0) 0) (fun xs s =>
    xs = [CReturn 3 [97; 99; 10]; CSleep 10 []] /\ cn_sleepers s = [1]).
Proof.
  destruct (console_line_discipline (fun _ => 0) [] (fun _ => 0) 0 0x60 sample_history)
    as (xs & s & E1 & C & E & El & _); [lia|repeat constructor; lia|].
  exists xs, s. split; [done|]. vm_compute in El. injection El as <- <- <-. split; [done|].
  vm_compute in E1. injection E1 as <-. done.
Defined.
