(* ===== verification/Umalloc.v ===== *)
(** * The user memory allocator (umalloc.c)

    Kernighan and Ritchie's allocator: the free blocks form a circular list in order
    of address. A block is known by the address of its header; [h_ptr] and [h_size]
    are the fields of the headers, and the bytes between the headers belong to the
    client. Sizes count headers of 8 bytes. *)

From stdpp Require Import base tactics numbers functions list sorting strings.
From Stdlib Require Import ZArith Lia ZifyNat.
From S2P Require Import Prelude.

Definition HSIZE : Z := 8.
Ltac hlia := unfold HSIZE in *; lia.

Record heap := Heap {
  h_ptr : Z -> Z;
  h_size : Z -> Z;
  h_freep : Z;
  h_brk : Z }.

Definition set_ptr (a v : Z) (h : heap) : heap :=
  Heap (<[a := v]> (h_ptr h)) (h_size h) (h_freep h) (h_brk h).
Definition set_size (a v : Z) (h : heap) : heap :=
  Heap (h_ptr h) (<[a := v]> (h_size h)) (h_freep h) (h_brk h).
Definition set_freep (v : Z) (h : heap) : heap :=
  Heap (h_ptr h) (h_size h) v (h_brk h).
Definition set_brk (v : Z) (h : heap) : heap :=
  Heap (h_ptr h) (h_size h) (h_freep h) v.

(** The loop of [free]: the free block after which [bp] belongs. *)
Fixpoint free_find (h : heap) (bp p : Z) (fuel : nat) : option Z :=
  match fuel with
  | O => None
  | S fuel =>
      let q := h_ptr h p in
      if (p <? bp) && (bp <? q) then Some p
      else if (q <=? p) && ((p <? bp) || (bp <? q)) then Some p
      else free_find h bp q fuel
  end.

(** The rest of [free], once [p] is found. *)
Definition free_insert (bp p : Z) (h : heap) : heap :=
  let q := h_ptr h p in
  let h := if bp + HSIZE * h_size h bp =? q
           then set_ptr bp (h_ptr h q) (set_size bp (h_size h bp + h_size h q) h)
           else set_ptr bp q h in
  let h := if p + HSIZE * h_size h p =? bp
           then set_ptr p (h_ptr h bp) (set_size p (h_size h p + h_size h bp) h)
           else set_ptr p bp h in
  set_freep p h.

Definition free (ap : Z) (fuel : nat) : M heap unit :=
  let bp := ap - HSIZE in
  let! h := get in
  match free_find h bp (h_freep h) fuel with
  | Some p => modify (free_insert bp p)
  | None => block
  end.

Section Malloc.
(** The address of the static header [base], and whether [sbrk] can grow a process
    of size [brk] by [n] bytes. *)
Variable base : Z.
Variable grow : Z -> Z -> bool.

(** [sbrk(n)] returns the old break, or -1. *)
Definition sbrk (n : Z) : M heap Z :=
  let! h := get in
  if grow (h_brk h) n then modify (set_brk (h_brk h + n)) ;;; m_ret (h_brk h)
  else m_ret (-1).

Definition morecore (nu : Z) (fuel : nat) : M heap Z :=
  let nu := if nu <? 4096 then 4096 else nu in
  let! p := sbrk (s32 (u32 (nu * HSIZE))) in
  if p =? -1 then m_ret 0
  else
    modify (set_size p nu) ;;;
    free (p + HSIZE) fuel ;;;
    gets h_freep.

(** Taking [nunits] from the free block [p], whose predecessor is [prevp]. *)
Definition take (nunits prevp p : Z) : M heap Z :=
  let! h := get in
  if h_size h p =? nunits then
    modify (set_ptr prevp (h_ptr h p)) ;;;
    modify (set_freep prevp) ;;;
    m_ret (p + HSIZE)
  else
    modify (set_size p (h_size h p - nunits)) ;;;
    let! h := get in
    let p := p + HSIZE * h_size h p in
    modify (set_size p nunits) ;;;
    modify (set_freep prevp) ;;;
    m_ret (p + HSIZE).

Fixpoint malloc_loop (nunits prevp p : Z) (fuel : nat) : M heap Z :=
  match fuel with
  | O => block
  | S fuel =>
      let! h := get in
      if nunits <=? h_size h p then take nunits prevp p
      else if p =? h_freep h then
        let! p := morecore nunits (S (S fuel)) in
        if p =? 0 then m_ret 0
        else
          let! h := get in
          malloc_loop nunits p (h_ptr h p) fuel
      else malloc_loop nunits p (h_ptr h p) fuel
  end.

Definition units (nbytes : Z) : Z := u32 (nbytes + HSIZE - 1) / HSIZE + 1.

Definition malloc (nbytes : Z) (fuel : nat) : M heap Z :=
  let nunits := units nbytes in
  let! h := get in
  when (h_freep h =? 0)
    (modify (set_ptr base base) ;;;
     modify (set_freep base) ;;;
     modify (set_size base 0)) ;;;
  let! h := get in
  let prevp := h_freep h in
  malloc_loop nunits prevp (h_ptr h prevp) fuel.
End Malloc.

(** ** Paths through the free list *)

(** Following [N] visits [l] and arrives at [y]. *)
Fixpoint path (N : Z -> Z) (l : list Z) (y : Z) : Prop :=
  match l with
  | [] => True
  | x :: l => N x = hd y l /\ path N l y
  end.

Lemma path_app N l1 l2 y : path N (l1 ++ l2) y <-> path N l1 (hd y l2) /\ path N l2 y.
Proof.
  induction l1 as [|x l1 IH]; simpl; [tauto|]. rewrite IH. destruct l1; simpl; tauto.
Qed.

Lemma path_frame N N' l y : path N l y -> (forall x, x ∈ l -> N' x = N x) -> path N' l y.
Proof.
  induction l as [|x l IH]; simpl; [done|]. intros [H1 H2] E.
  split; [rewrite E; [done|by left]|]. apply IH; [done|]. intros z Hz. apply E. by right.
Qed.

(** [a] ends before [b] begins, with something between them. *)
Definition gap (S : Z -> Z) (a b : Z) : Prop := a < b /\ a + HSIZE * S a < b.

Lemma sorted_frame S S' l :
  StronglySorted (gap S) l -> (forall x, x ∈ l -> S' x = S x) -> StronglySorted (gap S') l.
Proof.
  induction 1 as [|x l Hl IH Hx]; intros E; constructor.
  - apply IH. intros z Hz. apply E. by right.
  - eapply Forall_impl; [exact Hx|]. intros y Hy. unfold gap. rewrite E by by left. done.
Qed.

(** ** The search of [free] *)

Section Find.
Context (h : heap) (bp : Z).
Implicit Types (l : list Z).

Lemma find_here base l1 t l2 fuel :
  path (h_ptr h) (t :: l2) base -> t < bp -> Forall (fun z => bp < z) l2 -> base <= t ->
  fuel <> O -> free_find h bp t fuel = Some t.
Proof.
  intros [Ht _] Hlt Hgt Hb Hf. destruct fuel as [|fuel]; [done|]. simpl. rewrite Ht.
  destruct l2 as [|z l2]; simpl.
  - destruct (Z.ltb_spec t bp), (Z.ltb_spec bp base), (Z.leb_spec base t); try lia; done.
  - apply Forall_cons in Hgt as [Hz _].
    destruct (Z.ltb_spec t bp), (Z.ltb_spec bp z); try lia; done.
Qed.

Lemma find_below base x l1 t l2 fuel :
  path (h_ptr h) (x :: l1 ++ t :: l2) base -> StronglySorted Z.lt (x :: l1 ++ t :: l2) ->
  base <= x -> t < bp -> Forall (fun z => bp < z) l2 -> (length l1 + 2 <= fuel)%nat ->
  free_find h bp x fuel = Some t.
Proof.
  revert x fuel. induction l1 as [|y l1 IH]; intros x fuel Hp Hs Hb Ht Hgt Hf;
    (destruct fuel as [|fuel]; [simpl in Hf; lia|]); destruct Hp as [Hx Hp];
    apply StronglySorted_cons in Hs as [Hlt Hs']; simpl in Hx, Hlt; cbn [free_find]; rewrite Hx.
  - apply Forall_cons in Hlt as [Hxt _].
    destruct (Z.ltb_spec x bp), (Z.ltb_spec bp t), (Z.leb_spec t x); try lia. simpl.
    apply (find_here base []  t l2); [done|done|done|lia|simpl in Hf; lia].
  - apply Forall_cons in Hlt as [Hxy Hlt]. assert (Hyt : y < t).
    { apply StronglySorted_cons in Hs' as [Hl _]. rewrite Forall_forall in Hl. apply Hl.
      apply elem_of_app. right. by left. }
    destruct (Z.ltb_spec x bp), (Z.ltb_spec bp y), (Z.leb_spec y x); try lia. simpl.
    apply IH; [done|done|lia|done|done|simpl in Hf; lia].
Qed.

Lemma find_above base x k rest t fuel :
  path (h_ptr h) (x :: k) base -> StronglySorted Z.lt (x :: k) -> bp < x ->
  base < bp -> free_find h bp base rest = Some t -> (length k + 1 + rest <= fuel)%nat ->
  (forall n, (rest <= n)%nat -> free_find h bp base n = Some t) ->
  free_find h bp x fuel = Some t.
Proof.
  revert x fuel. induction k as [|y k IH]; intros x fuel [Hx Hp] Hs Hgt Hb Hr Hf Hmono;
    (destruct fuel as [|fuel]; [simpl in Hf; lia|]); simpl in Hx; cbn [free_find]; rewrite Hx.
  - destruct (Z.ltb_spec x bp), (Z.leb_spec base x), (Z.ltb_spec bp base); try lia; simpl.
    apply Hmono. simpl in Hf. lia.
  - apply StronglySorted_cons in Hs as [Hlt Hs']. apply Forall_cons in Hlt as [Hxy _].
    destruct (Z.ltb_spec x bp), (Z.leb_spec y x); try lia; simpl.
    apply (IH y); [done|done|lia|done|done|simpl in Hf; lia|done].
Qed.

(** The loop stops at the last free block below [bp], wherever it starts. *)
Lemma free_find_spec base l1 t l2 p fuel :
  path (h_ptr h) (l1 ++ t :: l2) base -> StronglySorted Z.lt (l1 ++ t :: l2) ->
  hd base (l1 ++ [t]) = base -> t < bp -> Forall (fun z => bp < z) l2 ->
  p ∈ l1 ++ t :: l2 -> (2 * length (l1 ++ t :: l2) + 2 <= fuel)%nat ->
  free_find h bp p fuel = Some t.
Proof.
  intros Hp Hs Hb Ht Hgt Hin Hf. rewrite length_app in Hf. simpl in Hf.
  assert (Hbt : base <= t).
  { destruct l1 as [|x l1]; simpl in Hb; [lia|]. subst x. apply StronglySorted_cons in Hs as [Hl _].
    rewrite Forall_forall in Hl. specialize (Hl t ltac:(apply elem_of_app; right; by left)). lia. }
  assert (Hlow : forall x, x ∈ l1 -> base <= x).
  { intros x Hx. destruct l1 as [|y l1]; [by apply not_elem_of_nil in Hx|]. simpl in Hb. subst y.
    apply elem_of_cons in Hx as [->|Hx]; [lia|]. apply StronglySorted_cons in Hs as [Hl _].
    rewrite Forall_forall in Hl. specialize (Hl x ltac:(apply elem_of_app; by left)). lia. }
  assert (Below : forall x n, x ∈ l1 ++ [t] -> (length l1 + 2 <= n)%nat -> free_find h bp x n = Some t).
  { intros x n [Hx|Hx]%elem_of_app Hn.
    - pose proof (Hlow x Hx). apply list_elem_of_split in Hx as (k1 & k2 & ->).
      rewrite <- app_assoc in Hp, Hs. apply path_app in Hp as [_ Hp].
      apply StronglySorted_app in Hs as (_ & _ & Hs).
      rewrite length_app in Hn. simpl in Hn.
      apply (find_below base x k2 t l2); [done|done|done|done|done|lia].
    - apply list_elem_of_singleton in Hx. subst x. apply path_app in Hp as [_ Hp].
      apply (find_here base l1 t l2); [done..|lia]. }
  change (t :: l2) with ([t] ++ l2) in Hin. rewrite app_assoc in Hin.
  apply elem_of_app in Hin as [Hx|Hx]; [apply Below; [done|lia]|].
  apply list_elem_of_split in Hx as (k1 & k2 & ->).
  assert (Hbb : base ∈ l1 ++ [t]) by (destruct l1; simpl in Hb; subst; by left).
  change (t :: k1 ++ p :: k2) with ((t :: k1) ++ p :: k2) in Hp, Hs. rewrite app_assoc in Hp, Hs.
  apply path_app in Hp as [_ Hp]. apply StronglySorted_app in Hs as (_ & _ & Hs).
  apply Forall_app in Hgt as [_ Hgt]. apply Forall_cons in Hgt as [Hgt _].
  rewrite length_app in Hf. simpl in Hf.
  apply (find_above base p k2 (length l1 + 2)); [done|done|done|lia|by apply Below|lia|].
  intros n Hn. by apply Below.
Qed.
End Find.

(** ** Inserting a block *)

(** The blocks of [n] headers at [a] and of [m] headers at [b] have nothing in common. *)
Definition disj (a n b m : Z) : Prop := a + HSIZE * n <= b \/ b + HSIZE * m <= a.

Lemma gap_lt S l : StronglySorted (gap S) l -> StronglySorted Z.lt l.
Proof.
  induction 1 as [|x l Hl IH Hx]; constructor; [done|].
  eapply Forall_impl; [exact Hx|]. by intros y [? _].
Qed.

Section Insert.
Context (base : Z).
Implicit Types (h : heap) (l : list Z).

(** The free blocks of [l] are well placed below [brk]. *)
Definition placed (S : Z -> Z) (brk : Z) l : Prop :=
  StronglySorted (gap S) l /\ forall f, f ∈ l -> 0 <= S f /\ f + HSIZE * S f <= brk /\ (f = base \/ 0 < S f).

(** What inserting block [bp] does to a list of free blocks: it touches only headers
    of the list and of [bp], keeps clear of whatever was clear of both, and leaves a
    block at least as large as the new one. *)
Record merged (S S' : Z -> Z) (l l' : list Z) (bp : Z) : Prop := Merged {
  mg_frame x : (x ∉ l) -> x <> bp -> S' x = S x;
  mg_in x : x ∈ l' -> x ∈ l \/ x = bp;
  mg_len : (length l' <= length l + 1)%nat;
  mg_disj c m : 0 < m -> disj c m bp (S bp) -> (forall f, f ∈ l -> disj c m f (S f)) ->
    forall f, f ∈ l' -> disj c m f (S' f);
  mg_big : exists y, y ∈ l' /\ S bp <= S' y /\ 0 < S' y }.

(** [if(bp + bp->s.size == p->s.ptr) ... else bp->s.ptr = p->s.ptr] with [q] the
    successor: the blocks from [bp] on. *)
Definition join_right (bp q : Z) h : heap :=
  if bp + HSIZE * h_size h bp =? q
  then set_ptr bp (h_ptr h q) (set_size bp (h_size h bp + h_size h q) h)
  else set_ptr bp q h.

Lemma join_right_spec h bp l2 brk :
  path (h_ptr h) l2 base -> placed (h_size h) brk l2 ->
  (forall z, z ∈ l2 -> bp + HSIZE * h_size h bp <= z) -> base < bp -> 0 < h_size h bp ->
  bp + HSIZE * h_size h bp <= brk -> (base ∉ l2) ->
  let h' := join_right bp (hd base l2) h in
  exists l2', path (h_ptr h') (bp :: l2') base /\ placed (h_size h') brk (bp :: l2') /\
    merged (h_size h) (h_size h') l2 (bp :: l2') bp /\
    (forall x, x <> bp -> h_ptr h' x = h_ptr h x /\ h_size h' x = h_size h x) /\
    h_size h bp <= h_size h' bp /\ (forall x, x ∈ l2' -> x ∈ l2).
Proof.
  intros Hp [Hs Hpl] Hab Hb Hn Hbrk Hbl h'. unfold join_right in h'.
  assert (Hni : bp ∉ l2) by (intros Hin; specialize (Hab _ Hin); hlia).
  destruct (Z.eqb_spec (bp + HSIZE * h_size h bp) (hd base l2)) as [E|E].
  - destruct l2 as [|z l2]; cbn [hd] in E; [unfold HSIZE in E; lia|].
    apply StronglySorted_cons in Hs as [Hz Hs]. destruct Hp as [Hpz Hp].
    destruct (Hpl z ltac:(by left)) as (Hz1 & Hz2 & Hz3).
    apply not_elem_of_cons in Hni as [Hbz Hni]. apply not_elem_of_cons in Hbl as [Hbz' Hbl].
    assert (Sbp : h_size h' bp = h_size h bp + h_size h z) by (unfold h'; simpl; apply fn_lookup_insert).
    assert (Sne : forall x, x <> bp -> h_ptr h' x = h_ptr h x /\ h_size h' x = h_size h x).
    { intros x Hx. unfold h'. simpl. by rewrite !fn_lookup_insert_ne. }
    exists l2. split; [|split; [|split; [|split; [done|split; [lia|intros; by right]]]]].
    + split; [unfold h'; simpl; by rewrite fn_lookup_insert|].
      eapply path_frame; [exact Hp|]. intros x Hx. apply Sne. by intros ->.
    + split.
      * constructor; [eapply sorted_frame; [exact Hs|]; intros x Hx; apply Sne; by intros ->|].
        eapply Forall_impl; [exact Hz|]. intros y [? Hy]. unfold gap, HSIZE in *. rewrite Sbp. lia.
      * intros f [->|Hf]%elem_of_cons; [unfold HSIZE in *; rewrite Sbp; lia|].
        rewrite (proj2 (Sne f ltac:(by intros ->))). apply Hpl. by right.
    + split.
      * intros x _ Hx. by apply Sne.
      * intros x [->|Hx]%elem_of_cons; [by right|left; by right].
      * simpl. lia.
      * intros c m Hm D1 D2 f [->|Hf]%elem_of_cons.
        -- specialize (D2 z ltac:(by left)). unfold disj, HSIZE in *. rewrite Sbp. lia.
        -- rewrite (proj2 (Sne f ltac:(by intros ->))). apply D2. by right.
      * exists bp. split; [by left|lia].
  - assert (Sne : forall x, x <> bp -> h_ptr h' x = h_ptr h x /\ h_size h' x = h_size h x).
    { intros x Hx. unfold h'. simpl. by rewrite fn_lookup_insert_ne. }
    assert (Sbp : forall x, h_size h' x = h_size h x) by done.
    exists l2. split; [|split; [|split; [|split; [done|split; [rewrite Sbp; lia|done]]]]].
    + split; [unfold h'; simpl; by rewrite fn_lookup_insert|].
      eapply path_frame; [exact Hp|]. intros x Hx. apply Sne. by intros ->.
    + split.
      * constructor; [done|]. apply Forall_forall. intros y Hy. pose proof (Hab y Hy).
        destruct l2 as [|z l2]; [by apply not_elem_of_nil in Hy|]. cbn [hd] in E.
        apply StronglySorted_cons in Hs as [Hz Hs].
        unfold gap. rewrite Sbp. apply elem_of_cons in Hy as [->|Hy]; [hlia|].
        rewrite Forall_forall in Hz. destruct (Hz y Hy). specialize (Hab z ltac:(by left)). hlia.
      * intros f [->|Hf]%elem_of_cons; [rewrite Sbp; lia|by apply Hpl].
    + split.
      * done.
      * intros x [->|Hx]%elem_of_cons; [by right|by left].
      * simpl. lia.
      * intros c m Hm D1 D2 f [->|Hf]%elem_of_cons; [done|by apply D2].
      * exists bp. split; [by left|rewrite Sbp; lia].
Qed.

(** [if(p + p->s.size == bp) ... else p->s.ptr = bp]: the whole list. *)
Definition join_left (bp p : Z) h : heap :=
  if p + HSIZE * h_size h p =? bp
  then set_ptr p (h_ptr h bp) (set_size p (h_size h p + h_size h bp) h)
  else set_ptr p bp h.

Lemma path_last N l1 t k y : path N l1 t -> N t = hd y k -> path N k y -> path N (l1 ++ t :: k) y.
Proof. intros. apply path_app. by split. Qed.

Lemma join_left_spec h bp l1 t l2 brk :
  path (h_ptr h) l1 t -> path (h_ptr h) (bp :: l2) base ->
  placed (h_size h) brk (l1 ++ [t]) -> placed (h_size h) brk (bp :: l2) ->
  t < bp -> t + HSIZE * h_size h t <= bp -> 0 < h_size h bp -> base <= t -> h_size h base = 0 ->
  let h' := join_left bp t h in
  exists k, (k = bp :: l2 \/ k = l2) /\
    path (h_ptr h') (l1 ++ t :: k) base /\ placed (h_size h') brk (l1 ++ t :: k) /\
    (forall x, x <> t -> h_size h' x = h_size h x) /\
    (forall c m, 0 < m -> disj c m t (h_size h t) -> disj c m bp (h_size h bp) -> disj c m t (h_size h' t)) /\
    (exists y, y ∈ t :: k /\ h_size h bp <= h_size h' y) /\ h_size h' base = 0.
Proof.
  intros P1 [Pb P2] [Hs1 G1] [Hs2 G2] Hlt Hend Hn Hbt Hb0 h'. unfold join_left in h'.
  apply StronglySorted_app in Hs1 as (Hc & Hs1 & _). apply StronglySorted_cons in Hs2 as [Hgb Hs2].
  assert (Hc1 : forall x, x ∈ l1 -> gap (h_size h) x t) by (intros x Hx; apply Hc; [done|by left]).
  assert (H1t : t ∉ l1) by (intros [? _]%Hc1; lia).
  assert (H2t : t ∉ bp :: l2).
  { intros [->|Hx]%elem_of_cons; [lia|]. rewrite Forall_forall in Hgb. destruct (Hgb _ Hx). lia. }
  destruct (G1 t ltac:(apply elem_of_app; right; by left)) as (Gt1 & Gt2 & Gt3).
  assert (Fr : forall x, x <> t -> h_ptr h' x = h_ptr h x /\ h_size h' x = h_size h x).
  { intros x Hx. unfold h'. destruct (_ =? _); simpl; by rewrite ?fn_lookup_insert_ne. }
  assert (Pl1 : path (h_ptr h') l1 t).
  { eapply path_frame; [done|]. intros x Hx. apply Fr. by intros ->. }
  assert (Sl1 : StronglySorted (gap (h_size h')) l1).
  { eapply sorted_frame; [done|]. intros x Hx. apply Fr. by intros ->. }
  assert (Glue : forall k, (forall x, x ∈ k -> x ∈ bp :: l2) -> StronglySorted (gap (h_size h)) k ->
    0 <= h_size h' t -> t + HSIZE * h_size h' t <= brk -> (t = base \/ 0 < h_size h' t) ->
    (forall z, z ∈ k -> gap (h_size h') t z) -> placed (h_size h') brk (l1 ++ t :: k)).
  { intros k Hk Sk T1 T2 T3 Tz. split.
    - apply StronglySorted_app. split; [|split; [done|]].
      + intros x y Hx Hy. destruct (Hc1 x Hx) as [L1 L2]. unfold gap.
        rewrite (proj2 (Fr x ltac:(by intros ->))). apply elem_of_cons in Hy as [->|Hy]; [done|].
        destruct (Tz y Hy). lia.
      + constructor; [|by apply Forall_forall].
        eapply sorted_frame; [done|]. intros x Hx%Hk. apply Fr. by intros ->.
    - intros f [Hf|[->|Hf]%elem_of_cons]%elem_of_app; [|done|].
      + rewrite (proj2 (Fr f ltac:(by intros ->))). apply G1, elem_of_app. by left.
      + apply Hk in Hf. rewrite (proj2 (Fr f ltac:(by intros ->))). by apply G2. }
  destruct (G2 bp ltac:(by left)) as (Gb1 & Gb2 & _).
  destruct (Z.eqb_spec (t + HSIZE * h_size h t) bp) as [E|E].
  - assert (St : h_size h' t = h_size h t + h_size h bp) by (unfold h'; simpl; apply fn_lookup_insert).
    exists l2. split; [by right|]. split; [|split; [|split; [|split; [|split]]]].
    + apply path_last; [done|unfold h'; simpl; by rewrite fn_lookup_insert|].
      eapply path_frame; [done|]. intros x Hx. apply Fr. intros ->. apply H2t. by right.
    + apply Glue; [intros; by right|done|lia|rewrite St; hlia|right; lia|].
      intros z Hz. rewrite Forall_forall in Hgb. destruct (Hgb z Hz). unfold gap. rewrite St. hlia.
    + intros x Hx. by apply Fr.
    + intros c m Hm. unfold disj. rewrite St. hlia.
    + exists t. split; [by left|lia].
    + rewrite (proj2 (Fr base ltac:(intros <-; rewrite Hb0 in E; hlia))). done.
  - assert (St : h_size h' t = h_size h t) by done.
    exists (bp :: l2). split; [by left|]. split; [|split; [|split; [|split; [|split]]]].
    + apply path_last; [done|unfold h'; simpl; by rewrite fn_lookup_insert|].
      eapply (path_frame (h_ptr h)); [by split|]. intros x Hx. apply Fr. by intros ->.
    + apply Glue; [done|by constructor|by rewrite St|by rewrite St|by rewrite St|].
      intros z [->|Hz]%elem_of_cons; unfold gap; rewrite St; [lia|].
      rewrite Forall_forall in Hgb. destruct (Hgb z Hz). hlia.
    + intros x Hx. by apply Fr.
    + intros c m Hm ? _. by rewrite St.
    + exists bp. split; [right; by left|]. rewrite (proj2 (Fr bp ltac:(lia))). lia.
    + done.
Qed.

(** ** The allocator's invariant

    [fs] are the free blocks besides [base]; [live] the blocks handed out, with their
    sizes. *)
Record hinv h (fs : list Z) (live : list (Z * Z)) : Prop := HInv {
  hi_path : path (h_ptr h) (base :: fs) base;
  hi_placed : placed (h_size h) (h_brk h) (base :: fs);
  hi_base : h_size h base = 0;
  hi_freep : h_freep h ∈ base :: fs;
  hi_live b n : (b, n) ∈ live ->
    h_size h b = n /\ 0 < n /\ base < b /\ b + HSIZE * n <= h_brk h /\
    forall f, f ∈ fs -> disj b n f (h_size h f);
  hi_disj i j b n c m : i <> j -> live !! i = Some (b, n) -> live !! j = Some (c, m) -> disj b n c m }.

Lemma hinv_base_fs h fs live : hinv h fs live -> base ∉ fs.
Proof.
  intros I Hin. destruct (hi_placed _ _ _ I) as [Hs _].
  apply StronglySorted_cons in Hs as [Hg _]. rewrite Forall_forall in Hg.
  destruct (Hg _ Hin). lia.
Qed.

(** The place of an address in the sorted list. *)
Lemma split_at (bp : Z) l :
  StronglySorted Z.lt l -> (bp ∉ l) ->
  exists l1 l2, l = l1 ++ l2 /\ Forall (fun z => z < bp) l1 /\ Forall (fun z => bp < z) l2.
Proof.
  induction l as [|x l IH]; intros Hs Hn; [by exists [], []|].
  apply StronglySorted_cons in Hs as [Hx Hs]. apply not_elem_of_cons in Hn as [Hbx Hn].
  destruct (Z.lt_total x bp) as [Hlt|[->|Hgt]]; [|done|].
  - destruct (IH Hs Hn) as (l1 & l2 & -> & F1 & F2). exists (x :: l1), l2.
    split; [done|]. split; [by constructor|done].
  - exists [], (x :: l). split; [done|]. split; [constructor|]. constructor; [done|].
    eapply Forall_impl; [exact Hx|]. intros z Hz. simpl in *. lia.
Qed.

(** The list around a block [bp] that is clear of it. *)
Lemma hinv_split h fs live bp :
  hinv h fs live -> base < bp -> 0 < h_size h bp ->
  (forall f, f ∈ fs -> disj bp (h_size h bp) f (h_size h f)) ->
  exists l1 t l2, base :: fs = l1 ++ t :: l2 /\ t < bp /\ t + HSIZE * h_size h t <= bp /\
    (forall z, z ∈ l2 -> bp + HSIZE * h_size h bp <= z) /\ hd base (l1 ++ [t]) = base /\ base <= t.
Proof.
  intros I Hb Hn Hd. destruct (hi_placed _ _ _ I) as [Hs G].
  assert (Hni : bp ∉ base :: fs).
  { intros [->|Hin]%elem_of_cons; [lia|]. specialize (Hd _ Hin). unfold disj in Hd.
    destruct (G bp ltac:(by right)). hlia. }
  destruct (split_at bp (base :: fs)) as (l1 & l2 & E & F1 & F2); [by eapply gap_lt|done|].
  destruct l1 as [|x l1]; simpl in E.
  { rewrite <- E in F2. apply Forall_cons in F2 as [? _]. lia. }
  injection E as <- E. destruct (exists_last (l := base :: l1)) as (k & t & Ek); [done|].
  assert (Hin : forall f, f ∈ base :: fs -> f = base \/ f ∈ fs) by (intros f Hf; by apply elem_of_cons in Hf).
  assert (Ht : t ∈ base :: l1) by (rewrite Ek; apply elem_of_app; right; by left).
  assert (Ht' : t ∈ base :: fs).
  { rewrite E. apply elem_of_cons in Ht as [->|Ht]; [by left|right]. apply elem_of_app. by left. }
  rewrite Forall_forall in F1. pose proof (F1 t Ht) as Htb. simpl in Htb.
  destruct (G t Ht') as (Gt & _). exists k, t, l2. split; [|split; [done|split; [|split; [|split]]]].
  - rewrite E. change (base :: l1 ++ l2) with ((base :: l1) ++ l2). rewrite Ek, <- app_assoc. done.
  - destruct (Hin t Ht') as [->|Hf]; [rewrite (hi_base _ _ _ I); hlia|].
    destruct (Hd t Hf); [hlia|done].
  - intros z Hz. rewrite Forall_forall in F2. specialize (F2 z Hz). simpl in F2.
    assert (Hzf : z ∈ fs) by (rewrite E; apply elem_of_app; by right).
    destruct (Hd z Hzf); [done|]. destruct (G z ltac:(by right)) as (Gz & _). hlia.
  - rewrite <- Ek. done.
  - apply elem_of_cons in Ht as [->|Ht]; [lia|].
    apply StronglySorted_cons in Hs as [Hg _]. rewrite Forall_forall in Hg.
    destruct (Hg t); [rewrite E; apply elem_of_app; by left|lia].
Qed.

(** Both joins around the list [l1 ++ t :: l2], [bp] between [t] and [l2]. *)
Lemma insert_list h bp l1 t l2 brk :
  path (h_ptr h) (l1 ++ t :: l2) base -> placed (h_size h) brk (l1 ++ t :: l2) ->
  t < bp -> t + HSIZE * h_size h t <= bp -> (forall z, z ∈ l2 -> bp + HSIZE * h_size h bp <= z) ->
  base <= t -> h_size h base = 0 -> 0 < h_size h bp -> bp + HSIZE * h_size h bp <= brk ->
  let h' := join_left bp t (join_right bp (h_ptr h t) h) in
  exists r, path (h_ptr h') (l1 ++ t :: r) base /\ placed (h_size h') brk (l1 ++ t :: r) /\
    merged (h_size h) (h_size h') (l1 ++ t :: l2) (l1 ++ t :: r) bp /\ h_size h' base = 0.
Proof.
  intros P [Hs G] Ht Hte Hl2 Hbt Hb0 Hn Hbrk.
  apply path_app in P as [P1 [Pt P2]]. apply StronglySorted_app in Hs as (Hc & Hs1 & Hs2).
  apply StronglySorted_cons in Hs2 as [Hgt Hs2].
  assert (Hb2 : base ∉ l2) by (intros Hx; specialize (Hl2 _ Hx); hlia).
  destruct (join_right_spec h bp l2 brk) as (l2' & R1 & R2 & R3 & R4 & R5 & R6);
    [done| |done|lia|done|done|done|].
  { split; [done|]. intros f Hf'. apply G, elem_of_app. right. by right. }
  rewrite <- Pt in *. set (h1 := join_right bp (h_ptr h t) h) in *.
  assert (Sz : forall x, x ∈ l1 ++ [t] -> h_ptr h1 x = h_ptr h x /\ h_size h1 x = h_size h x).
  { intros x Hx. apply R4. intros ->. apply elem_of_app in Hx as [Hx|Hx].
    - destruct (Hc bp t Hx ltac:(by left)). lia.
    - apply list_elem_of_singleton in Hx. lia. }
  assert (Tin : t ∈ l1 ++ [t]) by (apply elem_of_app; right; by left).
  destruct (join_left_spec h1 bp l1 t l2' brk) as (k & Hk & L1 & L2 & L3 & L4 & (y & Hy1 & Hy2) & L5);
    [|done| |done|done|by rewrite (proj2 (Sz t Tin))|lia|done|by rewrite (proj2 (R4 base ltac:(lia)))|].
  { eapply path_frame; [done|]. intros x Hx. apply Sz, elem_of_app. by left. }
  { split.
    - eapply (sorted_frame (h_size h)); [|intros x Hx; by apply Sz].
      apply StronglySorted_app. split; [|split; [done|repeat constructor]].
      intros x z Hx Hz%list_elem_of_singleton. subst z. apply Hc; [done|by left].
    - intros f Hx. rewrite (proj2 (Sz f Hx)). apply G.
      apply elem_of_app in Hx as [?|Hx]; apply elem_of_app; [by left|right].
      apply list_elem_of_singleton in Hx. subst f. by left. }
  exists k. split; [done|]. split; [done|]. split; [|done].
  assert (Kin : forall x, x ∈ k -> x ∈ bp :: l2').
  { intros x Hx. destruct Hk as [-> | ->]; [done|by right]. }
  assert (Kt : forall x, x ∈ k -> x <> t).
  { intros x [->|Hx]%Kin%elem_of_cons ->; [lia|]. specialize (Hl2 _ (R6 _ Hx)). hlia. }
  split.
  - intros x Hx Hxb. rewrite L3; [by apply R4|]. intros ->. apply Hx, elem_of_app. right. by left.
  - intros x. rewrite !elem_of_app, !elem_of_cons. intros [?|[?|[?|Hx]%Kin%elem_of_cons]]; try tauto.
    apply R6 in Hx. tauto.
  - rewrite !length_app. pose proof (mg_len _ _ _ _ _ R3) as Hm. simpl in *.
    destruct Hk as [-> | ->]; simpl; lia.
  - intros c m Hm D1 D2. pose proof (mg_disj _ _ _ _ _ R3 c m Hm D1) as D3.
    assert (D3' : forall f, f ∈ bp :: l2' -> disj c m f (h_size h1 f)).
    { apply D3. intros f Hf. apply D2, elem_of_app. right. by right. }
    intros f [Hf|[->|Hf]%elem_of_cons]%elem_of_app.
    + assert (f <> t) by (intros ->; destruct (Hc t t Hf ltac:(by left)); lia).
      rewrite L3, (proj2 (Sz f ltac:(apply elem_of_app; by left))) by done.
      apply D2, elem_of_app. by left.
    + apply L4; [done| |apply D3'; by left]. rewrite (proj2 (Sz t Tin)).
      apply D2, elem_of_app. right. by left.
    + rewrite L3 by by apply Kt. by apply D3', Kin.
  - exists y. split; [apply elem_of_app; by right|lia].
Qed.

Lemma free_insert_eq bp p h :
  free_insert bp p h = set_freep p (join_left bp p (join_right bp (h_ptr h p) h)).
Proof. reflexivity. Qed.

(** [free] of a block that is clear of the free list and of all live blocks. *)
Lemma free_insert_spec h fs live bp fuel :
  hinv h fs live -> base < bp -> 0 < h_size h bp -> bp + HSIZE * h_size h bp <= h_brk h ->
  (forall f, f ∈ fs -> disj bp (h_size h bp) f (h_size h f)) ->
  (forall c m, (c, m) ∈ live -> disj c m bp (h_size h bp)) ->
  (2 * length fs + 4 <= fuel)%nat ->
  exists t fs', free_find h bp (h_freep h) fuel = Some t /\ hinv (free_insert bp t h) fs' live /\
    (length fs' <= length fs + 1)%nat /\
    exists y, y ∈ fs' /\ h_size h bp <= h_size (free_insert bp t h) y.
Proof.
  intros I Hb Hn Hbrk Hd Hlv Hf.
  destruct (hinv_split h fs live bp I Hb Hn Hd) as (l1 & t & l2 & E & Ht & Hte & Hl2 & Hhd & Hbt).
  pose proof (hi_path _ _ _ I) as P. pose proof (hi_placed _ _ _ I) as G. rewrite E in P, G.
  destruct (insert_list h bp l1 t l2 (h_brk h)) as (r & P' & G' & Mg & Hb0); [done..|apply I|done|done|].
  assert (Hl' : exists fs', l1 ++ t :: r = base :: fs').
  { destruct l1 as [|x l1]; simpl in *; subst; eauto. }
  destruct Hl' as [fs' El']. assert (Ht' : t ∈ base :: fs') by (rewrite <- El'; apply elem_of_app; right; by left).
  rewrite El' in *. rewrite <- E in Mg. exists t, fs'. rewrite free_insert_eq.
  set (h2 := join_left bp t (join_right bp (h_ptr h t) h)) in *.
  split; [|split; [|split]].
  - apply (free_find_spec h bp base l1 t l2); [done|eapply gap_lt, G|done|done| | |].
    + apply Forall_forall. intros z Hz. specialize (Hl2 z Hz). hlia.
    + rewrite <- E. apply I.
    + rewrite <- E. simpl. lia.
  - assert (Hbrk2 : h_brk h2 = h_brk h).
    { unfold h2, join_left, join_right. by repeat destruct (_ =? _). }
    split; simpl; [done|by rewrite Hbrk2|done|done| |by apply (hi_disj _ _ _ I)].
    intros b n Hbn. destruct (hi_live _ _ _ I b n Hbn) as (B1 & B2 & B3 & B4 & B5). rewrite Hbrk2.
    assert (Dbase : disj b n base (h_size h base)) by (right; rewrite (hi_base _ _ _ I); hlia).
    split; [|split; [done|split; [done|split; [done|]]]].
    + rewrite (mg_frame _ _ _ _ _ Mg); [done| |].
      * intros [->|Hx]%elem_of_cons; [lia|]. specialize (B5 _ Hx).
        destruct (proj2 (hi_placed _ _ _ I) b ltac:(by right)) as (_ & _ & [->|?]); [lia|].
        unfold disj in B5. hlia.
      * intros ->. specialize (Hlv _ _ Hbn). unfold disj in Hlv. hlia.
    + intros f Hf'. eapply (mg_disj _ _ _ _ _ Mg); [done|by apply Hlv| |by right].
      intros g [->|Hg]%elem_of_cons; [done|by apply B5].
  - pose proof (mg_len _ _ _ _ _ Mg) as Hl. simpl in Hl. lia.
  - destruct (mg_big _ _ _ _ _ Mg) as (y & Hy & Hy1 & Hy2). exists y. split; [|done].
    apply elem_of_cons in Hy as [->|Hy]; [lia|done].
Qed.

(** ** Allocation *)

Lemma hinv_freep h fs live p : hinv h fs live -> p ∈ base :: fs -> hinv (set_freep p h) fs live.
Proof. intros [] Hp. by split. Qed.

(** A live block added to an invariant: it must be clear of everything. *)
Lemma live_cons_disj (live : list (Z * Z)) q k :
  (forall i j b n c m, i <> j -> live !! i = Some (b, n) -> live !! j = Some (c, m) -> disj b n c m) ->
  (forall c m, (c, m) ∈ live -> disj q k c m) ->
  forall i j b n c m, i <> j -> ((q, k) :: live) !! i = Some (b, n) ->
    ((q, k) :: live) !! j = Some (c, m) -> disj b n c m.
Proof.
  intros Hl Hq [|i] [|j] b n c m Hne H1 H2; simpl in *; [done| | |].
  - injection H1 as <- <-. apply Hq. by eapply list_elem_of_lookup_2.
  - injection H2 as <- <-. destruct (Hq b n) as [?|?]; [by eapply list_elem_of_lookup_2|by right|by left].
  - apply (Hl i j); [by intros ->|done..].
Qed.

Lemma take_whole h fs live l1 prevp p l2 :
  hinv h fs live -> base :: fs = l1 ++ prevp :: p :: l2 -> 0 < h_size h p ->
  exists fs', hinv (set_freep prevp (set_ptr prevp (h_ptr h p) h)) fs' ((p, h_size h p) :: live).
Proof.
  intros I E Hn. pose proof (hi_path _ _ _ I) as P. destruct (hi_placed _ _ _ I) as [Hs G].
  rewrite E in P, Hs, G. apply path_app in P as (P1 & Pp & Pq & P2).
  apply StronglySorted_app in Hs as (Hc & Hs1 & Hs2). apply StronglySorted_cons in Hs2 as [Hg2 Hs2].
  pose proof Hs2 as Hs3. apply StronglySorted_cons in Hs3 as [Hg3 Hs3]. rewrite Forall_forall in Hg2, Hg3.
  assert (Hf : exists fs', l1 ++ prevp :: l2 = base :: fs' /\ forall x, x ∈ fs' -> x ∈ fs /\ x <> p).
  { assert (Hsub : forall x, x ∈ l1 ++ prevp :: l2 -> x <> p).
    { intros x [Hx|[->|Hx]%elem_of_cons]%elem_of_app ->.
      - destruct (Hc p p Hx); [right; by left|lia].
      - destruct (Hg2 p); [by left|lia].
      - destruct (Hg3 p Hx). lia. }
    destruct l1 as [|y l1]; simpl in E; injection E as <- E; [exists l2|exists (l1 ++ prevp :: l2)];
      (split; [done|]); intros x Hx; (split; [|apply Hsub; by right]); rewrite E; [by right|].
    apply elem_of_app in Hx as [?|[->|?]%elem_of_cons]; apply elem_of_app; [by left|right; by left|].
    right. right. by right. }
  destruct Hf as (fs' & Ef & Hf). exists fs'.
  assert (Hni : forall x, x ∈ l1 ++ l2 -> x <> prevp).
  { intros x [Hx|Hx]%elem_of_app ->; [destruct (Hc prevp prevp Hx); [by left|lia]|].
    destruct (Hg2 prevp); [by right|lia]. }
  destruct (G p ltac:(apply elem_of_app; right; right; by left)) as (_ & Gp & _).
  assert (Hpf : p ∈ fs).
  { assert (Hp : p ∈ base :: fs) by (rewrite E; apply elem_of_app; right; right; by left).
    apply elem_of_cons in Hp as [->|Hp]; [|done]. rewrite (hi_base _ _ _ I) in Hn. lia. }
  split; cbn [h_ptr h_size h_freep h_brk set_freep set_ptr].
  - rewrite <- Ef. apply path_last; [|by rewrite fn_lookup_insert|].
    + eapply path_frame; [done|]. intros x Hx. apply fn_lookup_insert_ne.
      intros <-. by apply (Hni prevp ltac:(apply elem_of_app; by left)).
    + eapply path_frame; [done|]. intros x Hx. apply fn_lookup_insert_ne.
      intros <-. by apply (Hni prevp ltac:(apply elem_of_app; by right)).
  - rewrite <- Ef. split.
    + apply StronglySorted_app. split; [|split; [done|constructor; [done|]]].
      * intros x y Hx [->|Hy]%elem_of_cons; apply Hc; [done|by left|done|right; by right].
      * apply Forall_forall. intros y Hy. apply Hg2. by right.
    + intros f [?|[->|?]%elem_of_cons]%elem_of_app; apply G, elem_of_app; [by left|right; by left|].
      right. right. by right.
  - apply I.
  - rewrite <- Ef. apply elem_of_app. right. by left.
  - intros b n [[= -> ->]|Hb]%elem_of_cons.
    + split; [done|]. split; [done|]. split; [|split; [done|]].
      * destruct l1 as [|y l1]; simpl in E; injection E as <- E; [by destruct (Hg2 p ltac:(by left))|].
        destruct (Hc base p); [by left|right; by left|done].
      * intros f Hff. destruct (Hf f Hff) as [Hffs Hne].
        assert (Hor : f ∈ l1 ++ prevp :: l2) by (rewrite Ef; by right).
        apply elem_of_app in Hor as [Hx|[->|Hx]%elem_of_cons].
        -- destruct (Hc f p Hx); [right; by left|]. right. lia.
        -- destruct (Hg2 p); [by left|]. right. lia.
        -- destruct (Hg3 f Hx). left. lia.
    + destruct (hi_live _ _ _ I b n Hb) as (B1 & B2 & B3 & B4 & B5).
      do 4 (split; [done|]). intros f [Hff _]%Hf. by apply B5.
  - apply live_cons_disj; [apply I|]. intros c m Hc'.
    destruct (hi_live _ _ _ I c m Hc') as (_ & _ & _ & _ & B5). specialize (B5 p Hpf).
    unfold disj in *. tauto.
Qed.

(** Two blocks of the free list are clear of each other. *)
Lemma free_disj h fs live f g :
  hinv h fs live -> f ∈ base :: fs -> g ∈ base :: fs -> f <> g ->
  f + HSIZE * h_size h f < g \/ g + HSIZE * h_size h g < f.
Proof.
  intros I Hf Hg Hne. destruct (hi_placed _ _ _ I) as [Hs _]. revert Hs Hf Hg.
  induction (base :: fs) as [|x l IH]; intros Hs Hf Hg; [by apply not_elem_of_nil in Hf|].
  apply StronglySorted_cons in Hs as [Hx Hs]. rewrite Forall_forall in Hx.
  apply elem_of_cons in Hf as [->|Hf]; apply elem_of_cons in Hg as [->|Hg]; [done| | |].
  - left. by destruct (Hx g Hg).
  - right. by destruct (Hx f Hf).
  - by apply IH.
Qed.

Lemma take_part h fs live prevp p n :
  hinv h fs live -> p ∈ fs -> prevp ∈ base :: fs -> 0 < n < h_size h p ->
  let q := p + HSIZE * (h_size h p - n) in
  hinv (set_freep prevp (set_size q n (set_size p (h_size h p - n) h))) fs ((q, n) :: live).
Proof.
  intros I Hp Hprev Hn q. destruct (hi_placed _ _ _ I) as [Hs G].
  pose proof (hinv_base_fs _ _ _ I) as Hbf.
  destruct (G p ltac:(by right)) as (_ & Gp & _).
  assert (Hbp : base < p).
  { apply StronglySorted_cons in Hs as [Hx _]. rewrite Forall_forall in Hx. by destruct (Hx p Hp). }
  assert (Hq : forall f, f ∈ base :: fs -> f <> q).
  { intros f Hf ->. unfold q in *. destruct (decide (q = p)) as [E|E]; unfold q in E; [hlia|].
    destruct (free_disj _ _ _ _ p I Hf ltac:(by right) E) as [?|?]; [|hlia].
    destruct (G _ Hf) as (? & _). hlia. }
  set (S' := <[q := n]> (<[p := h_size h p - n]> (h_size h))).
  assert (Sp : S' p = h_size h p - n).
  { unfold S'. rewrite fn_lookup_insert_ne, fn_lookup_insert; [done|]. intros E. by apply (Hq p ltac:(by right)). }
  assert (Sf : forall f, f ∈ base :: fs -> f <> p -> S' f = h_size h f).
  { intros f Hf Hne. unfold S'. rewrite !fn_lookup_insert_ne; [done|done|]. intros E. by apply (Hq f Hf). }
  assert (Sle : forall f, f ∈ base :: fs -> S' f <= h_size h f).
  { intros f Hf. destruct (decide (f = p)) as [->|Hne]; [rewrite Sp; lia|rewrite Sf by done; lia]. }
  split; cbn [h_ptr h_size h_freep h_brk set_freep set_size]; fold S'.
  - apply I.
  - split.
    + revert Hs Sle. clear. induction (base :: fs) as [|x l IH]; intros Hs Sle; constructor.
      * apply StronglySorted_cons in Hs as [_ Hs]. apply IH; [done|]. intros f Hf. apply Sle. by right.
      * apply StronglySorted_cons in Hs as [Hx _]. eapply Forall_impl; [exact Hx|].
        intros y [? ?]. specialize (Sle x ltac:(by left)). unfold gap in *. hlia.
    + intros f Hf. destruct (decide (f = p)) as [->|Hne]; [rewrite Sp; hlia|].
      rewrite Sf by done. by apply G.
  - rewrite Sf; [apply I|by left|lia].
  - done.
  - intros b m [[= -> ->]|Hb]%elem_of_cons.
    + split; [apply fn_lookup_insert|]. split; [lia|]. split; [unfold q; hlia|].
      split; [unfold q; hlia|]. intros f Hf. destruct (decide (f = p)) as [->|Hne].
      { right. rewrite Sp. unfold q. lia. }
      rewrite Sf by (by right || done). unfold disj, q.
      destruct (free_disj _ _ _ f p I ltac:(by right) ltac:(by right) Hne); [right|left]; hlia.
    + destruct (hi_live _ _ _ I b m Hb) as (B1 & B2 & B3 & B4 & B5). pose proof (B5 p Hp) as Bp.
      split; [|do 3 (split; [done|])].
      * unfold S'. unfold disj in Bp. rewrite !fn_lookup_insert_ne; [done|hlia|unfold q; hlia].
      * intros f Hf. specialize (B5 f Hf). pose proof (Sle f ltac:(by right)).
        destruct (G f ltac:(by right)) as (? & _). unfold disj in *. hlia.
  - apply live_cons_disj; [apply I|]. intros c m Hc.
    destruct (hi_live _ _ _ I c m Hc) as (_ & B2 & _ & _ & B5). specialize (B5 p Hp).
    unfold disj, q in *. hlia.
Qed.

Lemma take_spec h fs live l1 prevp p l2 n :
  hinv h fs live -> base :: fs = l1 ++ prevp :: p :: l2 -> 0 < n <= h_size h p ->
  exists q h' fs', take n prevp p h = Done (q + HSIZE) h' /\ hinv h' fs' ((q, n) :: live) /\
    h_brk h' = h_brk h.
Proof.
  intros I E Hn. unfold take. mstep. destruct (Z.eqb_spec (h_size h p) n) as [<-|Hne].
  - destruct (take_whole h fs live l1 prevp p l2 I E) as [fs' I']; [lia|].
    exists p, (set_freep prevp (set_ptr prevp (h_ptr h p) h)), fs'. split; [done|]. done.
  - assert (Hp : p ∈ fs).
    { assert (Hp : p ∈ base :: fs) by (rewrite E; apply elem_of_app; right; right; by left).
      apply elem_of_cons in Hp as [->|Hp]; [|done]. rewrite (hi_base _ _ _ I) in Hn. lia. }
    pose proof (take_part h fs live prevp p n I Hp) as I'.
    exists (p + HSIZE * (h_size h p - n)),
      (set_freep prevp (set_size (p + HSIZE * (h_size h p - n)) n (set_size p (h_size h p - n) h))), fs.
    split; [|split; [apply I'; [rewrite E; apply elem_of_app; right; by left|lia]|done]].
    mstep. mstep. simpl h_size. rewrite fn_lookup_insert. done.
Qed.

(** ** The search of [malloc] *)

Context (grow : Z -> Z -> bool).

(** What [malloc_loop] does when it has come round to [freep]. *)
Definition all_round (n : Z) (fuel : nat) : M heap Z :=
  let! p := morecore grow n (S (S fuel)) in
  if p =? 0 then m_ret 0
  else
    let! h := get in
    malloc_loop grow n p (h_ptr h p) fuel.

(** Walking the list [k] up to [freep]: the first block large enough is taken;
    otherwise the search comes round. *)
Lemma malloc_walk h k n prevp y fuel :
  path (h_ptr h) (k ++ [h_freep h]) y -> (h_freep h ∉ k) ->
  h_ptr h prevp = hd y (k ++ [h_freep h]) -> (length k < fuel)%nat ->
  (exists k1 x k2, prevp :: k ++ [h_freep h] = k1 ++ x :: k2 /\
     exists q k3, k2 = q :: k3 /\ n <= h_size h q /\ h_ptr h x = q /\
     malloc_loop grow n prevp (h_ptr h prevp) fuel h = take n x q h) \/
  (Forall (fun x => h_size h x < n) (k ++ [h_freep h]) /\
   malloc_loop grow n prevp (h_ptr h prevp) fuel h = all_round n (fuel - length k - 1) h).
Proof.
  revert prevp fuel. induction k as [|x k IH]; intros prevp fuel Hp Hni Hprev Hf;
    (destruct fuel as [|fuel]; [lia|]); cbn [app hd] in Hprev; rewrite Hprev; cbn [malloc_loop]; mstep.
  - destruct (Z.leb_spec n (h_size h (h_freep h))) as [Hle|Hgt].
    + left. exists [], prevp, [h_freep h]. split; [done|]. exists (h_freep h), []. done.
    + right. split; [by apply Forall_singleton|]. rewrite Z.eqb_refl. simpl. by rewrite Nat.sub_0_r.
  - apply not_elem_of_cons in Hni as [Hx Hni]. destruct Hp as [Hpx Hp].
    destruct (Z.leb_spec n (h_size h x)) as [Hle|Hgt].
    + left. exists [], prevp, (x :: k ++ [h_freep h]). split; [done|]. eexists x, _. done.
    + rewrite (proj2 (Z.eqb_neq x (h_freep h))) by done.
      destruct (IH x fuel) as [(k1 & z & k2 & E & q & k3 & Eq & Hq & Hz & Er)|[HF Er]];
        [done|done|done|simpl in Hf; lia| |].
      * left. exists (prevp :: k1), z, k2. split; [simpl; by f_equal|]. exists q, k3. done.
      * right. split; [by constructor|]. rewrite Er. done.
Qed.

(** The rotation of the list that a search starting after [freep] follows. *)
Lemma rotate h fs live :
  hinv h fs live ->
  exists l1 l2, base :: fs = l1 ++ h_freep h :: l2 /\ (h_freep h ∉ l2 ++ l1) /\
    path (h_ptr h) ((l2 ++ l1) ++ [h_freep h]) (hd base l2) /\
    h_ptr h (h_freep h) = hd (hd base l2) ((l2 ++ l1) ++ [h_freep h]).
Proof.
  intros I. pose proof (hi_freep _ _ _ I) as Hf. apply list_elem_of_split in Hf as (l1 & l2 & E).
  exists l1, l2. pose proof (hi_path _ _ _ I) as P. pose proof (gap_lt _ _ (proj1 (hi_placed _ _ _ I))) as Hs.
  rewrite E in P, Hs. apply path_app in P as [P1 [Pf P2]].
  apply StronglySorted_app in Hs as (Hc & _ & Hs). apply StronglySorted_cons in Hs as [Hg _].
  assert (Hb : forall d, hd d (l1 ++ [h_freep h]) = base) by (intros; destruct l1; simpl in E |- *; congruence).
  split; [done|]. split; [|split].
  - intros [Hx|Hx]%elem_of_app.
    + rewrite Forall_forall in Hg. specialize (Hg _ Hx). simpl in Hg. lia.
    + specialize (Hc _ (h_freep h) Hx ltac:(by left)). lia.
  - rewrite <- app_assoc. apply path_app. split.
    + by rewrite Hb.
    + apply path_app. split; [done|]. by split.
  - rewrite Pf. destruct l2; [|done]. cbn [app]. by rewrite Hb.
Qed.

(** Where the search succeeds it finds two consecutive entries of the list. *)
Lemma consecutive h fs live x q :
  hinv h fs live -> x ∈ base :: fs -> h_ptr h x = q -> 0 < h_size h q ->
  exists l1 l2, base :: fs = l1 ++ x :: q :: l2.
Proof.
  intros I Hx Hq Hs. apply list_elem_of_split in Hx as (l1 & l2 & E). exists l1.
  pose proof (hi_path _ _ _ I) as P. rewrite E in P. apply path_app in P as [_ [P _]].
  destruct l2 as [|z l2]; simpl in P.
  - rewrite Hq in P. subst q. rewrite P, (hi_base _ _ _ I) in Hs. lia.
  - exists l2. congruence.
Qed.

(** One search of the whole list. *)
Lemma malloc_search h fs live n fuel :
  hinv h fs live -> 0 < n -> (length fs < fuel)%nat ->
  (exists q h' fs', malloc_loop grow n (h_freep h) (h_ptr h (h_freep h)) fuel h = Done (q + HSIZE) h' /\
     hinv h' fs' ((q, n) :: live)) \/
  (Forall (fun x => h_size h x < n) fs /\
   malloc_loop grow n (h_freep h) (h_ptr h (h_freep h)) fuel h = all_round n (fuel - length fs - 1) h).
Proof.
  intros I Hn Hf. destruct (rotate _ _ _ I) as (l1 & l2 & E & Hni & P & Hp).
  assert (Hlen : length (l2 ++ l1) = length fs).
  { apply (f_equal length) in E. rewrite length_app in E |- *. simpl in E. lia. }
  destruct (malloc_walk h (l2 ++ l1) n (h_freep h) (hd base l2) fuel) as [Hfound|[HF Er]];
    [done|done|done|lia| |].
  - left. destruct Hfound as (k1 & x & k2 & Ek & q & k3 & -> & Hq & Hx & Er).
    assert (Hin : x ∈ base :: fs).
    { assert (Hx' : x ∈ h_freep h :: (l2 ++ l1) ++ [h_freep h]) by (rewrite Ek; apply elem_of_app; right; by left).
      rewrite E. rewrite elem_of_app, elem_of_cons. rewrite elem_of_cons, !elem_of_app in Hx'.
      rewrite list_elem_of_singleton in Hx'. tauto. }
    destruct (consecutive _ _ _ x q I Hin Hx ltac:(lia)) as (m1 & m2 & Em).
    destruct (take_spec _ _ _ m1 x q m2 n I Em ltac:(lia)) as (r & h' & fs' & Et & I' & _).
    exists r, h', fs'. by rewrite Er.
  - right. rewrite Hlen in Er. split; [|done]. apply Forall_forall. intros x Hx.
    rewrite Forall_forall in HF. apply HF.
    assert (Hx' : x ∈ base :: fs) by by right. rewrite E in Hx'.
    rewrite elem_of_app, elem_of_cons in Hx'. rewrite !elem_of_app, list_elem_of_singleton. tauto.
Qed.

(** ** Growing the heap *)

(** A header written where no block is does not matter. *)
Lemma hinv_fresh_size h fs live a v :
  hinv h fs live -> h_brk h <= a -> base < h_brk h -> hinv (set_size a v h) fs live.
Proof.
  intros I Ha Hb. destruct (hi_placed _ _ _ I) as [Hs G].
  assert (Ne : forall f, f ∈ base :: fs -> f <> a).
  { intros f Hf ->. destruct (G _ Hf) as (? & ? & [->|?]); hlia. }
  assert (Sf : forall f, f ∈ base :: fs -> <[a := v]> (h_size h) f = h_size h f).
  { intros f Hf. apply fn_lookup_insert_ne. intros E. by apply (Ne f Hf). }
  split; cbn [h_ptr h_size h_freep h_brk set_size]; [apply I| |rewrite Sf; [apply I|by left]|apply I| |apply I].
  - split; [by eapply sorted_frame|]. intros f Hf. rewrite Sf by done. by apply G.
  - intros b n Hbn. destruct (hi_live _ _ _ I b n Hbn) as (B1 & B2 & B3 & B4 & B5).
    rewrite fn_lookup_insert_ne by hlia. do 4 (split; [done|]). intros f Hf.
    rewrite Sf by by right. by apply B5.
Qed.

Lemma hinv_brk h fs live v : hinv h fs live -> h_brk h <= v -> hinv (set_brk v h) fs live.
Proof.
  intros I Hv. split; cbn [h_ptr h_size h_freep h_brk set_brk]; [apply I| |apply I|apply I| |apply I].
  - destruct (hi_placed _ _ _ I) as [Hs G]. split; [done|]. intros f Hf.
    destruct (G f Hf) as (? & ? & ?). split; [done|]. split; [lia|done].
  - intros b n Hbn. destruct (hi_live _ _ _ I b n Hbn) as (? & ? & ? & ? & ?).
    do 3 (split; [done|]). split; [lia|done].
Qed.

Definition core_units (n : Z) : Z := if n <? 4096 then 4096 else n.

Lemma morecore_spec h fs live n fuel :
  hinv h fs live -> 0 < base < h_brk h -> 0 < n < 268435456 -> (2 * length fs + 4 <= fuel)%nat ->
  let b := h_brk h in
  (grow b (HSIZE * core_units n) = false /\ morecore grow n fuel h = Done 0 h) \/
  (grow b (HSIZE * core_units n) = true /\
   exists h' fs', morecore grow n fuel h = Done (h_freep h') h' /\ hinv h' fs' live /\
     h_freep h' <> 0 /\ h_brk h' = b + HSIZE * core_units n /\
     (length fs' <= length fs + 1)%nat /\ exists y, y ∈ fs' /\ n <= h_size h' y).
Proof.
  intros I Hb Hn Hf b. unfold morecore. fold (core_units n).
  assert (Hu : n <= core_units n /\ 0 < core_units n < 268435456).
  { unfold core_units. destruct (Z.ltb_spec n 4096); lia. }
  assert (En : s32 (u32 (core_units n * HSIZE)) = HSIZE * core_units n).
  { rewrite s32_u32, s32_small by hlia. lia. }
  rewrite En. destruct (grow b (HSIZE * core_units n)) eqn:Eg; [right|left].
  - split; [done|]. set (h1 := set_size b (core_units n) (set_brk (b + HSIZE * core_units n) h)).
    assert (I1 : hinv h1 fs live).
    { apply (hinv_brk (set_size b (core_units n) h)); [by apply hinv_fresh_size; [|lia|lia]|].
      simpl. fold b. hlia. }
    assert (Sb : h_size h1 b = core_units n) by (unfold h1; simpl; apply fn_lookup_insert).
    assert (Ne : forall f, f ∈ fs -> h_size h1 f = h_size h f /\ f + HSIZE * h_size h f <= b).
    { intros f Hff. destruct (proj2 (hi_placed _ _ _ I) f ltac:(by right)) as (? & ? & [->|?]).
      - by destruct (hinv_base_fs _ _ _ I).
      - split; [|done]. unfold h1. simpl. apply fn_lookup_insert_ne. unfold b. hlia. }
    destruct (free_insert_spec h1 fs live b fuel I1) as (t & fs' & Ef & I' & Hl & y & Hy & Hsz).
    { unfold b. lia. } { rewrite Sb. lia. } { rewrite Sb. unfold h1. simpl. lia. }
    { intros f Hff. destruct (Ne f Hff) as [-> ?]. by right. }
    { intros c m Hc. destruct (hi_live _ _ _ I c m Hc) as (_ & _ & _ & ? & _). by left. }
    { done. }
    exists (free_insert b t h1), fs'. split; [|split; [done|split; [|split; [|split; [done|]]]]].
    + unfold sbrk. rewrite bind_assoc. mstep. fold b. rewrite Eg. mstep. mstep.
      rewrite (proj2 (Z.eqb_neq b (-1))) by (unfold b; lia). mstep. fold h1.
      unfold free. mstep. replace (b + HSIZE - HSIZE) with b by lia. rewrite Ef. done.
    + pose proof (hi_freep _ _ _ I') as Hin. destruct (hi_placed _ _ _ I') as [Hs _].
      apply StronglySorted_cons in Hs as [Hx _]. rewrite Forall_forall in Hx.
      apply elem_of_cons in Hin as [->|Hin]; [lia|]. destruct (Hx _ Hin). lia.
    + rewrite free_insert_eq. unfold join_left, join_right. by repeat destruct (_ =? _).
    + exists y. split; [done|]. rewrite Sb in Hsz. lia.
  - split; [done|]. unfold sbrk. mstep. fold b. by rewrite Eg.
Qed.

(** ** [malloc] *)

Lemma malloc_loop_spec h fs live n fuel :
  hinv h fs live -> 0 < base < h_brk h -> 0 < n < 268435456 -> (4 * length fs + 12 <= fuel)%nat ->
  let run := malloc_loop grow n (h_freep h) (h_ptr h (h_freep h)) fuel h in
  (grow (h_brk h) (HSIZE * core_units n) = false /\ run = Done 0 h) \/
  exists q h' fs', run = Done (q + HSIZE) h' /\ hinv h' fs' ((q, n) :: live).
Proof.
  intros I Hb Hn Hf run.
  destruct (malloc_search h fs live n fuel I ltac:(lia) ltac:(lia)) as [?|[_ Er]]; [by right|].
  fold run in Er. unfold all_round in Er.
  destruct (morecore_spec h fs live n (S (S (fuel - length fs - 1))) I Hb Hn ltac:(lia))
    as [[Hg Em]|(Hg & h1 & fs1 & Em & I1 & Hp & _ & Hl & y & Hy & Hsz)];
    rewrite (bind_Done _ _ _ _ _ Em) in Er.
  - left. split; [done|]. by rewrite Er.
  - right. rewrite (proj2 (Z.eqb_neq _ 0)) in Er by done. rewrite Er.
    destruct (malloc_search h1 fs1 live n (fuel - length fs - 1) I1 ltac:(lia) ltac:(lia))
      as [(q & h' & fs' & E' & I')|[HF _]]; [by exists q, h', fs'|].
    rewrite Forall_forall in HF. specialize (HF y Hy). simpl in HF. lia.
Qed.

(** ** A program that uses the allocator *)

Lemma free_find_mono h bp p t k k' :
  free_find h bp p k = Some t -> (k <= k')%nat -> free_find h bp p k' = Some t.
Proof.
  revert p k'. induction k as [|k IH]; intros p [|k'] E Hk; simpl in *; try done; [lia|].
  repeat case_match; try done. apply IH; [done|lia].
Qed.

Lemma free_mono ap k k' h h' :
  free ap k h = Done tt h' -> (k <= k')%nat -> free ap k' h = Done tt h'.
Proof.
  unfold free. intros E Hk. mstep. revert E. mstep.
  destruct (free_find h (ap - HSIZE) (h_freep h) k) eqn:F; [|done].
  by rewrite (free_find_mono _ _ _ _ _ _ F Hk).
Qed.

Lemma morecore_mono n k k' h r h' :
  morecore grow n k h = Done r h' -> (k <= k')%nat -> morecore grow n k' h = Done r h'.
Proof.
  unfold morecore. intros (p & h1 & E1 & E2)%bind_Done_inv Hk. rewrite (bind_Done _ _ _ _ _ E1).
  destruct (p =? -1); [done|]. apply bind_Done_inv in E2 as ([] & h2 & E2 & E3).
  rewrite (bind_Done _ _ _ _ _ E2). apply bind_Done_inv in E3 as ([] & h3 & E3 & E4).
  by rewrite (bind_Done _ _ _ _ _ (free_mono _ _ _ _ _ E3 Hk)).
Qed.

Lemma malloc_loop_mono n prevp p k k' h r h' :
  malloc_loop grow n prevp p k h = Done r h' -> (k <= k')%nat ->
  malloc_loop grow n prevp p k' h = Done r h'.
Proof.
  revert prevp p k' h. induction k as [|k IH]; intros prevp p [|k'] h E Hk; simpl in E; try done; [lia|].
  cbn [malloc_loop]. revert E. mstep. intros E. mstep. destruct (n <=? h_size h p); [done|].
  destruct (p =? h_freep h); [|apply IH; [done|lia]].
  apply bind_Done_inv in E as (q & h1 & E1 & E2).
  assert (E1' : morecore grow n (S (S k')) h = Done q h1) by (eapply morecore_mono; [exact E1|lia]).
  rewrite (bind_Done _ _ _ _ _ E1').
  destruct (q =? 0); [done|]. revert E2. mstep. intros E2. mstep. apply IH; [done|lia].
Qed.

(** The result of a call with enough fuel. *)
Definition mallocs (nbytes : Z) h (p : Z) h' : Prop :=
  exists N, forall fuel, (N <= fuel)%nat -> malloc base grow nbytes fuel h = Done p h'.
Definition frees (ap : Z) h h' : Prop :=
  exists N, forall fuel, (N <= fuel)%nat -> free ap fuel h = Done tt h'.

(** The sizes [malloc] can ask [sbrk] for without wrapping. *)
Definition size_ok (nbytes : Z) : Prop := 0 <= nbytes <= 2147483600.

Inductive client : heap -> list (Z * Z) -> Prop :=
  | CStart h : h_freep h = 0 -> 0 < base < h_brk h -> client h []
  | CMalloc h live nbytes p h' :
      client h live -> size_ok nbytes -> mallocs nbytes h p h' -> p <> 0 ->
      client h' ((p - HSIZE, units nbytes) :: live)
  | CNoMem h live nbytes h' :
      client h live -> size_ok nbytes -> mallocs nbytes h 0 h' -> client h' live
  | CFree h (v1 : list (Z * Z)) b n (v2 : list (Z * Z)) h' :
      client h (v1 ++ (b, n) :: v2) -> frees (b + HSIZE) h h' -> client h' (v1 ++ v2).

(** The heap before the first call, and after it. *)
Definition ready h (live : list (Z * Z)) : Prop :=
  0 < base < h_brk h /\ ((h_freep h = 0 /\ live = []) \/ exists fs, hinv h fs live).

Definition initialised h : heap :=
  if h_freep h =? 0 then set_size base 0 (set_freep base (set_ptr base base h)) else h.

Lemma initialised_hinv h live :
  ready h live -> exists fs, hinv (initialised h) fs live /\ h_brk (initialised h) = h_brk h.
Proof.
  intros [Hb [[H0 ->]|[fs I]]]; unfold initialised.
  - rewrite H0. change (0 =? 0) with true. cbv iota. exists []. split; [|done]. split; cbn [h_ptr h_size h_freep h_brk set_size set_freep set_ptr].
    + split; [apply fn_lookup_insert|done].
    + split; [by repeat constructor|]. intros f Hf%list_elem_of_singleton. subst f.
      rewrite fn_lookup_insert. split; [lia|]. split; [hlia|by left].
    + apply fn_lookup_insert.
    + by left.
    + intros b n Hx. by apply not_elem_of_nil in Hx.
    + intros i j b n c m _ Hx. by rewrite lookup_nil in Hx.
  - exists fs. rewrite (proj2 (Z.eqb_neq _ 0)); [done|].
    pose proof (hi_freep _ _ _ I) as Hin. destruct (hi_placed _ _ _ I) as [Hs _].
    apply StronglySorted_cons in Hs as [Hx _]. rewrite Forall_forall in Hx.
    apply elem_of_cons in Hin as [->|Hin]; [lia|]. destruct (Hx _ Hin). lia.
Qed.

Lemma malloc_init nbytes fuel h :
  malloc base grow nbytes fuel h =
    malloc_loop grow (units nbytes) (h_freep (initialised h))
      (h_ptr (initialised h) (h_freep (initialised h))) fuel (initialised h).
Proof. unfold malloc, initialised. mstep. by destruct (h_freep h =? 0). Qed.

Lemma units_bound nbytes : size_ok nbytes -> 0 < units nbytes < 268435456 /\ nbytes <= HSIZE * (units nbytes - 1).
Proof. intros [? ?]. unfold units, HSIZE. rewrite u32_small by lia. zlia. Qed.

Lemma malloc_ready h live nbytes :
  ready h live -> size_ok nbytes ->
  exists p h', mallocs nbytes h p h' /\ ready h' (if p =? 0 then live else (p - HSIZE, units nbytes) :: live) /\
    (p = 0 -> grow (h_brk h) (HSIZE * core_units (units nbytes)) = false).
Proof.
  intros R Hsz. destruct (initialised_hinv h live R) as (fs & I & Eb). destruct R as [Hb _].
  destruct (units_bound nbytes Hsz) as [Hu _].
  pose proof (malloc_loop_spec (initialised h) fs live (units nbytes) (4 * length fs + 12) I
    ltac:(lia) Hu ltac:(lia)) as Hspec. cbv zeta in Hspec. rewrite <- malloc_init in Hspec.
  assert (Hmono : forall p h', malloc base grow nbytes (4 * length fs + 12) h = Done p h' -> mallocs nbytes h p h').
  { intros p h' E. exists (4 * length fs + 12)%nat. intros fuel Hf. rewrite malloc_init in E |- *.
    by eapply malloc_loop_mono. }
  destruct Hspec as [[Hg E]|(q & h' & fs' & E & I')].
  - exists 0, (initialised h). split; [by apply Hmono|]. split; [|by rewrite <- Eb].
    simpl. split; [by rewrite Eb|]. right. by exists fs.
  - exists (q + HSIZE), h'. split; [by apply Hmono|].
    destruct (hi_live _ _ _ I' q (units nbytes) ltac:(by left)) as (_ & _ & Hq & Hqb & _).
    rewrite (proj2 (Z.eqb_neq _ 0)) by hlia. replace (q + HSIZE - HSIZE) with q by lia.
    split; [split; [hlia|right; by exists fs']|hlia].
Qed.

Lemma hinv_drop h fs (v1 : list (Z * Z)) x (v2 : list (Z * Z)) :
  hinv h fs (v1 ++ x :: v2) -> hinv h fs (v1 ++ v2).
Proof.
  intros I. split; [apply I..| |].
  - intros b n Hb. apply (hi_live _ _ _ I). apply elem_of_app in Hb as [?|?]; apply elem_of_app; [by left|].
    right. by right.
  - assert (L : forall i y, (v1 ++ v2) !! i = Some y ->
      (v1 ++ x :: v2) !! (if decide (i < length v1)%nat then i else S i) = Some y).
    { intros i y Hy. destruct (decide (i < length v1)%nat).
      - rewrite lookup_app_l in * by done. done.
      - rewrite lookup_app_r in Hy by lia. rewrite lookup_app_r by lia.
        by replace (S i - length v1)%nat with (S (i - length v1)) by lia. }
    intros i j b n c m Hne H1%L H2%L. eapply (hi_disj _ _ _ I); [|exact H1|exact H2].
    repeat destruct (decide _); lia.
Qed.

Lemma free_ready h (v1 : list (Z * Z)) b n (v2 : list (Z * Z)) :
  ready h (v1 ++ (b, n) :: v2) -> exists h', frees (b + HSIZE) h h' /\ ready h' (v1 ++ v2).
Proof.
  intros [Hb [[_ E]|[fs I]]]; [by destruct v1|].
  destruct (hi_live _ _ _ I b n) as (B1 & B2 & B3 & B4 & B5); [apply elem_of_app; right; by left|].
  pose proof (hinv_drop _ _ _ _ _ I) as I1.
  destruct (free_insert_spec h fs (v1 ++ v2) b (2 * length fs + 4) I1)
    as (t & fs' & Ef & I' & _); [done|lia|by rewrite B1|by rewrite B1| |lia|].
  { intros c m Hc. rewrite B1.
    assert (Hd : forall k y, y = (c, m) -> (v1 ++ (b, n) :: v2) !! k = Some y -> k <> length v1 -> disj c m b n).
    { intros k y -> Hk Hne. eapply (hi_disj _ _ _ I); [exact Hne|exact Hk|].
      rewrite lookup_app_r, Nat.sub_diag by lia. done. }
    apply elem_of_app in Hc as [[k Hk]%list_elem_of_lookup_1|[k Hk]%list_elem_of_lookup_1].
    - pose proof (lookup_lt_Some _ _ _ Hk). apply (Hd k (c, m)); [done|by rewrite lookup_app_l|lia].
    - apply (Hd (length v1 + S k)%nat (c, m)); [done| |lia].
      rewrite lookup_app_r by lia. by replace (length v1 + S k - length v1)%nat with (S k) by lia. }
  exists (free_insert b t h). split.
  - exists (2 * length fs + 4)%nat. intros fuel Hf. unfold free. mstep.
    replace (b + HSIZE - HSIZE) with b by lia. by rewrite (free_find_mono _ _ _ _ _ _ Ef Hf).
  - split; [|right; by exists fs']. rewrite free_insert_eq. unfold join_left, join_right.
    by repeat destruct (_ =? _).
Qed.

Lemma mallocs_fun nbytes h p h' q h'' : mallocs nbytes h p h' -> mallocs nbytes h q h'' -> p = q /\ h' = h''.
Proof.
  intros [N E] [N' E']. specialize (E (N + N')%nat ltac:(lia)). specialize (E' (N + N')%nat ltac:(lia)).
  rewrite E in E'. by injection E'.
Qed.

Lemma frees_fun ap h h' h'' : frees ap h h' -> frees ap h h'' -> h' = h''.
Proof.
  intros [N E] [N' E']. specialize (E (N + N')%nat ltac:(lia)). specialize (E' (N + N')%nat ltac:(lia)).
  rewrite E in E'. by injection E'.
Qed.

Lemma client_ready h live : client h live -> ready h live.
Proof.
  induction 1 as [h H0 Hb|h live nbytes p h' _ IH Hsz Hm Hp|h live nbytes h' _ IH Hsz Hm|h v1 b n v2 h' _ IH Hf].
  - split; [done|by left].
  - destruct (malloc_ready h live nbytes IH Hsz) as (q & h2 & Hm2 & R & _).
    destruct (mallocs_fun _ _ _ _ _ _ Hm Hm2) as [<- <-]. by rewrite (proj2 (Z.eqb_neq p 0)) in R.
  - destruct (malloc_ready h live nbytes IH Hsz) as (q & h2 & Hm2 & R & _).
    destruct (mallocs_fun _ _ _ _ _ _ Hm Hm2) as [<- <-]. done.
  - destruct (free_ready _ _ _ _ _ IH) as (h2 & Hf2 & R). by rewrite (frees_fun _ _ _ _ Hf Hf2).
Qed.
End Insert.



(** For sizes near the top of the address space the computation of the number of
    units wraps around: [malloc(0xFFFFFFFF)] asks for one unit, which is only the
    header, and the block returned has no bytes at all. *)
Theorem malloc_wraps nbytes :
  4294967289 <= nbytes < 4294967296 -> units nbytes = 1.
Proof. intros H. unfold units, u32, HSIZE. zlia. Qed.

Lemma malloc_wraps_witness : units 4294967295 = 1.
Proof. apply malloc_wraps. lia. Defined.
