(* ===== verification/Pipe.v ===== *)
(** * Pipes (pipe.c)

    A pipe is a circular buffer of 512 bytes with two counters that wrap at 32 bits.
    Each stretch of [pipewrite] and [piperead] between two points where the process
    may sleep runs under the pipe's lock and is one function here; a process that has
    to wait returns what is left to do. Next to the result a stretch says whether it
    has woken up the processes asleep on [nread] and on [nwrite]. *)

From stdpp Require Import base tactics numbers list gmap.
From Stdlib Require Import ZArith Lia ZifyNat.
From S2P Require Import Prelude.

Definition PIPESIZE : Z := 512.

Record pipe := Pipe {
  p_data : list Z;
  p_nread : Z;
  p_nwrite : Z;
  p_readopen : bool;
  p_writeopen : bool }.

(** [pipealloc] once its memory is there. *)
Definition pipe_init (data : list Z) : pipe := Pipe data 0 0 true true.

(** The pipe after [pipeclose], and whether nobody uses it any more; the process
    sleeping on the other end is woken up. *)
Definition pipeclose (p : pipe) (writable : bool) : pipe * bool :=
  let p := if writable then Pipe (p_data p) (p_nread p) (p_nwrite p) (p_readopen p) false
           else Pipe (p_data p) (p_nread p) (p_nwrite p) false (p_writeopen p) in
  (p, negb (p_readopen p) && negb (p_writeopen p)).

Definition slot (c : Z) : nat := Z.to_nat (c mod PIPESIZE).

Definition pipe_full (p : pipe) : bool := p_nwrite p =? u32 (p_nread p + PIPESIZE).
Definition pipe_empty (p : pipe) : bool := p_nread p =? p_nwrite p.

(** [p->data[p->nwrite++ % PIPESIZE] = c] *)
Definition pipe_put (c : Z) (p : pipe) : pipe :=
  Pipe (<[slot (p_nwrite p) := c]> (p_data p)) (p_nread p) (u32 (p_nwrite p + 1))
    (p_readopen p) (p_writeopen p).
(** [p->data[p->nread++ % PIPESIZE]] *)
Definition pipe_get (p : pipe) : Z * pipe :=
  (default 0 (p_data p !! slot (p_nread p)),
   Pipe (p_data p) (u32 (p_nread p + 1)) (p_nwrite p) (p_readopen p) (p_writeopen p)).

(** How a stretch ends: with a return value, or asleep. Both say which bytes have not
    been written; a return says whether it woke up the processes asleep on [nread],
    which a stretch that goes to sleep always does. *)
Inductive written := WReturn (r : Z) (woke : bool) (left : list Z) | WSleep (left : list Z).

(** [pipewrite] from the byte [addr[i]] on; [rest] are the bytes from there. *)
Fixpoint pipewrite_loop (killed : bool) (n : Z) (rest : list Z) (p : pipe) : written * pipe :=
  match rest with
  | [] => (WReturn n true [], p)
  | c :: rest' =>
      if pipe_full p then
        if negb (p_readopen p) || killed then (WReturn (-1) false rest, p)
        else (WSleep rest, p)
      else pipewrite_loop killed n rest' (pipe_put c p)
  end.

Inductive received := RReturn (r : Z) (bytes : list Z) | RSleep.

(** The copying loop of [piperead]. *)
Fixpoint piperead_copy (n : nat) (p : pipe) : list Z * pipe :=
  match n with
  | O => ([], p)
  | S n =>
      if pipe_empty p then ([], p)
      else let '(c, p) := pipe_get p in
           let '(l, p) := piperead_copy n p in (c :: l, p)
  end.

Definition piperead (killed : bool) (n : Z) (p : pipe) : received * pipe :=
  if pipe_empty p && p_writeopen p then
    if killed then (RReturn (-1) [], p) else (RSleep, p)
  else
    let '(l, p) := piperead_copy (Z.to_nat n) p in
    (RReturn (Z.of_nat (length l)) l, p).

(** ** The bytes in a pipe *)

Definition count (p : pipe) : Z := u32 (p_nwrite p - p_nread p).
Definition contents (p : pipe) : list Z :=
  (fun k => default 0 (p_data p !! slot (p_nread p + Z.of_nat k))) <$> seq 0 (Z.to_nat (count p)).

Record pipe_wf (p : pipe) : Prop := PipeWf {
  pw_data : length (p_data p) = Z.to_nat PIPESIZE;
  pw_nread : 0 <= p_nread p < 4294967296;
  pw_nwrite : 0 <= p_nwrite p < 4294967296;
  pw_count : count p <= PIPESIZE }.

Lemma slot_lt c : (slot c < Z.to_nat PIPESIZE)%nat.
Proof. unfold slot, PIPESIZE. pose proof (Z.mod_pos_bound c 512). lia. Qed.

Lemma slot_u32 c : slot (u32 c) = slot c.
Proof. unfold slot, u32, PIPESIZE. f_equal. zlia. Qed.

Lemma slot_add c k k' :
  0 <= k < PIPESIZE -> 0 <= k' < PIPESIZE -> slot (c + k) = slot (c + k') -> k = k'.
Proof. unfold slot, PIPESIZE. intros. zlia. Qed.

Lemma full_count p : pipe_wf p -> pipe_full p = (count p =? PIPESIZE).
Proof.
  intros [_ ? ? ?]. unfold pipe_full, count, PIPESIZE, u32 in *.
  apply eq_true_iff_eq. rewrite !Z.eqb_eq. zlia.
Qed.

Lemma empty_count p : pipe_wf p -> pipe_empty p = (count p =? 0).
Proof.
  intros [_ ? ? ?]. unfold pipe_empty, count, u32 in *.
  apply eq_true_iff_eq. rewrite !Z.eqb_eq. zlia.
Qed.

Lemma length_contents p : length (contents p) = Z.to_nat (count p).
Proof. unfold contents. by rewrite length_fmap, length_seq. Qed.

Lemma put_spec c p :
  pipe_wf p -> pipe_full p = false ->
  pipe_wf (pipe_put c p) /\ contents (pipe_put c p) = contents p ++ [c].
Proof.
  intros W Hf. rewrite full_count in Hf by done. apply Z.eqb_neq in Hf. destruct W as [W1 W2 W3 W4].
  assert (Hc0 : 0 <= count p) by apply u32_range.
  assert (Ec : count (pipe_put c p) = count p + 1).
  { unfold count, pipe_put, PIPESIZE, u32 in *. simpl. zlia. }
  split.
  - split; simpl; [by rewrite length_insert|done|apply u32_range|rewrite Ec; lia].
  - unfold contents. rewrite Ec. replace (Z.to_nat (count p + 1)) with (Z.to_nat (count p) + 1)%nat by lia.
    rewrite seq_app, fmap_app. simpl. f_equal.
    + apply list_fmap_ext. intros i k Hk. apply lookup_seq in Hk as [-> Hk].
      rewrite list_lookup_insert_ne; [done|]. intros E.
      replace (p_nwrite p) with (u32 (p_nread p + count p)) in E.
      * rewrite slot_u32 in E. apply slot_add in E; lia.
      * unfold count, u32. zlia.
    + f_equal. replace (slot (p_nread p + Z.of_nat (Z.to_nat (count p)))) with (slot (p_nwrite p)).
      * by rewrite list_lookup_insert_eq by (rewrite W1; apply slot_lt).
      * replace (p_nread p + Z.of_nat (Z.to_nat (count p))) with (p_nread p + count p) by lia.
        rewrite <- (slot_u32 (p_nread p + count p)). f_equal. unfold count, u32. zlia.
Qed.

Lemma get_spec p :
  pipe_wf p -> pipe_empty p = false ->
  let '(c, p') := pipe_get p in pipe_wf p' /\ contents p = c :: contents p'.
Proof.
  intros W He. rewrite empty_count in He by done. apply Z.eqb_neq in He. destruct W as [W1 W2 W3 W4].
  assert (Hc0 : 0 <= count p) by apply u32_range. simpl.
  assert (Ec : count (Pipe (p_data p) (u32 (p_nread p + 1)) (p_nwrite p) (p_readopen p) (p_writeopen p))
    = count p - 1).
  { unfold count, PIPESIZE, u32 in *. simpl. zlia. }
  split.
  - split; simpl; [done|apply u32_range|done|rewrite Ec; lia].
  - unfold contents at 1. replace (Z.to_nat (count p)) with (S (Z.to_nat (count p - 1))) by lia.
    simpl. rewrite Z.add_0_r. f_equal. unfold contents. rewrite Ec. simpl.
    rewrite <- fmap_S_seq, <- list_fmap_compose. apply list_fmap_ext. intros i k _. simpl.
    replace (slot (u32 (p_nread p + 1) + Z.of_nat k)) with (slot (p_nread p + 1 + Z.of_nat k)).
    + do 3 f_equal. lia.
    + unfold slot, u32, PIPESIZE. f_equal. zlia.
Qed.

Definition left_of (w : written) : list Z :=
  match w with WReturn _ _ l => l | WSleep l => l end.

Lemma write_spec killed n rest p :
  pipe_wf p ->
  let '(w, p') := pipewrite_loop killed n rest p in
  pipe_wf p' /\ p_readopen p' = p_readopen p /\ p_writeopen p' = p_writeopen p /\
  (exists l, rest = l ++ left_of w /\ contents p' = contents p ++ l) /\
  match w with
  | WReturn r true l2 => l2 = [] /\ r = n
  | WReturn r false _ =>
      r = -1 /\ pipe_full p' = true /\ (p_readopen p = false \/ killed = true)
  | WSleep l2 => l2 <> [] /\ pipe_full p' = true /\ p_readopen p = true /\ killed = false
  end.
Proof.
  revert p. induction rest as [|c rest IH]; intros p W; simpl.
  - do 3 (split; [done|]). split; [|done]. exists []. by rewrite !app_nil_r.
  - destruct (pipe_full p) eqn:Hf.
    + destruct (negb (p_readopen p) || killed) eqn:Hk; do 3 (split; [done|]).
      * split; [exists []; by rewrite (app_nil_r (contents p))|]. do 2 (split; [done|]).
        apply orb_true_iff in Hk as [?%negb_true_iff|?]; auto.
      * split; [exists []; by rewrite (app_nil_r (contents p))|].
        apply orb_false_iff in Hk as [?%negb_false_iff ?]. done.
    + destruct (put_spec c p W Hf) as [W' Ec]. specialize (IH _ W').
      destruct (pipewrite_loop killed n rest (pipe_put c p)) as [w p'].
      destruct IH as (W'' & R & O & (l & -> & E) & Hw). do 3 (split; [done|]).
      split; [|done]. exists (c :: l). split; [done|]. by rewrite E, Ec, <- app_assoc.
Qed.

Lemma copy_spec n p :
  pipe_wf p ->
  let '(l, p') := piperead_copy n p in
  pipe_wf p' /\ p_readopen p' = p_readopen p /\ p_writeopen p' = p_writeopen p /\
  contents p = l ++ contents p' /\ l = take n (contents p).
Proof.
  revert p. induction n as [|n IH]; intros p W; cbn [piperead_copy].
  - do 3 (split; [done|]). done.
  - destruct (pipe_empty p) eqn:He.
    + assert (E0 : contents p = []).
      { apply length_zero_iff_nil. rewrite length_contents. rewrite empty_count in He by done. lia. }
      do 3 (split; [done|]). by rewrite E0.
    + pose proof (get_spec p W He) as Hg. destruct (pipe_get p) as [c p1] eqn:Eg. destruct Hg as [W1 E1].
      assert (Ero : p_readopen p1 = p_readopen p /\ p_writeopen p1 = p_writeopen p).
      { unfold pipe_get in Eg. by injection Eg as _ <-. }
      specialize (IH p1 W1). destruct (piperead_copy n p1) as [l p'].
      destruct IH as (W' & R & O & E & El). destruct Ero as [E2 E3].
      split; [done|]. split; [congruence|]. split; [congruence|]. rewrite E1. simpl.
      split; congruence.
Qed.

(** ** Processes at the two ends *)

(** A process inside [pipewrite] with the bytes it has still to write, and one inside
    [piperead] with the number of bytes it wants; [asleep] until a wakeup or a kill. *)
Record writer := Writer { w_left : list Z; w_n : Z; w_asleep : bool }.
Record reader := Reader { r_n : Z; r_asleep : bool }.

(** [sent] and [got] are the bytes that went into the pipe and those that came out. *)
Record ends := Ends {
  e_pipe : pipe;
  e_writers : gmap nat writer;
  e_readers : gmap nat reader;
  e_sent : list Z;
  e_got : list Z }.

Definition wake_writers (m : gmap nat writer) : gmap nat writer :=
  (fun w => Writer (w_left w) (w_n w) false) <$> m.
Definition wake_readers (m : gmap nat reader) : gmap nat reader :=
  (fun r => Reader (r_n r) false) <$> m.

(** The writer [pid] runs until it returns or sleeps. *)
Definition run_writer (killed : bool) (pid : nat) (w : writer) (s : ends) : ends :=
  let '(out, p) := pipewrite_loop killed (w_n w) (w_left w) (e_pipe s) in
  let sent := e_sent s ++ take (length (w_left w) - length (left_of out)) (w_left w) in
  match out with
  | WReturn _ woke _ =>
      Ends p (delete pid (e_writers s))
        (if woke then wake_readers (e_readers s) else e_readers s) sent (e_got s)
  | WSleep rest =>
      Ends p (<[pid := Writer rest (w_n w) true]> (e_writers s)) (wake_readers (e_readers s))
        sent (e_got s)
  end.

(** The reader [pid] runs until it returns or sleeps. *)
Definition run_reader (killed : bool) (pid : nat) (r : reader) (s : ends) : ends :=
  let '(out, p) := piperead killed (r_n r) (e_pipe s) in
  match out with
  | RReturn v bytes =>
      Ends p (if v <? 0 then e_writers s else wake_writers (e_writers s))
        (delete pid (e_readers s)) (e_sent s) (e_got s ++ bytes)
  | RSleep => Ends p (e_writers s) (<[pid := Reader (r_n r) true]> (e_readers s)) (e_sent s) (e_got s)
  end.

Definition close_end (writable : bool) (s : ends) : ends :=
  let p := fst (pipeclose (e_pipe s) writable) in
  if writable then Ends p (e_writers s) (wake_readers (e_readers s)) (e_sent s) (e_got s)
  else Ends p (wake_writers (e_writers s)) (e_readers s) (e_sent s) (e_got s).

(** One step of some process; [kills] allows processes to be killed. A process reads or
    writes through a file it has open, so an end with a process inside is not closed
    and nobody enters through a closed one. *)
Inductive pstep (kills : bool) : ends -> ends -> Prop :=
| ps_write pid bytes s :
    p_writeopen (e_pipe s) = true -> e_writers s !! pid = None ->
    pstep kills s (Ends (e_pipe s)
      (<[pid := Writer bytes (Z.of_nat (length bytes)) false]> (e_writers s))
      (e_readers s) (e_sent s) (e_got s))
| ps_read pid n s :
    p_readopen (e_pipe s) = true -> e_readers s !! pid = None -> 0 <= n ->
    pstep kills s (Ends (e_pipe s) (e_writers s) (<[pid := Reader n false]> (e_readers s))
      (e_sent s) (e_got s))
| ps_run_writer pid w killed s :
    e_writers s !! pid = Some w -> w_asleep w = false -> (killed = true -> kills = true) ->
    pstep kills s (run_writer killed pid w s)
| ps_run_reader pid r killed s :
    e_readers s !! pid = Some r -> r_asleep r = false -> (killed = true -> kills = true) ->
    pstep kills s (run_reader killed pid r s)
| ps_kill_writer pid w s :
    kills = true -> e_writers s !! pid = Some w ->
    pstep kills s (Ends (e_pipe s) (<[pid := Writer (w_left w) (w_n w) false]> (e_writers s))
      (e_readers s) (e_sent s) (e_got s))
| ps_kill_reader pid r s :
    kills = true -> e_readers s !! pid = Some r ->
    pstep kills s (Ends (e_pipe s) (e_writers s) (<[pid := Reader (r_n r) false]> (e_readers s))
      (e_sent s) (e_got s))
| ps_close_write s :
    e_writers s = ∅ -> pstep kills s (close_end true s)
| ps_close_read s :
    e_readers s = ∅ -> pstep kills s (close_end false s).

Definition ends_init (data : list Z) : ends := Ends (pipe_init data) ∅ ∅ [] [].

Inductive preach (kills : bool) (data : list Z) : ends -> Prop :=
| pr_init : preach kills data (ends_init data)
| pr_step s s' : preach kills data s -> pstep kills s s' -> preach kills data s'.

Lemma run_writer_fifo killed pid w s :
  pipe_wf (e_pipe s) -> e_sent s = e_got s ++ contents (e_pipe s) ->
  pipe_wf (e_pipe (run_writer killed pid w s)) /\
  e_sent (run_writer killed pid w s) =
    e_got (run_writer killed pid w s) ++ contents (e_pipe (run_writer killed pid w s)).
Proof.
  intros W E. pose proof (write_spec killed (w_n w) (w_left w) (e_pipe s) W) as Hw.
  unfold run_writer. destruct (pipewrite_loop _ _ _ _) as [out p].
  destruct Hw as (W' & _ & _ & (l & El & Ec) & _).
  assert (Et : take (length (w_left w) - length (left_of out)) (w_left w) = l).
  { rewrite El, length_app. replace (_ + _ - _)%nat with (length l) by lia. by rewrite take_app_length. }
  rewrite Et. destruct out as [r [] rest|rest]; simpl; (split; [done|]);
    by rewrite Ec, E, app_assoc.
Qed.

Lemma piperead_cases killed n p :
  pipe_wf p ->
  let '(out, p') := piperead killed n p in
  pipe_wf p' /\ p_readopen p' = p_readopen p /\ p_writeopen p' = p_writeopen p /\
  match out with
  | RReturn v bytes =>
      contents p = bytes ++ contents p' /\
      ((v = -1 /\ bytes = [] /\ killed = true) \/
       (bytes = take (Z.to_nat n) (contents p) /\ v = Z.of_nat (length bytes)))
  | RSleep => p' = p /\ pipe_empty p = true /\ p_writeopen p = true /\ killed = false
  end.
Proof.
  intros W. unfold piperead. destruct (pipe_empty p && p_writeopen p) eqn:He.
  - apply andb_true_iff in He as [He Ho]. destruct killed; do 3 (split; [done|]); auto.
  - pose proof (copy_spec (Z.to_nat n) p W) as Hc. destruct (piperead_copy _ _) as [l p'].
    destruct Hc as (W' & R & O & E & El). do 3 (split; [done|]). auto.
Qed.

Lemma run_reader_fifo killed pid r s :
  pipe_wf (e_pipe s) -> e_sent s = e_got s ++ contents (e_pipe s) ->
  pipe_wf (e_pipe (run_reader killed pid r s)) /\
  e_sent (run_reader killed pid r s) =
    e_got (run_reader killed pid r s) ++ contents (e_pipe (run_reader killed pid r s)).
Proof.
  intros W E. pose proof (piperead_cases killed (r_n r) (e_pipe s) W) as Hc.
  unfold run_reader. destruct (piperead _ _ _) as [[v bytes|] p].
  - destruct Hc as (W' & _ & _ & Ec & _). split; [done|]. simpl. by rewrite E, Ec, app_assoc.
  - destruct Hc as (W' & _ & _ & -> & _). done.
Qed.

Lemma fifo_step kills s s' :
  pstep kills s s' ->
  pipe_wf (e_pipe s) /\ e_sent s = e_got s ++ contents (e_pipe s) ->
  pipe_wf (e_pipe s') /\ e_sent s' = e_got s' ++ contents (e_pipe s').
Proof.
  destruct 1; intros [W E]; try done.
  - by apply run_writer_fifo.
  - by apply run_reader_fifo.
  - destruct W. split; [by split|done].
  - destruct W. split; [by split|done].
Qed.

Lemma init_wf data : length data = Z.to_nat PIPESIZE -> pipe_wf (pipe_init data).
Proof. intros. split; try done; lia. Qed.

Lemma preach_fifo kills data s :
  length data = Z.to_nat PIPESIZE -> preach kills data s ->
  pipe_wf (e_pipe s) /\ e_sent s = e_got s ++ contents (e_pipe s).
Proof.
  intros Hd. induction 1 as [|s s' _ IH Hs].
  - split; [by apply init_wf|done].
  - by eapply fifo_step.
Qed.

(** C39. A pipe is a bounded first-in first-out queue, whatever the interleaving of any
    number of readers and writers, kills and closes: in every reachable state the bytes
    written so far are those read so far followed by the bytes in the buffer, of which
    there are never more than 512. Holds across the wrap-around of the counters. *)
Theorem pipe_fifo kills data s :
  length data = Z.to_nat PIPESIZE -> preach kills data s ->
  e_sent s = e_got s ++ contents (e_pipe s) /\
  (length (contents (e_pipe s)) <= Z.to_nat PIPESIZE)%nat.
Proof.
  intros Hd Hr. destruct (preach_fifo _ _ _ Hd Hr) as [[] E]. split; [done|].
  rewrite length_contents. lia.
Qed.

(** ** Wakeups *)

(** Who sleeps has a reason to. *)
Record no_lost (s : ends) : Prop := NoLost {
  nl_reader : forall pid r, e_readers s !! pid = Some r -> r_asleep r = true ->
    contents (e_pipe s) = [] /\ p_writeopen (e_pipe s) = true;
  nl_writer : forall pid w, e_writers s !! pid = Some w -> w_asleep w = true ->
    length (contents (e_pipe s)) = Z.to_nat PIPESIZE /\ p_readopen (e_pipe s) = true;
  nl_open : p_readopen (e_pipe s) = false -> e_readers s = ∅ }.

Lemma awake_readers m pid r : wake_readers m !! pid = Some r -> r_asleep r = false.
Proof. unfold wake_readers. rewrite lookup_fmap. destruct (m !! pid); naive_solver. Qed.
Lemma awake_writers m pid w : wake_writers m !! pid = Some w -> w_asleep w = false.
Proof. unfold wake_writers. rewrite lookup_fmap. destruct (m !! pid); naive_solver. Qed.

Lemma wake_readers_empty m : m = ∅ -> wake_readers m = ∅.
Proof. intros ->. apply fmap_empty. Qed.

Lemma full_length p :
  pipe_wf p -> pipe_full p = true -> length (contents p) = Z.to_nat PIPESIZE.
Proof. intros W. rewrite full_count by done. rewrite length_contents. lia. Qed.

Lemma empty_contents p : pipe_wf p -> pipe_empty p = true -> contents p = [].
Proof.
  intros W. rewrite empty_count by done. intros. apply length_zero_iff_nil.
  rewrite length_contents. lia.
Qed.

Lemma run_writer_no_lost pid w s :
  pipe_wf (e_pipe s) -> no_lost s -> no_lost (run_writer false pid w s).
Proof.
  intros W [Nr Nw No]. pose proof (write_spec false (w_n w) (w_left w) (e_pipe s) W) as Hw.
  unfold run_writer. destruct (pipewrite_loop _ _ _ _) as [out p].
  destruct Hw as (W' & R & O & (l & El & Ec) & Hout). split.
  - intros q r. destruct out as [v [] rest|rest]; simpl; intros Hq Ha.
    + apply awake_readers in Hq. congruence.
    + destruct Hout as (_ & _ & [Hc|Hc]); [|done]. rewrite (No Hc) in Hq. set_solver.
    + apply awake_readers in Hq. congruence.
  - intros q x Hq Ha.
    assert (Hold : forall m, m !! q = Some x -> (m = e_writers s \/ m = delete pid (e_writers s)) ->
      length (contents p) = Z.to_nat PIPESIZE /\ p_readopen p = true).
    { intros m Hm Hor. assert (Hs : e_writers s !! q = Some x).
      { destruct Hor as [-> | ->]; [done|]. by apply lookup_delete_Some in Hm as [_ ?]. }
      destruct (Nw _ _ Hs Ha) as [Hl Hro]. split; [|congruence].
      rewrite Ec, length_app, Hl. destruct W' as [_ _ _ W4].
      assert (length (contents p) <= Z.to_nat PIPESIZE)%nat by (rewrite length_contents; lia).
      rewrite Ec, length_app in *. lia. }
    destruct out as [v woke rest|rest]; simpl in *; [by eapply Hold; eauto|].
    destruct (decide (q = pid)) as [-> | Hne].
    + destruct Hout as (_ & Hf & Hro & _). split; [by apply full_length|congruence].
    + rewrite lookup_insert_ne in Hq by done. by eapply Hold; eauto.
  - intros Hc. destruct out as [v [] rest|rest]; simpl in *; rewrite R in Hc;
      rewrite (No Hc); try done; apply wake_readers_empty; done.
Qed.

Lemma run_reader_no_lost pid r s :
  pipe_wf (e_pipe s) -> e_readers s !! pid = Some r -> no_lost s ->
  no_lost (run_reader false pid r s).
Proof.
  intros W Hp [Nr Nw No]. pose proof (piperead_cases false (r_n r) (e_pipe s) W) as Hc.
  unfold run_reader. destruct (piperead _ _ _) as [[v bytes|] p].
  - destruct Hc as (W' & R & O & Ec & [(-> & -> & ?)|[Eb Ev]]); [done|].
    replace (v <? 0) with false by lia. split; simpl.
    + intros q x Hq Ha. apply lookup_delete_Some in Hq as [_ Hq]. destruct (Nr _ _ Hq Ha) as [E0 Ho].
      rewrite E0 in Ec. symmetry in Ec. apply app_eq_nil in Ec as [_ ->]. by rewrite O.
    + intros q x Hq Ha. apply awake_writers in Hq. congruence.
    + intros Hc. rewrite R in Hc. rewrite (No Hc) in Hp. set_solver.
  - destruct Hc as (W' & R & O & -> & He & Ho & _). split; simpl; [|done|].
    + intros q x Hq Ha. by split; [apply empty_contents|].
    + intros Hc. rewrite (No Hc) in Hp. set_solver.
Qed.

Lemma no_lost_step s s' :
  pstep false s s' -> pipe_wf (e_pipe s) -> no_lost s -> no_lost s'.
Proof.
  destruct 1 as [pid bytes s Ho Hn|pid n s Ho Hn Hr|pid w killed s Hw Ha Hk|pid r killed s Hr Ha Hk
    | | |s He|s He]; intros W N; try done.
  - destruct N as [Nr Nw No]. split; simpl; [done| |done]. intros q x Hq Hx.
    apply lookup_insert_Some in Hq as [[_ <-]|[_ Hq]]; [done|eauto].
  - destruct N as [Nr Nw No]. split; simpl; [|done|congruence]. intros q x Hq Hx.
    apply lookup_insert_Some in Hq as [[_ <-]|[_ Hq]]; [done|eauto].
  - destruct killed; [by specialize (Hk eq_refl)|]. by apply run_writer_no_lost.
  - destruct killed; [by specialize (Hk eq_refl)|]. by apply run_reader_no_lost.
  - destruct N as [Nr Nw No]. split; simpl.
    + intros q x Hq Hx. apply awake_readers in Hq. congruence.
    + done.
    + intros Hc. by apply wake_readers_empty, No.
  - destruct N as [Nr Nw No]. split; simpl.
    + intros q x Hq Hx. rewrite He in Hq. set_solver.
    + intros q x Hq Hx. apply awake_writers in Hq. congruence.
    + done.
Qed.

(** C40. As long as no process is killed, no wakeup of a pipe is lost: a reader sleeps only
    while the buffer is empty and the write end open, a writer only while the buffer is
    full and the read end open, so the two ends never sleep both. *)
Theorem pipe_no_lost_wakeup data s :
  length data = Z.to_nat PIPESIZE -> preach false data s ->
  (forall pid r, e_readers s !! pid = Some r -> r_asleep r = true ->
     contents (e_pipe s) = [] /\ p_writeopen (e_pipe s) = true /\
     (forall pid' w, e_writers s !! pid' = Some w -> w_asleep w = false)) /\
  (forall pid w, e_writers s !! pid = Some w -> w_asleep w = true ->
     length (contents (e_pipe s)) = Z.to_nat PIPESIZE /\ p_readopen (e_pipe s) = true).
Proof.
  intros Hd Hr. assert (N : no_lost s).
  { revert Hr. induction 1 as [|s s' Hr IH Hs].
    - split; simpl; try done; intros ? ?; set_solver.
    - eapply no_lost_step; eauto. by eapply preach_fifo. }
  destruct N as [Nr Nw No]. split; [|done].
  intros pid r Hp Ha. destruct (Nr _ _ Hp Ha) as [E0 Ho]. do 2 (split; [done|]).
  intros q w Hq. destruct (w_asleep w) eqn:Hw; [|done].
  destruct (Nw _ _ Hq Hw) as [Hl _]. rewrite E0 in Hl. done.
Qed.

(** Two bytes written by process 1, one of them read by process 2. *)
Definition sample_data : list Z := replicate 512 0.
Definition sample_ends : ends :=
  let s := Ends (e_pipe (ends_init sample_data)) {[1%nat := Writer [72; 105] 2 false]} ∅ [] [] in
  let s := run_writer false 1 (Writer [72; 105] 2 false) s in
  let s := Ends (e_pipe s) (e_writers s) (<[2%nat := Reader 1 false]> (e_readers s)) (e_sent s) (e_got s) in
  run_reader false 2 (Reader 1 false) s.

Lemma sample_ends_reach kills : preach kills sample_data sample_ends.
Proof.
  unfold sample_ends. cbv zeta.
  eapply pr_step; [|by eapply ps_run_reader; [by vm_compute|done|done]].
  eapply pr_step; [|by eapply ps_read; vm_compute].
  eapply pr_step; [|by eapply ps_run_writer; [by vm_compute|done|done]].
  eapply pr_step; [by apply pr_init|]. by apply (ps_write _ 1%nat [72; 105]).
Qed.

Lemma pipe_fifo_witness :
  [72; 105] = [72] ++ contents (e_pipe sample_ends) /\
  (length (contents (e_pipe sample_ends)) <= Z.to_nat PIPESIZE)%nat.
Proof. apply (pipe_fifo false sample_data sample_ends eq_refl (sample_ends_reach false)). Defined.

(** Process 2 reads from the empty pipe and goes to sleep. *)
Definition sleeping_ends : ends :=
  let s := Ends (e_pipe (ends_init sample_data)) ∅ {[2%nat := Reader 1 false]} [] [] in
  run_reader false 2 (Reader 1 false) s.

Lemma sleeping_ends_reach : preach false sample_data sleeping_ends.
Proof.
  unfold sleeping_ends. cbv zeta.
  eapply pr_step; [|by eapply ps_run_reader; [by vm_compute|done|done]].
  eapply pr_step; [by apply pr_init|]. by apply (ps_read _ 2%nat 1).
Qed.

Lemma pipe_no_lost_wakeup_witness :
  e_readers sleeping_ends !! 2%nat = Some (Reader 1 true) /\
  contents (e_pipe sleeping_ends) = [] /\ p_writeopen (e_pipe sleeping_ends) = true.
Proof.
  split; [by vm_compute|].
  destruct (pipe_no_lost_wakeup sample_data sleeping_ends eq_refl sleeping_ends_reach) as [H _].
  destruct (H 2%nat (Reader 1 true) ltac:(by vm_compute) eq_refl) as (H1 & H2 & _). done.
Defined.

(** What one call that does not have to wait does. [pipewrite] of bytes that fit
    returns their number and appends them; [piperead] from a pipe that holds bytes, or
    whose write end is closed, returns the first [n] of them, or all when there are
    fewer (so 0 bytes at the end of file), and leaves the rest. *)
Theorem pipe_read_write_spec killed n bytes p :
  pipe_wf p -> 0 <= n ->
  ((length (contents p) + length bytes <= Z.to_nat PIPESIZE)%nat ->
   exists p', pipewrite_loop killed (Z.of_nat (length bytes)) bytes p
     = (WReturn (Z.of_nat (length bytes)) true [], p') /\
     pipe_wf p' /\ contents p' = contents p ++ bytes) /\
  (contents p <> [] \/ p_writeopen p = false ->
   exists p', piperead killed n p
     = (RReturn (Z.min n (Z.of_nat (length (contents p)))) (take (Z.to_nat n) (contents p)), p') /\
     pipe_wf p' /\ contents p' = drop (Z.to_nat n) (contents p)).
Proof.
  intros W Hn. split.
  - intros Hl. enough (H : forall m rest q, pipe_wf q ->
      (length (contents q) + length rest <= Z.to_nat PIPESIZE)%nat ->
      exists q', pipewrite_loop killed m rest q = (WReturn m true [], q') /\ pipe_wf q' /\
        contents q' = contents q ++ rest) by by apply H.
    clear. intros m rest. induction rest as [|c rest IH]; intros q W Hl; simpl in *.
    + exists q. by rewrite app_nil_r.
    + assert (Hf : pipe_full q = false).
      { rewrite full_count by done. rewrite length_contents in Hl. destruct W. lia. }
      rewrite Hf. destruct (put_spec c q W Hf) as [W' Ec].
      destruct (IH _ W') as (q' & E & Wq & Eq); [rewrite Ec, length_app; simpl; lia|].
      exists q'. by rewrite Eq, Ec, <- app_assoc.
  - intros Hc. unfold piperead.
    assert (He : pipe_empty p && p_writeopen p = false).
    { apply andb_false_iff. destruct Hc as [Hc| ->]; [left|by right].
      apply not_true_iff_false. intros He. by apply Hc, empty_contents. }
    rewrite He. pose proof (copy_spec (Z.to_nat n) p W) as Hs.
    destruct (piperead_copy _ _) as [l p']. destruct Hs as (W' & _ & _ & E & El).
    exists p'. split; [|split; [done|]].
    + rewrite El. do 2 f_equal. rewrite length_take. lia.
    + rewrite El in E. rewrite <- (take_drop (Z.to_nat n) (contents p)) in E at 1.
      by apply app_inv_head in E.
Qed.

(** At the point where both counters wrap. *)
Lemma pipe_read_write_spec_witness :
  let p := Pipe sample_data 4294967295 4294967295 true true in
  exists p', pipewrite_loop false 3 [7; 8; 9] p = (WReturn 3 true [], p') /\
    pipe_wf p' /\ contents p' = [7; 8; 9].
Proof.
  apply (pipe_read_write_spec false 3 [7; 8; 9] (Pipe sample_data 4294967295 4294967295 true true)).
  - split; vm_compute; try done; split; done.
  - lia.
  - vm_compute. lia.
Defined.

(** A writer that is killed when it has filled the buffer. *)
Definition lost_bytes : list Z := replicate 513 7.
Definition lost_reader : ends :=
  let s := Ends (e_pipe (ends_init sample_data)) ∅ {[2%nat := Reader 1 false]} [] [] in
  let s := run_reader false 2 (Reader 1 false) s in
  let s := Ends (e_pipe s) (<[1%nat := Writer lost_bytes 513 false]> (e_writers s)) (e_readers s)
             (e_sent s) (e_got s) in
  run_writer true 1 (Writer lost_bytes 513 false) s.

(** With a kill a wakeup can be lost: a process that is killed while it is inside
    [pipewrite] returns when the buffer is full without waking up the readers, so a
    reader stays asleep next to a full buffer, with no writer inside the pipe that
    would wake it up and the write end still open. *)
Theorem pipe_lost_wakeup :
  exists s, preach true sample_data s /\
    e_readers s !! 2%nat = Some (Reader 1 true) /\ e_writers s = ∅ /\
    length (contents (e_pipe s)) = Z.to_nat PIPESIZE /\ p_writeopen (e_pipe s) = true.
Proof.
  exists lost_reader. split; [|by vm_compute].
  unfold lost_reader. cbv zeta.
  eapply pr_step; [|by eapply ps_run_writer; [by vm_compute|done|done]].
  eapply pr_step; [|by apply (ps_write _ 1%nat lost_bytes); vm_compute].
  eapply pr_step; [|by eapply ps_run_reader; [by vm_compute|done|done]].
  eapply pr_step; [by apply pr_init|]. by apply (ps_read _ 2%nat 1).
Qed.
