(* ===== verification/Fs.v ===== *)
(** * The file system below the system calls (fs.c, fs.h, file.h)

    The block allocator, inodes, directories and path names, over the log of [Log]. A
    pointer to a cached inode is its index in [icache.inode]. Every section under
    [icache.lock] is one atomic step. A buffer the caller passes to be filled is
    returned as a list of bytes; one it passes to be read is a list of bytes. A path is
    the list of its characters without the NUL. *)

From stdpp Require Import base tactics numbers list gmap strings.
From Stdlib Require Import ZArith Lia ZifyNat.
From S2P Require Import Prelude Layout Sleeplock Bio Log.

(** [struct inode]; [i_addrs] has [NDIRECT+1] entries. *)
Record inode := Inode {
  i_dev : Z;
  i_inum : Z;
  i_ref : Z;
  i_lock : sleeplock;
  i_valid : Z;
  i_type : Z;
  i_major : Z;
  i_minor : Z;
  i_nlink : Z;
  i_size : Z;
  i_addrs : list Z }.

Definition set_i_ref (v : Z) (i : inode) : inode :=
  Inode (i_dev i) (i_inum i) v (i_lock i) (i_valid i) (i_type i) (i_major i) (i_minor i)
    (i_nlink i) (i_size i) (i_addrs i).
Definition set_i_lock (v : sleeplock) (i : inode) : inode :=
  Inode (i_dev i) (i_inum i) (i_ref i) v (i_valid i) (i_type i) (i_major i) (i_minor i)
    (i_nlink i) (i_size i) (i_addrs i).
Definition set_i_valid (v : Z) (i : inode) : inode :=
  Inode (i_dev i) (i_inum i) (i_ref i) (i_lock i) v (i_type i) (i_major i) (i_minor i)
    (i_nlink i) (i_size i) (i_addrs i).
Definition set_i_type (v : Z) (i : inode) : inode :=
  Inode (i_dev i) (i_inum i) (i_ref i) (i_lock i) (i_valid i) v (i_major i) (i_minor i)
    (i_nlink i) (i_size i) (i_addrs i).
Definition set_i_node (major minor nlink : Z) (i : inode) : inode :=
  Inode (i_dev i) (i_inum i) (i_ref i) (i_lock i) (i_valid i) (i_type i) major minor
    nlink (i_size i) (i_addrs i).
Definition set_i_size (v : Z) (i : inode) : inode :=
  Inode (i_dev i) (i_inum i) (i_ref i) (i_lock i) (i_valid i) (i_type i) (i_major i) (i_minor i)
    (i_nlink i) v (i_addrs i).
Definition set_i_addrs (v : list Z) (i : inode) : inode :=
  Inode (i_dev i) (i_inum i) (i_ref i) (i_lock i) (i_valid i) (i_type i) (i_major i) (i_minor i)
    (i_nlink i) (i_size i) v.

Definition zero_inode : inode :=
  Inode 0 0 0 (SleepLock 0 EmptyString 0) 0 0 0 0 0 0 (replicate 13 0).

Record fsst := FsSt {
  fs_log : logst;
  fs_sb : superblock;
  fs_icache : list inode }.

Definition log_lens : lens fsst logst :=
  Lens fs_log (fun l s => FsSt l (fs_sb s) (fs_icache s)).

Definition geti (s : fsst) (ip : nat) : inode := default zero_inode (fs_icache s !! ip).
Definition updi (ip : nat) (f : inode -> inode) (s : fsst) : fsst :=
  FsSt (fs_log s) (fs_sb s) (alter f ip (fs_icache s)).
Definition ilock_lens (ip : nat) : lens fsst sleeplock :=
  Lens (fun s => i_lock (geti s ip)) (fun lk s => updi ip (set_i_lock lk) s).

(** ** Fields inside a block *)

Definition ld16 (x : bdata) (o : nat) : Z := byte_at x o + 256 * byte_at x (o + 1).
Definition st16 (o : nat) (v : Z) (x : bdata) : bdata :=
  <[(o + 1)%nat := u8 (v / 256)]> (<[o := u8 v]> x).

(** [memmove] of the bytes [l] to offset [o] of a block. *)
Fixpoint put_bytes (o : nat) (l : list Z) (x : bdata) : bdata :=
  match l with
  | [] => x
  | c :: l => put_bytes (S o) l (<[o := c]> x)
  end.

(** Bit [bi] of a block of the free map: [data[bi/8] & (1 << (bi%8))]. *)
Definition map_mask (bi : Z) : Z := Z.shiftl 1 (bi mod 8).
Definition map_byte (bi : Z) : nat := Z.to_nat (bi / 8).
Definition map_bit (x : bdata) (bi : Z) : Z := Z.land (byte_at x (map_byte bi)) (map_mask bi).
Definition map_set (bi : Z) (x : bdata) : bdata :=
  <[map_byte bi := u8 (Z.lor (byte_at x (map_byte bi)) (map_mask bi))]> x.
Definition map_clear (bi : Z) (x : bdata) : bdata :=
  <[map_byte bi := u8 (Z.land (byte_at x (map_byte bi)) (Z.lnot (map_mask bi)))]> x.

(** Inode [inum%IPB] of a block: type, major, minor, nlink, size, addrs. *)
Definition dinode_at (inum : Z) : nat := Z.to_nat (DINODE_SIZE * (inum mod IPB)).

Definition load_dinode (x : bdata) (o : nat) (i : inode) : inode :=
  Inode (i_dev i) (i_inum i) (i_ref i) (i_lock i) (i_valid i)
    (s16 (ld16 x o)) (s16 (ld16 x (o + 2))) (s16 (ld16 x (o + 4))) (s16 (ld16 x (o + 6)))
    (ld32 x (o + 8)) ((fun k => ld32 x (o + 12 + 4 * k)) <$> seq 0 13).

Definition store_addrs (o : nat) (addrs : list Z) (x : bdata) : bdata :=
  fold_left (fun x k => st32 (o + 4 * k) (default 0 (addrs !! k)) x) (seq 0 13) x.

Definition store_dinode (o : nat) (i : inode) (x : bdata) : bdata :=
  store_addrs (o + 12) (i_addrs i)
    (st32 (o + 8) (i_size i)
      (st16 (o + 6) (i_nlink i) (st16 (o + 4) (i_minor i)
        (st16 (o + 2) (i_major i) (st16 o (i_type i) x))))).

(** The device switch table, filled by the drivers at start-up: what reading and writing
    a device does, by major number. *)
Class DevSw := {
  dev_read : Z -> option (nat -> Z -> M fsst (Z * list Z));
  dev_write : Z -> option (nat -> list Z -> M fsst Z) }.

Section Fs.
(** [myproc()->pid] and [myproc()->cwd]. *)
Variable pid : Z.
Variable cwd : nat.
Context {devsw : DevSw}.

Definition f_bread (dev n : Z) : M fsst nat :=
  zoom log_lens (zoom bs_lens (bread pid (u32 dev) (u32 n))).
Definition f_data (b : nat) : M fsst bdata :=
  gets (fun s => b_data (getb (lg_bs (fs_log s)) b)).
Definition f_edit (b : nat) (f : bdata -> bdata) : M fsst unit := zoom log_lens (l_edit b f).
Definition f_log_write (b : nat) : M fsst unit := zoom log_lens (log_write b).
Definition f_brelse (b : nat) : M fsst unit := zoom log_lens (l_brelse pid b).

(** ** Blocks *)

Definition readsb (dev : Z) : M fsst superblock :=
  let! bp := f_bread dev 1 in
  let! x := f_data bp in
  f_brelse bp ;;;
  m_ret (Superblock (ld32 x 0) (ld32 x 4) (ld32 x 8) (ld32 x 12) (ld32 x 16) (ld32 x 20) (ld32 x 24)).

Definition bzero (dev bno : Z) : M fsst unit :=
  let! bp := f_bread dev bno in
  f_edit bp (fun x => replicate (Z.to_nat BSIZE) 0) ;;;
  f_log_write bp ;;;
  f_brelse bp.

(** The inner loop of [balloc]: the first free bit of the map block for [b ...]. *)
Definition free_bit (x : bdata) (b size : Z) : option Z :=
  find (fun bi => map_bit x bi =? 0) (Z.of_nat <$> seq 0 (Z.to_nat (Z.min BPB (size - b)))).

(** The outer loop, over the values of [b]. *)
Fixpoint balloc_loop (dev : Z) (bs : list Z) : M fsst Z :=
  match bs with
  | [] => panic "balloc: out of blocks"
  | b :: bs =>
      let! s := get in
      let! bp := f_bread dev (BBLOCK b (fs_sb s)) in
      let! x := f_data bp in
      match free_bit x b (sb_size (fs_sb s)) with
      | Some bi =>
          f_edit bp (map_set bi) ;;;
          f_log_write bp ;;;
          f_brelse bp ;;;
          bzero dev (b + bi) ;;;
          m_ret (b + bi)
      | None => f_brelse bp ;;; balloc_loop dev bs
      end
  end.

(** [for(b = 0; b < sb.size; b += BPB)] *)
Definition balloc_starts (size : Z) : list Z :=
  (fun i => BPB * Z.of_nat i) <$> seq 0 (Z.to_nat ((size + BPB - 1) / BPB)).

Definition balloc (dev : Z) : M fsst Z :=
  let! s := get in balloc_loop dev (balloc_starts (sb_size (fs_sb s))).

Definition bfree (dev b : Z) : M fsst unit :=
  let! s := get in
  let! bp := f_bread dev (BBLOCK b (fs_sb s)) in
  let bi := b mod BPB in
  let! x := f_data bp in
  if map_bit x bi =? 0 then panic "freeing free block" else
  f_edit bp (map_clear bi) ;;;
  f_log_write bp ;;;
  f_brelse bp.

(** ** Inodes *)

Definition iinit (dev : Z) : M fsst unit :=
  mfor (seq 0 NINODE) (fun i =>
    modify (fun s => updi i (set_i_lock (initsleeplock "inode" (i_lock (geti s i)))) s)) ;;;
  let! sb := readsb dev in
  modify (fun s => FsSt (fs_log s) sb (fs_icache s)).

(** The search of [iget]: the entry of the inode, else the first unused one. *)
Definition iget (dev inum : Z) : M fsst nat :=
  let! s := get in
  match find_idx (fun i => (0 <? i_ref i) && (i_dev i =? dev) && (i_inum i =? inum)) 0 (fs_icache s) with
  | Some ip => modify (updi ip (fun i => set_i_ref (i_ref i + 1) i)) ;;; m_ret ip
  | None =>
      match find_idx (fun i => i_ref i =? 0) 0 (fs_icache s) with
      | None => panic "iget: no inodes"
      | Some ip =>
          modify (updi ip (fun i => Inode dev inum 1 (i_lock i) 0 (i_type i) (i_major i)
            (i_minor i) (i_nlink i) (i_size i) (i_addrs i))) ;;;
          m_ret ip
      end
  end.

Fixpoint ialloc_loop (dev type : Z) (inums : list Z) : M fsst nat :=
  match inums with
  | [] => panic "ialloc: no inodes"
  | inum :: inums =>
      let! s := get in
      let! bp := f_bread dev (IBLOCK inum (fs_sb s)) in
      let! x := f_data bp in
      let o := dinode_at inum in
      if s16 (ld16 x o) =? 0 then
        f_edit bp (fun x => st16 o type (put_bytes o (replicate (Z.to_nat DINODE_SIZE) 0) x)) ;;;
        f_log_write bp ;;;
        f_brelse bp ;;;
        iget dev inum
      else
        f_brelse bp ;;; ialloc_loop dev type inums
  end.

(** [for(inum = 1; inum < sb.ninodes; inum++)] *)
Definition ialloc (dev type : Z) : M fsst nat :=
  let! s := get in
  ialloc_loop dev type (Z.of_nat <$> seq 1 (Z.to_nat (sb_ninodes (fs_sb s) - 1))).

Definition iupdate (ip : nat) : M fsst unit :=
  let! s := get in
  let i := geti s ip in
  let! bp := f_bread (i_dev i) (IBLOCK (i_inum i) (fs_sb s)) in
  f_edit bp (store_dinode (dinode_at (i_inum i)) i) ;;;
  f_log_write bp ;;;
  f_brelse bp.

Definition idup (ip : nat) : M fsst nat :=
  modify (updi ip (fun i => set_i_ref (i_ref i + 1) i)) ;;;
  m_ret ip.

Definition ilock (ip : nat) : M fsst unit :=
  let! s := get in
  if i_ref (geti s ip) <? 1 then panic "ilock" else
  zoom (ilock_lens ip) (acquiresleep pid) ;;;
  let! s := get in
  let i := geti s ip in
  when (i_valid i =? 0)
    (let! bp := f_bread (i_dev i) (IBLOCK (i_inum i) (fs_sb s)) in
     let! x := f_data bp in
     modify (updi ip (load_dinode x (dinode_at (i_inum i)))) ;;;
     f_brelse bp ;;;
     modify (updi ip (set_i_valid 1)) ;;;
     let! s := get in
     when (i_type (geti s ip) =? 0) (panic "ilock: no type")).

Definition iunlock (ip : nat) : M fsst unit :=
  let! held := zoom (ilock_lens ip) (holdingsleep pid) in
  let! s := get in
  if negb held || (i_ref (geti s ip) <? 1) then panic "iunlock" else
  zoom (ilock_lens ip) releasesleep.

(** ** Inode content *)

Definition addr_of (i : inode) (k : Z) : Z := default 0 (i_addrs i !! Z.to_nat k).
Definition set_addr (k v : Z) (i : inode) : inode :=
  set_i_addrs (<[Z.to_nat k := v]> (i_addrs i)) i.

(** Entry [bn] of the indirect block [addr], allocated if necessary. *)
Definition bmap_entry (dev addr bn : Z) : M fsst Z :=
  let! bp := f_bread dev addr in
  let! x := f_data bp in
  let o := Z.to_nat (4 * bn) in
  if ld32 x o =? 0 then
    let! addr := balloc dev in
    f_edit bp (st32 o addr) ;;;
    f_log_write bp ;;;
    f_brelse bp ;;;
    m_ret addr
  else
    f_brelse bp ;;;
    m_ret (ld32 x o).

Definition bmap (ip : nat) (bn : Z) : M fsst Z :=
  let! s := get in
  let i := geti s ip in
  if bn <? NDIRECT then
    if addr_of i bn =? 0 then
      let! addr := balloc (i_dev i) in
      modify (updi ip (set_addr bn addr)) ;;;
      m_ret addr
    else m_ret (addr_of i bn)
  else
    let bn := bn - NDIRECT in
    if bn <? NINDIRECT then
      if addr_of i NDIRECT =? 0 then
        let! addr := balloc (i_dev i) in
        modify (updi ip (set_addr NDIRECT addr)) ;;;
        bmap_entry (i_dev i) addr bn
      else bmap_entry (i_dev i) (addr_of i NDIRECT) bn
    else panic "bmap: out of range".

Definition itrunc (ip : nat) : M fsst unit :=
  mfor (seq 0 (Z.to_nat NDIRECT)) (fun k =>
    let! s := get in
    let i := geti s ip in
    when (negb (addr_of i (Z.of_nat k) =? 0))
      (bfree (i_dev i) (addr_of i (Z.of_nat k)) ;;;
       modify (updi ip (set_addr (Z.of_nat k) 0)))) ;;;
  let! s := get in
  let i := geti s ip in
  when (negb (addr_of i NDIRECT =? 0))
    (let! bp := f_bread (i_dev i) (addr_of i NDIRECT) in
     mfor (seq 0 (Z.to_nat NINDIRECT)) (fun j =>
       let! x := f_data bp in
       when (negb (ld32 x (4 * j) =? 0)) (bfree (i_dev i) (ld32 x (4 * j)))) ;;;
     f_brelse bp ;;;
     bfree (i_dev i) (addr_of i NDIRECT) ;;;
     modify (updi ip (set_addr NDIRECT 0))) ;;;
  modify (updi ip (set_i_size 0)) ;;;
  iupdate ip.

Definition iput (ip : nat) : M fsst unit :=
  zoom (ilock_lens ip) (acquiresleep pid) ;;;
  let! s := get in
  let i := geti s ip in
  when (negb (i_valid i =? 0) && (i_nlink i =? 0))
    (when (i_ref i =? 1)
       (itrunc ip ;;;
        modify (updi ip (set_i_type 0)) ;;;
        iupdate ip ;;;
        modify (updi ip (set_i_valid 0)))) ;;;
  zoom (ilock_lens ip) releasesleep ;;;
  modify (updi ip (fun i => set_i_ref (i_ref i - 1) i)).

Definition iunlockput (ip : nat) : M fsst unit := iunlock ip ;;; iput ip.

(** [struct stat] *)
Record stat := Stat { st_dev : Z; st_ino : Z; st_type : Z; st_nlink : Z; st_size : Z }.

Definition stati (ip : nat) : M fsst stat :=
  let! i := gets (fun s => geti s ip) in
  m_ret (Stat (s32 (i_dev i)) (i_inum i) (i_type i) (i_nlink i) (i_size i)).

(** The loop of [readi], with [n - tot] bytes to go; at least one byte is copied each
    turn, so [n] turns are enough. *)
Fixpoint readi_loop (fuel : nat) (ip : nat) (off left : Z) : M fsst (list Z) :=
  if left <=? 0 then m_ret [] else
  match fuel with
  | O => m_ret []
  | S fuel =>
      let! addr := bmap ip (off / BSIZE) in
      let! dev := gets (fun s => i_dev (geti s ip)) in
      let! bp := f_bread dev addr in
      let m := Z.min left (BSIZE - off mod BSIZE) in
      let! x := f_data bp in
      f_brelse bp ;;;
      let! rest := readi_loop fuel ip (off + m) (left - m) in
      m_ret (take (Z.to_nat m) (drop (Z.to_nat (off mod BSIZE)) x) ++ rest)
  end.

Definition readi (ip : nat) (off n : Z) : M fsst (Z * list Z) :=
  let! i := gets (fun s => geti s ip) in
  if i_type i =? T_DEV then
    if (i_major i <? 0) || (NDEV <=? i_major i) then m_ret (-1, []) else
    match dev_read (i_major i) with
    | None => m_ret (-1, [])
    | Some read => read ip n
    end
  else if (i_size i <? off) || (u32 (off + n) <? off) then m_ret (-1, [])
  else
    let n := if i_size i <? off + n then i_size i - off else n in
    let! l := readi_loop (Z.to_nat n) ip off n in
    m_ret (s32 n, l).

(** One turn of the loop of [writei]: the bytes [l] copied into the block of [off]. *)
Definition writei_turn (ip : nat) (off : Z) (l : list Z) : M fsst unit :=
  let! addr := bmap ip (off / BSIZE) in
  let! dev := gets (fun s => i_dev (geti s ip)) in
  let! bp := f_bread dev addr in
  f_edit bp (put_bytes (Z.to_nat (off mod BSIZE)) l) ;;;
  f_log_write bp ;;;
  f_brelse bp.

(** The loop, with the bytes still to write; it returns the final [off]. *)
Fixpoint writei_loop (fuel : nat) (ip : nat) (off : Z) (src : list Z) : M fsst Z :=
  if (length src =? 0)%nat then m_ret off else
  match fuel with
  | O => m_ret off
  | S fuel =>
      let m := Z.min (Z.of_nat (length src)) (BSIZE - off mod BSIZE) in
      writei_turn ip off (take (Z.to_nat m) src) ;;;
      writei_loop fuel ip (off + m) (drop (Z.to_nat m) src)
  end.

Definition writei (ip : nat) (src : list Z) (off : Z) : M fsst Z :=
  let n := Z.of_nat (length src) in
  let! i := gets (fun s => geti s ip) in
  if i_type i =? T_DEV then
    if (i_major i <? 0) || (NDEV <=? i_major i) then m_ret (-1) else
    match dev_write (i_major i) with
    | None => m_ret (-1)
    | Some write => write ip src
    end
  else if (i_size i <? off) || (u32 (off + n) <? off) then m_ret (-1)
  else if MAXFILE * BSIZE <? off + n then m_ret (-1)
  else
    let! off := writei_loop (length src) ip off src in
    let! i := gets (fun s => geti s ip) in
    when ((0 <? n) && (i_size i <? off))
      (modify (updi ip (set_i_size off)) ;;; iupdate ip) ;;;
    m_ret (s32 n).

(** ** Directories *)

(** [strncmp] (string.c) on two arrays of bytes that end in a NUL or after [n] bytes. *)
Fixpoint strncmp_buf (n : nat) (p q : list Z) : Z :=
  match n with
  | O => 0
  | S n =>
      let c := hd 0 p in let d := hd 0 q in
      if negb (c =? 0) && (c =? d) then strncmp_buf n (tail p) (tail q) else c - d
  end.
(** The [n] bytes [strncpy] (string.c) writes. *)
Fixpoint strncpy_buf (n : nat) (t : list Z) : list Z :=
  match n with
  | O => []
  | S n => if hd 0 t =? 0 then replicate (S n) 0 else hd 0 t :: strncpy_buf n (tail t)
  end.

Definition namecmp (s t : list Z) : Z := strncmp_buf (Z.to_nat DIRSIZ) s t.

(** [struct dirent] as bytes. *)
Definition de_inum (de : list Z) : Z := ld16 de 0.
Definition de_name (de : list Z) : list Z := drop 2 de.
Definition dirent (inum : Z) (name : list Z) : list Z :=
  [u8 inum; u8 (inum / 256)] ++ strncpy_buf (Z.to_nat DIRSIZ) name.

(** The offsets of the entries: [for(off = 0; off < dp->size; off += sizeof(de))]. *)
Definition de_offs (size : Z) : list Z :=
  (fun k => DIRENT_SIZE * Z.of_nat k) <$> seq 0 (Z.to_nat ((size + DIRENT_SIZE - 1) / DIRENT_SIZE)).

Fixpoint dirlookup_loop (dp : nat) (name : list Z) (offs : list Z) : M fsst (option (nat * Z)) :=
  match offs with
  | [] => m_ret None
  | off :: offs =>
      let! r := readi dp off DIRENT_SIZE in
      if negb (fst r =? DIRENT_SIZE) then panic "dirlookup read" else
      let de := snd r in
      if de_inum de =? 0 then dirlookup_loop dp name offs
      else if namecmp name (de_name de) =? 0 then
        let! dev := gets (fun s => i_dev (geti s dp)) in
        let! ip := iget dev (de_inum de) in
        m_ret (Some (ip, off))
      else dirlookup_loop dp name offs
  end.

Definition dirlookup (dp : nat) (name : list Z) : M fsst (option (nat * Z)) :=
  let! i := gets (fun s => geti s dp) in
  if negb (i_type i =? T_DIR) then panic "dirlookup not DIR" else
  dirlookup_loop dp name (de_offs (i_size i)).

(** The loop of [dirlink]: the offset of an empty entry, or of the end. *)
Fixpoint dirlink_loop (dp : nat) (offs : list Z) (last : Z) : M fsst Z :=
  match offs with
  | [] => m_ret last
  | off :: offs =>
      let! r := readi dp off DIRENT_SIZE in
      if negb (fst r =? DIRENT_SIZE) then panic "dirlink read" else
      if de_inum (snd r) =? 0 then m_ret off else dirlink_loop dp offs (off + DIRENT_SIZE)
  end.

Definition dirlink (dp : nat) (name : list Z) (inum : Z) : M fsst Z :=
  let! r := dirlookup dp name in
  match r with
  | Some (ip, _) => iput ip ;;; m_ret (-1)
  | None =>
      let! i := gets (fun s => geti s dp) in
      let! off := dirlink_loop dp (de_offs (i_size i)) 0 in
      let! w := writei dp (dirent inum name) off in
      if negb (w =? DIRENT_SIZE) then panic "dirlink" else m_ret 0
  end.

(** ** Paths *)

Definition SLASH : Z := 47.

Fixpoint skip_slashes (path : list Z) : list Z :=
  match path with
  | c :: path' => if c =? SLASH then skip_slashes path' else path
  | [] => []
  end.
(** The bytes up to the next slash or the end, and what follows. *)
Fixpoint span_elem (path : list Z) : list Z * list Z :=
  match path with
  | c :: path' =>
      if c =? SLASH then ([], path)
      else let '(e, r) := span_elem path' in (c :: e, r)
  | [] => ([], [])
  end.

(** The element copied into [name], at most [DIRSIZ] bytes, and the rest of the path. *)
Definition skipelem (path : list Z) : option (list Z * list Z) :=
  match skip_slashes path with
  | [] => None
  | s => let '(e, r) := span_elem s in Some (take (Z.to_nat DIRSIZ) e, skip_slashes r)
  end.

(** The loop of [namex]; each turn consumes a character, so the length of the path is
    enough fuel. [name] is the last element copied. *)
Fixpoint namex_loop (fuel : nat) (path : list Z) (parent : bool) (ip : nat) (name : list Z)
  : M fsst (option (nat * list Z)) :=
  match skipelem path, fuel with
  | Some (name, path), S fuel =>
      ilock ip ;;;
      let! i := gets (fun s => geti s ip) in
      if negb (i_type i =? T_DIR) then iunlockput ip ;;; m_ret None
      else if parent && (length path =? 0)%nat then iunlock ip ;;; m_ret (Some (ip, name))
      else
        let! next := dirlookup ip name in
        match next with
        | None => iunlockput ip ;;; m_ret None
        | Some (next, _) => iunlockput ip ;;; namex_loop fuel path parent next name
        end
  | _, _ =>
      if parent then iput ip ;;; m_ret None else m_ret (Some (ip, name))
  end.

Definition namex (path : list Z) (parent : bool) : M fsst (option (nat * list Z)) :=
  let! ip := (if hd 0 path =? SLASH then iget ROOTDEV ROOTINO else idup cwd) in
  namex_loop (length path) path parent ip [].

Definition namei (path : list Z) : M fsst (option nat) :=
  let! r := namex path false in m_ret (fst <$> r).

Definition nameiparent (path : list Z) : M fsst (option (nat * list Z)) := namex path true.
End Fs.
