(* ===== verification/FsTx.v ===== *)
(** * What the log promises to the file system

    Inside a transaction the file system sees a map from block numbers to contents and
    a set of buffers it holds. [Tx] states the effect of the block operations on that
    view; the proofs of the file system use only these laws, and the log of [Log]
    satisfies them. *)

From stdpp Require Import base tactics numbers list sets gmap strings.
From Stdlib Require Import ZArith Lia ZifyNat.
From S2P Require Import Prelude Layout Sleeplock Bio BioSpec Log LogSpec LogCrash LogOps Fs.

(** The block [n] replaced in a map of blocks. *)
Definition upd (n : Z) (x : bdata) (c : Z -> bdata) : Z -> bdata :=
  fun k => if decide (k = n) then x else c k.

Lemma upd_eq n x c : upd n x c n = x.
Proof. unfold upd. by rewrite decide_True. Qed.
Lemma upd_ne n x c k : k <> n -> upd n x c k = c k.
Proof. intros. unfold upd. by rewrite decide_False. Qed.

(** ** Layout of the disk *)

(** [boot | super | log | inodes | free map | data]: [data_start] is the number of the
    first data block. *)
Definition data_start (sb : superblock) : Z := sb_size sb - sb_nblocks sb.

Record geom (sb : superblock) : Prop := Geom {
  g_log : 1 < sb_logstart sb /\ sb_nlog sb = LOGSIZE;
  g_inode : sb_logstart sb + sb_nlog sb <= sb_inodestart sb;
  g_bmap : 0 <= sb_ninodes sb /\ sb_inodestart sb + sb_ninodes sb / IPB < sb_bmapstart sb;
  g_data : sb_bmapstart sb + (sb_size sb - 1) / BPB < data_start sb;
  g_size : 0 <= sb_nblocks sb /\ 0 < sb_size sb < 2147483648 }.

(** The blocks a transaction may write. *)
Definition loggable (sb : superblock) (n : Z) : Prop :=
  sb_logstart sb + sb_nlog sb <= n < sb_size sb.

Lemma IBLOCK_loggable sb inum :
  geom sb -> 0 <= inum < sb_ninodes sb ->
  loggable sb (IBLOCK inum sb) /\ IBLOCK inum sb < sb_bmapstart sb.
Proof.
  intros [[? E] ? ? ? ?] Hi. unfold LOGSIZE, MAXOPBLOCKS in E. unfold loggable, IBLOCK, data_start, BPB, IPB, DINODE_SIZE, NDIRECT, BSIZE in *.
  change (512 / (4 * 2 + 4 + (12 + 1) * 4)) with 8 in *. change (512 * 8) with 4096 in *. zlia.
Qed.

Lemma BBLOCK_loggable sb b :
  geom sb -> 0 <= b < sb_size sb ->
  loggable sb (BBLOCK b sb) /\ sb_bmapstart sb <= BBLOCK b sb < data_start sb.
Proof.
  intros [[? E] ? ? ? ?] Hi. unfold LOGSIZE, MAXOPBLOCKS in E. unfold loggable, BBLOCK, data_start, BPB, IPB, DINODE_SIZE, NDIRECT, BSIZE in *.
  change (512 / (4 * 2 + 4 + (12 + 1) * 4)) with 8 in *. change (512 * 8) with 4096 in *. zlia.
Qed.

Lemma data_loggable sb b :
  geom sb -> data_start sb <= b < sb_size sb -> loggable sb b.
Proof.
  intros [[? E] ? ? ? ?] Hi. unfold LOGSIZE, MAXOPBLOCKS in E. unfold loggable, data_start, BPB, IPB, DINODE_SIZE, NDIRECT, BSIZE in *.
  change (512 / (4 * 2 + 4 + (12 + 1) * 4)) with 8 in *. change (512 * 8) with 4096 in *. zlia.
Qed.

Lemma loggable_range sb n : geom sb -> loggable sb n -> 0 <= n < sb_size sb.
Proof. intros [[? E] ? ? ? ?] []. unfold LOGSIZE, MAXOPBLOCKS in E. lia. Qed.

(** ** Inside a transaction *)

Lemma size_add (n : Z) (D : gset Z) : (size (D ∪ {[n]}) <= size D + 1)%nat.
Proof. rewrite size_union_alt. pose proof (subseteq_size ({[n]} ∖ D) {[n]}) as Hs.
  rewrite size_singleton in Hs. specialize (Hs ltac:(set_solver)). lia. Qed.

Section Tx.
Variable pid : Z.
Variable out : Z.
Variable sb : superblock.
Implicit Types (ic : list inode) (c : Z -> bdata) (H : gmap nat (Z * bdata)) (D : gset Z).

(** The file system's view while [out] operations are outstanding: the inode cache [ic],
    the contents [c] of the blocks, the buffers [H] the process holds and the blocks [D]
    logged so far. *)
Record Tx ic c H D (s : fsst) : Prop := MkTx {
  T_sb : fs_sb s = sb;
  T_ic : fs_icache s = ic;
  T_store : exists A, rep pid A H (lg_bs (fs_log s)) /\ log_inv A (fs_log s) /\
    (forall n, view A n = c n) /\ dom (a_dirty A) = D /\ Z.of_nat (length (a_disk A)) = sb_size sb;
  T_log : lg_start (fs_log s) = sb_logstart sb /\ lg_size (fs_log s) = sb_nlog sb /\
    (1 <= out /\ lg_outstanding (fs_log s) = out /\ lg_committing (fs_log s) = 0) /\
    lh_n (lg_lh (fs_log s)) <= Z.of_nat (size D);
  T_len : forall n, 0 <= n < sb_size sb -> length (c n) = Z.to_nat BSIZE }.

Definition on_fs (s : fsst) (bs : bstate) : fsst := lset log_lens (on (fs_log s) bs) s.

Lemma Tx_on ic c H D H' s bs A :
  Tx ic c H D s ->
  rep pid A H' bs -> log_inv A (fs_log s) -> (forall n, view A n = c n) -> dom (a_dirty A) = D ->
  Z.of_nat (length (a_disk A)) = sb_size sb -> Tx ic c H' D (on_fs s bs).
Proof.
  intros [T1 T2 T3 T4 T5] R I V Hd HL. split; [done|done| |done|done].
  exists A. split; [done|]. by destruct I.
Qed.

Lemma Tx_bread ic c H D s n :
  Tx ic c H D s -> 0 <= n < sb_size sb -> (forall b x, H !! b <> Some (n, x)) ->
  (size D + size H < NBUF)%nat ->
  returns (f_bread pid 1 n) s (fun b s' => H !! b = None /\ Tx ic c (<[b := (n, c n)]> H) D s').
Proof.
  intros T Hn Hh Hroom. destruct (T_store _ _ _ _ _ T) as (A & R & I & V & Hd & HL).
  pose proof (li_geom _ _ I) as G.
  destruct (bread_ok pid A H _ n R) as (b & bs & E & Hb & R'); [unfold in_disk; lia|done| |].
  { right. by rewrite <- size_dom, Hd. }
  exists b, (on_fs s bs). split.
  - unfold f_bread, zoom. simpl. change (u32 1) with 1. rewrite (u32_small n) by lia. by rewrite E.
  - split; [done|]. rewrite V in R'. by eapply Tx_on.
Qed.

Lemma Tx_data ic c H D s b n x :
  Tx ic c H D s -> H !! b = Some (n, x) -> f_data b s = Done x s.
Proof.
  intros T HH. destruct (T_store _ _ _ _ _ T) as (A & R & _).
  destruct (held_lookup _ _ _ _ _ _ _ R HH) as (_ & y & Hy & _ & Hok).
  unfold f_data, gets. rewrite (getb_lookup _ _ _ Hy). f_equal. apply Hok.
Qed.

Lemma Tx_edit ic c H D s b n x f :
  Tx ic c H D s -> H !! b = Some (n, x) -> length (f x) = Z.to_nat BSIZE ->
  returns (f_edit b f) s (fun _ s' => Tx ic c (<[b := (n, f x)]> H) D s').
Proof.
  intros T HH Hf. destruct (T_store _ _ _ _ _ T) as (A & R & I & V & Hd & HL).
  destruct (l_edit_on pid A H (fs_log s) b n x f R HH Hf) as (bs & E & R').
  exists tt, (on_fs s bs). split; [|by eapply Tx_on].
  by apply (zoom_Done log_lens).
Qed.

Lemma Tx_held ic c H D s b n x :
  Tx ic c H D s -> H !! b = Some (n, x) -> length x = Z.to_nat BSIZE.
Proof.
  intros T HH. destruct (T_store _ _ _ _ _ T) as (A & R & _).
  destruct (held_lookup _ _ _ _ _ _ _ R HH) as (_ & y & _ & Hl & Hok).
  by destruct Hok as (_ & _ & _ & _ & <- & _).
Qed.

Lemma Tx_log_write ic c H D s b n x :
  geom sb -> Tx ic c H D s -> H !! b = Some (n, x) -> loggable sb n -> (size D <= 28)%nat ->
  returns (f_log_write b) s (fun _ s' => Tx ic (upd n x c) H (D ∪ {[n]}) s').
Proof.
  intros [[_ Hnl] _ _ _ _] T HH Hl Hroom. pose proof (Tx_held _ _ _ _ _ _ _ _ T HH) as Hx.
  destruct T as [T1 T2 (A & R & I & V & Hd & HL) (L1 & L2 & (L3 & L3' & L3'') & L4) T5].
  destruct (log_write_inv pid A H (fs_log s) b n x R I HH) as (s' & E & R' & I' & S' & N');
    [|lia|unfold LOGSIZE, MAXOPBLOCKS in Hnl; lia|].
  { unfold loggable in Hl. lia. }
  destruct S' as (S1 & S2 & S3 & S4).
  exists tt, (lset log_lens s' s). split; [by apply (zoom_Done log_lens)|].
  split; simpl; [done|done| | |].
  - exists (a_pin n x A). split; [done|]. split; [done|]. split; [|split; [|done]].
    + intros k. rewrite view_pin. unfold upd. destruct (decide (k = n)); [done|]. apply V.
    + simpl. rewrite dom_insert_L, Hd. set_solver.
  - split; [congruence|]. split; [congruence|]. split; [split; [done|]; split; congruence|]. rewrite N'.
    destruct (decide (is_Some (a_dirty A !! n))) as [Hs|Hs].
    + apply elem_of_dom in Hs. replace (D ∪ {[n]}) with D by set_solver. done.
    + assert (n ∉ D) by (rewrite <- Hd; by rewrite elem_of_dom).
      rewrite size_union by set_solver. rewrite size_singleton. lia.
  - intros k Hk. unfold upd. destruct (decide (k = n)); [done|by apply T5].
Qed.

Lemma Tx_brelse ic c H D s b n :
  Tx ic c H D s -> H !! b = Some (n, c n) ->
  returns (f_brelse pid b) s (fun _ s' => Tx ic c (delete b H) D s').
Proof.
  intros T HH. destruct (T_store _ _ _ _ _ T) as (A & R & I & V & Hd & HL).
  destruct (brelse_rep pid A H _ b n R) as (bs & E & R'); [by rewrite V|].
  exists tt, (on_fs s bs). split; [|by eapply Tx_on].
  apply (zoom_Done log_lens). by apply (zoom_Done bs_lens).
Qed.

(** Changing the inode cache. *)
Lemma Tx_updi ic c H D s ip f :
  Tx ic c H D s -> Tx (alter f ip ic) c H D (updi ip f s).
Proof. intros [T1 T2 T3 T4 T5]. split; simpl; [done|by rewrite T2|done..]. Qed.

Lemma Tx_geti ic c H D s ip : Tx ic c H D s -> geti s ip = default zero_inode (ic !! ip).
Proof. intros T. unfold geti. by rewrite (T_ic _ _ _ _ _ T). Qed.
End Tx.
