(* ===== verification/FsBlocks.v ===== *)
(** * The block allocator: [balloc], [bfree], [bzero]

    The free map as a set of used blocks, and what allocation and release do to it. *)

From stdpp Require Import base tactics numbers list sets gmap strings.
From Stdlib Require Import ZArith Lia ZifyNat.
From S2P Require Import Prelude Layout Sleeplock Bio BioSpec Log LogSpec LogCrash LogOps Fs FsTx.

#[local] Arguments Z.testbit : simpl never.

(** ** Bits of a block *)

Definition bit (x : bdata) (bi : Z) : bool := Z.testbit (byte_at x (map_byte bi)) (bi mod 8).

Lemma BPB_val : BPB = 4096.
Proof. done. Qed.

Lemma map_mask_pow bi : map_mask bi = 2 ^ (bi mod 8).
Proof. unfold map_mask. rewrite Z.shiftl_1_l. done. Qed.

Lemma map_bit_zero x bi : (map_bit x bi =? 0) = negb (bit x bi).
Proof.
  unfold map_bit, bit. rewrite map_mask_pow, land_bit by zlia.
  destruct (Z.testbit _ _); [|done]. apply Z.eqb_neq, Z.pow_nonzero; [lia|zlia].
Qed.

Lemma testbit_u8 z i : 0 <= i < 8 -> Z.testbit (u8 z) i = Z.testbit z i.
Proof. intros. unfold u8. change 256 with (2 ^ 8). apply Z.mod_pow2_bits_low. lia. Qed.

Lemma testbit_mask bi i : 0 <= i -> Z.testbit (map_mask bi) i = (bi mod 8 =? i).
Proof. intros. rewrite map_mask_pow. apply Z.pow2_bits_eqb. zlia. Qed.

Lemma same_bit bi bj :
  0 <= bi -> 0 <= bj -> map_byte bi = map_byte bj -> (bi mod 8 =? bj mod 8) = (bi =? bj).
Proof. unfold map_byte. intros. apply eq_true_iff_eq. rewrite !Z.eqb_eq. zlia. Qed.

Lemma map_byte_lt bi (x : bdata) :
  0 <= bi < BPB -> length x = Z.to_nat BSIZE -> (map_byte bi < length x)%nat.
Proof. intros Hb ->. rewrite BPB_val in Hb. unfold map_byte, BSIZE. zlia. Qed.

Lemma bit_set x bi bj :
  length x = Z.to_nat BSIZE -> 0 <= bi < BPB -> 0 <= bj < BPB ->
  bit (map_set bi x) bj = bit x bj || (bi =? bj).
Proof.
  intros Hx Hi Hj. unfold bit, map_set. rewrite byte_at_insert by by apply map_byte_lt.
  destruct (decide _) as [E|Hne].
  - rewrite testbit_u8, Z.lor_spec, testbit_mask, same_bit, E by (lia || zlia). done.
  - destruct (Z.eqb_spec bi bj) as [->|]; [done|]. by rewrite orb_false_r.
Qed.

Lemma bit_clear x bi bj :
  length x = Z.to_nat BSIZE -> 0 <= bi < BPB -> 0 <= bj < BPB ->
  bit (map_clear bi x) bj = bit x bj && negb (bi =? bj).
Proof.
  intros Hx Hi Hj. unfold bit, map_clear. rewrite byte_at_insert by by apply map_byte_lt.
  destruct (decide _) as [E|Hne].
  - rewrite testbit_u8, Z.land_spec, Z.lnot_spec, testbit_mask, same_bit, E by (lia || zlia). done.
  - destruct (Z.eqb_spec bi bj) as [->|]; [done|]. by rewrite andb_true_r.
Qed.

(** What the inner loop of [balloc] finds. *)
Lemma free_bit_spec x b size :
  match free_bit x b size with
  | Some bi => 0 <= bi < Z.min BPB (size - b) /\ bit x bi = false /\
      forall bj, 0 <= bj < bi -> bit x bj = true
  | None => forall bj, 0 <= bj < Z.min BPB (size - b) -> bit x bj = true
  end.
Proof.
  unfold free_bit. set (n := Z.min BPB (size - b)).
  enough (G : forall m i, match find (fun bi => map_bit x bi =? 0) (Z.of_nat <$> seq i m) with
    | Some bi => Z.of_nat i <= bi < Z.of_nat (i + m) /\ bit x bi = false /\
        forall bj, Z.of_nat i <= bj < bi -> bit x bj = true
    | None => forall bj, Z.of_nat i <= bj < Z.of_nat (i + m) -> bit x bj = true
    end).
  { specialize (G (Z.to_nat n) 0%nat). destruct (find _ _) as [bi|].
    - destruct G as (? & ? & G). split; [lia|]. split; [done|]. intros. apply G. lia.
    - intros. apply G. lia. }
  intros m. induction m as [|m IH]; intros i; simpl; [intros; lia|].
  rewrite map_bit_zero. destruct (bit x (Z.of_nat i)) eqn:E; simpl.
  - specialize (IH (S i)). destruct (find _ _) as [bi|].
    + destruct IH as (? & ? & IH). split; [lia|]. split; [done|]. intros bj Hj.
      destruct (decide (bj = Z.of_nat i)) as [->|]; [done|]. apply IH. lia.
    + intros bj Hj. destruct (decide (bj = Z.of_nat i)) as [->|]; [done|]. apply IH. lia.
  - split; [lia|]. split; [done|]. intros. lia.
Qed.

(** ** The free map *)

Section Blocks.
Variable pid : Z.
Variable out : Z.
Variable sb : superblock.
Hypothesis G : geom sb.
Implicit Types (ic : list inode) (c : Z -> bdata) (H : gmap nat (Z * bdata)) (D : gset Z).

Definition used c (b : Z) : bool := bit (c (BBLOCK b sb)) (b mod BPB).

(** The blocks before the data blocks are never free. *)
Definition meta_used c : Prop := forall b, 0 <= b < data_start sb -> used c b = true.

Definition is_data (b : Z) : Prop := data_start sb <= b < sb_size sb.

(** The held buffers are of data blocks in use. *)
Definition held_data c H : Prop :=
  forall i n x, H !! i = Some (n, x) -> is_data n /\ used c n = true.

(** The contents after block [b] is marked used, or free. *)
Definition mark_used (b : Z) c : Z -> bdata :=
  upd (BBLOCK b sb) (map_set (b mod BPB) (c (BBLOCK b sb))) c.
Definition mark_free (b : Z) c : Z -> bdata :=
  upd (BBLOCK b sb) (map_clear (b mod BPB) (c (BBLOCK b sb))) c.

Definition zero_block : bdata := replicate (Z.to_nat BSIZE) 0.

Lemma length_map_set bi x : length (map_set bi x) = length x.
Proof. apply length_insert. Qed.
Lemma length_map_clear bi x : length (map_clear bi x) = length x.
Proof. apply length_insert. Qed.

Lemma BBLOCK_inj b b' :
  0 <= b -> 0 <= b' -> BBLOCK b sb = BBLOCK b' sb -> b mod BPB = b' mod BPB -> b = b'.
Proof. unfold BBLOCK. rewrite BPB_val. intros. zlia. Qed.

Lemma mod_BPB b : 0 <= b mod BPB < BPB.
Proof. rewrite BPB_val. zlia. Qed.

Lemma used_mark_used c b b' :
  (forall n, 0 <= n < sb_size sb -> length (c n) = Z.to_nat BSIZE) ->
  0 <= b < sb_size sb -> 0 <= b' -> used (mark_used b c) b' = used c b' || (b =? b').
Proof.
  intros HL Hb Hb'. unfold used, mark_used.
  destruct (BBLOCK_loggable sb b G Hb) as [HB _]. pose proof (loggable_range sb _ G HB).
  destruct (decide (BBLOCK b' sb = BBLOCK b sb)) as [E|Hne].
  - rewrite E, upd_eq, bit_set by (apply HL || apply mod_BPB; done). f_equal.
    apply eq_true_iff_eq. rewrite !Z.eqb_eq. split; [|by intros ->].
    intros. apply BBLOCK_inj; try done; lia.
  - rewrite upd_ne by done. destruct (Z.eqb_spec b b') as [->|]; [done|]. by rewrite orb_false_r.
Qed.

Lemma used_mark_free c b b' :
  (forall n, 0 <= n < sb_size sb -> length (c n) = Z.to_nat BSIZE) ->
  0 <= b < sb_size sb -> 0 <= b' -> used (mark_free b c) b' = used c b' && negb (b =? b').
Proof.
  intros HL Hb Hb'. unfold used, mark_free.
  destruct (BBLOCK_loggable sb b G Hb) as [HB _]. pose proof (loggable_range sb _ G HB).
  destruct (decide (BBLOCK b' sb = BBLOCK b sb)) as [E|Hne].
  - rewrite E, upd_eq, bit_clear by (apply HL || apply mod_BPB; done). do 2 f_equal.
    apply eq_true_iff_eq. rewrite !Z.eqb_eq. split; [|by intros ->].
    intros. apply BBLOCK_inj; try done; lia.
  - rewrite upd_ne by done. destruct (Z.eqb_spec b b') as [->|]; [done|]. by rewrite andb_true_r.
Qed.

(** A data block is not a block of the map. *)
Lemma used_upd_data c b x b' :
  is_data b -> 0 <= b' < sb_size sb -> used (upd b x c) b' = used c b'.
Proof.
  intros [Hb1 Hb2] Hb'. unfold used. rewrite upd_ne; [done|].
  destruct (BBLOCK_loggable sb b' G Hb'). lia.
Qed.

Lemma held_insert c H b n x :
  held_data c H -> is_data n -> used c n = true -> held_data c (<[b := (n, x)]> H).
Proof. intros Hh Hn Hu i m y [[_ [= <- <-]]|[_ ?]]%lookup_insert_Some; [done|by eapply Hh]. Qed.

Lemma not_held c H n : held_data c H -> ~ (is_data n /\ used c n = true) ->
  forall i x, H !! i <> Some (n, x).
Proof. intros Hh Hn i x E. by apply Hn, (Hh i n x). Qed.

(** [bread], a change of the bytes, [log_write], [brelse]. *)
Lemma update_block ic c H D s n f :
  Tx pid out sb ic c H D s -> loggable sb n -> (forall i x, H !! i <> Some (n, x)) ->
  (size D + size H < NBUF)%nat -> (size D <= 28)%nat ->
  (forall x, length x = Z.to_nat BSIZE -> length (f x) = Z.to_nat BSIZE) ->
  returns (let! bp := f_bread pid 1 n in
           f_edit bp f ;;; f_log_write bp ;;; f_brelse pid bp) s
    (fun _ s' => Tx pid out sb ic (upd n (f (c n)) c) H (D ∪ {[n]}) s').
Proof using G.
  intros T Hn Hh Hr1 Hr2 Hf. pose proof (loggable_range sb n G Hn) as Hin.
  rstep Tx_bread; [done..|]. intros b s1 [Hb T1].
  rstep Tx_edit; [done|apply lookup_insert_eq|apply Hf; by eapply T_len|].
  intros _ s2 T2. rewrite insert_insert_eq in T2.
  rstep Tx_log_write; [done|done|apply lookup_insert_eq|done|done|]. intros _ s3 T3.
  rlast Tx_brelse; [done|rewrite lookup_insert_eq; by rewrite upd_eq|].
  intros _ s4 T4. by rewrite delete_insert_id in T4.
Qed.

Lemma bzero_ok ic c H D s n :
  Tx pid out sb ic c H D s -> loggable sb n -> (forall i x, H !! i <> Some (n, x)) ->
  (size D + size H < NBUF)%nat -> (size D <= 28)%nat ->
  returns (bzero pid 1 n) s (fun _ s' => Tx pid out sb ic (upd n zero_block c) H (D ∪ {[n]}) s').
Proof using G. intros. by apply (update_block ic c H D s n (fun _ => zero_block)). Qed.

(** The contents and the logged blocks after [balloc] has returned [b]. *)
Definition alloc_view (b : Z) c : Z -> bdata := upd b zero_block (mark_used b c).
Definition alloc_log (b : Z) D : gset Z := D ∪ {[BBLOCK b sb]} ∪ {[b]}.

Lemma balloc_loop_ok ic c H D s m i :
  Tx pid out sb ic c H D s -> held_data c H -> meta_used c ->
  (size D + size H + 1 < NBUF)%nat -> (size D <= 27)%nat ->
  sb_size sb <= BPB * Z.of_nat (i + m) ->
  (exists b, BPB * Z.of_nat i <= b < sb_size sb /\ used c b = false) ->
  returns (balloc_loop pid 1 ((fun i => BPB * Z.of_nat i) <$> seq i m)) s
    (fun b s' => BPB * Z.of_nat i <= b /\ is_data b /\ used c b = false /\
       (forall b', BPB * Z.of_nat i <= b' < b -> used c b' = true) /\
       Tx pid out sb ic (alloc_view b c) H (alloc_log b D) s').
Proof using G.
  revert s i. induction m as [|m IH]; intros s i T Hh Hm Hr1 Hr2 Hcov (b0 & Hb0 & Hu0); [lia|].
  set (b := BPB * Z.of_nat i) in *. pose proof BPB_val.
  assert (Hb : 0 <= b < sb_size sb) by lia.
  destruct (BBLOCK_loggable sb b G Hb) as [HB1 HB2].
  assert (HBj : forall bj, 0 <= bj < BPB -> BBLOCK (b + bj) sb = BBLOCK b sb /\ (b + bj) mod BPB = bj).
  { intros bj Hj. unfold BBLOCK, b. rewrite BPB_val in *. zlia. }
  cbn [fmap list_fmap seq balloc_loop]. fold b. apply returns_get.
  rewrite (T_sb _ _ _ _ _ _ _ _ T).
  rstep Tx_bread; [done|by apply loggable_range| |lia|].
  { eapply not_held; [done|]. intros [[? ?] _]. lia. }
  intros bp s1 [Hbp T1]. eapply returns_Done; [eapply Tx_data; [done|apply lookup_insert_eq]|].
  pose proof (free_bit_spec (c (BBLOCK b sb)) b (sb_size sb)) as Hfb.
  destruct (free_bit _ _ _) as [bi|].
  - destruct Hfb as (Hbi & Hz & Hlow). destruct (HBj bi) as [E1 E2]; [lia|].
    assert (Hu : used c (b + bi) = false) by (unfold used; by rewrite E1, E2).
    assert (Hd : is_data (b + bi)).
    { split; [|lia]. destruct (decide (b + bi < data_start sb)); [|lia].
      rewrite Hm in Hu by lia. done. }
    rstep Tx_edit; [done|apply lookup_insert_eq|rewrite length_map_set; eapply T_len; [done|by apply loggable_range]|].
    intros _ s2 T2. rewrite insert_insert_eq in T2.
    rstep Tx_log_write; [done|done|apply lookup_insert_eq|done|lia|]. intros _ s3 T3.
    rstep Tx_brelse; [done|rewrite lookup_insert_eq; by rewrite upd_eq|]. intros _ s4 T4.
    rewrite delete_insert_id in T4 by done.
    pose proof (size_add (BBLOCK b sb) D).
    rstep bzero_ok; [done|by apply data_loggable| |lia|lia|].
    { eapply not_held; [done|]. intros [_ ?]. congruence. }
    intros _ s5 T5. apply returns_ret. split; [lia|]. split; [done|]. split; [done|]. split.
    + intros b' Hb'. destruct (HBj (b' - b)) as [E3 E4]; [lia|].
      replace (b + (b' - b)) with b' in * by lia. unfold used. rewrite E3, E4. apply Hlow. lia.
    + unfold alloc_view, alloc_log, mark_used. by rewrite E1, E2.
  - rstep Tx_brelse; [done|apply lookup_insert_eq|]. intros _ s2 T2.
    rewrite delete_insert_id in T2 by done.
    assert (Hall : forall b', b <= b' < Z.min (b + BPB) (sb_size sb) -> used c b' = true).
    { intros b' Hb'. destruct (HBj (b' - b)) as [E3 E4]; [lia|].
      replace (b + (b' - b)) with b' in * by lia. unfold used. rewrite E3, E4. apply Hfb. lia. }
    eapply returns_mono; [apply (IH s2 (S i)); try done|].
    + lia.
    + exists b0. split; [|done]. destruct (decide (b0 < b + BPB)); [|lia].
      rewrite Hall in Hu0 by lia. done.
    + intros b1 s3 (H1 & H2 & H3 & H4 & H5). split; [lia|]. split; [done|]. split; [done|].
      split; [|done]. intros b' Hb'. pose proof H2 as [_ ?].
      destruct (decide (b' < b + BPB)); [apply Hall|apply H4]; lia.
Qed.

(** [balloc] returns the first free block, marked used and zeroed. *)
Lemma balloc_ok ic c H D s :
  Tx pid out sb ic c H D s -> held_data c H -> meta_used c ->
  (size D + size H + 1 < NBUF)%nat -> (size D <= 27)%nat ->
  (exists b, 0 <= b < sb_size sb /\ used c b = false) ->
  returns (balloc pid 1) s
    (fun b s' => is_data b /\ used c b = false /\ (forall b', 0 <= b' < b -> used c b' = true) /\
       Tx pid out sb ic (alloc_view b c) H (alloc_log b D) s').
Proof using G.
  intros T Hh Hm Hr1 Hr2 Hf. unfold balloc. apply returns_get.
  rewrite (T_sb _ _ _ _ _ _ _ _ T). unfold balloc_starts.
  eapply returns_mono; [eapply (balloc_loop_ok _ _ _ _ _ _ 0%nat); try done|].
  - pose proof (g_size _ G). rewrite BPB_val. zlia.
  - intros b s' (_ & ? & ? & Hl & ?). split; [done|]. split; [done|]. split; [|done].
    intros b' Hb'. apply Hl. lia.
Qed.

(** [bfree] of a used block marks it free; of a free one it panics. *)
Lemma bfree_ok ic c H D s b :
  Tx pid out sb ic c H D s -> held_data c H -> is_data b -> used c b = true ->
  (size D + size H < NBUF)%nat -> (size D <= 28)%nat ->
  returns (bfree pid 1 b) s
    (fun _ s' => Tx pid out sb ic (mark_free b c) H (D ∪ {[BBLOCK b sb]}) s').
Proof using G.
  intros T Hh Hd Hu Hr1 Hr2. destruct Hd as [Hd1 Hd2].
  assert (Hb : 0 <= b < sb_size sb) by (pose proof (data_loggable sb b G (conj Hd1 Hd2)) as Hl;
    by apply loggable_range in Hl).
  destruct (BBLOCK_loggable sb b G Hb) as [HB1 HB2].
  unfold bfree. apply returns_get. rewrite (T_sb _ _ _ _ _ _ _ _ T).
  rstep Tx_bread; [done|by apply loggable_range| |lia|].
  { eapply not_held; [done|]. intros [[? ?] _]. lia. }
  intros bp s1 [Hbp T1]. eapply returns_Done; [eapply Tx_data; [done|apply lookup_insert_eq]|].
  rewrite map_bit_zero. unfold used in Hu. rewrite Hu. cbn [negb].
  rstep Tx_edit; [done|apply lookup_insert_eq|rewrite length_map_clear; eapply T_len; [done|by apply loggable_range]|].
  intros _ s2 T2. rewrite insert_insert_eq in T2.
  rstep Tx_log_write; [done|done|apply lookup_insert_eq|done|lia|]. intros _ s3 T3.
  rlast Tx_brelse; [done|rewrite lookup_insert_eq; by rewrite upd_eq|].
  intros _ s4 T4. by rewrite delete_insert_id in T4.
Qed.
End Blocks.
