(* ===== verification/FsFile.v ===== *)
(** * Inode content: [bmap], [readi], [writei]

    A file is the sequence of the blocks its inode lists, directly and through the
    indirect block. [iwf] is the invariant of an inode in memory; [fbyte] gives the
    bytes of the file. *)

From stdpp Require Import base tactics numbers list sets gmap strings.
From Stdlib Require Import ZArith Lia ZifyNat.
From S2P Require Import Prelude Layout Sleeplock Bio BioSpec Log LogSpec LogCrash LogOps Fs FsTx FsBlocks.

#[local] Arguments Z.testbit : simpl never.

(** The indirect block, and the address of block [bn] of the file, 0 if there is none. *)
Definition ind (i : inode) : Z := addr_of i NDIRECT.
Definition fblk (c : Z -> bdata) (i : inode) (bn : Z) : Z :=
  if bn <? NDIRECT then addr_of i bn
  else if ind i =? 0 then 0
  else ld32 (c (ind i)) (Z.to_nat (4 * (bn - NDIRECT))).

Lemma MAXFILE_val : MAXFILE = 140.
Proof. done. Qed.
Lemma NDIRECT_val : NDIRECT = 12.
Proof. done. Qed.
Lemma NINDIRECT_val : NINDIRECT = 128.
Proof. done. Qed.

Lemma addr_set_addr k v i k' :
  length (i_addrs i) = 13%nat -> 0 <= k <= 12 -> 0 <= k' ->
  addr_of (set_addr k v i) k' = if k =? k' then v else addr_of i k'.
Proof.
  intros Hl Hk Hk'. unfold addr_of, set_addr. simpl. destruct (Z.eqb_spec k k') as [->|Hne].
  - rewrite list_lookup_insert_eq by lia. done.
  - rewrite list_lookup_insert_ne by lia. done.
Qed.

Section File.
Variable pid : Z.
Variable out : Z.
Variable sb : superblock.
Hypothesis G : geom sb.
Implicit Types (ic : list inode) (c : Z -> bdata) (H : gmap nat (Z * bdata)) (D : gset Z) (i : inode).

Abbreviation Tx := (Tx pid out sb).
Abbreviation used := (used sb).
Abbreviation is_data := (is_data sb).
Abbreviation alloc_view := (alloc_view sb).
Abbreviation alloc_log := (alloc_log sb).
Abbreviation meta_used := (meta_used sb).

Record iwf c i : Prop := Iwf {
  w_dev : i_dev i = 1;
  w_inum : 0 <= i_inum i < sb_ninodes sb;
  w_len : length (i_addrs i) = 13%nat;
  w_blk bn : 0 <= bn < MAXFILE -> fblk c i bn <> 0 ->
    is_data (fblk c i bn) /\ used c (fblk c i bn) = true /\ fblk c i bn <> ind i;
  w_ind : ind i <> 0 -> is_data (ind i) /\ used c (ind i) = true;
  w_inj bn bn' : 0 <= bn < MAXFILE -> 0 <= bn' < MAXFILE ->
    fblk c i bn = fblk c i bn' -> fblk c i bn <> 0 -> bn = bn' }.

(** The contents of every block have the size of a block, and the map covers the blocks
    before the data. *)
Record cwf c : Prop := Cwf {
  cw_len n : 0 <= n < sb_size sb -> length (c n) = Z.to_nat BSIZE;
  cw_meta : meta_used c }.

Lemma data_start_pos : 1 < data_start sb.
Proof using G.
  destruct G as [[? E] ? ? ? ?]. unfold LOGSIZE, MAXOPBLOCKS in E.
  assert (0 <= sb_ninodes sb / IPB) by (apply Z.div_pos; [lia|by vm_compute]).
  assert (0 <= (sb_size sb - 1) / BPB) by (apply Z.div_pos; [lia|by vm_compute]). lia.
Qed.

Lemma is_data_range n : is_data n -> 0 < n < sb_size sb.
Proof using G. intros [? ?]. pose proof data_start_pos. lia. Qed.

(** ** A fresh block *)

Lemma alloc_view_eq b c : alloc_view b c b = zero_block.
Proof. apply upd_eq. Qed.

Lemma alloc_view_ne b c n :
  n <> b -> n <> BBLOCK b sb -> alloc_view b c n = c n.
Proof. intros. unfold FsBlocks.alloc_view, mark_used. by rewrite !upd_ne. Qed.

Lemma alloc_view_data b c n : is_data b -> is_data n -> n <> b -> alloc_view b c n = c n.
Proof using G.
  intros Hb Hn Hne. apply alloc_view_ne; [done|].
  pose proof (is_data_range b Hb). destruct (BBLOCK_loggable sb b G) as [_ ?]; [lia|].
  destruct Hn. lia.
Qed.

Lemma alloc_view_low b c n : is_data b -> n < sb_bmapstart sb -> alloc_view b c n = c n.
Proof using G.
  intros Hb Hn. pose proof (is_data_range b Hb). destruct (BBLOCK_loggable sb b G) as [_ ?]; [lia|].
  destruct Hb. apply alloc_view_ne; lia.
Qed.

Lemma used_alloc_view b c n :
  cwf c -> is_data b -> 0 <= n < sb_size sb -> used (alloc_view b c) n = used c n || (b =? n).
Proof using G.
  intros [HL _] Hb Hn. pose proof (is_data_range b Hb). unfold FsBlocks.alloc_view.
  rewrite used_upd_data by done. apply used_mark_used; try done; lia.
Qed.

Lemma length_zero_block : length zero_block = Z.to_nat BSIZE.
Proof. apply length_replicate. Qed.

Lemma cwf_upd c n x : cwf c -> is_data n -> length x = Z.to_nat BSIZE -> cwf (upd n x c).
Proof using G.
  intros [HL HM] Hn Hx. split.
  - intros k Hk. unfold upd. destruct (decide (k = n)); [done|by apply HL].
  - intros b Hb. destruct (Hn) as [? ?]. rewrite used_upd_data by (done || lia). by apply HM.
Qed.

Lemma cwf_alloc c b : cwf c -> is_data b -> cwf (alloc_view b c).
Proof using G.
  intros W Hb. pose proof (is_data_range b Hb). pose proof W as [HL HM]. split.
  - intros n Hn. unfold FsBlocks.alloc_view, mark_used, upd.
    destruct (decide (n = b)); [apply length_zero_block|].
    destruct (decide (n = BBLOCK b sb)); [|by apply HL]. rewrite length_map_set. apply HL.
    destruct (BBLOCK_loggable sb b G) as [Hl _]; [lia|]. by apply loggable_range.
  - intros n Hn. pose proof (g_size _ G) as [? ?]. unfold data_start in Hn.
    rewrite used_alloc_view by (done || lia). by rewrite HM.
Qed.

Lemma ld32_zero_block o : ld32 zero_block o = 0.
Proof.
  unfold ld32. assert (E : forall k, byte_at zero_block k = 0); [|by rewrite !E].
  intros k. unfold byte_at, zero_block. destruct (replicate _ _ !! k) eqn:E; [|done].
  apply lookup_replicate in E as [-> _]. done.
Qed.

(** Contents that agree on the indirect block give the same addresses. *)
Lemma fblk_ext c c' i bn : (ind i <> 0 -> c' (ind i) = c (ind i)) -> fblk c' i bn = fblk c i bn.
Proof.
  intros E. unfold fblk. destruct (bn <? NDIRECT); [done|].
  destruct (Z.eqb_spec (ind i) 0); [done|]. by rewrite E.
Qed.

(** The blocks of an inode do not change when a fresh block is taken. *)
Lemma fblk_alloc c i b bn :
  iwf c i -> is_data b -> used c b = false -> fblk (alloc_view b c) i bn = fblk c i bn.
Proof using G.
  intros W Hb Hu. apply fblk_ext. intros Hi. destruct (w_ind _ _ W Hi) as [? ?].
  apply alloc_view_data; [done|done|]. congruence.
Qed.

(** Entry [k] of the inode set to the fresh block [b]. *)
Lemma ind_set_addr b k i :
  length (i_addrs i) = 13%nat -> 0 <= k <= 12 ->
  ind (set_addr k b i) = if k =? 12 then b else ind i.
Proof. intros. unfold ind. by rewrite addr_set_addr by (done || rewrite NDIRECT_val; lia). Qed.

Lemma set_addr_fblk c i b k bn :
  iwf c i -> is_data b -> used c b = false -> 0 <= k <= 12 -> addr_of i k = 0 -> 0 <= bn < MAXFILE ->
  fblk (alloc_view b c) (set_addr k b i) bn = if (bn =? k) && (k <? 12) then b else fblk c i bn.
Proof using G.
  intros W Hb Hu Hk H0 Hbn. pose proof (w_len _ _ W) as Hl. pose proof (is_data_range b Hb).
  destruct (Z.ltb_spec bn NDIRECT) as [Hd|Hd]; rewrite NDIRECT_val in Hd.
  - unfold fblk. rewrite NDIRECT_val, (proj2 (Z.ltb_lt bn 12)) by lia.
    rewrite addr_set_addr by (done || lia). rewrite (Z.eqb_sym k bn).
    destruct (Z.eqb_spec bn k) as [<-|]; [|done]. by rewrite (proj2 (Z.ltb_lt bn 12)).
  - replace ((bn =? k) && (k <? 12)) with false by lia.
    destruct (Z.eqb_spec k 12) as [->|Hne].
    + unfold fblk. rewrite NDIRECT_val, (proj2 (Z.ltb_ge bn 12)), ind_set_addr by (done || lia).
      rewrite Z.eqb_refl, (proj2 (Z.eqb_neq b 0)) by lia. rewrite alloc_view_eq, ld32_zero_block.
      unfold ind. by rewrite NDIRECT_val, H0.
    + rewrite <- (fblk_alloc c i b bn) by done. unfold fblk.
      rewrite NDIRECT_val, (proj2 (Z.ltb_ge bn 12)), ind_set_addr by (done || lia).
      by rewrite (proj2 (Z.eqb_neq k 12)).
Qed.

Lemma iwf_used_blocks c i c' i' :
  iwf c i ->
  i_dev i' = i_dev i -> i_inum i' = i_inum i -> length (i_addrs i') = 13%nat ->
  (forall n, is_data n -> used c n = true -> used c' n = true) ->
  (exists b bn0, is_data b /\ used c b = false /\ used c' b = true /\
     (forall bn, 0 <= bn < MAXFILE -> fblk c' i' bn = fblk c i bn \/ (bn = bn0 /\ fblk c' i' bn = b /\ ind i' <> b)) /\
     (ind i' = ind i \/ (ind i' = b /\ forall bn, 0 <= bn < MAXFILE -> fblk c' i' bn = fblk c i bn))) ->
  iwf c' i'.
Proof using G.
  intros W E1 E2 E3 Hu (b & bn0 & Hb & Hf & Hb' & Hblk & Hind).
  assert (Hold : forall bn, 0 <= bn < MAXFILE -> fblk c i bn <> b).
  { intros bn Hbn E. pose proof (is_data_range b Hb). destruct (w_blk _ _ W bn Hbn) as (_ & ? & _); [lia|].
    congruence. }
  assert (Hioldb : ind i <> b).
  { intros E. pose proof (is_data_range b Hb). destruct (w_ind _ _ W) as [_ ?]; [lia|]. congruence. }
  split; [by rewrite E1; apply W|by rewrite E2; apply W|done| | |].
  - intros bn Hbn Hnz. destruct (Hblk bn Hbn) as [E|(-> & E & Hne)].
    + rewrite E in *. destruct (w_blk _ _ W bn Hbn Hnz) as (D1 & D2 & D3).
      split; [done|]. split; [by apply Hu|].
      destruct Hind as [-> | [-> _]]; [done|]. by apply Hold.
    + rewrite E. done.
  - intros Hnz. destruct Hind as [E|[E _]]; rewrite E in *; [|done].
    destruct (w_ind _ _ W Hnz). split; [done|by apply Hu].
  - intros bn bn' Hbn Hbn' E Hnz.
    destruct (Hblk bn Hbn) as [X|(Y1 & Y2 & _)], (Hblk bn' Hbn') as [X'|(Z1 & Z2 & _)].
    + rewrite X in *. rewrite X' in *. by apply (w_inj _ _ W).
    + rewrite X, Z2 in E. by destruct (Hold bn).
    + rewrite X', Y2 in E. by destruct (Hold bn').
    + congruence.
Qed.

Lemma iwf_set_addr c i b k :
  cwf c -> iwf c i -> is_data b -> used c b = false -> 0 <= k <= 12 -> addr_of i k = 0 ->
  iwf (alloc_view b c) (set_addr k b i).
Proof using G.
  intros C W Hb Hu Hk H0. pose proof (w_len _ _ W) as Hl. pose proof (is_data_range b Hb).
  apply (iwf_used_blocks c i); [done|done|done| | |].
  - simpl. by rewrite length_insert.
  - intros n Hn Un. pose proof (is_data_range n Hn). rewrite used_alloc_view by (done || lia). by rewrite Un.
  - exists b, k. split; [done|]. split; [done|]. split.
    { rewrite used_alloc_view by (done || lia). rewrite Z.eqb_refl. apply orb_true_r. }
    assert (Hne : ind i <> b).
    { intros E. destruct (w_ind _ _ W) as [_ ?]; [lia|]. congruence. }
    split.
    + intros bn Hbn. rewrite set_addr_fblk by done.
      destruct (Z.eqb_spec bn k) as [->|]; [|by left]. destruct (Z.ltb_spec k 12); [|by left].
      right. split; [done|]. split; [done|]. rewrite ind_set_addr by done.
      by rewrite (proj2 (Z.eqb_neq k 12)) by lia.
    + rewrite ind_set_addr by done. destruct (Z.eqb_spec k 12) as [->|]; [|by left].
      right. split; [done|]. intros bn Hbn. rewrite set_addr_fblk by done. by rewrite andb_false_r.
Qed.

(** Entry [bn] of the indirect block set to the fresh block [b]. *)
Definition ind_view (i : inode) (bn b : Z) c : Z -> bdata :=
  upd (ind i) (st32 (Z.to_nat (4 * (bn - NDIRECT))) b (c (ind i))) (alloc_view b c).

Lemma ind_view_fblk c i b bn bn' :
  cwf c -> iwf c i -> is_data b -> used c b = false -> ind i <> 0 ->
  NDIRECT <= bn < MAXFILE -> 0 <= bn' < MAXFILE ->
  fblk (ind_view i bn b c) i bn' = if bn' =? bn then b else fblk c i bn'.
Proof using G.
  intros C W Hb Hu Hi Hbn Hbn'. pose proof (is_data_range b Hb). pose proof (g_size _ G).
  rewrite NDIRECT_val, MAXFILE_val in *. destruct (w_ind _ _ W Hi) as [Hid Hiu].
  assert (Hlen : length (c (ind i)) = 512%nat).
  { rewrite (cw_len _ C); [done|]. pose proof (is_data_range _ Hid). lia. }
  unfold fblk. rewrite NDIRECT_val. destruct (Z.ltb_spec bn' 12).
  { rewrite (proj2 (Z.eqb_neq bn' bn)) by lia. done. }
  rewrite (proj2 (Z.eqb_neq (ind i) 0)) by done. unfold ind_view. rewrite upd_eq, NDIRECT_val.
  destruct (Z.eqb_spec bn' bn) as [->|Hne].
  - rewrite ld32_st32_eq by (rewrite Hlen; lia). apply u32_small. lia.
  - rewrite ld32_st32_ne; [done|rewrite Hlen; lia|lia].
Qed.

Lemma used_ind_view c i b bn n :
  cwf c -> iwf c i -> is_data b -> ind i <> 0 -> 0 <= n < sb_size sb ->
  used (ind_view i bn b c) n = used c n || (b =? n).
Proof using G.
  intros C W Hb Hi Hn. destruct (w_ind _ _ W Hi) as [Hid _]. unfold ind_view.
  rewrite used_upd_data by done. by apply used_alloc_view.
Qed.

Lemma iwf_ind_view c i b bn :
  cwf c -> iwf c i -> is_data b -> used c b = false -> ind i <> 0 -> NDIRECT <= bn < MAXFILE ->
  iwf (ind_view i bn b c) i.
Proof using G.
  intros C W Hb Hu Hi Hbn. pose proof (is_data_range b Hb).
  apply (iwf_used_blocks c i); [done|done|done|apply W| |].
  - intros n Hn Un. pose proof (is_data_range n Hn). rewrite used_ind_view by (done || lia). by rewrite Un.
  - exists b, bn. split; [done|]. split; [done|]. split.
    { rewrite used_ind_view by (done || lia). rewrite Z.eqb_refl. apply orb_true_r. }
    split; [|by left]. intros bn' Hbn'. rewrite ind_view_fblk by done.
    destruct (Z.eqb_spec bn' bn) as [->|]; [|by left]. right. split; [done|]. split; [done|].
    intros E. destruct (w_ind _ _ W Hi) as [_ ?]. congruence.
Qed.

Lemma cwf_ind_view c i b bn :
  cwf c -> iwf c i -> is_data b -> ind i <> 0 -> cwf (ind_view i bn b c).
Proof using G.
  intros C W Hb Hi. destruct (w_ind _ _ W Hi) as [Hid _]. apply cwf_upd; [by apply cwf_alloc|done|].
  rewrite length_st32. apply C. pose proof (is_data_range _ Hid). lia.
Qed.

(** ** Free blocks and logged blocks *)

(** At least [r] blocks are free. *)
Definition has_free c (r : nat) : Prop :=
  exists X : gset Z, (r <= size X)%nat /\ forall b, b ∈ X -> 0 <= b < sb_size sb /\ used c b = false.

Lemma has_free_mono c r r' : has_free c r -> (r' <= r)%nat -> has_free c r'.
Proof. intros (X & HX & HF) Hr. exists X. split; [lia|done]. Qed.

Lemma has_free_take c c' r b :
  (forall n, 0 <= n < sb_size sb -> used c' n = used c n || (b =? n)) ->
  has_free c (S r) -> has_free c' r.
Proof.
  intros Hu (X & HX & HF). exists (X ∖ {[b]}). split.
  - rewrite size_difference_alt. pose proof (subseteq_size (X ∩ {[b]}) {[b]}) as Hs.
    rewrite size_singleton in Hs. specialize (Hs ltac:(set_solver)). lia.
  - intros n [Hn Hne]%elem_of_difference. destruct (HF n Hn) as [Hr Hun]. split; [done|].
    rewrite Hu, Hun by done. apply Z.eqb_neq. set_solver.
Qed.

Lemma has_free_some c r : has_free c (S r) -> exists b, 0 <= b < sb_size sb /\ used c b = false.
Proof.
  intros (X & HX & HF). destruct (decide (X = ∅)) as [->|Hne].
  - rewrite size_empty in HX. lia.
  - apply set_choose_L in Hne as [b Hb]. eauto.
Qed.

(** The blocks of the free map. *)
Definition map_blocks : gset Z :=
  list_to_set ((fun k => sb_bmapstart sb + Z.of_nat k) <$> seq 0 (Z.to_nat ((sb_size sb - 1) / BPB + 1))).

Lemma BBLOCK_map b : 0 <= b < sb_size sb -> BBLOCK b sb ∈ map_blocks.
Proof.
  intros Hb. apply elem_of_list_to_set, list_elem_of_fmap. exists (Z.to_nat (b / BPB)).
  unfold BBLOCK. split.
  - rewrite Z2Nat.id; [lia|]. rewrite BPB_val. zlia.
  - apply elem_of_seq. rewrite BPB_val. zlia.
Qed.

(** ** [bmap] *)

(** The indirect block, as the set of blocks it is. *)
Definition ind_set i : gset Z := if decide (ind i = 0) then ∅ else {[ind i]}.

Lemma ind_set_some i : ind i <> 0 -> ind_set i = {[ind i]}.
Proof. intros. unfold ind_set. by rewrite decide_False. Qed.

Lemma size_ind_set (X : gset Z) i : (size (X ∪ ind_set i) <= size X + 1)%nat.
Proof.
  unfold ind_set. destruct (decide _); [|apply size_add]. rewrite union_empty_r_L. lia.
Qed.

(** What [bmap] of block [bn] does to the contents, the inode and the log. *)
Record bmapped c i D (bn : Z) c' i' D' : Prop := Bmapped {
  m_blk : fblk c' i' bn <> 0;
  m_same : fblk c i bn <> 0 -> c' = c /\ i' = i /\ D' = D;
  m_zero : fblk c i bn = 0 -> c' (fblk c' i' bn) = zero_block;
  m_other bn' : 0 <= bn' < MAXFILE -> bn' <> bn -> fblk c' i' bn' = fblk c i bn';
  m_data n : is_data n -> used c n = true -> n <> ind i -> c' n = c n;
  m_low n : n < sb_bmapstart sb -> c' n = c n;
  m_used n : is_data n -> used c n = true -> used c' n = true;
  m_ind : ind i <> 0 -> ind i' = ind i;
  m_inode : i' = set_i_addrs (i_addrs i') i;
  m_log : D' ⊆ D ∪ map_blocks ∪ {[fblk c' i' bn]} ∪ ind_set i';
  m_free r : has_free c (S (S r)) -> has_free c' r }.

Lemma bmapped_id c i D bn : fblk c i bn <> 0 -> bmapped c i D bn c i D.
Proof.
  intros Hn. split; try done.
  - by destruct i.
  - set_solver.
  - intros r Hr. eapply has_free_mono; [done|]. lia.
Qed.

Lemma bmapped_direct c i D bn b :
  cwf c -> iwf c i -> is_data b -> used c b = false -> 0 <= bn < NDIRECT -> addr_of i bn = 0 ->
  bmapped c i D bn (alloc_view b c) (set_addr bn b i) (alloc_log b D).
Proof using G.
  intros C W Hb Hu Hbn H0. rewrite NDIRECT_val in Hbn. pose proof (is_data_range b Hb) as Hr.
  assert (E : forall bn', 0 <= bn' < MAXFILE ->
    fblk (alloc_view b c) (set_addr bn b i) bn' = if bn' =? bn then b else fblk c i bn').
  { intros bn' Hbn'. rewrite set_addr_fblk by (done || lia).
    rewrite (proj2 (Z.ltb_lt bn 12)), andb_true_r by lia. done. }
  pose proof (E bn ltac:(rewrite MAXFILE_val; lia)) as Eb. rewrite Z.eqb_refl in Eb.
  split; rewrite ?Eb.
  - lia.
  - unfold fblk. rewrite NDIRECT_val, (proj2 (Z.ltb_lt bn 12)) by lia. done.
  - intros _. apply alloc_view_eq.
  - intros bn' Hbn' Hne. rewrite E by done. by rewrite (proj2 (Z.eqb_neq bn' bn)).
  - intros n Hn Un _. apply alloc_view_data; [done|done|]. congruence.
  - intros n Hn. by apply alloc_view_low.
  - intros n Hn Un. pose proof (is_data_range n Hn). rewrite used_alloc_view by (done || lia). by rewrite Un.
  - intros _. rewrite ind_set_addr by (lia || apply W). by rewrite (proj2 (Z.eqb_neq bn 12)) by lia.
  - done.
  - unfold FsBlocks.alloc_log. pose proof (BBLOCK_map b ltac:(lia)). set_solver.
  - intros r Hf. apply (has_free_take c _ r b); [|eapply has_free_mono; [exact Hf|lia]].
    intros. by apply used_alloc_view.
Qed.

Lemma bmapped_indirect c i D bn b :
  cwf c -> iwf c i -> is_data b -> used c b = false -> ind i <> 0 ->
  NDIRECT <= bn < MAXFILE -> fblk c i bn = 0 ->
  bmapped c i D bn (ind_view i bn b c) i (alloc_log b D ∪ {[ind i]}).
Proof using G.
  intros C W Hb Hu Hi Hbn H0. pose proof (is_data_range b Hb) as Hr. destruct (w_ind _ _ W Hi) as [Hid Hiu].
  assert (Hbi : b <> ind i) by congruence.
  assert (Hbn' : 0 <= bn < MAXFILE) by (rewrite NDIRECT_val in Hbn; lia).
  pose proof (ind_view_fblk c i b bn bn C W Hb Hu Hi Hbn Hbn') as Eb.
  rewrite Z.eqb_refl in Eb. split; rewrite ?Eb.
  - lia.
  - done.
  - intros _. unfold ind_view. rewrite upd_ne by done. apply alloc_view_eq.
  - intros k Hk Hne. rewrite ind_view_fblk by done.
    by rewrite (proj2 (Z.eqb_neq k bn)).
  - intros n Hn Un Hne. unfold ind_view. rewrite upd_ne by done. apply alloc_view_data; [done|done|]. congruence.
  - intros n Hn. unfold ind_view. rewrite upd_ne; [by apply alloc_view_low|].
    intros ->. destruct Hid as [Hid _]. pose proof (BBLOCK_loggable sb b G ltac:(lia)). lia.
  - intros n Hn Un. pose proof (is_data_range n Hn). rewrite used_ind_view by (done || lia). by rewrite Un.
  - done.
  - by destruct i.
  - unfold FsBlocks.alloc_log. pose proof (BBLOCK_map b ltac:(lia)). rewrite ind_set_some by done. set_solver.
  - intros r Hf. apply (has_free_take c _ r b); [|eapply has_free_mono; [exact Hf|lia]].
    intros. by apply used_ind_view.
Qed.

(** A new indirect block and then an entry of it. *)
Lemma bmapped_both c i D bn q b c1 :
  cwf c -> iwf c i -> is_data q -> used c q = false -> ind i = 0 ->
  NDIRECT <= bn < MAXFILE -> c1 = alloc_view q c -> is_data b -> used c1 b = false ->
  bmapped c i D bn (ind_view (set_addr NDIRECT q i) bn b c1) (set_addr NDIRECT q i)
    (alloc_log b (alloc_log q D) ∪ {[q]}).
Proof using G.
  intros C W Hq Hqu Hi Hbn -> Hb Hu. pose proof (is_data_range b Hb) as Hr. pose proof (is_data_range q Hq) as Hrq.
  rewrite NDIRECT_val in *. assert (Hl : length (i_addrs i) = 13%nat) by apply W.
  assert (W1 : iwf (alloc_view q c) (set_addr 12 q i)) by by apply iwf_set_addr.
  assert (I1 : ind (set_addr 12 q i) = q) by by rewrite ind_set_addr.
  assert (E0 : fblk c i bn = 0).
  { unfold fblk. by rewrite NDIRECT_val, (proj2 (Z.ltb_ge bn 12)), Hi by lia. }
  assert (E1 : forall bn', 0 <= bn' < MAXFILE -> fblk (alloc_view q c) (set_addr 12 q i) bn' = fblk c i bn').
  { intros bn' Hbn'. rewrite set_addr_fblk by done. by rewrite andb_false_r. }
  destruct (bmapped_indirect _ _ (alloc_log q D) bn b (cwf_alloc _ _ C Hq) W1 Hb Hu) as
    [M1 M2 M3 M4 M5 M6 M7 M8 M9 M10 M11]; [lia|rewrite NDIRECT_val; lia|by rewrite E1 by lia|].
  rewrite I1 in *.
  split.
  - done.
  - done.
  - intros _. apply M3. by rewrite E1 by lia.
  - intros bn' Hbn' Hne. rewrite M4 by done. by apply E1.
  - intros n Hn Un _. pose proof (is_data_range n Hn). assert (n <> q) by congruence.
    rewrite M5; [by apply alloc_view_data|done| |done].
    rewrite used_alloc_view by (done || lia). by rewrite Un.
  - intros n Hn. rewrite M6 by done. by apply alloc_view_low.
  - intros n Hn Un. pose proof (is_data_range n Hn). apply M7; [done|].
    rewrite used_alloc_view by (done || lia). by rewrite Un.
  - done.
  - done.
  - etrans; [exact M10|]. unfold FsBlocks.alloc_log. pose proof (BBLOCK_map q ltac:(lia)).
    rewrite ind_set_some by lia. rewrite I1. set_solver.
  - intros r Hf. eapply (has_free_take (alloc_view q c) _ r b).
    { intros. apply used_ind_view; try done; [by apply cwf_alloc|lia]. }
    eapply (has_free_take c _ (S r) q); [|done]. intros. by apply used_alloc_view.
Qed.

Lemma bmap_entry_ok ic c D s i bn :
  Tx ic c ∅ D s -> cwf c -> iwf c i -> ind i <> 0 -> NDIRECT <= bn < MAXFILE ->
  (size D <= 26)%nat -> (fblk c i bn <> 0 \/ has_free c 1) ->
  returns (bmap_entry pid 1 (ind i) (bn - NDIRECT)) s (fun a s' =>
    (fblk c i bn <> 0 /\ a = fblk c i bn /\ Tx ic c ∅ D s') \/
    (fblk c i bn = 0 /\ is_data a /\ used c a = false /\
     Tx ic (ind_view i bn a c) ∅ (alloc_log a D ∪ {[ind i]}) s')).
Proof using G.
  intros T C W Hi Hbn Hr Hf. destruct (w_ind _ _ W Hi) as [Hid Hiu]. pose proof (is_data_range _ Hid) as Hri.
  assert (Eb : fblk c i bn = ld32 (c (ind i)) (Z.to_nat (4 * (bn - NDIRECT)))).
  { unfold fblk. rewrite (proj2 (Z.ltb_ge bn NDIRECT)), (proj2 (Z.eqb_neq (ind i) 0)) by (done || lia). done. }
  unfold bmap_entry. rstep Tx_bread; [done|lia|by intros|rewrite map_size_empty; unfold NBUF; lia|].
  intros bp s1 [_ T1]. eapply returns_Done; [eapply Tx_data; [done|apply lookup_insert_eq]|].
  cbv zeta. rewrite <- Eb. destruct (Z.eqb_spec (fblk c i bn) 0) as [E0|E0].
  - destruct Hf as [?|Hf]; [done|]. rewrite insert_empty in T1.
    rstep balloc_ok; [done|done| |apply C| |lia|by eapply has_free_some|].
    { intros k n x [<- [= <- <-]]%lookup_singleton_Some. done. }
    { rewrite map_size_singleton. unfold NBUF. lia. }
    intros a s2 (Ha & Hau & _ & T2). pose proof (is_data_range _ Ha).
    rstep Tx_edit; [done|apply lookup_singleton_eq|rewrite length_st32; apply C; lia|].
    intros _ s3 T3. rewrite insert_singleton_eq in T3.
    rstep Tx_log_write; [done|done|apply lookup_singleton_eq|by apply data_loggable| |].
    { unfold FsBlocks.alloc_log. pose proof (size_add (BBLOCK a sb) D).
      pose proof (size_add a (D ∪ {[BBLOCK a sb]})). lia. }
    intros _ s4 T4. rstep Tx_brelse; [done|rewrite lookup_singleton_eq; by rewrite upd_eq|].
    intros _ s5 T5. rewrite delete_singleton_eq in T5. apply returns_ret. by right.
  - rstep Tx_brelse; [done|apply lookup_insert_eq|]. intros _ s2 T2.
    rewrite delete_insert_id in T2 by done. apply returns_ret. by left.
Qed.

Lemma alter_insert {A} (l : list A) ip (x : A) f : l !! ip = Some x -> alter f ip l = <[ip := f x]> l.
Proof.
  intros Hi. apply list_eq. intros k. destruct (decide (ip = k)) as [<-|Hne].
  - rewrite list_lookup_alter_eq, list_lookup_insert_eq, Hi by (by eapply lookup_lt_Some). done.
  - by rewrite list_lookup_alter_ne, list_lookup_insert_ne.
Qed.

(** What [bmap] of block [bn] promises about its result. *)
Definition bmap_post ic c D (ip : nat) i (bn a : Z) (s' : fsst) : Prop :=
  exists c' i' D', a = fblk c' i' bn /\ Tx (<[ip := i']> ic) c' ∅ D' s' /\ cwf c' /\ iwf c' i' /\
    bmapped c i D bn c' i' D'.

Lemma bmap_post_id ic c D ip i bn s' :
  ic !! ip = Some i -> cwf c -> iwf c i -> Tx ic c ∅ D s' -> fblk c i bn <> 0 ->
  bmap_post ic c D ip i bn (fblk c i bn) s'.
Proof.
  intros Hip C W T' Hn. exists c, i, D. rewrite list_insert_id by done.
  do 4 (split; [done|]). by apply bmapped_id.
Qed.

Lemma balloc_none ic c D s :
  Tx ic c ∅ D s -> cwf c -> (size D <= 24)%nat -> has_free c 1 ->
  returns (balloc pid 1) s (fun b s' => is_data b /\ used c b = false /\
    (forall b', 0 <= b' < b -> used c b' = true) /\ Tx ic (alloc_view b c) ∅ (alloc_log b D) s').
Proof using G.
  intros T C HD Hf. apply balloc_ok; [done|done|by intros k n x|apply C| |lia|by eapply has_free_some].
  rewrite map_size_empty. unfold NBUF. lia.
Qed.

(** The indirect block is missing. *)
Lemma bmap_new_ind ic c D s ip i bn :
  Tx ic c ∅ D s -> ic !! ip = Some i -> cwf c -> iwf c i -> ind i = 0 -> NDIRECT <= bn < MAXFILE ->
  (size D <= 24)%nat -> has_free c 2 ->
  returns (let! addr := balloc pid 1 in
           modify (updi ip (set_addr NDIRECT addr)) ;;;
           bmap_entry pid 1 addr (bn - NDIRECT)) s (bmap_post ic c D ip i bn).
Proof using G.
  intros T Hip C W Ei Hbn HD Hf.
  rstep balloc_none; [done|done|done|by eapply has_free_mono; [exact Hf|lia]|].
  intros q s1 (Hq & Hqu & _ & T1). pose proof (is_data_range q Hq). apply returns_modify.
  assert (Iq : ind (set_addr NDIRECT q i) = q) by (rewrite ind_set_addr; [done|apply W|done]).
  assert (Ci : cwf (alloc_view q c)) by by apply cwf_alloc.
  assert (Wi : iwf (alloc_view q c) (set_addr NDIRECT q i)) by by apply iwf_set_addr.
  assert (Hf1 : has_free (alloc_view q c) 1).
  { apply (has_free_take c _ 1 q); [|done]. intros. by apply used_alloc_view. }
  pose proof (bmap_entry_ok (<[ip := set_addr NDIRECT q i]> ic) (alloc_view q c) (alloc_log q D)
    (updi ip (set_addr NDIRECT q) s1) (set_addr NDIRECT q i) bn) as He. rewrite Iq in He.
  rewrite NDIRECT_val in Hbn.
  rlast He; [|done|done|lia|rewrite NDIRECT_val; lia| |by right|].
  - rewrite <- alter_insert by done. by apply Tx_updi.
  - unfold FsBlocks.alloc_log. pose proof (size_add (BBLOCK q sb) D).
    pose proof (size_add q (D ∪ {[BBLOCK q sb]})). lia.
  - intros a s2 [(Hne & _)|(_ & Ha & Hau & T2)].
    { rewrite set_addr_fblk in Hne by (done || lia). rewrite andb_false_r in Hne. destruct Hne.
      unfold fblk. by rewrite NDIRECT_val, (proj2 (Z.ltb_ge bn 12)), Ei by lia. }
    eexists _, _, _. split; [|split; [exact T2|split; [|split]]].
    + rewrite ind_view_fblk by (done || lia || rewrite NDIRECT_val; lia). by rewrite Z.eqb_refl.
    + apply cwf_ind_view; (done || lia).
    + apply iwf_ind_view; (done || lia || rewrite NDIRECT_val; lia).
    + apply (bmapped_both c i D bn q a (alloc_view q c)); (done || lia || rewrite NDIRECT_val; lia).
Qed.

(** [bmap] returns the address of block [bn], after allocating it if there was none. *)
Lemma bmap_ok ic c D s ip i bn :
  Tx ic c ∅ D s -> ic !! ip = Some i -> cwf c -> iwf c i -> 0 <= bn < MAXFILE ->
  (size D <= 24)%nat -> (fblk c i bn <> 0 \/ has_free c 2) ->
  returns (bmap pid ip bn) s (bmap_post ic c D ip i bn).
Proof using G.
  intros T Hip C W Hbn HD Hf.
  unfold bmap. apply returns_get. rewrite (Tx_geti _ _ _ _ _ _ _ _ _ T), Hip. simpl default.
  cbv zeta. rewrite (w_dev _ _ W). destruct (Z.ltb_spec bn NDIRECT) as [Hd|Hd].
  - assert (Ed : fblk c i bn = addr_of i bn).
    { unfold fblk. by rewrite (proj2 (Z.ltb_lt bn NDIRECT)). }
    destruct (Z.eqb_spec (addr_of i bn) 0) as [E0|E0].
    + destruct Hf as [?|Hf]; [congruence|]. rewrite NDIRECT_val in Hd.
      rstep balloc_none; [done|done|done|by eapply has_free_mono; [exact Hf|lia]|].
      intros b s1 (Hb & Hu & _ & T1). apply returns_modify, returns_ret.
      exists (alloc_view b c), (set_addr bn b i), (alloc_log b D).
      split; [|split; [|split; [by apply cwf_alloc|split]]].
      * rewrite set_addr_fblk by (done || lia). by rewrite Z.eqb_refl, (proj2 (Z.ltb_lt bn 12)).
      * rewrite <- alter_insert by done. by apply Tx_updi.
      * apply iwf_set_addr; (done || lia).
      * apply bmapped_direct; try done. rewrite NDIRECT_val. lia.
    + apply returns_ret. rewrite <- Ed in *. by apply bmap_post_id.
  - rewrite (proj2 (Z.ltb_lt (bn - NDIRECT) NINDIRECT))
      by (rewrite NDIRECT_val, NINDIRECT_val in *; rewrite MAXFILE_val in Hbn; lia).
    fold (ind i). destruct (Z.eqb_spec (ind i) 0) as [Ei|Ei].
    + destruct Hf as [Hf|Hf]; [|apply bmap_new_ind; (done || lia)].
      destruct Hf. unfold fblk. by rewrite (proj2 (Z.ltb_ge bn NDIRECT)), Ei by lia.
    + assert (Hf1 : fblk c i bn <> 0 \/ has_free c 1).
      { destruct Hf as [?|Hf]; [by left|]. right. eapply has_free_mono; [exact Hf|lia]. }
      rlast (bmap_entry_ok ic c D s i bn); [done|done|done|done|lia|lia|done|].
      intros a s2 [(Hne & -> & T2)|(H0 & Ha & Hau & T2)]; [by apply bmap_post_id|].
      exists (ind_view i bn a c), i, (alloc_log a D ∪ {[ind i]}). rewrite list_insert_id by done.
      split; [rewrite ind_view_fblk by (done || lia); by rewrite Z.eqb_refl|]. split; [done|].
      split; [by apply cwf_ind_view|]. split; [apply iwf_ind_view; (done || lia)|].
      apply bmapped_indirect; (done || lia).
Qed.
End File.
