(* ===== verification/FsRw.v ===== *)
(** * Reading and writing files: [readi], [writei], [iupdate]

    The bytes of a file, what reading returns and what writing changes; and the agreement
    of an inode with its copy on disk. *)

From stdpp Require Import base tactics numbers list sets gmap strings.
From Stdlib Require Import ZArith Lia ZifyNat.
From S2P Require Import Prelude Layout Sleeplock Bio BioSpec Log LogSpec LogCrash LogOps Fs FsTx FsBlocks FsFile.

#[local] Arguments Z.testbit : simpl never.

(** Byte [o] of a file, and [n] bytes from [off] on. *)
Definition fbyte (c : Z -> bdata) (i : inode) (o : Z) : Z :=
  byte_at (c (fblk c i (o / BSIZE))) (Z.to_nat (o mod BSIZE)).
Definition fbytes (c : Z -> bdata) (i : inode) (off : Z) (n : nat) : list Z :=
  (fun k => fbyte c i (off + Z.of_nat k)) <$> seq 0 n.

Lemma length_fbytes c i off n : length (fbytes c i off n) = n.
Proof. unfold fbytes. by rewrite length_fmap, length_seq. Qed.

Lemma lookup_fbytes c i off n k :
  (k < n)%nat -> fbytes c i off n !! k = Some (fbyte c i (off + Z.of_nat k)).
Proof. intros. unfold fbytes. rewrite list_lookup_fmap, lookup_seq_lt by done. done. Qed.

Lemma fbytes_app c i off m n :
  fbytes c i off (m + n) = fbytes c i off m ++ fbytes c i (off + Z.of_nat m) n.
Proof.
  unfold fbytes. rewrite seq_app, fmap_app. f_equal. rewrite <- (Nat.add_0_r m) at 1.
  simpl. rewrite <- fmap_add_seq, <- list_fmap_compose. apply list_fmap_ext. intros. simpl. f_equal. lia.
Qed.

Lemma BSIZE_val : BSIZE = 512.
Proof. done. Qed.

(** The part of one block. *)
Lemma fbytes_block c i off m :
  0 <= off -> 0 <= m <= BSIZE - off mod BSIZE ->
  length (c (fblk c i (off / BSIZE))) = Z.to_nat BSIZE ->
  take (Z.to_nat m) (drop (Z.to_nat (off mod BSIZE)) (c (fblk c i (off / BSIZE))))
    = fbytes c i off (Z.to_nat m).
Proof.
  intros Ho Hm Hl. set (x := c (fblk c i (off / BSIZE))) in *. rewrite BSIZE_val in *.
  apply list_eq. intros k. destruct (decide (k < Z.to_nat m)%nat) as [Hk|Hk].
  - rewrite lookup_take_lt, lookup_drop, lookup_fbytes by done.
    unfold fbyte, byte_at. rewrite BSIZE_val.
    replace ((off + Z.of_nat k) / 512) with (off / 512) by zlia.
    change (c (fblk c i (off / 512))) with x.
    replace (Z.to_nat ((off + Z.of_nat k) mod 512)) with (Z.to_nat (off mod 512) + k)%nat by zlia.
    destruct (lookup_lt_is_Some_2 x (Z.to_nat (off mod 512) + k)) as [v Hv]; [rewrite Hl; zlia|].
    by rewrite Hv.
  - rewrite lookup_take_ge by lia. symmetry. apply lookup_ge_None_2. rewrite length_fbytes. lia.
Qed.

Lemma length_put_bytes o l x : length (put_bytes o l x) = length x.
Proof. revert o x. induction l as [|v l IH]; intros o x; simpl; [done|]. by rewrite IH, length_insert. Qed.

Lemma byte_at_put_bytes o l x p :
  (o + length l <= length x)%nat ->
  byte_at (put_bytes o l x) p =
    if decide (o <= p < o + length l)%nat then default 0 (l !! (p - o)%nat) else byte_at x p.
Proof.
  revert o x. induction l as [|v l IH]; intros o x Hl; simpl in *.
  - destruct (decide _); [lia|done].
  - rewrite IH by (rewrite length_insert; lia). destruct (decide (S o <= p < S o + length l)%nat).
    + rewrite decide_True by lia. by replace (p - o)%nat with (S (p - S o)) by lia.
    + rewrite byte_at_insert by lia. destruct (decide (o = p)) as [<-|].
      * rewrite decide_True by lia. by rewrite Nat.sub_diag.
      * rewrite decide_False by lia. done.
Qed.

Section Rw.
Variable pid : Z.
Variable out : Z.
Variable sb : superblock.
Hypothesis G : geom sb.
Context {devsw : DevSw}.
Implicit Types (ic : list inode) (c : Z -> bdata) (H : gmap nat (Z * bdata)) (D : gset Z) (i : inode).

Abbreviation Tx := (Tx pid out sb).
Abbreviation used := (used sb).
Abbreviation is_data := (is_data sb).
Abbreviation iwf := (iwf sb).
Abbreviation cwf := (cwf sb).
Abbreviation has_free := (has_free sb).
Abbreviation map_blocks := (map_blocks sb).

(** Every block below the size of the file exists. *)
Definition nohole c i : Prop :=
  0 <= i_size i <= MAXFILE * BSIZE /\
  forall bn, 0 <= bn -> bn * BSIZE < i_size i -> fblk c i bn <> 0.

Lemma fblk_length c i bn :
  cwf c -> iwf c i -> 0 <= bn < MAXFILE -> fblk c i bn <> 0 ->
  length (c (fblk c i bn)) = Z.to_nat BSIZE.
Proof using G.
  intros C W Hbn Hn. destruct (w_blk _ _ _ W bn Hbn Hn) as (Hd & _).
  apply C. pose proof (is_data_range sb G _ Hd). lia.
Qed.

(** ** [readi] *)

Lemma readi_loop_ok ic c D ip i fuel : forall s off n,
  Tx ic c ∅ D s -> ic !! ip = Some i -> cwf c -> iwf c i -> nohole c i -> (size D <= 24)%nat ->
  0 <= off -> 0 <= n <= Z.of_nat fuel -> off + n <= i_size i ->
  returns (readi_loop pid fuel ip off n) s
    (fun l s' => l = fbytes c i off (Z.to_nat n) /\ Tx ic c ∅ D s').
Proof using G.
  induction fuel as [|fuel IH]; intros s off n T Hip C W N HD Ho Hn Hs; simpl.
  { replace n with 0 by lia. apply returns_ret. done. }
  destruct (Z.leb_spec n 0).
  { replace n with 0 by lia. apply returns_ret. done. }
  destruct N as [N1 N2]. rewrite MAXFILE_val, BSIZE_val in N1.
  set (bn := off / BSIZE). assert (Hbn : 0 <= bn < MAXFILE) by (unfold bn; rewrite BSIZE_val, MAXFILE_val; zlia).
  assert (Hnz : fblk c i bn <> 0) by (apply N2; unfold bn; rewrite ?BSIZE_val; zlia).
  destruct (w_blk _ _ _ W bn Hbn Hnz) as (Hd & _). pose proof (is_data_range sb G _ Hd) as Hr.
  rstep bmap_ok; [done|done|done|done|done|done|lia|by left|].
  intros a s1 (c' & i' & D' & -> & T1 & _ & _ & Hm).
  destruct (m_same _ _ _ _ _ _ _ _ Hm Hnz) as (-> & -> & ->). rewrite list_insert_id in T1 by done.
  apply returns_gets. rewrite (Tx_geti _ _ _ _ _ _ _ _ _ T1), Hip. simpl default. rewrite (w_dev _ _ _ W).
  rstep Tx_bread; [done|lia|by intros|rewrite map_size_empty; unfold NBUF; lia|].
  intros bp s2 [_ T2]. eapply returns_Done; [eapply Tx_data; [done|apply lookup_insert_eq]|].
  rstep Tx_brelse; [done|apply lookup_insert_eq|]. intros _ s3 T3. rewrite delete_insert_id in T3 by done.
  set (m := Z.min n (BSIZE - off mod BSIZE)). assert (Hm1 : 1 <= m <= n) by (unfold m; rewrite BSIZE_val; zlia).
  rstep IH; [done|done|done|done|by split; [rewrite MAXFILE_val, BSIZE_val|]|done|lia|lia|lia|].
  intros l s4 [-> T4]. apply returns_ret. split; [|done].
  rewrite fbytes_block by (done || lia || by apply fblk_length).
  replace (Z.to_nat n) with (Z.to_nat m + Z.to_nat (n - m))%nat by lia.
  rewrite fbytes_app. do 2 f_equal. lia.
Qed.

Lemma readi_ok ic c D ip i s off n :
  Tx ic c ∅ D s -> ic !! ip = Some i -> cwf c -> iwf c i -> nohole c i -> (size D <= 24)%nat ->
  i_type i <> T_DEV -> 0 <= off <= i_size i -> 0 <= n < 4294967296 - off ->
  let n' := Z.min n (i_size i - off) in
  returns (readi pid ip off n) s
    (fun r s' => r = (n', fbytes c i off (Z.to_nat n')) /\ Tx ic c ∅ D s').
Proof using G.
  intros T Hip C W N HD Ht Ho Hn n'. unfold readi. apply returns_gets.
  rewrite (Tx_geti _ _ _ _ _ _ _ _ _ T), Hip. simpl default.
  rewrite (proj2 (Z.eqb_neq _ _) Ht), (proj2 (Z.ltb_ge (i_size i) off)) by lia.
  rewrite u32_small, (proj2 (Z.ltb_ge (off + n) off)) by lia. simpl orb. cbv zeta.
  replace (if i_size i <? off + n then i_size i - off else n) with n'
    by (unfold n'; destruct (Z.ltb_spec (i_size i) (off + n)); lia).
  pose proof N as [N1 _]. rewrite MAXFILE_val, BSIZE_val in N1.
  rstep readi_loop_ok; [done|done|done|done|done|done|lia|lia|lia|].
  intros l s' [-> T']. apply returns_ret. by rewrite s32_small by lia.
Qed.

(** ** [writei] *)

Lemma iwf_ext c c' i :
  iwf c i -> (forall bn, 0 <= bn < MAXFILE -> fblk c' i bn = fblk c i bn) ->
  (forall n, is_data n -> used c n = true -> used c' n = true) -> iwf c' i.
Proof using.
  intros W E Hu. split; [apply W|apply W|apply W| | |].
  - intros bn Hbn. rewrite E by done. intros Hn. destruct (w_blk _ _ _ W bn Hbn Hn) as (? & ? & ?). auto.
  - intros Hn. destruct (w_ind _ _ _ W Hn) as [? ?]. auto.
  - intros bn bn' Hbn Hbn'. rewrite !E by done. by apply (w_inj _ _ _ W).
Qed.

(** The bytes [l] put at offset [p] of block [bn] of the file. *)
Lemma write_block c i bn p l :
  cwf c -> iwf c i -> 0 <= bn < MAXFILE -> fblk c i bn <> 0 -> (p + length l <= Z.to_nat BSIZE)%nat ->
  let c' := upd (fblk c i bn) (put_bytes p l (c (fblk c i bn))) c in
  cwf c' /\ iwf c' i /\ (forall bn', fblk c' i bn' = fblk c i bn') /\
  (forall n, 0 <= n < sb_size sb -> used c' n = used c n) /\
  forall o, 0 <= o < MAXFILE * BSIZE -> fbyte c' i o =
    if decide (bn * BSIZE + Z.of_nat p <= o < bn * BSIZE + Z.of_nat p + Z.of_nat (length l))
    then default 0 (l !! Z.to_nat (o - (bn * BSIZE + Z.of_nat p))) else fbyte c i o.
Proof using G.
  intros C W Hbn Hn Hl c'. destruct (w_blk _ _ _ W bn Hbn Hn) as (Hd & Hu & Hni).
  pose proof (fblk_length c i bn C W Hbn Hn) as Hlen.
  assert (E : forall bn', fblk c' i bn' = fblk c i bn').
  { intros bn'. apply fblk_ext. intros _. unfold c'. by rewrite upd_ne. }
  assert (U : forall n, 0 <= n < sb_size sb -> used c' n = used c n).
  { intros n Hr. unfold c'. by apply used_upd_data. }
  split; [by apply cwf_upd; [..|rewrite length_put_bytes]|].
  split; [eapply iwf_ext; [done|by intros|]; intros n Hdn; rewrite U;
    [done|pose proof (is_data_range sb G _ Hdn); lia]|].
  do 2 (split; [done|]). intros o Ho. unfold fbyte. rewrite E. rewrite BSIZE_val, MAXFILE_val in *.
  destruct (decide (o / 512 = bn)) as [<-|Hne].
  - unfold c'. rewrite upd_eq, byte_at_put_bytes by lia.
    destruct (decide (p <= _ < _)%nat); destruct (decide (o / 512 * 512 + _ <= o < _)); try (exfalso; zlia).
    + do 2 f_equal. zlia.
    + done.
  - rewrite decide_False by zlia. unfold c'. rewrite upd_ne; [done|]. intros Eo.
    apply Hne. apply (w_inj _ _ _ W); [rewrite MAXFILE_val; zlia|by rewrite MAXFILE_val|done|congruence].
Qed.

(** The number of blocks [n] bytes from [off] on lie in. *)
Definition nblk (off n : Z) : nat :=
  if n =? 0 then 0%nat else Z.to_nat ((off + n - 1) / BSIZE - off / BSIZE + 1).

Lemma nblk_step off n m :
  0 <= off -> 0 < n -> m = Z.min n (BSIZE - off mod BSIZE) ->
  nblk off n = S (nblk (off + m) (n - m)).
Proof.
  intros Ho Hn ->. unfold nblk. rewrite BSIZE_val, (proj2 (Z.eqb_neq n 0)) by lia.
  destruct (Z.eqb_spec (n - Z.min n (512 - off mod 512)) 0); zlia.
Qed.

(** The file after the bytes [src] have been written at [off]. *)
Record wrote c i (off : Z) (src : list Z) c' i' : Prop := Wrote {
  wr_new o : off <= o < off + Z.of_nat (length src) -> fbyte c' i' o = default 0 (src !! Z.to_nat (o - off));
  wr_old o : 0 <= o < MAXFILE * BSIZE -> ~ (off <= o < off + Z.of_nat (length src)) ->
    fblk c i (o / BSIZE) <> 0 -> fbyte c' i' o = fbyte c i o;
  wr_keep bn : 0 <= bn < MAXFILE -> fblk c i bn <> 0 -> fblk c' i' bn = fblk c i bn;
  wr_blk o : off <= o < off + Z.of_nat (length src) -> fblk c' i' (o / BSIZE) <> 0;
  wr_low n : n < sb_bmapstart sb -> c' n = c n;
  wr_ind : ind i <> 0 -> ind i' = ind i;
  wr_inode : i' = set_i_addrs (i_addrs i') i;
  wr_same : (forall o, off <= o < off + Z.of_nat (length src) -> fblk c i (o / BSIZE) <> 0) -> i' = i }.

Lemma wrote_nil c i off : wrote c i off [] c i.
Proof using. split; simpl; try done; try (intros; lia). by destruct i. Qed.

Lemma wrote_app c i off l1 l2 c1 i1 c2 i2 :
  0 <= off -> off + Z.of_nat (length l1 + length l2) <= MAXFILE * BSIZE ->
  wrote c i off l1 c1 i1 -> wrote c1 i1 (off + Z.of_nat (length l1)) l2 c2 i2 ->
  wrote c i off (l1 ++ l2) c2 i2.
Proof using.
  intros Ho HM W1 W2. rewrite BSIZE_val, MAXFILE_val in *.
  assert (Hb : forall o, 0 <= o < 140 * 512 -> 0 <= o / 512 < 140) by (intros; zlia).
  split; rewrite ?length_app, ?BSIZE_val, ?MAXFILE_val.
  - intros o Hr. destruct (decide (o < off + Z.of_nat (length l1))).
    + rewrite (wr_old _ _ _ _ _ _ W2), (wr_new _ _ _ _ _ _ W1), lookup_app_l; try done;
        rewrite ?BSIZE_val, ?MAXFILE_val; try lia.
      rewrite <- BSIZE_val. apply (wr_blk _ _ _ _ _ _ W1). lia.
    + rewrite (wr_new _ _ _ _ _ _ W2), lookup_app_r by lia. do 2 f_equal. lia.
  - intros o Hr Hn Hz. rewrite (wr_old _ _ _ _ _ _ W2); rewrite ?BSIZE_val, ?MAXFILE_val; try lia.
    + apply (wr_old _ _ _ _ _ _ W1); rewrite ?BSIZE_val, ?MAXFILE_val; (done || lia).
    + rewrite (wr_keep _ _ _ _ _ _ W1); rewrite ?MAXFILE_val; [done|by apply Hb|done].
  - intros bn Hbn Hz. rewrite (wr_keep _ _ _ _ _ _ W2); rewrite ?(wr_keep _ _ _ _ _ _ W1);
      rewrite ?MAXFILE_val; done.
  - intros o Hr. destruct (decide (o < off + Z.of_nat (length l1))).
    + pose proof (wr_blk _ _ _ _ _ _ W1 o ltac:(lia)) as Hz. rewrite BSIZE_val in Hz.
      rewrite (wr_keep _ _ _ _ _ _ W2); rewrite ?MAXFILE_val; [done|apply Hb; lia|done].
    + rewrite <- BSIZE_val. apply (wr_blk _ _ _ _ _ _ W2). lia.
  - intros n Hn. rewrite (wr_low _ _ _ _ _ _ W2) by done. by apply (wr_low _ _ _ _ _ _ W1).
  - intros Hn. rewrite (wr_ind _ _ _ _ _ _ W2); rewrite (wr_ind _ _ _ _ _ _ W1); done.
  - rewrite (wr_inode _ _ _ _ _ _ W2), (wr_inode _ _ _ _ _ _ W1) at 1. done.
  - intros Hall. assert (Ei : i1 = i).
    { apply (wr_same _ _ _ _ _ _ W1). intros o Hr. rewrite BSIZE_val. apply Hall. lia. }
    rewrite <- Ei. apply (wr_same _ _ _ _ _ _ W2). intros o Hr. rewrite BSIZE_val.
    specialize (Hall o ltac:(lia)). subst i1. rewrite (wr_keep _ _ _ _ _ _ W1); [done| |done].
    rewrite MAXFILE_val. apply Hb. lia.
Qed.

(** [bmap] followed by a write into the block. *)
Lemma bmapped_keep c i D bn c1 i1 D1 bn' :
  bmapped sb c i D bn c1 i1 D1 -> 0 <= bn' < MAXFILE -> fblk c i bn' <> 0 ->
  fblk c1 i1 bn' = fblk c i bn'.
Proof using.
  intros B Hbn Hn. destruct (decide (bn' = bn)) as [->|Hne].
  - by destruct (m_same _ _ _ _ _ _ _ _ B Hn) as (-> & -> & _).
  - by apply (m_other _ _ _ _ _ _ _ _ B).
Qed.

Lemma wrote_turn c i D c1 i1 D1 off l :
  let bn := off / BSIZE in
  bmapped sb c i D bn c1 i1 D1 -> iwf c i -> cwf c1 -> iwf c1 i1 ->
  0 <= off -> off + Z.of_nat (length l) <= MAXFILE * BSIZE -> 0 < Z.of_nat (length l) ->
  off mod BSIZE + Z.of_nat (length l) <= BSIZE ->
  wrote c i off l (upd (fblk c1 i1 bn) (put_bytes (Z.to_nat (off mod BSIZE)) l (c1 (fblk c1 i1 bn))) c1) i1.
Proof using G.
  intros bn B W C1 W1 Ho HM Hl Hm. set (p := Z.to_nat (off mod BSIZE)).
  assert (Hbn : 0 <= bn < MAXFILE) by (unfold bn; rewrite BSIZE_val, MAXFILE_val in *; zlia).
  assert (Eo : bn * BSIZE + Z.of_nat p = off) by (unfold bn, p; rewrite BSIZE_val; zlia).
  destruct (write_block c1 i1 bn p l C1 W1 Hbn (m_blk _ _ _ _ _ _ _ _ B)) as (_ & _ & Ef & _ & Eb).
  { unfold p. rewrite BSIZE_val in *. zlia. }
  rewrite Eo in Eb. split; rewrite ?Ef.
  - intros o Hr. rewrite Eb, decide_True by lia. done.
  - intros o Hr Hn Hz. rewrite Eb, decide_False by lia.
    assert (Hbo : 0 <= o / BSIZE < MAXFILE) by (rewrite BSIZE_val, MAXFILE_val in *; zlia).
    destruct (w_blk _ _ _ W _ Hbo Hz) as (? & ? & ?).
    unfold fbyte. rewrite (bmapped_keep _ _ _ _ _ _ _ _ B) by done.
    by rewrite (m_data _ _ _ _ _ _ _ _ B).
  - intros bn' Hbn' Hz. rewrite Ef. by apply (bmapped_keep _ _ _ _ _ _ _ _ B).
  - intros o Hr. rewrite Ef. replace (o / BSIZE) with bn; [apply B|].
    unfold bn. rewrite BSIZE_val in *. zlia.
  - intros n Hn. rewrite upd_ne; [by apply (m_low _ _ _ _ _ _ _ _ B)|].
    destruct (w_blk _ _ _ W1 bn Hbn (m_blk _ _ _ _ _ _ _ _ B)) as ([? ?] & _).
    pose proof (g_data _ G) as Hg. pose proof (g_size _ G).
    assert (0 <= (sb_size sb - 1) / BPB) by (apply Z.div_pos; [lia|by vm_compute]). lia.
  - apply B.
  - apply B.
  - intros Hall. specialize (Hall off ltac:(lia)).
    by destruct (m_same _ _ _ _ _ _ _ _ B Hall) as (_ & -> & _).
Qed.

(** The blocks logged since a state with log [D0]: those of the free map, the indirect
    block, and the set [P]. *)
Definition logged_by (D0 : gset Z) i (P D : gset Z) : Prop := D ⊆ D0 ∪ map_blocks ∪ ind_set i ∪ P.

Lemma logged_size D0 i P D :
  logged_by D0 i P D -> (size D <= size (D0 ∪ map_blocks) + 1 + size P)%nat.
Proof.
  intros HD. etrans; [apply subseteq_size, HD|]. rewrite size_union_alt.
  pose proof (size_ind_set (D0 ∪ map_blocks) i).
  pose proof (subseteq_size (P ∖ (D0 ∪ map_blocks ∪ ind_set i)) P ltac:(set_solver)). lia.
Qed.

Lemma logged_turn D0 c i P D bn c1 i1 D1 :
  logged_by D0 i P D -> bmapped sb c i D bn c1 i1 D1 ->
  logged_by D0 i1 (P ∪ {[fblk c1 i1 bn]}) (D1 ∪ {[fblk c1 i1 bn]}).
Proof using G.
  intros HD B. unfold logged_by in *. pose proof (m_log _ _ _ _ _ _ _ _ B).
  assert (ind_set i ⊆ ind_set i1); [|set_solver].
  unfold ind_set. destruct (decide (ind i = 0)) as [|Hn]; [set_solver|].
  rewrite (m_ind _ _ _ _ _ _ _ _ B), decide_False by done. done.
Qed.

(** The blocks are there, or there is room for them. *)
Definition can_write c i (off n : Z) : Prop :=
  (forall o, off <= o < off + n -> fblk c i (o / BSIZE) <> 0) \/ has_free c (2 * nblk off n).

Lemma can_write_first c i off n :
  0 < n -> can_write c i off n -> fblk c i (off / BSIZE) <> 0 \/ has_free c 2.
Proof using.
  intros Hn [Ha|Hf]; [left; apply Ha; lia|]. right. eapply has_free_mono; [exact Hf|].
  unfold nblk. rewrite (proj2 (Z.eqb_neq n 0)) by lia. rewrite BSIZE_val. zlia.
Qed.

Lemma can_write_step c i D c1 i1 D1 off n m c2 :
  0 <= off -> off + n <= MAXFILE * BSIZE -> 0 < n -> m = Z.min n (BSIZE - off mod BSIZE) ->
  bmapped sb c i D (off / BSIZE) c1 i1 D1 -> can_write c i off n ->
  (forall bn, fblk c2 i1 bn = fblk c1 i1 bn) ->
  (forall b, 0 <= b < sb_size sb -> used c2 b = used c1 b) ->
  can_write c2 i1 (off + m) (n - m).
Proof using.
  intros Ho HM Hn Em B [Ha|Hf] E U.
  - left. intros o Hr. rewrite E. rewrite BSIZE_val, MAXFILE_val in *.
    specialize (Ha o ltac:(zlia)). rewrite (bmapped_keep _ _ _ _ _ _ _ _ B); [done| |done].
    rewrite MAXFILE_val. zlia.
  - right. rewrite (nblk_step off n m) in Hf by done.
    replace (2 * S (nblk (off + m) (n - m)))%nat with (S (S (2 * nblk (off + m) (n - m)))) in Hf by lia.
    apply (m_free _ _ _ _ _ _ _ _ B) in Hf as (X & HX & HF).
    exists X. split; [done|]. intros b Hb. destruct (HF b Hb). by rewrite U.
Qed.

(** One turn of the loop of [writei]. *)
Lemma writei_turn_ok ic ip D0 l s off c i D P :
  Tx ic c ∅ D s -> ic !! ip = Some i -> cwf c -> iwf c i ->
  0 <= off -> off + Z.of_nat (length l) <= MAXFILE * BSIZE -> 0 < Z.of_nat (length l) ->
  off mod BSIZE + Z.of_nat (length l) <= BSIZE ->
  (fblk c i (off / BSIZE) <> 0 \/ has_free c 2) -> logged_by D0 i P D ->
  (size (D0 ∪ map_blocks) + 1 + size P <= 23)%nat ->
  returns (writei_turn pid ip off l) s (fun _ s' => exists c1 i1 D1 c' D' P',
    bmapped sb c i D (off / BSIZE) c1 i1 D1 /\ (forall bn, fblk c' i1 bn = fblk c1 i1 bn) /\
    (forall b, 0 <= b < sb_size sb -> used c' b = used c1 b) /\
    Tx (<[ip := i1]> ic) c' ∅ D' s' /\ cwf c' /\ iwf c' i1 /\ wrote c i off l c' i1 /\
    logged_by D0 i1 P' D' /\ (size P' <= size P + 1)%nat).
Proof using G.
  intros T Hip C W Ho HM Hl Hm Hf Hlog Hsz. set (bn := off / BSIZE).
  assert (Hbn : 0 <= bn < MAXFILE) by (unfold bn; rewrite BSIZE_val, MAXFILE_val in *; zlia).
  pose proof (logged_size _ _ _ _ Hlog) as HsD. unfold writei_turn. fold bn.
  rstep bmap_ok; [done|done|done|done|done|done|lia|done|].
  intros a s1 (c1 & i1 & D1 & -> & T1 & C1 & W1 & B).
  assert (Hip1 : <[ip := i1]> ic !! ip = Some i1).
  { apply list_lookup_insert_eq. by eapply lookup_lt_Some. }
  set (a := fblk c1 i1 bn) in *. assert (Ha : a <> 0) by apply B.
  destruct (w_blk _ _ _ W1 bn Hbn Ha) as (Hd & _). pose proof (is_data_range sb G _ Hd) as Hr.
  pose proof (logged_turn _ _ _ _ _ _ _ _ _ Hlog B) as Hlog1. fold a in Hlog1, Hd, Hr.
  pose proof (logged_size _ _ _ _ Hlog1) as HsD1. pose proof (size_add a P) as HsP.
  assert (HsD1' : (size D1 <= 26)%nat).
  { pose proof (subseteq_size D1 (D1 ∪ {[a]}) ltac:(set_solver)). lia. }
  apply returns_gets. rewrite (Tx_geti _ _ _ _ _ _ _ _ _ T1), Hip1. simpl default.
  rewrite (w_dev _ _ _ W1). set (p := Z.to_nat (off mod BSIZE)).
  assert (Hp : (p + length l <= Z.to_nat BSIZE)%nat) by (unfold p; rewrite BSIZE_val in *; zlia).
  destruct (write_block c1 i1 bn p l C1 W1 Hbn Ha Hp) as (C2 & W2 & Ef & Eu & _).
  rlast (update_block pid out sb G (<[ip := i1]> ic) c1 ∅ D1 s1 a (put_bytes p l));
    [done|by apply data_loggable|by intros|rewrite map_size_empty; unfold NBUF; lia|lia|
     by intros; rewrite length_put_bytes|].
  intros _ s2 T2. exists c1, i1, D1. eexists _, _, (P ∪ {[a]}).
  split; [done|]. split; [exact Ef|]. split; [exact Eu|]. split; [exact T2|].
  split; [done|]. split; [done|]. split; [by eapply wrote_turn|]. done.
Qed.

Lemma writei_loop_ok ip D0 fuel : forall ic src s off c i D P,
  Tx ic c ∅ D s -> ic !! ip = Some i -> cwf c -> iwf c i ->
  (length src <= fuel)%nat -> 0 <= off -> off + Z.of_nat (length src) <= MAXFILE * BSIZE ->
  can_write c i off (Z.of_nat (length src)) -> logged_by D0 i P D ->
  (size (D0 ∪ map_blocks) + size P + nblk off (Z.of_nat (length src)) <= 22)%nat ->
  returns (writei_loop pid fuel ip off src) s (fun r s' => r = off + Z.of_nat (length src) /\
    exists c' i' D' P', Tx (<[ip := i']> ic) c' ∅ D' s' /\ cwf c' /\ iwf c' i' /\
      wrote c i off src c' i' /\ logged_by D0 i' P' D' /\
      (size P' <= size P + nblk off (Z.of_nat (length src)))%nat).
Proof using G.
  induction fuel as [|fuel IH]; intros ic src s off c i D P T Hip C W Hf Ho HM Hcan Hlog Hsz;
    cbn [writei_loop]; destruct (Nat.eqb_spec (length src) 0) as [E0|E0].
  1,3: apply nil_length_inv in E0; subst src; apply returns_ret; split; [simpl; lia|];
    exists c, i, D, P; rewrite list_insert_id by done; do 3 (split; [done|]);
    split; [apply wrote_nil|]; split; [done|simpl; lia].
  { lia. }
  set (n := Z.of_nat (length src)) in *. set (m := Z.min n (BSIZE - off mod BSIZE)).
  assert (Hm : 1 <= m <= n /\ off mod BSIZE + m <= BSIZE) by (unfold m; rewrite BSIZE_val; zlia).
  assert (Hlm : Z.of_nat (length (take (Z.to_nat m) src)) = m) by (rewrite length_take; lia).
  assert (Hld : Z.of_nat (length (drop (Z.to_nat m) src)) = n - m) by (rewrite length_drop; lia).
  pose proof (nblk_step off n m Ho ltac:(lia) eq_refl) as Hnb.
  assert (Hc1 : fblk c i (off / BSIZE) <> 0 \/ has_free c 2) by (apply (can_write_first c i off n); [lia|done]).
  cbv zeta. fold n. fold m. rstep writei_turn_ok; [done|done|done|done|done|lia|lia|lia|done|done|lia|].
  intros _ s1 (c1 & i1 & D1 & c2 & D2 & P2 & B & Ef & Eu & T2 & C2 & W2 & Wr & Hlog2 & Hs2).
  assert (Hip1 : <[ip := i1]> ic !! ip = Some i1).
  { apply list_lookup_insert_eq. by eapply lookup_lt_Some. }
  rlast IH; [exact T2|done|done|done|lia|lia|lia| |done|rewrite Hld; lia|].
  { rewrite Hld. eapply (can_write_step c i D c1 i1 D1 off n); try done; lia. }
  rewrite Hld. intros r s2 [-> (c' & i' & D' & P' & T' & C' & W' & Wr' & Hlog' & Hs')].
  split; [lia|]. exists c', i', D', P'. rewrite list_insert_insert_eq in T'. do 3 (split; [done|]).
  split; [|split; [done|lia]]. rewrite <- (take_drop (Z.to_nat m) src).
  eapply wrote_app; [done|lia|exact Wr|]. by rewrite Hlm.
Qed.
End Rw.
