(* ===== verification/FsInode.v ===== *)
(** * Inodes on disk: [iupdate], [ilock] and [writei]

    The copy of an inode in its disk block, the round trip through it, and what [writei]
    does as a whole. *)

From stdpp Require Import base tactics numbers list sets gmap strings.
From Stdlib Require Import ZArith Lia ZifyNat.
From S2P Require Import Prelude Layout Sleeplock Bio BioSpec Log LogSpec LogCrash LogOps Fs FsTx FsBlocks FsFile FsRw.

#[local] Arguments Z.testbit : simpl never.

(** ** Fields of a block *)

Lemma length_st16 o v x : length (st16 o v x) = length x.
Proof. unfold st16. by rewrite !length_insert. Qed.

Ltac byte_at_st :=
  unfold ld16, st16, ld32, st32; rewrite !byte_at_insert by (rewrite ?length_insert; lia);
  repeat first [rewrite decide_True by lia | rewrite decide_False by lia].

Lemma ld16_st16_eq x o v : (o + 2 <= length x)%nat -> ld16 (st16 o v x) o = u16 v.
Proof. intros. byte_at_st. unfold u8, u16. zlia. Qed.
Lemma ld16_st16_ne x o p v :
  (o + 2 <= length x)%nat -> (o + 2 <= p)%nat \/ (p + 2 <= o)%nat -> ld16 (st16 o v x) p = ld16 x p.
Proof. intros. byte_at_st. done. Qed.
Lemma ld16_st32_ne x o p v :
  (o + 4 <= length x)%nat -> (o + 4 <= p)%nat \/ (p + 2 <= o)%nat -> ld16 (st32 o v x) p = ld16 x p.
Proof. intros. byte_at_st. done. Qed.
Lemma byte_at_st32_ne x o p v :
  (o + 4 <= length x)%nat -> (p < o \/ o + 4 <= p)%nat -> byte_at (st32 o v x) p = byte_at x p.
Proof. intros. byte_at_st. done. Qed.
Lemma byte_at_st16_ne x o p v :
  (o + 2 <= length x)%nat -> (p < o \/ o + 2 <= p)%nat -> byte_at (st16 o v x) p = byte_at x p.
Proof. intros. byte_at_st. done. Qed.

Lemma ld16_ext x y p :
  byte_at x p = byte_at y p -> byte_at x (p + 1) = byte_at y (p + 1) -> ld16 x p = ld16 y p.
Proof. unfold ld16. by intros -> ->. Qed.
Lemma ld32_ext x y p :
  (forall k, (k < 4)%nat -> byte_at x (p + k) = byte_at y (p + k)) -> ld32 x p = ld32 y p.
Proof.
  intros E. unfold ld32. pose proof (E 0%nat ltac:(lia)) as E0. rewrite Nat.add_0_r in E0.
  by rewrite E0, !E by lia.
Qed.

Section Addrs.
Variable addrs : list Z.
Abbreviation put_addrs o l x := (fold_left (fun x k => st32 (o + 4 * k) (default 0 (addrs !! k)) x) l x).

Lemma length_put_addrs o l x : length (put_addrs o l x) = length x.
Proof. revert x. induction l as [|k l IH]; intros x; simpl; [done|]. by rewrite IH, length_st32. Qed.

Lemma byte_at_put_addrs o l x p :
  Forall (fun k => (o + 4 * k + 4 <= length x)%nat) l ->
  Forall (fun k => (p < o + 4 * k \/ o + 4 * k + 4 <= p)%nat) l ->
  byte_at (put_addrs o l x) p = byte_at x p.
Proof.
  revert x. induction l as [|k l IH]; intros x F1 F2; simpl; [done|].
  apply Forall_cons in F1 as [Fk F1], F2 as [Gk F2]. rewrite IH; [|by rewrite length_st32|done].
  by apply byte_at_st32_ne.
Qed.

Lemma ld32_put_addrs o n x k :
  (o + 4 * n <= length x)%nat -> (k < n)%nat ->
  ld32 (put_addrs o (seq 0 n) x) (o + 4 * k) = u32 (default 0 (addrs !! k)).
Proof.
  intros Hn Hk. assert (E : seq 0 n = seq 0 k ++ k :: seq (S k) (n - S k)).
  { replace n with (k + S (n - S k))%nat at 1 by lia. by rewrite seq_app. }
  rewrite E, fold_left_app. cbn [fold_left].
  rewrite (ld32_ext _ (st32 (o + 4 * k) (default 0 (addrs !! k)) (put_addrs o (seq 0 k) x))).
  - apply ld32_st32_eq. rewrite length_put_addrs. lia.
  - intros j Hj. apply byte_at_put_addrs; apply Forall_seq; intros q Hq;
      rewrite ?length_st32, ?length_put_addrs; lia.
Qed.
End Addrs.

Lemma length_store_dinode o i x : length (store_dinode o i x) = length x.
Proof. unfold store_dinode, store_addrs. by rewrite length_put_addrs, length_st32, !length_st16. Qed.

(** The 64 bytes of a disk inode are all that changes. *)
Lemma byte_at_store_dinode o i x p :
  (o + 64 <= length x)%nat -> (p < o \/ o + 64 <= p)%nat ->
  byte_at (store_dinode o i x) p = byte_at x p.
Proof.
  intros Hx Hp. unfold store_dinode, store_addrs. rewrite byte_at_put_addrs.
  - rewrite byte_at_st32_ne, !byte_at_st16_ne; rewrite ?length_st16; try done; lia.
  - apply Forall_seq. intros k Hk. rewrite length_st32, !length_st16. lia.
  - apply Forall_seq. intros k Hk. lia.
Qed.

(** The values fit the fields of [struct dinode]. *)
Record irange (i : inode) : Prop := Irange {
  ir_type : -32768 <= i_type i < 32768;
  ir_major : -32768 <= i_major i < 32768;
  ir_minor : -32768 <= i_minor i < 32768;
  ir_nlink : -32768 <= i_nlink i < 32768;
  ir_size : 0 <= i_size i < 4294967296;
  ir_len : length (i_addrs i) = 13%nat;
  ir_addrs k : (k < 13)%nat -> 0 <= default 0 (i_addrs i !! k) < 4294967296 }.

Lemma s16_u16 z : -32768 <= z < 32768 -> s16 (u16 z) = z.
Proof. intros. unfold s16, u16. zlia. Qed.

(** What [ilock] reads back is what [iupdate] wrote; [j] supplies the other fields. *)
Lemma load_store_dinode o i j x :
  irange i -> (o + 64 <= length x)%nat ->
  load_dinode (store_dinode o i x) o j =
    Inode (i_dev j) (i_inum j) (i_ref j) (i_lock j) (i_valid j) (i_type i) (i_major i) (i_minor i)
      (i_nlink i) (i_size i) (i_addrs i).
Proof.
  intros [Ht Hma Hmi Hnl Hsz Hl Ha] Hx. set (y := st32 (o + 8) (i_size i)
      (st16 (o + 6) (i_nlink i) (st16 (o + 4) (i_minor i)
        (st16 (o + 2) (i_major i) (st16 o (i_type i) x))))).
  assert (Hy : length y = length x) by (unfold y; by rewrite length_st32, !length_st16).
  assert (Elow : forall p, (p < o + 12)%nat -> byte_at (store_dinode o i x) p = byte_at y p).
  { intros p Hp. unfold store_dinode, store_addrs. fold y.
    apply byte_at_put_addrs; apply Forall_seq; intros k Hk; lia. }
  assert (E16 : forall p, (p + 2 <= o + 12)%nat -> ld16 (store_dinode o i x) p = ld16 y p).
  { intros. apply ld16_ext; apply Elow; lia. }
  assert (E32 : ld32 (store_dinode o i x) (o + 8) = ld32 y (o + 8)).
  { apply ld32_ext. intros. apply Elow. lia. }
  unfold load_dinode. rewrite !E16, E32 by lia. unfold y.
  rewrite ld32_st32_eq by (rewrite !length_st16; lia).
  repeat first [rewrite ld16_st32_ne by (rewrite ?length_st16; lia)
    | rewrite (ld16_st16_ne _ (o + 6)) by (rewrite ?length_st16; lia)
    | rewrite (ld16_st16_ne _ (o + 4)) by (rewrite ?length_st16; lia)
    | rewrite (ld16_st16_ne _ (o + 2)) by (rewrite ?length_st16; lia)
    | rewrite ld16_st16_eq by (rewrite ?length_st16; lia)].
  rewrite !s16_u16, u32_small by done. f_equal.
  apply list_eq. intros k. rewrite list_lookup_fmap. destruct (decide (k < 13)%nat) as [Hk|Hk].
  - rewrite lookup_seq_lt by done. cbn [fmap option_fmap option_map]. rewrite Nat.add_0_l.
    unfold store_dinode, store_addrs. fold y. rewrite ld32_put_addrs, u32_small by (rewrite ?Hy; (lia || by apply Ha)).
    destruct (lookup_lt_is_Some_2 (i_addrs i) k) as [v ->]; [lia|]. done.
  - rewrite lookup_ge_None_2 by (rewrite length_seq; lia). symmetry. apply lookup_ge_None_2. lia.
Qed.

Section Inode.
Variable pid : Z.
Variable out : Z.
Variable sb : superblock.
Hypothesis G : geom sb.
Context {devsw : DevSw}.
Implicit Types (ic : list inode) (c : Z -> bdata) (H : gmap nat (Z * bdata)) (D : gset Z) (i : inode).

Abbreviation Tx := (Tx pid out sb).
Abbreviation used := (used sb).
Abbreviation is_data := (is_data sb).
Abbreviation iwf := (iwf sb).
Abbreviation cwf := (cwf sb).
Abbreviation map_blocks := (map_blocks sb).

(** The inode on disk agrees with the one in memory. *)
Definition dinode c (inum : Z) (j : inode) : inode :=
  load_dinode (c (IBLOCK inum sb)) (dinode_at inum) j.
Definition synced c i : Prop := dinode c (i_inum i) i = i.

(** The blocks after [iupdate]. *)
Definition update_view i c : Z -> bdata :=
  upd (IBLOCK (i_inum i) sb)
    (store_dinode (dinode_at (i_inum i)) i (c (IBLOCK (i_inum i) sb))) c.

Lemma IPB_val : IPB = 8.
Proof. done. Qed.
Lemma DINODE_SIZE_val : DINODE_SIZE = 64.
Proof. done. Qed.

Lemma dinode_at_bound inum : (dinode_at inum + 64 <= 512)%nat.
Proof. unfold dinode_at. rewrite IPB_val, DINODE_SIZE_val. zlia. Qed.

Lemma bmapstart_data : sb_bmapstart sb < data_start sb /\ 0 < sb_bmapstart sb.
Proof using G.
  pose proof (g_data _ G). pose proof (g_size _ G). pose proof (g_bmap _ G). pose proof (g_inode _ G).
  pose proof (g_log _ G) as [? E]. unfold LOGSIZE, MAXOPBLOCKS in E.
  assert (0 <= (sb_size sb - 1) / BPB) by (apply Z.div_pos; [lia|by vm_compute]).
  assert (0 <= sb_ninodes sb / IPB) by (apply Z.div_pos; [lia|by vm_compute]). lia.
Qed.

Section Update.
Context (c : Z -> bdata) (i : inode) (C : cwf c) (W : 0 <= i_inum i < sb_ninodes sb).

Lemma iblock_range : loggable sb (IBLOCK (i_inum i) sb) /\ IBLOCK (i_inum i) sb < sb_bmapstart sb.
Proof using G W. by apply IBLOCK_loggable. Qed.

Lemma update_view_data n : sb_bmapstart sb <= n -> update_view i c n = c n.
Proof using G W. intros. unfold update_view. rewrite upd_ne; [done|]. pose proof iblock_range. lia. Qed.

Lemma update_view_zero : update_view i c 0 = c 0.
Proof using G W.
  unfold update_view. rewrite upd_ne; [done|]. destruct iblock_range as [[? _] _].
  pose proof (g_log _ G) as [? E]. unfold LOGSIZE, MAXOPBLOCKS in E. lia.
Qed.

Lemma used_update_view b : 0 <= b < sb_size sb -> used (update_view i c) b = used c b.
Proof using G W.
  intros Hb. unfold FsBlocks.used. rewrite update_view_data; [done|].
  destruct (BBLOCK_loggable sb b G Hb). lia.
Qed.

Lemma cwf_update_view : cwf (update_view i c).
Proof using G C W.
  split.
  - intros n Hn. unfold update_view, upd. destruct (decide _); [|by apply C].
    rewrite length_store_dinode. apply C. apply loggable_range; [done|apply iblock_range].
  - intros b Hb. pose proof (g_size _ G). unfold data_start in Hb.
    rewrite used_update_view by lia. by apply C.
Qed.

Lemma fblk_update_view j bn : iwf c j -> fblk (update_view i c) j bn = fblk c j bn.
Proof using G W.
  intros Wj. apply fblk_ext. intros Hi. destruct (w_ind _ _ _ Wj Hi) as [[? ?] _].
  apply update_view_data. pose proof bmapstart_data. lia.
Qed.

Lemma iwf_update_view j : iwf c j -> iwf (update_view i c) j.
Proof using G W.
  intros Wj. eapply iwf_ext; [done| |].
  - intros. by apply fblk_update_view.
  - intros n Hn Un. rewrite used_update_view; [done|]. pose proof (is_data_range sb G _ Hn). lia.
Qed.

Lemma fbyte_update_view j o :
  iwf c j -> 0 <= o < MAXFILE * BSIZE -> fbyte (update_view i c) j o = fbyte c j o.
Proof using G W.
  intros Wj Ho. unfold fbyte. rewrite fblk_update_view by done.
  destruct (decide (fblk c j (o / BSIZE) = 0)) as [->|Hn]; [by rewrite update_view_zero|].
  assert (Hb : 0 <= o / BSIZE < MAXFILE) by (rewrite BSIZE_val, MAXFILE_val in *; zlia).
  destruct (w_blk _ _ _ Wj _ Hb Hn) as ([? ?] & _).
  rewrite update_view_data; [done|]. pose proof bmapstart_data. lia.
Qed.

Lemma iblock_length : length (c (IBLOCK (i_inum i) sb)) = 512%nat.
Proof using G C W. rewrite (cw_len _ _ C); [done|]. apply loggable_range; [done|apply iblock_range]. Qed.

Lemma synced_update_view : irange i -> synced (update_view i c) i.
Proof using G C W.
  intros R. unfold synced, dinode, update_view. rewrite upd_eq, load_store_dinode.
  - by destruct i.
  - done.
  - rewrite iblock_length. apply dinode_at_bound.
Qed.

(** The other inodes on disk are not touched. *)
Lemma dinode_update_view inum j :
  0 <= inum -> inum <> i_inum i -> dinode (update_view i c) inum j = dinode c inum j.
Proof using G C W.
  intros H0 Hne. unfold dinode, update_view.
  destruct (decide (IBLOCK inum sb = IBLOCK (i_inum i) sb)) as [E|E]; [|by rewrite upd_ne].
  rewrite E, upd_eq. unfold load_dinode.
  assert (Hb : forall p, (dinode_at inum <= p < dinode_at inum + 64)%nat ->
    byte_at (store_dinode (dinode_at (i_inum i)) i (c (IBLOCK (i_inum i) sb))) p
    = byte_at (c (IBLOCK (i_inum i) sb)) p).
  { intros p Hp. apply byte_at_store_dinode; [rewrite iblock_length; apply dinode_at_bound|].
    unfold IBLOCK, dinode_at in *. rewrite IPB_val, DINODE_SIZE_val in *. zlia. }
  f_equal; [f_equal; apply ld16_ext; apply Hb; lia..|apply ld32_ext; intros; apply Hb; lia|].
  apply list_fmap_ext. intros k v [-> Hk]%lookup_seq. apply ld32_ext. intros. apply Hb. lia.
Qed.
End Update.

Lemma iupdate_ok ic c D s ip i :
  Tx ic c ∅ D s -> ic !! ip = Some i -> iwf c i -> (size D <= 28)%nat ->
  returns (iupdate pid ip) s
    (fun _ s' => Tx ic (update_view i c) ∅ (D ∪ {[IBLOCK (i_inum i) sb]}) s').
Proof using G.
  intros T Hip W Hs. unfold iupdate. apply returns_get.
  rewrite (Tx_geti _ _ _ _ _ _ _ _ _ T), Hip. simpl default. cbv zeta.
  rewrite (w_dev _ _ _ W), (T_sb _ _ _ _ _ _ _ _ T).
  apply (update_block pid out sb G); [done| |by intros|rewrite map_size_empty; unfold NBUF; lia|done|].
  - apply IBLOCK_loggable; [done|apply W].
  - intros x Hx. by rewrite length_store_dinode.
Qed.

(** ** [writei] *)

(** A file in memory: its blocks are its own, none is missing, the fields fit and the
    copy on disk agrees. *)
Record fwf c i : Prop := Fwf {
  fw_iwf : iwf c i;
  fw_nohole : nohole c i;
  fw_range : irange i;
  fw_sync : synced c i;
  fw_type : i_type i <> T_DEV }.

Lemma irange_addrs c i addrs : iwf c (set_i_addrs addrs i) -> irange i -> irange (set_i_addrs addrs i).
Proof using G.
  intros W []. split; try done; [apply W|]. intros k Hk. pose proof (g_size _ G).
  destruct (decide (k < 12)%nat) as [Hd|Hd].
  - pose proof (w_blk _ _ _ W (Z.of_nat k)) as Hb. unfold fblk in Hb. rewrite NDIRECT_val, MAXFILE_val in Hb.
    rewrite (proj2 (Z.ltb_lt (Z.of_nat k) 12)) in Hb by lia. unfold addr_of in Hb. rewrite Nat2Z.id in Hb.
    destruct (decide (default 0 (i_addrs (set_i_addrs addrs i) !! k) = 0)) as [->|Hn]; [lia|].
    destruct (Hb ltac:(lia) Hn) as (Hdt & _). pose proof (is_data_range sb G _ Hdt). lia.
  - assert (k = 12%nat) as -> by lia. pose proof (w_ind _ _ _ W) as Hi. unfold ind, addr_of in Hi.
    change (Z.to_nat NDIRECT) with 12%nat in Hi.
    destruct (decide (default 0 (i_addrs (set_i_addrs addrs i) !! 12%nat) = 0)) as [->|Hn]; [lia|].
    destruct (Hi Hn) as (Hdt & _). pose proof (is_data_range sb G _ Hdt). lia.
Qed.

Lemma irange_size i v : irange i -> 0 <= v < 4294967296 -> irange (set_i_size v i).
Proof. intros [] ?. by split. Qed.

Lemma iwf_size c i v : iwf c i -> iwf c (set_i_size v i).
Proof. intros []. by split. Qed.

(** Nothing but the blocks of the free map and of the file changes below the loop. *)
Lemma dinode_low c c' inum j :
  (forall n, n < sb_bmapstart sb -> c' n = c n) -> 0 <= inum < sb_ninodes sb ->
  dinode c' inum j = dinode c inum j.
Proof using G.
  intros E Hi. unfold dinode. rewrite E; [done|]. by apply IBLOCK_loggable.
Qed.

Lemma wrote_nohole c i off src c' i' v :
  nohole c i -> wrote sb c i off src c' i' -> 0 <= off <= i_size i ->
  off + Z.of_nat (length src) <= MAXFILE * BSIZE ->
  v = Z.max (i_size i) (off + Z.of_nat (length src)) -> nohole c' (set_i_size v i').
Proof using.
  intros [N1 N2] Wr Ho HM ->. split; [simpl; lia|].
  intros bn Hbn Hlt. change (fblk c' (set_i_size _ i') bn) with (fblk c' i' bn).
  simpl in Hlt. rewrite BSIZE_val, MAXFILE_val in *. destruct (decide (bn * 512 < i_size i)) as [Hs|Hs].
  - rewrite (wr_keep _ _ _ _ _ _ _ Wr); [apply N2; lia|rewrite MAXFILE_val; lia|apply N2; lia].
  - pose proof (wr_blk _ _ _ _ _ _ _ Wr (bn * 512) ltac:(lia)) as Hb.
    rewrite BSIZE_val, Z.div_mul in Hb by lia. done.
Qed.

(** What [writei] of [src] at [off] promises: [D'] bounds the blocks it has logged. *)
Definition writei_post ic c D (ip : nat) i (src : list Z) (off r : Z) (s' : fsst) : Prop :=
  let n := Z.of_nat (length src) in
  r = n /\ exists c' i' D', Tx (<[ip := i']> ic) c' ∅ D' s' /\ cwf c' /\ fwf c' i' /\
    i' = set_i_size (Z.max (i_size i) (off + n)) (set_i_addrs (i_addrs i') i) /\
    (forall o, 0 <= o < i_size i' -> fbyte c' i' o =
       if decide (off <= o < off + n) then default 0 (src !! Z.to_nat (o - off)) else fbyte c i o) /\
    (forall inum j, 0 <= inum < sb_ninodes sb -> inum <> i_inum i -> dinode c' inum j = dinode c inum j) /\
    (size D' <= size (D ∪ map_blocks) + nblk off n + 2)%nat.

Lemma wrote_bytes c i off src c' i' o :
  nohole c i -> wrote sb c i off src c' i' -> 0 <= off <= i_size i ->
  off + Z.of_nat (length src) <= MAXFILE * BSIZE ->
  0 <= o < Z.max (i_size i) (off + Z.of_nat (length src)) ->
  fbyte c' i' o = if decide (off <= o < off + Z.of_nat (length src))
    then default 0 (src !! Z.to_nat (o - off)) else fbyte c i o.
Proof using.
  intros [N1 N2] Wr Ho HM Hr. destruct (decide _) as [Hin|Hin].
  - by apply (wr_new _ _ _ _ _ _ _ Wr).
  - apply (wr_old _ _ _ _ _ _ _ Wr); [lia|done|]. apply N2; rewrite BSIZE_val in *; zlia.
Qed.

(** After the loop of [writei]. *)
Section Finish.
Context (ic : list inode) (c : Z -> bdata) (D : gset Z) (ip : nat) (i : inode) (src : list Z) (off : Z).
Context (c' : Z -> bdata) (i' : inode) (D' P' : gset Z) (s1 : fsst).
Context (Hip : ic !! ip = Some i) (F : fwf c i) (Ho : 0 <= off <= i_size i)
  (HM : off + Z.of_nat (length src) <= MAXFILE * BSIZE)
  (Hsz : (size (D ∪ map_blocks) + nblk off (Z.of_nat (length src)) <= 22)%nat)
  (T' : Tx (<[ip := i']> ic) c' ∅ D' s1) (C' : cwf c') (W' : iwf c' i')
  (Wr : wrote sb c i off src c' i') (HP : logged_by sb D i' P' D')
  (HsP : (size P' <= nblk off (Z.of_nat (length src)))%nat).
Local Abbreviation n := (Z.of_nat (length src)).

Lemma finish_size : (size D' <= size (D ∪ map_blocks) + nblk off n + 1)%nat.
Proof using G HP HsP Hsz.
  assert (size D' <= size (D ∪ map_blocks) + 1 + size P')%nat by by eapply logged_size. lia.
Qed.

Lemma finish_inode : i_size i' = i_size i /\ i_type i' = i_type i /\ i_inum i' = i_inum i.
Proof using Wr. by rewrite (wr_inode _ _ _ _ _ _ _ Wr). Qed.

Lemma finish_lookup j : <[ip := j]> ic !! ip = Some j.
Proof using Hip. apply list_lookup_insert_eq. by eapply lookup_lt_Some. Qed.

(** The file has grown: the new size goes to disk. *)
Lemma writei_grown :
  i_size i < off + n ->
  returns ((modify (updi ip (set_i_size (off + n))) ;;; iupdate pid ip) ;;; m_ret (s32 n)) s1
    (writei_post ic c D ip i src off).
Proof using All.
  intros Hg. pose proof HM as HM'. rewrite BSIZE_val, MAXFILE_val in HM'.
  pose proof finish_size. destruct finish_inode as (Es & Et & En). destruct F as [W N R S Ht].
  apply returns_bind_assoc, returns_modify. set (i2 := set_i_size (off + n) i').
  assert (W2 : iwf c' i2) by by apply iwf_size.
  assert (R2 : irange i2).
  { apply irange_size; [|lia]. rewrite (wr_inode _ _ _ _ _ _ _ Wr) in W' |- *. by apply (irange_addrs c'). }
  rstep (iupdate_ok (<[ip := i2]> ic) c' D'); [|apply finish_lookup|done|lia|].
  { rewrite <- (list_insert_insert_eq ic ip i2 i'). unfold i2.
    rewrite <- (alter_insert _ _ i' (set_i_size (off + n))) by apply finish_lookup. by apply Tx_updi. }
  intros _ s2 T2. apply returns_ret.
  assert (Wn : 0 <= i_inum i2 < sb_ninodes sb) by apply W2.
  split; [by rewrite s32_small by lia|]. exists (update_view i2 c'), i2. eexists. split; [exact T2|].
  split; [by apply cwf_update_view|]. split; [|split; [|split; [|split]]].
  - split; [by apply iwf_update_view| |done|by apply synced_update_view|by simpl; rewrite Et].
    pose proof (wrote_nohole _ _ _ _ _ _ (off + n) N Wr Ho HM ltac:(lia)) as [N1 N2].
    split; [done|]. intros bn. rewrite fblk_update_view by done. apply N2.
  - unfold i2 at 1. rewrite (wr_inode _ _ _ _ _ _ _ Wr) at 1. unfold i2. simpl.
    by replace (Z.max (i_size i) (off + n)) with (off + n) by lia.
  - intros o Hr. simpl in Hr. rewrite fbyte_update_view by (done || rewrite BSIZE_val, MAXFILE_val; lia).
    change (fbyte c' i2 o) with (fbyte c' i' o). eapply wrote_bytes; try done. lia.
  - intros inum j Hi Hne. rewrite dinode_update_view by (done || lia || (simpl; lia)).
    apply dinode_low; [apply Wr|done].
  - pose proof (size_add (IBLOCK (i_inum i2) sb) D'). lia.
Qed.

(** The file has not grown: the inode is as before. *)
Lemma writei_kept :
  off + n <= i_size i -> writei_post ic c D ip i src off (s32 n) s1.
Proof using All.
  intros Hng. pose proof HM as HM'. rewrite BSIZE_val, MAXFILE_val in HM'.
  pose proof finish_size. destruct F as [W N R S Ht].
  assert (E : i' = i).
  { apply (wr_same _ _ _ _ _ _ _ Wr). intros o Hr. apply N; rewrite BSIZE_val in *; zlia. }
  pose proof T' as T1. pose proof W' as W1. pose proof Wr as Wr1. rewrite E in T1, W1, Wr1.
  split; [by rewrite s32_small by lia|]. exists c', i, D'. split; [done|]. split; [done|].
  assert (Emax : Z.max (i_size i) (off + n) = i_size i) by lia. rewrite Emax.
  split; [|split; [|split; [|split]]].
  - split; [done| |done| |done].
    + pose proof (wrote_nohole _ _ _ _ _ _ _ N Wr1 Ho HM eq_refl) as N'. rewrite Emax in N'.
      by destruct i.
    + unfold synced. rewrite (dinode_low c); [done|apply Wr1|apply W].
  - by destruct i.
  - intros o Hr. eapply wrote_bytes; try done. lia.
  - intros inum j Hi Hne. apply dinode_low; [apply Wr1|done].
  - lia.
Qed.
End Finish.

Lemma writei_ok ic c D s ip i src off :
  Tx ic c ∅ D s -> ic !! ip = Some i -> cwf c -> fwf c i ->
  0 <= off <= i_size i -> off + Z.of_nat (length src) <= MAXFILE * BSIZE ->
  can_write sb c i off (Z.of_nat (length src)) ->
  (size (D ∪ map_blocks) + nblk off (Z.of_nat (length src)) <= 22)%nat ->
  returns (writei pid ip src off) s (writei_post ic c D ip i src off).
Proof using G.
  intros T Hip C F Ho HM Hcan Hsz. pose proof F as [W N R S Ht]. set (n := Z.of_nat (length src)) in *.
  pose proof HM as HM'. rewrite BSIZE_val, MAXFILE_val in HM'.
  unfold writei. fold n. cbv zeta. apply returns_gets. rewrite (Tx_geti _ _ _ _ _ _ _ _ _ T), Hip. simpl default.
  rewrite (proj2 (Z.eqb_neq _ _) Ht), (proj2 (Z.ltb_ge (i_size i) off)) by lia.
  rewrite u32_small, (proj2 (Z.ltb_ge (off + n) off)), (proj2 (Z.ltb_ge (MAXFILE * BSIZE) (off + n))) by lia.
  simpl orb. cbv iota.
  rstep (writei_loop_ok pid out sb G ip D (length src) ic src s off c i D ∅);
    [done|done|done|done|lia|lia|done|done|unfold logged_by; set_solver|rewrite size_empty; fold n; lia|].
  fold n. intros r s1 [-> (c' & i' & D' & P' & T' & C' & W' & Wr & HP & HsP)]. rewrite size_empty in HsP.
  destruct (finish_inode c i src off c' i' Wr) as (Es & _). apply returns_gets.
  rewrite (Tx_geti _ _ _ _ _ _ _ _ _ T'), (finish_lookup ic ip i Hip). simpl default. rewrite Es.
  destruct ((0 <? n) && (i_size i <? off + n)) eqn:Hg; simpl when.
  - apply andb_true_iff in Hg as [Hn Hg]. eapply writei_grown; try done. fold n. lia.
  - apply returns_ret. eapply writei_kept; try done. fold n.
    destruct (Z.ltb_spec 0 n), (Z.ltb_spec (i_size i) (off + n)); simpl in Hg; (done || lia).
Qed.

(** ** [ilock] *)

(** The lock of entry [ip] taken by the caller. *)
Definition locked i : inode := set_i_lock (SleepLock 1 (sl_name (i_lock i)) pid) i.

Lemma acquire_inode ic c D s ip i :
  Tx ic c ∅ D s -> ic !! ip = Some i -> unlocked (i_lock i) ->
  returns (zoom (ilock_lens ip) (acquiresleep pid)) s (fun _ s' => Tx (<[ip := locked i]> ic) c ∅ D s').
Proof using.
  intros T Hip Hl. eexists tt, _. split.
  - apply (zoom_Done (ilock_lens ip)). cbn [lget ilock_lens].
    rewrite (Tx_geti _ _ _ _ _ _ _ _ _ T), Hip. apply (acquiresleep_run pid _ Hl).
  - unfold locked. rewrite <- (alter_insert ic ip i (set_i_lock (SleepLock 1 (sl_name (i_lock i)) pid)) Hip).
    exact (Tx_updi _ _ _ _ _ _ _ _ ip _ T).
Qed.

(** The inode is read from disk unless the entry is valid. *)
Definition ilocked c i : inode :=
  if i_valid i =? 0 then set_i_valid 1 (dinode c (i_inum i) (locked i)) else locked i.

Lemma ilock_ok ic c D s ip i :
  Tx ic c ∅ D s -> ic !! ip = Some i -> 1 <= i_ref i -> unlocked (i_lock i) ->
  i_dev i = 1 -> 0 <= i_inum i < sb_ninodes sb -> (size D <= 28)%nat -> i_type (ilocked c i) <> 0 ->
  returns (ilock pid ip) s (fun _ s' => Tx (<[ip := ilocked c i]> ic) c ∅ D s').
Proof using G.
  intros T Hip Href Hl Hdev Hinum HD Ht.
  assert (Hlk : forall j, <[ip := j]> ic !! ip = Some j).
  { intros. apply list_lookup_insert_eq. by eapply lookup_lt_Some. }
  unfold ilock. apply returns_get. rewrite (Tx_geti _ _ _ _ _ _ _ _ _ T), Hip. simpl default.
  rewrite (proj2 (Z.ltb_ge _ _)) by lia. rstep acquire_inode; [done..|]. intros _ s1 T1.
  apply returns_get. rewrite (Tx_geti _ _ _ _ _ _ _ _ _ T1), Hlk. simpl default. cbv zeta.
  unfold ilocked in *. change (i_valid (locked i)) with (i_valid i). destruct (i_valid i =? 0); simpl when.
  2: { by apply returns_ret. }
  change (i_dev (locked i)) with (i_dev i). change (i_inum (locked i)) with (i_inum i).
  rewrite (T_sb _ _ _ _ _ _ _ _ T1), Hdev. destruct (IBLOCK_loggable sb (i_inum i) G Hinum) as [Hlog _].
  rstep Tx_bread; [done|by apply loggable_range|by intros|rewrite map_size_empty; unfold NBUF; lia|].
  intros bp s2 [_ T2]. eapply returns_Done; [eapply Tx_data; [done|apply lookup_insert_eq]|].
  apply returns_modify. apply (Tx_updi _ _ _ _ _ _ _ _ ip
    (load_dinode (c (IBLOCK (i_inum i) sb)) (dinode_at (i_inum i)))) in T2.
  rewrite (alter_insert _ _ (locked i)), list_insert_insert_eq in T2 by done.
  rstep Tx_brelse; [exact T2|apply lookup_insert_eq|]. intros _ s3 T3. rewrite delete_insert_id in T3 by done.
  apply returns_modify. apply (Tx_updi _ _ _ _ _ _ _ _ ip (set_i_valid 1)) in T3.
  erewrite alter_insert, list_insert_insert_eq in T3 by done. apply returns_get.
  rewrite (Tx_geti _ _ _ _ _ _ _ _ _ T3), Hlk. simpl default. fold (dinode c (i_inum i) (locked i)) in *.
  rewrite (proj2 (Z.eqb_neq _ _) Ht). by apply returns_ret.
Qed.
End Inode.
