(* ===== verification/FsDir.v ===== *)
(** * Directories and path names: [iget], [dirlookup], [dirlink], [skipelem]

    A directory is a file of 16-byte entries; [dir_find] is the map from names to inode
    numbers it stands for. *)

From stdpp Require Import base tactics numbers list sets gmap strings.
From Stdlib Require Import ZArith Lia ZifyNat.
From S2P Require Import Prelude Layout Sleeplock Bio BioSpec Log LogSpec LogCrash LogOps Fs FsTx FsBlocks FsFile FsRw FsInode.

(** ** Names *)

(** The 14 bytes a name takes in an entry. *)
Definition canon (name : list Z) : list Z := strncpy_buf (Z.to_nat DIRSIZ) name.

Lemma length_strncpy_buf n t : length (strncpy_buf n t) = n.
Proof.
  revert t. induction n as [|n IH]; intros t; simpl; [done|].
  destruct (hd 0 t =? 0); simpl; [by rewrite length_replicate|by rewrite IH].
Qed.

Lemma strncpy_buf_cons n t :
  strncpy_buf (S n) t = hd 0 t :: strncpy_buf n (if hd 0 t =? 0 then [] else tail t).
Proof.
  simpl. destruct (Z.eqb_spec (hd 0 t) 0) as [->|]; [|done]. f_equal. by destruct n.
Qed.

(** [namecmp] compares the names as they are stored. *)
Lemma strncmp_buf_eq n p q : strncmp_buf n p q = 0 <-> strncpy_buf n p = strncpy_buf n q.
Proof.
  revert p q. induction n as [|n IH]; intros p q; [done|].
  rewrite !strncpy_buf_cons. cbn [strncmp_buf].
  destruct (Z.eqb_spec (hd 0 p) 0) as [Ep|Ep]; simpl.
  - rewrite Ep. split.
    + intros Hz. assert (Eq : hd 0 q = 0) by lia. by rewrite Eq.
    + intros [= Eq _]. lia.
  - destruct (Z.eqb_spec (hd 0 p) (hd 0 q)) as [E|E].
    + rewrite IH, <- E. destruct (Z.eqb_spec (hd 0 p) 0); [done|]. split; [by intros ->|by intros [= ->]].
    + split; [lia|]. by intros [= ? _].
Qed.

Lemma namecmp_eq s t : namecmp s t = 0 <-> canon s = canon t.
Proof. apply strncmp_buf_eq. Qed.

Lemma strncpy_buf_idem n t : strncpy_buf n (strncpy_buf n t) = strncpy_buf n t.
Proof.
  revert t. induction n as [|n IH]; intros t; [done|].
  rewrite (strncpy_buf_cons n t). rewrite strncpy_buf_cons. simpl.
  destruct (Z.eqb_spec (hd 0 t) 0) as [->|]; [|by rewrite IH]. by destruct n.
Qed.

Lemma canon_canon name : canon (canon name) = canon name.
Proof. apply strncpy_buf_idem. Qed.

(** ** Entries *)

Lemma de_inum_dirent inum name : 0 <= inum < 65536 -> de_inum (dirent inum name) = inum.
Proof. intros. unfold de_inum, dirent, ld16, byte_at. simpl. unfold u8. zlia. Qed.

Lemma de_name_dirent inum name : de_name (dirent inum name) = canon name.
Proof. done. Qed.

Lemma length_dirent inum name : length (dirent inum name) = 16%nat.
Proof. unfold dirent. by rewrite length_app, length_strncpy_buf. Qed.

Lemma DIRENT_SIZE_val : DIRENT_SIZE = 16.
Proof. done. Qed.

(** Does an entry hold the name? *)
Definition names (name de : list Z) : bool := negb (de_inum de =? 0) && (namecmp name (de_name de) =? 0).

(** Entry [k] of a directory, and the inode number of a name. *)
Definition entry (c : Z -> bdata) (i : inode) (k : nat) : list Z := fbytes c i (16 * Z.of_nat k) 16.
Definition nentries (i : inode) : nat := Z.to_nat (i_size i / 16).
Definition dir_index (c : Z -> bdata) (i : inode) (name : list Z) : option nat :=
  find (fun k => names name (entry c i k)) (seq 0 (nentries i)).
Definition dir_find (c : Z -> bdata) (i : inode) (name : list Z) : option Z :=
  (fun k => de_inum (entry c i k)) <$> dir_index c i name.

(** ** The inode cache *)

(** What [iget] does to the cache. *)
Definition iget_ic (ic : list inode) (dev inum : Z) : option (nat * list inode) :=
  match find_idx (fun i => (0 <? i_ref i) && (i_dev i =? dev) && (i_inum i =? inum)) 0 ic with
  | Some ip => Some (ip, alter (fun i => set_i_ref (i_ref i + 1) i) ip ic)
  | None =>
      (fun ip => (ip, alter (fun i => Inode dev inum 1 (i_lock i) 0 (i_type i) (i_major i)
            (i_minor i) (i_nlink i) (i_size i) (i_addrs i)) ip ic)) <$> find_idx (fun i => i_ref i =? 0) 0 ic
  end.

(** An inode is cached at most once, and reference counts are not negative. *)
Record icache_ok (ic : list inode) : Prop := IcacheOk {
  io_ref ip i : ic !! ip = Some i -> 0 <= i_ref i;
  io_one ip jp i j : ic !! ip = Some i -> ic !! jp = Some j -> 0 < i_ref i -> 0 < i_ref j ->
    i_dev i = i_dev j -> i_inum i = i_inum j -> ip = jp }.

Lemma iget_ic_ok ic dev inum ip ic' :
  icache_ok ic -> iget_ic ic dev inum = Some (ip, ic') ->
  icache_ok ic' /\
  (exists i i', ic !! ip = Some i /\ ic' !! ip = Some i' /\ i_ref i' = i_ref i + 1 /\
     i_dev i' = dev /\ i_inum i' = inum /\ (0 < i_ref i -> i' = set_i_ref (i_ref i + 1) i)) /\
  (forall jp, jp <> ip -> ic' !! jp = ic !! jp).
Proof.
  intros [O1 O2]. unfold iget_ic. destruct (find_idx _ 0 ic) as [jp|] eqn:E1.
  - intros [= <- <-]. destruct (find_idx_Some _ _ _ _ E1) as (i & _ & Hi & Pi & _).
    rewrite Nat.sub_0_r in Hi. apply andb_true_iff in Pi as [[Pr Pd]%andb_true_iff Pn].
    split; [|split].
    + split.
      * intros kp k [(-> & x & Hx & ->)|[_ Hk]]%list_alter_Some; [simpl; specialize (O1 _ _ Hx); lia|eauto].
      * intros kp lp k l Hk Hl Rk Rl Ed En.
        apply list_alter_Some in Hk as [(-> & x & Hx & ->)|[? Hk]];
          apply list_alter_Some in Hl as [(-> & y & Hy & ->)|[? Hl]]; simpl in *; try done;
          try rewrite Hi in Hx; try rewrite Hi in Hy; simplify_eq;
          eapply O2; eauto; lia.
    + exists i, (set_i_ref (i_ref i + 1) i). rewrite list_lookup_alter_eq, Hi. simpl. repeat split; lia.
    + intros kp Hne. by apply list_lookup_alter_ne.
  - destruct (find_idx (fun i => i_ref i =? 0) 0 ic) as [jp|] eqn:E2; simpl; [|done].
    intros [= <- <-]. destruct (find_idx_Some _ _ _ _ E2) as (i & _ & Hi & Pi & _).
    rewrite Nat.sub_0_r in Hi. pose proof (find_idx_None _ _ _ E1) as Hno.
    assert (Hnew : forall kp k, ic !! kp = Some k -> 0 < i_ref k -> i_dev k = dev -> i_inum k = inum -> False).
    { intros kp k Hk Rk Ed En. specialize (Hno _ _ Hk). simpl in Hno.
      apply andb_false_iff in Hno as [[?|?]%andb_false_iff|?]; lia. }
    split; [|split].
    + split.
      * intros kp k [(-> & x & Hx & ->)|[_ Hk]]%list_alter_Some; [simpl; lia|eauto].
      * intros kp lp k l Hk Hl Rk Rl Ed En.
        apply list_alter_Some in Hk as [(-> & x & Hx & ->)|[? Hk]];
          apply list_alter_Some in Hl as [(-> & y & Hy & ->)|[? Hl]]; simpl in *; try done;
          [exfalso; eapply (Hnew lp l); eauto; lia|exfalso; eapply (Hnew kp k); eauto; lia|eapply O2; eauto].
    + eexists i, _. rewrite list_lookup_alter_eq, Hi. simpl. split; [done|]. split; [done|].
      simpl. repeat split; lia.
    + intros kp Hne. by apply list_lookup_alter_ne.
Qed.

(** ** Searching *)

Lemma find_seq_ext (p q : nat -> bool) n :
  (forall k, (k < n)%nat -> p k = q k) -> find p (seq 0 n) = find q (seq 0 n).
Proof.
  intros E. assert (F : Forall (fun k => p k = q k) (seq 0 n)) by (apply Forall_seq; intros; apply E; lia).
  induction F as [|k l Ek F IH]; simpl; [done|]. by rewrite Ek, IH.
Qed.

Lemma find_seq_S p n :
  find p (seq 0 (S n)) = match find p (seq 0 n) with Some k => Some k | None => if p n then Some n else None end.
Proof.
  rewrite seq_S. simpl. induction (seq 0 n) as [|k l IH]; simpl; [done|]. by destruct (p k).
Qed.

Lemma find_seq_only p n k :
  (k < n)%nat -> p k = true -> (forall j, (j < n)%nat -> j <> k -> p j = false) ->
  find p (seq 0 n) = Some k.
Proof.
  intros Hk Pk Hj. induction n as [|n IH]; [lia|]. rewrite find_seq_S.
  destruct (decide (k = n)) as [->|Hne].
  - assert (E : find p (seq 0 n) = None).
    { rewrite (find_seq_ext p (fun _ => false)) by (intros; apply Hj; lia). clear. by induction (seq 0 n). }
    by rewrite E, Pk.
  - by rewrite IH by (try lia; intros; apply Hj; lia).
Qed.

Lemma find_seq_None p n k : find p (seq 0 n) = None -> (k < n)%nat -> p k = false.
Proof.
  intros E Hk. eapply find_none in E; [exact E|]. apply in_seq. lia.
Qed.

Section Dir.
Variable pid : Z.
Variable out : Z.
Variable sb : superblock.
Hypothesis G : geom sb.
Context {devsw : DevSw}.
Implicit Types (ic : list inode) (c : Z -> bdata) (H : gmap nat (Z * bdata)) (D : gset Z) (i : inode).

Abbreviation Tx := (Tx pid out sb).
Abbreviation cwf := (cwf sb).
Abbreviation fwf := (fwf sb).
Abbreviation map_blocks := (map_blocks sb).

Lemma iget_ok ic c H D s dev inum ip ic' :
  Tx ic c H D s -> iget_ic ic dev inum = Some (ip, ic') ->
  returns (iget dev inum) s (fun r s' => r = ip /\ Tx ic' c H D s').
Proof using.
  intros T. unfold iget, iget_ic. intros E. apply returns_get. rewrite (T_ic _ _ _ _ _ _ _ _ T).
  destruct (find_idx _ 0 ic) as [jp|].
  - injection E as <- <-. apply returns_modify, returns_ret. split; [done|]. by apply Tx_updi.
  - destruct (find_idx (fun i => i_ref i =? 0) 0 ic) as [jp|]; simpl in E; [|done].
    injection E as <- <-. apply returns_modify, returns_ret. split; [done|]. by apply Tx_updi.
Qed.

(** A directory in memory. *)
Record dwf c i : Prop := Dwf {
  dw_fwf : fwf c i;
  dw_type : i_type i = T_DIR;
  dw_size : i_size i mod 16 = 0 }.

Lemma dw_bound c i : dwf c i -> 0 <= i_size i <= 71680.
Proof. intros [[_ [Hs _] _ _ _] _ _]. rewrite MAXFILE_val, BSIZE_val in Hs. lia. Qed.

Lemma read_entry ic c D s dp i k :
  Tx ic c ∅ D s -> ic !! dp = Some i -> cwf c -> dwf c i -> (size D <= 24)%nat -> (k < nentries i)%nat ->
  returns (readi pid dp (16 * Z.of_nat k) DIRENT_SIZE) s
    (fun r s' => r = (DIRENT_SIZE, entry c i k) /\ Tx ic c ∅ D s').
Proof using G.
  intros T Hdp C W HD Hk. pose proof (dw_bound _ _ W). destruct W as [[W N R S Ht] Hty Hmod].
  unfold nentries in Hk. rewrite DIRENT_SIZE_val.
  rlast readi_ok; [done|done|done|done|done|done|done|done|zlia|zlia|].
  intros r s' [-> T']. split; [|done]. unfold entry.
  replace (Z.min 16 (i_size i - 16 * Z.of_nat k)) with 16 by zlia. done.
Qed.

Lemma de_offs_seq i : i_size i mod 16 = 0 -> 0 <= i_size i ->
  de_offs (i_size i) = (fun k => 16 * Z.of_nat k) <$> seq 0 (nentries i).
Proof using.
  intros. unfold de_offs, nentries. rewrite DIRENT_SIZE_val.
  by replace ((i_size i + 16 - 1) / 16) with (i_size i / 16) by zlia.
Qed.

(** The result of a lookup whose entry is [found]: the inode referenced in the cache. *)
Definition lookup_post ic c D i (found : option nat) (r : option (nat * Z)) (s' : fsst) : Prop :=
  match found with
  | None => r = None /\ Tx ic c ∅ D s'
  | Some k => exists ip ic', iget_ic ic 1 (de_inum (entry c i k)) = Some (ip, ic') /\
      r = Some (ip, 16 * Z.of_nat k) /\ Tx ic' c ∅ D s'
  end.

(** There is room in the cache for the inode of a found entry. *)
Definition can_get ic c i (found : option nat) : Prop :=
  forall k, found = Some k -> is_Some (iget_ic ic 1 (de_inum (entry c i k))).

Lemma dirlookup_loop_ok ic c D dp i name ks : forall s,
  Tx ic c ∅ D s -> ic !! dp = Some i -> cwf c -> dwf c i -> (size D <= 24)%nat ->
  Forall (fun k => (k < nentries i)%nat) ks ->
  let found := find (fun k => names name (entry c i k)) ks in
  can_get ic c i found ->
  returns (dirlookup_loop pid dp name ((fun k => 16 * Z.of_nat k) <$> ks)) s
    (lookup_post ic c D i found).
Proof using G.
  induction ks as [|k ks IH]; intros s T Hdp C W HD F found Hg.
  { by apply returns_ret. }
  apply Forall_cons in F as [Fk F]. unfold found in *. clear found.
  cbn [fmap list_fmap find dirlookup_loop] in *.
  assert (En : names name (entry c i k) = negb (de_inum (entry c i k) =? 0) &&
    (namecmp name (de_name (entry c i k)) =? 0)) by done.
  rewrite En in Hg |- *. clear En.
  rstep read_entry; [done..|]. intros r s1 [-> T1]. cbn [fst snd].
  rewrite Z.eqb_refl. cbn [negb].
  destruct (Z.eqb_spec (de_inum (entry c i k)) 0) as [E0|E0]; cbn [negb andb] in *.
  { by apply IH. }
  destruct (Z.eqb_spec (namecmp name (de_name (entry c i k))) 0) as [E1|E1]; [|by apply IH].
  destruct (Hg k eq_refl) as [[ip ic'] Hi].
  apply returns_gets. rewrite (Tx_geti _ _ _ _ _ _ _ _ _ T1), Hdp. simpl default.
  rewrite (w_dev _ _ _ (fw_iwf _ _ _ (dw_fwf _ _ W))).
  rstep iget_ok; [done|done|]. intros r s2 [-> T2]. apply returns_ret. exists ip, ic'. done.
Qed.

Lemma dirlookup_ok ic c D s dp i name :
  Tx ic c ∅ D s -> ic !! dp = Some i -> cwf c -> dwf c i -> (size D <= 24)%nat ->
  can_get ic c i (dir_index c i name) ->
  returns (dirlookup pid dp name) s (lookup_post ic c D i (dir_index c i name)).
Proof using G.
  intros T Hdp C W HD Hg. pose proof (dw_bound _ _ W). unfold dirlookup. apply returns_gets.
  rewrite (Tx_geti _ _ _ _ _ _ _ _ _ T), Hdp. simpl default.
  rewrite (proj2 (Z.eqb_eq _ _) (dw_type _ _ W)). cbn [negb].
  rewrite (de_offs_seq i (dw_size _ _ W)) by lia. apply dirlookup_loop_ok; try done.
  apply Forall_seq. intros. lia.
Qed.

(** ** [dirlink] *)

Definition empty_slot c i (k : nat) : bool := de_inum (entry c i k) =? 0.
(** The entry [dirlink] writes: the first empty one, or a new one at the end. *)
Definition slot_for c i : nat := default (nentries i) (find (empty_slot c i) (seq 0 (nentries i))).

Lemma dirlink_loop_ok ic c D dp i m : forall k0 s,
  Tx ic c ∅ D s -> ic !! dp = Some i -> cwf c -> dwf c i -> (size D <= 24)%nat ->
  (k0 + m = nentries i)%nat ->
  returns (dirlink_loop pid dp ((fun k => 16 * Z.of_nat k) <$> seq k0 m) (16 * Z.of_nat k0)) s
    (fun r s' => r = 16 * Z.of_nat (default (nentries i) (find (empty_slot c i) (seq k0 m))) /\
       Tx ic c ∅ D s').
Proof using G.
  induction m as [|m IH]; intros k0 s T Hdp C W HD Hk; cbn [fmap list_fmap find dirlink_loop seq].
  { apply returns_ret. simpl. split; [lia|done]. }
  rstep read_entry; [done|done|done|done|done|lia|]. intros r s1 [-> T1]. cbn [fst snd].
  rewrite Z.eqb_refl. cbn [negb]. unfold empty_slot at 1.
  destruct (de_inum (entry c i k0) =? 0); [by apply returns_ret|].
  rewrite DIRENT_SIZE_val. replace (16 * Z.of_nat k0 + 16) with (16 * Z.of_nat (S k0)) by lia.
  apply IH; (done || lia).
Qed.

(** The entries after one of them has been written. *)
Lemma entry_written c i c' i' k de k' :
  length de = 16%nat -> (k' < nentries i')%nat -> 0 <= i_size i' ->
  (forall o, 0 <= o < i_size i' -> fbyte c' i' o =
     if decide (16 * Z.of_nat k <= o < 16 * Z.of_nat k + 16)
     then default 0 (de !! Z.to_nat (o - 16 * Z.of_nat k)) else fbyte c i o) ->
  entry c' i' k' = if decide (k' = k) then de else entry c i k'.
Proof using.
  intros Hl Hk Hs Hb. unfold nentries in Hk.
  assert (Hr : forall j, (j < 16)%nat -> 0 <= 16 * Z.of_nat k' + Z.of_nat j < i_size i') by (intros; zlia).
  apply list_eq. intros j. destruct (decide (j < 16)%nat) as [Hj|Hj].
  - unfold entry at 1. rewrite lookup_fbytes, Hb by (done || by apply Hr).
    destruct (decide (k' = k)) as [->|Hne].
    + rewrite decide_True by lia. destruct (lookup_lt_is_Some_2 de j) as [v Hv]; [lia|].
      replace (Z.to_nat (16 * Z.of_nat k + Z.of_nat j - 16 * Z.of_nat k)) with j by lia. by rewrite Hv.
    + rewrite decide_False by lia. unfold entry. by rewrite lookup_fbytes.
  - unfold entry at 1. rewrite lookup_ge_None_2 by (rewrite length_fbytes; lia). symmetry.
    apply lookup_ge_None_2. destruct (decide _); [lia|]. unfold entry. rewrite length_fbytes. lia.
Qed.

Lemma names_dirent nm name inum :
  0 < inum < 65536 -> names nm (dirent inum name) = bool_decide (canon nm = canon name).
Proof using.
  intros Hi. unfold names. rewrite de_inum_dirent, de_name_dirent, (proj2 (Z.eqb_neq inum 0)) by lia.
  simpl. apply eq_true_iff_eq. rewrite Z.eqb_eq, namecmp_eq, bool_decide_eq_true, canon_canon. done.
Qed.

Lemma slot_cases c i :
  let k := slot_for c i in
  (k < nentries i)%nat /\ de_inum (entry c i k) = 0 \/ k = nentries i.
Proof using.
  unfold slot_for. destruct (find _ _) as [k|] eqn:E; simpl; [left|by right].
  apply find_some in E as [Hin He]. apply in_seq in Hin. unfold empty_slot in He. lia.
Qed.

(** The directory after entry [slot_for] has become (name, inum). *)
Lemma dir_find_linked c i c' i' name inum :
  let k := slot_for c i in
  0 < inum < 65536 -> nentries i' = Nat.max (nentries i) (S k) ->
  (forall k', (k' < nentries i')%nat ->
     entry c' i' k' = if decide (k' = k) then dirent inum name else entry c i k') ->
  dir_index c i name = None ->
  dir_find c' i' name = Some inum /\
  forall nm, canon nm <> canon name -> dir_find c' i' nm = dir_find c i nm.
Proof using.
  intros k Hi Hn He Hnone. pose proof (slot_cases c i) as Hs. cbv zeta in Hs. fold k in Hs. split.
  - unfold dir_find, dir_index. rewrite (find_seq_only _ _ k).
    + simpl. rewrite He, decide_True by (done || lia). by rewrite de_inum_dirent by lia.
    + lia.
    + rewrite He, decide_True, names_dirent by (done || lia). by apply bool_decide_eq_true.
    + intros j Hj Hne. rewrite He, decide_False by done.
      apply (find_seq_None _ _ j Hnone). lia.
  - intros nm Hne.
    assert (Hold : forall k', (k' < nentries i)%nat -> names nm (entry c' i' k') = names nm (entry c i k')).
    { intros k' Hk'. rewrite He by lia. destruct (decide (k' = k)) as [->|]; [|done].
      rewrite names_dirent, bool_decide_eq_false_2 by done. destruct Hs as [[_ E0]|Hs]; [|lia].
      unfold names. by rewrite E0. }
    assert (Ei : dir_index c' i' nm = dir_index c i nm).
    { unfold dir_index. rewrite <- (find_seq_ext _ _ (nentries i) Hold). destruct Hs as [[Hk _]|Hk].
      - by rewrite Hn, Nat.max_l by lia.
      - rewrite Hn, Nat.max_r, Hk, find_seq_S by lia. rewrite He, decide_True, names_dirent by (done || lia).
        rewrite bool_decide_eq_false_2 by done. by destruct (find _ _). }
    unfold dir_find. rewrite Ei. destruct (dir_index c i nm) as [k'|] eqn:E; [|done]. simpl. f_equal.
    apply find_some in E as [Hin Hnm]. apply in_seq in Hin. rewrite He by lia.
    destruct (decide (k' = k)) as [->|]; [|done]. destruct Hs as [[_ E0]|]; [|lia].
    unfold names in Hnm. by rewrite E0 in Hnm.
Qed.

Lemma nblk_entry k : nblk (16 * Z.of_nat k) 16 = 1%nat.
Proof. unfold nblk. rewrite BSIZE_val. simpl Z.eqb. cbv iota. zlia. Qed.

Lemma dirlink_ok ic c D s dp i name inum :
  Tx ic c ∅ D s -> ic !! dp = Some i -> cwf c -> dwf c i -> dir_index c i name = None ->
  0 < inum < 65536 -> 16 * Z.of_nat (slot_for c i) + 16 <= MAXFILE * BSIZE ->
  can_write sb c i (16 * Z.of_nat (slot_for c i)) 16 -> (size (D ∪ map_blocks) <= 21)%nat ->
  returns (dirlink pid dp name inum) s (fun r s' => r = 0 /\ exists c' i' D',
    Tx (<[dp := i']> ic) c' ∅ D' s' /\ cwf c' /\ dwf c' i' /\
    dir_find c' i' name = Some inum /\
    (forall nm, canon nm <> canon name -> dir_find c' i' nm = dir_find c i nm) /\
    (forall inum j, 0 <= inum < sb_ninodes sb -> inum <> i_inum i -> dinode sb c' inum j = dinode sb c inum j) /\
    (size D' <= size (D ∪ map_blocks) + 3)%nat).
Proof using G.
  intros T Hdp C W Hnone Hi HM Hcan Hsz. pose proof (dw_bound _ _ W).
  assert (HD : (size D <= 24)%nat) by (pose proof (subseteq_size D (D ∪ map_blocks) ltac:(set_solver)); lia).
  set (k := slot_for c i) in *. pose proof (slot_cases c i) as Hs. cbv zeta in Hs. fold k in Hs.
  assert (Hk16 : 0 <= 16 * Z.of_nat k <= i_size i).
  { pose proof (dw_size _ _ W). unfold nentries in Hs. zlia. }
  unfold dirlink. rstep dirlookup_ok; [done|done|done|done|done|by rewrite Hnone; intros ?|].
  rewrite Hnone. intros r s1 [-> T1]. apply returns_gets.
  rewrite (Tx_geti _ _ _ _ _ _ _ _ _ T1), Hdp. simpl default.
  rewrite (de_offs_seq i (dw_size _ _ W)) by lia. change 0 with (16 * Z.of_nat 0) at 1.
  rstep dirlink_loop_ok; [done|done|done|done|done|done|]. intros off s2 [-> T2].
  fold (slot_for c i). fold k.
  assert (Hl : Z.of_nat (length (dirent inum name)) = 16) by by rewrite length_dirent.
  rstep (writei_ok pid out sb G ic c D s2 dp i); [done|done|done|apply W|done|by rewrite Hl|by rewrite Hl| |].
  { rewrite Hl, nblk_entry. lia. }
  intros r s3 [-> (c' & i' & D' & T' & C' & F' & Ei & Hb & Hd & Hs')]. rewrite Hl in *.
  rewrite DIRENT_SIZE_val. apply returns_ret. split; [done|]. exists c', i', D'.
  assert (Es : i_size i' = Z.max (i_size i) (16 * Z.of_nat k + 16)) by by rewrite Ei.
  assert (Hn' : nentries i' = Nat.max (nentries i) (S k)) by (unfold nentries; rewrite Es; zlia).
  split; [done|]. split; [done|]. split; [|].
  { split; [done|rewrite Ei; exact (dw_type _ _ W)|]. rewrite Es. pose proof (dw_size _ _ W). zlia. }
  destruct (dir_find_linked c i c' i' name inum) as [Hf1 Hf2]; [done|done| |done|].
  { intros k' Hk'. apply entry_written; [by rewrite length_dirent|done|lia|done]. }
  split; [done|]. split; [done|]. split; [done|]. rewrite nblk_entry in Hs'. lia.
Qed.
End Dir.

(** ** Path elements *)

(** The elements of a path. *)
Fixpoint elements (path : list Z) : list (list Z) :=
  match path with
  | [] => []
  | c :: path' =>
      if c =? SLASH then elements path'
      else match path' with
           | [] => [[c]]
           | d :: _ => if d =? SLASH then [c] :: elements path'
                       else match elements path' with
                            | e :: es => (c :: e) :: es
                            | [] => [[c]]
                            end
           end
  end.

Lemma elements_slashes path : elements (skip_slashes path) = elements path.
Proof. induction path as [|c path IH]; simpl; [done|]. destruct (c =? SLASH) eqn:E; [done|]. simpl. by rewrite E. Qed.

Lemma span_elem_elements c path e r :
  c <> SLASH -> span_elem (c :: path) = (e, r) -> elements (c :: path) = e :: elements r.
Proof.
  revert c e. induction path as [|d path IH]; intros c e Hc; cbn [span_elem elements].
  - rewrite (proj2 (Z.eqb_neq c SLASH)) by done. intros [= <- <-]. done.
  - rewrite (proj2 (Z.eqb_neq c SLASH)) by done. destruct (Z.eqb_spec d SLASH) as [->|Hd].
    + intros [= <- <-]. simpl. done.
    + specialize (IH d). cbn [span_elem elements] in IH.
      rewrite (proj2 (Z.eqb_neq d SLASH)) in IH by done.
      destruct (span_elem path) as [e' r']. intros [= <- <-]. by rewrite (IH _ Hd eq_refl).
Qed.

(** [skipelem] takes the elements of a path off one by one, each cut to 14 bytes; the rest
    has no leading slash, and is shorter, so the loop of [namex] ends. *)
Lemma skipelem_spec path :
  match skipelem path with
  | None => elements path = []
  | Some (name, rest) => exists e, elements path = e :: elements rest /\ e <> [] /\
      name = take 14 e /\ (length rest < length path)%nat /\ (rest = [] <-> elements rest = [])
  end.
Proof.
  unfold skipelem. rewrite <- (elements_slashes path).
  assert (Hl : forall p, (length (skip_slashes p) <= length p)%nat).
  { induction p as [|d p IH]; simpl; [done|]. destruct (d =? SLASH); simpl; lia. }
  assert (Hh : forall p d q, skip_slashes p = d :: q -> d <> SLASH).
  { induction p as [|x p IH]; simpl; [done|]. intros d q. destruct (Z.eqb_spec x SLASH); [apply IH|].
    by intros [= <- _]. }
  assert (Hsp : forall p e r, span_elem p = (e, r) -> (length e + length r = length p)%nat).
  { induction p as [|d p IH]; intros e r; simpl; [by intros [= <- <-]|].
    destruct (d =? SLASH); [by intros [= <- <-]|]. destruct (span_elem p) as [e' r'].
    intros [= <- <-]. simpl. by rewrite (IH _ _ eq_refl). }
  specialize (Hl path) as Hlp. pose proof (Hh path) as Hhp. destruct (skip_slashes path) as [|c s] eqn:E; [done|].
  specialize (Hhp _ _ eq_refl). destruct (span_elem (c :: s)) as [e r] eqn:Es.
  exists e. rewrite (span_elem_elements _ _ _ _ Hhp Es), <- (elements_slashes r).
  assert (He : e <> []).
  { cbn [span_elem] in Es. rewrite (proj2 (Z.eqb_neq c SLASH)) in Es by done.
    destruct (span_elem s). by injection Es as <- _. }
  pose proof (Hsp _ _ _ Es) as Hlen. specialize (Hl r).
  split; [done|]. split; [done|]. split; [done|]. split.
  - destruct e; [done|]. simpl in *. lia.
  - split; [by intros ->|]. destruct (skip_slashes r) as [|d q] eqn:Er; [done|]. intros Hnil.
    destruct (span_elem (d :: q)) as [e' r'] eqn:Es'.
    rewrite (span_elem_elements _ _ _ _ (Hh _ _ _ Er) Es') in Hnil. done.
Qed.
