(* ===== verification/FsSpec.v ===== *)
(** * What the file system promises

    The theorems about the operations of fs.c inside a transaction, and a small file
    system on which they are exercised. *)

From stdpp Require Import base tactics numbers list sets gmap strings.
From Stdlib Require Import ZArith Lia ZifyNat.
From S2P Require Import Prelude Layout Sleeplock Bio BioSpec Log LogSpec LogCrash LogOps Fs FsTx FsBlocks FsFile FsRw FsInode FsDir.

(** ** A file system of 64 blocks

    Boot block, super block, 30 blocks of log, 2 of inodes, 1 of map, 29 of data. Inode 1
    is an empty directory, inode 2 an empty file; both are in the inode cache. *)
Definition small_sb : superblock := Superblock 64 29 8 30 2 32 34.

Definition small_inode (inum type : Z) : inode :=
  Inode 1 inum 1 (SleepLock 1 "inode" 7) 1 type 0 0 1 0 (replicate 13 0).
Definition small_dir : inode := small_inode 1 T_DIR.
Definition small_file : inode := small_inode 2 T_FILE.
Definition small_icache : list inode := [small_dir; small_file] ++ replicate 48 zero_inode.

Definition small_inodes : bdata :=
  store_dinode (dinode_at 2) small_file (store_dinode (dinode_at 1) small_dir zero_block).
Definition small_map : bdata := [255; 255; 255; 255; 7] ++ replicate 507 0.
Definition small_disk : list bdata :=
  replicate 32 zero_block ++ [small_inodes; zero_block; small_map] ++ replicate 29 zero_block.

Definition small_fs : fsst :=
  FsSt (LogSt 2 LOGSIZE 1 0 1 (LogHeader 0 (replicate (Z.to_nat LOGSIZE) 0))
         (BState (booted <$> seq 0 (S NBUF)) small_disk []))
    small_sb small_icache.

(** No device is installed. *)
Definition no_devices : DevSw := Build_DevSw (fun _ => None) (fun _ => None).

Lemma small_geom : geom small_sb.
Proof. split; try split; by vm_compute. Qed.

Lemma small_blocks : Forall (fun x : bdata => length x = Z.to_nat BSIZE) small_disk.
Proof. unfold small_disk. repeat (apply Forall_app; split); [by apply Forall_replicate| |by apply Forall_replicate].
  by repeat (apply Forall_cons; split; [by vm_compute|]).
Qed.

Lemma small_blk_length n : 0 <= n < 64 -> length (blk small_disk n) = Z.to_nat BSIZE.
Proof.
  intros Hn. apply blk_length; [apply small_blocks|].
  assert (E : Z.of_nat (length small_disk) = 64) by by vm_compute. unfold in_disk. lia.
Qed.

Lemma small_tx pid : Tx pid 1 small_sb small_icache (blk small_disk) ∅ ∅ small_fs.
Proof.
  split; [done|done| | |].
  - exists (AState small_disk ∅ []). split; [|split; [|split; [|split]]].
    + destruct (binit_ok pid small_disk [] small_blocks) as (s & E & R & _).
      rewrite binit_run in E. injection E as <-. exact R.
    + split; [done|by vm_compute|done|by vm_compute| | |by vm_compute].
      * intros i Hi. simpl in Hi. lia.
      * intros m. simpl. rewrite lookup_empty. split; [by intros [? ?]|]. intros (i & Hi & _). lia.
    + intros n. unfold view. simpl. by rewrite lookup_empty.
    + simpl. by rewrite dom_empty_L.
    + by vm_compute.
  - split; [done|]. split; [done|]. split; [done|]. by vm_compute.
  - intros n Hn. apply small_blk_length. exact Hn.
Qed.

Lemma small_used b : 0 <= b < 64 -> used small_sb (blk small_disk) b = (b <? 35).
Proof.
  intros Hb. assert (F : forallb (fun k => Bool.eqb (used small_sb (blk small_disk) (Z.of_nat k)) (Z.of_nat k <? 35))
    (seq 0 64) = true) by by vm_compute.
  rewrite forallb_forall in F. specialize (F (Z.to_nat b)). rewrite Z2Nat.id in F by lia.
  apply eqb_prop, F, in_seq. lia.
Qed.

Lemma small_cwf : cwf small_sb (blk small_disk).
Proof.
  split.
  - intros n Hn. apply small_blk_length. exact Hn.
  - intros b Hb. change (data_start small_sb) with 35 in Hb. rewrite small_used by lia. lia.
Qed.

Lemma default_zeros n k : default 0 (replicate n 0 !! k) = 0.
Proof. destruct (replicate n 0 !! k) eqn:E; [|done]. by apply lookup_replicate in E as [-> _]. Qed.

Lemma small_fblk inum type bn : fblk (blk small_disk) (small_inode inum type) bn = 0.
Proof.
  unfold fblk, ind, addr_of, small_inode. cbn [i_addrs]. rewrite !default_zeros. by destruct (bn <? NDIRECT).
Qed.

Lemma small_fwf inum type :
  type <> T_DEV -> 0 <= inum < 8 -> -32768 <= type < 32768 ->
  synced small_sb (blk small_disk) (small_inode inum type) ->
  fwf small_sb (blk small_disk) (small_inode inum type).
Proof.
  intros Ht Hi Hr Hs. split; [| | |done|done].
  - split; [done|done|done| | |]; try (intros bn; rewrite small_fblk; done).
    intros Hn. by destruct Hn.
  - split; [simpl; by vm_compute|]. intros bn Hn Hb. rewrite BSIZE_val in Hb. simpl in Hb. lia.
  - split; try done. intros k _. unfold small_inode. cbn [i_addrs]. rewrite default_zeros. lia.
Qed.

Lemma small_file_fwf : fwf small_sb (blk small_disk) small_file.
Proof. apply small_fwf; [done|lia|by vm_compute|by vm_compute]. Qed.

Lemma small_dir_dwf : dwf small_sb (blk small_disk) small_dir.
Proof. split; [|done|done]. apply small_fwf; [done|lia|by vm_compute|by vm_compute]. Qed.

Lemma small_free r : (r <= 29)%nat -> has_free small_sb (blk small_disk) r.
Proof.
  intros Hr. exists (list_to_set ((fun k => 35 + Z.of_nat k) <$> seq 0 29)). split.
  - rewrite size_list_to_set; [by rewrite length_fmap, length_seq|].
    apply NoDup_fmap_2_strong; [intros; lia|apply NoDup_seq].
  - intros b Hb. apply elem_of_list_to_set, list_elem_of_fmap in Hb as (k & -> & Hk%elem_of_seq).
    change (sb_size small_sb) with 64. split; [lia|]. rewrite small_used by lia. lia.
Qed.

(** ** Theorems *)

Section Specs.
Variable pid : Z.
Variable out : Z.
Variable sb : superblock.
Context {devsw : DevSw}.
Implicit Types (ic : list inode) (c : Z -> bdata) (H : gmap nat (Z * bdata)) (D : gset Z) (i : inode).

(** C3. Inside a transaction [writei] of bytes that fit the file size limit returns their
    number; reading the same range with [readi] then returns the same bytes, every other
    byte of the file and every other inode on disk is unchanged, the size is the larger of
    the old one and the end of the write, the inode on disk agrees with the one in memory,
    and the blocks of the file are again its own, used and without holes. *)
Theorem file_write_read ic c D s ip i src off :
  let n := Z.of_nat (length src) in
  geom sb -> Tx pid out sb ic c ∅ D s -> ic !! ip = Some i -> cwf sb c -> fwf sb c i ->
  0 <= off <= i_size i -> off + n <= MAXFILE * BSIZE -> can_write sb c i off n ->
  (size (D ∪ map_blocks sb) + nblk off n <= 22)%nat ->
  returns (let! w := writei pid ip src off in
           let! r := readi pid ip off n in m_ret (w, r)) s
    (fun x s' => x = (n, (n, src)) /\ exists c' i' D',
       Tx pid out sb (<[ip := i']> ic) c' ∅ D' s' /\ cwf sb c' /\ fwf sb c' i' /\
       i' = set_i_size (Z.max (i_size i) (off + n)) (set_i_addrs (i_addrs i') i) /\
       (forall o, 0 <= o < i_size i -> ~ (off <= o < off + n) -> fbyte c' i' o = fbyte c i o) /\
       (forall inum j, 0 <= inum < sb_ninodes sb -> inum <> i_inum i ->
          dinode sb c' inum j = dinode sb c inum j)).
Proof.
  intros n G T Hip C F Ho HM Hcan Hsz. rstep writei_ok; [done..|].
  intros w s1 [-> (c' & i' & D' & T' & C' & F' & Ei & Hb & Hd & Hs)]. fold n in Ei, Hb, Hs.
  assert (Es : i_size i' = Z.max (i_size i) (off + n)) by by rewrite Ei.
  pose proof HM as HM'. rewrite BSIZE_val, MAXFILE_val in HM'.
  rstep (readi_ok pid out sb G (<[ip := i']> ic) c' D' ip i');
    [done| |done|apply F'|apply F'|lia|exact (fw_type _ _ _ F')|lia|lia|].
  { apply list_lookup_insert_eq. by eapply lookup_lt_Some. }
  intros r s2 [-> T2]. apply returns_ret.
  replace (Z.min n (i_size i' - off)) with n by lia. split.
  - do 2 f_equal. apply list_eq. intros k. destruct (decide (k < length src)%nat) as [Hk|Hk].
    + rewrite lookup_fbytes, Hb, decide_True by lia.
      replace (Z.to_nat (off + Z.of_nat k - off)) with k by lia.
      destruct (lookup_lt_is_Some_2 src k Hk) as [v ->]. done.
    + rewrite !lookup_ge_None_2; [done|lia|rewrite length_fbytes; lia].
  - exists c', i', D'. do 4 (split; [done|]). split; [|done].
    intros o Hr Hn. rewrite Hb, decide_False by (done || lia). done.
Qed.

(** C4. In a directory without the name, [dirlink] writes an entry for it, reusing the first
    empty entry or extending the directory; [dirlookup] then finds exactly that inode
    number, and every other name is found as before. Names are compared on their first 14
    bytes. *)
Theorem dirlink_dirlookup ic c D s dp i name inum :
  geom sb -> Tx pid out sb ic c ∅ D s -> ic !! dp = Some i -> cwf sb c -> dwf sb c i ->
  dir_index c i name = None -> 0 < inum < 65536 ->
  16 * Z.of_nat (slot_for c i) + 16 <= MAXFILE * BSIZE ->
  can_write sb c i (16 * Z.of_nat (slot_for c i)) 16 -> (size (D ∪ map_blocks sb) <= 21)%nat ->
  (forall i', is_Some (iget_ic (<[dp := i']> ic) 1 inum)) ->
  returns (let! r := dirlink pid dp name inum in
           let! x := dirlookup pid dp name in m_ret (r, x)) s
    (fun y s' => exists ip off c' i' ic' D', y = (0, Some (ip, off)) /\
       iget_ic (<[dp := i']> ic) 1 inum = Some (ip, ic') /\
       Tx pid out sb ic' c' ∅ D' s' /\ cwf sb c' /\ dwf sb c' i' /\
       dir_find c' i' name = Some inum /\
       (forall nm, canon nm <> canon name -> dir_find c' i' nm = dir_find c i nm)).
Proof.
  intros G T Hdp C W Hnone Hi HM Hcan Hsz Hg.
  rstep dirlink_ok; [done..|].
  intros r s1 [-> (c' & i' & D' & T' & C' & W' & Hf & Hother & _ & Hs)].
  unfold dir_find in Hf. destruct (dir_index c' i' name) as [k|] eqn:Ek; [|done].
  simpl in Hf. injection Hf as Hf.
  rstep (dirlookup_ok pid out sb G (<[dp := i']> ic) c' D'); [done| |done|done|lia| |].
  { apply list_lookup_insert_eq. by eapply lookup_lt_Some. }
  { rewrite Ek. intros k' [= <-]. rewrite Hf. apply Hg. }
  rewrite Ek. intros x s2 (ip & ic' & Hget & -> & T2). apply returns_ret. rewrite Hf in Hget.
  exists ip, (16 * Z.of_nat k), c', i', ic', D'. do 5 (split; [done|]). split; [|done].
  unfold dir_find. rewrite Ek. simpl. by rewrite Hf.
Qed.

(** [balloc] returns the lowest free block, marks exactly it as used and zeroes it,
    touching no other data or inode block; [bfree] of that block gives the free map back
    as it was. *)
Theorem balloc_bfree ic c D s :
  geom sb -> Tx pid out sb ic c ∅ D s -> cwf sb c -> has_free sb c 1 -> (size D <= 24)%nat ->
  returns (balloc pid 1) s (fun b s' => exists c' D',
    is_data sb b /\ used sb c b = false /\ (forall b', 0 <= b' < b -> used sb c b' = true) /\
    Tx pid out sb ic c' ∅ D' s' /\ c' b = zero_block /\
    (forall b', 0 <= b' < sb_size sb -> used sb c' b' = used sb c b' || (b =? b')) /\
    (forall n, n <> b -> is_data sb n \/ n < sb_bmapstart sb -> c' n = c n) /\
    returns (bfree pid 1 b) s' (fun _ s2 => exists c2 D2, Tx pid out sb ic c2 ∅ D2 s2 /\
      forall b', 0 <= b' < sb_size sb -> used sb c2 b' = used sb c b')).
Proof.
  intros G T C Hf HD. rlast balloc_none; [done..|].
  intros b s' (Hd & Hu & Hlow & T'). pose proof (is_data_range sb G b Hd) as Hr.
  assert (C' : cwf sb (alloc_view sb b c)) by by apply cwf_alloc.
  exists (alloc_view sb b c), (alloc_log sb b D). do 4 (split; [done|]).
  split; [apply alloc_view_eq|]. split; [intros; by apply used_alloc_view|]. split.
  { intros n Hne [Hn|Hn]; [by apply alloc_view_data|by apply alloc_view_low]. }
  assert (Hs : (size (alloc_log sb b D) <= 26)%nat).
  { unfold alloc_log. pose proof (size_add (BBLOCK b sb) D). pose proof (size_add b (D ∪ {[BBLOCK b sb]})). lia. }
  rlast bfree_ok; [done|done|by intros k n x|done| |rewrite map_size_empty; unfold NBUF; lia|lia|].
  { rewrite used_alloc_view by (done || lia). rewrite Z.eqb_refl. apply orb_true_r. }
  intros _ s2 T2. eexists _, _. split; [exact T2|]. intros b' Hb'.
  rewrite used_mark_free, used_alloc_view; try done; [|apply C'|lia|lia].
  destruct (Z.eqb_spec b b') as [<-|]; simpl; [by rewrite Hu|]. by rewrite orb_false_r, andb_true_r.
Qed.

(** The inode cache holds an inode at most once: [iget] returns an entry for exactly the
    inode asked for with one more reference, the same entry to everyone who holds a
    reference already, and leaves the entries of other inodes alone. It panics only when
    the inode is not cached and every entry is in use. *)
Theorem iget_spec ic c H D s dev inum :
  Tx pid out sb ic c H D s -> icache_ok ic ->
  match iget_ic ic dev inum with
  | Some (ip, ic') =>
      returns (iget dev inum) s (fun r s' => r = ip /\ Tx pid out sb ic' c H D s') /\ icache_ok ic' /\
      (exists i i', ic !! ip = Some i /\ ic' !! ip = Some i' /\ i_ref i' = i_ref i + 1 /\
         i_dev i' = dev /\ i_inum i' = inum /\ (0 < i_ref i -> i' = set_i_ref (i_ref i + 1) i)) /\
      (forall jp j, ic !! jp = Some j -> 0 < i_ref j -> i_dev j = dev -> i_inum j = inum -> jp = ip) /\
      (forall jp, jp <> ip -> ic' !! jp = ic !! jp)
  | None => iget dev inum s = Panic "iget: no inodes" /\
      (forall jp j, ic !! jp = Some j -> i_ref j <> 0 /\ (i_dev j <> dev \/ i_inum j <> inum \/ i_ref j < 0))
  end.
Proof.
  intros T O. destruct (iget_ic ic dev inum) as [[ip ic']|] eqn:E.
  - destruct (iget_ic_ok _ _ _ _ _ O E) as (O' & (i & i' & H1 & H2 & H3 & H4 & H5 & H6) & Hother).
    split; [by eapply iget_ok|]. split; [done|]. split; [by exists i, i'|]. split; [|done].
    intros jp j Hj Rj Ed En. destruct (decide (jp = ip)) as [|Hne]; [done|].
    apply (io_one _ O' jp ip j i'); [by rewrite Hother|done|done| |congruence|congruence].
    pose proof (io_ref _ O _ _ H1). lia.
  - unfold iget_ic in E. destruct (find_idx _ 0 ic) eqn:E1; [done|].
    destruct (find_idx (fun i => i_ref i =? 0) 0 ic) eqn:E2; [done|].
    pose proof (T_ic _ _ _ _ _ _ _ _ T) as Eic. split.
    + unfold iget. mstep. rewrite Eic, E1, E2. done.
    + intros jp j Hj. pose proof (find_idx_None _ _ _ E1 _ _ Hj) as N1.
      pose proof (find_idx_None _ _ _ E2 _ _ Hj) as N2. simpl in N1, N2.
      apply andb_false_iff in N1 as [[?|?]%andb_false_iff|?]; lia.
Qed.

(** [iupdate] followed by a reload of the cache entry with [ilock], as after the entry
    has been recycled, gives back every field of the inode that lives on disk, and the
    lock to the caller. *)
Theorem iupdate_ilock ic c D s ip i :
  geom sb -> Tx pid out sb ic c ∅ D s -> ic !! ip = Some i -> cwf sb c -> iwf sb c i -> irange i ->
  (size D <= 27)%nat -> 1 <= i_ref i -> unlocked (i_lock i) -> i_type i <> 0 ->
  returns (iupdate pid ip ;;;
           modify (updi ip (fun i => Inode (i_dev i) (i_inum i) (i_ref i) (i_lock i) 0 0 0 0 0 0 [])) ;;;
           ilock pid ip) s
    (fun _ s' => exists D', Tx pid out sb
       (<[ip := set_i_valid 1 (locked pid i)]> ic)
       (update_view sb i c) ∅ D' s').
Proof.
  intros G T Hip C W R HD Href Hl Ht. rstep iupdate_ok; [done|done|done|done|lia|]. intros _ s1 T1. apply returns_modify.
  set (j := Inode (i_dev i) (i_inum i) (i_ref i) (i_lock i) 0 0 0 0 0 0 []).
  assert (Hlt : (ip < length ic)%nat) by by eapply lookup_lt_Some.
  apply (Tx_updi _ _ _ _ _ _ _ _ ip (fun i => Inode (i_dev i) (i_inum i) (i_ref i) (i_lock i) 0 0 0 0 0 0 [])) in T1.
  rewrite (alter_insert _ _ i) in T1 by done. fold j in T1.
  assert (Ej : ilocked pid sb (update_view sb i c) j = set_i_valid 1 (locked pid i)).
  { unfold ilocked, dinode, update_view. simpl i_valid. simpl i_inum. simpl Z.eqb. cbv iota.
    rewrite upd_eq, load_store_dinode; [by destruct i|done|].
    rewrite iblock_length by (done || apply W). apply dinode_at_bound. }
  pose proof (size_add (IBLOCK (i_inum i) sb) D). rewrite <- Ej.
  rlast ilock_ok; [done|exact T1|by apply list_lookup_insert_eq|done|done|apply W|apply W| | |].
  - lia.
  - by rewrite Ej.
  - intros _ s2 T2. rewrite list_insert_insert_eq in T2. eexists. exact T2.
Qed.
End Specs.

(** ** The theorems at work on the small file system *)

Lemma small_map_size : size (∅ ∪ map_blocks small_sb) = 1%nat.
Proof. by vm_compute. Qed.

Lemma file_write_read_witness :
  exists s', (let! w := @writei 7 no_devices 1 [104; 105] 0 in
              let! r := @readi 7 no_devices 1 0 2 in m_ret (w, r)) small_fs
    = Done (2, (2, [104; 105])) s'.
Proof.
  destruct (@file_write_read 7 1 small_sb no_devices small_icache (blk small_disk) ∅ small_fs 1 small_file
    [104; 105] 0 small_geom (small_tx 7) eq_refl small_cwf small_file_fwf) as (x & s' & E & -> & _).
  - simpl. lia.
  - by vm_compute.
  - right. apply small_free. vm_compute. lia.
  - rewrite small_map_size. vm_compute. lia.
  - exists s'. exact E.
Defined.

Lemma small_get i' : is_Some (iget_ic (<[0%nat := i']> small_icache) 1 2).
Proof.
  unfold iget_ic. destruct (find_idx _ _ _) eqn:E; [eauto|].
  destruct (find_idx (fun i => i_ref i =? 0) 0 _) eqn:E2; [simpl; eauto|].
  pose proof (find_idx_None _ _ _ E2 2%nat zero_inode eq_refl) as N. done.
Qed.

Lemma dirlink_dirlookup_witness :
  exists ip off s', (let! r := @dirlink 7 no_devices 0 [97; 98] 2 in
                     let! x := @dirlookup 7 no_devices 0 [97; 98] in m_ret (r, x)) small_fs
    = Done (0, Some (ip, off)) s'.
Proof.
  destruct (@dirlink_dirlookup 7 1 small_sb no_devices small_icache (blk small_disk) ∅ small_fs 0 small_dir
    [97; 98] 2 small_geom (small_tx 7) eq_refl small_cwf small_dir_dwf eq_refl)
    as (y & s' & E & ip & off & c' & i' & ic' & D' & -> & _).
  - lia.
  - by vm_compute.
  - right. apply small_free. vm_compute. lia.
  - rewrite small_map_size. lia.
  - apply small_get.
  - exists ip, off, s'. exact E.
Defined.

Lemma balloc_bfree_witness :
  exists b s', balloc 7 1 small_fs = Done b s' /\ exists s2, bfree 7 1 b s' = Done tt s2.
Proof.
  destruct (balloc_bfree 7 1 small_sb small_icache (blk small_disk) ∅ small_fs small_geom (small_tx 7)
    small_cwf (small_free 1 ltac:(lia))) as (b & s' & E & c' & D' & _ & _ & _ & _ & _ & _ & _ & R).
  - rewrite size_empty. lia.
  - destruct R as ([] & s2 & E2 & _). exists b, s'. split; [exact E|]. by exists s2.
Defined.

Lemma small_icache_ok : icache_ok small_icache.
Proof.
  assert (K : forall ip i, small_icache !! ip = Some i -> 0 < i_ref i ->
    (ip = 0%nat /\ i = small_dir) \/ (ip = 1%nat /\ i = small_file)).
  { intros [|[|ip]] i Hi Hr; simpl in Hi; [left; naive_solver|right; naive_solver|].
    apply (list_elem_of_lookup_2 (replicate 48 zero_inode) ip), elem_of_replicate in Hi as [-> _]. done. }
  split.
  - intros ip i Hi. destruct (decide (0 < i_ref i)); [lia|].
    destruct ip as [|[|ip]]; simpl in Hi; [naive_solver|naive_solver|].
    apply (list_elem_of_lookup_2 (replicate 48 zero_inode) ip), elem_of_replicate in Hi as [-> _]. done.
  - intros ip jp i j Hi Hj Ri Rj _ En.
    destruct (K _ _ Hi Ri) as [[-> ->]|[-> ->]], (K _ _ Hj Rj) as [[-> ->]|[-> ->]]; done.
Qed.

Lemma iget_spec_witness :
  returns (iget 1 2) small_fs (fun r s' => r = 1%nat /\
    Tx 7 1 small_sb (alter (fun i => set_i_ref (i_ref i + 1) i) 1%nat small_icache) (blk small_disk) ∅ ∅ s').
Proof.
  exact (proj1 (iget_spec 7 1 small_sb small_icache (blk small_disk) ∅ ∅ small_fs 1 2 (small_tx 7) small_icache_ok)).
Defined.

(** The file with its lock free. *)
Definition small_free_file : inode := set_i_lock (SleepLock 0 "inode" 0) small_file.
Definition small_unlocked : fsst := updi 1 (set_i_lock (SleepLock 0 "inode" 0)) small_fs.

Lemma iupdate_ilock_witness :
  exists s', (iupdate 7 1 ;;;
    modify (updi 1 (fun i => Inode (i_dev i) (i_inum i) (i_ref i) (i_lock i) 0 0 0 0 0 0 [])) ;;;
    ilock 7 1) small_unlocked = Done tt s'.
Proof.
  destruct (iupdate_ilock 7 1 small_sb (alter (set_i_lock (SleepLock 0 "inode" 0)) 1%nat small_icache)
    (blk small_disk) ∅ small_unlocked 1 small_free_file small_geom) as ([] & s' & E & _).
  - apply Tx_updi, small_tx.
  - done.
  - apply small_cwf.
  - destruct (fw_iwf _ _ _ small_file_fwf). by split.
  - destruct (fw_range _ _ _ small_file_fwf). by split.
  - rewrite size_empty. lia.
  - by vm_compute.
  - done.
  - done.
  - exists s'. exact E.
Defined.
