(* ===== verification/Mkfs.v ===== *)
(** * The program that makes the file system image (mkfs.c)

    mkfs runs on the host, whose byte order is a parameter: the fields of the structures are
    values as the host sees them, [xint] and [xshort] convert, and a structure is copied to a
    block in the host's byte order. The image is the list of its blocks. The host's calls
    that write succeed; reading behind the end of the image ends the program, which is
    [Panic], as are failed assertions. What is printed is left out. *)

From stdpp Require Import base tactics numbers list strings.
From Stdlib Require Import ZArith Lia ZifyNat.
From S2P Require Import Prelude Layout Bio Log Fs.

Inductive host := Little | Big.

(** The bytes of a value in memory, and the value of bytes in memory. *)
Definition ordered (h : host) (l : list Z) : list Z := match h with Little => l | Big => reverse l end.
Fixpoint le_value (l : list Z) : Z := match l with [] => 0 | b :: l => b + 256 * le_value l end.
Definition word_bytes (h : host) (v : Z) : list Z := ordered h (le32 v).
Definition short_bytes (h : host) (v : Z) : list Z := ordered h [u8 v; u8 (v / 256)].
Definition value_of (h : host) (l : list Z) : Z := le_value (ordered h l).

Definition xshort (h : host) (x : Z) : Z := value_of h [u8 x; u8 (Z.shiftr x 8)].
Definition xint (h : host) (x : Z) : Z :=
  value_of h [u8 x; u8 (Z.shiftr x 8); u8 (Z.shiftr x 16); u8 (Z.shiftr x 24)].

Definition NINODES : Z := 200.
Definition nbitmap : Z := FSSIZE / (BSIZE * 8) + 1.
Definition ninodeblocks : Z := NINODES / IPB + 1.
Definition nlog : Z := LOGSIZE.
Definition nmeta : Z := 2 + nlog + ninodeblocks + nbitmap.
Definition nblocks : Z := FSSIZE - nmeta.

(** [struct dinode] *)
Record dinode := Dinode {
  d_type : Z;
  d_major : Z;
  d_minor : Z;
  d_nlink : Z;
  d_size : Z;
  d_addrs : list Z }.

Definition zero_dinode : dinode := Dinode 0 0 0 0 0 (replicate 13 0).
Definition d_addr (k : Z) (d : dinode) : Z := default 0 (d_addrs d !! Z.to_nat k).
Definition set_d_addr (k v : Z) (d : dinode) : dinode :=
  Dinode (d_type d) (d_major d) (d_minor d) (d_nlink d) (d_size d) (<[Z.to_nat k := v]> (d_addrs d)).
Definition set_d_size (v : Z) (d : dinode) : dinode :=
  Dinode (d_type d) (d_major d) (d_minor d) (d_nlink d) v (d_addrs d).

Definition dinode_bytes (h : host) (d : dinode) : list Z :=
  short_bytes h (d_type d) ++ short_bytes h (d_major d) ++ short_bytes h (d_minor d) ++
  short_bytes h (d_nlink d) ++ word_bytes h (d_size d) ++ (d_addrs d ≫= word_bytes h).
Definition short_at (h : host) (x : bdata) (o : nat) : Z := value_of h [byte_at x o; byte_at x (o + 1)].
Definition word_at (h : host) (x : bdata) (o : nat) : Z :=
  value_of h [byte_at x o; byte_at x (o + 1); byte_at x (o + 2); byte_at x (o + 3)].
Definition dinode_of (h : host) (x : bdata) (o : nat) : dinode :=
  Dinode (short_at h x o) (short_at h x (o + 2)) (short_at h x (o + 4)) (short_at h x (o + 6))
    (word_at h x (o + 8)) ((fun k => word_at h x (o + 12 + 4 * k)) <$> seq 0 13).

Record mkst := Mk {
  m_img : list bdata;
  m_sb : superblock;
  m_freeinode : Z;
  m_freeblock : Z }.

Definition zeroes : bdata := replicate (Z.to_nat BSIZE) 0.
(** The image with a block written; a write behind the end leaves zeros in between. *)
Definition write_block (n : nat) (x : bdata) (img : list bdata) : list bdata :=
  if decide (n < length img)%nat then <[n := x]> img
  else img ++ replicate (n - length img) zeroes ++ [x].
(** The block at byte [sec * BSIZE], a [uint]. *)
Definition sector (sec : Z) : nat := Z.to_nat (u32 (sec * BSIZE) / BSIZE).

Definition wsect (sec : Z) (buf : bdata) : M mkst unit :=
  modify (fun s => Mk (write_block (sector sec) buf (m_img s)) (m_sb s) (m_freeinode s) (m_freeblock s)).
Definition rsect (sec : Z) : M mkst bdata :=
  let! img := gets m_img in
  match img !! sector sec with
  | Some x => m_ret x
  | None => panic "read"
  end.

(** [freeblock++] *)
Definition next_block : M mkst Z :=
  let! s := get in
  put (Mk (m_img s) (m_sb s) (m_freeinode s) (u32 (m_freeblock s + 1))) ;;;
  m_ret (m_freeblock s).

Section Mkfs.
Variable h : host.

(** [((struct dinode* )buf) + (inum % IPB)], as an offset. *)
Definition dip (inum : Z) : nat := Z.to_nat (DINODE_SIZE * (inum mod IPB)).

Definition winode (inum : Z) (ip : dinode) : M mkst unit :=
  let! sb := gets m_sb in
  let bn := u32 (IBLOCK inum sb) in
  let! buf := rsect bn in
  wsect bn (put_bytes (dip inum) (dinode_bytes h ip) buf).

Definition rinode (inum : Z) : M mkst dinode :=
  let! sb := gets m_sb in
  let bn := u32 (IBLOCK inum sb) in
  let! buf := rsect bn in
  m_ret (dinode_of h buf (dip inum)).

Definition ialloc (type : Z) : M mkst Z :=
  let! s := get in
  let inum := m_freeinode s in
  put (Mk (m_img s) (m_sb s) (u32 (inum + 1)) (m_freeblock s)) ;;;
  winode inum (Dinode (xshort h type) 0 0 (xshort h 1) (xint h 0) (replicate 13 0)) ;;;
  m_ret inum.

(** [buf[i/8] = buf[i/8] | (0x1 << (i%8))] for [i] below [used]. *)
Definition used_map (used : Z) : bdata :=
  foldl (fun buf i => map_set (Z.of_nat i) buf) zeroes (seq 0 (Z.to_nat used)).
Definition balloc (used : Z) : M mkst unit :=
  if negb (used <? BSIZE * 8) then panic "assert" else
  let! sb := gets m_sb in
  wsect (sb_bmapstart sb) (used_map used).

(** The block of the file that holds block [fbn], allocated when there is none yet. *)
Definition iappend_block (fbn : Z) (din : dinode) : M mkst (dinode * Z) :=
  if fbn <? NDIRECT then
    let! din :=
      (if xint h (d_addr fbn din) =? 0 then
         let! b := next_block in m_ret (set_d_addr fbn (xint h b) din)
       else m_ret din) in
    m_ret (din, xint h (d_addr fbn din))
  else
    let! din :=
      (if xint h (d_addr NDIRECT din) =? 0 then
         let! b := next_block in m_ret (set_d_addr NDIRECT (xint h b) din)
       else m_ret din) in
    let! indirect := rsect (xint h (d_addr NDIRECT din)) in
    let o := Z.to_nat (4 * (fbn - NDIRECT)) in
    let! indirect :=
      (if word_at h indirect o =? 0 then
         let! b := next_block in
         let indirect := put_bytes o (word_bytes h (xint h b)) indirect in
         wsect (xint h (d_addr NDIRECT din)) indirect ;;; m_ret indirect
       else m_ret indirect) in
    m_ret (din, xint h (word_at h indirect o)).

(** The loop over the bytes [p] left to append, each turn of which takes at least one. *)
Fixpoint iappend_loop (fuel : nat) (din : dinode) (off : Z) (p : list Z) : M mkst (dinode * Z) :=
  match p, fuel with
  | [], _ => m_ret (din, off)
  | _, O => block
  | _, S fuel =>
      let fbn := off / BSIZE in
      if negb (fbn <? MAXFILE) then panic "assert" else
      let! r := iappend_block fbn din in
      let '(din, x) := r in
      let n1 := Z.min (Z.of_nat (length p)) (u32 ((fbn + 1) * BSIZE - off)) in
      let! buf := rsect x in
      wsect x (put_bytes (Z.to_nat (off - fbn * BSIZE)) (take (Z.to_nat n1) p) buf) ;;;
      iappend_loop fuel din (u32 (off + n1)) (drop (Z.to_nat n1) p)
  end.

Definition iappend (inum : Z) (p : list Z) : M mkst unit :=
  let! din := rinode inum in
  let! r := iappend_loop (length p) din (xint h (d_size din)) p in
  let '(din, off) := r in
  winode inum (set_d_size (xint h off) din).

(** [struct dirent] with the bytes of its name. *)
Definition dirent_bytes (inum : Z) (name : list Z) : list Z :=
  short_bytes h (xshort h inum) ++ strncpy_buf (Z.to_nat DIRSIZ) name.

(** [while((cc = read(fd, buf, sizeof(buf))) > 0) iappend(inum, buf, cc)] *)
Fixpoint append_chunks (inum : Z) (chunks : list (list Z)) : M mkst unit :=
  match chunks with
  | [] => m_ret tt
  | c :: chunks => iappend inum c ;;; append_chunks inum chunks
  end.

Definition SLASH : Z := 47.
Definition UNDERSCORE : Z := 95.

(** One argument: its name, and what the reads of the file return; [None] when it cannot be
    opened. *)
Definition add_file (rootino : Z) (arg : list Z * option (list (list Z))) : M mkst unit :=
  if bool_decide (SLASH ∈ arg.1) then panic "assert" else
  match arg.2 with
  | None => panic "open"
  | Some chunks =>
      let name := if hd 0 arg.1 =? UNDERSCORE then tail arg.1 else arg.1 in
      let! inum := ialloc T_FILE in
      iappend rootino (dirent_bytes inum name) ;;;
      append_chunks inum chunks
  end.

Definition superblock_bytes (sb : superblock) : list Z :=
  word_bytes h (sb_size sb) ++ word_bytes h (sb_nblocks sb) ++ word_bytes h (sb_ninodes sb) ++
  word_bytes h (sb_nlog sb) ++ word_bytes h (sb_logstart sb) ++ word_bytes h (sb_inodestart sb) ++
  word_bytes h (sb_bmapstart sb).

Definition make_sb : superblock :=
  Superblock (xint h FSSIZE) (xint h nblocks) (xint h NINODES) (xint h nlog) (xint h 2) (xint h (2 + nlog))
    (xint h (2 + nlog + ninodeblocks)).

(** [main] from the truncated image file on. *)
Definition mkfs_main (args : list (list Z * option (list (list Z)))) : M mkst unit :=
  modify (fun s => Mk (m_img s) make_sb (m_freeinode s) nmeta) ;;;
  mfor (seq 0 (Z.to_nat FSSIZE)) (fun i => wsect (Z.of_nat i) zeroes) ;;;
  wsect 1 (put_bytes 0 (superblock_bytes make_sb) zeroes) ;;;
  let! rootino := ialloc T_DIR in
  if negb (rootino =? ROOTINO) then panic "assert" else
  iappend rootino (dirent_bytes rootino [46]) ;;;
  iappend rootino (dirent_bytes rootino [46; 46]) ;;;
  mfor args (add_file rootino) ;;;
  let! din := rinode rootino in
  let off := xint h (d_size din) in
  let off := u32 ((off / BSIZE + 1) * BSIZE) in
  winode rootino (set_d_size (xint h off) din) ;;;
  let! used := gets m_freeblock in
  balloc used.

Definition mkfs (args : list (list Z * option (list (list Z)))) : outcome mkst unit :=
  mkfs_main args (Mk [] (Superblock 0 0 0 0 0 0 0) 1 0).
End Mkfs.
