(* ===== verification/MkfsSpec.v ===== *)
(** * The image mkfs makes is a file system the kernel can use

    On a little-endian host, the image that mkfs.c writes satisfies what the theorems about
    fs.c assume of a disk: the layout, the free map, the root directory with all the names,
    and files with the contents they had on the host. *)

From stdpp Require Import base tactics numbers list sets gmap strings.
From Stdlib Require Import ZArith Lia ZifyNat ZifyBool.
From S2P Require Import Prelude Layout Sleeplock Bio BioSpec Log Fs FsTx FsBlocks FsFile FsRw FsInode FsDir Mkfs.

#[local] Arguments Z.testbit : simpl never.
#[local] Arguments Nat.mul : simpl never.

(** ** Bytes on a little-endian host *)

Lemma xint_little v : xint Little v = u32 v.
Proof. unfold xint, value_of. simpl. rewrite !Z.shiftr_div_pow2 by lia. unfold u8, u32. zlia. Qed.

Lemma xshort_little v : xshort Little v = u16 v.
Proof. unfold xshort, value_of. simpl. rewrite !Z.shiftr_div_pow2 by lia. unfold u8, u16. zlia. Qed.

Lemma short_at_little x o : short_at Little x o = ld16 x o.
Proof. unfold short_at, value_of, ld16. simpl. lia. Qed.

Lemma word_at_little x o : word_at Little x o = ld32 x o.
Proof. unfold word_at, value_of, ld32. simpl. lia. Qed.

(** The values fit the fields. *)
Record drange (d : dinode) : Prop := Drange {
  dr_type : 0 <= d_type d < 65536;
  dr_major : 0 <= d_major d < 65536;
  dr_minor : 0 <= d_minor d < 65536;
  dr_nlink : 0 <= d_nlink d < 65536;
  dr_size : 0 <= d_size d < 4294967296;
  dr_len : length (d_addrs d) = 13%nat;
  dr_addrs k : 0 <= default 0 (d_addrs d !! k) < 4294967296 }.

Lemma length_words l : length (l ≫= word_bytes Little) = (4 * length l)%nat.
Proof. induction l as [|v l IH]; [done|]. rewrite bind_cons, length_app, IH. simpl. lia. Qed.

Lemma words_lookup l k j v :
  l !! k = Some v -> (j < 4)%nat -> (l ≫= word_bytes Little) !! (4 * k + j)%nat = le32 v !! j.
Proof.
  revert k. induction l as [|w l IH]; intros k Hk Hj; [done|]. rewrite bind_cons. destruct k as [|k].
  - injection Hk as ->. rewrite lookup_app_l by (simpl; lia). by replace (4 * 0 + j)%nat with j by lia.
  - rewrite lookup_app_r by (simpl; lia). rewrite <- (IH k) by done. f_equal. simpl. lia.
Qed.

Lemma length_dinode_bytes d : length (d_addrs d) = 13%nat -> length (dinode_bytes Little d) = 64%nat.
Proof. intros H. unfold dinode_bytes. rewrite !length_app, length_words, H. done. Qed.

(** The word or short whose bytes are found in a block. *)
Lemma ld16_bytes x o v :
  0 <= v < 65536 -> byte_at x o = u8 v -> byte_at x (o + 1) = u8 (v / 256) -> ld16 x o = v.
Proof. intros Hv E1 E2. unfold ld16. rewrite E1, E2. unfold u8. zlia. Qed.

Lemma ld32_bytes x o v :
  0 <= v < 4294967296 -> (forall j, (j < 4)%nat -> byte_at x (o + j) = default 0 (le32 v !! j)) -> ld32 x o = v.
Proof.
  intros Hv E. pose proof (E 0%nat ltac:(lia)) as E0. rewrite Nat.add_0_r in E0. unfold ld32.
  rewrite E0, !E by lia. simpl. unfold u8. zlia.
Qed.

Section Stored.
Context (d : dinode) (R : drange d) (x : bdata) (o : nat) (Hx : (o + 64 <= length x)%nat).
Let y := put_bytes o (dinode_bytes Little d) x.

Lemma stored_byte k : (k < 64)%nat -> byte_at y (o + k) = default 0 (dinode_bytes Little d !! k).
Proof using R Hx.
  intros Hk. unfold y. rewrite byte_at_put_bytes by (rewrite length_dinode_bytes by apply R; lia).
  rewrite length_dinode_bytes by apply R. rewrite decide_True by lia. do 2 f_equal. lia.
Qed.

Lemma stored_other p : (p < o \/ o + 64 <= p)%nat -> byte_at y p = byte_at x p.
Proof using R Hx.
  intros Hp. unfold y. rewrite byte_at_put_bytes by (rewrite length_dinode_bytes by apply R; lia).
  rewrite length_dinode_bytes by apply R. by rewrite decide_False by lia.
Qed.

Lemma stored_addr k : (k < 13)%nat -> ld32 y (o + 12 + 4 * k) = default 0 (d_addrs d !! k).
Proof using R Hx.
  intros Hk. destruct (lookup_lt_is_Some_2 (d_addrs d) k) as [v Hv]; [rewrite (dr_len _ R); lia|].
  pose proof (dr_addrs _ R k) as Hr. rewrite Hv in *. simpl in *. apply ld32_bytes; [done|]. intros j Hj.
  replace (o + 12 + 4 * k + j)%nat with (o + (12 + (4 * k + j)))%nat by lia. rewrite stored_byte by lia.
  unfold dinode_bytes. f_equal. rewrite !app_assoc, lookup_app_r by (simpl; lia).
  rewrite <- (words_lookup (d_addrs d) k j v) by done. f_equal. simpl. lia.
Qed.

(** What was written is read back. *)
Lemma dinode_of_stored : dinode_of Little y o = d.
Proof using R Hx.
  pose proof (fun k H => stored_byte k H) as B. pose proof R as []. unfold dinode_of.
  rewrite !short_at_little, word_at_little.
  transitivity (Dinode (d_type d) (d_major d) (d_minor d) (d_nlink d) (d_size d) (d_addrs d)); [|by destruct d]. f_equal.
  - apply ld16_bytes; [done|rewrite <- (Nat.add_0_r o)|]; by rewrite B by lia.
  - apply ld16_bytes; [done|by rewrite B by lia|]. rewrite <- Nat.add_assoc. by rewrite B by lia.
  - apply ld16_bytes; [done|by rewrite B by lia|]. rewrite <- Nat.add_assoc. by rewrite B by lia.
  - apply ld16_bytes; [done|by rewrite B by lia|]. rewrite <- Nat.add_assoc. by rewrite B by lia.
  - apply ld32_bytes; [done|]. intros j Hj. rewrite <- Nat.add_assoc, B by lia.
    do 4 (destruct j as [|j]; [done|]). lia.
  - apply list_eq. intros k. rewrite list_lookup_fmap. destruct (decide (k < 13)%nat) as [Hk|Hk].
    + rewrite lookup_seq_lt by done. simpl. rewrite word_at_little, stored_addr by done.
      destruct (lookup_lt_is_Some_2 (d_addrs d) k) as [v ->]; [lia|]. done.
    + rewrite !lookup_ge_None_2; [done|lia|rewrite length_seq; lia].
Qed.
End Stored.

(** ** The image as a map of blocks *)

Abbreviation sb0 := (make_sb Little).

Lemma sb0_val : sb0 = Superblock 1000 941 200 30 2 32 58.
Proof. done. Qed.

Lemma geom_sb0 : geom sb0.
Proof. rewrite sb0_val. by split. Qed.

Record img_ok (img : list bdata) : Prop := ImgOk {
  im_len : length img = 1000%nat;
  im_blk n : 0 <= n < 1000 -> length (blk img n) = 512%nat }.

Lemma blk_insert img n x m :
  length img = 1000%nat -> 1 <= n < 1000 -> blk (<[Z.to_nat n := x]> img) m = upd n x (blk img) m.
Proof.
  intros Hl Hn. unfold blk, upd. destruct (decide (m = n)) as [->|Hne].
  - by rewrite list_lookup_insert_eq by lia.
  - by rewrite list_lookup_insert_ne by lia.
Qed.

Lemma img_ok_insert img n x :
  img_ok img -> 1 <= n < 1000 -> length x = 512%nat -> img_ok (<[Z.to_nat n := x]> img).
Proof.
  intros [Hl Hb] Hn Hx. split; [by rewrite length_insert|]. intros m Hm. rewrite blk_insert by done.
  unfold upd. destruct (decide (m = n)); auto.
Qed.

Lemma sector_small n : 0 <= n < 1000 -> sector n = Z.to_nat n.
Proof. intros. unfold sector, BSIZE, u32. f_equal. zlia. Qed.

Definition with_img (img : list bdata) (s : mkst) : mkst := Mk img (m_sb s) (m_freeinode s) (m_freeblock s).

Lemma wsect_run s n x :
  length (m_img s) = 1000%nat -> 0 <= n < 1000 ->
  wsect n x s = Done tt (with_img (<[Z.to_nat n := x]> (m_img s)) s).
Proof.
  intros Hl Hn. unfold wsect, write_block. munf. rewrite sector_small by done. by rewrite decide_True by lia.
Qed.

Lemma rsect_run s n :
  length (m_img s) = 1000%nat -> 0 <= n < 1000 -> rsect n s = Done (blk (m_img s) n) s.
Proof.
  intros Hl Hn. unfold rsect, blk. munf. rewrite sector_small by done.
  destruct (lookup_lt_is_Some_2 (m_img s) (Z.to_nat n)) as [x ->]; [lia|]. done.
Qed.

(** ** Inodes on the image *)

Lemma iblock_meta inum : 0 <= inum < 200 -> 32 <= IBLOCK inum sb0 < 58.
Proof. intros. rewrite sb0_val. unfold IBLOCK. simpl. change IPB with 8. zlia. Qed.

Lemma dip_bound inum : 0 <= inum -> (dip inum + 64 <= 512)%nat.
Proof. intros. unfold dip. change DINODE_SIZE with 64. change IPB with 8. zlia. Qed.

(** Different inodes of one block do not overlap. *)
Lemma dip_apart a b :
  0 <= a -> 0 <= b -> a <> b -> IBLOCK a sb0 = IBLOCK b sb0 -> (dip a + 64 <= dip b \/ dip b + 64 <= dip a)%nat.
Proof.
  unfold IBLOCK, dip. change DINODE_SIZE with 64. change IPB with 8. intros. zlia.
Qed.

Definition dino (c : Z -> bdata) (inum : Z) : dinode := dinode_of Little (c (IBLOCK inum sb0)) (dip inum).

Lemma dinode_of_ext x y o :
  (forall k, (k < 64)%nat -> byte_at x (o + k) = byte_at y (o + k)) -> dinode_of Little x o = dinode_of Little y o.
Proof.
  intros E. assert (E0 : byte_at x o = byte_at y o) by (pose proof (E 0%nat ltac:(lia)) as E0; by rewrite !Nat.add_0_r in E0).
  unfold dinode_of, short_at, word_at. f_equal; try (rewrite <- ?Nat.add_assoc, ?E0, ?E by lia; done).
  apply list_fmap_ext. intros ? k Hk%lookup_seq. rewrite <- !Nat.add_assoc. by rewrite !E by lia.
Qed.

Lemma winode_run s inum d :
  img_ok (m_img s) -> m_sb s = sb0 -> 0 <= inum < 200 -> drange d ->
  exists img, winode Little inum d s = Done tt (with_img img s) /\ img_ok img /\
    dino (blk img) inum = d /\
    (forall j, 0 <= j < 200 -> j <> inum -> dino (blk img) j = dino (blk (m_img s)) j) /\
    (forall n, ~ (32 <= n < 58) -> blk img n = blk (m_img s) n).
Proof.
  intros I Hs Hi Hd. pose proof (iblock_meta inum Hi) as Hb. pose proof (dip_bound inum ltac:(lia)) as Ho.
  assert (Hx : length (blk (m_img s) (IBLOCK inum sb0)) = 512%nat) by (apply I; lia).
  set (x := put_bytes (dip inum) (dinode_bytes Little d) (blk (m_img s) (IBLOCK inum sb0))).
  exists (<[Z.to_nat (IBLOCK inum sb0) := x]> (m_img s)). split.
  { unfold winode. munf. rewrite Hs, u32_small by lia. rewrite rsect_run by (apply I || lia).
    by rewrite wsect_run by (apply I || lia). }
  split. { apply img_ok_insert; [done|lia|]. unfold x. by rewrite length_put_bytes. }
  assert (E : forall m, blk (<[Z.to_nat (IBLOCK inum sb0) := x]> (m_img s)) m = upd (IBLOCK inum sb0) x (blk (m_img s)) m).
  { intros. apply blk_insert; [apply I|lia]. }
  split; [|split].
  - unfold dino. rewrite E, upd_eq. apply dinode_of_stored; [done|]. by rewrite Hx.
  - intros j Hj Hne. unfold dino. rewrite E. unfold upd. destruct (decide _) as [Eb|]; [|done].
    rewrite Eb. apply dinode_of_ext. intros k Hk. apply stored_other; [done|by rewrite Hx|].
    destruct (dip_apart j inum) as [?|?]; try lia; done.
  - intros n Hn. rewrite E. apply upd_ne. lia.
Qed.

Lemma rinode_run s inum :
  img_ok (m_img s) -> m_sb s = sb0 -> 0 <= inum < 200 ->
  rinode Little inum s = Done (dino (blk (m_img s)) inum) s.
Proof.
  intros I Hs Hi. pose proof (iblock_meta inum Hi). unfold rinode. munf.
  rewrite Hs, u32_small by lia. by rewrite rsect_run by (apply I || lia).
Qed.

(** ** Files under construction *)

(** The inode as the kernel has it in memory. *)
Definition node (inum : Z) (d : dinode) : inode :=
  Inode 1 inum 1 (SleepLock 0 "inode" 0) 1 (s16 (d_type d)) (s16 (d_major d)) (s16 (d_minor d)) (s16 (d_nlink d))
    (d_size d) (d_addrs d).

(** Who uses a block: an inode number with a block number of the file, -1 for the indirect
    block. *)
Abbreviation owner := (Z -> option (Z * Z)).
Definition own_add (b : Z) (v : Z * Z) (own : owner) : owner := fun n => if decide (n = b) then Some v else own n.

(** The bytes [L] in the first [nb] blocks of a file, with zeros behind them; all its blocks
    are its own. [hi]: it has an indirect block. *)
Record file (own : owner) (c : Z -> bdata) (inum : Z) (i : inode) (nb : Z) (hi : bool) (L : list Z) : Prop := File {
  fo_len : length (i_addrs i) = 13%nat;
  fo_nb : 0 <= nb <= MAXFILE;
  fo_fits : Z.of_nat (length L) <= nb * BSIZE;
  fo_blk bn : 0 <= bn < nb -> own (fblk c i bn) = Some (inum, bn);
  fo_none bn : nb <= bn < MAXFILE -> fblk c i bn = 0;
  fo_hi : 12 < nb -> hi = true;
  fo_ind : if hi then own (ind i) = Some (inum, -1) else ind i = 0;
  fo_bytes k : Z.of_nat k < nb * BSIZE -> fbyte c i (Z.of_nat k) = default 0 (L !! k) }.

Lemma nmeta_val : nmeta = 59.
Proof. done. Qed.

(** Owned blocks are data blocks that have been allocated. *)
Definition own_ok (own : owner) (fb : Z) : Prop := forall b v, own b = Some v -> nmeta <= b < fb.

Definition own_le (own own' : owner) : Prop := forall b v, own b = Some v -> own' b = Some v.

Lemma own_le_refl own : own_le own own.
Proof. by intros b v. Qed.
Lemma own_le_trans o1 o2 o3 : own_le o1 o2 -> own_le o2 o3 -> own_le o1 o3.
Proof. intros H1 H2 b v Hb. auto. Qed.

Lemma own_add_le own fb v : own_ok own fb -> own_le own (own_add fb v own).
Proof. intros Ho b w Hb. unfold own_add. destruct (decide (b = fb)) as [->|]; [|done]. apply Ho in Hb. lia. Qed.

Lemma own_add_ok own fb v : nmeta <= fb -> own_ok own fb -> own_ok (own_add fb v own) (fb + 1).
Proof.
  intros Hf Ho b w. unfold own_add. destruct (decide (b = fb)) as [->|]; [lia|]. intros Hb. apply Ho in Hb. lia.
Qed.

Lemma own_nonzero own fb b v : own_ok own fb -> own b = Some v -> b <> 0.
Proof. intros Ho Hb. apply Ho in Hb. rewrite nmeta_val in Hb. lia. Qed.

(** Blocks of other files may change, and more blocks get owners. *)
Lemma file_frame own own' c c' inum i nb hi L :
  own_le own own' -> (forall b k, own b = Some (inum, k) -> c' b = c b) ->
  file own c inum i nb hi L -> file own' c' inum i nb hi L.
Proof.
  intros Hle Hc []. assert (E : forall bn, 0 <= bn < MAXFILE -> fblk c' i bn = fblk c i bn).
  { intros bn Hbn. apply fblk_ext. intros Hi. destruct hi; [by eapply Hc|done]. }
  rewrite MAXFILE_val, BSIZE_val in *. split; rewrite ?MAXFILE_val, ?BSIZE_val; try done.
  - intros bn Hbn. rewrite E by lia. auto.
  - intros bn Hbn. rewrite E by lia. auto.
  - destruct hi; auto.
  - intros k Hk. unfold fbyte in *. rewrite BSIZE_val in *. rewrite E by zlia.
    rewrite (Hc _ (Z.of_nat k / 512)); [by apply fo_bytes0|]. apply fo_blk0. zlia.
Qed.

(** The blocks [n] bytes need, with the indirect block. *)
Definition nbl (n : Z) : Z := (n + 511) / 512.
Definition cost (nb : Z) : Z := if 12 <? nb then nb + 1 else nb.

(** [fblk] reads the direct addresses and the words of the indirect block. *)
Lemma fblk_direct c i bn : bn < 12 -> fblk c i bn = addr_of i bn.
Proof. intros. unfold fblk. rewrite NDIRECT_val. by replace (bn <? 12) with true by lia. Qed.
Lemma fblk_indirect c i bn :
  12 <= bn -> ind i <> 0 -> fblk c i bn = ld32 (c (ind i)) (Z.to_nat (4 * (bn - 12))).
Proof.
  intros. unfold fblk. rewrite NDIRECT_val. replace (bn <? 12) with false by lia.
  by rewrite (proj2 (Z.eqb_neq (ind i) 0)).
Qed.

(** ** The image under construction *)

(** A finished inode [inum] of type [f.1] with the contents [f.2]. *)
Record on_disk (own : owner) (c : Z -> bdata) (inum : Z) (f : Z * list Z) : Prop := OnDisk {
  od_range : drange (dino c inum);
  od_type : d_type (dino c inum) = f.1;
  od_dev : d_major (dino c inum) = 0 /\ d_minor (dino c inum) = 0;
  od_nlink : d_nlink (dino c inum) = 1;
  od_size : d_size (dino c inum) = Z.of_nat (length f.2);
  od_file : let nb := nbl (Z.of_nat (length f.2)) in
    file own c inum (node inum (dino c inum)) nb (12 <? nb) f.2 }.

(** The blocks before the inodes: the superblock, and an empty log. *)
Definition super_block : bdata := put_bytes 0 (superblock_bytes Little sb0) zeroes.
Definition head_ok (c : Z -> bdata) : Prop :=
  c 1 = super_block /\ forall b, 2 <= b < 32 -> c b = zeroes.

Lemma head_frame c c' : (forall b, 1 <= b < 32 -> c' b = c b) -> head_ok c -> head_ok c'.
Proof. intros E [H1 H2]. split; [by rewrite E by lia|]. intros b Hb. rewrite E by lia. auto. Qed.

(** The state while inode [cur] is worked on; the others are as [files] says. *)
Record build (own : owner) (cur : Z) (files : Z -> Z * list Z) (s : mkst) : Prop := Build {
  bd_img : img_ok (m_img s);
  bd_sb : m_sb s = sb0;
  bd_fb : 59 <= m_freeblock s <= 1000;
  bd_fi : 1 <= m_freeinode s <= 200;
  bd_own : own_ok own (m_freeblock s);
  bd_head : head_ok (blk (m_img s));
  bd_zero b : m_freeblock s <= b < 1000 -> blk (m_img s) b = zeroes;
  bd_files inum : 1 <= inum < m_freeinode s -> inum <> cur -> on_disk own (blk (m_img s)) inum (files inum) }.

Definition with_fb (fb : Z) (s : mkst) : mkst := Mk (m_img s) (m_sb s) (m_freeinode s) fb.

Lemma on_disk_frame own own' c c' inum f :
  own_le own own' -> (forall b k, own b = Some (inum, k) -> c' b = c b) -> dino c' inum = dino c inum ->
  on_disk own c inum f -> on_disk own' c' inum f.
Proof. intros Hle Hc Hd []. split; rewrite ?Hd; try done. eauto using file_frame. Qed.

Lemma next_block_run own cur files s v :
  build own cur files s -> m_freeblock s < 1000 ->
  next_block s = Done (m_freeblock s) (with_fb (m_freeblock s + 1) s) /\
  build (own_add (m_freeblock s) v own) cur files (with_fb (m_freeblock s + 1) s).
Proof.
  intros [] Hf. split.
  - unfold next_block. munf. by rewrite u32_small by lia.
  - split; simpl; try done; [lia|apply own_add_ok; [rewrite nmeta_val; lia|done]| |].
    + intros b Hb. apply bd_zero0. lia.
    + intros inum Hi Hne. eapply on_disk_frame; eauto using own_add_le.
Qed.

Lemma dino_data c n x inum : 0 <= inum < 200 -> 59 <= n -> dino (upd n x c) inum = dino c inum.
Proof. intros Hi Hn. pose proof (iblock_meta inum Hi). unfold dino. by rewrite upd_ne by lia. Qed.

(** Writing a block that belongs to [cur]. *)
Lemma build_write own cur files s n k x :
  build own cur files s -> own n = Some (cur, k) -> length x = 512%nat ->
  wsect n x s = Done tt (with_img (<[Z.to_nat n := x]> (m_img s)) s) /\
  build own cur files (with_img (<[Z.to_nat n := x]> (m_img s)) s) /\
  (forall m, blk (<[Z.to_nat n := x]> (m_img s)) m = upd n x (blk (m_img s)) m).
Proof.
  intros B Hn Hx. pose proof (bd_own _ _ _ _ B _ _ Hn) as Hr. rewrite nmeta_val in Hr. destruct B.
  assert (E : forall m, blk (<[Z.to_nat n := x]> (m_img s)) m = upd n x (blk (m_img s)) m).
  { intros. apply blk_insert; [apply bd_img0|lia]. }
  split; [apply wsect_run; [apply bd_img0|lia]|]. split; [|done].
  split; simpl; try done; [apply img_ok_insert; (done || lia)| | |].
  - eapply head_frame; [|exact bd_head0]. intros b Hb. rewrite E. apply upd_ne. lia.
  - intros b Hb. rewrite E, upd_ne by lia. auto.
  - intros inum Hi Hne. eapply (on_disk_frame own own (blk (m_img s))); [apply own_le_refl| | |by apply bd_files0].
    + intros b j Hb. rewrite E, upd_ne; [done|]. intros ->. congruence.
    + transitivity (dino (upd n x (blk (m_img s))) inum); [unfold dino; by rewrite E|]. apply dino_data; lia.
Qed.

(** *** Allocating blocks of a file *)

Section Alloc.
Context (own : owner) (c : Z -> bdata) (cur : Z) (i : inode) (nb fb : Z) (L : list Z).
Context (Ho : own_ok own fb) (Hfb : nmeta <= fb).

Lemma fresh_byte i' c' k :
  (forall bn, 0 <= bn < nb -> fblk c' i' bn = fblk c i bn) ->
  (forall bn, 0 <= bn < nb -> c' (fblk c i bn) = c (fblk c i bn)) ->
  Z.of_nat k < nb * BSIZE -> fbyte c' i' (Z.of_nat k) = fbyte c i (Z.of_nat k).
Proof using.
  intros Hb Hc Hk. unfold fbyte. rewrite BSIZE_val in *. by rewrite Hb, Hc by zlia.
Qed.

(** The bytes of a new block are zero. *)
Lemma fresh_zero i' c' k :
  fblk c' i' nb = fb -> c' fb = zeroes -> Z.of_nat (length L) <= nb * BSIZE ->
  nb * BSIZE <= Z.of_nat k < (nb + 1) * BSIZE -> fbyte c' i' (Z.of_nat k) = default 0 (L !! k).
Proof using.
  clear Ho. clear c i own. intros Hb Hz Hl Hk. unfold fbyte. rewrite BSIZE_val in *. replace (Z.of_nat k / 512) with nb by zlia.
  rewrite Hb, Hz, lookup_ge_None_2 by lia. unfold byte_at, zeroes. rewrite lookup_replicate_2; [done|].
  rewrite BSIZE_val. zlia.
Qed.

Lemma file_direct :
  file own c cur i nb false L -> nb < 12 -> c fb = zeroes ->
  file (own_add fb (cur, nb) own) c cur (set_addr nb fb i) (nb + 1) false L.
Proof using Ho Hfb.
  intros [] Hnb Hz. rewrite MAXFILE_val, BSIZE_val in *.
  assert (E : forall bn, 0 <= bn -> fblk c (set_addr nb fb i) bn = if nb =? bn then fb else fblk c i bn).
  { intros bn Hbn. unfold fblk, ind. rewrite NDIRECT_val, !addr_set_addr by (done || lia).
    destruct (Z.ltb_spec bn 12); [done|]. by replace (nb =? bn) with false by lia; replace (nb =? 12) with false by lia. }
  split; rewrite ?MAXFILE_val, ?BSIZE_val; try lia.
  - unfold set_addr. simpl. by rewrite length_insert.
  - intros bn Hbn. rewrite E by lia. destruct (Z.eqb_spec nb bn) as [->|].
    + unfold own_add. by rewrite decide_True.
    + apply own_add_le; [done|]. apply fo_blk0. lia.
  - intros bn Hbn. rewrite E by lia. replace (nb =? bn) with false by lia. apply fo_none0. lia.
  - unfold ind. rewrite NDIRECT_val, addr_set_addr by (done || lia). replace (nb =? 12) with false by lia. done.
  - intros k Hk. destruct (Z.ltb_spec (Z.of_nat k) (nb * 512)).
    + rewrite fresh_byte; [by apply fo_bytes0| |done|by rewrite BSIZE_val]. intros bn Hbn. rewrite E by lia.
      by replace (nb =? bn) with false by lia.
    + apply fresh_zero; [|done|by rewrite BSIZE_val|rewrite BSIZE_val; lia]. rewrite E by lia. by rewrite Z.eqb_refl.
Qed.

Lemma file_indirect :
  file own c cur i nb false L -> nb = 12 -> c fb = zeroes ->
  file (own_add fb (cur, -1) own) c cur (set_addr 12 fb i) nb true L.
Proof using Ho Hfb.
  intros [] Hnb Hz. rewrite MAXFILE_val, BSIZE_val in *. rewrite nmeta_val in Hfb.
  assert (Ei : ind (set_addr 12 fb i) = fb) by (unfold ind; by rewrite NDIRECT_val, addr_set_addr by (done || lia)).
  assert (E : forall bn, 0 <= bn -> fblk c (set_addr 12 fb i) bn = if bn <? 12 then fblk c i bn else 0).
  { intros bn Hbn. destruct (Z.ltb_spec bn 12).
    - rewrite !fblk_direct, addr_set_addr by (done || lia). by replace (12 =? bn) with false by lia.
    - rewrite fblk_indirect by (rewrite ?Ei; lia). rewrite Ei, Hz. apply ld32_zero_block. }
  split; rewrite ?MAXFILE_val, ?BSIZE_val; try done; try lia.
  - unfold set_addr. simpl. by rewrite length_insert.
  - intros bn Hbn. rewrite E by lia. replace (bn <? 12) with true by lia. apply own_add_le; auto.
  - intros bn Hbn. rewrite E by lia. by replace (bn <? 12) with false by lia.
  - rewrite Ei. unfold own_add. by rewrite decide_True.
  - intros k Hk. rewrite fresh_byte; [by apply fo_bytes0| |done|rewrite BSIZE_val; lia]. intros bn Hbn. rewrite E by lia.
    by replace (bn <? 12) with true by lia.
Qed.

Lemma file_word :
  let o := Z.to_nat (4 * (nb - 12)) in
  file own c cur i nb true L -> 12 <= nb < 140 -> fb < 4294967296 -> length (c (ind i)) = 512%nat -> c fb = zeroes ->
  file (own_add fb (cur, nb) own) (upd (ind i) (put_bytes o (le32 fb) (c (ind i))) c) cur i (nb + 1) true L.
Proof using Ho Hfb.
  intros o [] Hnb Hf Hl Hz. rewrite MAXFILE_val, BSIZE_val in *. rewrite nmeta_val in Hfb.
  assert (Hi : ind i <> 0) by by eapply own_nonzero.
  set (c' := upd _ _ c).
  assert (E : forall bn, 0 <= bn < 140 -> fblk c' i bn = if nb =? bn then fb else fblk c i bn).
  { intros bn Hbn. destruct (Z.ltb_spec bn 12).
    - rewrite !fblk_direct by lia. by replace (nb =? bn) with false by lia.
    - rewrite !fblk_indirect by lia. unfold c'. rewrite upd_eq. destruct (Z.eqb_spec nb bn) as [<-|].
      + apply ld32_bytes; [lia|]. intros j Hj. rewrite byte_at_put_bytes by (simpl; lia).
        rewrite decide_True by (simpl; lia). do 2 f_equal. lia.
      + apply ld32_ext. intros j Hj. rewrite byte_at_put_bytes by (simpl; lia). by rewrite decide_False by (simpl; lia). }
  split; rewrite ?MAXFILE_val, ?BSIZE_val; try done; try lia.
  - intros bn Hbn. rewrite E by lia. destruct (Z.eqb_spec nb bn) as [->|].
    + unfold own_add. by rewrite decide_True.
    + apply own_add_le; [done|]. apply fo_blk0. lia.
  - intros bn Hbn. rewrite E by lia. replace (nb =? bn) with false by lia. apply fo_none0. lia.
  - by apply own_add_le.
  - intros k Hk. destruct (Z.ltb_spec (Z.of_nat k) (nb * 512)).
    + rewrite fresh_byte; [by apply fo_bytes0| | |by rewrite BSIZE_val].
      * intros bn Hbn. rewrite E by lia. by replace (nb =? bn) with false by lia.
      * intros bn Hbn. unfold c'. apply upd_ne. intros Eb. pose proof (fo_blk0 bn Hbn) as Hb.
        rewrite Eb, fo_ind0 in Hb. injection Hb. lia.
    + apply fresh_zero; [|unfold c'; rewrite upd_ne; [done|]|by rewrite BSIZE_val|rewrite BSIZE_val; lia].
      * rewrite E by lia. by rewrite Z.eqb_refl.
      * apply Ho in fo_ind0. lia.
Qed.

(** Writing [q] behind the contents, in the last block. *)
Lemma file_write hi q :
  let off := Z.of_nat (length L) in
  let x := fblk c i (nb - 1) in
  file own c cur i nb hi L -> off / 512 = nb - 1 -> (Z.to_nat (off mod 512) + length q <= 512)%nat ->
  length (c x) = 512%nat ->
  file own (upd x (put_bytes (Z.to_nat (off mod 512)) q (c x)) c) cur i nb hi (L ++ q).
Proof using.
  intros off x [] Hoff Hq Hx. rewrite MAXFILE_val, BSIZE_val in *. set (c' := upd x _ c).
  assert (Hown : own x = Some (cur, nb - 1)) by (apply fo_blk0; unfold off in *; zlia).
  assert (E : forall bn, 0 <= bn < 140 -> fblk c' i bn = fblk c i bn).
  { intros bn Hbn. apply fblk_ext. intros Hi. unfold c'. apply upd_ne. intros Ei.
    destruct hi; [|done]. rewrite Ei in fo_ind0. rewrite Hown in fo_ind0. injection fo_ind0. unfold off in *. zlia. }
  split; rewrite ?MAXFILE_val, ?BSIZE_val; try done.
  - rewrite length_app. unfold off in *. zlia.
  - intros bn Hbn. rewrite E by lia. auto.
  - intros bn Hbn. rewrite E by lia. auto.
  - intros k Hk. unfold fbyte. rewrite BSIZE_val, E by (unfold off in *; zlia).
    destruct (decide (Z.of_nat k / 512 = nb - 1)) as [Eb|Hne].
    + rewrite Eb. fold x. unfold c'. rewrite upd_eq, byte_at_put_bytes by lia.
      pose proof (fo_bytes0 k Hk) as Hold. unfold fbyte in Hold. rewrite BSIZE_val, Eb in Hold. fold x in Hold.
      destruct (decide (k < length L)%nat) as [Hkl|Hkl].
      * rewrite decide_False by (unfold off in *; zlia). by rewrite lookup_app_l.
      * rewrite lookup_app_r by lia. destruct (decide (k < length L + length q)%nat).
        -- rewrite decide_True by (unfold off in *; zlia). do 2 f_equal. unfold off in *. zlia.
        -- rewrite decide_False by (unfold off in *; zlia). rewrite Hold, !lookup_ge_None_2 by lia. done.
    + assert (Hkl : (k < length L)%nat) by (unfold off in *; zlia).
      rewrite lookup_app_l, <- fo_bytes0 by (done || lia). unfold fbyte. rewrite BSIZE_val. f_equal. unfold c'. apply upd_ne.
      intros Ex. pose proof (fo_blk0 (Z.of_nat k / 512) ltac:(zlia)) as Hb.
      rewrite Ex, Hown in Hb. injection Hb. lia.
Qed.
End Alloc.

(** *** One turn of [iappend] *)

(** The inode [din] of file [cur] is in memory, with [nb] blocks and the contents [L]. *)
Record turn (own : owner) (cur : Z) (files : Z -> Z * list Z) (s : mkst) (din : dinode) (nb : Z) (hi : bool) (L : list Z) : Prop := Turn {
  t_build : build own cur files s;
  t_range : drange din;
  t_file : file own (blk (m_img s)) cur (node cur din) nb hi L }.

Definition same_fields (d d' : dinode) : Prop :=
  d_type d' = d_type d /\ d_major d' = d_major d /\ d_minor d' = d_minor d /\ d_nlink d' = d_nlink d.

Lemma drange_addr k v d : drange d -> 0 <= v < 4294967296 -> drange (set_d_addr k v d).
Proof.
  intros [] Hv. split; simpl; try done; [by rewrite length_insert|]. intros j.
  destruct (decide (j = Z.to_nat k)) as [->|Hne].
  - destruct (decide (Z.to_nat k < length (d_addrs d))%nat).
    + by rewrite list_lookup_insert_eq.
    + rewrite lookup_ge_None_2 by (rewrite length_insert; lia). simpl. lia.
  - rewrite list_lookup_insert_ne by done. auto.
Qed.

Lemma xint_addr k d : drange d -> xint Little (d_addr k d) = addr_of (node 0 d) k.
Proof. intros R. rewrite xint_little. apply u32_small, (dr_addrs _ R). Qed.

Section Turn.
Context (own : owner) (cur : Z) (files : Z -> Z * list Z) (s : mkst) (din : dinode) (nb : Z) (hi : bool) (L : list Z).
Context (T : turn own cur files s din nb hi L).

Abbreviation c := (blk (m_img s)).
Abbreviation fb := (m_freeblock s).

Lemma turn_own : own_ok own fb /\ nmeta <= fb.
Proof using T. destruct T as [[] _ _]. rewrite nmeta_val. split; [done|lia]. Qed.

(** Taking the next free block for [v]. *)
Lemma turn_alloc v : fb < 1000 -> next_block s = Done fb (with_fb (fb + 1) s) /\
  build (own_add fb v own) cur files (with_fb (fb + 1) s).
Proof using T. intros. apply next_block_run; [apply T|done]. Qed.

Lemma turn_direct :
  hi = false -> nb < 12 -> fb < 1000 ->
  turn (own_add fb (cur, nb) own) cur files (with_fb (fb + 1) s) (set_d_addr nb fb din) (nb + 1) false L.
Proof using T.
  intros Hh Hnb Hf. destruct turn_own as [Ho Hm]. destruct T as [B R F]. rewrite Hh in F. split.
  - by apply turn_alloc.
  - apply drange_addr; [done|]. pose proof (bd_fb _ _ _ _ B). lia.
  - apply (file_direct own c cur (node cur din)); auto. apply (bd_zero _ _ _ _ B). lia.
Qed.

Lemma turn_indirect :
  hi = false -> nb = 12 -> fb < 1000 ->
  turn (own_add fb (cur, -1) own) cur files (with_fb (fb + 1) s) (set_d_addr 12 fb din) nb true L.
Proof using T.
  intros Hh Hnb Hf. destruct turn_own as [Ho Hm]. destruct T as [B R F]. rewrite Hh in F. split.
  - by apply turn_alloc.
  - apply drange_addr; [done|]. pose proof (bd_fb _ _ _ _ B). lia.
  - apply (file_indirect own c cur (node cur din)); auto. apply (bd_zero _ _ _ _ B). lia.
Qed.

(** The indirect block of a file that has one. *)
Lemma turn_ind : hi = true ->
  let a := addr_of (node cur din) 12 in
  own a = Some (cur, -1) /\ rsect a s = Done (c a) s /\ length (c a) = 512%nat.
Proof using T.
  intros Hh a. destruct T as [B R F]. pose proof (fo_ind _ _ _ _ _ _ _ F) as Hi. rewrite Hh in Hi.
  pose proof (bd_own _ _ _ _ B _ _ Hi) as Hr. rewrite nmeta_val in Hr. pose proof (bd_fb _ _ _ _ B).
  change (ind (node cur din)) with a in *. split; [done|].
  split; [apply rsect_run; [apply B|lia]|]. apply (im_blk _ (bd_img _ _ _ _ B)). lia.
Qed.

Lemma turn_word :
  let a := addr_of (node cur din) 12 in
  let x := put_bytes (Z.to_nat (4 * (nb - 12))) (le32 fb) (c a) in
  let s1 := with_fb (fb + 1) s in
  hi = true -> 12 <= nb < 140 -> fb < 1000 ->
  exists s2, wsect a x s1 = Done tt s2 /\ m_freeblock s2 = fb + 1 /\ m_freeinode s2 = m_freeinode s /\
    blk (m_img s2) a = x /\
    turn (own_add fb (cur, nb) own) cur files s2 din (nb + 1) true L.
Proof using T.
  intros a x s1 Hh Hnb Hf. destruct (turn_ind Hh) as (Ha & _ & Hl). fold a in Ha, Hl.
  destruct turn_own as [Ho Hm]. destruct (turn_alloc (cur, nb) Hf) as [_ B1].
  assert (Hx : length x = 512%nat) by (unfold x; by rewrite length_put_bytes).
  destruct (build_write _ _ _ s1 a (-1) x B1) as (E & B2 & Eb); [by apply own_add_le|done|].
  eexists. split; [exact E|]. do 2 (split; [done|]). split; [simpl; rewrite Eb; apply upd_eq|].
  destruct T as [B R F]. split; [done|done|]. pose proof (bd_fb _ _ _ _ B). rewrite Hh in F.
  eapply (file_frame (own_add fb (cur, nb) own) _ (upd a x c)); [apply own_le_refl| |].
  - intros b k _. simpl. apply Eb.
  - apply (file_word own c cur (node cur din) nb fb L Ho Hm); [done|done|lia|done|].
    apply (bd_zero _ _ _ _ B). lia.
Qed.
End Turn.

Definition block_post (cur : Z) (files : Z -> Z * list Z) (s : mkst) (din : dinode) (nb fbn : Z) (L : list Z)
    (r : dinode * Z) (s' : mkst) : Prop :=
  exists own', turn own' cur files s' r.1 (fbn + 1) (12 <? fbn + 1) L /\
    r.2 = fblk (blk (m_img s')) (node cur r.1) fbn /\
    m_freeblock s' = m_freeblock s + cost (fbn + 1) - cost nb /\ m_freeinode s' = m_freeinode s /\
    same_fields din r.1.

Lemma iappend_block_direct own cur files s din nb fbn L :
  turn own cur files s din nb (12 <? nb) L -> 0 <= fbn < 12 -> fbn = nb - 1 \/ fbn = nb ->
  m_freeblock s + cost (fbn + 1) - cost nb <= 1000 ->
  returns (iappend_block Little fbn din) s (block_post cur files s din nb fbn L).
Proof.
  intros T Hf Hn Hc. destruct (turn_own _ _ _ _ _ _ _ _ T) as [Ho Hm]. pose proof T as [B R F].
  unfold iappend_block. rewrite NDIRECT_val. replace (fbn <? 12) with true by lia.
  assert (Ea : xint Little (d_addr fbn din) = fblk (blk (m_img s)) (node cur din) fbn).
  { rewrite xint_addr, fblk_direct by (done || lia). done. }
  assert (E12 : (12 <? fbn + 1) = false) by lia. destruct Hn as [Hn|Hn].
  - assert (Hnz : fblk (blk (m_img s)) (node cur din) fbn <> 0).
    { eapply own_nonzero; [done|]. apply (fo_blk _ _ _ _ _ _ _ F). lia. }
    rewrite Ea, (proj2 (Z.eqb_neq _ 0)) by done. apply returns_Done with din s; [done|]. apply returns_ret.
    exists own. simpl. rewrite Ea. replace (fbn + 1) with nb by lia.
    split; [exact T|]. split; [done|]. split; [lia|]. done.
  - assert (Hz : fblk (blk (m_img s)) (node cur din) fbn = 0).
    { apply (fo_none _ _ _ _ _ _ _ F). rewrite MAXFILE_val. lia. }
    assert (Ec : cost (fbn + 1) - cost nb = 1) by (unfold cost; rewrite E12; replace (12 <? nb) with false by lia; lia).
    rewrite Ea, Hz. change (0 =? 0) with true. cbv iota. destruct (turn_alloc _ _ _ _ _ _ _ _ T (cur, nb) ltac:(lia)) as [En _].
    subst fbn. assert (Eh : (12 <? nb) = false) by lia.
    pose proof (turn_direct _ _ _ _ _ _ _ _ T Eh ltac:(lia) ltac:(lia)) as T'.
    eapply returns_Done; [rewrite (bind_Done _ _ _ _ _ En); reflexivity|]. apply returns_ret.
    pose proof (bd_fb _ _ _ _ B).
    assert (Ex : xint Little (m_freeblock s) = m_freeblock s) by (rewrite xint_little; apply u32_small; lia). rewrite Ex.
    eexists. rewrite E12. split; [exact T'|]. simpl.
    split; [rewrite xint_addr, fblk_direct by (apply T' || lia); done|]. split; [lia|done].
Qed.

(** The part of [iappend_block] behind the indirect block. *)
Lemma iappend_block_word own cur files s din nb fbn L :
  turn own cur files s din nb true L -> 12 <= fbn < 140 -> fbn = nb - 1 \/ fbn = nb ->
  m_freeblock s + (fbn + 1) - nb <= 1000 ->
  returns
    (let! indirect := rsect (xint Little (d_addr NDIRECT din)) in
     let o := Z.to_nat (4 * (fbn - NDIRECT)) in
     let! indirect :=
       (if word_at Little indirect o =? 0 then
          let! b := next_block in
          let indirect := put_bytes o (word_bytes Little (xint Little b)) indirect in
          wsect (xint Little (d_addr NDIRECT din)) indirect ;;; m_ret indirect
        else m_ret indirect) in
     m_ret (din, xint Little (word_at Little indirect o))) s
    (fun r s' => exists own', turn own' cur files s' r.1 (fbn + 1) true L /\ r.1 = din /\
       r.2 = fblk (blk (m_img s')) (node cur din) fbn /\
       m_freeblock s' = m_freeblock s + (fbn + 1) - nb /\ m_freeinode s' = m_freeinode s).
Proof.
  intros T Hf Hn Hc. destruct (turn_own _ _ _ _ _ _ _ _ T) as [Ho Hm]. pose proof T as [B R F].
  rewrite xint_addr by done. rewrite NDIRECT_val. destruct (turn_ind _ _ _ _ _ _ _ _ T eq_refl) as (Ha & Er & Hl).
  change (addr_of (node 0 din) 12) with (addr_of (node cur din) 12). set (a := addr_of (node cur din) 12) in *.
  eapply returns_Done; [exact Er|]. cbv zeta. rewrite word_at_little.
  assert (Hi : ind (node cur din) <> 0) by by eapply own_nonzero.
  assert (Ew : ld32 (blk (m_img s) a) (Z.to_nat (4 * (fbn - 12))) = fblk (blk (m_img s)) (node cur din) fbn) by by rewrite fblk_indirect by lia.
  pose proof (bd_fb _ _ _ _ B) as Hfb. destruct Hn as [Hn|Hn].
  - assert (Hown : own (fblk (blk (m_img s)) (node cur din) fbn) = Some (cur, fbn)) by (apply (fo_blk _ _ _ _ _ _ _ F); lia).
    pose proof (bd_own _ _ _ _ B _ _ Hown) as Hr. rewrite nmeta_val in Hr.
    rewrite Ew, (proj2 (Z.eqb_neq _ 0)) by lia. apply returns_Done with (blk (m_img s) a) s; [done|]. apply returns_ret.
    exists own. simpl. rewrite word_at_little, Ew, xint_little, u32_small by lia. replace (fbn + 1) with nb by lia.
    split; [exact T|]. do 2 (split; [done|]). split; [lia|done].
  - assert (Hz : fblk (blk (m_img s)) (node cur din) fbn = 0) by (apply (fo_none _ _ _ _ _ _ _ F); rewrite MAXFILE_val; lia).
    rewrite Ew, Hz. change (0 =? 0) with true. cbv iota. destruct (turn_alloc _ _ _ _ _ _ _ _ T (cur, nb) ltac:(lia)) as [En _].
    subst fbn. destruct (turn_word _ _ _ _ _ _ _ _ T eq_refl ltac:(lia) ltac:(lia)) as (s2 & E2 & Ef & Ei & Eb & T').
    fold a in E2, Eb. assert (Ex : xint Little (m_freeblock s) = m_freeblock s) by (rewrite xint_little; apply u32_small; lia).
    eapply returns_Done.
    { rewrite (bind_Done _ _ _ _ _ En). cbv beta zeta. rewrite Ex. change (word_bytes Little) with le32.
      rewrite (bind_Done _ _ _ _ _ E2). reflexivity. }
    apply returns_ret. eexists. split; [exact T'|]. split; [done|]. cbn [fst snd]. split; [|lia].
    rewrite word_at_little, xint_little, fblk_indirect by (done || lia). change (ind (node cur din)) with a. rewrite Eb.
    rewrite (ld32_bytes _ _ (m_freeblock s)); [by rewrite u32_small by lia|lia|].
    intros j Hj. rewrite byte_at_put_bytes by (simpl; lia). rewrite decide_True by (simpl; lia). do 2 f_equal. lia.
Qed.

Lemma iappend_block_ok own cur files s din nb fbn L :
  turn own cur files s din nb (12 <? nb) L -> 0 <= fbn < 140 -> fbn = nb - 1 \/ fbn = nb ->
  m_freeblock s + cost (fbn + 1) - cost nb <= 1000 ->
  returns (iappend_block Little fbn din) s (block_post cur files s din nb fbn L).
Proof.
  intros T Hf Hn Hc. destruct (Z.ltb_spec fbn 12) as [Hlt|Hge]; [eapply iappend_block_direct; eauto; lia|].
  pose proof T as [B R F]. destruct (turn_own _ _ _ _ _ _ _ _ T) as [Ho Hm]. pose proof (bd_fb _ _ _ _ B) as Hfb.
  unfold iappend_block. rewrite NDIRECT_val. replace (fbn <? 12) with false by lia. rewrite xint_addr by done.
  change (addr_of (node 0 din) 12) with (ind (node cur din)). assert (E12 : (12 <? fbn + 1) = true) by lia.
  unfold block_post. rewrite E12. unfold cost in Hc. rewrite E12 in Hc. pose proof (fo_ind _ _ _ _ _ _ _ F) as Hi.
  destruct (Z.ltb_spec 12 nb) as [Hnb|Hnb].
  - assert (Hnz : ind (node cur din) <> 0) by by eapply own_nonzero.
    rewrite (proj2 (Z.eqb_neq _ 0)) by done. apply returns_Done with din s; [done|].
    rlast iappend_block_word; [done|lia|done|lia|]. intros r s' (own' & T' & Er & E2 & Ef & Ei).
    exists own'. rewrite Er in *. split; [done|]. split; [done|]. split; [|done]. unfold cost. rewrite E12.
    replace (12 <? nb) with true by lia. lia.
  - rewrite Hi. change (0 =? 0) with true. cbv iota. assert (nb = 12) as -> by lia. change (12 <? 12) with false in T.
    destruct (turn_alloc _ _ _ _ _ _ _ _ T (cur, -1) ltac:(lia)) as [En _].
    pose proof (turn_indirect _ _ _ _ _ _ _ _ T eq_refl eq_refl ltac:(lia)) as T1.
    assert (Ex : xint Little (m_freeblock s) = m_freeblock s) by (rewrite xint_little; apply u32_small; lia).
    eapply returns_Done; [rewrite (bind_Done _ _ _ _ _ En), Ex; reflexivity|].
    rlast iappend_block_word; [exact T1|lia|lia|simpl; lia|]. intros r s' (own' & T' & Er & E2 & Ef & Ei).
    exists own'. rewrite Er in *. split; [done|]. split; [done|]. split; [|done]. rewrite Ef. unfold cost. rewrite E12. simpl. lia.
Qed.

Lemma cost_mono a b : a <= b -> cost a <= cost b.
Proof. intros. unfold cost. destruct (Z.ltb_spec 12 a), (Z.ltb_spec 12 b); lia. Qed.

Definition append_post (cur : Z) (files : Z -> Z * list Z) (s : mkst) (din : dinode) (off : Z) (L p : list Z)
    (r : dinode * Z) (s' : mkst) : Prop :=
  let nb := nbl (off + Z.of_nat (length p)) in
  exists own', turn own' cur files s' r.1 nb (12 <? nb) (L ++ p) /\ r.2 = off + Z.of_nat (length p) /\
    m_freeblock s' = m_freeblock s + cost nb - cost (nbl off) /\ m_freeinode s' = m_freeinode s /\
    same_fields din r.1.

Lemma same_fields_trans d1 d2 d3 : same_fields d1 d2 -> same_fields d2 d3 -> same_fields d1 d3.
Proof. unfold same_fields. intuition congruence. Qed.

Lemma append_nil own cur files s din L :
  let off := Z.of_nat (length L) in
  turn own cur files s din (nbl off) (12 <? nbl off) L -> append_post cur files s din off L [] (din, off) s.
Proof. intros off T. exists own. simpl. rewrite Z.add_0_r, app_nil_r. split; [exact T|]. split; [done|]. split; [lia|done]. Qed.

(** The data of one turn is written to the last block. *)
Lemma turn_write own cur files s din L fbn q :
  let off := Z.of_nat (length L) in
  let x := fblk (blk (m_img s)) (node cur din) fbn in
  turn own cur files s din (fbn + 1) (12 <? fbn + 1) L -> off / 512 = fbn -> 0 <= fbn ->
  (Z.to_nat (off mod 512) + length q <= 512)%nat ->
  exists s', (let! buf := rsect x in wsect x (put_bytes (Z.to_nat (off mod 512)) q buf)) s = Done tt s' /\
    m_freeblock s' = m_freeblock s /\ m_freeinode s' = m_freeinode s /\
    turn own cur files s' din (fbn + 1) (12 <? fbn + 1) (L ++ q).
Proof.
  intros off x [B R F] Hoff Hfbn Hq.
  assert (Hown : own x = Some (cur, fbn)) by (apply (fo_blk _ _ _ _ _ _ _ F); lia).
  pose proof (bd_own _ _ _ _ B _ _ Hown) as Hr. rewrite nmeta_val in Hr. pose proof (bd_fb _ _ _ _ B).
  assert (Hlx : length (blk (m_img s) x) = 512%nat) by (apply (im_blk _ (bd_img _ _ _ _ B)); lia).
  set (y := put_bytes (Z.to_nat (off mod 512)) q (blk (m_img s) x)).
  destruct (build_write _ _ _ s x fbn y B Hown) as (Ew & B' & Eb); [unfold y; by rewrite length_put_bytes|].
  eexists. split; [rewrite (bind_Done _ _ _ _ _ (rsect_run s x (im_len _ (bd_img _ _ _ _ B)) ltac:(lia))); exact Ew|].
  do 2 (split; [done|]). split; [done|done|].
  eapply (file_frame own own (upd x y (blk (m_img s)))); [apply own_le_refl|intros b k _; apply Eb|].
  pose proof (file_write own (blk (m_img s)) cur (node cur din) (fbn + 1) L (12 <? fbn + 1) q F) as Fw.
  cbv zeta in Fw. rewrite Z.add_simpl_r in Fw. by apply Fw.
Qed.

Lemma iappend_loop_ok fuel own cur files s din L p :
  let off := Z.of_nat (length L) in
  turn own cur files s din (nbl off) (12 <? nbl off) L -> (length p <= fuel)%nat ->
  off + Z.of_nat (length p) <= 140 * 512 ->
  m_freeblock s + cost (nbl (off + Z.of_nat (length p))) - cost (nbl off) <= 1000 ->
  returns (iappend_loop Little fuel din off p) s (append_post cur files s din off L p).
Proof.
  revert own s din L p. induction fuel as [|fuel IH]; intros own s din L p off T Hp Hm Hc.
  { destruct p; [|simpl in Hp; lia]. by eapply returns_ret, append_nil. }
  destruct p as [|v p0]; [by eapply returns_ret, append_nil|].
  remember (v :: p0) as p eqn:Ep. assert (Hp1 : (0 < length p)%nat) by (rewrite Ep; simpl; lia).
  assert (El : iappend_loop Little (S fuel) din off p =
    (if negb (off / BSIZE <? MAXFILE) then panic "assert" else
     let! r := iappend_block Little (off / BSIZE) din in
     let '(din, x) := r in
     let n1 := Z.min (Z.of_nat (length p)) (u32 ((off / BSIZE + 1) * BSIZE - off)) in
     let! buf := rsect x in
     wsect x (put_bytes (Z.to_nat (off - off / BSIZE * BSIZE)) (take (Z.to_nat n1) p) buf) ;;;
     iappend_loop Little fuel din (u32 (off + n1)) (drop (Z.to_nat n1) p))) by by rewrite Ep.
  rewrite El. clear El Ep v p0. rewrite BSIZE_val, MAXFILE_val. set (fbn := off / 512) in *.
  assert (Hoff : 0 <= off) by (unfold off; lia).
  replace (fbn <? 140) with true by (unfold fbn; zlia). cbn [negb].
  set (n1 := Z.min (Z.of_nat (length p)) ((fbn + 1) * 512 - off)).
  assert (Hn1 : 0 < n1 <= 512 - off mod 512) by (unfold n1, fbn; zlia).
  assert (Enb : nbl (off + n1) = fbn + 1) by (unfold nbl, n1, fbn in *; zlia).
  assert (Hmono : cost (fbn + 1) <= cost (nbl (off + Z.of_nat (length p)))).
  { rewrite <- Enb. apply cost_mono. unfold nbl. apply Z.div_le_mono; [lia|]. unfold n1. lia. }
  rstep iappend_block_ok; [exact T|unfold fbn; zlia|unfold nbl, fbn; zlia|lia|].
  intros [din1 x] s1 (own1 & T1 & Ex & Ef & Ei & Sf). cbn [fst snd] in *. cbv zeta.
  rewrite (u32_small ((fbn + 1) * 512 - off)) by (unfold fbn; zlia). fold n1.
  replace (off - fbn * 512) with (off mod 512) by (unfold fbn; zlia). set (q := take (Z.to_nat n1) p).
  assert (Hq : length q = Z.to_nat n1) by (unfold q; rewrite length_take; unfold n1; lia).
  destruct (turn_write _ _ _ _ _ _ _ q T1) as (s2 & E2 & Ef2 & Ei2 & T2); [done|unfold fbn; zlia|fold off; lia|].
  fold off in E2. rewrite <- Ex in E2.
  assert (Eoff : off + n1 = Z.of_nat (length (L ++ q))) by (rewrite length_app; unfold off; lia).
  apply returns_bind_assoc_l with tt s2; [exact E2|].
  rewrite (u32_small (off + n1)) by lia. rewrite Eoff.
  rewrite <- Enb, Eoff in T2. assert (Hd : Z.of_nat (length (drop (Z.to_nat n1) p)) = Z.of_nat (length p) - n1).
  { rewrite length_drop. unfold n1. lia. }
  assert (Esum : Z.of_nat (length (L ++ q)) + Z.of_nat (length (drop (Z.to_nat n1) p)) = off + Z.of_nat (length p)) by lia.
  rlast (IH own1 s2 din1 (L ++ q) (drop (Z.to_nat n1) p) T2); [lia|lia|rewrite Esum, <- Eoff, Enb, Ef2, Ef; lia|].
  intros r s' (own' & T' & Er & Ef' & Ei' & Sf'). exists own'. rewrite Esum in *.
  rewrite <- app_assoc in T'. unfold q in T'. rewrite take_drop in T'. split; [done|]. split; [done|].
  split; [rewrite Ef', <- Eoff, Enb, Ef2, Ef; lia|]. split; [congruence|]. eauto using same_fields_trans.
Qed.

(** ** Appending to a file *)

Definition set_file (inum : Z) (f : Z * list Z) (files : Z -> Z * list Z) : Z -> Z * list Z :=
  fun n => if decide (n = inum) then f else files n.

Lemma file_size own c inum d v nb hi L :
  file own c inum (node inum d) nb hi L -> file own c inum (node inum (set_d_size v d)) nb hi L.
Proof. by intros []. Qed.

Lemma drange_size v d : drange d -> 0 <= v < 4294967296 -> drange (set_d_size v d).
Proof. intros [] ?. by split. Qed.

Lemma build_weaken own cur files s : build own 0 files s -> build own cur files s.
Proof. intros []. split; try done. intros inum Hi _. apply bd_files0; lia. Qed.

(** Writing the inode finishes a file. *)
Lemma inode_written own cur files s d f :
  build own cur files s -> 1 <= cur < m_freeinode s -> drange d ->
  d_type d = f.1 -> d_major d = 0 /\ d_minor d = 0 -> d_nlink d = 1 -> d_size d = Z.of_nat (length f.2) ->
  (let nb := nbl (Z.of_nat (length f.2)) in file own (blk (m_img s)) cur (node cur d) nb (12 <? nb) f.2) ->
  returns (winode Little cur d) s (fun _ s' => build own 0 (set_file cur f files) s' /\
    m_freeblock s' = m_freeblock s /\ m_freeinode s' = m_freeinode s).
Proof.
  intros B Hc R Ht Hv Hn Hs F. pose proof (bd_fi _ _ _ _ B) as Hfi. pose proof (bd_fb _ _ _ _ B) as Hfb.
  destruct (winode_run s cur d) as (img & E & I & Ed & Eo & Eb); [apply B|apply B|lia|done|].
  exists tt, (with_img img s). split; [done|]. split; [|done].
  assert (Ec : forall b v, own b = Some v -> blk img b = blk (m_img s) b).
  { intros b v Hb. pose proof (bd_own _ _ _ _ B _ _ Hb). rewrite nmeta_val in *. apply Eb. lia. }
  destruct B. split; try done.
  - eapply head_frame; [|exact bd_head0]. intros b Hb. apply Eb. lia.
  - intros b Hb. simpl in *. rewrite Eb by lia. auto.
  - intros inum Hi _. simpl in Hi. unfold set_file. destruct (decide (inum = cur)) as [->|Hne].
    + change (m_img (with_img img s)) with img. split; rewrite ?Ed; try done. eapply (file_frame own own (blk (m_img s))); eauto using own_le_refl.
    + eapply (on_disk_frame own own (blk (m_img s))); eauto using own_le_refl. apply Eo; lia.
Qed.

Lemma iappend_ok own files s inum ty L p :
  let off := Z.of_nat (length L) in
  let nb := nbl (off + Z.of_nat (length p)) in
  build own 0 files s -> 1 <= inum < m_freeinode s -> files inum = (ty, L) ->
  off + Z.of_nat (length p) <= 140 * 512 -> m_freeblock s + cost nb - cost (nbl off) <= 1000 ->
  returns (iappend Little inum p) s (fun _ s' => exists own',
    build own' 0 (set_file inum (ty, L ++ p) files) s' /\
    m_freeblock s' = m_freeblock s + cost nb - cost (nbl off) /\ m_freeinode s' = m_freeinode s).
Proof.
  intros off nb B Hi Hf Hm Hc. pose proof (bd_fi _ _ _ _ B) as Hfi.
  destruct (bd_files _ _ _ _ B inum Hi ltac:(lia)) as [R Et Ev En Es F]. rewrite Hf in *. cbn [fst snd] in *.
  unfold iappend. eapply returns_Done; [apply rinode_run; [apply B|apply B|lia]|].
  rewrite xint_little, u32_small by (rewrite Es; lia). rewrite Es.
  rstep iappend_loop_ok; [split; [by apply build_weaken|done|exact F]|done|lia|done|].
  intros [din off'] s1 (own' & T' & Eo & Ef & Ei & (S1 & S2 & S3 & S4)). cbn [fst snd] in *. destruct T' as [B' R' F'].
  assert (Hl : off' = Z.of_nat (length (L ++ p))) by (rewrite length_app; unfold off in *; lia).
  rewrite xint_little, u32_small by lia.
  eapply returns_mono; [apply (inode_written own' inum files s1 (set_d_size off' din) (ty, L ++ p)); simpl; try done|];
    [lia|apply drange_size; [done|lia]|by rewrite S1|by rewrite S2, S3|by rewrite S4| |].
  - rewrite <- Hl, Eo. by apply file_size.
  - intros _ s' (B2 & Ef2 & Ei2). exists own'. split; [done|]. split; [by rewrite Ef2|congruence].
Qed.
