(* ===== verification/MkfsImage.v ===== *)
(** * The image mkfs makes is a file system the kernel can use

    On a little-endian host, the image that mkfs.c writes satisfies what the theorems about
    fs.c assume of a disk: the layout, the free map, the root directory with all the names,
    and files with the contents they had on the host. *)

From stdpp Require Import base tactics numbers list sets gmap strings.
From Stdlib Require Import ZArith Lia ZifyNat ZifyBool.
From S2P Require Import Prelude Layout Sleeplock Bio BioSpec Log Fs FsTx FsBlocks FsFile FsRw FsInode FsDir Mkfs MkfsSpec.

#[local] Arguments Z.testbit : simpl never.
#[local] Arguments Nat.mul : simpl never.

(** ** New inodes *)

Definition fresh_dinode (ty : Z) : dinode := Dinode ty 0 0 1 0 (replicate 13 0).

Lemma fresh_addr k : default 0 (replicate 13 0 !! k) = 0.
Proof. destruct (replicate 13 0 !! k) as [v|] eqn:E; [|done]. by apply lookup_replicate in E as [-> _]. Qed.

Lemma fresh_file own c inum ty : file own c inum (node inum (fresh_dinode ty)) 0 false [].
Proof.
  assert (E : forall bn, fblk c (node inum (fresh_dinode ty)) bn = 0).
  { intros bn. unfold fblk, ind, addr_of. simpl i_addrs. rewrite !fresh_addr. by destruct (bn <? _). }
  split; rewrite ?MAXFILE_val, ?BSIZE_val; try done; try lia.
Qed.

Lemma ialloc_ok own files s ty :
  build own 0 files s -> m_freeinode s < 200 -> 0 <= ty < 65536 ->
  returns (ialloc Little ty) s (fun r s' => r = m_freeinode s /\
    build own 0 (set_file (m_freeinode s) (ty, []) files) s' /\
    m_freeblock s' = m_freeblock s /\ m_freeinode s' = m_freeinode s + 1).
Proof.
  intros B Hf Hty. pose proof (bd_fi _ _ _ _ B) as Hfi. unfold ialloc.
  apply returns_get. eapply returns_Done; [done|]. cbv beta.
  rewrite !xshort_little, xint_little. rewrite (u32_small (m_freeinode s + 1)) by lia.
  replace (u16 ty) with ty by (unfold u16; zlia).
  change (Dinode ty 0 0 (u16 1) (u32 0) (replicate 13 0)) with (fresh_dinode ty).
  set (s1 := Mk _ _ _ _). set (inum := m_freeinode s) in *.
  assert (B1 : build own inum files s1).
  { destruct B as [I Hs Hb _ Ho Hh Hz Hfl]. split; try done; simpl; [lia|]. intros j Hj Hne. apply Hfl; fold inum; lia. }
  rstep (inode_written own inum files s1 (fresh_dinode ty) (ty, [])); [done|simpl; lia| |done..|apply fresh_file|].
  - split; simpl; try done; [lia..|]. intros k. rewrite fresh_addr. lia.
  - intros _ s' (B' & Ef & Ei). apply returns_ret. done.
Qed.

(** ** Whole files *)

Lemma build_ext own files files' s :
  (forall j, 1 <= j < m_freeinode s -> files' j = files j) -> build own 0 files s -> build own 0 files' s.
Proof. intros E []. split; try done. intros j Hj Hne. rewrite E by done. auto. Qed.

Lemma set_file_eq inum f files : set_file inum f files inum = f.
Proof. unfold set_file. by rewrite decide_True. Qed.
Lemma set_file_ne inum f files j : j <> inum -> set_file inum f files j = files j.
Proof. intros. unfold set_file. by rewrite decide_False. Qed.

(** The blocks of a file of [n] bytes. *)
Abbreviation blocks_for n := (cost (nbl (Z.of_nat n))).

Lemma nbl_mono a b : a <= b -> nbl a <= nbl b.
Proof. intros. unfold nbl. apply Z.div_le_mono; lia. Qed.

Lemma append_chunks_ok own files s inum ty L chunks :
  let n := length (L ++ concat chunks) in
  build own 0 files s -> 1 <= inum < m_freeinode s -> files inum = (ty, L) ->
  Z.of_nat n <= 140 * 512 -> m_freeblock s + blocks_for n - blocks_for (length L) <= 1000 ->
  returns (append_chunks Little inum chunks) s (fun _ s' => exists own',
    build own' 0 (set_file inum (ty, L ++ concat chunks) files) s' /\
    m_freeblock s' = m_freeblock s + blocks_for n - blocks_for (length L) /\ m_freeinode s' = m_freeinode s).
Proof.
  revert own files s L. induction chunks as [|p chunks IH]; intros own files s L n B Hi Hf Hm Hc; simpl in *.
  - apply returns_ret. exists own. unfold n. rewrite app_nil_r. split; [|lia].
    eapply build_ext; [|done]. intros j Hj. unfold set_file. by destruct (decide _) as [->|].
  - assert (En : n = length ((L ++ p) ++ concat chunks)) by (unfold n; by rewrite <- app_assoc).
    assert (El : Z.of_nat (length L) + Z.of_nat (length p) = Z.of_nat (length (L ++ p))) by (rewrite length_app; lia).
    assert (Hle : Z.of_nat (length (L ++ p)) <= Z.of_nat n) by (rewrite En, (length_app (L ++ p)); lia).
    pose proof (cost_mono _ _ (nbl_mono _ _ Hle)).
    rstep iappend_ok; [done|done|done|lia|rewrite El; lia|].
    intros _ s1 (own1 & B1 & Ef & Ei). rewrite El in Ef.
    rlast (IH own1 _ s1 (L ++ p) B1); [lia|apply set_file_eq|by rewrite <- En|rewrite <- En; lia|].
    intros _ s' (own' & B' & Ef' & Ei'). exists own'. rewrite <- En in Ef'. split; [|lia].
    eapply build_ext; [|exact B']. intros j Hj. unfold set_file. destruct (decide _); [|done]. by rewrite app_assoc.
Qed.

(** ** The arguments of mkfs *)

Definition arg : Type := list Z * option (list (list Z)).

Definition file_name (a : arg) : list Z := if hd 0 a.1 =? UNDERSCORE then tail a.1 else a.1.
Definition contents (a : arg) : list Z := concat (default [] a.2).

(** The entries of the root directory, and all inodes by number. *)
Definition root_entries (args : list arg) : list (Z * list Z) :=
  (1, [46]) :: (1, [46; 46]) :: imap (fun k a => (2 + Z.of_nat k, file_name a)) args.
Definition root_bytes (args : list arg) : list Z := root_entries args ≫= (fun e => dirent e.1 e.2).
Definition tree (args : list arg) (inum : Z) : Z * list Z :=
  if inum =? 1 then (T_DIR, root_bytes args)
  else match args !! Z.to_nat (inum - 2) with Some a => (T_FILE, contents a) | None => (0, []) end.

(** The first block that is not used. *)
Definition data_end (args : list arg) : Z :=
  59 + cost (nbl (16 * (2 + Z.of_nat (length args)))) + foldr (fun a n => blocks_for (length (contents a)) + n) 0 args.

(** What mkfs can store: openable files with names without a slash, at most 198 of them, none
    larger than a file can be, and all together no more than the disk has blocks for. *)
Record fits (args : list arg) : Prop := Fits {
  ft_arg a : a ∈ args -> (SLASH ∉ a.1) /\ is_Some a.2 /\ Z.of_nat (length (contents a)) <= 140 * 512;
  ft_inodes : Z.of_nat (length args) <= 198;
  ft_blocks : data_end args <= 1000 }.

Lemma dirent_bytes_little inum name : 0 <= inum < 65536 -> dirent_bytes Little inum name = dirent inum name.
Proof.
  intros. unfold dirent_bytes, dirent. rewrite xshort_little. replace (u16 inum) with inum by (unfold u16; zlia). done.
Qed.

Lemma root_bytes_snoc args a :
  root_bytes (args ++ [a]) = root_bytes args ++ dirent (2 + Z.of_nat (length args)) (file_name a).
Proof.
  unfold root_bytes, root_entries. rewrite imap_app. simpl. rewrite Nat.add_0_r, bind_app. simpl.
  by rewrite app_nil_r.
Qed.

Lemma length_root_bytes args : Z.of_nat (length (root_bytes args)) = 16 * (2 + Z.of_nat (length args)).
Proof.
  induction args as [|a args IH] using rev_ind; [done|]. rewrite root_bytes_snoc, !length_app, length_dirent. cbn [length]. lia.
Qed.

Lemma cost_nonneg n : 0 <= n -> 0 <= cost (nbl n).
Proof. intros. unfold cost, nbl. destruct (_ <? _); zlia. Qed.

Lemma data_end_snoc args a :
  data_end (args ++ [a]) = data_end args + cost (nbl (16 * (3 + Z.of_nat (length args)))) -
    cost (nbl (16 * (2 + Z.of_nat (length args)))) + blocks_for (length (contents a)).
Proof.
  unfold data_end. rewrite foldr_app, length_app. simpl.
  replace (2 + Z.of_nat (length args + 1)) with (3 + Z.of_nat (length args)) by lia.
  enough (E : forall x, foldr (fun a n => blocks_for (length (contents a)) + n) x args =
    foldr (fun a n => blocks_for (length (contents a)) + n) 0 args + x) by (rewrite E; lia).
  intros x. induction args as [|b l IH]; simpl; lia.
Qed.

Lemma data_end_app args args' : data_end args <= data_end (args ++ args').
Proof.
  induction args' as [|a args' IH] using rev_ind; [by rewrite app_nil_r|].
  rewrite app_assoc, data_end_snoc. etrans; [exact IH|].
  pose proof (cost_nonneg (Z.of_nat (length (contents a))) ltac:(lia)).
  pose proof (cost_mono _ _ (nbl_mono (16 * (2 + Z.of_nat (length (args ++ args')))) (16 * (3 + Z.of_nat (length (args ++ args')))) ltac:(lia))).
  lia.
Qed.

(** ** The loop over the arguments *)

(** The image holds [args], and nothing else. *)
Definition holds (own : owner) (args : list arg) (s : mkst) : Prop :=
  build own 0 (tree args) s /\ m_freeinode s = 2 + Z.of_nat (length args) /\ m_freeblock s = data_end args.

Lemma tree_root args : tree args 1 = (T_DIR, root_bytes args).
Proof. done. Qed.

(** Adding a file to the tree: its directory entry, and its contents. *)
Lemma tree_snoc args a j :
  let inum := 2 + Z.of_nat (length args) in
  1 <= j < inum + 1 ->
  tree (args ++ [a]) j =
    set_file inum (T_FILE, contents a)
      (set_file 1 (T_DIR, root_bytes args ++ dirent inum (file_name a)) (set_file inum (T_FILE, []) (tree args))) j.
Proof.
  intros inum Hj. unfold tree, set_file. rewrite root_bytes_snoc.
  destruct (decide (j = inum)) as [->|Hn].
  - replace (inum =? 1) with false by lia. rewrite lookup_app_r by lia.
    by replace (Z.to_nat (inum - 2) - length args)%nat with 0%nat by lia.
  - destruct (decide (j = 1)) as [->|H1]; [done|]. replace (j =? 1) with false by lia. by rewrite lookup_app_l by lia.
Qed.

Lemma add_file_ok own args a s :
  fits (args ++ [a]) -> holds own args s ->
  returns (add_file Little 1 a) s (fun _ s' => exists own', holds own' (args ++ [a]) s').
Proof.
  intros [Ha Hn Hb] (B & Ei & Ef). destruct (Ha a) as (Hs & [chunks Eo] & Hl); [set_solver|].
  rewrite length_app in Hn. cbn [length] in Hn. set (inum := 2 + Z.of_nat (length args)) in *.
  rewrite data_end_snoc in Hb. pose proof (cost_nonneg (Z.of_nat (length (contents a))) ltac:(lia)) as Hc0.
  assert (El : 16 * (3 + Z.of_nat (length args)) = Z.of_nat (length (root_bytes args)) + Z.of_nat (length (dirent inum (file_name a)))).
  { rewrite length_root_bytes, length_dirent. lia. }
  unfold add_file. rewrite bool_decide_eq_false_2 by done. rewrite Eo.
  rstep ialloc_ok; [done|lia|done|]. intros r s1 (-> & B1 & Ef1 & Ei1). rewrite Ei in B1, Ei1 |- *. fold (file_name a).
  rewrite dirent_bytes_little by lia. pose proof (length_root_bytes args) as Hlr.
  rstep (iappend_ok own _ s1 1 T_DIR (root_bytes args) (dirent inum (file_name a)) B1);
    [lia|apply set_file_ne; unfold inum; lia|lia|rewrite <- El, Hlr; lia|].
  rewrite <- El, Hlr. intros _ s2 (own2 & B2 & Ef2 & Ei2).
  assert (Ec : concat chunks = contents a) by (unfold contents; by rewrite Eo).
  rlast (append_chunks_ok own2 _ s2 inum T_FILE [] chunks B2); cbn [app];
    [lia|rewrite set_file_ne by (unfold inum; lia); apply set_file_eq|by rewrite Ec|rewrite Ec; change (blocks_for (length [])) with 0; lia|].
  rewrite Ec. change (blocks_for (length [])) with 0. intros _ s' (own' & B' & Ef' & Ei'). exists own'.
  unfold holds. rewrite data_end_snoc, length_app. cbn [length]. split; [|lia].
  eapply build_ext; [|exact B']. intros j Hj. apply tree_snoc. fold inum. lia.
Qed.

Lemma fits_app args args' : fits (args ++ args') -> fits args.
Proof.
  intros [Ha Hn Hb]. rewrite length_app in Hn. split; [intros a Hi; apply Ha, elem_of_app; by left|lia|].
  pose proof (data_end_app args args'). lia.
Qed.

Lemma add_files_ok rest own args s :
  fits (args ++ rest) -> holds own args s ->
  returns (mfor rest (add_file Little 1)) s (fun _ s' => exists own', holds own' (args ++ rest) s').
Proof.
  revert own args s. induction rest as [|a rest IH]; intros own args s F H; simpl.
  - apply returns_ret. exists own. by rewrite app_nil_r.
  - rewrite (cons_middle a) , app_assoc in F |- *. rstep add_file_ok; [by eapply fits_app|done|].
    intros _ s1 [own1 H1]. by eapply IH.
Qed.

(** ** The empty file system *)

Lemma replicate_snoc {A} n (x : A) : replicate n x ++ [x] = replicate (S n) x.
Proof. by rewrite <- replicate_cons_app. Qed.

(** The first loop of [main] zeroes the disk. *)
Lemma zero_disk_ok n k s :
  m_img s = replicate k zeroes -> (k + n <= 1000)%nat ->
  mfor (seq k n) (fun i => wsect (Z.of_nat i) zeroes) s = Done tt (with_img (replicate (k + n) zeroes) s).
Proof.
  revert k s. induction n as [|n IH]; intros k s E Hk; cbn [seq mfor].
  - rewrite Nat.add_0_r, <- E. by destruct s.
  - assert (E1 : wsect (Z.of_nat k) zeroes s = Done tt (with_img (replicate (S k) zeroes) s)).
    { unfold wsect. munf. rewrite sector_small by lia. unfold write_block. rewrite E, length_replicate, Nat2Z.id.
      rewrite decide_False, Nat.sub_diag by lia. simpl. by rewrite replicate_snoc. }
    rewrite (bind_Done _ _ _ _ _ E1), IH by (done || lia). by rewrite Nat.add_succ_r.
Qed.

Lemma length_super : length super_block = 512%nat.
Proof. done. Qed.

Lemma blk_zero_disk b : 0 <= b < 1000 -> blk (replicate 1000 zeroes) b = zeroes.
Proof. intros. unfold blk. by rewrite lookup_replicate_2 by lia. Qed.

Lemma empty_build s :
  m_sb s = sb0 -> m_freeinode s = 1 -> m_freeblock s = 59 ->
  build (fun _ => None) 0 (fun _ => (0, [])) (with_img (<[1%nat := super_block]> (replicate 1000 zeroes)) s).
Proof.
  intros Hs Hi Hf. set (img := <[1%nat := _]> _).
  assert (I0 : img_ok (replicate 1000 zeroes)).
  { split; [apply length_replicate|]. intros n Hn. by rewrite blk_zero_disk. }
  assert (E : forall b, blk img b = upd 1 super_block (blk (replicate 1000 zeroes)) b).
  { intros b. apply (blk_insert (replicate 1000 zeroes) 1); [apply length_replicate|lia]. }
  split; simpl; try lia; try done.
  - apply (img_ok_insert (replicate 1000 zeroes) 1); [done|lia|done].
  - split; [rewrite E; apply upd_eq|]. intros b Hb. rewrite E, upd_ne, blk_zero_disk by lia. done.
  - intros b Hb. rewrite E, upd_ne, blk_zero_disk by lia. done.
Qed.

(** The part of [main] before the loop over the arguments. *)
Lemma root_ok own s (k : Z -> M mkst unit) Q :
  build own 0 (fun _ => (0, [])) s -> m_freeinode s = 1 -> m_freeblock s = 59 ->
  (forall own' s', holds own' [] s' -> returns (k 1) s' Q) ->
  returns (let! rootino := ialloc Little T_DIR in
           if negb (rootino =? ROOTINO) then panic "assert" else
           iappend Little rootino (dirent_bytes Little rootino [46]) ;;;
           iappend Little rootino (dirent_bytes Little rootino [46; 46]) ;;; k rootino) s Q.
Proof.
  intros B Hi Hf Hk. rstep ialloc_ok; [done|lia|done|]. intros r s1 (-> & B1 & Ef1 & Ei1). rewrite Hi in *.
  change (negb (1 =? ROOTINO)) with false. cbv iota. rewrite !dirent_bytes_little by lia.
  rstep (iappend_ok own _ s1 1 T_DIR [] (dirent 1 [46]) B1); [lia|apply set_file_eq|by vm_compute|..].
  { rewrite Ef1, Hf. by vm_compute. }
  intros _ s2 (own2 & B2 & Ef2 & Ei2).
  rstep (iappend_ok own2 _ s2 1 T_DIR (dirent 1 [46]) (dirent 1 [46; 46]) B2); [lia|apply set_file_eq|by vm_compute|..].
  { rewrite Ef2, Ef1, Hf. by vm_compute. }
  intros _ s3 (own3 & B3 & Ef3 & Ei3). apply (Hk own3). split; [|split].
  - eapply build_ext; [|exact B3]. intros j Hj. assert (j = 1) as -> by lia. by rewrite set_file_eq.
  - rewrite Ei3, Ei2, Ei1. done.
  - rewrite Ef3, Ef2, Ef1, Hf. done.
Qed.

(** ** The end of [main]: the size of the root directory and the free map *)

(** The entries that fill the last block of the root directory. *)
Definition padding (args : list arg) : nat :=
  let n := Z.of_nat (length (root_bytes args)) in Z.to_nat ((n / 512 + 1) * 512 - n).
Definition final_tree (args : list arg) : Z -> Z * list Z :=
  set_file 1 (T_DIR, root_bytes args ++ replicate (padding args) 0) (tree args).

Record image (own : owner) (args : list arg) (c : Z -> bdata) : Prop := Image {
  ig_len n : 0 <= n < 1000 -> length (c n) = 512%nat;
  ig_head : head_ok c;
  ig_own : own_ok own (data_end args);
  ig_map : c 58 = used_map (data_end args);
  ig_end : 59 <= data_end args <= 1000;
  ig_files inum : 1 <= inum < 2 + Z.of_nat (length args) -> on_disk own c inum (final_tree args inum) }.

Lemma length_marked l x : length (foldl (fun buf i => map_set (Z.of_nat i) buf) x l) = length x.
Proof. revert x. induction l as [|i l IH]; intros x; [done|]. cbn [foldl]. by rewrite IH, length_map_set. Qed.
Lemma length_used_map n : length (used_map n) = 512%nat.
Proof. unfold used_map. by rewrite length_marked. Qed.

(** The free map marks exactly the blocks below [n]. *)
Lemma bit_used_map n b : 0 <= n <= 4096 -> 0 <= b < 4096 -> bit (used_map n) b = (b <? n).
Proof.
  intros Hn Hb. unfold used_map. rewrite <- (Z2Nat.id n) at 2 by lia. assert (Hk : (Z.to_nat n <= 4096)%nat) by lia.
  induction (Z.to_nat n) as [|k IH].
  - unfold bit, byte_at. simpl foldl. unfold zeroes. rewrite BSIZE_val.
    destruct (replicate _ 0 !! map_byte b) as [v|] eqn:E; [apply lookup_replicate in E as [-> _]|];
      cbn [default from_option id]; rewrite Z.testbit_0_l; lia.
  - rewrite seq_S, foldl_app. cbn [foldl]. rewrite bit_set, IH by (rewrite ?BPB_val, ?length_marked; done || lia).
    lia.
Qed.

(** Zeros may be taken as part of the contents up to the end of the last block. *)
Lemma file_pad own c inum i nb hi L k :
  file own c inum i nb hi L -> Z.of_nat (length L + k) <= nb * BSIZE -> file own c inum i nb hi (L ++ replicate k 0).
Proof.
  intros F Hk. split; try apply F; [by rewrite length_app, length_replicate|].
  intros j Hj. rewrite (fo_bytes _ _ _ _ _ _ _ F) by done. destruct (decide (j < length L)%nat) as [Hl|Hl]; [by rewrite lookup_app_l|].
  rewrite (lookup_ge_None_2 L) by lia. rewrite lookup_app_r by lia.
  destruct (replicate k 0 !! _) as [v|] eqn:E; [|done]. by apply lookup_replicate in E as [-> _].
Qed.

(** Writing the free map leaves the files alone. *)
Lemma map_written own args s :
  build own 0 (final_tree args) s -> m_freeinode s = 2 + Z.of_nat (length args) -> m_freeblock s = data_end args ->
  returns (wsect 58 (used_map (m_freeblock s))) s
    (fun _ s' => image own args (blk (m_img s')) /\ length (m_img s') = 1000%nat).
Proof.
  intros B Ei Ef. pose proof (bd_img _ _ _ _ B) as I. pose proof (bd_fb _ _ _ _ B) as Hfb. pose proof (bd_fi _ _ _ _ B) as Hfi.
  pose proof (length_used_map (m_freeblock s)) as Hl. rewrite Ef in *. set (x := used_map (data_end args)) in *.
  exists tt, (with_img (<[58%nat := x]> (m_img s)) s). split; [apply wsect_run; [apply I|lia]|]. simpl.
  assert (E : forall b, blk (<[58%nat := x]> (m_img s)) b = upd 58 x (blk (m_img s)) b).
  { intros b. apply (blk_insert _ 58); [apply I|lia]. }
  split; [|rewrite length_insert; apply I]. split; try done.
  - apply (img_ok_insert _ 58); [done|lia|done].
  - eapply head_frame; [|apply B]. intros b Hb. rewrite E. apply upd_ne. lia.
  - rewrite <- Ef. apply B.
  - intros inum Hi. pose proof (iblock_meta inum ltac:(lia)).
    eapply (on_disk_frame own own (blk (m_img s))); [apply own_le_refl| | |apply B; lia].
    + intros b k Hb. rewrite E. apply upd_ne. apply (bd_own _ _ _ _ B) in Hb. rewrite nmeta_val in Hb. lia.
    + unfold dino. rewrite E, upd_ne by lia. done.
Qed.

Lemma finish_ok own args s :
  fits args -> (2 + Z.of_nat (length args)) mod 32 <> 0 -> holds own args s ->
  returns (let! din := rinode Little 1 in
           let off := xint Little (d_size din) in
           let off := u32 ((off / BSIZE + 1) * BSIZE) in
           winode Little 1 (set_d_size (xint Little off) din) ;;;
           let! used := gets m_freeblock in
           balloc used) s
    (fun _ s' => image own args (blk (m_img s')) /\ length (m_img s') = 1000%nat).
Proof.
  intros F Hmod (B & Ei & Ef). pose proof (bd_fb _ _ _ _ B) as Hfb. pose proof (bd_fi _ _ _ _ B) as Hfi.
  destruct (bd_files _ _ _ _ B 1 ltac:(lia) ltac:(lia)) as [R Et Ev En Es Fr]. rewrite tree_root in *. cbn [fst snd] in *.
  pose proof (length_root_bytes args) as Hlr. pose proof (ft_inodes _ F) as Hn.
  eapply returns_Done; [apply rinode_run; [apply B|apply B|lia]|]. rewrite !xint_little, Es, BSIZE_val. cbv zeta.
  set (n := Z.of_nat (length (root_bytes args))) in *. rewrite (u32_small n) by lia.
  rewrite !(u32_small ((n / 512 + 1) * 512)) by (rewrite ?u32_small by zlia; zlia).
  assert (Ep : (n / 512 + 1) * 512 = Z.of_nat (length (root_bytes args ++ replicate (padding args) 0))).
  { rewrite length_app, length_replicate. unfold padding. fold n. zlia. }
  rewrite Ep. set (d := set_d_size _ _).
  rstep (inode_written own 1 (tree args) s d (T_DIR, root_bytes args ++ replicate (padding args) 0)); [by apply build_weaken|lia|apply drange_size; [done|lia]|done..| |].
  - cbn [snd]. replace (nbl (Z.of_nat (length (root_bytes args ++ replicate (padding args) 0)))) with (nbl n) by (unfold nbl in *; zlia).
    apply file_size, file_pad; [done|]. rewrite length_app, length_replicate in Ep. rewrite BSIZE_val. unfold nbl. zlia.
  - intros _ s1 (B1 & Ef1 & Ei1). apply returns_gets. unfold balloc. rewrite BSIZE_val.
    replace (m_freeblock s1 <? 512 * 8) with true by lia. cbn [negb]. apply returns_gets.
    rewrite (bd_sb _ _ _ _ B1). change (sb_bmapstart sb0) with 58. apply map_written; [done|lia|lia].
Qed.

(** ** What the kernel finds on the image *)

Lemma irange_node inum d : drange d -> irange (node inum d).
Proof. intros [R1 R2 R3 R4 R5 R6 R7]. split; simpl; unfold s16; try zlia; done. Qed.

Section Found.
Context (own : owner) (args : list arg) (c : Z -> bdata) (I : image own args c).

Abbreviation inode_of inum := (node inum (dino c inum)).

Lemma found_used b : 0 <= b < 1000 -> used sb0 c b = (b <? data_end args).
Proof using I.
  intros Hb. unfold used, BBLOCK. rewrite BPB_val, sb0_val. cbn [sb_bmapstart].
  replace (b / 4096 + 58) with 58 by zlia. rewrite (Z.mod_small b 4096), (ig_map _ _ _ I) by lia.
  pose proof (ig_end _ _ _ I). apply bit_used_map; lia.
Qed.

Lemma found_cwf : cwf sb0 c.
Proof using I.
  pose proof (ig_end _ _ _ I). split.
  - intros n Hn. by apply I.
  - intros b Hb. rewrite sb0_val in Hb. unfold data_start in Hb. simpl in Hb. rewrite found_used; lia.
Qed.

(** A block with an owner is a data block in use. *)
Lemma found_own b v : own b = Some v -> is_data sb0 b /\ used sb0 c b = true /\ b <> 0.
Proof using I.
  intros Hb. apply (ig_own _ _ _ I) in Hb. rewrite nmeta_val in Hb. pose proof (ig_end _ _ _ I).
  split; [rewrite sb0_val; unfold is_data, data_start; simpl; lia|]. rewrite found_used; lia.
Qed.

Section File.
Context (inum : Z) (f : Z * list Z) (Hi : 1 <= inum < 200) (D : on_disk own c inum f).
Abbreviation i := (inode_of inum).
Abbreviation nb := (nbl (Z.of_nat (length f.2))).

(** A block of the file has its number as owner. *)
Lemma found_fblk bn : 0 <= bn < MAXFILE -> fblk c i bn <> 0 -> 0 <= bn < nb /\ own (fblk c i bn) = Some (inum, bn).
Proof using D.
  intros Hbn Hnz. pose proof (od_file _ _ _ _ D) as F. cbv zeta in F. destruct (Z.ltb_spec bn nb).
  - split; [lia|]. apply (fo_blk _ _ _ _ _ _ _ F). lia.
  - destruct Hnz. apply (fo_none _ _ _ _ _ _ _ F). lia.
Qed.

Lemma found_ind : ind i <> 0 -> own (ind i) = Some (inum, -1).
Proof using D. pose proof (fo_ind _ _ _ _ _ _ _ (od_file _ _ _ _ D)) as Hf. by destruct (12 <? _). Qed.

Lemma found_iwf : iwf sb0 c i.
Proof using I Hi D.
  split; try done; [rewrite sb0_val; simpl; lia|..].
  - intros bn Hbn Hnz. destruct (found_fblk bn Hbn Hnz) as [Hr Ho]. destruct (found_own _ _ Ho) as (? & ? & ?).
    do 2 (split; [done|]). intros E. rewrite E in Ho, Hnz. rewrite found_ind in Ho by done. injection Ho. lia.
  - intros Hnz. destruct (found_own _ _ (found_ind Hnz)) as (? & ? & ?). done.
  - intros bn bn' Hbn Hbn' E Hnz. destruct (found_fblk bn Hbn Hnz) as [_ Ho].
    rewrite E in Ho, Hnz. destruct (found_fblk bn' Hbn' Hnz) as [_ Ho']. congruence.
Qed.

Lemma found_fwf : f.1 = T_DIR \/ f.1 = T_FILE -> fwf sb0 c i.
Proof using I Hi D.
  intros Ht. destruct D as [R Et [Ev Ev'] En Es F]. cbv zeta in F.
  pose proof (fo_nb _ _ _ _ _ _ _ F) as Hnb. pose proof (fo_fits _ _ _ _ _ _ _ F) as Hfit. rewrite MAXFILE_val, BSIZE_val in *.
  split; [by apply found_iwf| | | |].
  - unfold nohole. change (i_size i) with (d_size (dino c inum)). rewrite Es, MAXFILE_val, BSIZE_val. split; [lia|]. intros bn Hb Hlt.
    eapply found_own, (fo_blk _ _ _ _ _ _ _ F). unfold nbl. zlia.
  - by apply irange_node.
  - unfold synced, FsInode.dinode, load_dinode, node, dino. cbn [i_inum i_dev i_ref i_lock i_valid].
    unfold dinode_of. cbn [d_type d_major d_minor d_nlink d_size d_addrs]. rewrite !short_at_little, word_at_little.
    f_equal. apply list_fmap_ext. intros. by rewrite word_at_little.
  - change (i_type i) with (s16 (d_type (dino c inum))). rewrite Et. by destruct Ht as [-> | ->].
Qed.

Lemma found_bytes : fbytes c i 0 (length f.2) = f.2.
Proof using D.
  pose proof (od_file _ _ _ _ D) as F. cbv zeta in F. pose proof (fo_fits _ _ _ _ _ _ _ F).
  apply list_eq. intros k. destruct (decide (k < length f.2)%nat) as [Hk|Hk].
  - rewrite lookup_fbytes by done. rewrite Z.add_0_l, (fo_bytes _ _ _ _ _ _ _ F) by lia.
    by destruct (lookup_lt_is_Some_2 _ _ Hk) as [v ->].
  - rewrite !lookup_ge_None_2; [done|lia|rewrite length_fbytes; lia].
Qed.
End File.
End Found.

(** ** The root directory *)

(** The entries follow each other at distance 16. *)
Lemma entries_lookup (es : list (Z * list Z)) k e tl :
  es !! k = Some e -> take 16 (drop (16 * k) ((es ≫= fun e => dirent e.1 e.2) ++ tl)) = dirent e.1 e.2.
Proof.
  revert k. induction es as [|e0 es IH]; intros k Hk; [done|]. cbn [mbind list_bind]. rewrite <- app_assoc. destruct k as [|k].
  - injection Hk as ->. rewrite Nat.mul_0_r, drop_0. apply take_app_length'. by rewrite length_dirent.
  - replace (16 * S k)%nat with (length (dirent e0.1 e0.2) + 16 * k)%nat by (rewrite length_dirent; lia).
    rewrite drop_app_add. by apply IH.
Qed.

Lemma length_entries (es : list (Z * list Z)) : length (es ≫= fun e => dirent e.1 e.2) = (16 * length es)%nat.
Proof. induction es as [|e es IH]; [done|]. cbn [mbind list_bind length]. rewrite length_app, length_dirent. setoid_rewrite IH. lia. Qed.

(** An entry of a directory is a slice of its contents. *)
Lemma entry_slice c i L k :
  fbytes c i 0 (length L) = L -> (16 * k + 16 <= length L)%nat -> entry c i k = take 16 (drop (16 * k) L).
Proof.
  intros E Hk. apply list_eq. intros j. unfold entry. destruct (decide (j < 16)%nat) as [Hj|Hj].
  - rewrite lookup_fbytes by done. rewrite lookup_take_lt, lookup_drop by done. rewrite <- E.
    rewrite lookup_fbytes by lia. do 2 f_equal. lia.
  - rewrite !lookup_ge_None_2; [done|rewrite length_take; lia|rewrite length_fbytes; lia].
Qed.

Lemma root_entry_range args k e :
  Z.of_nat (length args) <= 198 -> root_entries args !! k = Some e -> 0 < e.1 < 65536.
Proof.
  intros Hn. destruct k as [|[|k]]; [by intros [= <-]..|]. simpl. rewrite list_lookup_imap.
  destruct (args !! k) eqn:E; [|done]. intros [= <-]. apply lookup_lt_Some in E. simpl. lia.
Qed.

Lemma length_root_entries args : length (root_entries args) = (2 + length args)%nat.
Proof. simpl. by rewrite length_imap. Qed.

Section Root.
Context (args : list arg) (c : Z -> bdata) (i : inode) (pad : nat).
Context (Hn : Z.of_nat (length args) <= 198).
Context (Hb : fbytes c i 0 (length (root_bytes args ++ replicate pad 0)) = root_bytes args ++ replicate pad 0).
Context (Hs : i_size i = Z.of_nat (length (root_bytes args ++ replicate pad 0))).

Lemma root_entry k e : root_entries args !! k = Some e -> entry c i k = dirent e.1 e.2 /\ (k < nentries i)%nat.
Proof using Hb Hs.
  intros Hk. pose proof (lookup_lt_Some _ _ _ Hk) as Hl. unfold nentries. rewrite Hs.
  rewrite length_app in *. unfold root_bytes in *. rewrite length_entries in *. rewrite length_replicate in *. split; [|zlia].
  rewrite (entry_slice c i ((root_entries args ≫= fun e => dirent e.1 e.2) ++ replicate pad 0));
    rewrite ?length_app, ?length_entries, ?length_replicate; [by apply entries_lookup|done|lia].
Qed.

(** Behind the entries the directory is empty. *)
Lemma root_rest k : (length (root_entries args) <= k < nentries i)%nat -> de_inum (entry c i k) = 0.
Proof using Hb Hs.
  intros Hk. unfold nentries in Hk. rewrite Hs in Hk.
  rewrite (entry_slice _ _ _ _ Hb); unfold root_bytes in *; rewrite length_app, length_entries, length_replicate in *; [|zlia].
  rewrite drop_app_ge by (rewrite length_entries; lia). rewrite length_entries, drop_replicate, take_replicate.
  set (m := (16 `min` _)%nat). unfold de_inum, ld16, byte_at.
  assert (E : forall j, default 0 (replicate m 0 !! j) = 0).
  { intros j. destruct (replicate m 0 !! j) as [v|] eqn:E; [|done]. by apply lookup_replicate in E as [-> _]. }
  by rewrite !E.
Qed.

Lemma root_names nm k :
  (k < nentries i)%nat ->
  names nm (entry c i k) = match root_entries args !! k with Some e => bool_decide (canon nm = canon e.2) | None => false end.
Proof using Hn Hb Hs.
  intros Hk. destruct (root_entries args !! k) as [e|] eqn:E.
  - destruct (root_entry k e E) as [-> _]. apply names_dirent. by eapply root_entry_range.
  - unfold names. rewrite root_rest by (apply lookup_ge_None in E; lia). done.
Qed.

(** The names of the root directory are those of the entries. *)
Lemma root_find e :
  NoDup (canon ∘ snd <$> root_entries args) -> e ∈ root_entries args -> dir_find c i e.2 = Some e.1.
Proof using Hn Hb Hs.
  intros Hd [k Hk]%list_elem_of_lookup. destruct (root_entry k e Hk) as [Ee Hlt]. unfold dir_find, dir_index.
  rewrite (find_seq_only _ _ k Hlt).
  - simpl. rewrite Ee, de_inum_dirent; [done|]. pose proof (root_entry_range _ _ _ Hn Hk). lia.
  - rewrite root_names, Hk by done. by apply bool_decide_eq_true.
  - intros j Hj Hne. rewrite root_names by done. destruct (root_entries args !! j) as [e'|] eqn:E; [|done].
    apply bool_decide_eq_false. intros Ec. apply Hne. eapply (NoDup_lookup _ j k (canon e.2) Hd); rewrite list_lookup_fmap.
    + by rewrite E, Ec.
    + by rewrite Hk.
Qed.

Lemma root_find_none nm : canon nm ∉ canon ∘ snd <$> root_entries args -> dir_find c i nm = None.
Proof using Hn Hb Hs.
  intros Hni. unfold dir_find, dir_index. destruct (find _ _) as [k|] eqn:E; [|done].
  apply find_some in E as [Hin Hp]. apply in_seq in Hin. rewrite root_names in Hp by lia.
  destruct (root_entries args !! k) as [e|] eqn:Ek; [|done]. apply bool_decide_eq_true in Hp. destruct Hni.
  apply list_elem_of_fmap. exists e. split; [done|]. by eapply list_elem_of_lookup_2.
Qed.
End Root.

(** ** The whole program *)

(** An inode as [ilock] loads it from the disk. *)
Definition loaded (c : Z -> bdata) (inum : Z) : inode :=
  FsInode.dinode sb0 c inum (Inode 1 inum 1 (SleepLock 0 "inode" 0) 1 0 0 0 0 0 []).

Lemma loaded_node c inum : loaded c inum = node inum (dino c inum).
Proof.
  unfold loaded, FsInode.dinode, load_dinode, node, dino, dinode_of. cbn [i_inum i_dev i_ref i_lock i_valid].
  cbn [d_type d_major d_minor d_nlink d_size d_addrs]. rewrite !short_at_little, word_at_little.
  f_equal. apply list_fmap_ext. intros. by rewrite word_at_little.
Qed.

Lemma mkfs_runs args :
  fits args -> (2 + Z.of_nat (length args)) mod 32 <> 0 ->
  exists s own, mkfs Little args = Done tt s /\ length (m_img s) = 1000%nat /\ image own args (blk (m_img s)).
Proof.
  intros F Hmod. enough (H : returns (mkfs_main Little args) (Mk [] (Superblock 0 0 0 0 0 0 0) 1 0)
    (fun _ s => exists own, length (m_img s) = 1000%nat /\ image own args (blk (m_img s)))).
  { destruct H as ([] & s & E & own & H). exists s, own. exact (conj E H). }
  unfold mkfs_main. apply returns_modify. change (nmeta) with 59. cbn [m_img m_freeinode].
  assert (EF : Z.to_nat FSSIZE = 1000%nat) by done. rewrite EF. clear EF.
  eapply returns_Done; [apply (zero_disk_ok 1000 0); [reflexivity|lia]|]. rewrite Nat.add_0_l.
  set (s0 := with_img _ _).
  eapply returns_Done; [apply (wsect_run s0 1); [apply length_replicate|lia]|].
  eapply root_ok; [by apply empty_build|done|done|]. intros own1 s1 H1.
  rstep (add_files_ok args own1 [] s1); [done|done|]. intros _ s2 [own2 H2].
  rlast finish_ok; [done|done|exact H2|]. intros _ s' [I Hl]. by exists own2.
Qed.

(** The superblock of block 1, as [readsb] decodes it. *)
Definition super_of (x : bdata) : superblock :=
  Superblock (ld32 x 0) (ld32 x 4) (ld32 x 8) (ld32 x 12) (ld32 x 16) (ld32 x 20) (ld32 x 24).

(** The root directory that the kernel loads holds the entries of [args]. *)
Definition root_dir (args : list arg) (c : Z -> bdata) : Prop :=
  let i := loaded c ROOTINO in
  dwf sb0 c i /\ i_nlink i = 1 /\
  (forall e, e ∈ root_entries args -> dir_find c i e.2 = Some e.1) /\
  (forall nm, canon nm ∉ canon ∘ snd <$> root_entries args -> dir_find c i nm = None).

(** Inode [inum] is a file with the bytes [L]. *)
Definition plain_file (c : Z -> bdata) (inum : Z) (L : list Z) : Prop :=
  let i := loaded c inum in
  fwf sb0 c i /\ i_type i = T_FILE /\ i_nlink i = 1 /\ i_size i = Z.of_nat (length L) /\ fbytes c i 0 (length L) = L.

Lemma image_root own args c :
  image own args c -> fits args -> NoDup (canon ∘ snd <$> root_entries args) -> root_dir args c.
Proof.
  intros I F Hd. pose proof (ig_files _ _ _ I 1 ltac:(lia)) as D. unfold final_tree in D. rewrite set_file_eq in D.
  unfold root_dir. change ROOTINO with 1. rewrite loaded_node.
  pose proof (found_bytes _ _ _ _ D) as Hb. cbn [snd] in Hb. destruct D as [R Et Ev En Es Fr] eqn:ED. cbn [fst snd] in Es, Et.
  assert (Hsz : i_size (node 1 (dino c 1)) = d_size (dino c 1)) by done. rewrite Es in Hsz. pose proof (ft_inodes _ F) as Hn.
  split; [|split; [|split]].
  - split; [by eapply (found_fwf _ _ _ I); [|exact D|left]| |].
    + change (s16 (d_type (dino c 1)) = T_DIR). by rewrite Et.
    + rewrite Hsz, length_app, length_replicate. unfold padding. pose proof (length_root_bytes args). zlia.
  - change (s16 (d_nlink (dino c 1)) = 1). by rewrite En.
  - intros e He. by eapply root_find.
  - intros nm Hnm. by eapply root_find_none.
Qed.

Lemma image_file own args c k a : image own args c -> fits args -> args !! k = Some a -> plain_file c (2 + Z.of_nat k) (contents a).
Proof.
  intros I F Hk. pose proof (lookup_lt_Some _ _ _ Hk). pose proof (ft_inodes _ F). set (inum := 2 + Z.of_nat k).
  pose proof (ig_files _ _ _ I inum ltac:(lia)) as D. unfold final_tree in D. rewrite set_file_ne in D by lia.
  unfold tree in D. replace (inum =? 1) with false in D by lia. replace (Z.to_nat (inum - 2)) with k in D by lia.
  rewrite Hk in D. unfold plain_file. rewrite loaded_node. pose proof (found_bytes _ _ _ _ D) as Hb.
  pose proof (found_fwf _ _ _ I inum _ ltac:(lia) D ltac:(by right)) as W. destruct D as [R Et Ev En Es Fr]. cbn [fst snd] in *.
  split; [done|]. split; [change (s16 (d_type (dino c inum)) = T_FILE); by rewrite Et|].
  split; [change (s16 (d_nlink (dino c inum)) = 1); by rewrite En|]. split; [exact Es|done].
Qed.

(** No block belongs to two inodes. *)
Definition apart (args : list arg) (c : Z -> bdata) : Prop :=
  forall j j' bn bn', 1 <= j < 2 + Z.of_nat (length args) -> 1 <= j' < 2 + Z.of_nat (length args) ->
    0 <= bn < MAXFILE -> 0 <= bn' < MAXFILE -> j <> j' ->
    fblk c (loaded c j) bn <> 0 -> fblk c (loaded c j) bn <> fblk c (loaded c j') bn'.

Lemma image_apart own args c : image own args c -> apart args c.
Proof.
  intros I j j' bn bn' Hj Hj' Hb Hb' Hne. rewrite !loaded_node. intros Hnz E.
  destruct (found_fblk _ _ _ _ (ig_files _ _ _ I j Hj) bn Hb Hnz) as [_ Ho]. rewrite E in Hnz, Ho.
  destruct (found_fblk _ _ _ _ (ig_files _ _ _ I j' Hj') bn' Hb' Hnz) as [_ Ho']. congruence.
Qed.


(** A file of three bytes, and one whose name loses its underscore. *)
Definition sample_args : list arg := [([82], Some [[1; 2]; [3]]); ([95; 99], Some [])].


(** ** Limits of the program *)

Definition blk_of (r : outcome mkst unit) : Z -> bdata := match r with Done _ s => blk (m_img s) | _ => fun _ => [] end.

(** With 30 files the entries fill a block, and the size of the root directory is set one
    block behind its last block. *)
Definition thirty : list arg := (fun k => ([97; Z.of_nat k + 1], Some [])) <$> seq 0 30.
Lemma full_root_has_hole :
  let c := blk_of (mkfs Little thirty) in
  i_size (loaded c 1) = 1024 /\ fblk c (loaded c 1) 1 = 0.
Proof. by vm_compute. Qed.

(** Nothing keeps [ialloc] from handing out inode 208, whose place is in the free map. *)
Definition too_many : list arg := (fun k => ([97; Z.of_nat k + 48], Some [])) <$> seq 0 207.
Lemma too_many_inodes :
  IBLOCK 208 sb0 = sb_bmapstart sb0 /\
  i_type (loaded (blk_of (mkfs Little too_many)) 208) = -1.
Proof. by vm_compute. Qed.

(** On a big-endian host the unconverted block numbers wrap around: the inodes and the map
    go to the boot block. *)
Lemma big_endian_image :
  let c := blk_of (mkfs Big []) in
  super_of (c 1) = sb0 /\ c (IBLOCK ROOTINO sb0) = zeroes /\ c (sb_bmapstart sb0) = zeroes /\ c 0 <> zeroes.
Proof. by vm_compute. Qed.
