(* ===== verification/File.v ===== *)
(** * Open files (file.c) and the allocation of pipes (pipe.c)

    The table of open files over the inodes of [Fs], the pipes of [Pipe] and the page
    allocator of [Kalloc]. A [struct file*] is an index of the table; a [struct pipe*] is
    the address of its page, and [ft_pipes] holds the pipes alive. Following a pointer to
    a pipe that is not alive is undefined in C and is [Panic] here; the invariant of this
    file shows that it does not happen. *)

From stdpp Require Import base tactics numbers list gmap strings.
From Stdlib Require Import ZArith Lia ZifyNat.
From S2P Require Import Prelude Layout Spinlock Kalloc Sleeplock Bio Log Fs Pipe.

Inductive ftype := FD_NONE | FD_PIPE | FD_INODE.

#[export] Instance ftype_eq_dec : EqDecision ftype.
Proof. solve_decision. Defined.

Record file := File {
  f_type : ftype;
  f_ref : Z;
  f_readable : bool;
  f_writable : bool;
  f_pipe : Z;
  f_ip : nat;
  f_off : Z }.

Definition zero_file : file := File FD_NONE 0 false false 0 0 0.

Definition set_f_type (v : ftype) (f : file) : file :=
  File v (f_ref f) (f_readable f) (f_writable f) (f_pipe f) (f_ip f) (f_off f).
Definition set_f_ref (v : Z) (f : file) : file :=
  File (f_type f) v (f_readable f) (f_writable f) (f_pipe f) (f_ip f) (f_off f).
Definition set_f_off (v : Z) (f : file) : file :=
  File (f_type f) (f_ref f) (f_readable f) (f_writable f) (f_pipe f) (f_ip f) v.

Record ftst := FtSt {
  ft_file : list file;
  ft_fs : fsst;
  ft_pipes : gmap Z pipe;
  ft_mem : kstate }.

Definition fs_lens : lens ftst fsst :=
  Lens ft_fs (fun v s => FtSt (ft_file s) v (ft_pipes s) (ft_mem s)).
Definition mem_lens : lens ftst kstate :=
  Lens ft_mem (fun v s => FtSt (ft_file s) (ft_fs s) (ft_pipes s) v).
Definition getf (s : ftst) (f : nat) : file := default zero_file (ft_file s !! f).
Definition updf (f : nat) (g : file -> file) (s : ftst) : ftst :=
  FtSt (alter g f (ft_file s)) (ft_fs s) (ft_pipes s) (ft_mem s).
Definition set_pipes (p : gmap Z pipe) (s : ftst) : ftst :=
  FtSt (ft_file s) (ft_fs s) p (ft_mem s).

Section File.
(** The processor and the kernel's end for the page allocator; the process. *)
Variable me : nat.
Variable callers : list Z.
Variable kend : Z.
Variable pid : Z.
Variable killed : bool.
Context {devsw : DevSw}.

Definition filealloc : M ftst (option nat) :=
  let! s := get in
  match find_idx (fun f => f_ref f =? 0) 0 (ft_file s) with
  | Some f => modify (updf f (set_f_ref 1)) ;;; m_ret (Some f)
  | None => m_ret None
  end.

Definition filedup (f : nat) : M ftst nat :=
  let! s := get in
  if f_ref (getf s f) <? 1 then panic "filedup" else
  modify (updf f (fun x => set_f_ref (f_ref x + 1) x)) ;;;
  m_ret f.

(** [pipeclose] on the pipe at [p]; when both ends are closed its page is freed. *)
Definition close_pipe (p : Z) (writable : bool) : M ftst unit :=
  let! s := get in
  match ft_pipes s !! p with
  | None => panic "pipeclose"
  | Some x =>
      let '(x, last) := pipeclose x writable in
      if last then
        modify (set_pipes (delete p (ft_pipes s))) ;;;
        zoom mem_lens (kfree me callers kend p)
      else modify (set_pipes (<[p := x]> (ft_pipes s)))
  end.

Definition fileclose (f : nat) : M ftst unit :=
  let! s := get in
  let ff := getf s f in
  if f_ref ff <? 1 then panic "fileclose" else
  modify (updf f (fun x => set_f_ref (f_ref x - 1) x)) ;;;
  if 0 <? f_ref ff - 1 then m_ret tt else
  modify (updf f (fun x => set_f_type FD_NONE (set_f_ref 0 x))) ;;;
  match f_type ff with
  | FD_PIPE => close_pipe (f_pipe ff) (f_writable ff)
  | FD_INODE =>
      zoom fs_lens (zoom log_lens begin_op) ;;;
      zoom fs_lens (iput pid (f_ip ff)) ;;;
      zoom fs_lens (zoom log_lens (end_op pid))
  | FD_NONE => m_ret tt
  end.

(** [p->data] lies after the spin-lock of 52 bytes; a new pipe finds there whatever the
    page held. *)
Definition old_bytes (m : mem) (p : Z) : list Z :=
  (fun k => m (p + 52 + Z.of_nat k)) <$> seq 0 (Z.to_nat PIPESIZE).

(** The [bad] exit of [pipealloc]. *)
Definition pipe_bad (f0 f1 : option nat) : M ftst (option (nat * nat)) :=
  match f0 with Some f => fileclose f | None => m_ret tt end ;;;
  match f1 with Some f => fileclose f | None => m_ret tt end ;;;
  m_ret None.

Definition pipealloc : M ftst (option (nat * nat)) :=
  let! f0 := filealloc in
  match f0 with
  | None => pipe_bad None None
  | Some r =>
      let! f1 := filealloc in
      match f1 with
      | None => pipe_bad f0 None
      | Some w =>
          let! p := zoom mem_lens (kalloc me callers) in
          if p =? 0 then pipe_bad f0 f1 else
          modify (fun s => set_pipes (<[p := pipe_init (old_bytes (k_mem (ft_mem s)) p)]> (ft_pipes s)) s) ;;;
          modify (updf r (fun x => File FD_PIPE (f_ref x) true false p (f_ip x) (f_off x))) ;;;
          modify (updf w (fun x => File FD_PIPE (f_ref x) false true p (f_ip x) (f_off x))) ;;;
          m_ret (Some (r, w))
      end
  end.

Definition filestat (f : nat) : M ftst (option stat) :=
  let! s := get in
  let x := getf s f in
  match f_type x with
  | FD_INODE =>
      zoom fs_lens (ilock pid (f_ip x)) ;;;
      let! st := zoom fs_lens (stati (f_ip x)) in
      zoom fs_lens (iunlock pid (f_ip x)) ;;;
      m_ret (Some st)
  | _ => m_ret None
  end.

(** The result of [fileread] and the bytes put at [addr]. *)
Definition fileread (f : nat) (n : Z) : M ftst (Z * list Z) :=
  let! s := get in
  let x := getf s f in
  if negb (f_readable x) then m_ret (-1, []) else
  match f_type x with
  | FD_PIPE =>
      match ft_pipes s !! f_pipe x with
      | None => panic "piperead"
      | Some p =>
          match piperead killed n p with
          | (RReturn r l, p) => modify (set_pipes (<[f_pipe x := p]> (ft_pipes s))) ;;; m_ret (r, l)
          | (RSleep, _) => block
          end
      end
  | FD_INODE =>
      zoom fs_lens (ilock pid (f_ip x)) ;;;
      let! r := zoom fs_lens (readi pid (f_ip x) (f_off x) (u32 n)) in
      when (0 <? fst r) (modify (updf f (fun x => set_f_off (u32 (f_off x + fst r)) x))) ;;;
      zoom fs_lens (iunlock pid (f_ip x)) ;;;
      m_ret r
  | FD_NONE => panic "fileread"
  end.

(** The most bytes [filewrite] writes in one transaction. *)
Definition filewrite_max : Z := (MAXOPBLOCKS - 1 - 1 - 2) / 2 * 512.

(** One transaction of [filewrite]: the result of [writei]. *)
Definition filewrite_chunk (f : nat) (src : list Z) : M ftst Z :=
  zoom fs_lens (zoom log_lens begin_op) ;;;
  let! ip := gets (fun s => f_ip (getf s f)) in
  zoom fs_lens (ilock pid ip) ;;;
  let! off := gets (fun s => f_off (getf s f)) in
  let! r := zoom fs_lens (writei pid ip src off) in
  when (0 <? r) (modify (updf f (fun x => set_f_off (u32 (f_off x + r)) x))) ;;;
  zoom fs_lens (iunlock pid ip) ;;;
  zoom fs_lens (zoom log_lens (end_op pid)) ;;;
  m_ret r.

(** The loop of [filewrite], with [src] still to write; a chunk is not empty, so the
    length of the data is enough fuel. It returns whether all was written. *)
Fixpoint filewrite_loop (fuel : nat) (f : nat) (src : list Z) : M ftst bool :=
  match src, fuel with
  | [], _ => m_ret true
  | _, O => m_ret false
  | _, S fuel =>
      let n1 := Z.min (Z.of_nat (length src)) filewrite_max in
      let! r := filewrite_chunk f (take (Z.to_nat n1) src) in
      if r <? 0 then m_ret false
      else if negb (r =? n1) then panic "short filewrite"
      else filewrite_loop fuel f (drop (Z.to_nat n1) src)
  end.

Definition filewrite (f : nat) (src : list Z) : M ftst Z :=
  let! s := get in
  let x := getf s f in
  if negb (f_writable x) then m_ret (-1) else
  match f_type x with
  | FD_PIPE =>
      match ft_pipes s !! f_pipe x with
      | None => panic "pipewrite"
      | Some p =>
          match pipewrite_loop killed (Z.of_nat (length src)) src p with
          | (WReturn r _ _, p) => modify (set_pipes (<[f_pipe x := p]> (ft_pipes s))) ;;; m_ret r
          | (WSleep _, p) => modify (set_pipes (<[f_pipe x := p]> (ft_pipes s))) ;;; block
          end
      end
  | FD_INODE =>
      let! ok := filewrite_loop (length src) f src in
      m_ret (if ok then Z.of_nat (length src) else -1)
  | FD_NONE => panic "filewrite"
  end.
End File.
