(* ===== verification/FileSpec.v ===== *)
(** * The table of open files is consistent

    The invariant that relates the open files to the pipes alive, and its preservation by
    the operations of file.c and by [pipealloc]. *)

From stdpp Require Import base tactics numbers list gmap strings.
From Stdlib Require Import ZArith Lia ZifyNat.
From S2P Require Import Prelude Layout Spinlock Kalloc Sleeplock Bio Log Fs Pipe File.

(** Entry [k] is an end of the pipe at [a]. *)
Definition is_end (fs : list file) (a : Z) (writable : bool) (k : nat) : Prop :=
  exists f, fs !! k = Some f /\ f_type f = FD_PIPE /\ f_pipe f = a /\ f_writable f = writable.

Definition open_end (p : pipe) (writable : bool) : bool :=
  if writable then p_writeopen p else p_readopen p.

(** A free entry has no type; an end of a pipe belongs to a pipe that is alive and has
    that end open, and is the only entry for it; an end that is open has an entry; and a
    pipe alive has an open end. *)
Record ft_inv (fs : list file) (ps : gmap Z pipe) : Prop := FtInv {
  fi_ref k f : fs !! k = Some f -> 0 <= f_ref f;
  fi_none k f : fs !! k = Some f -> f_ref f = 0 -> f_type f = FD_NONE;
  fi_end a w k : is_end fs a w k -> exists p, ps !! a = Some p /\ open_end p w = true;
  fi_one a w k j : is_end fs a w k -> is_end fs a w j -> k = j;
  fi_open a p w : ps !! a = Some p -> open_end p w = true -> exists k, is_end fs a w k;
  fi_alive a p : ps !! a = Some p -> p_readopen p = true \/ p_writeopen p = true }.

Definition inv (s : ftst) : Prop := ft_inv (ft_file s) (ft_pipes s).

(** Changes of an entry that is no end of a pipe and becomes none. *)
Lemma is_end_alter fs g k f a w j :
  fs !! k = Some f -> f_type f <> FD_PIPE -> f_type (g f) <> FD_PIPE ->
  is_end (alter g k fs) a w j <-> is_end fs a w j.
Proof.
  intros Hk Hf Hg. unfold is_end. destruct (decide (k = j)) as [<-|Hne].
  - rewrite list_lookup_alter_eq, Hk. simpl. split.
    + intros (x & [= <-] & Ht & _). done.
    + intros (x & [= <-] & Ht & _). done.
  - by rewrite list_lookup_alter_ne.
Qed.

Lemma ft_inv_alter fs ps g k f :
  ft_inv fs ps -> fs !! k = Some f -> f_type f <> FD_PIPE -> f_type (g f) <> FD_PIPE ->
  0 <= f_ref (g f) -> (f_ref (g f) = 0 -> f_type (g f) = FD_NONE) -> ft_inv (alter g k fs) ps.
Proof.
  intros [I1 I2 I3 I4 I5 I6] Hk Hf Hg Hr Hn.
  assert (E : forall a w j, is_end (alter g k fs) a w j <-> is_end fs a w j)
    by (intros; by eapply is_end_alter).
  split.
  - intros j x [(-> & y & Hy & ->)|[_ Hj]]%list_alter_Some; [by simplify_eq|eauto].
  - intros j x [(-> & y & Hy & ->)|[_ Hj]]%list_alter_Some; [by simplify_eq|eauto].
  - intros a w j. rewrite E. apply I3.
  - intros a w j l. rewrite !E. apply I4.
  - intros a p w Hp Ho. destruct (I5 a p w Hp Ho) as [j Hj]. exists j. by rewrite E.
  - done.
Qed.

Lemma getf_lookup s k f : ft_file s !! k = Some f -> getf s k = f.
Proof. intros E. unfold getf. by rewrite E. Qed.

(** Changing the count of an entry in use. *)
Lemma ft_inv_ref fs ps k f v :
  ft_inv fs ps -> fs !! k = Some f -> 0 < v -> ft_inv (alter (set_f_ref v) k fs) ps.
Proof.
  intros [I1 I2 I3 I4 I5 I6] Hk Hv.
  assert (E : forall a w j, is_end (alter (set_f_ref v) k fs) a w j <-> is_end fs a w j).
  { intros a w j. unfold is_end. destruct (decide (k = j)) as [<-|Hne].
    - rewrite list_lookup_alter_eq, Hk. simpl. split; intros (x & [= <-] & ?); eexists; (split; [done|done]).
    - by rewrite list_lookup_alter_ne. }
  split.
  - intros j x [(-> & y & Hy & ->)|[_ Hj]]%list_alter_Some; [simpl; lia|eauto].
  - intros j x [(-> & y & Hy & ->)|[_ Hj]]%list_alter_Some; [simpl; lia|eauto].
  - intros a w j. rewrite E. apply I3.
  - intros a w j l. rewrite !E. apply I4.
  - intros a p w Hp Ho. destruct (I5 a p w Hp Ho) as [j Hj]. exists j. by rewrite E.
  - done.
Qed.

Lemma filealloc_run s :
  inv s ->
  match filealloc s with
  | Done (Some k) s' => inv s' /\ ft_pipes s' = ft_pipes s /\
      (exists f, ft_file s !! k = Some f /\ f_ref f = 0 /\ f_type f = FD_NONE /\
        ft_file s' = alter (set_f_ref 1) k (ft_file s))
  | Done None s' => s' = s
  | _ => False
  end.
Proof.
  intros I. unfold filealloc. munf. destruct (find_idx _ 0 (ft_file s)) as [k|] eqn:E; [|done].
  destruct (find_idx_Some _ _ _ _ E) as (f & _ & Hf & Pf & _). rewrite Nat.sub_0_r in Hf.
  assert (R0 : f_ref f = 0) by lia. split; [by eapply ft_inv_ref|]. split; [done|].
  exists f. split; [done|]. split; [done|]. split; [by eapply fi_none|done].
Qed.

(** The last reference to an end of a pipe goes. *)
Definition drop_entry (f : file) : file := set_f_type FD_NONE (set_f_ref 0 f).

Definition end_closed (ps : gmap Z pipe) (a : Z) (p : pipe) (w : bool) : gmap Z pipe :=
  let '(p, last) := pipeclose p w in if last then delete a ps else <[a := p]> ps.

Lemma is_end_drop fs k f a w j :
  fs !! k = Some f -> is_end (alter drop_entry k fs) a w j <-> j <> k /\ is_end fs a w j.
Proof.
  intros Hk. unfold is_end. destruct (decide (k = j)) as [<-|Hne].
  - rewrite list_lookup_alter_eq, Hk. simpl. split; [by intros (x & [= <-] & Ht & _)|by intros [? _]].
  - rewrite list_lookup_alter_ne by done. split; [intros; split; [congruence|done]|by intros [_ ?]].
Qed.

Lemma ft_inv_close fs ps k f p :
  ft_inv fs ps -> fs !! k = Some f -> f_type f = FD_PIPE -> ps !! f_pipe f = Some p ->
  ft_inv (alter drop_entry k fs) (end_closed ps (f_pipe f) p (f_writable f)).
Proof.
  intros [I1 I2 I3 I4 I5 I6] Hk Hf Hp. set (a := f_pipe f) in *. set (w := f_writable f).
  assert (Hme : is_end fs a w k) by (exists f; done).
  assert (Hother : forall w' j, j <> k -> is_end fs a w' j -> w' = negb w).
  { intros w' j Hne He. destruct (decide (w' = w)) as [->|]; [|by destruct w, w'].
    destruct Hne. by eapply I4. }
  assert (Hps : forall b, b <> a -> end_closed ps a p w !! b = ps !! b).
  { intros b Hb. unfold end_closed. destruct (pipeclose p w) as [p' []].
    - by rewrite lookup_delete_ne.
    - by rewrite lookup_insert_ne. }
  assert (Hpa : end_closed ps a p w !! a = if open_end p (negb w) then Some (fst (pipeclose p w)) else None).
  { unfold end_closed. destruct w, p as [? ? ? [] []]; simpl; rewrite ?lookup_delete_eq, ?lookup_insert_eq; done. }
  assert (Hopen : forall w', open_end (fst (pipeclose p w)) w' = if decide (w' = w) then false else open_end p w').
  { intros w'. destruct w, w', p; done. }
  split.
  - intros j x [(-> & y & Hy & ->)|[_ Hj]]%list_alter_Some; [done|eauto].
  - intros j x [(-> & y & Hy & ->)|[_ Hj]]%list_alter_Some; [done|eauto].
  - intros b w' j [Hne He]%(is_end_drop _ _ f); [|done]. destruct (decide (b = a)) as [->|Hb].
    + pose proof (Hother _ _ Hne He) as ->. destruct (I3 _ _ _ He) as (p2 & Hp2 & Ho).
      rewrite Hp in Hp2. injection Hp2 as <-. rewrite Hpa, Ho. eexists. split; [done|].
      rewrite Hopen, decide_False; [done|by destruct w].
    + rewrite Hps by done. by eapply I3.
  - intros b w' j l [_ Hj]%(is_end_drop _ _ f) [_ Hl]%(is_end_drop _ _ f); [|done..]. by eapply I4.
  - intros b p2 w' Hp2 Ho. destruct (decide (b = a)) as [->|Hb].
    + rewrite Hpa in Hp2. destruct (open_end p (negb w)) eqn:Ew; [|done]. injection Hp2 as <-.
      rewrite Hopen in Ho. destruct (decide (w' = w)) as [->|Hw]; [done|].
      destruct (I5 _ _ _ Hp Ho) as [j Hj]. exists j. apply (is_end_drop _ _ f); [done|]. split; [|done].
      intros ->. destruct Hj as (x & Hx & _ & _ & E). rewrite Hk in Hx. injection Hx as <-. by apply Hw.
    + rewrite Hps in Hp2 by done. destruct (I5 _ _ _ Hp2 Ho) as [j Hj]. exists j.
      apply (is_end_drop _ _ f); [done|]. split; [|done].
      intros ->. destruct Hj as (x & Hx & _ & E & _). rewrite Hk in Hx. injection Hx as <-. by apply Hb.
  - intros b p2 Hp2. destruct (decide (b = a)) as [->|Hb].
    + rewrite Hpa in Hp2. destruct (open_end p (negb w)) eqn:Ew; [|done]. injection Hp2 as <-.
      destruct w, p; simpl in *; auto.
    + rewrite Hps in Hp2 by done. by eapply I6.
Qed.

Lemma alter_ext_at (fs : list file) g h k f : fs !! k = Some f -> g f = h f -> alter g k fs = alter h k fs.
Proof. intros Hk E. apply list_alter_ext; [|done]. intros x Hx. rewrite Hk in Hx. by injection Hx as <-. Qed.

Lemma zoom_fs {A} (m : M fsst A) s a s' :
  zoom fs_lens m s = Done a s' -> ft_file s' = ft_file s /\ ft_pipes s' = ft_pipes s.
Proof. unfold zoom. destruct (m _); intros E; simplify_eq. done. Qed.

Lemma zoom_mem {A} (m : M kstate A) s a s' :
  zoom mem_lens m s = Done a s' -> ft_file s' = ft_file s /\ ft_pipes s' = ft_pipes s.
Proof. unfold zoom. destruct (m _); intros E; simplify_eq. done. Qed.

Section Ops.
Variable me : nat.
Variable callers : list Z.
Variable kend : Z.
Variable pid : Z.

(** The table after one reference to entry [k] has been given up. *)
Lemma closed_inv s k f :
  inv s -> ft_file s !! k = Some f -> f_type f <> FD_PIPE ->
  ft_inv (alter drop_entry k (ft_file s)) (ft_pipes s).
Proof. intros I Hk Ht. by eapply ft_inv_alter. Qed.

Lemma closed_file s k f :
  ft_file s !! k = Some f ->
  alter (fun x => set_f_type FD_NONE (set_f_ref 0 x)) k
    (alter (fun x => set_f_ref (f_ref x - 1) x) k (ft_file s)) = alter drop_entry k (ft_file s).
Proof. intros Hk. rewrite list_alter_alter_eq. by eapply alter_ext_at. Qed.

Lemma close_pipe_inv s k f s' :
  inv s -> ft_file s !! k = Some f -> f_type f = FD_PIPE ->
  close_pipe me callers kend (f_pipe f) (f_writable f)
    (updf k (fun x => set_f_type FD_NONE (set_f_ref 0 x)) (updf k (fun x => set_f_ref (f_ref x - 1) x) s))
    = Done tt s' -> inv s'.
Proof.
  intros I Hk Ht. destruct (fi_end _ _ I (f_pipe f) (f_writable f) k) as (p & Hp & Ho); [by exists f|].
  pose proof (ft_inv_close _ _ _ _ _ I Hk Ht Hp) as I'. unfold end_closed in I'.
  set (s1 := updf k _ _). assert (E1 : ft_file s1 = alter drop_entry k (ft_file s)) by by apply closed_file in Hk.
  assert (P1 : ft_pipes s1 = ft_pipes s) by done. clearbody s1.
  unfold close_pipe. mstep. rewrite P1, Hp.
  destruct (pipeclose p (f_writable f)) as [p' []].
  - mstep. intros E. apply zoom_mem in E as [Ef Ep].
    unfold inv. rewrite Ef, Ep. simpl. by rewrite E1.
  - intros [= <-]. unfold inv. simpl. by rewrite E1.
Qed.

Lemma fileclose_inv s k s' : inv s -> fileclose me callers kend pid k s = Done tt s' -> inv s'.
Proof.
  intros I. unfold fileclose. mstep. cbv zeta.
  destruct (ft_file s !! k) as [f|] eqn:Hk.
  2: { unfold getf. by rewrite Hk. }
  rewrite (getf_lookup _ _ _ Hk). destruct (Z.ltb_spec (f_ref f) 1); [done|].
  mstep. destruct (Z.ltb_spec 0 (f_ref f - 1)).
  { intros [= <-]. unfold inv. simpl.
    rewrite (alter_ext_at _ _ (set_f_ref (f_ref f - 1)) _ _ Hk) by done. by eapply ft_inv_ref. }
  mstep.
  assert (E1 := closed_file s k f Hk). destruct (f_type f) eqn:Ht.
  - intros [= <-]. unfold inv. simpl. rewrite E1. eapply closed_inv; [done|done|by rewrite Ht].
  - by apply close_pipe_inv.
  - intros E. apply bind_Done_inv in E as ([] & s1 & H1 & E). apply bind_Done_inv in E as ([] & s2 & H2 & E).
    apply zoom_fs in H1 as [F1 P1], H2 as [F2 P2], E as [F3 P3].
    unfold inv. rewrite F3, P3, F2, P2, F1, P1. simpl. rewrite E1.
    eapply closed_inv; [done|done|by rewrite Ht].
Qed.

Lemma pipe_bad_inv s f0 f1 r s' :
  inv s -> pipe_bad me callers kend pid f0 f1 s = Done r s' -> inv s'.
Proof.
  intros I E. unfold pipe_bad in E. apply bind_Done_inv in E as ([] & s1 & H1 & E).
  apply bind_Done_inv in E as ([] & s2 & H2 & [= <- <-]).
  assert (I1 : inv s1) by (destruct f0; [by eapply fileclose_inv|by injection H1 as <-]).
  destruct f1; [by eapply fileclose_inv|by injection H2 as <-].
Qed.

(** The table after a new pipe at [p] has got its two ends. *)
Lemma new_pipe_inv fs ps r w fr fw p data :
  ft_inv fs ps -> ps !! p = None -> r <> w -> fs !! r = Some fr -> fs !! w = Some fw ->
  f_type fr = FD_NONE -> f_type fw = FD_NONE -> 0 < f_ref fr -> 0 < f_ref fw ->
  ft_inv (alter (fun x => File FD_PIPE (f_ref x) false true p (f_ip x) (f_off x)) w
           (alter (fun x => File FD_PIPE (f_ref x) true false p (f_ip x) (f_off x)) r fs))
    (<[p := pipe_init data]> ps).
Proof.
  intros [I1 I2 I3 I4 I5 I6] Hp Hne Hr Hw Tr Tw Rr Rw. set (fs' := alter _ w _).
  assert (Lr : fs' !! r = Some (File FD_PIPE (f_ref fr) true false p (f_ip fr) (f_off fr))).
  { unfold fs'. by rewrite list_lookup_alter_ne, list_lookup_alter_eq, Hr. }
  assert (Lw : fs' !! w = Some (File FD_PIPE (f_ref fw) false true p (f_ip fw) (f_off fw))).
  { unfold fs'. by rewrite list_lookup_alter_eq, list_lookup_alter_ne, Hw. }
  assert (Lo : forall j, j <> r -> j <> w -> fs' !! j = fs !! j).
  { intros j ? ?. unfold fs'. by rewrite !list_lookup_alter_ne. }
  assert (E : forall a b j, is_end fs' a b j <->
    (a = p /\ ((j = r /\ b = false) \/ (j = w /\ b = true))) \/ is_end fs a b j).
  { intros a b j. destruct (decide (j = r)) as [->|Hjr]; [|destruct (decide (j = w)) as [->|Hjw]].
    - split.
      + intros (x & Hx & _ & E1 & E2). rewrite Lr in Hx. injection Hx as <-. naive_solver.
      + intros [(-> & [[_ ->]|[-> _]])|(x & Hx & T & _)]; [by eexists|done|].
        rewrite Hr in Hx. injection Hx as <-. congruence.
    - split.
      + intros (x & Hx & _ & E1 & E2). rewrite Lw in Hx. injection Hx as <-. naive_solver.
      + intros [(-> & [[-> _]|[_ ->]])|(x & Hx & T & _)]; [done|by eexists|].
        rewrite Hw in Hx. injection Hx as <-. congruence.
    - unfold is_end. rewrite Lo by done. naive_solver. }
  assert (Hno : forall b j, ~ is_end fs p b j).
  { intros b j He. destruct (I3 _ _ _ He) as (x & Hx & _). congruence. }
  assert (Hlk : forall j x, fs' !! j = Some x -> (fs !! j = Some x) \/ (0 < f_ref x /\ (j = r \/ j = w))).
  { intros j x Hx. destruct (decide (j = r)) as [->|]; [|destruct (decide (j = w)) as [->|]].
    - rewrite Lr in Hx. injection Hx as <-. right. auto.
    - rewrite Lw in Hx. injection Hx as <-. right. auto.
    - left. by rewrite <- Lo. }
  split.
  - intros j x [Hx|[? _]]%Hlk; [eauto|lia].
  - intros j x [Hx|[? _]]%Hlk; [eauto|lia].
  - intros a b j [(-> & _)|He]%E; [rewrite lookup_insert_eq; eexists; split; [done|by destruct b]|].
    destruct (I3 _ _ _ He) as (x & Hx & Ho). exists x. rewrite lookup_insert_ne; [done|congruence].
  - intros a b j l [(-> & Hj)|Hj]%E [(Ea & Hl)|Hl]%E.
    + naive_solver.
    + by destruct (Hno b l).
    + subst a. by destruct (Hno b j).
    + by eapply I4.
  - intros a x b [[<- <-]|[Ha Hx]]%lookup_insert_Some Ho.
    + destruct b; [exists w|exists r]; apply E; left; auto.
    + destruct (I5 _ _ _ Hx Ho) as [j Hj]. exists j. apply E. by right.
  - intros a x [[<- <-]|[Ha Hx]]%lookup_insert_Some; [by left|eauto].
Qed.

(** [kalloc] does not hand out a page in use as a pipe. *)
Definition fresh_page (s : ftst) : Prop :=
  forall p km, kalloc me callers (ft_mem s) = Done p km -> ft_pipes s !! p = None.

Lemma filealloc_mem s r s' : filealloc s = Done r s' -> ft_mem s' = ft_mem s.
Proof. unfold filealloc. munf. destruct (find_idx _ _ _); intros [= _ <-]; done. Qed.

Lemma pipealloc_inv s r s' :
  inv s -> fresh_page s -> pipealloc me callers kend pid s = Done r s' -> inv s'.
Proof.
  intros I Hfresh E. unfold pipealloc in E. apply bind_Done_inv in E as (f0 & s1 & H0 & E).
  pose proof (filealloc_mem _ _ _ H0) as M1. pose proof (filealloc_run s I) as R0. rewrite H0 in R0.
  destruct f0 as [k0|]; [|subst s1; by eapply pipe_bad_inv].
  destruct R0 as (I1 & P1 & f & Hf & Rf & Tf & E1).
  apply bind_Done_inv in E as (f1 & s2 & H1 & E). pose proof (filealloc_mem _ _ _ H1) as M2.
  pose proof (filealloc_run s1 I1) as R1. rewrite H1 in R1.
  destruct f1 as [k1|]; [|subst s2; by eapply pipe_bad_inv].
  destruct R1 as (I2 & P2 & g & Hg & Rg & Tg & E2).
  apply bind_Done_inv in E as (p & s3 & H2 & E). pose proof (zoom_mem _ _ _ _ H2) as [F3 P3].
  assert (I3 : inv s3) by (unfold inv; by rewrite F3, P3).
  destruct (Z.eqb_spec p 0); [by eapply pipe_bad_inv|].
  apply bind_Done_inv in E as ([] & s4 & [= <-] & E). apply bind_Done_inv in E as ([] & s5 & [= <-] & E).
  apply bind_Done_inv in E as ([] & s6 & [= <-] & [= <- <-]).
  assert (Hne : k0 <> k1).
  { intros ->. rewrite E1, list_lookup_alter_eq, Hf in Hg. injection Hg as <-. done. }
  apply (new_pipe_inv (ft_file s3) (ft_pipes s3) k0 k1 (set_f_ref 1 f) (set_f_ref 1 g)); try done.
  - rewrite P3, P2, P1. unfold zoom in H2. destruct (kalloc me callers _) as [p' km| |] eqn:Ek; simplify_eq.
    apply (Hfresh _ km). rewrite <- Ek. f_equal. simpl. congruence.
  - rewrite F3, E2, list_lookup_alter_ne, E1, list_lookup_alter_eq, Hf by done. done.
  - rewrite F3, E2, list_lookup_alter_eq, Hg. done.
Qed.

(** Sequences of operations on the table, from the empty one; [FsOpen] is what [sys_open]
    does to the entry it has allocated. *)
Inductive freach : ftst -> Prop :=
  | FsInit fs km : freach (FtSt (replicate NFILE zero_file) fs ∅ km)
  | FsAlloc s r s' : freach s -> filealloc s = Done r s' -> freach s'
  | FsDup s k r s' : freach s -> filedup k s = Done r s' -> freach s'
  | FsClose s k s' : freach s -> fileclose me callers kend pid k s = Done tt s' -> freach s'
  | FsPipe s r s' : freach s -> fresh_page s -> pipealloc me callers kend pid s = Done r s' -> freach s'
  | FsOpen s k f ip rd wr : freach s -> ft_file s !! k = Some f -> 0 < f_ref f -> f_type f = FD_NONE ->
      freach (updf k (fun x => File FD_INODE (f_ref x) rd wr (f_pipe x) ip 0) s).

Lemma filedup_inv s k r s' : inv s -> filedup k s = Done r s' -> inv s'.
Proof.
  intros I. unfold filedup. mstep. destruct (ft_file s !! k) as [f|] eqn:Hk.
  2: { unfold getf. by rewrite Hk. }
  rewrite (getf_lookup _ _ _ Hk). destruct (Z.ltb_spec (f_ref f) 1); [done|]. intros [= _ <-].
  unfold inv. simpl. rewrite (alter_ext_at _ _ (set_f_ref (f_ref f + 1)) _ _ Hk) by done.
  eapply ft_inv_ref; [done|done|lia].
Qed.

Lemma freach_inv s : freach s -> inv s.
Proof.
  induction 1 as [fs km|s r s' _ I E|s k r s' _ I E|s k s' _ I E|s r s' _ I Hf E|s k f ip rd wr _ I Hk Hr Ht].
  - assert (K : forall k f, replicate NFILE zero_file !! k = Some f -> f = zero_file).
    { intros k f E. by apply lookup_replicate in E as [-> _]. }
    split; simpl.
    + by intros k f ->%K.
    + by intros k f ->%K.
    + by intros a w k (f & ->%K & Ht & _).
    + by intros a w k j (f & ->%K & Ht & _).
    + done.
    + done.
  - pose proof (filealloc_run s I) as R. rewrite E in R. destruct r; [by apply R|by subst].
  - by eapply filedup_inv.
  - by eapply fileclose_inv.
  - by eapply pipealloc_inv.
  - unfold inv. simpl. eapply ft_inv_alter; [done|done|by rewrite Ht|done|simpl; lia|simpl; lia].
Qed.
End Ops.

(** C12. However open files are allocated, duplicated, opened and closed, no file refers to
    a pipe that has been freed: every end of a pipe in the table belongs to a pipe alive
    with that end open, no two entries are the same end, each end that is open has its
    entry, and a pipe stays alive exactly as long as one of its ends is open. *)
Theorem file_table_safe me callers kend pid s :
  freach me callers kend pid s ->
  (forall k f, ft_file s !! k = Some f -> f_type f = FD_PIPE ->
     exists p, ft_pipes s !! f_pipe f = Some p /\ open_end p (f_writable f) = true) /\
  (forall k j f g, ft_file s !! k = Some f -> ft_file s !! j = Some g ->
     f_type f = FD_PIPE -> f_type g = FD_PIPE -> f_pipe f = f_pipe g -> f_writable f = f_writable g -> k = j) /\
  (forall a p, ft_pipes s !! a = Some p ->
     (open_end p false = true \/ open_end p true = true) /\
     forall w, open_end p w = true -> exists k, is_end (ft_file s) a w k).
Proof.
  intros [I1 I2 I3 I4 I5 I6]%freach_inv. split; [|split].
  - intros k f Hk Ht. by apply (I3 _ _ k); exists f.
  - intros k j f g Hk Hj Tf Tg Ea Ew. apply (I4 (f_pipe f) (f_writable f)); [by exists f|by exists g].
  - intros a p Hp. split; [by apply (I6 _ _ Hp)|]. intros w Hw. by apply (I5 a p).
Qed.

(** A pipe made in an empty table, from the one free page at 4 MB. *)
Definition one_page : kstate :=
  KState (Cpu 0 0 0 None false) (fun _ => 0) (Spinlock 0 "kmem" None []) 0 4194304.
Definition no_files : ftst :=
  FtSt (replicate NFILE zero_file)
    (FsSt (LogSt 2 LOGSIZE 0 0 1 (LogHeader 0 []) (BState [] [] [])) (Superblock 0 0 0 0 0 0 0) [])
    ∅ one_page.

Definition piped : ftst :=
  match pipealloc 0 [] 0 1 no_files with Done _ s => s | _ => no_files end.

Lemma piped_reach : freach 0 [] 0 1 piped.
Proof.
  eapply (FsPipe _ _ _ _ no_files _ _ (FsInit _ _ _ _ _ _)); [|reflexivity].
  intros p km _. apply lookup_empty.
Qed.

Lemma file_table_safe_witness :
  pipealloc 0 [] 0 1 no_files = Done (Some (0, 1)%nat) piped /\
  exists k, is_end (ft_file piped) 4194304 true k.
Proof.
  split; [reflexivity|].
  exact (proj2 (proj2 (proj2 (file_table_safe 0 [] 0 1 piped piped_reach))
    4194304 (pipe_init (old_bytes (fun _ => 0) 4194304)) eq_refl) true eq_refl).
Defined.
