(* ===== verification/FileWrite.v ===== *)
(** * A write from the file descriptor down to the disk

    One transaction of [filewrite]: [begin_op], [ilock], [writei], [iunlock], [end_op].
    [Idle] is the file system between transactions. *)

From stdpp Require Import base tactics numbers list sets gmap strings.
From Stdlib Require Import ZArith Lia ZifyNat.
From S2P Require Import Prelude Layout Spinlock Kalloc Sleeplock Bio BioSpec Log LogSpec LogCrash LogOps Fs FsTx FsBlocks FsFile FsRw FsInode FsDir FsSpec Pipe File FileSpec.

Section Idle.
Variable pid : Z.
Variable sb : superblock.
Implicit Types (ic : list inode) (c : Z -> bdata) (D : gset Z).

(** No operation is outstanding, the log is empty, and the blocks on disk are [c]. *)
Record Idle ic c (s : fsst) : Prop := MkIdle {
  I_sb : fs_sb s = sb;
  I_ic : fs_icache s = ic;
  I_store : exists A, rep pid A ∅ (lg_bs (fs_log s)) /\ log_inv A (fs_log s) /\
    (forall n, blk (a_disk A) n = c n) /\ Z.of_nat (length (a_disk A)) = sb_size sb;
  I_log : lg_start (fs_log s) = sb_logstart sb /\ lg_size (fs_log s) = sb_nlog sb /\
    lg_outstanding (fs_log s) = 0 /\ lg_committing (fs_log s) = 0 /\ lh_n (lg_lh (fs_log s)) = 0 }.

(** On disk, not in the log. *)
Definition home_block (m : Z) : Prop :=
  0 <= m < sb_size sb /\ ~ (sb_logstart sb <= m < sb_logstart sb + sb_nlog sb).

Lemma log_empty_clean A l : log_inv A l -> lh_n (lg_lh l) = 0 -> a_dirty A = ∅.
Proof.
  intros I Hn. apply map_eq. intros m. rewrite lookup_empty. apply eq_None_not_Some. intros Hs.
  apply (li_dirty _ _ I) in Hs as (i & Hi & _). lia.
Qed.

Lemma begin_op_Tx ic c s :
  Idle ic c s -> returns (zoom log_lens begin_op) s (fun _ s' => Tx pid 1 sb ic c ∅ ∅ s').
Proof.
  intros [I1 I2 (A & R & I & V & HL) (L1 & L2 & L3 & L4 & L5)].
  pose proof (log_empty_clean _ _ I L5) as Hd.
  exists tt, (lset log_lens (set_outstanding 1 (fs_log s)) s). split.
  - apply (zoom_Done log_lens). unfold begin_op. mstep. cbn [lget log_lens]. by rewrite L3, L4, L5.
  - split; [done|done| |simpl; repeat split; (done || lia)|].
    + exists A. split; [done|]. split; [by destruct I|]. split; [|split; [|done]].
      * intros n. unfold view. rewrite Hd, lookup_empty. apply V.
      * by rewrite Hd, dom_empty_L.
    + intros n Hn. rewrite <- V. apply blk_length; [apply R|]. unfold in_disk. lia.
Qed.

(** The last [end_op] puts the transaction on disk. *)
Lemma end_op_Tx ic c D s :
  Tx pid 1 sb ic c ∅ D s ->
  returns (zoom log_lens (end_op pid)) s (fun _ s' => exists c', Idle ic c' s' /\
    forall m, home_block m -> c' m = c m).
Proof.
  intros [T1 T2 (A & R & I & V & Hd & HL) (L1 & L2 & (L3 & L4 & L5) & L6) T5].
  destruct (end_op_last pid A (fs_log s) R I L4 L5) as
    (l' & A' & E & R' & I' & N' & O' & C' & (S1 & S2 & S3) & Hm).
  exists tt, (lset log_lens l' s). split; [by apply (zoom_Done log_lens)|].
  exists (blk (a_disk A')). split.
  - split; [done|done| |simpl; rewrite S1, S2; done].
    exists A'. split; [done|]. split; [done|]. split; [done|lia].
  - intros m [Hr Hnl]. rewrite Hm, V; [done|]. unfold home, in_log. simpl. lia.
Qed.
End Idle.

(** ** The transaction *)

Lemma iunlock_ok pid out sb ic c D s ip i :
  Tx pid out sb ic c ∅ D s -> ic !! ip = Some i -> locked_by pid (i_lock i) -> 1 <= i_ref i ->
  returns (iunlock pid ip) s (fun _ s' =>
    Tx pid out sb (<[ip := set_i_lock (SleepLock 0 (sl_name (i_lock i)) 0) i]> ic) c ∅ D s').
Proof.
  intros T Hip Hl Hr. unfold iunlock.
  assert (Hg : i_lock (geti s ip) = i_lock i) by by rewrite (Tx_geti _ _ _ _ _ _ _ _ _ T), Hip.
  eapply returns_Done.
  { apply (zoom_Done (ilock_lens ip)). cbn [lget ilock_lens]. rewrite Hg. by apply holdingsleep_run. }
  assert (Es : lset (ilock_lens ip) (i_lock i) s = s).
  { unfold ilock_lens, updi. simpl. destruct s as [l b icx]. f_equal. simpl.
    rewrite (T_ic _ _ _ _ _ _ _ _ T : icx = ic) in *. rewrite (alter_insert _ _ i) by done.
    rewrite <- (list_insert_id ic ip i) at 2 by done. f_equal. by destruct i. }
  rewrite Es. apply returns_get. rewrite (Tx_geti _ _ _ _ _ _ _ _ _ T), Hip. simpl default.
  rewrite (proj2 (Z.ltb_ge _ _)) by lia. simpl orb. cbv iota.
  eexists tt, _. split; [apply (zoom_Done (ilock_lens ip)); cbn [lget ilock_lens]; rewrite Hg; reflexivity|].
  rewrite <- (alter_insert ic ip i (set_i_lock (SleepLock 0 (sl_name (i_lock i)) 0)) Hip).
  exact (Tx_updi _ _ _ _ _ _ _ _ ip _ T).
Qed.

(** The lock is not part of what [fwf] says. *)
Lemma fwf_lock sb c i l : fwf sb c i -> fwf sb c (set_i_lock l i).
Proof.
  intros [[] [] [] S Ht]. split; [by split|by split|by split| |done].
  unfold synced, dinode, load_dinode, set_i_lock in *. destruct i as [a1 a2 a3 a4 a5 a6 a7 a8 a9 a10 a11].
  cbn [i_dev i_inum i_ref i_lock i_valid i_type i_major i_minor i_nlink i_size i_addrs] in *.
  injection S as E1 E2 E3 E4 E5 E6. rewrite E1, E2, E3, E4, E5. f_equal. exact E6.
Qed.

Section Chunk.
Variable pid : Z.
Variable sb : superblock.
Hypothesis G : geom sb.
Context {devsw : DevSw}.

Lemma nblk_max off n : 0 <= off -> 0 <= n <= filewrite_max -> (nblk off n <= 4)%nat.
Proof.
  intros Ho Hn. change filewrite_max with 1536 in Hn. unfold nblk. rewrite BSIZE_val.
  destruct (Z.eqb_spec n 0); zlia.
Qed.

Lemma map_blocks_one : sb_size sb <= BPB -> (size (∅ ∪ map_blocks sb) <= 1)%nat.
Proof using G.
  intros Hs. rewrite union_empty_l_L. pose proof (g_size _ G).
  assert (E : map_blocks sb = {[sb_bmapstart sb]}).
  { unfold map_blocks. replace ((sb_size sb - 1) / BPB) with 0 by (rewrite BPB_val in *; zlia).
    simpl. rewrite union_empty_r_L. by rewrite Z.add_0_r. }
  rewrite E, size_singleton. done.
Qed.

(** ** Contents that agree outside the log *)

Section Home.
Context (c c' : Z -> bdata) (E : forall m, home_block sb m -> c' m = c m).

Lemma home_loggable m : loggable sb m -> c' m = c m.
Proof using G E.
  intros Hl. apply E. split; [by apply loggable_range|]. destruct Hl. lia.
Qed.

Lemma home_data m : is_data sb m -> c' m = c m.
Proof using G E. intros Hm. by apply home_loggable, data_loggable. Qed.

Lemma home_used b : 0 <= b < sb_size sb -> used sb c' b = used sb c b.
Proof using G E. intros Hb. unfold used. rewrite home_loggable; [done|]. by apply BBLOCK_loggable. Qed.

Lemma home_fblk i bn : iwf sb c i -> fblk c' i bn = fblk c i bn.
Proof using G E. intros W. apply fblk_ext. intros Hi. apply home_data. by apply (w_ind _ _ _ W). Qed.

Lemma home_zero : c' 0 = c 0.
Proof using G E.
  apply E. destruct G as [[? El] ? ? ? [? ?]]. split; [lia|]. lia.
Qed.

Lemma home_fbyte i o : iwf sb c i -> 0 <= o < MAXFILE * BSIZE -> fbyte c' i o = fbyte c i o.
Proof using G E.
  intros W Ho. unfold fbyte. rewrite home_fblk by done.
  destruct (decide (fblk c i (o / BSIZE) = 0)) as [->|Hn]; [by rewrite home_zero|].
  rewrite home_data; [done|]. apply (w_blk _ _ _ W); [|done]. rewrite BSIZE_val, MAXFILE_val in *. zlia.
Qed.

Lemma home_dinode inum j : 0 <= inum < sb_ninodes sb -> dinode sb c' inum j = dinode sb c inum j.
Proof using G E. intros Hi. unfold dinode. rewrite home_loggable; [done|]. by apply IBLOCK_loggable. Qed.

Lemma home_fwf i : fwf sb c i -> fwf sb c' i.
Proof using G E.
  intros [W N R S Ht]. split; [|split|done| |done].
  - eapply iwf_ext; [done| |].
    + intros. by apply home_fblk.
    + intros n Hn Un. rewrite home_used; [done|]. pose proof (is_data_range sb G _ Hn). lia.
  - apply N.
  - intros bn H0 Hb. rewrite home_fblk by done. by apply N.
  - unfold synced. rewrite home_dinode; [done|apply W].
Qed.
End Home.

Lemma Idle_cwf ic c c0 s :
  Idle pid sb ic c s -> cwf sb c0 -> (forall m, home_block sb m -> c m = c0 m) -> cwf sb c.
Proof using G.
  intros [_ _ (A & R & I & V & HL) _] C E. split.
  - intros n Hn. rewrite <- V. apply blk_length; [apply R|]. unfold in_disk. lia.
  - intros b Hb. pose proof (g_size _ G). unfold data_start in Hb.
    rewrite (home_used c0 c E) by lia. by apply C.
Qed.

(** ** One transaction of [filewrite] *)

(** What holds of the file system part before and after. *)
Record ready (ic : list inode) (c : Z -> bdata) (ip : nat) (i : inode) (s : fsst) : Prop := Ready {
  rd_idle : Idle pid sb ic c s;
  rd_ip : ic !! ip = Some i;
  rd_cwf : cwf sb c;
  rd_fwf : fwf sb c i;
  rd_ref : 1 <= i_ref i;
  rd_lock : unlocked (i_lock i);
  rd_valid : i_valid i <> 0;
  rd_type : i_type i <> 0 }.

Lemma zoom_fs_returns {A} (m : M fsst A) (s : ftst) Q :
  returns m (ft_fs s) Q ->
  returns (zoom fs_lens m) s (fun a s' => Q a (ft_fs s') /\ ft_file s' = ft_file s /\
    ft_pipes s' = ft_pipes s /\ ft_mem s' = ft_mem s).
Proof. intros (a & t & E & HQ). exists a, (lset fs_lens t s). split; [by apply (zoom_Done fs_lens)|done]. Qed.

Definition wrote_file (ic : list inode) (c : Z -> bdata) (ip : nat) (i : inode) (src : list Z) (off r : Z) (s' : fsst) : Prop :=
  let n := Z.of_nat (length src) in
  r = n /\ exists ic' c' i', ready ic' c' ip i' s' /\ (forall k, k <> ip -> ic' !! k = ic !! k) /\
    i_size i' = Z.max (i_size i) (off + n) /\ i_inum i' = i_inum i /\
    (forall o, 0 <= o < i_size i' -> fbyte c' i' o =
       if decide (off <= o < off + n) then default 0 (src !! Z.to_nat (o - off)) else fbyte c i o) /\
    (forall inum j, 0 <= inum < sb_ninodes sb -> inum <> i_inum i -> dinode sb c' inum j = dinode sb c inum j).

Section One.
Context (ic : list inode) (c : Z -> bdata) (ip : nat) (i : inode) (src : list Z) (off : Z).
Context (Ho : 0 <= off <= i_size i) (HM : off + Z.of_nat (length src) <= MAXFILE * BSIZE).
Context (Hn : Z.of_nat (length src) <= filewrite_max) (Hs : sb_size sb <= BPB).
Context (Hcan : can_write sb c i off (Z.of_nat (length src))).

Lemma ilock_ready s :
  Tx pid 1 sb ic c ∅ ∅ s -> ic !! ip = Some i -> fwf sb c i -> 1 <= i_ref i -> unlocked (i_lock i) ->
  i_valid i <> 0 -> i_type i <> 0 ->
  returns (ilock pid ip) s (fun _ s' => Tx pid 1 sb (<[ip := locked pid i]> ic) c ∅ ∅ s').
Proof using G.
  intros T Hip F Hr Hl Hv Ht.
  assert (E : ilocked pid sb c i = locked pid i) by (unfold ilocked; by rewrite (proj2 (Z.eqb_neq _ _) Hv)).
  rewrite <- E. apply ilock_ok; try done; [apply F|apply F|rewrite size_empty; apply Nat.le_0_l|by rewrite E].
Qed.

Lemma writei_ready s :
  Tx pid 1 sb (<[ip := locked pid i]> ic) c ∅ ∅ s -> (ip < length ic)%nat -> cwf sb c -> fwf sb c i ->
  returns (writei pid ip src off) s
    (writei_post pid 1 sb (<[ip := locked pid i]> ic) c ∅ ip (locked pid i) src off).
Proof using Ho HM Hn Hs Hcan G.
  intros T Hip C F. apply writei_ok; try done.
  - by apply list_lookup_insert_eq.
  - by apply fwf_lock.
  - pose proof (map_blocks_one Hs). pose proof (nblk_max off _ (proj1 Ho) (conj (Nat2Z.is_nonneg _) Hn)). lia.
Qed.

(** After the write: [iunlock] and [end_op]. *)
Lemma finish_ready r s :
  ic !! ip = Some i -> 1 <= i_ref i -> i_valid i <> 0 -> i_type i <> 0 ->
  writei_post pid 1 sb (<[ip := locked pid i]> ic) c ∅ ip (locked pid i) src off r s ->
  returns (iunlock pid ip ;;; zoom log_lens (end_op pid)) s (fun _ s' => wrote_file ic c ip i src off r s').
Proof using G.
  intros Hip Hr Hv Ht (-> & c' & i' & D' & T & C & F & Ei & Hb & Hd & Hsz).
  rewrite list_insert_insert_eq in T. pose proof (lookup_lt_Some _ _ _ Hip) as Hlt.
  assert (Hl : locked_by pid (i_lock i')) by (rewrite Ei; by split).
  rstep iunlock_ok; [exact T|by apply list_lookup_insert_eq|done|by rewrite Ei|].
  intros _ s1 T1. rewrite list_insert_insert_eq in T1.
  eapply returns_mono; [exact (end_op_Tx _ _ _ _ _ _ T1)|].
  intros _ s2 (c2 & Id & E2). split; [done|].
  set (i2 := set_i_lock (SleepLock 0 (sl_name (i_lock i')) 0) i') in *.
  assert (F2 : fwf sb c' i2) by by apply fwf_lock.
  exists (<[ip := i2]> ic), c2, i2. split; [|split; [|split; [|split; [|split]]]].
  - split; [done|by apply list_lookup_insert_eq|by eapply Idle_cwf|by eapply home_fwf|..];
      unfold i2; rewrite Ei; done.
  - intros k Hk. by rewrite list_lookup_insert_ne.
  - unfold i2. by rewrite Ei.
  - unfold i2. by rewrite Ei.
  - intros o Hr'. rewrite (home_fbyte c' c2 E2 i2 o); [exact (Hb o Hr')|apply F2|].
    pose proof (fw_nohole _ _ _ F2) as [? _]. lia.
  - intros inum j Hi Hne. rewrite (home_dinode c' c2 E2) by done. by apply Hd.
Qed.

(** [filewrite_chunk] on the whole state. *)
Lemma filewrite_chunk_ok (s : ftst) (f : nat) (x : file) :
  ready ic c ip i (ft_fs s) -> ft_file s !! f = Some x -> f_ip x = ip -> f_off x = off -> (0 < length src)%nat ->
  returns (filewrite_chunk pid f src) s (fun r s' =>
    wrote_file ic c ip i src off r (ft_fs s') /\
    ft_file s' = <[f := set_f_off (off + Z.of_nat (length src)) x]> (ft_file s)).
Proof using All.
  intros [Id Hip C F Hr Hl Hv Ht] Hf Ei Eo Hpos. pose proof (lookup_lt_Some _ _ _ Hip) as Hlt.
  assert (Hx : forall s', ft_file s' = ft_file s -> getf s' f = x) by (intros s' E; unfold getf; by rewrite E, Hf).
  unfold filewrite_chunk. rstep @zoom_fs_returns; [exact (begin_op_Tx _ _ _ _ _ Id)|].
  intros _ s1 (T1 & E1 & _). apply returns_gets. rewrite (Hx _ E1), Ei.
  rstep @zoom_fs_returns; [by apply ilock_ready|]. intros _ s2 (T2 & E2 & _).
  apply returns_gets. rewrite (Hx s2), Eo by congruence.
  rstep @zoom_fs_returns; [by apply writei_ready|]. intros r s3 (P3 & E3 & _). pose proof P3 as [Er _].
  rewrite Er, (proj2 (Z.ltb_lt 0 _)) by lia. simpl when. apply returns_modify.
  set (s4 := updf f _ s3).
  assert (P4 : returns (iunlock pid ip ;;; zoom log_lens (end_op pid)) (ft_fs s4)
    (fun _ s' => wrote_file ic c ip i src off r s')) by (by apply finish_ready).
  destruct P4 as ([] & t & E4 & P4). apply bind_Done_inv in E4 as ([] & t1 & E4a & E4b).
  eapply returns_Done; [by apply (zoom_Done fs_lens)|].
  eapply returns_Done; [apply (zoom_Done fs_lens); exact E4b|]. apply returns_ret. split; [by rewrite <- Er|].
  simpl. rewrite E3, E2, E1. rewrite (alter_insert _ _ x) by done. rewrite Eo. do 2 f_equal.
  apply u32_small. rewrite BSIZE_val, MAXFILE_val in HM. lia.
Qed.
End One.
End Chunk.

(** C2. [filewrite] of at most [filewrite_max] bytes on an open, writable file whose inode is
    valid and unlocked returns the number of bytes and is durable when it returns: no
    transaction is outstanding, the log is empty, and on the disk itself the file holds the
    new bytes at the old offset and its old bytes elsewhere, its inode on disk agrees with
    the one in memory, and no other inode on disk changed. The offset of the open file is
    advanced, every other open file is untouched, and the inode is unlocked again. *)
Theorem filewrite_durable {devsw : DevSw} pid killed sb ic c ip i s f x src :
  let n := Z.of_nat (length src) in
  geom sb -> sb_size sb <= BPB -> ready pid sb ic c ip i (ft_fs s) ->
  ft_file s !! f = Some x -> f_type x = FD_INODE -> f_writable x = true -> f_ip x = ip ->
  0 <= f_off x <= i_size i -> f_off x + n <= MAXFILE * BSIZE -> 0 < n <= filewrite_max ->
  can_write sb c i (f_off x) n ->
  returns (filewrite pid killed f src) s (fun r s' =>
    wrote_file pid sb ic c ip i src (f_off x) r (ft_fs s') /\
    ft_file s' = <[f := set_f_off (f_off x + n) x]> (ft_file s)).
Proof.
  intros n G Hs Rd Hf Ht Hw Hip Ho HM Hn Hcan. unfold filewrite. apply returns_get.
  unfold getf. rewrite Hf. simpl default. rewrite Hw, Ht. simpl negb. cbv iota.
  destruct src as [|b src]; [simpl in n; lia|]. cbn [length filewrite_loop].
  change (Z.of_nat (S (length src))) with n. rewrite Z.min_l by lia. unfold n at 1. rewrite Nat2Z.id, take_ge by done.
  apply returns_bind_assoc. rstep (filewrite_chunk_ok pid sb G ic c ip i (b :: src) (f_off x)); try done; [lia|simpl; lia|].
  intros r s' [P E]. pose proof P as [Er _]. fold n in Er. rewrite Er.
  rewrite (proj2 (Z.ltb_ge _ _)), Z.eqb_refl by lia. simpl negb. cbv iota.
  unfold n at 1. rewrite Nat2Z.id, drop_all.
  destruct (length src); simpl; (apply returns_ret; split; [by rewrite <- Er|exact E]).
Qed.

(** The small file system between transactions, its file unlocked and open at offset 0. *)
Definition idle_file : inode := set_i_lock (SleepLock 0 "inode" 0) small_file.
Definition idle_icache : list inode := <[1%nat := idle_file]> small_icache.
Definition idle_fs : fsst :=
  FsSt (LogSt 2 LOGSIZE 0 0 1 (LogHeader 0 (replicate (Z.to_nat LOGSIZE) 0))
         (BState (booted <$> seq 0 (S NBUF)) small_disk []))
    small_sb idle_icache.
Definition open_file : file := File FD_INODE 1 true true 0 1 0.
Definition idle_files : ftst := FtSt [open_file] idle_fs ∅ one_page.

Lemma idle_ready pid : ready pid small_sb idle_icache (blk small_disk) 1 idle_file idle_fs.
Proof.
  destruct (small_tx pid) as [_ _ (A & R & I & V & Hd & HL) _ _].
  assert (HA : a_dirty A = ∅) by (by apply dom_empty_inv_L).
  split; [|done|apply small_cwf|apply fwf_lock, small_file_fwf|done|done|done|done].
  split; [done|done| |done]. exists A. split; [exact R|]. split; [by destruct I|]. split; [|done].
  intros n. rewrite <- V. unfold view. by rewrite HA, lookup_empty.
Qed.

Lemma filewrite_durable_witness :
  returns (filewrite (devsw := no_devices) 7 false 0 [104; 105]) idle_files (fun r s' =>
    wrote_file 7 small_sb idle_icache (blk small_disk) 1 idle_file [104; 105] 0 r (ft_fs s') /\
    ft_file s' = [set_f_off 2 open_file]).
Proof.
  apply (filewrite_durable 7 false small_sb idle_icache (blk small_disk) 1 idle_file idle_files 0 open_file);
    [apply small_geom|by vm_compute|apply idle_ready|done|done|done|done|simpl; lia|by vm_compute|by vm_compute|].
  right. exact (small_free 2 ltac:(lia)).
Defined.
