(* ===== verification/Syscall.v ===== *)
(** * System-call arguments and dispatch (syscall.c, syscall.h)

    A system call finds its arguments on the user stack. The kernel runs on the page table
    of the process, so a user address is read as it is. *)

From stdpp Require Import base tactics numbers list strings.
From Stdlib Require Import ZArith Lia ZifyNat.
From S2P Require Import Prelude Layout.

(** What the argument functions see of the current process: [sz], [tf->esp] and the memory
    at its addresses. *)
Record uview := UView {
  u_sz : Z;
  u_esp : Z;
  u_mem : mem }.

Section Args.
Variable u : uview.

(** [None] is the result -1. *)
Definition fetchint (addr : Z) : option Z :=
  if (u_sz u <=? addr) || (u_sz u <? u32 (addr + 4)) then None
  else Some (s32 (load32 (u_mem u) addr)).

(** [for(s = *pp; s < ep; s++)], [n] bytes before [ep]. *)
Fixpoint fetchstr_loop (n : nat) (s : Z) : option Z :=
  match n with
  | O => None
  | S n => if u_mem u s =? 0 then Some s else fetchstr_loop n (s + 1)
  end.

(** The pointer and the length of the string. *)
Definition fetchstr (addr : Z) : option (Z * Z) :=
  if u_sz u <=? addr then None
  else (fun s => (addr, s - addr)) <$> fetchstr_loop (Z.to_nat (u_sz u - addr)) addr.

Definition argint (n : Z) : option Z := fetchint (u32 (u_esp u + 4 + 4 * n)).

Definition argptr (n size : Z) : option Z :=
  match argint n with
  | None => None
  | Some i =>
      let i := u32 i in
      if (size <? 0) || (u_sz u <=? i) || (u_sz u <? u32 (i + size)) then None else Some i
  end.

Definition argstr (n : Z) : option (Z * Z) :=
  match argint n with
  | None => None
  | Some addr => fetchstr (u32 addr)
  end.

(** The bytes of a string argument. *)
Definition str_bytes (p : Z * Z) : list Z :=
  (fun k => u_mem u (fst p + Z.of_nat k)) <$> seq 0 (Z.to_nat (snd p)).
End Args.

(** ** The table of system calls *)

Inductive sysno :=
  | SYS_fork | SYS_exit | SYS_wait | SYS_pipe | SYS_read | SYS_kill | SYS_exec | SYS_fstat
  | SYS_chdir | SYS_dup | SYS_getpid | SYS_sbrk | SYS_sleep | SYS_uptime | SYS_open | SYS_write
  | SYS_mknod | SYS_unlink | SYS_link | SYS_mkdir | SYS_close | SYS_waitx | SYS_chpr | SYS_getpinfo.

Definition number (n : sysno) : Z :=
  match n with
  | SYS_fork => 1 | SYS_exit => 2 | SYS_wait => 3 | SYS_pipe => 4 | SYS_read => 5 | SYS_kill => 6
  | SYS_exec => 7 | SYS_fstat => 8 | SYS_chdir => 9 | SYS_dup => 10 | SYS_getpid => 11 | SYS_sbrk => 12
  | SYS_sleep => 13 | SYS_uptime => 14 | SYS_open => 15 | SYS_write => 16 | SYS_mknod => 17
  | SYS_unlink => 18 | SYS_link => 19 | SYS_mkdir => 20 | SYS_close => 21 | SYS_waitx => 22
  | SYS_chpr => 23 | SYS_getpinfo => 24
  end.

(** [syscalls], with a null pointer at index 0. *)
Definition syscalls : list (option sysno) :=
  [None; Some SYS_fork; Some SYS_exit; Some SYS_wait; Some SYS_pipe; Some SYS_read; Some SYS_kill;
   Some SYS_exec; Some SYS_fstat; Some SYS_chdir; Some SYS_dup; Some SYS_getpid; Some SYS_sbrk;
   Some SYS_sleep; Some SYS_uptime; Some SYS_open; Some SYS_write; Some SYS_mknod; Some SYS_unlink;
   Some SYS_link; Some SYS_mkdir; Some SYS_close; Some SYS_waitx; Some SYS_chpr; Some SYS_getpinfo].

(** [syscall], for the [eax] of the trap frame in the state and the functions of the table. *)
Definition syscall {S} (eax : lens S Z) (call : sysno -> M S Z) : M S unit :=
  let! num := gets (fun s => s32 (lget eax s)) in
  match (if (0 <? num) && (num <? Z.of_nat (length syscalls))
         then mjoin (syscalls !! Z.to_nat num) else None) with
  | Some n => let! r := call n in modify (lset eax (u32 r))
  | None => modify (lset eax (u32 (-1)))
  end.

(** ** What the arguments are good for *)

Lemma fetchstr_loop_spec u n s e :
  fetchstr_loop u n s = Some e ->
  s <= e < s + Z.of_nat n /\ u_mem u e = 0 /\ forall a, s <= a < e -> u_mem u a <> 0.
Proof.
  revert s. induction n as [|n IH]; intros s; simpl; [done|]. destruct (Z.eqb_spec (u_mem u s) 0) as [E|E].
  - intros [= <-]. split; [lia|]. split; [done|]. intros; lia.
  - intros (H1 & H2 & H3)%IH. split; [lia|]. split; [done|]. intros a Ha.
    destruct (decide (a = s)) as [->|]; [done|]. apply H3. lia.
Qed.

Lemma fetchstr_loop_none u n s :
  fetchstr_loop u n s = None -> forall a, s <= a < s + Z.of_nat n -> u_mem u a <> 0.
Proof.
  revert s. induction n as [|n IH]; intros s; simpl; [lia|]. destruct (Z.eqb_spec (u_mem u s) 0) as [E|E]; [done|].
  intros H a Ha. destruct (decide (a = s)) as [->|]; [done|]. apply (IH _ H). lia.
Qed.

Lemma fetchstr_spec u addr p len :
  0 <= u_sz u -> fetchstr u addr = Some (p, len) <->
  p = addr /\ 0 <= len /\ p + len < u_sz u /\ u_mem u (p + len) = 0 /\ (forall a, p <= a < p + len -> u_mem u a <> 0).
Proof.
  intros Hsz. unfold fetchstr. destruct (Z.leb_spec (u_sz u) addr); [split; [done|]; intros (-> & ?); lia|].
  destruct (fetchstr_loop u _ addr) as [e|] eqn:E; simpl.
  - apply fetchstr_loop_spec in E as (H1 & H2 & H3). split.
    + intros [= <- <-]. replace (addr + (e - addr)) with e by lia.
      split; [done|]. split; [lia|]. split; [lia|done].
    + intros (-> & L1 & L2 & L3 & L4). do 2 f_equal.
      destruct (Z.lt_trichotomy e (addr + len)) as [Hlt|[->|Hlt]]; [|lia|].
      * by destruct (L4 e); [lia|].
      * by destruct (H3 (addr + len)); [lia|].
  - split; [done|]. intros (-> & L1 & L2 & L3 & _). destruct (fetchstr_loop_none _ _ _ E (addr + len)); [lia|done].
Qed.

(** C9. For a process within its half of the address space the argument functions accept
    exactly what lies in its memory: [argint] a word, [argptr] a block of [size] bytes,
    whatever 32-bit value the process passes and without wrap-around, [argstr] a string
    with its terminating zero, and they return that word, pointer and length. *)
Theorem args_checked u n size :
  0 <= u_sz u <= KERNBASE -> -2147483648 <= size < 2147483648 ->
  (forall i, argint u n = Some i <->
     let a := u32 (u_esp u + 4 + 4 * n) in a + 4 <= u_sz u /\ i = s32 (load32 (u_mem u) a)) /\
  (forall p, argptr u n size = Some p <->
     exists i, argint u n = Some i /\ p = u32 i /\ 0 <= size /\ p < u_sz u /\ p + size <= u_sz u) /\
  (forall p len, argstr u n = Some (p, len) <->
     exists i, argint u n = Some i /\ p = u32 i /\ 0 <= len /\ p + len < u_sz u /\
       u_mem u (p + len) = 0 /\ forall a, p <= a < p + len -> u_mem u a <> 0).
Proof.
  change KERNBASE with 2147483648. intros Hsz Hn. split; [|split].
  - intros i. unfold argint, fetchint. set (a := u32 (u_esp u + 4 + 4 * n)). cbv zeta.
    assert (Ha : 0 <= a < 4294967296) by (apply u32_range).
    destruct (Z.leb_spec (u_sz u) a); simpl orb; cbv iota; [split; [done|lia]|].
    rewrite u32_small by lia. destruct (Z.ltb_spec (u_sz u) (a + 4)); [split; [done|lia]|].
    split; [intros [= <-]; split; [lia|done]|]. by intros [_ ->].
  - intros p. unfold argptr. destruct (argint u n) as [i|]; [|split; [done|by intros (? & ? & _)]].
    pose proof (u32_range i). split.
    + destruct (Z.ltb_spec size 0), (Z.leb_spec (u_sz u) (u32 i)); simpl orb; cbv iota; try done.
      rewrite (u32_small (u32 i + size)) by lia. destruct (Z.ltb_spec (u_sz u) (u32 i + size)); [done|].
      intros [= <-]. exists i. split; [done|]. split; [done|]. lia.
    + intros (i' & [= <-] & -> & H1 & H2 & H3). rewrite (proj2 (Z.ltb_ge size 0)), (proj2 (Z.leb_gt _ _)) by lia.
      simpl orb. rewrite (u32_small (u32 i + size)) by lia. by rewrite (proj2 (Z.ltb_ge _ _)) by lia.
  - intros p len. unfold argstr. destruct (argint u n) as [i|]; [|split; [done|by intros (? & ? & _)]].
    rewrite fetchstr_spec by lia. split; [intros H; by exists i|]. by intros (i' & [= <-] & H).
Qed.

(** A process of one page whose stack holds the pointer 4092 and that wants a block of 4 or
    of 5 bytes. *)
Definition one_arg : uview := UView 4096 4000 (store32 (fun _ => 1) 4004 4092).

Lemma args_checked_witness : argptr one_arg 0 4 = Some 4092 /\ argptr one_arg 0 5 = None.
Proof.
  destruct (args_checked one_arg 0 4) as (Hi & H4 & _); [by vm_compute|lia|].
  destruct (args_checked one_arg 0 5) as (_ & H5 & _); [by vm_compute|lia|]. split.
  - apply H4. exists 4092. split; [|by vm_compute]. apply Hi. by vm_compute.
  - apply eq_None_not_Some. intros [p (i & Hi' & -> & _ & _ & Hle)%H5].
    vm_compute in Hi'. injection Hi' as <-. by vm_compute in Hle.
Defined.
