(* ===== verification/Exec.v ===== *)
(** * The current process in a system call, and exec (exec.c, elf.h)

    [sysst] is what a system call of a process works on: the files, the file system and
    the memory of [File], the fields of its [struct proc] and trap frame, and the page
    table the processor runs on. User memory is the physical memory seen through that page
    table. What [exec] prints on the console is left out. *)

From stdpp Require Import base tactics numbers list gmap strings.
From Stdlib Require Import ZArith Lia ZifyNat.
From S2P Require Import Prelude Layout Spinlock CString Kalloc Vm VmSpec Sleeplock Bio Log Fs Pipe File Syscall.

Record uproc := UProc {
  up_sz : Z;
  up_pgdir : Z;
  up_kstack : Z;
  up_eip : Z;
  up_esp : Z;
  up_eax : Z;
  up_ofile : list (option nat);
  up_cwd : nat;
  up_name : list Z }.

Definition set_up_eax (v : Z) (p : uproc) : uproc :=
  UProc (up_sz p) (up_pgdir p) (up_kstack p) (up_eip p) (up_esp p) v (up_ofile p) (up_cwd p) (up_name p).
Definition set_up_ofile (v : list (option nat)) (p : uproc) : uproc :=
  UProc (up_sz p) (up_pgdir p) (up_kstack p) (up_eip p) (up_esp p) (up_eax p) v (up_cwd p) (up_name p).
Definition set_up_cwd (v : nat) (p : uproc) : uproc :=
  UProc (up_sz p) (up_pgdir p) (up_kstack p) (up_eip p) (up_esp p) (up_eax p) (up_ofile p) v (up_name p).

Record sysst := SysSt {
  sy_ft : ftst;
  sy_proc : uproc;
  sy_cr3 : Z }.

Definition ft_lens : lens sysst ftst := Lens sy_ft (fun v s => SysSt v (sy_proc s) (sy_cr3 s)).
Definition proc_lens : lens sysst uproc := Lens sy_proc (fun v s => SysSt (sy_ft s) v (sy_cr3 s)).
Definition kmem_lens : lens sysst kstate :=
  Lens (fun s => ft_mem (sy_ft s)) (fun v s => SysSt (lset mem_lens v (sy_ft s)) (sy_proc s) (sy_cr3 s)).

(** Running the operations of the parts. *)
Definition ft {A} (m : M ftst A) : M sysst A := zoom ft_lens m.
Definition fs {A} (m : M fsst A) : M sysst A := ft (zoom fs_lens m).
Definition lg {A} (m : M logst A) : M sysst A := fs (zoom log_lens m).
Definition km {A} (m : M kstate A) : M sysst A := zoom kmem_lens m.

(** ** User memory *)

(** The kernel address of the byte at the user address [a]. *)
Definition uaddr (m : mem) (pgdir a : Z) : Z := P2V (PTE_ADDR (pte_of m pgdir a)) + a mod PGSIZE.

Definition umem (s : sysst) : mem :=
  let m := k_mem (ft_mem (sy_ft s)) in fun a => m (uaddr m (P2V (sy_cr3 s)) a).
Definition uview_of (s : sysst) : uview := UView (up_sz (sy_proc s)) (up_esp (sy_proc s)) (umem s).

(** The kernel storing the bytes [l] at the user address [a]. *)
Fixpoint ustore (m : mem) (pgdir a : Z) (l : list Z) : mem :=
  match l with
  | [] => m
  | v :: l => ustore (store8 m (uaddr m pgdir a) v) pgdir (a + 1) l
  end.
Definition put_user (a : Z) (l : list Z) : M sysst unit :=
  let! cr3 := gets sy_cr3 in
  km (modify (fun k => set_k_mem (ustore (k_mem k) (P2V cr3) a l) k)).

(** The string at the user address [a]; it ends before [sz]. *)
Definition user_string (s : sysst) (a : Z) : list Z :=
  let u := uview_of s in
  match fetchstr u a with Some p => str_bytes u p | None => [] end.

(** ** exec *)

Definition ELF_PROG_LOAD : Z := 1.

(** The fields of [struct elfhdr] and [struct proghdr] that [exec] uses. *)
Record elfhdr := Elfhdr { e_magic : Z; e_entry : Z; e_phoff : Z; e_phnum : Z }.
Definition ELFHDR_SIZE : Z := 52.
Definition elfhdr_of (x : list Z) : elfhdr := Elfhdr (ld32 x 0) (ld32 x 24) (ld32 x 28) (ld16 x 44).

Record proghdr := Proghdr { ph_type : Z; ph_off : Z; ph_vaddr : Z; ph_filesz : Z; ph_memsz : Z }.
Definition proghdr_of (x : list Z) : proghdr :=
  Proghdr (ld32 x 0) (ld32 x 4) (ld32 x 8) (ld32 x 16) (ld32 x 20).

Section Exec.
Variable me : nat.
Variable callers : list Z.
Variable kend : Z.
Variable data : Z.
Variable pid : Z.
Context {devsw : DevSw}.

(** [readi] into kernel memory at [dst]. *)
Definition readi_to (ip : nat) (dst off n : Z) : M sysst Z :=
  let! r := fs (readi pid ip off n) in
  km (modify (fun k => set_k_mem (store_bytes (k_mem k) dst (snd r)) k)) ;;;
  m_ret (fst r).

(** One program header: the new size, or [None] for [goto bad]. *)
Definition load_segment (ip : nat) (pgdir : Z) (ph : proghdr) (sz : Z) : M sysst (option Z) :=
  if negb (ph_type ph =? ELF_PROG_LOAD) then m_ret (Some sz) else
  if ph_memsz ph <? ph_filesz ph then m_ret None else
  if u32 (ph_vaddr ph + ph_memsz ph) <? ph_vaddr ph then m_ret None else
  let! sz := km (allocuvm me callers kend pgdir sz (u32 (ph_vaddr ph + ph_memsz ph))) in
  if sz =? 0 then m_ret None else
  if negb (ph_vaddr ph mod PGSIZE =? 0) then m_ret None else
  let! r := loaduvm me callers kmem_lens (readi_to ip) pgdir (ph_vaddr ph) (ph_off ph) (ph_filesz ph) in
  m_ret (if r <? 0 then None else Some sz).

(** [for(i=0, off=elf.phoff; i<elf.phnum; i++, off+=sizeof(ph))] *)
Fixpoint load_segments (ip : nat) (pgdir : Z) (n : nat) (off sz : Z) : M sysst (option Z) :=
  match n with
  | O => m_ret (Some sz)
  | S n =>
      let! r := fs (readi pid ip (u32 off) PROGHDR_SIZE) in
      if negb (fst r =? PROGHDR_SIZE) then m_ret None else
      let! sz := load_segment ip pgdir (proghdr_of (snd r)) sz in
      match sz with
      | None => m_ret None
      | Some sz => load_segments ip pgdir n (s32 (off + PROGHDR_SIZE)) sz
      end
  end.

(** The argument strings pushed below [sp]; [ustack] holds their addresses. *)
Fixpoint push_args (pgdir : Z) (argv : list Z) (sp : Z) (ustack : list Z) : M sysst (option (Z * list Z)) :=
  match argv with
  | [] => m_ret (Some (sp, ustack))
  | a :: argv =>
      if (MAXARG <=? length ustack)%nat then m_ret None else
      let! str := gets (fun s => user_string s a) in
      let sp := Z.land (u32 (sp - (Z.of_nat (length str) + 1))) (u32 (Z.lnot 3)) in
      let! r := km (copyout me callers pgdir sp (str ++ [0])) in
      if r <? 0 then m_ret None else push_args pgdir argv sp (ustack ++ [sp])
  end.

(** The words of [ustack] below the strings. *)
Definition ustack_words (sp : Z) (args : list Z) : list Z :=
  let argc := Z.of_nat (length args) in
  [0xffffffff; argc; u32 (sp - (argc + 1) * 4)] ++ args ++ [0].

(** The program name: what follows the last slash of the path. *)
Fixpoint last_elem (last path : list Z) : list Z :=
  match path with
  | [] => last
  | c :: path => last_elem (if c =? SLASH then path else last) path
  end.

Definition exec_bad (pgdir : Z) (ip : option nat) : M sysst Z :=
  when (negb (pgdir =? 0)) (km (freevm me callers kend pgdir)) ;;;
  match ip with
  | Some ip => fs (iunlockput pid ip) ;;; lg (end_op pid)
  | None => m_ret tt
  end ;;;
  m_ret (-1).

(** [switchuvm(curproc)], as far as the page table goes. *)
Definition switch_pgdir (p : uproc) : M sysst unit :=
  if up_kstack p =? 0 then panic "switchuvm: no kstack" else
  if up_pgdir p =? 0 then panic "switchuvm: no pgdir" else
  modify (fun s => SysSt (sy_ft s) (sy_proc s) (V2P (up_pgdir p))).

(** Committing to the new image. *)
Definition exec_commit (path : list Z) (pgdir sz entry sp : Z) : M sysst Z :=
  let! p := gets sy_proc in
  let p' := UProc sz pgdir (up_kstack p) entry sp (up_eax p) (up_ofile p) (up_cwd p)
              (safestrcpy_buf (up_name p) (last_elem path path) 16) in
  modify (lset proc_lens p') ;;;
  switch_pgdir p' ;;;
  km (freevm me callers kend (up_pgdir p)) ;;;
  m_ret 0.

(** From the user stack on; [sz] is the end of the loaded segments. *)
Definition exec_stack (path argv : list Z) (pgdir sz entry : Z) : M sysst Z :=
  let sz := PGROUNDUP sz in
  let! sz := km (allocuvm me callers kend pgdir sz (u32 (sz + 2 * PGSIZE))) in
  if sz =? 0 then exec_bad pgdir None else
  km (clearpteu me callers pgdir (u32 (sz - 2 * PGSIZE))) ;;;
  let! r := push_args pgdir argv sz [] in
  match r with
  | None => exec_bad pgdir None
  | Some (sp, args) =>
      let words := ustack_words sp args in
      let sp := u32 (sp - Z.of_nat (length words) * 4) in
      let! r := km (copyout me callers pgdir sp (mbind le32 words)) in
      if r <? 0 then exec_bad pgdir None else exec_commit path pgdir sz entry sp
  end.

(** [argv] are the user addresses of the strings. *)
Definition exec (path argv : list Z) : M sysst Z :=
  lg begin_op ;;;
  let! cwd := gets (fun s => up_cwd (sy_proc s)) in
  let! ip := fs (namei pid cwd path) in
  match ip with
  | None => lg (end_op pid) ;;; m_ret (-1)
  | Some ip =>
      fs (ilock pid ip) ;;;
      let! r := fs (readi pid ip 0 ELFHDR_SIZE) in
      if negb (fst r =? ELFHDR_SIZE) then exec_bad 0 (Some ip) else
      let elf := elfhdr_of (snd r) in
      if negb (e_magic elf =? ELF_MAGIC) then exec_bad 0 (Some ip) else
      let! pgdir := km (setupkvm me callers kend data) in
      if pgdir =? 0 then exec_bad 0 (Some ip) else
      let! sz := load_segments ip pgdir (Z.to_nat (e_phnum elf)) (s32 (e_phoff elf)) 0 in
      match sz with
      | None => exec_bad pgdir (Some ip)
      | Some sz =>
          fs (iunlockput pid ip) ;;;
          lg (end_op pid) ;;;
          exec_stack path argv pgdir sz (e_entry elf)
      end
  end.
End Exec.
