(* ===== verification/ExecSpec.v ===== *)
(** * exec is all or nothing *)

From stdpp Require Import base tactics numbers list gmap strings.
From Stdlib Require Import ZArith Lia ZifyNat.
From S2P Require Import Prelude Layout Spinlock CString Kalloc Vm Sleeplock Bio Log Fs Pipe File FsSpec FileSpec FileWrite Syscall Exec.

(** The image of the process: its [struct proc] fields and the page table in use. *)
Definition image (s : sysst) : uproc * Z := (sy_proc s, sy_cr3 s).

Lemma fs_image {A} (m : M fsst A) : keeps image (fs m).
Proof. by apply keeps_zoom. Qed.
Lemma lg_image {A} (m : M logst A) : keeps image (lg m).
Proof. by apply keeps_zoom. Qed.
Lemma km_image {A} (m : M kstate A) : keeps image (km m).
Proof. by apply keeps_zoom. Qed.
#[export] Hint Resolve fs_image lg_image km_image : keeps.

Section Exec.
Variable me : nat.
Variable callers : list Z.
Variable kend : Z.
Variable data : Z.
Variable pid : Z.
Context {devsw : DevSw}.

(** The process [exec] commits to. *)
Definition new_image (p : uproc) (path : list Z) (pgdir sz entry sp : Z) : uproc :=
  UProc sz pgdir (up_kstack p) entry sp (up_eax p) (up_ofile p) (up_cwd p)
    (safestrcpy_buf (up_name p) (last_elem path path) 16).

Definition exec_post (path : list Z) (s : sysst) (r : Z) (s' : sysst) : Prop :=
  (r = -1 /\ image s' = image s) \/
  (r = 0 /\ exists pgdir sz entry sp, pgdir <> 0 /\ sz <> 0 /\
     image s' = (new_image (sy_proc s) path pgdir sz entry sp, V2P pgdir)).

Lemma exec_post_image path s s1 r s' : image s1 = image s -> exec_post path s1 r s' -> exec_post path s r s'.
Proof. unfold exec_post. intros E. rewrite E. by injection E as -> _. Qed.

Lemma loaduvm_image rd pgdir addr offset sz :
  (forall a b c, keeps image (rd a b c)) -> keeps image (loaduvm me callers kmem_lens rd pgdir addr offset sz).
Proof.
  intros Hr. unfold loaduvm. keep. generalize (S (Z.to_nat (sz / PGSIZE + 1))) as fuel. intros fuel.
  generalize 0 as i. induction fuel as [|fuel IH]; intros i; cbn [loaduvm_loop]; keep.
Qed.

Lemma load_segment_image ip pgdir ph sz : keeps image (load_segment me callers kend pid ip pgdir ph sz).
Proof. unfold load_segment. keep. apply loaduvm_image. intros. unfold readi_to. keep. Qed.

Lemma load_segments_image ip pgdir n : forall off sz,
  keeps image (load_segments me callers kend pid ip pgdir n off sz).
Proof. pose proof load_segment_image. induction n as [|n IH]; intros off sz; cbn [load_segments]; keep. Qed.

Lemma push_args_image pgdir argv : forall sp ustack, keeps image (push_args me callers pgdir argv sp ustack).
Proof. induction argv as [|a argv IH]; intros sp ustack; cbn [push_args]; keep. Qed.

Lemma exec_bad_post path pgdir ip s : yields (exec_bad me callers kend pid pgdir ip) s (exec_post path s).
Proof.
  unfold exec_bad. eapply (yields_bind _ _ _ (fun _ s' => image s' = image s)).
  { match goal with |- yields ?m _ _ => assert (K : keeps image m) by keep end. apply K. }
  intros _ s1 E1. eapply (yields_bind _ _ _ (fun _ s' => image s' = image s)).
  { match goal with |- yields ?m _ _ => assert (K : keeps image m) by keep end.
    eapply yields_mono; [apply K|]. cbv beta. congruence. }
  intros _ s2 E2. apply yields_ret. left. done.
Qed.

Lemma exec_commit_post path pgdir sz entry sp s :
  pgdir <> 0 -> sz <> 0 -> yields (exec_commit me callers kend path pgdir sz entry sp) s (exec_post path s).
Proof.
  intros Hp Hz. unfold exec_commit, switch_pgdir. apply yields_gets. cbv zeta. apply yields_modify.
  cbn [up_kstack up_pgdir]. destruct (up_kstack (sy_proc s) =? 0); [by intros ? ? ?|].
  destruct (pgdir =? 0); [by intros ? ? ?|]. apply yields_modify.
  eapply yields_bind; [apply km_image|]. cbv beta. intros _ s' E. apply yields_ret. right. split; [done|].
  exists pgdir, sz, entry, sp. done.
Qed.

Lemma exec_stack_post path argv pgdir sz entry s :
  pgdir <> 0 -> yields (exec_stack me callers kend pid path argv pgdir sz entry) s (exec_post path s).
Proof.
  intros Hp. unfold exec_stack. cbv zeta. eapply yields_bind; [apply km_image|]. cbv beta. intros sz' s1 E1.
  destruct (Z.eqb_spec sz' 0) as [->|Hz].
  { eapply yields_mono; [apply (exec_bad_post path)|]. intros r s'. by apply exec_post_image. }
  eapply yields_bind; [apply km_image|]. cbv beta. intros _ s2 E2.
  eapply yields_bind; [apply push_args_image|]. cbv beta. intros [[sp args]|] s3 E3.
  2: { eapply yields_mono; [apply (exec_bad_post path)|]. intros r s'. apply exec_post_image. congruence. }
  eapply yields_bind; [apply km_image|]. cbv beta. intros r4 s4 E4.
  assert (E : image s4 = image s) by congruence.
  destruct (r4 <? 0); (eapply yields_mono; [|intros r s'; by apply exec_post_image]).
  - apply exec_bad_post.
  - by apply exec_commit_post.
Qed.

End Exec.

(** A process in the empty root directory of the small file system that runs "x". *)
Definition exec_fs : fsst :=
  FsSt (fs_log idle_fs) small_sb (<[0%nat := set_i_lock (SleepLock 0 "inode" 0) small_dir]> idle_icache).
Definition exec_state : sysst :=
  SysSt (FtSt [open_file] exec_fs ∅ one_page)
    (UProc 4096 2147487744 1 0 4 0 [Some 0%nat] 0 [105; 110; 105; 116; 0]) 4096.

