(* ===== verification/Sysproc.v ===== *)
(** * The system calls on processes (sysproc.c)

    Each call takes the view [u] of the memory of the process its arguments are fetched
    from. A call that sleeps is split at the context switch, as in [Proc]; its result is
    then [None]. The values stored through pointer arguments are part of the result. *)

From stdpp Require Import base tactics numbers list strings.
From Stdlib Require Import ZArith Lia ZifyNat.
From S2P Require Import Prelude Layout Spinlock CString PTable Proc Syscall.

Section Sysproc.
Context {E : Type} {HE : KernelEnv E}.
Variable me : nat.
Variable callers : list Z.
Variables trapret forkret_addr tss_addr : Z.
(** [tickslock] of trap.c. *)
Variable tickslock : lens E spinlock.
Variable u : uview.
Abbreviation PS := (pstate E).

Definition sys_fork : M PS Z := fork me callers trapret forkret_addr.

(** [exit] does not return. *)
Definition sys_exit : M PS Z := exit me callers.

Definition sys_wait : M PS (option Z) := wait_enter me callers.

(** The result, and what is stored at [wtime] and at [rtime]. *)
Definition sys_waitx : M PS (option (Z * list (Z * Z))) :=
  match argptr u 1 4, argptr u 0 4 with
  | Some rtime, Some wtime =>
      let! r := waitx_enter me callers in
      m_ret ((fun x => (fst x, match snd x with Some (w, r) => [(wtime, w); (rtime, r)] | None => [] end)) <$> r)
  | _, _ => m_ret (Some (-1, []))
  end.

Definition sys_kill : M PS Z :=
  match argint u 0 with None => m_ret (-1) | Some pid => kill me callers pid end.

Definition sys_chpr : M PS Z :=
  match argint u 0 with None => m_ret (-1) | Some pr => chpr me callers pr end.

Definition sys_getpid : M PS Z := let! c := curproc me in m_ret (p_pid (snd c)).

Definition sys_sbrk : M PS Z :=
  match argint u 0 with
  | None => m_ret (-1)
  | Some n =>
      let! c := curproc me in
      let! r := growproc me tss_addr n in
      m_ret (if r <? 0 then -1 else s32 (p_sz (snd c)))
  end.

(** The loop of [sys_sleep], holding [tickslock]. *)
Definition sleep_round (ticks0 n : Z) : M PS (option Z) :=
  let! ticks := gets ps_ticks in
  if u32 (ticks - ticks0) <? u32 n then
    let! c := curproc me in
    if negb (p_killed (snd c) =? 0) then zoom (otherlock tickslock) (release me) ;;; m_ret (Some (-1))
    else sleep_enter me callers ChTicks (LkOther tickslock) ;;; m_ret None
  else zoom (otherlock tickslock) (release me) ;;; m_ret (Some 0).

(** The first part of [sys_sleep], with [ticks0]. *)
Definition sys_sleep : M PS (Z * option Z) :=
  match argint u 0 with
  | None => m_ret (0, Some (-1))
  | Some n =>
      zoom (otherlock tickslock) (acquire me callers) ;;;
      let! ticks0 := gets ps_ticks in
      let! r := sleep_round ticks0 n in
      m_ret (ticks0, r)
  end.
Definition sys_sleep_resume (i : nat) (ticks0 n intena : Z) : M PS (option Z) :=
  sleep_resume me callers i (LkOther tickslock) intena ;;;
  sleep_round ticks0 n.

Definition sys_uptime : M PS Z :=
  zoom (otherlock tickslock) (acquire me callers) ;;;
  let! xticks := gets ps_ticks in
  zoom (otherlock tickslock) (release me) ;;;
  m_ret (s32 xticks).

(** The words of [struct proc_stat]. *)
Definition stat_words (st : proc_stat) : list Z :=
  [s_pid st; s_runtime st; s_num_run st; s_current_queue st] ++ s_ticks st.

(** The result and the words stored from [s] on. The size checked is that of the pointer. *)
Definition sys_getpinfo : M PS (Z * option (Z * list Z)) :=
  match argptr u 0 4 with
  | None => m_ret (-1, None)
  | Some s =>
      let! r := getpinfo me in
      m_ret (fst r, (fun st => (s, stat_words st)) <$> snd r)
  end.
End Sysproc.

(** [sys_getpinfo] checks four bytes and stores nine words: with a pointer to the last word
    of its memory a process makes the kernel write 32 bytes beyond it. *)
Lemma getpinfo_overruns {E} {HE : KernelEnv E} me u (s : pstate E) i q :
  0 <= u_sz u <= KERNBASE -> argint u 0 = Some (u_sz u - 4) -> 4 <= u_sz u ->
  myproc me s = Done (Some i) s -> pt_proc (ps_table s) !! i = Some q -> length (p_ticks q) = 5%nat ->
  exists words, sys_getpinfo me u s = Done (1, Some (u_sz u - 4, words)) s /\
    (u_sz u - 4) + 4 * Z.of_nat (length words) = u_sz u + 32.
Proof.
  change KERNBASE with 2147483648. intros Hsz Ha H4 Hm Hq Hl. unfold sys_getpinfo, argptr. rewrite Ha. cbv zeta.
  rewrite (u32_small (u_sz u - 4)) by lia. rewrite (proj2 (Z.leb_gt _ _)) by lia.
  rewrite u32_small, (proj2 (Z.ltb_ge (u_sz u) (u_sz u - 4 + 4))) by lia. change ((4 <? 0) || false || false) with false. cbv iota.
  assert (Hg : getpinfo me s = Done (1, Some (ProcStat (p_pid q) (p_rtime q) (p_num_run q) (p_queue q)
    (take 5 (p_ticks q)))) s).
  { unfold getpinfo. unfold m_bind at 1. rewrite Hm. unfold getp, gets, m_bind. by rewrite Hq. }
  unfold m_bind. cbv beta. rewrite Hg. eexists. split; [reflexivity|].
  unfold stat_words. cbn [s_ticks]. rewrite length_app, length_take, Hl. simpl. lia.
Qed.
