(* ===== verification/Trap.v ===== *)
(** * Traps (trap.c, traps.h)

    The interrupt descriptor table, and [trap] for a trap frame [tf]. The device
    interrupts are an interface. [exit] and [yield] switch to the scheduler, so [trap]
    either comes back, or has exited, or has yielded, and [trap_resume] is what it does
    after a yield. Messages on the console are left out. *)

From stdpp Require Import base tactics numbers list strings.
From Stdlib Require Import ZArith Lia ZifyNat.
From S2P Require Import Prelude Layout Spinlock CString PTable Proc ProcSpec.

Definition T_SYSCALL : Z := 64.

(** ** The descriptor table *)

Definition tvinit (vectors : list Z) : list gatedesc :=
  let idt := (fun v => SETGATE false (Z.shiftl SEG_KCODE 3) v 0) <$> vectors in
  <[Z.to_nat T_SYSCALL := SETGATE true (Z.shiftl SEG_KCODE 3) (default 0 (vectors !! Z.to_nat T_SYSCALL)) DPL_USER]> idt.

(** ** trap *)

(** The interrupt routines of ide.c, kbd.c, uart.c and lapic.c. *)
Class Devices (E : Type) := {
  ideintr : M E unit;
  kbdintr : M E unit;
  uartintr : M E unit;
  lapiceoi : M E unit }.

Inductive trapped :=
  | Back
  | Exited
  | Yielded (intena : Z).

Section Trap.
Context {E : Type} {HE : KernelEnv E} {HD : Devices E}.
Variable me : nat.
Variable callers : list Z.
Variable tickslock : lens E spinlock.
(** [syscall()] of syscall.c. *)
Abbreviation PS := (pstate E).
Variable syscall : M PS unit.

(** [myproc()->f = ...] *)
Definition on_proc (f : proc -> proc) : M PS unit :=
  let! c := curproc me in setp (fst c) f.

(** [myproc() && myproc()->killed && (tf->cs & 3) == DPL_USER] *)
Definition must_die (tf : trapframe) : M PS bool :=
  let! p := myproc me in
  match p with
  | None => m_ret false
  | Some i =>
      let! q := getp i in
      m_ret (match q with Some q => negb (p_killed q =? 0) && (Z.land (tf_cs tf) 3 =? DPL_USER) | None => false end)
  end.

Definition trap_syscall (tf_addr : Z) : M PS trapped :=
  let! c := curproc me in
  if negb (p_killed (snd c) =? 0) then exit me callers ;;; m_ret Exited else
  setp (fst c) (set_p_tf tf_addr) ;;;
  syscall ;;;
  let! c := curproc me in
  if negb (p_killed (snd c) =? 0) then exit me callers ;;; m_ret Exited else
  m_ret Back.

(** The accounting of a clock tick for the current process. *)
Definition charge (ticks : Z) (p : proc) : proc :=
  let p := set_p_rtime (s32 (p_rtime p + 1)) p in
  let p := set_p_modtime (s32 (p_modtime p + 1)) p in
  let p := set_p_last_executed (s32 ticks) p in
  set_p_ticks (alter (fun x => s32 (x + 1)) (Z.to_nat (p_queue p)) (p_ticks p)) p.

Definition timer : M PS unit :=
  when (me =? 0)%nat
    (zoom (otherlock tickslock) (acquire me callers) ;;;
     modify (fun s => set_ps_ticks (u32 (ps_ticks s + 1)) s) ;;;
     wakeup me callers ChTicks ;;;
     zoom (otherlock tickslock) (release me)) ;;;
  let! p := myproc me in
  match p with
  | None => m_ret tt
  | Some i => let! ticks := gets ps_ticks in setp i (charge ticks)
  end ;;;
  env lapiceoi.

(** The [switch] on [tf->trapno]. *)
Definition interrupt (tf : trapframe) : M PS unit :=
  let n := tf_trapno tf in
  if n =? T_IRQ0 + IRQ_TIMER then timer
  else if n =? T_IRQ0 + IRQ_IDE then env ideintr ;;; env lapiceoi
  else if n =? T_IRQ0 + IRQ_IDE + 1 then m_ret tt
  else if n =? T_IRQ0 + IRQ_KBD then env kbdintr ;;; env lapiceoi
  else if n =? T_IRQ0 + IRQ_COM1 then env uartintr ;;; env lapiceoi
  else if (n =? T_IRQ0 + 7) || (n =? T_IRQ0 + IRQ_SPURIOUS) then env lapiceoi
  else
    let! p := myproc me in
    match p with
    | None => panic "trap"
    | Some _ =>
        if Z.land (tf_cs tf) 3 =? 0 then panic "trap" else on_proc (set_p_killed 1)
    end.

(** After the yield, or when there was none. *)
Definition trap_last (tf : trapframe) : M PS trapped :=
  let! die := must_die tf in
  if die then exit me callers ;;; m_ret Exited else m_ret Back.
Definition trap_resume (tf : trapframe) (intena : Z) : M PS trapped :=
  yield_resume me intena ;;;
  trap_last tf.

(** [myproc() && myproc()->state == RUNNING && tf->trapno == T_IRQ0+IRQ_TIMER] *)
Definition must_yield (tf : trapframe) : M PS bool :=
  let! p := myproc me in
  match p with
  | None => m_ret false
  | Some i =>
      let! q := getp i in
      m_ret (match q with Some q => bool_decide (p_state q = RUNNING) && (tf_trapno tf =? T_IRQ0 + IRQ_TIMER) | None => false end)
  end.

Definition trap (tf_addr : Z) (tf : trapframe) : M PS trapped :=
  if tf_trapno tf =? T_SYSCALL then trap_syscall tf_addr else
  interrupt tf ;;;
  let! die := must_die tf in
  if die then exit me callers ;;; m_ret Exited else
  let! y := must_yield tf in
  if y then let! intena := yield_enter me callers in m_ret (Yielded intena)
  else trap_last tf.
End Trap.

(** ** A killed process does not go back to user mode *)

Section Killed.
Context {E : Type} {HE : KernelEnv E} {HD : Devices E}.
Variable me : nat.
Variable callers : list Z.
Variable tickslock : lens E spinlock.
Variable syscall : M (pstate E) unit.

Lemma pushcli_keeps : keeps cpu_proc (pushcli me).
Proof. unfold pushcli. keep. Qed.
Lemma popcli_keeps : keeps cpu_proc (popcli me).
Proof. unfold popcli. keep. Qed.
Lemma mycpu_keeps : keeps cpu_proc (mycpu me).
Proof. unfold mycpu. keep. Qed.

(** [oncpu] of an operation that keeps the process. *)
Lemma oncpu_yields {A} (m : M cpu A) (s : pstate E) :
  keeps cpu_proc m -> yields (oncpu m) s (fun _ s' =>
    cpu_proc (ps_cpu s') = cpu_proc (ps_cpu s) /\ ps_table s' = ps_table s).
Proof. intros K. apply yields_zoom. intros a c Ec. split; [exact (K _ _ _ Ec)|done]. Qed.

Lemma myproc_yields (s : pstate E) :
  yields (myproc me) s (fun p s' => p = cpu_proc (ps_cpu s') /\ ps_table s' = ps_table s).
Proof.
  unfold myproc. eapply yields_bind; [apply oncpu_yields, pushcli_keeps|]. cbv beta. intros _ s1 [P1 T1].
  eapply yields_bind; [apply oncpu_yields, mycpu_keeps|]. cbv beta. intros _ s2 [P2 T2]. apply yields_gets.
  eapply yields_bind; [apply oncpu_yields, popcli_keeps|]. cbv beta. intros _ s3 [P3 T3]. apply yields_ret.
  split; congruence.
Qed.

(** The current process and its entry. *)
Definition current (s : pstate E) (q : proc) : Prop :=
  exists i, cpu_proc (ps_cpu s) = Some i /\ pt_proc (ps_table s) !! i = Some q.

Lemma curproc_yields (s : pstate E) : yields (curproc me) s (fun c s' => forall q, current s' q -> q = snd c).
Proof.
  unfold curproc. eapply yields_bind; [apply myproc_yields|]. cbv beta. intros [i|] s1 [P T]; [|apply yields_panic].
  unfold getp. apply yields_gets. destruct (pt_proc (ps_table s1) !! i) as [q|] eqn:Eq; [|apply yields_panic].
  apply yields_ret. intros q' (j & Hj & Hq'). simpl. congruence.
Qed.

Lemma must_die_yields tf (s : pstate E) :
  yields (must_die me tf) s (fun die s' => die = false -> Z.land (tf_cs tf) 3 = DPL_USER ->
    forall q, current s' q -> p_killed q = 0).
Proof.
  unfold must_die. eapply yields_bind; [apply myproc_yields|]. cbv beta. intros [i|] s1 [P T].
  - unfold getp. apply yields_gets. apply yields_ret. intros Hd Hcs q (j & Hj & Hq).
    replace j with i in Hq by congruence. rewrite Hq, Hcs, Z.eqb_refl, andb_true_r in Hd.
    by apply negb_false_iff, Z.eqb_eq in Hd.
  - apply yields_ret. intros _ _ q (j & Hj & _). congruence.
Qed.

Lemma trap_last_yields tf (s : pstate E) :
  yields (trap_last me callers tf) s (fun r s' => r = Back -> Z.land (tf_cs tf) 3 = DPL_USER ->
    forall q, current s' q -> p_killed q = 0).
Proof.
  unfold trap_last. eapply yields_bind; [apply must_die_yields|]. cbv beta. intros [] s1 H.
  - eapply yields_bind; [apply yields_any|]. intros _ s2 _. by apply yields_ret.
  - apply yields_ret. intros _. by apply H.
Qed.

(** C11. When [trap] returns to user mode, from a system call or from an interrupt of user
    code, also after having yielded the processor, the current process is not marked
    killed: a killed process exits instead. *)
Theorem killed_never_returns tf_addr tf (s : pstate E) intena s' :
  tf_trapno tf = T_SYSCALL \/ Z.land (tf_cs tf) 3 = DPL_USER ->
  trap me callers tickslock syscall tf_addr tf s = Done Back s' \/
  (tf_trapno tf <> T_SYSCALL /\ trap_resume me callers tf intena s = Done Back s') ->
  forall q, current s' q -> p_killed q = 0.
Proof.
  intros Hcs [H|[Hn H]].
  - cut (yields (trap me callers tickslock syscall tf_addr tf) s (fun r s' => r = Back ->
      forall q, current s' q -> p_killed q = 0)).
    { intros Y. by apply (Y _ _ H). }
    unfold trap. destruct (Z.eqb_spec (tf_trapno tf) T_SYSCALL) as [Hs|Hs].
    + unfold trap_syscall. eapply yields_bind; [apply yields_any|]. intros c s1 _. destruct (negb _).
      { eapply yields_bind; [apply yields_any|]. intros _ s2 _. by apply yields_ret. }
      eapply yields_bind; [apply yields_any|]. intros _ s2 _. eapply yields_bind; [apply yields_any|]. intros _ s3 _.
      eapply yields_bind; [apply curproc_yields|]. cbv beta. intros c2 s4 Hc.
      destruct (Z.eqb_spec (p_killed (snd c2)) 0); simpl negb; cbv iota.
      * apply yields_ret. intros _ q Hq. by rewrite (Hc q Hq).
      * eapply yields_bind; [apply yields_any|]. intros _ s5 _. by apply yields_ret.
    + destruct Hcs as [?|Hcs]; [done|]. eapply yields_bind; [apply yields_any|]. intros _ s1 _.
      eapply yields_bind; [apply yields_any|]. intros [] s2 _.
      { eapply yields_bind; [apply yields_any|]. intros _ s3 _. by apply yields_ret. }
      eapply yields_bind; [apply yields_any|]. intros [] s3 _.
      { eapply yields_bind; [apply yields_any|]. intros k s4 _. by apply yields_ret. }
      eapply yields_mono; [apply trap_last_yields|]. cbv beta. auto.
  - destruct Hcs as [?|Hcs]; [done|]. unfold trap_resume in H. apply bind_Done_inv in H as (x & s1 & _ & H).
    by apply (trap_last_yields tf s1 _ _ H).
Qed.
End Killed.

Definition no_interrupts : Devices Z := Build_Devices Z (m_ret tt) (m_ret tt) (m_ret tt) (m_ret tt).
Definition call_frame : trapframe := Trapframe 0 0 0 0 0 0 0 11 0 0 0 0 T_SYSCALL 0 0 27 0 0 35.

Lemma killed_never_returns_witness :
  exists s', trap (HE := sample_kernel) (HD := no_interrupts) 0 [] (Lens (fun _ => Spinlock 0 "time" None []) (fun _ s => s))
      (m_ret tt) 100 call_frame sample_state = Done Back s' /\
    exists q, current s' q /\ p_killed q = 0.
Proof.
  destruct (trap (HE := sample_kernel) (HD := no_interrupts) 0 [] (Lens (fun _ => Spinlock 0 "time" None []) (fun _ s => s))
    (m_ret tt) 100 call_frame sample_state) as [r s'| |] eqn:E; [|by vm_compute in E..].
  assert (Er : r = Back /\ cpu_proc (ps_cpu s') = Some 1%nat /\ is_Some (pt_proc (ps_table s') !! 1%nat)).
  { vm_compute in E. injection E as <- <-. vm_compute. eauto. }
  destruct Er as (-> & Hp & [q Hq]). exists s'. split; [done|]. exists q.
  assert (Hc : current s' q) by by exists 1%nat. split; [done|].
  exact (killed_never_returns (HE := sample_kernel) (HD := no_interrupts) 0 []
    (Lens (fun _ => Spinlock 0 "time" None []) (fun _ s => s)) (m_ret tt) 100 call_frame sample_state 0 s'
    (or_introl eq_refl) (or_introl E) q Hc).
Defined.
