(* ===== verification/Sysfile.v ===== *)
(** * The system calls on files (sysfile.c)

    Each [sys_*] fetches its arguments with the functions of [Syscall] from the memory of
    the process and calls into [File], [Fs] and [Exec]. A [struct file*] is an index of the
    file table; [None] in [up_ofile] is a null pointer. *)

From stdpp Require Import base tactics numbers list gmap strings.
From Stdlib Require Import ZArith Lia ZifyNat.
From S2P Require Import Prelude Layout Spinlock CString Kalloc Vm Sleeplock Bio Log Fs Pipe File Syscall Exec.

(** ** Descriptors *)

(** The descriptor and the file. *)
Definition argfd (n : Z) : M sysst (option (nat * nat)) :=
  gets (fun s =>
    match argint (uview_of s) n with
    | None => None
    | Some fd =>
        if (fd <? 0) || (Z.of_nat NOFILE <=? fd) then None
        else pair (Z.to_nat fd) <$> mjoin (up_ofile (sy_proc s) !! Z.to_nat fd)
    end).

(** The loop of [fdalloc] over a table of descriptors. *)
Definition first_free {A} (ofile : list (option A)) : option nat :=
  find_idx (fun f => match f with None => true | Some _ => false end) 0 ofile.

Definition fdalloc (f : nat) : M sysst (option nat) :=
  let! s := get in
  let p := sy_proc s in
  match first_free (up_ofile p) with
  | Some fd =>
      modify (lset proc_lens (set_up_ofile (<[fd := Some f]> (up_ofile p)) p)) ;;;
      m_ret (Some fd)
  | None => m_ret None
  end.

(** [myproc()->ofile[fd] = 0] *)
Definition clear_fd (fd : nat) : M sysst unit :=
  modify (fun s => lset proc_lens (set_up_ofile (<[fd := None]> (up_ofile (sy_proc s))) (sy_proc s)) s).

Definition u_argint (n : Z) : M sysst (option Z) := gets (fun s => argint (uview_of s) n).
Definition u_argptr (n size : Z) : M sysst (option Z) := gets (fun s => argptr (uview_of s) n size).
(** The bytes of the string. *)
Definition u_argstr (n : Z) : M sysst (option (list Z)) :=
  gets (fun s => let u := uview_of s in str_bytes u <$> argstr u n).

Notation "'let?' x ':=' m 'in' k" :=
  (m_bind m (fun o => match o with None => m_ret (-1) | Some x => k end))
  (at level 10, x pattern, m at level 100, k at level 200).

(** ** Directories and inodes *)

Definition add_nlink (d : Z) (i : inode) : inode :=
  Inode (i_dev i) (i_inum i) (i_ref i) (i_lock i) (i_valid i) (i_type i) (i_major i) (i_minor i)
    (s16 (i_nlink i + d)) (i_size i) (i_addrs i).
Definition init_inode (major minor : Z) (i : inode) : inode :=
  Inode (i_dev i) (i_inum i) (i_ref i) (i_lock i) (i_valid i) (i_type i) (s16 major) (s16 minor)
    1 (i_size i) (i_addrs i).

Definition name_dot : list Z := [46].
Definition name_dotdot : list Z := [46; 46].

Section Inodes.
Variable pid : Z.
Variable cwd : nat.
Context {devsw : DevSw}.

(** [for(off=2*sizeof(de); off<dp->size; off+=sizeof(de))] *)
Fixpoint isdirempty_loop (dp : nat) (offs : list Z) : M fsst bool :=
  match offs with
  | [] => m_ret true
  | off :: offs =>
      let! r := readi pid dp off DIRENT_SIZE in
      if negb (fst r =? DIRENT_SIZE) then panic "isdirempty: readi" else
      if negb (de_inum (snd r) =? 0) then m_ret false else isdirempty_loop dp offs
  end.
Definition isdirempty (dp : nat) : M fsst bool :=
  let! i := gets (fun s => geti s dp) in
  isdirempty_loop dp (drop 2 (de_offs (i_size i))).

(** The new inode of [create] once it is allocated. *)
Definition create_new (dp ip : nat) (name : list Z) (type major minor : Z) : M fsst unit :=
  ilock pid ip ;;;
  modify (updi ip (init_inode major minor)) ;;;
  iupdate pid ip ;;;
  when (type =? T_DIR)
    (modify (updi dp (add_nlink 1)) ;;;
     iupdate pid dp ;;;
     let! inum := gets (fun s => i_inum (geti s ip)) in
     let! r := dirlink pid ip name_dot inum in
     if r <? 0 then panic "create dots" else
     let! dinum := gets (fun s => i_inum (geti s dp)) in
     let! r := dirlink pid ip name_dotdot dinum in
     if r <? 0 then panic "create dots" else m_ret tt) ;;;
  let! inum := gets (fun s => i_inum (geti s ip)) in
  let! r := dirlink pid dp name inum in
  if r <? 0 then panic "create: dirlink" else
  iunlockput pid dp.

(** The inode returned is locked. *)
Definition create (path : list Z) (type major minor : Z) : M fsst (option nat) :=
  let! r := nameiparent pid cwd path in
  match r with
  | None => m_ret None
  | Some (dp, name) =>
      ilock pid dp ;;;
      let! r := dirlookup pid dp name in
      match r with
      | Some (ip, _) =>
          iunlockput pid dp ;;;
          ilock pid ip ;;;
          let! i := gets (fun s => geti s ip) in
          if (type =? T_FILE) && (i_type i =? T_FILE) then m_ret (Some ip)
          else iunlockput pid ip ;;; m_ret None
      | None =>
          let! dev := gets (fun s => i_dev (geti s dp)) in
          let! ip := ialloc pid dev type in
          create_new dp ip name type major minor ;;;
          m_ret (Some ip)
      end
  end.

(** The exit [bad] of [sys_link]. *)
Definition link_bad (ip : nat) : M fsst Z :=
  ilock pid ip ;;;
  modify (updi ip (add_nlink (-1))) ;;;
  iupdate pid ip ;;;
  iunlockput pid ip ;;;
  m_ret (-1).

(** [sys_link] between [begin_op] and [end_op]. *)
Definition link (old new : list Z) : M fsst Z :=
  let! ip := namei pid cwd old in
  match ip with
  | None => m_ret (-1)
  | Some ip =>
      ilock pid ip ;;;
      let! i := gets (fun s => geti s ip) in
      if i_type i =? T_DIR then iunlockput pid ip ;;; m_ret (-1) else
      modify (updi ip (add_nlink 1)) ;;;
      iupdate pid ip ;;;
      iunlock pid ip ;;;
      let! r := nameiparent pid cwd new in
      match r with
      | None => link_bad ip
      | Some (dp, name) =>
          ilock pid dp ;;;
          let! d := gets (fun s => geti s dp) in
          let! i := gets (fun s => geti s ip) in
          let! r := (if negb (i_dev d =? i_dev i) then m_ret (-1) else dirlink pid dp name (i_inum i)) in
          if r <? 0 then iunlockput pid dp ;;; link_bad ip
          else iunlockput pid dp ;;; iput pid ip ;;; m_ret 0
      end
  end.

(** Removing the entry at [off] of [dp] for the locked inode [ip]. *)
Definition unlink_entry (dp ip : nat) (off : Z) : M fsst Z :=
  let! w := writei pid dp (replicate (Z.to_nat DIRENT_SIZE) 0) off in
  if negb (w =? DIRENT_SIZE) then panic "unlink: writei" else
  let! i := gets (fun s => geti s ip) in
  when (i_type i =? T_DIR)
    (modify (updi dp (add_nlink (-1))) ;;; iupdate pid dp) ;;;
  iunlockput pid dp ;;;
  modify (updi ip (add_nlink (-1))) ;;;
  iupdate pid ip ;;;
  iunlockput pid ip ;;;
  m_ret 0.

(** [sys_unlink] between [begin_op] and [end_op]. *)
Definition unlink (path : list Z) : M fsst Z :=
  let! r := nameiparent pid cwd path in
  match r with
  | None => m_ret (-1)
  | Some (dp, name) =>
      ilock pid dp ;;;
      if (namecmp name name_dot =? 0) || (namecmp name name_dotdot =? 0)
      then iunlockput pid dp ;;; m_ret (-1) else
      let! r := dirlookup pid dp name in
      match r with
      | None => iunlockput pid dp ;;; m_ret (-1)
      | Some (ip, off) =>
          ilock pid ip ;;;
          let! i := gets (fun s => geti s ip) in
          if i_nlink i <? 1 then panic "unlink: nlink < 1" else
          let! empty := (if i_type i =? T_DIR then isdirempty ip else m_ret true) in
          if negb empty then iunlockput pid ip ;;; iunlockput pid dp ;;; m_ret (-1)
          else unlink_entry dp ip off
      end
  end.
End Inodes.

Section Sysfile.
Variable me : nat.
Variable callers : list Z.
Variable kend : Z.
Variable data : Z.
Variable pid : Z.
Variable killed : bool.
Context {devsw : DevSw}.

Definition sys_dup : M sysst Z :=
  let? (_, f) := argfd 0 in
  let? fd := fdalloc f in
  ft (filedup f) ;;;
  m_ret (Z.of_nat fd).

Definition sys_read : M sysst Z :=
  let? (_, f) := argfd 0 in
  let? n := u_argint 2 in
  let? p := u_argptr 1 n in
  let! r := ft (fileread pid killed f n) in
  put_user p (snd r) ;;;
  m_ret (fst r).

Definition sys_write : M sysst Z :=
  let? (_, f) := argfd 0 in
  let? n := u_argint 2 in
  let? p := u_argptr 1 n in
  let! src := gets (fun s => str_bytes (uview_of s) (p, n)) in
  ft (filewrite pid killed f src).

Definition sys_close : M sysst Z :=
  let? (fd, f) := argfd 0 in
  clear_fd fd ;;;
  ft (fileclose me callers kend pid f) ;;;
  m_ret 0.

(** [struct stat] in memory: type, dev, ino, nlink and size, with two bytes of padding
    before dev and before size that the code leaves as they are. *)
Definition put_stat (p : Z) (st : stat) : M sysst unit :=
  put_user p [u8 (st_type st); u8 (st_type st / 256)] ;;;
  put_user (p + 4) (le32 (st_dev st)) ;;;
  put_user (p + 8) (le32 (st_ino st)) ;;;
  put_user (p + 12) [u8 (st_nlink st); u8 (st_nlink st / 256)] ;;;
  put_user (p + 16) (le32 (st_size st)).

Definition sys_fstat : M sysst Z :=
  let? (_, f) := argfd 0 in
  let? p := u_argptr 1 20 in
  let? st := ft (filestat pid f) in
  put_stat p st ;;;
  m_ret 0.

(** An operation on inodes inside a transaction, from the current directory. *)
Definition in_op {A} (m : nat -> M fsst A) : M sysst A :=
  lg begin_op ;;;
  let! cwd := gets (fun s => up_cwd (sy_proc s)) in
  let! r := fs (m cwd) in
  lg (end_op pid) ;;;
  m_ret r.

Definition sys_link : M sysst Z :=
  let? old := u_argstr 0 in
  let? new := u_argstr 1 in
  in_op (fun cwd => link pid cwd old new).

Definition sys_unlink : M sysst Z :=
  let? path := u_argstr 0 in
  in_op (fun cwd => unlink pid cwd path).

(** The inode [sys_open] opens, locked. *)
Definition open_inode (cwd : nat) (path : list Z) (omode : Z) : M fsst (option nat) :=
  if negb (Z.land omode O_CREATE =? 0) then create pid cwd path T_FILE 0 0 else
  let! ip := namei pid cwd path in
  match ip with
  | None => m_ret None
  | Some ip =>
      ilock pid ip ;;;
      let! i := gets (fun s => geti s ip) in
      if (i_type i =? T_DIR) && negb (omode =? O_RDONLY) then iunlockput pid ip ;;; m_ret None
      else m_ret (Some ip)
  end.

(** The file [sys_open] leaves in the table. *)
Definition opened (ip : nat) (omode : Z) (x : file) : file :=
  File FD_INODE (f_ref x) (Z.land omode O_WRONLY =? 0)
    (negb (Z.land omode O_WRONLY =? 0) || negb (Z.land omode O_RDWR =? 0)) (f_pipe x) ip 0.

(** [filealloc] and [fdalloc]; a file without a descriptor is closed again. *)
Definition alloc_fd : M sysst (option (nat * nat)) :=
  let! f := ft filealloc in
  match f with
  | None => m_ret None
  | Some f =>
      let! fd := fdalloc f in
      match fd with
      | None => ft (fileclose me callers kend pid f) ;;; m_ret None
      | Some fd => m_ret (Some (f, fd))
      end
  end.

Definition sys_open : M sysst Z :=
  let? path := u_argstr 0 in
  let? omode := u_argint 1 in
  lg begin_op ;;;
  let! cwd := gets (fun s => up_cwd (sy_proc s)) in
  let! ip := fs (open_inode cwd path omode) in
  match ip with
  | None => lg (end_op pid) ;;; m_ret (-1)
  | Some ip =>
      let! r := alloc_fd in
      match r with
      | None => fs (iunlockput pid ip) ;;; lg (end_op pid) ;;; m_ret (-1)
      | Some (f, fd) =>
          fs (iunlock pid ip) ;;;
          lg (end_op pid) ;;;
          ft (modify (updf f (opened ip omode))) ;;;
          m_ret (Z.of_nat fd)
      end
  end.

(** [create] and [iunlockput] between [begin_op] and [end_op], for arguments fetched inside. *)
Definition make_node (arg : M sysst (option (list Z * Z * Z))) (type : Z) : M sysst Z :=
  lg begin_op ;;;
  let! a := arg in
  let! cwd := gets (fun s => up_cwd (sy_proc s)) in
  let! ip := match a with
             | None => m_ret None
             | Some (path, major, minor) => fs (create pid cwd path type major minor)
             end in
  match ip with
  | None => lg (end_op pid) ;;; m_ret (-1)
  | Some ip => fs (iunlockput pid ip) ;;; lg (end_op pid) ;;; m_ret 0
  end.

Definition sys_mkdir : M sysst Z :=
  make_node (let! p := u_argstr 0 in m_ret ((fun p => (p, 0, 0)) <$> p)) T_DIR.

Definition sys_mknod : M sysst Z :=
  make_node (let! p := u_argstr 0 in
             let! major := u_argint 1 in
             let! minor := u_argint 2 in
             m_ret (match p, major, minor with
                    | Some p, Some major, Some minor => Some (p, major, minor)
                    | _, _, _ => None
                    end)) T_DEV.

Definition sys_chdir : M sysst Z :=
  lg begin_op ;;;
  let! path := u_argstr 0 in
  let! cwd := gets (fun s => up_cwd (sy_proc s)) in
  let! ip := match path with None => m_ret None | Some path => fs (namei pid cwd path) end in
  match ip with
  | None => lg (end_op pid) ;;; m_ret (-1)
  | Some ip =>
      fs (ilock pid ip) ;;;
      let! type := fs (gets (fun s => i_type (geti s ip))) in
      if negb (type =? T_DIR) then fs (iunlockput pid ip) ;;; lg (end_op pid) ;;; m_ret (-1) else
      fs (iunlock pid ip) ;;;
      fs (iput pid cwd) ;;;
      lg (end_op pid) ;;;
      modify (fun s => lset proc_lens (set_up_cwd ip (sy_proc s)) s) ;;;
      m_ret 0
  end.

(** The loop of [sys_exec] from argument [i] on; [n] is [NELEM(argv) - i]. *)
Fixpoint exec_args (u : uview) (uargv : Z) (n : nat) (i : Z) : option (list Z) :=
  match n with
  | O => None
  | S n =>
      match fetchint u (u32 (uargv + 4 * i)) with
      | None => None
      | Some uarg =>
          if uarg =? 0 then Some [] else
          match fetchstr u (u32 uarg), exec_args u uargv n (i + 1) with
          | Some (p, _), Some argv => Some (p :: argv)
          | _, _ => None
          end
      end
  end.

Definition sys_exec : M sysst Z :=
  let? path := u_argstr 0 in
  let? uargv := u_argint 1 in
  let? argv := gets (fun s => exec_args (uview_of s) (u32 uargv) MAXARG 0) in
  exec me callers kend data pid path argv.

Definition sys_pipe : M sysst Z :=
  let? p := u_argptr 0 8 in
  let? (rf, wf) := ft (pipealloc me callers kend pid) in
  let! fd0 := fdalloc rf in
  let! fd1 := match fd0 with None => m_ret None | Some _ => fdalloc wf end in
  match fd0, fd1 with
  | Some fd0, Some fd1 =>
      put_user p (le32 (Z.of_nat fd0)) ;;;
      put_user (p + 4) (le32 (Z.of_nat fd1)) ;;;
      m_ret 0
  | _, _ =>
      match fd0 with Some fd0 => clear_fd fd0 | None => m_ret tt end ;;;
      ft (fileclose me callers kend pid rf) ;;;
      ft (fileclose me callers kend pid wf) ;;;
      m_ret (-1)
  end.
End Sysfile.
