(* ===== verification/SysfileSpec.v ===== *)
(** * Descriptors own references

    The reference count of an open file is the number of descriptors that refer to it,
    those of the calling process and those of the others. Every system call on files
    keeps it so. *)

From stdpp Require Import base tactics numbers list gmap strings.
From Stdlib Require Import ZArith Lia ZifyNat.
From S2P Require Import Prelude Layout Spinlock CString Kalloc Vm Sleeplock Bio Log Fs Pipe File FsSpec Syscall Exec Sysfile.

(** ** Counts *)

Definition refs (s : ftst) : list Z := f_ref <$> ft_file s.

Lemma refs_updf s f g (h : Z -> Z) :
  (forall x, f_ref (g x) = h (f_ref x)) -> refs (updf f g s) = alter h f (refs s).
Proof.
  intros H. unfold refs, updf. simpl. apply list_eq. intros i. rewrite list_lookup_fmap.
  destruct (decide (f = i)) as [->|Hne].
  - rewrite !list_lookup_alter_eq, list_lookup_fmap. destruct (ft_file s !! i); simpl; [by rewrite H|done].
  - by rewrite !list_lookup_alter_ne, list_lookup_fmap by done.
Qed.

Lemma refs_updf_keep s f g : (forall x, f_ref (g x) = f_ref x) -> refs (updf f g s) = refs s.
Proof.
  intros H. rewrite (refs_updf _ _ _ id) by done. apply list_eq. intros i.
  destruct (decide (f = i)) as [->|]; [|by rewrite list_lookup_alter_ne].
  rewrite list_lookup_alter_eq. by destruct (refs s !! i).
Qed.

Lemma refs_getf s f r : refs s !! f = Some r -> f_ref (getf s f) = r.
Proof. unfold refs, getf. rewrite list_lookup_fmap. destruct (ft_file s !! f); [|done]. by intros [= <-]. Qed.

Lemma getf_refs s f : 0 < f_ref (getf s f) -> refs s !! f = Some (f_ref (getf s f)).
Proof. unfold refs, getf. rewrite list_lookup_fmap. by destruct (ft_file s !! f). Qed.

(** The descriptors among [l] that refer to [f]. *)
Fixpoint count (f : nat) (l : list (option nat)) : Z :=
  match l with
  | [] => 0
  | o :: l => (if decide (o = Some f) then 1 else 0) + count f l
  end.

Lemma count_insert f l i o o' :
  l !! i = Some o ->
  count f (<[i := o']> l) = count f l - (if decide (o = Some f) then 1 else 0) + (if decide (o' = Some f) then 1 else 0).
Proof.
  revert i. induction l as [|x l IH]; intros [|i] H; simplify_eq/=; [lia|]. rewrite (IH i H). lia.
Qed.

Lemma count_nonneg f l : 0 <= count f l.
Proof. induction l; simpl; [lia|]. case_decide; lia. Qed.

Lemma count_pos f l i : l !! i = Some (Some f) -> 1 <= count f l.
Proof.
  revert i. induction l as [|x l IH]; intros [|i] H; simplify_eq/=.
  - rewrite decide_True by done. pose proof (count_nonneg f l). lia.
  - specialize (IH i H). case_decide; lia.
Qed.

(** ** The operations on the file table *)

Lemma zoom_fs_keeps {A} (m : M fsst A) : keeps refs (zoom fs_lens m).
Proof. by apply keeps_zoom. Qed.

Lemma zoom_mem_keeps {A} (m : M kstate A) : keeps refs (zoom mem_lens m).
Proof. by apply keeps_zoom. Qed.

Lemma set_pipes_keeps p : keeps refs (modify (set_pipes p)).
Proof. by apply keeps_modify. Qed.

#[export] Hint Resolve zoom_fs_keeps zoom_mem_keeps set_pipes_keeps : keeps.

Section Files.
Variable me : nat.
Variable callers : list Z.
Variable kend : Z.
Variable pid : Z.
Variable killed : bool.
Context {devsw : DevSw}.

Lemma filealloc_refs s :
  yields filealloc s (fun o s' => match o with
    | Some f => refs s !! f = Some 0 /\ refs s' = <[f := 1]> (refs s)
    | None => refs s' = refs s end).
Proof.
  unfold filealloc. apply yields_get. destruct (find_idx _ 0 (ft_file s)) as [f|] eqn:E; [|by apply yields_ret].
  destruct (find_idx_Some _ _ _ _ E) as (x & _ & Hf & Pf & _). rewrite Nat.sub_0_r in Hf.
  assert (E0 : refs s !! f = Some 0) by (unfold refs; rewrite list_lookup_fmap, Hf; simpl; f_equal; lia).
  apply yields_modify, yields_ret. split; [done|]. rewrite (refs_updf _ _ _ (fun _ => 1)) by done.
  apply list_eq. intros i. destruct (decide (f = i)) as [->|].
  - rewrite list_lookup_alter_eq, list_lookup_insert_eq, E0; [done|]. by eapply lookup_lt_Some.
  - by rewrite list_lookup_alter_ne, list_lookup_insert_ne.
Qed.

(** Adding [d] to the count of [f]. *)
Lemma refs_add s f r d g :
  refs s !! f = Some r -> (forall x, f_ref (g x) = f_ref x + d) -> refs (updf f g s) = <[f := r + d]> (refs s).
Proof.
  intros Hr Hg. rewrite (refs_updf _ _ _ (fun x => x + d)) by done. apply list_eq. intros i.
  destruct (decide (f = i)) as [->|].
  - rewrite list_lookup_alter_eq, list_lookup_insert_eq, Hr; [done|]. by eapply lookup_lt_Some.
  - by rewrite list_lookup_alter_ne, list_lookup_insert_ne.
Qed.

Lemma filedup_refs s f :
  yields (filedup f) s (fun _ s' => exists r, refs s !! f = Some r /\ refs s' = <[f := r + 1]> (refs s)).
Proof.
  unfold filedup. apply yields_get. destruct (Z.ltb_spec (f_ref (getf s f)) 1); [apply yields_panic|].
  apply yields_modify, yields_ret. exists (f_ref (getf s f)). assert (Hr := getf_refs s f ltac:(lia)).
  split; [done|]. by apply refs_add.
Qed.

Lemma close_pipe_keeps p w : keeps refs (close_pipe me callers kend p w).
Proof. unfold close_pipe. keep. Qed.

Lemma fileclose_refs s f :
  yields (fileclose me callers kend pid f) s (fun _ s' => exists r, refs s !! f = Some r /\ 1 <= r /\
    refs s' = <[f := r - 1]> (refs s)).
Proof.
  unfold fileclose. apply yields_get. cbv zeta. set (ff := getf s f).
  destruct (Z.ltb_spec (f_ref ff) 1); [apply yields_panic|]. assert (Hr := getf_refs s f ltac:(fold ff; lia)). fold ff in Hr.
  apply yields_modify. set (s1 := updf _ _ s).
  assert (E1 : refs s1 = <[f := f_ref ff - 1]> (refs s)) by by apply (refs_add s f _ (-1)).
  destruct (Z.ltb_spec 0 (f_ref ff - 1)).
  { apply yields_ret. exists (f_ref ff). split; [done|]. split; [lia|done]. }
  apply yields_modify. set (s2 := updf _ _ s1).
  assert (E2 : refs s2 = <[f := f_ref ff - 1]> (refs s)).
  { assert (L : (f < length (refs s))%nat) by by eapply lookup_lt_Some.
    unfold s2. rewrite (refs_updf _ _ _ (fun _ => 0)) by done. rewrite E1. apply list_eq. intros i.
    destruct (decide (f = i)) as [->|]; [|by rewrite list_lookup_alter_ne].
    rewrite list_lookup_alter_eq, list_lookup_insert_eq by done. simpl. f_equal. lia. }
  eapply (yields_mono _ _ (fun _ s' => refs s' = refs s2)).
  - destruct (f_type ff); [by apply yields_ret|apply close_pipe_keeps|].
    match goal with |- yields ?m _ _ => assert (K : keeps refs m) by keep end. apply K.
  - intros _ s' E'. exists (f_ref ff). split; [done|]. split; [lia|]. congruence.
Qed.

Lemma fileread_keeps f n : keeps refs (fileread pid killed f n).
Proof. unfold fileread. keep; apply keeps_modify; intros; by apply refs_updf_keep. Qed.

Lemma filestat_keeps f : keeps refs (filestat pid f).
Proof. unfold filestat. keep. Qed.

Lemma filewrite_chunk_keeps f src : keeps refs (filewrite_chunk pid f src).
Proof.
  unfold filewrite_chunk. keep. apply keeps_modify. intros. by apply refs_updf_keep.
Qed.

Lemma filewrite_loop_keeps fuel f : forall src, keeps refs (filewrite_loop pid fuel f src).
Proof.
  induction fuel as [|fuel IH]; intros [|c src]; simpl; auto with keeps.
  apply keeps_bind; [apply filewrite_chunk_keeps|]. keep.
Qed.

Lemma filewrite_keeps f src : keeps refs (filewrite pid killed f src).
Proof. unfold filewrite. keep. apply filewrite_loop_keeps. Qed.

Lemma insert_back {A} (l : list A) i x y : l !! i = Some x -> <[i := x]> (<[i := y]> l) = l.
Proof. intros H. rewrite list_insert_insert_eq. by apply list_insert_id. Qed.

Lemma close_new_refs s (L : list Z) f :
  L !! f = Some 0 -> refs s = <[f := 1]> L ->
  yields (fileclose me callers kend pid f) s (fun _ s' => refs s' = L).
Proof.
  intros H0 E. eapply yields_mono; [apply fileclose_refs|]. intros _ s' (r & Hr & _ & E').
  rewrite E, list_lookup_insert_eq in Hr by (by eapply lookup_lt_Some). injection Hr as <-.
  rewrite E', E. simpl. by apply insert_back.
Qed.

Lemma pipealloc_refs s :
  yields (pipealloc me callers kend pid) s (fun o s' => match o with
    | Some (r, w) => refs s !! r = Some 0 /\ refs s !! w = Some 0 /\ r <> w /\
        refs s' = <[w := 1]> (<[r := 1]> (refs s))
    | None => refs s' = refs s end).
Proof.
  unfold pipealloc. eapply yields_bind; [apply filealloc_refs|]. cbv beta. intros [r|] s1.
  2: { intros E. unfold pipe_bad. by apply yields_ret. }
  intros [H0 E]. assert (Hlt : (r < length (refs s))%nat) by by eapply lookup_lt_Some.
  eapply yields_bind; [apply filealloc_refs|]. cbv beta. intros [w|] s2.
  2: { intros E2. unfold pipe_bad. eapply yields_bind; [apply (close_new_refs s2 (refs s)); [done|congruence]|].
       cbv beta. intros _ s3 E3. by apply yields_ret. }
  intros [H1 E2].
  assert (Hrw : r <> w) by (intros ->; rewrite E, list_lookup_insert_eq in H1; done).
  assert (Hw : refs s !! w = Some 0) by (rewrite E, list_lookup_insert_ne in H1; done).
  rewrite E in E2. eapply yields_bind; [apply zoom_mem_keeps|]. cbv beta. intros p s3 E3.
  destruct (p =? 0).
  - unfold pipe_bad.
    eapply yields_bind; [apply (close_new_refs s3 (<[w := 1]> (refs s))); [by rewrite list_lookup_insert_ne|]|].
    { rewrite E3, E2. by rewrite list_insert_insert_ne. }
    cbv beta. intros _ s4 E4. eapply yields_bind; [by apply (close_new_refs s4 (refs s))|].
    cbv beta. intros _ s5 E5. by apply yields_ret.
  - apply yields_modify, yields_modify, yields_modify, yields_ret. do 3 (split; [done|]).
    rewrite !refs_updf_keep by done. rewrite <- E2, <- E3. done.
Qed.
End Files.

(** ** The invariant *)

(** The counts [rs] of the file table against the descriptors [l] of the process; [ext f]
    are the references other processes hold. *)
Record fd_tab (ext : nat -> Z) (rs : list Z) (l : list (option nat)) : Prop := FdTab {
  fd_ext f : 0 <= ext f;
  fd_ref f r : rs !! f = Some r -> r = count f l + ext f;
  fd_bound fd f : l !! fd = Some (Some f) -> (f < length rs)%nat }.

Definition table_of (s : sysst) : list Z * list (option nat) := (refs (sy_ft s), up_ofile (sy_proc s)).
Definition fd_inv (ext : nat -> Z) (s : sysst) : Prop := fd_tab ext (fst (table_of s)) (snd (table_of s)).

Lemma fd_inv_keep ext s s' : table_of s' = table_of s -> fd_inv ext s -> fd_inv ext s'.
Proof. unfold fd_inv. by intros ->. Qed.

(** A file with a descriptor is in use. *)
Lemma fd_tab_open ext rs l fd f : fd_tab ext rs l -> l !! fd = Some (Some f) -> exists r, rs !! f = Some r /\ 1 <= r.
Proof.
  intros I Hfd. destruct (lookup_lt_is_Some_2 _ _ (fd_bound _ _ _ I _ _ Hfd)) as [r Hr]. exists r.
  split; [done|]. rewrite (fd_ref _ _ _ I _ _ Hr). pose proof (count_pos _ _ _ Hfd). pose proof (fd_ext _ _ _ I f). lia.
Qed.

(** A descriptor changed from [o] to [o'], and the counts with it. *)
Lemma fd_tab_update ext rs l fd f r o o' d :
  fd_tab ext rs l -> l !! fd = Some o -> rs !! f = Some r ->
  (o = None /\ o' = Some f /\ d = 1 \/ o = Some f /\ o' = None /\ d = -1) ->
  fd_tab ext (<[f := r + d]> rs) (<[fd := o']> l).
Proof.
  intros [I1 I2 I3] Hfd Hr Ho. assert (Hlt : (f < length rs)%nat) by by eapply lookup_lt_Some.
  split; [done| |].
  - intros g x Hx. rewrite (count_insert g _ fd o) by done. destruct (decide (f = g)) as [->|Hne].
    + rewrite list_lookup_insert_eq in Hx by done. injection Hx as <-. rewrite (I2 _ _ Hr).
      destruct Ho as [(-> & -> & ->)|(-> & -> & ->)]; repeat case_decide; simplify_eq; lia.
    + rewrite list_lookup_insert_ne in Hx by done. rewrite (I2 _ _ Hx).
      destruct Ho as [(-> & -> & ->)|(-> & -> & ->)]; repeat case_decide; simplify_eq; lia.
  - intros k g Hg. rewrite length_insert. destruct (decide (fd = k)) as [->|].
    + rewrite list_lookup_insert_eq in Hg by (by eapply lookup_lt_Some). injection Hg as ->.
      by destruct Ho as [(_ & [= ->] & _)|(_ & ? & _)].
    + rewrite list_lookup_insert_ne in Hg by done. eauto.
Qed.

Lemma fd_inv_update ext s s' fd f r o o' d :
  fd_inv ext s -> up_ofile (sy_proc s) !! fd = Some o -> refs (sy_ft s) !! f = Some r ->
  (o = None /\ o' = Some f /\ d = 1 \/ o = Some f /\ o' = None /\ d = -1) ->
  table_of s' = (<[f := r + d]> (refs (sy_ft s)), <[fd := o']> (up_ofile (sy_proc s))) -> fd_inv ext s'.
Proof. intros I Hfd Hr Ho E. unfold fd_inv. rewrite E. by eapply fd_tab_update. Qed.

(** An argument that cannot be fetched ends the call. *)
Ltac arg := match goal with |- yields (match ?x with _ => _ end) _ _ => destruct x; [|by apply yields_ret] end.

(** ** The system calls *)

Lemma ft_keeps {A} (m : M ftst A) : keeps refs m -> keeps table_of (ft m).
Proof.
  intros H s. apply yields_zoom. intros a t E. apply H in E. unfold table_of. cbn [lset ft_lens sy_ft sy_proc].
  by rewrite E.
Qed.

Lemma fs_keeps {A} (m : M fsst A) : keeps table_of (fs m).
Proof. apply ft_keeps, zoom_fs_keeps. Qed.

Lemma lg_keeps {A} (m : M logst A) : keeps table_of (lg m).
Proof. apply fs_keeps. Qed.

Lemma km_keeps {A} (m : M kstate A) : keeps table_of (km m).
Proof. by apply keeps_zoom. Qed.

Lemma put_user_keeps p l : keeps table_of (put_user p l).
Proof. unfold put_user. apply keeps_bind; [apply keeps_gets|]. intros. apply km_keeps. Qed.

#[export] Hint Resolve fs_keeps lg_keeps km_keeps put_user_keeps : keeps.
#[export] Hint Resolve ft_keeps fileread_keeps filestat_keeps filewrite_keeps : keeps.

Section Calls.
Variable me : nat.
Variable callers : list Z.
Variable kend : Z.
Variable data : Z.
Variable pid : Z.
Variable killed : bool.
Context {devsw : DevSw}.

Lemma loaduvm_keeps (rd : Z -> Z -> Z -> M sysst Z) pgdir addr offset sz :
  (forall a b c, keeps table_of (rd a b c)) ->
  keeps table_of (loaduvm me callers kmem_lens rd pgdir addr offset sz).
Proof.
  intros Hr. unfold loaduvm. keep. generalize (S (Z.to_nat (sz / PGSIZE + 1))) as fuel. intros fuel.
  generalize 0 as i. induction fuel as [|fuel IH]; intros i; cbn [loaduvm_loop]; keep.
Qed.

Lemma load_segment_keeps ip pgdir ph sz : keeps table_of (load_segment me callers kend pid ip pgdir ph sz).
Proof. unfold load_segment. keep. apply loaduvm_keeps. intros. unfold readi_to. keep. Qed.

Lemma load_segments_keeps ip pgdir n : forall off sz,
  keeps table_of (load_segments me callers kend pid ip pgdir n off sz).
Proof.
  induction n as [|n IH]; intros off sz; cbn [load_segments]; keep. apply load_segment_keeps.
Qed.

Lemma push_args_keeps pgdir argv : forall sp ustack,
  keeps table_of (push_args me callers pgdir argv sp ustack).
Proof. induction argv as [|a argv IH]; intros sp ustack; cbn [push_args]; keep. Qed.

Lemma exec_bad_keeps pgdir ip : keeps table_of (exec_bad me callers kend pid pgdir ip).
Proof. unfold exec_bad. keep. Qed.

Lemma exec_commit_keeps path pgdir sz entry sp :
  keeps table_of (exec_commit me callers kend path pgdir sz entry sp).
Proof.
  unfold exec_commit. intros s. apply yields_gets. cbv zeta. apply yields_modify.
  match goal with |- yields ?m _ _ => assert (K : keeps table_of m) by (unfold switch_pgdir; keep) end.
  eapply yields_mono; [apply K|]. cbv beta. intros a s' ->. done.
Qed.

Lemma exec_keeps path argv : keeps table_of (exec me callers kend data pid path argv).
Proof.
  pose proof exec_bad_keeps. pose proof load_segments_keeps. pose proof push_args_keeps.
  pose proof exec_commit_keeps. unfold exec, exec_stack. keep.
Qed.

Lemma argfd_ends {B} n (k : option (nat * nat) -> M sysst B) s Q :
  (forall o, (match o with Some (fd, f) => up_ofile (sy_proc s) !! fd = Some (Some f) | None => True end) ->
     yields (k o) s Q) -> yields (m_bind (argfd n) k) s Q.
Proof.
  intros H. apply yields_gets. apply H. destruct (argint (uview_of s) n) as [fd|]; [|done].
  destruct (_ || _); [done|]. destruct (up_ofile (sy_proc s) !! Z.to_nat fd) as [[f|]|] eqn:E; done.
Qed.

Lemma fdalloc_ends s f :
  yields (fdalloc f) s (fun o s' => match o with
    | Some fd => up_ofile (sy_proc s) !! fd = Some None /\ sy_ft s' = sy_ft s /\
        up_ofile (sy_proc s') = <[fd := Some f]> (up_ofile (sy_proc s))
    | None => s' = s end).
Proof.
  unfold fdalloc. apply yields_get. cbv zeta. destruct (first_free _) as [fd|] eqn:E; [|by apply yields_ret].
  destruct (find_idx_Some _ _ _ _ E) as (x & _ & Hf & Pf & _). rewrite Nat.sub_0_r in Hf.
  apply yields_modify, yields_ret. split; [by destruct x|done].
Qed.

Lemma ft_ends {A} (m : M ftst A) s P :
  yields m (sy_ft s) P -> yields (ft m) s (fun a s' => P a (sy_ft s') /\ sy_proc s' = sy_proc s).
Proof. intros H. apply yields_zoom. intros a t E. split; [by apply H|done]. Qed.

Lemma table_eq s rs l : refs (sy_ft s) = rs -> up_ofile (sy_proc s) = l -> table_of s = (rs, l).
Proof. unfold table_of. by intros -> ->. Qed.

Lemma sys_dup_inv ext s : fd_inv ext s -> yields sys_dup s (fun _ s' => fd_inv ext s').
Proof.
  intros I. unfold sys_dup. apply argfd_ends. intros [[fd0 f]|] Hfd0; [|by apply yields_ret].
  eapply yields_bind; [apply fdalloc_ends|]. cbv beta. intros [fd|] s1; [|intros ->; by apply yields_ret].
  intros (Hfd & Eft & Eof). eapply yields_bind; [apply ft_ends, filedup_refs|]. cbv beta.
  intros _ s2 ((r & Hr & E) & Ep). rewrite Eft in Hr, E. apply yields_ret.
  eapply (fd_inv_update ext s s2 fd f r None (Some f) 1); [done..|by left|]. apply table_eq; [done|congruence].
Qed.

Lemma sys_close_inv ext s : fd_inv ext s -> yields (sys_close me callers kend pid) s (fun _ s' => fd_inv ext s').
Proof.
  intros I. unfold sys_close. apply argfd_ends. intros [[fd f]|] Hfd; [|by apply yields_ret].
  unfold clear_fd. apply yields_modify. eapply yields_bind; [apply ft_ends, fileclose_refs|]. cbv beta.
  intros _ s1 ((r & Hr & _ & E) & Ep). apply yields_ret.
  eapply (fd_inv_update ext s s1 fd f r (Some f) None (-1)); [done..|by right|]. apply table_eq; [done|by rewrite Ep].
Qed.

Lemma alloc_fd_ends s :
  yields (alloc_fd me callers kend pid) s (fun o s' => match o with
    | Some (f, fd) => refs (sy_ft s) !! f = Some 0 /\ up_ofile (sy_proc s) !! fd = Some None /\
        table_of s' = (<[f := 1]> (refs (sy_ft s)), <[fd := Some f]> (up_ofile (sy_proc s)))
    | None => table_of s' = table_of s end).
Proof.
  unfold alloc_fd. eapply yields_bind; [apply ft_ends, filealloc_refs|]. cbv beta.
  intros [f|] s1 [H Ep]; [|by apply yields_ret, table_eq; [|congruence]]. destruct H as [H0 E].
  eapply yields_bind; [apply fdalloc_ends|]. cbv beta. intros [fd|] s2.
  - intros (Hfd & Eft & Eof). apply yields_ret. rewrite Ep in Hfd, Eof. split; [done|]. split; [done|].
    apply table_eq; congruence.
  - intros ->. eapply yields_bind; [apply ft_ends, (close_new_refs me callers kend pid _ (refs (sy_ft s))); done|].
    cbv beta. intros _ s3 [E3 Ep3]. apply yields_ret. by apply table_eq; [|congruence].
Qed.

Lemma sys_open_inv ext s : fd_inv ext s -> yields (sys_open me callers kend pid) s (fun _ s' => fd_inv ext s').
Proof.
  intros I. unfold sys_open. apply yields_gets. cbv beta zeta. arg.
  apply yields_gets. cbv beta zeta. arg.
  eapply yields_bind; [apply lg_keeps|]. cbv beta. intros _ s1 E1. apply yields_gets.
  eapply yields_bind; [apply fs_keeps|]. cbv beta. intros o s2 E2. rewrite E1 in E2. clear s1 E1.
  assert (Hk : forall s3 m, table_of s3 = table_of s -> keeps table_of m -> yields (A := Z) m s3 (fun _ s' => fd_inv ext s')).
  { intros s3 m E3 K. eapply yields_mono; [apply K|]. cbv beta. intros _ s4 E4. eapply fd_inv_keep; [|done]. congruence. }
  destruct o as [ip|]; [|apply Hk; [done|keep]].
  eapply yields_bind; [apply alloc_fd_ends|]. cbv beta.
  intros [[f fd]|] s3; [|intros E3; apply Hk; [congruence|keep]].
  injection E2 as -> ->. intros (H0 & Hfd & E3).
  match goal with |- yields ?m _ _ => assert (K : keeps table_of m) end.
  { keep. apply ft_keeps, keeps_modify. intros. by apply refs_updf_keep. }
  eapply yields_mono; [apply K|]. cbv beta. intros _ s4 E4. rewrite E3 in E4.
  eapply (fd_inv_update ext s s4 fd f 0 None (Some f) 1); try done. by left.
Qed.

Lemma sys_pipe_inv ext s : fd_inv ext s -> yields (sys_pipe me callers kend pid) s (fun _ s' => fd_inv ext s').
Proof.
  intros I. unfold sys_pipe. apply yields_gets. cbv beta zeta. arg.
  eapply yields_bind; [apply ft_ends, pipealloc_refs|]. cbv beta. intros [[rf wf]|] s1 [H Ep].
  2: { apply yields_ret. eapply fd_inv_keep; [|done]. by apply table_eq; [|congruence]. }
  destruct H as (Hr & Hw & Hne & E1). eapply yields_bind; [apply fdalloc_ends|]. cbv beta.
  assert (Hclose : forall s2, table_of s2 = (<[wf := 1]> (<[rf := 1]> (refs (sy_ft s))), up_ofile (sy_proc s)) ->
    yields (ft (fileclose me callers kend pid rf) ;;; ft (fileclose me callers kend pid wf) ;;; m_ret (-1)) s2
      (fun _ s' => fd_inv ext s')).
  { intros s2 [= Ea Eb].
    eapply yields_bind; [apply ft_ends, (close_new_refs me callers kend pid _ (<[wf := 1]> (refs (sy_ft s))))|].
    - by rewrite list_lookup_insert_ne.
    - rewrite Ea. by rewrite list_insert_insert_ne.
    - cbv beta. intros _ s3 [E3 Ep3]. eapply yields_bind;
        [apply ft_ends, (close_new_refs me callers kend pid _ (refs (sy_ft s))); done|].
      cbv beta. intros _ s4 [E4 Ep4]. apply yields_ret. eapply fd_inv_keep; [|done]. by apply table_eq; [|congruence]. }
  intros [fd0|] s2.
  2: { intros ->. apply yields_bind with (P := fun o s' => o = None /\ s' = s1); [by apply yields_ret|].
       intros o s' [-> ->]. apply yields_bind with (P := fun _ s' => s' = s1); [by apply yields_ret|].
       intros _ s' ->. apply Hclose. by apply table_eq; [|congruence]. }
  intros (Hfd0 & Eft & Eof). rewrite Ep in Hfd0, Eof. eapply yields_bind; [apply fdalloc_ends|]. cbv beta.
  intros [fd1|] s3.
  - intros (Hfd1 & Eft3 & Eof3). rewrite Eof in Hfd1, Eof3.
    match goal with |- yields ?m _ _ => assert (K : keeps table_of m) by keep end.
    eapply yields_mono; [apply K|]. cbv beta. intros _ s4 E4. unfold fd_inv. rewrite E4. unfold table_of. simpl.
    rewrite Eft3, Eft, E1, Eof3. change 1 with (0 + 1).
    eapply (fd_tab_update _ _ _ fd1 wf 0 None); [|done|by rewrite list_lookup_insert_ne|by left].
    eapply (fd_tab_update _ _ _ fd0 rf 0 None); [exact I|done|done|by left].
  - intros ->. unfold clear_fd. apply yields_bind with (P := fun _ s' => table_of s' = (refs (sy_ft s2), up_ofile (sy_proc s))).
    + intros a s' [= <- <-]. apply table_eq; [done|]. simpl. rewrite Eof. by apply insert_back.
    + intros _ s' E'. apply Hclose. by rewrite E', Eft, E1.
Qed.

(** ** All of them *)

Inductive file_call : M sysst Z -> Prop :=
  | fc_dup : file_call sys_dup
  | fc_read : file_call (sys_read pid killed)
  | fc_write : file_call (sys_write pid killed)
  | fc_close : file_call (sys_close me callers kend pid)
  | fc_fstat : file_call (sys_fstat pid)
  | fc_link : file_call (sys_link pid)
  | fc_unlink : file_call (sys_unlink pid)
  | fc_open : file_call (sys_open me callers kend pid)
  | fc_mkdir : file_call (sys_mkdir pid)
  | fc_mknod : file_call (sys_mknod pid)
  | fc_chdir : file_call (sys_chdir pid)
  | fc_exec : file_call (sys_exec me callers kend data pid)
  | fc_pipe : file_call (sys_pipe me callers kend pid).

Lemma keeps_inv {A} (m : M sysst A) ext s : keeps table_of m -> fd_inv ext s -> yields m s (fun _ s' => fd_inv ext s').
Proof. intros K I. eapply yields_mono; [apply K|]. cbv beta. intros _ s' E. by eapply fd_inv_keep. Qed.

Lemma argfd_keeps n : keeps table_of (argfd n).
Proof. apply keeps_gets. Qed.

Lemma file_call_inv ext m s : file_call m -> fd_inv ext s -> yields m s (fun _ s' => fd_inv ext s').
Proof.
  pose proof argfd_keeps. pose proof exec_keeps. intros Hm I.
  destruct Hm; first [by apply sys_dup_inv|by apply sys_close_inv|by apply sys_open_inv|by apply sys_pipe_inv
    |apply keeps_inv; [|done]].
  - unfold sys_read, u_argint, u_argptr. keep.
  - unfold sys_write, u_argint, u_argptr. keep.
  - unfold sys_fstat, u_argptr, put_stat. keep.
  - unfold sys_link, u_argstr, in_op. keep.
  - unfold sys_unlink, u_argstr, in_op. keep.
  - unfold sys_mkdir, u_argstr, make_node. keep.
  - unfold sys_mknod, u_argstr, u_argint, make_node. keep.
  - unfold sys_chdir, u_argstr. keep.
  - unfold sys_exec, u_argstr, u_argint. keep.
Qed.

(** The states a process comes to by calling them. *)
Inductive calls : sysst -> sysst -> Prop :=
  | calls_none s : calls s s
  | calls_more s m r s1 s2 : file_call m -> m s = Done r s1 -> calls s1 s2 -> calls s s2.

Lemma calls_inv ext s s' : calls s s' -> fd_inv ext s -> fd_inv ext s'.
Proof. induction 1 as [|s m r s1 s2 Hm E _ IH]; [done|]. intros I. apply IH. by eapply (file_call_inv ext m s). Qed.

(** C7. Whatever sequence of file system calls a process makes, with whatever arguments and
    whatever errors, the reference count of every open file stays the number of descriptors
    that refer to it; so a file with a descriptor has at least one reference and is in the
    table, and [dup] neither panics nor sleeps. *)
Theorem descriptors_own_references ext s s' :
  fd_inv ext s -> calls s s' ->
  fd_inv ext s' /\
  (forall fd f, up_ofile (sy_proc s') !! fd = Some (Some f) ->
     exists r, refs (sy_ft s') !! f = Some r /\ 1 <= r) /\
  (exists r s'', sys_dup s' = Done r s'').
Proof.
  intros I Hc. pose proof (calls_inv _ _ _ Hc I) as I'. split; [done|]. split.
  - intros fd f Hfd. by eapply fd_tab_open.
  - unfold sys_dup, argfd. munf. destruct (argint (uview_of s') 0) as [fd|]; [|eauto].
    destruct (_ || _); [eauto|]. destruct (up_ofile (sy_proc s') !! Z.to_nat fd) as [[f|]|] eqn:E; simpl; eauto.
    destruct (fd_tab_open _ _ _ _ _ I' E) as (r & Hr & Hpos). unfold fdalloc. munf.
    destruct (first_free _) as [fd'|]; [|eauto]. unfold ft, filedup. munf. cbn [lget ft_lens lset proc_lens sy_ft].
    rewrite (refs_getf _ _ _ Hr), (proj2 (Z.ltb_ge _ _)) by lia. eauto.
Qed.
End Calls.

(** A process with the console open on descriptors 0, 1 and 2 that asks for [dup(1)]: its
    page 0 is mapped and holds the stack. *)
Definition dup_mem : mem :=
  store32 (store32 (store32 (fun _ => 0) 2147487744 8195) 2147491840 12295) 2147495944 1.
Definition dup_files : ftst :=
  FtSt [File FD_INODE 3 true true 0 0 0; zero_file]
    (FsSt (LogSt 2 LOGSIZE 0 0 1 (LogHeader 0 []) (BState [] [] [])) (Superblock 0 0 0 0 0 0 0) [])
    ∅ (KState (Cpu 0 0 0 None false) dup_mem (Spinlock 0 "kmem" None []) 0 0).
Definition dup_state : sysst :=
  SysSt dup_files
    (UProc 4096 2147487744 1 0 4 0 ([Some 0%nat; Some 0%nat; Some 0%nat] ++ replicate 13 None) 0 []) 4096.

Lemma dup_state_inv : fd_inv (fun _ => 0) dup_state.
Proof.
  split; [done| |].
  - intros [|[|f]] r [= <-]; done.
  - intros fd f H.
    assert (F : Forall (fun o => o = Some 0%nat \/ o = None) (up_ofile (sy_proc dup_state))) by (repeat constructor; auto).
    by destruct (Forall_lookup_1 _ _ _ _ F H) as [[= ->]|?]; [simpl; lia|].
Qed.

Lemma descriptors_own_references_witness :
  exists s, sys_dup dup_state = Done 3 s /\ fd_inv (fun _ => 0) s /\ refs (sy_ft s) = [4; 0].
Proof.
  destruct (sys_dup dup_state) as [r s| |] eqn:E; [|by vm_compute in E..].
  assert (Er : r = 3 /\ refs (sy_ft s) = [4; 0]) by (vm_compute in E; injection E as <- <-; done).
  destruct Er as [-> Er]. exists s. split; [done|]. split; [|done].
  refine (proj1 (descriptors_own_references 0 [] 0 0 7 false (devsw := no_devices) (fun _ => 0) dup_state s dup_state_inv _)).
  eapply calls_more; [apply fc_dup|exact E|apply calls_none].
Defined.
