(* ===== verification/Sh.v ===== *)
(** * The shell (sh.c)

    The parser works on the buffer a line was read into. A [char*] is an index of the
    buffer, the commands hold such indices, and [nulterminate] stores zeros into the
    buffer, as the code does. The parsing functions are in the monad over the position
    [*ps]; the shell's own [panic] is [Panic]. The recursion follows the text, not the
    data, so the functions take fuel, and running out of it is [Blocked]; ShSpec shows
    that it never runs out. [malloc] is taken to succeed, as the constructors assume.

    [runcmd] is the tree of the system calls it makes, branching on their results. *)

From stdpp Require Import base tactics numbers list strings.
From Stdlib Require Import ZArith Lia ZifyNat.
From S2P Require Import Prelude Layout.

(** The bytes of a string literal. *)
Definition codes (s : string) : list Z := (fun a => Z.of_nat (Ascii.nat_of_ascii a)) <$> String.list_ascii_of_string s.

Definition MAXARGS : nat := 10.

(** An argument or a file name is the pair of its start and its end in the buffer. The
    list of [EXEC] is [argv] and [eargv] up to the null pointer. *)
Inductive cmd :=
  | EXEC (args : list (nat * nat))
  | REDIR (c : cmd) (file efile : nat) (mode fd : Z)
  | PIPE (left right : cmd)
  | LIST (left right : cmd)
  | BACK (c : cmd).

(** The constructors: a block from [malloc], cleared and filled. *)
Definition execcmd : cmd := EXEC [].
Definition redircmd (subcmd : cmd) (file efile : nat) (mode fd : Z) : cmd := REDIR subcmd file efile mode fd.
Definition pipecmd (left right : cmd) : cmd := PIPE left right.
Definition listcmd (left right : cmd) : cmd := LIST left right.
Definition backcmd (subcmd : cmd) : cmd := BACK subcmd.

(** [cmd->argv[argc] = q] in [parseexec], where the [EXEC] command may already be below
    redirections. *)
Fixpoint add_arg (a : nat * nat) (c : cmd) : cmd :=
  match c with
  | EXEC args => EXEC (args ++ [a])
  | REDIR c file efile mode fd => REDIR (add_arg a c) file efile mode fd
  | c => c
  end.

Definition BAR : Z := 124.
Definition LPAREN : Z := 40.
Definition RPAREN : Z := 41.
Definition SEMI : Z := 59.
Definition AMP : Z := 38.
Definition LT : Z := 60.
Definition GT : Z := 62.
Definition PLUS : Z := 43.
Definition LOWER_A : Z := 97.

Definition whitespace : list Z := [32; 9; 13; 10; 11].
Definition symbols : list Z := [LT; BAR; GT; AMP; SEMI; LPAREN; RPAREN].

(** [strchr(l, c)] as a truth value, for a string [l]. *)
Definition among (l : list Z) (c : Z) : bool := existsb (Z.eqb c) l.
Arguments among : simpl never.
Definition is_ws : Z -> bool := among whitespace.
Definition is_word (c : Z) : bool := negb (is_ws c) && negb (among symbols c).

Section Parser.
(** The buffer and [es], the end of the string. *)
Variable buf : list Z.
Variable es : nat.

Definition char (s : nat) : Z := default 0 (buf !! s).

(** [while(s < es && f( *s )) s++], for the [n] characters left before [es]. *)
Fixpoint skip (f : Z -> bool) (n s : nat) : nat :=
  match n with
  | O => s
  | S n => if f (char s) then skip f n (S s) else s
  end.
Definition skip_ws (s : nat) : nat := skip is_ws (es - s) s.

(** The type of the token, its start and its end. *)
Definition gettoken : M nat (Z * nat * nat) := fun s =>
  let s := skip_ws s in
  let q := s in
  let c := char s in
  let '(ret, s) :=
    if c =? 0 then (c, s)
    else if among [BAR; LPAREN; RPAREN; SEMI; AMP; LT] c then (c, S s)
    else if c =? GT then
      let s := S s in
      if char s =? GT then (PLUS, S s) else (c, s)
    else (LOWER_A, skip is_word (es - s) s) in
  Done (ret, q, s) (skip_ws s).

Definition peek (toks : list Z) : M nat bool := fun s =>
  let s := skip_ws s in
  Done (negb (char s =? 0) && among toks (char s)) s.

Fixpoint redirs_loop (k : nat) (c : cmd) : M nat cmd :=
  match k with
  | O => block
  | S k =>
      let! more := peek [LT; GT] in
      if negb more then m_ret c else
      let! t := gettoken in
      let! f := gettoken in
      let '(tok, _, _) := t in
      let '(ft, q, eq) := f in
      if negb (ft =? LOWER_A) then panic "missing file for redirection" else
      redirs_loop k
        (if tok =? LT then redircmd c q eq O_RDONLY 0
         else if tok =? GT then redircmd c q eq (Z.lor O_WRONLY O_CREATE) 1
         else if tok =? PLUS then redircmd c q eq (Z.lor O_WRONLY O_CREATE) 1
         else c)
  end.
(** A turn of a loop takes at least one character, or is the last. *)
Definition parseredirs (c : cmd) : M nat cmd := redirs_loop (S es) c.

Fixpoint args_loop (k argc : nat) (ret : cmd) : M nat cmd :=
  match k with
  | O => block
  | S k =>
      let! stop := peek [BAR; RPAREN; AMP; SEMI] in
      if stop then m_ret ret else
      let! t := gettoken in
      let '(tok, q, eq) := t in
      if tok =? 0 then m_ret ret else
      if negb (tok =? LOWER_A) then panic "syntax" else
      if (MAXARGS <=? S argc)%nat then panic "too many args" else
      let! ret := parseredirs (add_arg (q, eq) ret) in
      args_loop k (S argc) ret
  end.

Fixpoint backs_loop (k : nat) (c : cmd) : M nat cmd :=
  match k with
  | O => block
  | S k =>
      let! more := peek [AMP] in
      if more then gettoken ;;; backs_loop k (backcmd c) else m_ret c
  end.

Fixpoint parseline (fuel : nat) : M nat cmd :=
  match fuel with
  | O => block
  | S fuel =>
      let! c := parsepipe fuel in
      let! c := backs_loop (S es) c in
      let! more := peek [SEMI] in
      if more then gettoken ;;; let! r := parseline fuel in m_ret (listcmd c r) else m_ret c
  end
with parsepipe (fuel : nat) : M nat cmd :=
  match fuel with
  | O => block
  | S fuel =>
      let! c := parseexec fuel in
      let! more := peek [BAR] in
      if more then gettoken ;;; let! r := parsepipe fuel in m_ret (pipecmd c r) else m_ret c
  end
with parseexec (fuel : nat) : M nat cmd :=
  match fuel with
  | O => block
  | S fuel =>
      let! paren := peek [LPAREN] in
      if paren then parseblock fuel else
      let! ret := parseredirs execcmd in
      args_loop (S es) 0 ret
  end
with parseblock (fuel : nat) : M nat cmd :=
  match fuel with
  | O => block
  | S fuel =>
      let! open := peek [LPAREN] in
      if negb open then panic "parseblock" else
      gettoken ;;;
      let! c := parseline fuel in
      let! close := peek [RPAREN] in
      if negb close then panic "syntax - missing )" else
      gettoken ;;;
      parseredirs c
  end.
End Parser.

Fixpoint nulterminate (c : cmd) (buf : list Z) : list Z :=
  match c with
  | EXEC args => foldl (fun b a => <[snd a := 0]> b) buf args
  | REDIR c _ efile _ _ => <[efile := 0]> (nulterminate c buf)
  | PIPE l r => nulterminate r (nulterminate l buf)
  | LIST l r => nulterminate r (nulterminate l buf)
  | BACK c => nulterminate c buf
  end.

(** [strlen] of the string at the start of the buffer. *)
Definition length_cstr (buf : list Z) : nat := skip buf (fun c => negb (c =? 0)) (length buf) 0.

(** A call nests at most four deep before a character is consumed. *)
Definition parsecmd (buf : list Z) : outcome nat (cmd * list Z) :=
  let es := length_cstr buf in
  (let! c := parseline buf es (4 * S es) in
   peek buf es [] ;;;
   let! s := get in
   if negb (s =? es)%nat then panic "syntax" else
   m_ret (c, nulterminate c buf)) 0%nat.

(** ** Running a command *)

(** The system calls and the formatted output to descriptor 2. [Fork] answers 0 in the
    child; [Pipe] answers its result and the two descriptors. *)
Inductive prog :=
  | Exit
  | Exec (path : list Z) (argv : list (list Z)) (failed : prog)
  | Open (path : list Z) (mode : Z) (k : Z -> prog)
  | Close (fd : Z) (k : prog)
  | Dup (fd : Z) (k : Z -> prog)
  | Pipe (k : Z -> Z -> Z -> prog)
  | Fork (k : Z -> prog)
  | Wait (k : prog)
  | Chdir (path : list Z) (k : Z -> prog)
  | Printf (fmt : string) (args : list (list Z)) (k : prog).

(** The string at [s]. *)
Fixpoint upto_nul (l : list Z) : list Z :=
  match l with
  | [] => []
  | c :: l => if c =? 0 then [] else c :: upto_nul l
  end.
Definition cstring (buf : list Z) (s : nat) : list Z := upto_nul (drop s buf).

Definition sh_panic (msg : string) : prog := Printf "%s\n" [codes msg] Exit.

Definition fork1 (k : Z -> prog) : prog :=
  Fork (fun pid => if pid =? -1 then sh_panic "fork" else k pid).

Fixpoint runcmd (buf : list Z) (c : cmd) : prog :=
  match c with
  | EXEC [] => Exit
  | EXEC (((q, _) :: _) as args) =>
      Exec (cstring buf q) ((fun a => cstring buf (fst a)) <$> args)
        (Printf "exec %s failed\n" [cstring buf q] Exit)
  | REDIR c file _ mode fd =>
      Close fd (Open (cstring buf file) mode (fun r =>
        if r <? 0 then Printf "open %s failed\n" [cstring buf file] Exit else runcmd buf c))
  | LIST l r =>
      fork1 (fun pid => if pid =? 0 then runcmd buf l else Wait (runcmd buf r))
  | PIPE l r =>
      Pipe (fun x p0 p1 =>
        if x <? 0 then sh_panic "pipe" else
        fork1 (fun pid =>
          if pid =? 0 then Close 1 (Dup p1 (fun _ => Close p0 (Close p1 (runcmd buf l)))) else
        fork1 (fun pid =>
          if pid =? 0 then Close 0 (Dup p0 (fun _ => Close p0 (Close p1 (runcmd buf r)))) else
        Close p0 (Close p1 (Wait (Wait Exit))))))
  | BACK c => fork1 (fun pid => if pid =? 0 then runcmd buf c else Exit)
  end.

(** A turn of the loop of [main] on the line [getcmd] left in [buf]; [next] is the rest of
    the loop. A line that starts a [cd] loses its last character, the newline. *)
Definition run_line (buf : list Z) (next : prog) : prog :=
  if (char buf 0 =? 99) && (char buf 1 =? 100) && (char buf 2 =? 32) then
    let buf := <[(length_cstr buf - 1)%nat := 0]> buf in
    Chdir (cstring buf 3) (fun r =>
      if r <? 0 then Printf "cannot cd %s\n" [cstring buf 3] next else next)
  else
    fork1 (fun pid =>
      if pid =? 0 then
        match parsecmd buf with
        | Done (c, buf) _ => runcmd buf c
        | Panic msg => sh_panic msg
        | Blocked _ => Exit
        end
      else Wait next).

(** [getcmd] and the loop of [main], for the contents of the buffer after each [gets]; an
    empty string is the end of the input. *)
Fixpoint run_lines (lines : list (list Z)) : prog :=
  Printf "$ " []
    (match lines with
     | [] => Exit
     | buf :: lines => if char buf 0 =? 0 then Exit else run_line buf (run_lines lines)
     end).

(** [while((fd = open("console", O_RDWR)) >= 0)] at the start of [main]. *)
Fixpoint open_console (k : nat) (next : prog) : prog :=
  match k with
  | O => Exit
  | S k =>
      Open (codes "console") O_RDWR (fun fd =>
        if 0 <=? fd then (if 3 <=? fd then Close fd next else open_console k next) else next)
  end.

(** A descriptor at least 3 is returned after at most three others. *)
Definition main (lines : list (list Z)) : prog := open_console 4 (run_lines lines).
