(* ===== verification/ShLex.v ===== *)
(** * The tokens of a command line

    [spells ts text]: [text] is a way to write the tokens [ts], with any white space that
    keeps two words apart. [lex s ts]: calling [gettoken] from position [s] on gives the
    tokens [ts]. They are the same, and [peek] looks at the first token. *)

From stdpp Require Import base tactics numbers list sets strings.
From Stdlib Require Import ZArith Lia ZifyNat.
From S2P Require Import Prelude Sh.

Inductive tok :=
  | Sym (c : Z)
  | Word (x : list Z).

(** [PLUS] stands for the two characters [>>], as it does in [gettoken]. *)
Inductive spells : list tok -> list Z -> Prop :=
  | sp_nil : spells [] []
  | sp_space c ts t : is_ws c = true -> spells ts t -> spells ts (c :: t)
  | sp_sym c ts t :
      among [BAR; LPAREN; RPAREN; SEMI; AMP; LT] c = true -> spells ts t -> spells (Sym c :: ts) (c :: t)
  | sp_gt ts t : head t <> Some GT -> spells ts t -> spells (Sym GT :: ts) (GT :: t)
  | sp_append ts t : spells ts t -> spells (Sym PLUS :: ts) (GT :: GT :: t)
  | sp_word x ts t :
      x <> [] -> Forall (fun c => is_word c = true) x ->
      (forall c, head t = Some c -> is_word c = false) -> spells ts t -> spells (Word x :: ts) (x ++ t).

Lemma among_true l c : among l c = true <-> c ∈ l.
Proof.
  unfold among. rewrite existsb_exists. split.
  - intros (x & Hx & E%Z.eqb_eq). subst. by apply list_elem_of_In.
  - intros H%list_elem_of_In. exists c. by rewrite Z.eqb_refl.
Qed.

Lemma among_false l c : among l c = false <-> c ∉ l.
Proof. rewrite <- among_true. by destruct (among l c). Qed.

Lemma is_word_spec c : is_word c = true <-> is_ws c = false /\ c ∉ symbols.
Proof. unfold is_word. rewrite <- among_false. destruct (is_ws c), (among symbols c); simpl; intuition done. Qed.

Section Lex.
Variable buf : list Z.
Variable es : nat.
Hypothesis Hend : char buf es = 0.
Hypothesis Hnz : forall s, (s < es)%nat -> char buf s <> 0.
Abbreviation char := (char buf).
Abbreviation skip := (skip buf).
Abbreviation skip_ws := (skip_ws buf es).
Abbreviation gettoken := (gettoken buf es).
Abbreviation peek := (peek buf es).

Definition slice (q e : nat) : list Z := take (e - q) (drop q buf).

Lemma skip_spec f n s :
  (s <= skip f n s <= s + n)%nat /\ (forall k, (s <= k < skip f n s)%nat -> f (char k) = true) /\
  (skip f n s = (s + n)%nat \/ f (char (skip f n s)) = false).
Proof.
  revert s. induction n as [|n IH]; intros s; simpl.
  - split; [lia|]. split; [intros; lia|left; lia].
  - destruct (f (char s)) eqn:E; [|split; [lia|]; split; [intros; lia|by right]].
    destruct (IH (S s)) as (H1 & H2 & H3). split; [lia|]. split.
    + intros k Hk. destruct (decide (k = s)) as [->|]; [done|]. apply H2. lia.
    + destruct H3; [left; lia|by right].
Qed.

Lemma skip_stop f n s : f (char s) = false -> skip f n s = s.
Proof. intros E. destruct n; simpl; [done|by rewrite E]. Qed.

Lemma skip_ws_le s : (s <= es)%nat -> (s <= skip_ws s <= es)%nat.
Proof. intros Hs. destruct (skip_spec is_ws (es - s) s) as (H & _). unfold Sh.skip_ws. lia. Qed.

Lemma skip_ws_stop s : (s <= es)%nat -> is_ws (char (skip_ws s)) = false.
Proof using Hend.
  intros Hs. destruct (skip_spec is_ws (es - s) s) as (H1 & _ & [H|H]); [|done].
  unfold Sh.skip_ws. rewrite H. replace (s + (es - s))%nat with es by lia. by rewrite Hend.
Qed.

Lemma skip_ws_idem s : (s <= es)%nat -> skip_ws (skip_ws s) = skip_ws s.
Proof using Hend. intros Hs. apply skip_stop. by apply skip_ws_stop. Qed.

Lemma skip_ws_step s : (s < es)%nat -> is_ws (char s) = true -> skip_ws s = skip_ws (S s).
Proof.
  intros Hs E. unfold Sh.skip_ws. replace (es - s)%nat with (S (es - S s)) by lia. simpl. by rewrite E.
Qed.

(** ** One call of [gettoken] *)

(** What kind of token starts at [s], no white space, and where it ends. *)
Inductive token_at (s : nat) : Z -> nat -> Prop :=
  | at_end : s = es -> token_at s 0 s
  | at_sym c : (s < es)%nat -> char s = c -> among [BAR; LPAREN; RPAREN; SEMI; AMP; LT] c = true ->
      token_at s c (S s)
  | at_gt : (s < es)%nat -> char s = GT -> char (S s) <> GT -> token_at s GT (S s)
  | at_append : (S s < es)%nat -> char s = GT -> char (S s) = GT -> token_at s PLUS (S (S s))
  | at_word e : (s < e <= es)%nat -> (forall k, (s <= k < e)%nat -> is_word (char k) = true) ->
      is_word (char e) = false \/ e = es -> token_at s LOWER_A e.

Lemma char_lt s : (s <= es)%nat -> char s <> 0 -> (s < es)%nat.
Proof using Hend. intros Hs Hc. destruct (decide (s = es)) as [->|]; [done|lia]. Qed.

Lemma gettoken_run s :
  (s <= es)%nat -> exists k e, gettoken s = Done (k, skip_ws s, e) (skip_ws e) /\ token_at (skip_ws s) k e.
Proof using Hend Hnz.
  intros Hs. pose proof (skip_ws_le s Hs) as Hle. pose proof (skip_ws_stop s Hs) as Hws.
  unfold Sh.gettoken. cbv zeta. set (p := skip_ws s) in *. clearbody p.
  destruct (Z.eqb_spec (char p) 0) as [E|E].
  { rewrite E. eexists 0, p. split; [done|]. apply at_end. destruct (decide (p = es)); [done|]. destruct (Hnz p); [lia|done]. }
  pose proof (char_lt p (proj2 Hle) E) as Hlt.
  destruct (among _ (char p)) eqn:E1; [by eexists _, _; split; [|by apply at_sym]|].
  destruct (Z.eqb_spec (char p) GT) as [E2|E2].
  - destruct (Z.eqb_spec (char (S p)) GT) as [E3|E3].
    + eexists _, _. split; [done|]. apply at_append; try done. apply char_lt; [lia|]. by rewrite E3.
    + rewrite E2. eexists _, _. split; [done|]. by apply at_gt.
  - eexists _, _. split; [done|].
    assert (Hw : is_word (char p) = true).
    { apply is_word_spec. split; [done|]. apply among_false in E1. unfold symbols. clear -E1 E2. set_solver. }
    destruct (skip_spec is_word (es - p) p) as (S1 & S2 & S3).
    assert (Hne : skip is_word (es - p) p <> p).
    { replace (es - p)%nat with (S (es - S p)) by lia. simpl. rewrite Hw.
      destruct (skip_spec is_word (es - S p) (S p)). lia. }
    apply at_word; [lia|done|]. destruct S3 as [S3|S3]; [right; lia|by left].
Qed.

Lemma token_at_fun s k e k' e' : token_at s k e -> token_at s k' e' -> k = k' /\ e = e'.
Proof using Hend Hnz.
  assert (W : forall c, is_word c = true -> c <> GT /\ among [BAR; LPAREN; RPAREN; SEMI; AMP; LT] c = false).
  { intros c [_ H]%is_word_spec. unfold symbols in H. rewrite among_false. set_solver. }
  assert (G : among [BAR; LPAREN; RPAREN; SEMI; AMP; LT] GT = false) by done.
  destruct 1 as [-> |c Hlt <- Hc|Hlt E N|Hlt E E2|e Hr Hw He];
  inversion 1 as [Heq|c' Hlt' Ec' Hc'|Hlt' E' N'|Hlt' E' E2'|e2 Hr' Hw' He']; subst; try done; try lia;
  try (rewrite ?E, ?E' in *; congruence); try (destruct (W (char s)) as [W1 W2]; [auto with lia|congruence]).
  split; [done|]. apply Nat.le_antisymm.
  - destruct (decide (e <= e')%nat); [done|]. destruct He' as [He'|]; [|lia]. rewrite Hw in He' by lia. done.
  - destruct (decide (e' <= e)%nat); [done|]. destruct He as [He|]; [|lia]. rewrite Hw' in He by lia. done.
Qed.

(** ** Sequences of tokens *)

Definition tok_of (k : Z) (q e : nat) : tok := if k =? LOWER_A then Word (slice q e) else Sym k.

Inductive lex : nat -> list tok -> Prop :=
  | lex_end s : (s <= es)%nat -> skip_ws s = es -> lex s []
  | lex_cons s k e ts :
      (s <= es)%nat -> token_at (skip_ws s) k e -> k <> 0 -> lex (skip_ws e) ts ->
      lex s (tok_of k (skip_ws s) e :: ts).

Lemma lex_le s ts : lex s ts -> (s <= es)%nat.
Proof. by destruct 1. Qed.

Lemma token_at_le s k e : (s <= es)%nat -> token_at s k e -> (s <= e <= es)%nat /\ (k <> 0 -> (s < e)%nat).
Proof. destruct 2; lia. Qed.

Lemma token_at_0 s e : token_at s 0 e -> s = es.
Proof. inversion 1; subst; [done|]. done. Qed.

(** Every position has its tokens. *)
Lemma lex_exists s : (s <= es)%nat -> exists ts, lex s ts.
Proof using Hend Hnz.
  remember (es - s)%nat as n eqn:En. revert s En.
  induction (lt_wf n) as [n _ IH]. intros s -> Hs.
  destruct (gettoken_run s Hs) as (k & e & _ & Ht). pose proof (skip_ws_le s Hs).
  destruct (token_at_le _ _ _ (proj2 (skip_ws_le s Hs)) Ht) as [He Hlt].
  destruct (decide (k = 0)) as [->|Hk].
  - exists []. constructor; [done|by eapply token_at_0].
  - specialize (Hlt Hk). pose proof (skip_ws_le e (proj2 He)).
    destruct (IH (es - skip_ws e)%nat) with (s := skip_ws e) as [ts Hts]; [lia|done|lia|].
    eexists. by eapply lex_cons.
Qed.

(** The tokens are no more than the characters. *)
Lemma lex_length s ts : lex s ts -> (length ts <= es - s)%nat.
Proof.
  induction 1 as [s Hs E|s k e ts Hs Ht Hk _ IH]; [simpl; lia|]. pose proof (skip_ws_le s Hs).
  destruct (token_at_le _ _ _ (proj2 (skip_ws_le s Hs)) Ht) as [He Hlt]. specialize (Hlt Hk).
  pose proof (skip_ws_le e (proj2 He)). simpl. lia.
Qed.

Lemma lex_skip s ts : (s <= es)%nat -> lex (skip_ws s) ts <-> lex s ts.
Proof using Hend.
  intros Hs. pose proof (skip_ws_le s Hs) as Hle. pose proof (skip_ws_idem s Hs) as E. split; intros L.
  - remember (skip_ws s) as p eqn:Ep. destruct L as [p Hp Ee|p k e ts Hp Ht Hk L]; subst p.
    + constructor; congruence.
    + rewrite E in *. by apply lex_cons.
  - destruct L as [s _ Ee|s k e ts _ Ht Hk L]; [constructor; [lia|congruence]|].
    pose proof (lex_cons (skip_ws s) k e ts) as X. rewrite E in X. apply X; [lia|done..].
Qed.

(** A word occupies [q, e) and ends before the next character. *)
Definition word_at (q e : nat) : Prop :=
  (q < e <= es)%nat /\ (forall k, (q <= k < e)%nat -> is_word (char k) = true) /\
  (is_word (char e) = false \/ e = es).

Lemma gettoken_cons s t ts :
  lex s (t :: ts) -> exists k q e s', gettoken s = Done (k, q, e) s' /\ k <> 0 /\ t = tok_of k q e /\
    (k = LOWER_A -> word_at q e) /\ lex s' ts.
Proof using Hend Hnz.
  inversion 1 as [|s0 k e ts0 Hs Ht Hk L]; subst.
  destruct (gettoken_run s Hs) as (k' & e' & E & Ht').
  destruct (token_at_fun _ _ _ _ _ Ht Ht') as [<- <-].
  eexists k, _, e, _. split; [exact E|]. split; [done|]. split; [done|]. split; [|done].
  intros ->. inversion Ht; subst; try done.
Qed.

Lemma gettoken_nil s : lex s [] -> gettoken s = Done (0, es, es) es.
Proof using Hend Hnz.
  inversion 1 as [s0 Hs E|]; subst. destruct (gettoken_run s Hs) as (k & e & Eg & Ht).
  rewrite E in Ht. rewrite Eg, E. destruct Ht as [_|? ?|?|?|e He]; try lia.
  unfold Sh.skip_ws. by rewrite Nat.sub_diag.
Qed.

(** The character [peek] sees; a word starts with none of the symbols. *)
Definition headc (ts : list tok) : Z :=
  match ts with
  | [] => 0
  | Sym c :: _ => if c =? PLUS then GT else c
  | Word _ :: _ => LOWER_A
  end.

Lemma peek_run s ts toks :
  lex s ts -> toks ⊆ symbols -> exists s', peek toks s = Done (among toks (headc ts)) s' /\ lex s' ts.
Proof using Hend Hnz.
  intros L Hsub. pose proof (lex_le _ _ L) as Hs. exists (skip_ws s). split; [|by apply lex_skip].
  unfold Sh.peek. cbv zeta. f_equal.
  assert (Hno : forall c, c ∉ symbols -> among toks c = false) by (intros; apply among_false; set_solver).
  assert (H0 : among toks 0 = false) by (apply Hno; unfold symbols; set_solver).
  destruct L as [s _ E|s k e ts _ Ht Hk _]; simpl.
  { by rewrite E, Hend, H0. }
  pose proof (skip_ws_le s Hs). unfold tok_of.
  destruct Ht as [|c Hlt E Hc|Hlt E _|Hlt E _|e He Hw _]; [done| | | |].
  - assert (Hc' : c ∈ symbols) by (apply among_true in Hc; unfold symbols; set_solver).
    rewrite E. rewrite (proj2 (Z.eqb_neq c LOWER_A)) by (intros ->; done).
    rewrite (proj2 (Z.eqb_neq c PLUS)) by (intros ->; done). by rewrite (proj2 (Z.eqb_neq c 0)).
  - by rewrite E.
  - by rewrite E.
  - destruct (proj1 (is_word_spec (char (skip_ws s)))) as [_ Hns]; [apply Hw; lia|].
    rewrite (Hno _ Hns), andb_false_r. symmetry. apply Hno. by apply among_false.
Qed.

(** ** [lex] and [spells] *)

Lemma es_length : (es <= length buf)%nat.
Proof using Hnz.
  destruct (decide (es <= length buf)%nat); [done|]. destruct (Hnz (length buf)); [lia|].
  unfold Sh.char. by rewrite lookup_ge_None_2.
Qed.

Lemma slice_cons s e : (s < e <= es)%nat -> slice s e = char s :: slice (S s) e.
Proof using Hnz.
  intros Hs. pose proof es_length. unfold slice, Sh.char.
  destruct (lookup_lt_is_Some_2 buf s) as [c Hc]; [lia|]. rewrite (drop_S _ _ _ Hc), Hc.
  replace (e - s)%nat with (S (e - S s)) by lia. done.
Qed.

Lemma slice_nil s : slice s s = [].
Proof. unfold slice. by rewrite Nat.sub_diag. Qed.

Lemma slice_app q m e : (q <= m <= e)%nat -> slice q e = slice q m ++ slice m e.
Proof.
  intros Hq. unfold slice. replace (e - q)%nat with ((m - q) + (e - m))%nat by lia.
  rewrite <- take_take_drop, drop_drop. by replace (q + (m - q))%nat with m by lia.
Qed.

Lemma length_slice s e : (s <= e <= es)%nat -> length (slice s e) = (e - s)%nat.
Proof using Hnz. intros. pose proof es_length. unfold slice. rewrite length_take, length_drop. lia. Qed.

Lemma head_slice s c : (s <= es)%nat -> head (slice s es) = Some c <-> (s < es)%nat /\ char s = c.
Proof using Hnz.
  intros Hs. destruct (decide (s = es)) as [->|Hne].
  - rewrite slice_nil. simpl. split; [done|lia].
  - rewrite slice_cons by lia. simpl. split; [by intros [= <-]; split; [lia|]|by intros [_ ->]].
Qed.

Lemma slice_all (P : Z -> Prop) q e :
  (q <= e <= es)%nat -> (forall k, (q <= k < e)%nat -> P (char k)) -> Forall P (slice q e).
Proof using Hnz.
  intros Hq HP. remember (e - q)%nat as n eqn:En. revert q Hq HP En.
  induction n as [|n IH]; intros q Hq HP En.
  - replace q with e by lia. rewrite slice_nil. constructor.
  - rewrite slice_cons by lia. constructor; [apply HP; lia|]. apply IH; [lia| |lia]. intros; apply HP; lia.
Qed.

Lemma spells_ws ts w t : Forall (fun c => is_ws c = true) w -> spells ts t -> spells ts (w ++ t).
Proof. induction 1; simpl; [done|]. intros. apply sp_space; auto. Qed.

Lemma spells_skip ts s : (s <= es)%nat -> spells ts (slice (skip_ws s) es) -> spells ts (slice s es).
Proof using Hnz.
  intros Hs H. pose proof (skip_ws_le s Hs). rewrite (slice_app s (skip_ws s) es) by lia.
  apply spells_ws; [|done]. apply slice_all; [lia|]. intros k Hk.
  by apply (skip_spec is_ws (es - s) s).
Qed.

Lemma lex_spells s ts : lex s ts -> spells ts (slice s es).
Proof using Hend Hnz.
  induction 1 as [s Hs E|s k e ts Hs Ht Hk _ IH]; (apply spells_skip; [done|]).
  { rewrite E, slice_nil. constructor. }
  pose proof (skip_ws_le s Hs) as Hp. set (p := skip_ws s) in *. clearbody p.
  destruct (token_at_le _ _ _ (proj2 Hp) Ht) as [He _]. apply spells_skip in IH; [|lia].
  unfold tok_of. destruct Ht as [|c Hlt E Hc|Hlt E Hn|Hlt E E2|e He' Hw Hn]; [done|..].
  - rewrite (proj2 (Z.eqb_neq c LOWER_A)) by (intros ->; done). rewrite (slice_cons p es), E by lia. by apply sp_sym.
  - rewrite (slice_cons p es), E by lia. apply sp_gt; [|done]. rewrite head_slice by lia. tauto.
  - rewrite (slice_cons p es), (slice_cons (S p) es), E, E2 by lia. by apply sp_append.
  - rewrite (slice_app p e es) by lia. apply sp_word; [|by apply slice_all| |done].
    + rewrite slice_cons by lia. done.
    + intros c. rewrite head_slice by lia. intros [? <-]. destruct Hn; [done|lia].
Qed.

(** A token that starts at [s] itself. *)
Lemma lex_at s k e ts :
  (s <= es)%nat -> is_ws (char s) = false -> token_at s k e -> k <> 0 -> (e <= es)%nat -> lex e ts ->
  lex s (tok_of k s e :: ts).
Proof using Hend.
  intros Hs Hw Ht Hk He L. pose proof (lex_cons s k e ts) as X.
  assert (E : skip_ws s = s) by by apply skip_stop. rewrite E in X. apply X; try done. by apply lex_skip.
Qed.

Lemma spells_lex ts t : spells ts t -> forall s, (s <= es)%nat -> t = slice s es -> lex s ts.
Proof using Hend Hnz.
  assert (Hc : forall s c t, (s <= es)%nat -> c :: t = slice s es ->
    (s < es)%nat /\ char s = c /\ t = slice (S s) es).
  { intros s c t' Hs E. destruct (decide (s = es)) as [->|]; [by rewrite slice_nil in E|].
    rewrite slice_cons in E by lia. injection E as -> ->. split; [lia|done]. }
  induction 1 as [|c ts t Hw _ IH|c ts t Ha _ IH|ts t Hh _ IH|ts t _ IH|x ts t Hx Hw Hh _ IH]; intros s Hs E.
  - assert (s = es) as ->. { apply (f_equal length) in E. rewrite length_slice in E by lia. simpl in E. lia. }
    constructor; [done|]. unfold Sh.skip_ws. by rewrite Nat.sub_diag.
  - destruct (Hc _ _ _ Hs E) as (Hlt & Ec & Et). apply lex_skip; [done|].
    rewrite skip_ws_step by (done || by rewrite Ec). apply lex_skip; [lia|]. by apply IH.
  - destruct (Hc _ _ _ Hs E) as (Hlt & Ec & Et).
    assert (Hk : c <> LOWER_A /\ c <> 0 /\ is_ws c = false).
    { apply among_true in Ha. clear -Ha. set_unfold. naive_solver. }
    destruct Hk as (K1 & K2 & K3). pose proof (lex_at s c (S s) ts) as X. unfold tok_of in X.
    rewrite (proj2 (Z.eqb_neq c LOWER_A)) in X by done. rewrite Ec in X.
    apply X; [done|done|by apply at_sym|done|lia|apply IH; [lia|done]].
  - destruct (Hc _ _ _ Hs E) as (Hlt & Ec & Et). rewrite Et, head_slice in Hh by lia.
    apply (lex_at s GT (S s) ts); [done|by rewrite Ec| |done|lia|apply IH; [lia|done]].
    apply at_gt; [done|done|]. intros E2. apply Hh. split; [|done]. apply char_lt; [lia|by rewrite E2].
  - destruct (Hc _ _ _ Hs E) as (Hlt & Ec & Et). destruct (Hc _ _ _ (ltac:(lia) : (S s <= es)%nat) Et) as (Hlt2 & Ec2 & Et2).
    apply (lex_at s PLUS (S (S s)) ts); [done|by rewrite Ec|by apply at_append|done|lia|apply IH; [lia|done]].
  - set (e := (s + length x)%nat).
    assert (Hl : (length x + length t = es - s)%nat) by (rewrite <- length_slice, <- E, length_app by lia; done).
    rewrite (slice_app s e es) in E by (unfold e; lia).
    apply app_inj_1 in E as [Ex Et]; [|rewrite length_slice by (unfold e; lia); unfold e; lia].
    assert (Hlen : (0 < length x)%nat) by (destruct x; [done|simpl; lia]).
    assert (Hwk : forall k, (s <= k < e)%nat -> is_word (char k) = true).
    { intros k Hk. rewrite Ex in Hw. rewrite (slice_app s k) in Hw by lia.
      rewrite (slice_cons k) in Hw by (unfold e in *; lia). apply Forall_app in Hw as [_ Hw]. by inversion Hw. }
    rewrite Ex. apply (lex_at s LOWER_A e ts); [done| | |done|unfold e; lia|apply IH; [unfold e; lia|done]].
    + apply (is_word_spec (char s)), Hwk. unfold e. lia.
    + apply at_word; [unfold e; lia|done|]. destruct (decide (e = es)) as [|Hne]; [by right|left].
      apply Hh. rewrite Et, head_slice by (unfold e in *; lia). split; [unfold e in *; lia|done].
Qed.
End Lex.
