(* ===== verification/ShSpec.v ===== *)
(** * The language of the shell

    The grammar of command lines with the command each of them stands for, and the
    parser against it: it accepts exactly the texts of the grammar and builds the command
    they stand for, and it always comes to an end. *)

From stdpp Require Import base tactics numbers list sets strings.
From Stdlib Require Import ZArith Lia ZifyNat.
From S2P Require Import Prelude Layout Sh ShLex.

(** ** The grammar *)

Inductive rop := Less | Greater | Append.

Inductive item :=
  | Arg (x : list Z)
  | Redirect (r : rop) (file : list Z).

(** [Line p n]: a pipeline followed by [n] ampersands. *)
Inductive line :=
  | Line (p : pipeline) (n : nat)
  | Seq (p : pipeline) (n : nat) (rest : line)
with pipeline :=
  | One (e : command)
  | Into (e : command) (rest : pipeline)
with command :=
  | Simple (items : list item)
  | Block (l : line) (rs : list (rop * list Z)).

Scheme line_mind := Induction for line Sort Prop
  with pipeline_mind := Induction for pipeline Sort Prop
  with command_mind := Induction for command Sort Prop.
Combined Scheme grammar_ind from line_mind, pipeline_mind, command_mind.

Definition rop_tok (r : rop) : tok := Sym (match r with Less => LT | Greater => GT | Append => PLUS end).
Definition redir_toks (r : rop * list Z) : list tok := [rop_tok (fst r); Word (snd r)].
Definition item_toks (i : item) : list tok :=
  match i with Arg x => [Word x] | Redirect r f => redir_toks (r, f) end.

Fixpoint line_toks (l : line) : list tok :=
  match l with
  | Line p n => pipe_toks p ++ replicate n (Sym AMP)
  | Seq p n l => pipe_toks p ++ replicate n (Sym AMP) ++ Sym SEMI :: line_toks l
  end
with pipe_toks (p : pipeline) : list tok :=
  match p with
  | One e => command_toks e
  | Into e p => command_toks e ++ Sym BAR :: pipe_toks p
  end
with command_toks (e : command) : list tok :=
  match e with
  | Simple items => mbind item_toks items
  | Block l rs => Sym LPAREN :: line_toks l ++ Sym RPAREN :: mbind redir_toks rs
  end.

(** A simple command has fewer than [MAXARGS] arguments. *)
Definition is_arg (i : item) : bool := match i with Arg _ => true | _ => false end.
Definition nargs (items : list item) : nat := length (filter (fun i => is_arg i = true) items).
Fixpoint wf_line (l : line) : bool :=
  match l with
  | Line p _ => wf_pipe p
  | Seq p _ l => wf_pipe p && wf_line l
  end
with wf_pipe (p : pipeline) : bool :=
  match p with
  | One e => wf_command e
  | Into e p => wf_command e && wf_pipe p
  end
with wf_command (e : command) : bool :=
  match e with
  | Simple items => (nargs items <? MAXARGS)%nat
  | Block l _ => wf_line l
  end.

(** ** Commands with their strings *)

Inductive scmd :=
  | SExec (args : list (list Z))
  | SRedir (c : scmd) (file : list Z) (mode fd : Z)
  | SPipe (left right : scmd)
  | SList (left right : scmd)
  | SBack (c : scmd).

(** The strings of a command, given the string between two positions. *)
Fixpoint strings_of (str : nat -> nat -> list Z) (c : cmd) : scmd :=
  match c with
  | EXEC args => SExec ((fun a => str (fst a) (snd a)) <$> args)
  | REDIR c q e mode fd => SRedir (strings_of str c) (str q e) mode fd
  | PIPE l r => SPipe (strings_of str l) (strings_of str r)
  | LIST l r => SList (strings_of str l) (strings_of str r)
  | BACK c => SBack (strings_of str c)
  end.

Fixpoint add_sarg (x : list Z) (c : scmd) : scmd :=
  match c with
  | SExec args => SExec (args ++ [x])
  | SRedir c file mode fd => SRedir (add_sarg x c) file mode fd
  | c => c
  end.

Definition redirect (c : scmd) (r : rop) (file : list Z) : scmd :=
  match r with Less => SRedir c file O_RDONLY 0 | _ => SRedir c file (Z.lor O_WRONLY O_CREATE) 1 end.
Definition apply_item (c : scmd) (i : item) : scmd :=
  match i with Arg x => add_sarg x c | Redirect r f => redirect c r f end.
Definition backs (n : nat) (c : scmd) : scmd := Nat.iter n SBack c.

(** What a command line means. The last redirection is the outermost command. *)
Fixpoint line_cmd (l : line) : scmd :=
  match l with
  | Line p n => backs n (pipe_cmd p)
  | Seq p n l => SList (backs n (pipe_cmd p)) (line_cmd l)
  end
with pipe_cmd (p : pipeline) : scmd :=
  match p with
  | One e => command_cmd e
  | Into e p => SPipe (command_cmd e) (pipe_cmd p)
  end
with command_cmd (e : command) : scmd :=
  match e with
  | Simple items => foldl apply_item (SExec []) items
  | Block l rs => foldl (fun c r => redirect c (fst r) (snd r)) (line_cmd l) rs
  end.

Lemma strings_add_arg str q e c : strings_of str (add_arg (q, e) c) = add_sarg (str q e) (strings_of str c).
Proof. induction c; simpl; try done; [by rewrite fmap_app|by f_equal]. Qed.

(** The positions in a command. *)
Fixpoint spans (c : cmd) : list (nat * nat) :=
  match c with
  | EXEC args => args
  | REDIR c q e _ _ => (q, e) :: spans c
  | PIPE l r | LIST l r => spans l ++ spans r
  | BACK c => spans c
  end.

Lemma spans_add_arg a c x : x ∈ spans (add_arg a c) -> x = a \/ x ∈ spans c.
Proof. induction c; simpl; set_solver. Qed.

(** ** Soundness and termination *)

(** [m] does not run out of fuel, and when it returns then with [Q]. *)
Definition runs {A} (m : M nat A) (s : nat) (Q : A -> nat -> Prop) : Prop :=
  match m s with Done a s' => Q a s' | Panic _ => True | Blocked _ => False end.

Lemma runs_bind {A B} (m : M nat A) (k : A -> M nat B) s P Q :
  runs m s P -> (forall a s', P a s' -> runs (k a) s' Q) -> runs (m_bind m k) s Q.
Proof. unfold runs, m_bind. destruct (m s); intros H1 H2; [exact (H2 _ _ H1)|done..]. Qed.

Lemma runs_Done {A B} (m : M nat A) (k : A -> M nat B) s a s' Q :
  m s = Done a s' -> runs (k a) s' Q -> runs (m_bind m k) s Q.
Proof. unfold runs, m_bind. by intros ->. Qed.

Lemma runs_mono {A} (m : M nat A) s (P Q : A -> nat -> Prop) :
  runs m s P -> (forall a s', P a s' -> Q a s') -> runs m s Q.
Proof. unfold runs. destruct (m s); intros; by auto. Qed.

Lemma redir_as_items rs :
  let items := (fun r => Redirect (fst r) (snd r)) <$> rs in
  mbind redir_toks rs = mbind item_toks items /\ nargs items = 0%nat /\
  forall c, foldl (fun c r => redirect c (fst r) (snd r)) c rs = foldl apply_item c items.
Proof.
  induction rs as [|[r f] rs (IH1 & IH2 & IH3)]; [done|]. simpl. split; [by f_equal; f_equal|].
  split; [done|]. intros c. apply IH3.
Qed.

Lemma nargs_app l l' : nargs (l ++ l') = (nargs l + nargs l')%nat.
Proof. unfold nargs. by rewrite filter_app, length_app. Qed.

Lemma headc_redir ts : among [LT; GT] (headc ts) = true -> exists r ts', ts = rop_tok r :: ts'.
Proof.
  intros H%among_true. destruct ts as [|[c|x] ts]; simpl in H; [set_solver| |set_solver].
  destruct (Z.eqb_spec c PLUS) as [->|]; [by exists Append, ts|].
  assert (c = LT \/ c = GT) as [-> | ->] by set_solver; [by exists Less, ts|by exists Greater, ts].
Qed.

Lemma headc_sym ts c : among [c] (headc ts) = true -> c ∈ [AMP; SEMI; BAR; LPAREN; RPAREN] ->
  exists ts', ts = Sym c :: ts'.
Proof.
  intros H%among_true Hc. assert (E : headc ts = c) by set_solver. clear H. unfold headc in E.
  destruct ts as [|[d|x] ts]; [|destruct (Z.eqb_spec d PLUS)|]; subst; try (exfalso; set_solver). by exists ts.
Qed.

Section Sound.
Variable buf : list Z.
Variable es : nat.
Hypothesis Hend : char buf es = 0.
Hypothesis Hnz : forall s, (s < es)%nat -> char buf s <> 0.
Abbreviation lex := (lex buf es).
Abbreviation strs := (strings_of (slice buf)).

Definition good (c : cmd) : Prop := Forall (fun a => word_at buf es (fst a) (snd a)) (spans c).

(** What a parsing function leaves: a command with the strings [x], and the tokens [rest]. *)
Definition leaves (x : scmd) (rest : list tok) (c : cmd) (s' : nat) : Prop :=
  lex s' rest /\ good c /\ strs c = x.

Lemma runs_peek {B} toks (k : bool -> M nat B) s ts Q :
  lex s ts -> toks ⊆ symbols -> (forall s', lex s' ts -> runs (k (among toks (headc ts))) s' Q) ->
  runs (m_bind (peek buf es toks) k) s Q.
Proof using Hend Hnz.
  intros L Hsub Hk. destruct (peek_run buf es Hend Hnz s ts toks L Hsub) as (s' & E & L').
  eapply runs_Done; [exact E|auto].
Qed.

Lemma runs_token {B} (k : Z * nat * nat -> M nat B) s t ts Q :
  lex s (t :: ts) ->
  (forall x q e s', t = tok_of buf x q e -> x <> 0 -> (x = LOWER_A -> word_at buf es q e) -> lex s' ts ->
     runs (k (x, q, e)) s' Q) ->
  runs (m_bind (gettoken buf es) k) s Q.
Proof using Hend Hnz.
  intros L Hk. destruct (gettoken_cons buf es Hend Hnz s t ts L) as (x & q & e & s' & E & Hx & Et & Hw & L').
  eapply runs_Done; [exact E|]. by apply Hk.
Qed.

Lemma tok_of_sym x q e c : Sym c = tok_of buf x q e -> x = c /\ x <> LOWER_A.
Proof. unfold tok_of. destruct (Z.eqb_spec x LOWER_A); [done|]. by intros [= ->]. Qed.

Lemma toks_le s ts : lex s ts -> (length ts < S es)%nat.
Proof. intros L%lex_length. lia. Qed.

Lemma redirs_sound k : forall c s ts, lex s ts -> (length ts < k)%nat -> good c ->
  runs (redirs_loop buf es k c) s (fun c' s' => exists rs rest, ts = mbind redir_toks rs ++ rest /\
    leaves (foldl (fun c r => redirect c (fst r) (snd r)) (strs c) rs) rest c' s').
Proof using Hend Hnz.
  induction k as [|k IH]; intros c s ts L Hk Hg; [lia|]. simpl. eapply runs_peek; [exact L|unfold symbols; set_solver|].
  clear s L. intros s L. destruct (among [LT; GT] (headc ts)) eqn:E; simpl negb; cbv iota.
  2: { exists [], ts. by split. }
  destruct (headc_redir _ E) as (r & ts' & ->). clear E. eapply runs_token; [exact L|].
  clear s L. intros x q e s Ex _ _ L. destruct ts' as [|t ts'].
  { eapply runs_Done; [exact (gettoken_nil buf es Hend Hnz s L)|]. done. }
  eapply runs_token; [exact L|]. clear s L. intros x' q' e' s Ex' _ Hw L.
  destruct (Z.eqb_spec x' LOWER_A) as [->|]; simpl negb; cbv iota; [|done].
  apply tok_of_sym in Ex as [-> _]. unfold tok_of in Ex'. simpl in Ex'. specialize (Hw eq_refl).
  eapply runs_mono; [apply (IH _ s ts'); [done|simpl in Hk; lia|]|].
  - destruct r; simpl; constructor; done.
  - intros c' s' (rs & rest & -> & Hl). exists ((r, slice buf q' e') :: rs), rest.
    split; [by rewrite Ex'|]. by destruct r.
Qed.

Lemma length_suffix {A} (l l' r : list A) : l = l' ++ r -> (length r <= length l)%nat.
Proof. intros ->. rewrite length_app. lia. Qed.

Lemma args_sound k : forall argc c s ts, lex s ts -> (length ts < k)%nat -> good c -> (argc < MAXARGS)%nat ->
  runs (args_loop buf es k argc c) s (fun c' s' => exists items rest, ts = mbind item_toks items ++ rest /\
    (argc + nargs items < MAXARGS)%nat /\ leaves (foldl apply_item (strs c) items) rest c' s').
Proof using Hend Hnz.
  induction k as [|k IH]; intros argc c s ts L Hk Hg Ha; [lia|]. cbn [args_loop].
  assert (Hdone : forall s', lex s' ts -> runs (m_ret c) s' (fun c' s' => exists items rest,
    ts = mbind item_toks items ++ rest /\ (argc + nargs items < MAXARGS)%nat /\
    leaves (foldl apply_item (strs c) items) rest c' s')).
  { intros s' L'. exists [], ts. split; [done|]. split; [unfold nargs; simpl; lia|done]. }
  eapply runs_peek; [exact L|unfold symbols; set_solver|]. clear s L. intros s L.
  destruct (among _ (headc ts)); [by apply Hdone|]. destruct ts as [|t ts].
  { eapply runs_Done; [exact (gettoken_nil buf es Hend Hnz s L)|]. apply Hdone. apply lex_end; [done|].
    unfold skip_ws. by rewrite Nat.sub_diag. }
  eapply runs_token; [exact L|]. clear s L. intros x q e s Ex Hx Hw L. rewrite (proj2 (Z.eqb_neq _ _) Hx).
  destruct (Z.eqb_spec x LOWER_A) as [->|]; simpl negb; cbv iota; [|done]. specialize (Hw eq_refl).
  destruct (Nat.leb_spec MAXARGS (S argc)); [done|]. pose proof (toks_le _ _ L).
  eapply runs_bind; [apply (redirs_sound _ _ s ts L)|].
  - lia.
  - apply Forall_forall. intros a [->|Ha']%spans_add_arg; [done|]. by apply (proj1 (Forall_forall _ _) Hg).
  - intros c1 s1 (rs & rest & -> & L1 & Hg1 & E1). destruct (redir_as_items rs) as (R1 & R2 & R3).
    eapply runs_mono; [apply (IH (S argc) c1 s1 rest L1); [|done|lia]|].
    + simpl in Hk. rewrite length_app in Hk. lia.
    + intros c' s' (items & rest' & -> & Hn & Hl).
      exists (Arg (slice buf q e) :: ((fun r => Redirect (fst r) (snd r)) <$> rs) ++ items), rest'.
      unfold tok_of in Ex. simpl in Ex. split; [|split].
      * rewrite Ex. simpl. by rewrite bind_app, <- R1, app_assoc.
      * rewrite (nargs_app [Arg _] (_ ++ _) : nargs (Arg _ :: _ ++ _) = _), nargs_app, R2. unfold nargs at 1. simpl. lia.
      * rewrite E1, strings_add_arg in Hl. simpl. rewrite foldl_app, <- R3. exact Hl.
Qed.

(** [peek] for one symbol and, when it is there, [gettoken]. *)
Lemma runs_peek_sym {B} c (yes no : M nat B) s ts Q :
  lex s ts -> c ∈ [AMP; SEMI; BAR; LPAREN; RPAREN] ->
  (forall s' ts', ts = Sym c :: ts' -> lex s' ts' -> runs yes s' Q) ->
  (forall s', lex s' ts -> runs no s' Q) ->
  runs (let! b := peek buf es [c] in if b then gettoken buf es ;;; yes else no) s Q.
Proof using Hend Hnz.
  intros L Hc Hy Hn. eapply runs_peek; [exact L|unfold symbols; set_solver|]. clear s L. intros s L.
  destruct (among [c] (headc ts)) eqn:E; [|auto]. destruct (headc_sym _ _ E Hc) as [ts' ->].
  eapply runs_token; [exact L|]. intros. by eapply Hy.
Qed.

Lemma backs_sound k : forall c s ts, lex s ts -> (length ts < k)%nat -> good c ->
  runs (backs_loop buf es k c) s (fun c' s' => exists n rest, ts = replicate n (Sym AMP) ++ rest /\
    leaves (backs n (strs c)) rest c' s').
Proof using Hend Hnz.
  induction k as [|k IH]; intros c s ts L Hk Hg; [lia|]. cbn [backs_loop].
  eapply runs_peek_sym; [exact L|set_solver| |].
  2: { intros s' L'. exists 0%nat, ts. by split. }
  clear s L. intros s ts' -> L.
  eapply runs_mono; [apply (IH _ s ts' L); [simpl in Hk; lia|done]|].
  intros c' s' (n & rest & -> & Hl). exists (S n), rest. split; [done|].
  unfold backs in *. rewrite Nat.iter_succ_r. exact Hl.
Qed.

(** [m] parses a phrase of the grammar at the front of [ts]. *)
Definition sound {G} (m : M nat cmd) (toks : G -> list tok) (wf : G -> bool) (den : G -> scmd) s ts : Prop :=
  runs m s (fun c s' => exists g rest, ts = toks g ++ rest /\ wf g = true /\ leaves (den g) rest c s').

Definition line_sound fuel : Prop := forall s ts, lex s ts -> (4 * length ts + 4 <= fuel)%nat ->
  sound (parseline buf es fuel) line_toks wf_line line_cmd s ts.
Definition pipe_sound fuel : Prop := forall s ts, lex s ts -> (4 * length ts + 3 <= fuel)%nat ->
  sound (parsepipe buf es fuel) pipe_toks wf_pipe pipe_cmd s ts.
Definition exec_sound fuel : Prop := forall s ts, lex s ts -> (4 * length ts + 2 <= fuel)%nat ->
  sound (parseexec buf es fuel) command_toks wf_command command_cmd s ts.
Definition block_sound fuel : Prop := forall s ts, lex s ts -> (4 * length ts + 1 <= fuel)%nat ->
  sound (parseblock buf es fuel) command_toks wf_command command_cmd s ts.

Lemma line_step fuel : line_sound fuel -> pipe_sound fuel -> line_sound (S fuel).
Proof using Hend Hnz.
  intros IHl IHp s ts L Hf. unfold sound. cbn [parseline]. eapply runs_bind; [apply (IHp s ts L); lia|]. clear s L.
  intros c s (p & rest & -> & Hp & L & Hg & E). rewrite length_app in Hf. pose proof (toks_le _ _ L).
  eapply runs_bind; [apply (backs_sound _ _ s rest L); [lia|done]|]. clear s L.
  intros c1 s (n & rest1 & -> & L & Hg1 & E1). rewrite length_app in Hf. rewrite E in E1.
  eapply runs_peek_sym; [exact L|set_solver| |].
  - clear s L. intros s ts' -> L. simpl in Hf. eapply runs_bind; [apply (IHl s ts' L); lia|].
    intros c2 s2 (l & rest2 & -> & Hl & L2 & Hg2 & E2). exists (Seq p n l), rest2.
    split; [simpl; by rewrite <- !app_assoc|]. split; [simpl; by rewrite Hp, Hl|].
    split; [done|]. split; [by apply Forall_app|]. simpl. congruence.
  - intros s' L'. exists (Line p n), rest1. split; [|done]. simpl. by rewrite <- app_assoc.
Qed.

Lemma pipe_step fuel : pipe_sound fuel -> exec_sound fuel -> pipe_sound (S fuel).
Proof using Hend Hnz.
  intros IHp IHe s ts L Hf. unfold sound. cbn [parsepipe]. eapply runs_bind; [apply (IHe s ts L); lia|]. clear s L.
  intros c s (e & rest & -> & Hp & L & Hg & E). rewrite length_app in Hf.
  eapply runs_peek_sym; [exact L|set_solver| |].
  - clear s L. intros s ts' -> L. simpl in Hf. eapply runs_bind; [apply (IHp s ts' L); lia|].
    intros c2 s2 (p & rest2 & -> & Hl & L2 & Hg2 & E2). exists (Into e p), rest2.
    split; [simpl; by rewrite <- !app_assoc|]. split; [simpl; by rewrite Hp, Hl|].
    split; [done|]. split; [by apply Forall_app|]. simpl. congruence.
  - intros s' L'. by exists (One e), rest.
Qed.

Lemma exec_step fuel : block_sound fuel -> exec_sound (S fuel).
Proof using Hend Hnz.
  intros IHb s ts L Hf. unfold sound. cbn [parseexec]. eapply runs_peek; [exact L|unfold symbols; set_solver|].
  clear s L. intros s L. destruct (among [LPAREN] (headc ts)); [apply (IHb s ts L); lia|].
  pose proof (toks_le _ _ L).
  eapply runs_bind; [apply (redirs_sound _ (EXEC []) s ts L); [lia|constructor]|]. clear s L.
  intros c s (rs & rest & -> & L & Hg & E). destruct (redir_as_items rs) as (R1 & R2 & R3).
  pose proof (toks_le _ _ L).
  eapply runs_mono; [apply (args_sound _ 0 c s rest L); [lia|done|unfold MAXARGS; lia]|].
  intros c' s' (items & rest' & -> & Hn & Hl).
  exists (Simple (((fun r => Redirect (fst r) (snd r)) <$> rs) ++ items)), rest'. split; [|split].
  - simpl. by rewrite bind_app, <- R1, app_assoc.
  - cbn [wf_command]. rewrite nargs_app, R2. apply Nat.ltb_lt. lia.
  - simpl. rewrite foldl_app, <- R3. rewrite E in Hl. exact Hl.
Qed.

Lemma block_step fuel : line_sound fuel -> block_sound (S fuel).
Proof using Hend Hnz.
  intros IHl s ts L Hf. unfold sound. cbn [parseblock]. eapply runs_peek; [exact L|unfold symbols; set_solver|].
  clear s L. intros s L. destruct (among [LPAREN] (headc ts)) eqn:E1; simpl negb; cbv iota; [|done].
  destruct (headc_sym _ _ E1 ltac:(set_solver)) as [ts' ->]. simpl in Hf. eapply runs_token; [exact L|].
  clear s L. intros x q e s _ _ _ L. eapply runs_bind; [apply (IHl s ts' L); lia|]. clear s L.
  intros c s (l & rest & -> & Hl & L & Hg & E). eapply runs_peek; [exact L|unfold symbols; set_solver|].
  clear s L. intros s L. destruct (among [RPAREN] (headc rest)) eqn:E2; simpl negb; cbv iota; [|done].
  destruct (headc_sym _ _ E2 ltac:(set_solver)) as [ts' ->]. eapply runs_token; [exact L|].
  clear s L. intros x' q' e' s _ _ _ L. pose proof (toks_le _ _ L).
  eapply runs_mono; [apply (redirs_sound _ c s ts' L); [lia|done]|].
  intros c' s' (rs & rest' & -> & Hlv). exists (Block l rs), rest'. split; [|split; [done|]].
  - simpl. by rewrite <- app_assoc.
  - simpl. by rewrite <- E.
Qed.

Lemma parse_sound fuel : line_sound fuel /\ pipe_sound fuel /\ exec_sound fuel /\ block_sound fuel.
Proof using Hend Hnz.
  induction fuel as [|fuel (IHl & IHp & IHe & IHb)]; [split; [|split; [|split]]; intros s ts L Hf; lia|].
  auto using line_step, pipe_step, exec_step, block_step.
Qed.

(** ** Completeness *)

Lemma returns_peek {B} toks (k : bool -> M nat B) s ts Q :
  lex s ts -> toks ⊆ symbols -> (forall s', lex s' ts -> returns (k (among toks (headc ts))) s' Q) ->
  returns (m_bind (peek buf es toks) k) s Q.
Proof using Hend Hnz.
  intros L Hsub Hk. destruct (peek_run buf es Hend Hnz s ts toks L Hsub) as (s' & E & L').
  eapply returns_Done; [exact E|auto].
Qed.

Lemma returns_sym {B} c (k : Z * nat * nat -> M nat B) s ts Q :
  lex s (Sym c :: ts) -> (forall q e s', lex s' ts -> returns (k (c, q, e)) s' Q) ->
  returns (m_bind (gettoken buf es) k) s Q.
Proof using Hend Hnz.
  intros L Hk. destruct (gettoken_cons buf es Hend Hnz s _ ts L) as (x & q & e & s' & E & _ & Et & _ & L').
  apply tok_of_sym in Et as [-> _]. eapply returns_Done; [exact E|auto].
Qed.

Lemma returns_word {B} w (k : Z * nat * nat -> M nat B) s ts Q :
  lex s (Word w :: ts) ->
  (forall q e s', w = slice buf q e -> word_at buf es q e -> lex s' ts -> returns (k (LOWER_A, q, e)) s' Q) ->
  returns (m_bind (gettoken buf es) k) s Q.
Proof using Hend Hnz.
  intros L Hk. destruct (gettoken_cons buf es Hend Hnz s _ ts L) as (x & q & e & s' & E & _ & Et & Hw & L').
  unfold tok_of in Et. destruct (Z.eqb_spec x LOWER_A) as [->|]; [|done]. injection Et as Ew.
  eapply returns_Done; [exact E|]. by apply Hk; [|apply Hw|].
Qed.

(** The tokens that may follow a phrase. *)
Definition follow (cs : list Z) (rest : list tok) : Prop :=
  match rest with [] => True | Sym c :: _ => c ∈ cs | Word _ :: _ => False end.

Lemma follow_mono cs cs' rest : cs ⊆ cs' -> follow cs rest -> follow cs' rest.
Proof. destruct rest as [|[]]; simpl; set_solver. Qed.

Lemma follow_headc cs toks rest :
  follow cs rest -> forallb (fun c => negb (among toks c) && negb (c =? PLUS)) (0 :: cs) = true ->
  among toks (headc rest) = false.
Proof.
  intros Hf Hall. rewrite forallb_forall in Hall.
  assert (H : forall c, c ∈ 0 :: cs -> among toks c = false /\ (c =? PLUS) = false).
  { intros c Hc%list_elem_of_In. specialize (Hall c Hc). by destruct (among toks c), (c =? PLUS). }
  destruct rest as [|[c|] rest]; simpl in *; [apply H; set_solver| |done].
  destruct (H c) as [H1 ->]; [set_solver|]. done.
Qed.

Lemma redirs_complete rs : forall k c s rest,
  lex s (mbind redir_toks rs ++ rest) -> (length (mbind redir_toks rs ++ rest) < k)%nat -> good c ->
  among [LT; GT] (headc rest) = false ->
  returns (redirs_loop buf es k c) s
    (leaves (foldl (fun c r => redirect c (fst r) (snd r)) (strs c) rs) rest).
Proof using Hend Hnz.
  induction rs as [|[r w] rs IH]; intros [|k] c s rest L Hk Hg Hh; try (simpl in Hk; lia);
    cbn [redirs_loop]; (eapply returns_peek; [exact L|unfold symbols; set_solver|]); clear s L; intros s L.
  - simpl. rewrite Hh. by apply returns_ret.
  - replace (among _ _) with true by by destruct r. simpl negb. cbv iota.
    eapply returns_sym; [exact L|]. clear s L. intros q e s L.
    eapply returns_word; [exact L|]. clear s L. intros q' e' s Ew Hw L. simpl in Ew. subst w. simpl negb. cbv iota.
    eapply returns_mono; [apply (IH k); [exact L|rewrite bind_cons in Hk; cbn in Hk; lia| |done]|].
    + destruct r; simpl; by constructor.
    + intros c' s' Hl. by destruct r.
Qed.

Lemma split_items items : exists rs items', items = ((fun r => Redirect (fst r) (snd r)) <$> rs) ++ items' /\
  (items' = [] \/ exists x l, items' = Arg x :: l).
Proof.
  induction items as [|[x|r f] items (rs & items' & E & H)].
  - exists [], []. split; [done|by left].
  - exists [], (Arg x :: items). split; [done|]. right. by exists x, items.
  - exists ((r, f) :: rs), items'. by rewrite E.
Qed.

Lemma item_redir_headc items rest :
  follow [BAR; RPAREN; AMP; SEMI] rest -> (items = [] \/ exists x l, items = Arg x :: l) ->
  among [LT; GT] (headc (mbind item_toks items ++ rest)) = false.
Proof. intros Hf [->|(x & l & ->)]; [|done]. by eapply follow_headc. Qed.

Lemma args_complete k : forall argc c s items rest,
  lex s (mbind item_toks items ++ rest) -> (length (mbind item_toks items ++ rest) < k)%nat -> good c ->
  (argc + nargs items < MAXARGS)%nat -> follow [BAR; RPAREN; AMP; SEMI] rest ->
  (items = [] \/ exists x l, items = Arg x :: l) ->
  returns (args_loop buf es k argc c) s (leaves (foldl apply_item (strs c) items) rest).
Proof using Hend Hnz.
  induction k as [|k IH]; intros argc c s items rest L Hk Hg Ha Hf Hit; [lia|]. cbn [args_loop].
  eapply returns_peek; [exact L|unfold symbols; set_solver|]. clear s L. intros s L.
  destruct Hit as [->|(x & l & ->)].
  - destruct rest as [|[d|] rest]; [|simpl in Hf|done].
    + eapply returns_Done; [exact (gettoken_nil buf es Hend Hnz s L)|]. apply returns_ret. split; [|done].
      apply lex_end; [done|]. unfold skip_ws. by rewrite Nat.sub_diag.
    + replace (among _ _) with true; [by apply returns_ret|]. symmetry. apply among_true. simpl.
      destruct (Z.eqb_spec d PLUS) as [->|]; [|done]. exfalso. set_solver.
  - simpl among. destruct (split_items l) as (rs & l' & -> & Hl'). destruct (redir_as_items rs) as (R1 & R2 & R3).
    rewrite bind_cons, <- app_assoc in L, Hk. rewrite bind_app, <- R1, <- app_assoc in L, Hk.
    eapply returns_word; [exact L|]. clear s L. intros q e s -> Hw L. simpl negb. cbv iota.
    rewrite (nargs_app [Arg _] (_ ++ _) : nargs (Arg _ :: _ ++ _) = _), nargs_app, R2 in Ha.
    unfold nargs at 1 in Ha. simpl in Ha. rewrite (proj2 (Nat.leb_gt _ _)) by lia.
    rstep redirs_complete; [exact L|exact (toks_le _ _ L)| |by apply item_redir_headc|].
    { apply Forall_forall. intros a [->|Ha']%spans_add_arg; [done|]. by apply (proj1 (Forall_forall _ _) Hg). }
    intros c1 s1 (L1 & Hg1 & E1). rewrite strings_add_arg in E1.
    eapply returns_mono; [apply (IH (S argc) c1 s1 l' rest L1); try done|].
    + rewrite !length_app in *. simpl in Hk. lia.
    + lia.
    + intros c' s'. rewrite E1. simpl foldl. by rewrite foldl_app, <- R3.
Qed.

Lemma backs_complete n : forall k c s rest,
  lex s (replicate n (Sym AMP) ++ rest) -> (length (replicate n (Sym AMP) ++ rest) < k)%nat -> good c ->
  among [AMP] (headc rest) = false ->
  returns (backs_loop buf es k c) s (leaves (backs n (strs c)) rest).
Proof using Hend Hnz.
  induction n as [|n IH]; intros [|k] c s rest L Hk Hg Hh; try lia; cbn [backs_loop];
    (eapply returns_peek; [exact L|unfold symbols; set_solver|]); clear s L; intros s L; simpl replicate in *.
  - simpl. rewrite Hh. by apply returns_ret.
  - replace (among _ _) with true by done. eapply returns_sym; [exact L|]. clear s L. intros q e s L.
    eapply returns_mono; [apply (IH k (BACK c) s rest L); [simpl in Hk; lia|done|done]|].
    intros c' s'. unfold backs. by rewrite Nat.iter_succ_r.
Qed.

Definition line_complete l : Prop := forall fuel s rest, wf_line l = true ->
  lex s (line_toks l ++ rest) -> follow [RPAREN] rest -> (4 * length (line_toks l ++ rest) + 4 <= fuel)%nat ->
  returns (parseline buf es fuel) s (leaves (line_cmd l) rest).
Definition pipe_complete p : Prop := forall fuel s rest, wf_pipe p = true ->
  lex s (pipe_toks p ++ rest) -> follow [RPAREN; AMP; SEMI] rest ->
  (4 * length (pipe_toks p ++ rest) + 3 <= fuel)%nat ->
  returns (parsepipe buf es fuel) s (leaves (pipe_cmd p) rest).
Definition command_complete e : Prop := forall fuel s rest, wf_command e = true ->
  lex s (command_toks e ++ rest) -> follow [BAR; RPAREN; AMP; SEMI] rest ->
  (4 * length (command_toks e ++ rest) + 2 <= fuel)%nat ->
  returns (parseexec buf es fuel) s (leaves (command_cmd e) rest).

Lemma follow_backs cs n rest : AMP ∈ cs -> follow cs rest -> follow cs (replicate n (Sym AMP) ++ rest).
Proof. destruct n; simpl; [done|]. done. Qed.

(** A pipeline and its ampersands, before [rest]. *)
Lemma line_front p n {B} (k : cmd -> M nat B) fuel s rest Q :
  pipe_complete p -> wf_pipe p = true -> lex s (pipe_toks p ++ replicate n (Sym AMP) ++ rest) ->
  follow [RPAREN; SEMI] rest -> (4 * length (pipe_toks p ++ replicate n (Sym AMP) ++ rest) + 3 <= fuel)%nat ->
  (forall c s', leaves (backs n (pipe_cmd p)) rest c s' -> returns (k c) s' Q) ->
  returns (let! c := parsepipe buf es fuel in let! c := backs_loop buf es (S es) c in k c) s Q.
Proof using Hend Hnz.
  intros IHp Hp L Hf Hfuel Hk. rstep (IHp fuel s (replicate n (Sym AMP) ++ rest) Hp L); [|done|].
  { apply follow_backs; [set_solver|]. by eapply follow_mono; [|done]; set_solver. }
  intros c s1 (L1 & Hg & E). rstep backs_complete; [exact L1|exact (toks_le _ _ L1)|done|by eapply follow_headc|].
  intros c1 s2. rewrite E. apply Hk.
Qed.

Lemma simple_complete items : command_complete (Simple items).
Proof using Hend Hnz.
  intros [|fuel] s rest Hw L Hf Hfuel; [lia|]. cbn [parseexec command_toks command_cmd] in *.
  destruct (split_items items) as (rs & l' & -> & Hl'). destruct (redir_as_items rs) as (R1 & R2 & R3).
  cbn [wf_command] in Hw. apply Nat.ltb_lt in Hw. rewrite nargs_app, R2 in Hw.
  rewrite bind_app, <- R1, <- app_assoc in L, Hfuel.
  eapply returns_peek; [exact L|unfold symbols; set_solver|]. clear s L. intros s L.
  replace (among _ _) with false.
  2: { symmetry. destruct rs as [|[[] f] rs]; [|done..]. destruct Hl' as [->|(x & l & ->)]; [|done]. by eapply follow_headc. }
  rstep (redirs_complete rs (S es) (EXEC [])); [exact L|exact (toks_le _ _ L)|constructor|by apply item_redir_headc|].
  intros c1 s1 (L1 & Hg1 & E1). eapply returns_mono; [apply (args_complete (S es) 0 c1 s1 l' rest L1); try done|].
  - exact (toks_le _ _ L1).
  - intros c' s'. rewrite E1, foldl_app, <- R3. done.
Qed.

Lemma block_complete l rs : line_complete l -> command_complete (Block l rs).
Proof using Hend Hnz.
  intros IHl [|[|fuel]] s rest Hw L Hf Hfuel; try (simpl in Hfuel; lia). cbn [parseexec parseblock command_toks] in *.
  simpl app in L, Hfuel. rewrite <- app_assoc in L, Hfuel. simpl app in L, Hfuel. cbn [wf_command] in Hw.
  eapply returns_peek; [exact L|unfold symbols; set_solver|]. clear s L. intros s L.
  replace (among _ _) with true by done. eapply returns_peek; [exact L|unfold symbols; set_solver|]. clear s L. intros s L.
  replace (among _ _) with true by done. simpl negb. cbv iota.
  eapply returns_sym; [exact L|]. clear s L. intros q e s L.
  rstep (IHl fuel s _ Hw L); [simpl; set_solver|simpl in Hfuel; lia|].
  intros c1 s1 (L1 & Hg1 & E1). eapply returns_peek; [exact L1|unfold symbols; set_solver|]. clear s L. intros s L.
  replace (among _ _) with true by done. simpl negb. cbv iota. eapply returns_sym; [exact L|]. clear s L. intros q' e' s L.
  eapply returns_mono; [apply (redirs_complete rs (S es) c1 s rest L); [exact (toks_le _ _ L)|done|by eapply follow_headc]|].
  intros c' s'. by rewrite E1.
Qed.

Lemma grammar_complete :
  (forall l, line_complete l) /\ (forall p, pipe_complete p) /\ (forall e, command_complete e).
Proof using Hend Hnz.
  apply grammar_ind.
  - intros p IHp n [|fuel] s rest Hw L Hf Hfuel; [lia|]. cbn [parseline line_toks] in *.
    rewrite <- app_assoc in L, Hfuel. eapply line_front; [exact IHp|exact Hw|exact L| |lia|].
    { by eapply follow_mono; [|done]; set_solver. }
    intros c1 s1 (L1 & Hg & E). eapply returns_peek; [exact L1|unfold symbols; set_solver|]. intros s2 L2.
    erewrite follow_headc; [|exact Hf|done]. by apply returns_ret.
  - intros p IHp n l IHl [|fuel] s rest Hw L Hf Hfuel; [lia|]. cbn [parseline line_toks wf_line] in *.
    apply andb_prop in Hw as [Hp Hl]. rewrite <- !app_assoc in L, Hfuel. simpl app in L, Hfuel.
    eapply line_front; [exact IHp|exact Hp|exact L|simpl; set_solver|lia|].
    intros c1 s1 (L1 & Hg & E). eapply returns_peek; [exact L1|unfold symbols; set_solver|]. intros s2 L2.
    replace (among _ _) with true by done. eapply returns_sym; [exact L2|]. intros q e s3 L3.
    rstep (IHl fuel s3 rest Hl L3); [done|rewrite !length_app in *; simpl in Hfuel; rewrite length_app in Hfuel; lia|].
    intros c2 s4 (L4 & Hg4 & E4). apply returns_ret. split; [done|]. split; [by apply Forall_app|]. simpl. congruence.
  - intros e IHe [|fuel] s rest Hw L Hf Hfuel; [lia|]. cbn [parsepipe pipe_toks wf_pipe] in *.
    rstep (IHe fuel s rest Hw L); [by eapply follow_mono; [|done]; set_solver|lia|].
    intros c1 s1 (L1 & Hg & E). eapply returns_peek; [exact L1|unfold symbols; set_solver|]. intros s2 L2.
    erewrite follow_headc; [|exact Hf|done]. by apply returns_ret.
  - intros e IHe p IHp [|fuel] s rest Hw L Hf Hfuel; [lia|]. cbn [parsepipe pipe_toks wf_pipe] in *.
    apply andb_prop in Hw as [He Hp]. rewrite <- app_assoc in L, Hfuel. simpl app in L, Hfuel.
    rstep (IHe fuel s (Sym BAR :: pipe_toks p ++ rest) He L); [simpl; set_solver|lia|].
    intros c1 s1 (L1 & Hg & E). eapply returns_peek; [exact L1|unfold symbols; set_solver|]. intros s2 L2.
    replace (among _ _) with true by done. eapply returns_sym; [exact L2|]. intros q e' s3 L3.
    rstep (IHp fuel s3 rest Hp L3); [done|rewrite !length_app in *; simpl in Hfuel; rewrite length_app in Hfuel; lia|].
    intros c2 s4 (L4 & Hg4 & E4). apply returns_ret. split; [done|]. split; [by apply Forall_app|]. simpl. congruence.
  - apply simple_complete.
  - intros l IHl rs. by apply block_complete.
Qed.
End Sound.

(** ** Terminating the strings *)

Lemma char_nul buf e k : char (<[e := 0]> buf) k = if decide (k = e) then 0 else char buf k.
Proof.
  unfold char. destruct (decide (k = e)) as [->|Hne]; [|by rewrite list_lookup_insert_ne].
  destruct (decide (e < length buf)%nat); [by rewrite list_lookup_insert_eq|].
  rewrite lookup_ge_None_2; [done|]. rewrite length_insert. lia.
Qed.

Lemma nulterminate_char c : forall buf (k : nat),
  char (nulterminate c buf) k = if decide (k ∈ (snd <$> spans c : list nat)) then 0 else char buf k.
Proof.
  assert (Hargs : forall (args : list (nat * nat)) buf (k : nat), char (foldl (fun b a => <[snd a := 0]> b) buf args) k =
    if decide (k ∈ (snd <$> args : list nat)) then 0 else char buf k).
  { induction args as [|[q e] args IH]; intros buf k; simpl; [done|]. rewrite IH, char_nul.
    repeat case_decide; set_solver. }
  induction c as [args|c IH q e mode fd|l IHl r IHr|l IHl r IHr|c IH]; intros buf k; simpl; try done.
  - rewrite char_nul, IH. repeat case_decide; set_solver.
  - rewrite IHr, IHl, fmap_app. repeat case_decide; set_solver.
  - rewrite IHr, IHl, fmap_app. repeat case_decide; set_solver.
Qed.

Lemma cstring_slice b b' q e :
  (q <= e)%nat -> (forall k, (q <= k < e)%nat -> char b' k = char b k /\ char b k <> 0) -> char b' e = 0 ->
  cstring b' q = slice b q e.
Proof.
  remember (e - q)%nat as n eqn:En. revert q En. induction n as [|n IH]; intros q En Hq Hk He.
  - replace e with q in He |- * by lia. rewrite slice_nil. unfold cstring, char in *.
    destruct (b' !! q) as [x|] eqn:Ex.
    + rewrite (drop_S _ _ _ Ex). simpl in *. by rewrite He.
    + apply lookup_ge_None_1 in Ex. by rewrite drop_ge.
  - destruct (Hk q) as [E1 E2]; [lia|]. unfold cstring, slice. rewrite <- En.
    assert (Hx : exists x x', b !! q = Some x /\ b' !! q = Some x' /\ x' = x /\ x <> 0).
    { unfold char in *. destruct (b !! q) as [x|], (b' !! q) as [x'|]; simpl in *; try done.
      by exists x, x'. }
    destruct Hx as (x & x' & Ex & Ex' & -> & Hx). rewrite (drop_S _ _ _ Ex), (drop_S _ _ _ Ex'). simpl.
    rewrite (proj2 (Z.eqb_neq _ _) Hx). f_equal.
    replace n with (e - S q)%nat by lia. apply (IH (S q)); [lia|lia| |done]. intros k ?. apply Hk. lia.
Qed.

(** The strings [runcmd] finds in the buffer. *)
Definition run_strings (buf : list Z) (c : cmd) : scmd := strings_of (fun q _ => cstring buf q) c.

Lemma strings_ext f g c :
  (forall a, a ∈ spans c -> f (fst a) (snd a) = g (fst a) (snd a)) -> strings_of f c = strings_of g c.
Proof.
  induction c as [args|c IH q e mode fd|l IHl r IHr|l IHl r IHr|c IH]; simpl; intros H.
  - f_equal. apply list_fmap_ext. intros i a Ha. apply H. by eapply list_elem_of_lookup_2.
  - rewrite IH by set_solver. f_equal. apply (H (q, e)). set_solver.
  - rewrite IHl, IHr by set_solver. done.
  - rewrite IHl, IHr by set_solver. done.
  - by rewrite IH.
Qed.

Lemma good_strings buf es c :
  (forall s, (s < es)%nat -> char buf s <> 0) -> good buf es c ->
  run_strings (nulterminate c buf) c = strings_of (slice buf) c.
Proof.
  intros Hnz Hg. unfold good in Hg. rewrite Forall_forall in Hg. apply strings_ext. intros [q e] Ha. simpl.
  destruct (Hg _ Ha) as (Hqe & Hw & _). simpl in *.
  apply cstring_slice; [lia| |].
  - intros k Hk. split; [|apply Hnz; lia]. rewrite nulterminate_char, decide_False; [done|].
    intros ([q' e'] & -> & Ha')%list_elem_of_fmap. destruct (Hg _ Ha') as (Hqe' & _ & Hend). simpl in *.
    rewrite Hw in Hend by lia. destruct Hend; [done|lia].
  - rewrite nulterminate_char, decide_True; [done|]. apply list_elem_of_fmap. by exists (q, e).
Qed.

(** ** The whole parser *)

Section Text.
Context (text junk : list Z) (Htext : Forall (fun c => c <> 0) text).
Let buf := text ++ 0 :: junk.
Let es := length text.

Lemma text_end : char buf es = 0.
Proof. unfold char, buf, es. by rewrite list_lookup_middle. Qed.

Lemma text_nonzero s : (s < es)%nat -> char buf s <> 0.
Proof using Htext.
  intros Hs. unfold char, buf. rewrite lookup_app_l by done.
  destruct (lookup_lt_is_Some_2 text s Hs) as [c Hc]. rewrite Hc. by eapply Forall_lookup in Hc; [|exact Htext].
Qed.

Lemma length_cstr_text : length_cstr buf = es.
Proof using Htext.
  destruct (skip_spec buf (fun c => negb (c =? 0)) (length buf) 0) as (H1 & H2 & H3).
  unfold length_cstr. set (r := skip _ _ _ _) in *. clearbody r.
  assert (Hl : (es < length buf)%nat) by (unfold buf, es; rewrite length_app; simpl; lia).
  destruct (Nat.lt_trichotomy r es) as [Hlt|[->|Hlt]]; [|done|].
  - destruct H3 as [H3|H3]; [lia|]. apply negb_false_iff, Z.eqb_eq in H3. by destruct (text_nonzero r).
  - specialize (H2 es ltac:(lia)). by rewrite text_end in H2.
Qed.

Lemma text_slice : slice buf 0 es = text.
Proof. unfold slice, buf, es. rewrite drop_0, Nat.sub_0_r. by rewrite take_app_length. Qed.

Lemma lex_at_end rest : lex buf es es rest -> rest = [].
Proof.
  inversion 1 as [|s k e ts _ Ht Hk]; [done|]. exfalso.
  assert (E : skip_ws buf es es = es) by (unfold skip_ws; by rewrite Nat.sub_diag).
  rewrite E in Ht. inversion Ht; subst; (done || lia).
Qed.

(** The end of [parsecmd], after [parseline]. *)
Lemma parsecmd_end x c s rest :
  leaves buf es x rest c s ->
  (rest = [] -> returns (peek buf es [] ;;; let! s := get in
     if negb (s =? es)%nat then panic "syntax" else m_ret (c, nulterminate c buf)) s
     (fun r s' => s' = es /\ fst r = c /\ snd r = nulterminate c buf)) /\
  runs (peek buf es [] ;;; let! s := get in
     if negb (s =? es)%nat then panic "syntax" else m_ret (c, nulterminate c buf)) s
     (fun r s' => rest = [] /\ fst r = c /\ snd r = nulterminate c buf).
Proof using Htext.
  intros (L & Hg & E). split.
  - intros ->. eapply returns_Done; [reflexivity|]. apply returns_get. inversion L as [? _ Es|]; subst.
    rewrite Es, Nat.eqb_refl. simpl. by apply returns_ret.
  - eapply runs_peek; [exact text_end|exact text_nonzero|exact L|set_solver|]. intros s' L'.
    eapply runs_Done; [reflexivity|]. destruct (Nat.eqb_spec s' es) as [->|]; simpl; [|done].
    split; [by apply lex_at_end|done].
Qed.
End Text.

Lemma parsecmd_correct text junk :
  Forall (fun c => c <> 0) text ->
  let buf := text ++ 0 :: junk in
  (forall s, parsecmd buf <> Blocked s) /\
  (forall l, wf_line l = true -> spells (line_toks l) text ->
     exists c buf', parsecmd buf = Done (c, buf') (length text) /\ run_strings buf' c = line_cmd l) /\
  (forall c buf' s, parsecmd buf = Done (c, buf') s ->
     exists l, wf_line l = true /\ spells (line_toks l) text /\ run_strings buf' c = line_cmd l).
Proof.
  intros Ht buf. pose proof (text_end text junk) as He. pose proof (text_nonzero text junk Ht) as Hz.
  fold buf in He, Hz. unfold parsecmd. rewrite (length_cstr_text text junk Ht : length_cstr buf = _). cbv zeta.
  set (es := length text) in *.
  destruct (lex_exists buf es He Hz 0) as [ts L]; [lia|]. pose proof (toks_le buf es _ _ L) as Hl.
  destruct (parse_sound buf es He Hz (4 * S es)) as [Hs _]. specialize (Hs 0%nat ts L ltac:(lia)).
  assert (R : runs (let! c := parseline buf es (4 * S es) in peek buf es [] ;;; let! s := get in
     if negb (s =? es)%nat then panic "syntax" else m_ret (c, nulterminate c buf)) 0%nat
     (fun r _ => exists l, wf_line l = true /\ spells (line_toks l) text /\
        run_strings (snd r) (fst r) = line_cmd l)).
  { eapply runs_bind; [exact Hs|]. intros c s (l & rest & -> & Hw & Hlv).
    eapply runs_mono; [apply (parsecmd_end text junk Ht _ _ _ _ Hlv)|].
    intros [c' b'] s' (-> & Ec & Eb). simpl in *. subst. exists l. destruct Hlv as (_ & Hg & E).
    rewrite app_nil_r in L. split; [done|]. split; [|by erewrite good_strings].
    rewrite <- (text_slice text junk). by apply lex_spells. }
  split; [|split].
  - intros s E. unfold runs in R. by rewrite E in R.
  - intros l Hw Hsp.
    assert (L' : lex buf es 0 (line_toks l ++ [])).
    { rewrite app_nil_r. eapply spells_lex; [done|done|exact Hsp|lia|]. symmetry. exact (text_slice text junk). }
    pose proof (toks_le buf es _ _ L') as Hl'.
    destruct (proj1 (grammar_complete buf es He Hz) l (4 * S es)%nat 0%nat [] Hw L' I) as (c & s & E & Hlv); [lia|].
    destruct (proj1 (parsecmd_end text junk Ht _ _ _ _ Hlv) eq_refl) as ([c' b'] & s' & E' & -> & Ec & Eb).
    simpl in *. subst. exists c, (nulterminate c buf). split; [unfold m_bind at 1; by rewrite E|].
    destruct Hlv as (_ & Hg & Es). by erewrite good_strings.
  - intros c b s E. unfold runs in R. rewrite E in R. exact R.
Qed.

(** C5. [parsecmd] on a line: it always comes to an end; it accepts every text of the
    grammar, whatever its white space, and after [nulterminate] the strings in the buffer
    make up exactly the command the text stands for; and a text it accepts is a text of
    the grammar. *)
Theorem parsecmd_spec text junk :
  Forall (fun c => c <> 0) text ->
  let buf := text ++ 0 :: junk in
  (forall s, parsecmd buf <> Blocked s) /\
  (forall l, wf_line l = true -> spells (line_toks l) text ->
     exists c buf', parsecmd buf = Done (c, buf') (length text) /\ run_strings buf' c = line_cmd l) /\
  (forall c buf' s, parsecmd buf = Done (c, buf') s ->
     exists l, wf_line l = true /\ spells (line_toks l) text /\ run_strings buf' c = line_cmd l).
Proof. apply parsecmd_correct. Qed.

(** "(ls;cat<f)|wc -l>o&" *)
Definition sample : line :=
  Line (Into (Block (Seq (One (Simple [Arg (codes "ls")])) 0
                         (Line (One (Simple [Arg (codes "cat"); Redirect Less (codes "f")])) 0)) [])
             (One (Simple [Arg (codes "wc"); Arg (codes "-l"); Redirect Greater (codes "o")]))) 1.

Lemma parsecmd_spec_witness :
  exists c buf', parsecmd (codes "(ls;cat<f)|wc -l>o&" ++ [0]) = Done (c, buf') 19%nat /\
    run_strings buf' c =
      SBack (SPipe (SList (SExec [codes "ls"]) (SRedir (SExec [codes "cat"]) (codes "f") 0 0))
                   (SRedir (SExec [codes "wc"; codes "-l"]) (codes "o") 513 1)).
Proof.
  assert (Hnz : Forall (fun c => c <> 0) (codes "(ls;cat<f)|wc -l>o&")) by by repeat constructor.
  refine (proj1 (proj2 (parsecmd_spec (codes "(ls;cat<f)|wc -l>o&") [] Hnz)) sample eq_refl _).
  apply sp_sym; [done|]. apply (sp_word (codes "ls")); [done|by repeat constructor|by intros ? [= <-]|].
  apply sp_sym; [done|]. apply (sp_word (codes "cat")); [done|by repeat constructor|by intros ? [= <-]|].
  apply sp_sym; [done|]. apply (sp_word (codes "f")); [done|by repeat constructor|by intros ? [= <-]|].
  apply sp_sym; [done|]. apply sp_sym; [done|].
  apply (sp_word (codes "wc")); [done|by repeat constructor|by intros ? [= <-]|].
  apply sp_space; [done|]. apply (sp_word (codes "-l")); [done|by repeat constructor|by intros ? [= <-]|].
  apply sp_gt; [done|]. apply (sp_word (codes "o")); [done|by repeat constructor|by intros ? [= <-]|].
  apply sp_sym; [done|]. apply sp_nil.
Defined.
