(* ===== verification/ShRun.v ===== *)
(** * Running commands with the right files

    The descriptors a command is run with. [execs] follows the system calls of [runcmd] in
    a process and its children, every call succeeding when it can, and collects the
    programs executed with the descriptors they are started with. [wire] says what these
    should be: a redirection replaces one descriptor, a pipe the output of its left and the
    input of its right side, and nothing else changes. *)

From stdpp Require Import base tactics numbers list sets strings.
From Stdlib Require Import ZArith Lia ZifyNat.
From S2P Require Import Prelude Layout Sysfile Sh ShLex ShSpec.

(** What a descriptor refers to; a pipe is named by the process that made it. *)
Inductive obj :=
  | Tty
  | OFile (path : list Z) (mode : Z)
  | PipeR (id : list nat)
  | PipeW (id : list nat).

Abbreviation fdtab := (list (option obj)).

(** A program, its arguments and its descriptors. *)
Definition started : Type := list Z * list (list Z) * fdtab.

(** [id] names the process; 0 is added for its child and 1 for itself after a fork. *)
Fixpoint execs (id : list nat) (t : fdtab) (p : prog) : list started :=
  match p with
  | Exit => []
  | Exec path argv _ => [(path, argv, t)]
  | Open path mode k =>
      match first_free t with
      | Some fd => execs id (<[fd := Some (OFile path mode)]> t) (k (Z.of_nat fd))
      | None => execs id t (k (-1))
      end
  | Close fd k => execs id (if 0 <=? fd then <[Z.to_nat fd := None]> t else t) k
  | Dup fd k =>
      match (if 0 <=? fd then mjoin (t !! Z.to_nat fd) else None), first_free t with
      | Some o, Some fd' => execs id (<[fd' := Some o]> t) (k (Z.of_nat fd'))
      | _, _ => execs id t (k (-1))
      end
  | Pipe k =>
      match first_free t with
      | Some p0 =>
          let t0 := <[p0 := Some (PipeR id)]> t in
          match first_free t0 with
          | Some p1 => execs id (<[p1 := Some (PipeW id)]> t0) (k 0 (Z.of_nat p0) (Z.of_nat p1))
          | None => execs id t (k (-1) 0 0)
          end
      | None => execs id t (k (-1) 0 0)
      end
  | Fork k => execs (0%nat :: id) t (k 0) ++ execs (1%nat :: id) t (k 1)
  | Wait k => execs id t k
  | Chdir _ k => execs id t (k 0)
  | Printf _ _ k => execs id t k
  end.

Fixpoint wire (id : list nat) (t : fdtab) (c : scmd) : list started :=
  match c with
  | SExec [] => []
  | SExec (path :: args) => [(path, path :: args, t)]
  | SRedir c file mode fd => wire id (<[Z.to_nat fd := Some (OFile file mode)]> t) c
  | SPipe l r =>
      wire (0%nat :: id) (<[1%nat := Some (PipeW id)]> t) l ++
      wire (0%nat :: 1%nat :: id) (<[0%nat := Some (PipeR id)]> t) r
  | SList l r => wire (0%nat :: id) t l ++ wire (1%nat :: id) t r
  | SBack c => wire (0%nat :: id) t c
  end.

(** Redirections are of descriptors 0 and 1. *)
Fixpoint std_redirs (c : scmd) : Prop :=
  match c with
  | SExec _ => True
  | SRedir c _ _ fd => (fd = 0 \/ fd = 1) /\ std_redirs c
  | SPipe l r | SList l r => std_redirs l /\ std_redirs r
  | SBack c => std_redirs c
  end.

(** Standard input and output are open, and two descriptors are free. *)
Inductive std_table : fdtab -> Prop :=
  | Std_table a b rest i j : rest !! i = Some None -> rest !! j = Some None -> i <> j ->
      std_table (Some a :: Some b :: rest).

Lemma first_free_shift {A} n (l : list (option A)) k :
  find_idx (fun f => match f with None => true | Some _ => false end) n l = Some k ->
  exists i, k = (n + i)%nat /\ l !! i = Some None.
Proof.
  intros (x & Hle & Hx & Hp & _)%find_idx_Some. exists (k - n)%nat. split; [lia|]. by destruct x.
Qed.

Lemma first_free_exists {A} n (l : list (option A)) i :
  l !! i = Some None -> is_Some (find_idx (fun f => match f with None => true | Some _ => false end) n l).
Proof.
  intros Hi. destruct (find_idx _ n l) eqn:E; [done|]. by specialize (find_idx_None _ _ _ E _ _ Hi).
Qed.

(** The two descriptors of a pipe. *)
Lemma pipe_fds (a b : obj) (rest : fdtab) x i j :
  rest !! i = Some None -> rest !! j = Some None -> i <> j ->
  exists k l, first_free (Some a :: Some b :: rest) = Some (S (S k)) /\
    first_free (<[S (S k) := Some x]> (Some a :: Some b :: rest)) = Some (S (S l)) /\
    rest !! k = Some None /\ rest !! l = Some None /\ k <> l.
Proof.
  intros Hi Hj Hij. destruct (first_free_exists 2 rest i Hi) as [p Hp].
  destruct (first_free_shift _ _ _ Hp) as (k & -> & Hk).
  assert (Hother : exists m, <[k := Some x]> rest !! m = Some None).
  { destruct (decide (k = i)) as [->|]; [exists j|exists i]; by rewrite list_lookup_insert_ne. }
  destruct Hother as [m Hm]. destruct (first_free_exists 2 _ m Hm) as [q Hq].
  destruct (first_free_shift _ _ _ Hq) as (l & -> & Hl). exists k, l. split; [done|]. split; [done|]. split; [done|].
  assert (Hkl : k <> l).
  { intros ->. rewrite list_lookup_insert_eq in Hl; [done|by eapply lookup_lt_Some]. }
  rewrite list_lookup_insert_ne in Hl by done. done.
Qed.

(** Closing both descriptors of the pipe in a child that moved one of them to [a] or [b]. *)
Lemma pipe_closed (x y r w : obj) (rest : fdtab) k l :
  rest !! k = Some None -> rest !! l = Some None -> k <> l ->
  <[S (S l) := None]> (<[S (S k) := None]> (Some x :: Some y :: <[l := Some w]> (<[k := Some r]> rest)))
    = Some x :: Some y :: rest.
Proof.
  intros Hk Hl Hkl. simpl. do 2 f_equal. apply list_eq. intros i.
  pose proof (lookup_lt_Some _ _ _ Hk). pose proof (lookup_lt_Some _ _ _ Hl).
  destruct (decide (i = l)) as [->|]; [by rewrite list_lookup_insert_eq by (by rewrite !length_insert)|].
  rewrite list_lookup_insert_ne by done.
  destruct (decide (i = k)) as [->|]; [by rewrite list_lookup_insert_eq by (by rewrite !length_insert)|].
  by rewrite !list_lookup_insert_ne.
Qed.

Lemma std_table_input t o : std_table t -> std_table (<[0%nat := Some o]> t).
Proof. intros []. by apply (Std_table _ _ _ i j). Qed.

Lemma std_table_output t o : std_table t -> std_table (<[1%nat := Some o]> t).
Proof. intros []. by apply (Std_table _ _ _ i j). Qed.

Lemma execs_close id t (n : nat) k : execs id t (Close (Z.of_nat n) k) = execs id (<[n := None]> t) k.
Proof. cbn [execs]. rewrite (proj2 (Z.leb_le _ _)) by lia. by rewrite Nat2Z.id. Qed.

Lemma execs_dup id t n k o fd :
  t !! n = Some (Some o) -> first_free t = Some fd ->
  execs id t (Dup (Z.of_nat n) k) = execs id (<[fd := Some o]> t) (k (Z.of_nat fd)).
Proof. intros Hn Hf. cbn [execs]. rewrite (proj2 (Z.leb_le _ _)), Nat2Z.id, Hn, Hf by lia. done. Qed.

Lemma execs_fork id t (child parent : prog) :
  execs id t (fork1 (fun pid => if pid =? 0 then child else parent)) =
  execs (0%nat :: id) t child ++ execs (1%nat :: id) t parent.
Proof. reflexivity. Qed.

(** The children of a pipe. *)
Section Children.
Context (a b : obj) (rest : fdtab) (k m : nat) (id id' : list nat) (c : prog).
Context (Hk : rest !! k = Some None) (Hm : rest !! m = Some None) (Hkm : k <> m).
Let t : fdtab :=
  <[S (S m) := Some (PipeW id)]> (<[S (S k) := Some (PipeR id)]> (Some a :: Some b :: rest)).

Lemma left_child :
  execs id' t (Close 1 (Dup (Z.of_nat (S (S m))) (fun _ => Close (Z.of_nat (S (S k))) (Close (Z.of_nat (S (S m))) c)))) =
  execs id' (Some a :: Some (PipeW id) :: rest) c.
Proof using Hk Hm Hkm.
  assert (Lm : <[m := Some (PipeW id)]> (<[k := Some (PipeR id)]> rest) !! m = Some (Some (PipeW id))).
  { apply list_lookup_insert_eq. rewrite length_insert. by eapply lookup_lt_Some. }
  rewrite (execs_close _ _ 1). rewrite (execs_dup _ _ _ _ (PipeW id) 1); [|exact Lm|done].
  rewrite !execs_close. unfold t. simpl (<[1%nat := _]> _). by rewrite pipe_closed.
Qed.

Lemma right_child :
  execs id' t (Close 0 (Dup (Z.of_nat (S (S k))) (fun _ => Close (Z.of_nat (S (S k))) (Close (Z.of_nat (S (S m))) c)))) =
  execs id' (Some (PipeR id) :: Some b :: rest) c.
Proof using Hk Hm Hkm.
  assert (Lk : <[m := Some (PipeW id)]> (<[k := Some (PipeR id)]> rest) !! k = Some (Some (PipeR id))).
  { rewrite list_lookup_insert_ne by done. apply list_lookup_insert_eq. by eapply lookup_lt_Some. }
  rewrite (execs_close _ _ 0). rewrite (execs_dup _ _ _ _ (PipeR id) 0); [|exact Lk|done].
  rewrite !execs_close. unfold t. simpl (<[0%nat := _]> _). by rewrite pipe_closed.
Qed.
End Children.

Lemma execs_runcmd buf c : forall id t, std_redirs (run_strings buf c) -> std_table t ->
  execs id t (runcmd buf c) = wire id t (run_strings buf c).
Proof.
  induction c as [args|c IH q e mode fd|l IHl r IHr|l IHl r IHr|c IH]; intros id t Hr Ht.
  - destruct args as [|[q e] args]; reflexivity.
  - destruct Hr as [Hfd Hr]. cbn [runcmd run_strings strings_of wire]. inversion Ht as [a b rest i j Hi Hj Hij]; subst t.
    destruct Hfd as [-> | ->]; cbn [execs]; simpl; (apply IH; [done|]; by apply (Std_table _ _ _ i j)).
  - destruct Hr as [Hl Hr]. inversion Ht as [a b rest i j Hi Hj Hij]; subst t.
    destruct (pipe_fds a b rest (PipeR id) i j Hi Hj Hij) as (k & m & F1 & F2 & Hk & Hm & Hkm).
    change (runcmd buf (PIPE l r)) with (Pipe (fun x p0 p1 =>
      if x <? 0 then sh_panic "pipe" else
      fork1 (fun pid => if pid =? 0 then Close 1 (Dup p1 (fun _ => Close p0 (Close p1 (runcmd buf l)))) else
      fork1 (fun pid => if pid =? 0 then Close 0 (Dup p0 (fun _ => Close p0 (Close p1 (runcmd buf r)))) else
      Close p0 (Close p1 (Wait (Wait Exit))))))).
    cbn [execs]. rewrite F1, F2. change (0 <? 0) with false. cbv iota.
    rewrite !execs_fork, left_child, right_child by done. cbn [execs]. rewrite app_nil_r.
    rewrite IHl, IHr; try done; by apply (Std_table _ _ _ i j).
  - destruct Hr as [Hl Hr]. cbn [runcmd run_strings strings_of wire]. rewrite execs_fork. cbn [execs].
    by rewrite IHl, IHr.
  - cbn [runcmd run_strings strings_of wire]. rewrite execs_fork. cbn [execs]. by rewrite IH, app_nil_r.
Qed.

(** ** A command line *)

Lemma std_redirs_add x c : std_redirs c -> std_redirs (add_sarg x c).
Proof. induction c; simpl; tauto. Qed.

Lemma std_redirs_redirect c r f : std_redirs c -> std_redirs (redirect c r f).
Proof. destruct r; simpl; auto. Qed.

Lemma std_redirs_line :
  (forall l, std_redirs (line_cmd l)) /\ (forall p, std_redirs (pipe_cmd p)) /\ (forall e, std_redirs (command_cmd e)).
Proof.
  assert (Hb : forall n c, std_redirs c -> std_redirs (backs n c)) by (intros n c H; by induction n).
  apply grammar_ind; simpl; auto.
  - intros items. assert (H : std_redirs (SExec [])) by done. revert H. generalize (SExec []).
    induction items as [|[x|r f] items IH]; intros c H; simpl; [done|..];
      apply IH; auto using std_redirs_add, std_redirs_redirect.
  - intros l H rs. revert H. generalize (line_cmd l).
    induction rs as [|[r f] rs IH]; intros c H; simpl; [done|]. apply IH. by apply std_redirs_redirect.
Qed.

(** The loop at the start of [main] leaves the console open on 0, 1 and 2. *)
Lemma open_console_table id next :
  let console := Some (OFile (codes "console") O_RDWR) in
  execs id (replicate NOFILE None) (open_console 4 next) =
  execs id ([console; console; console] ++ replicate 13 None) next.
Proof. reflexivity. Qed.

(** C6. The shell on a line of its grammar that is no [cd] command, with standard input and
    output open and two descriptors free: the programs executed, in the child it forks and
    in the children of that, are the simple commands of the line, each with its arguments
    and with exactly the descriptors its redirections and pipes give it; the ends of pipes
    that belong to others are closed. *)
Theorem shell_wires_commands l text junk id t :
  Forall (fun c => c <> 0) text -> wf_line l = true -> spells (line_toks l) text -> std_table t ->
  (char text 0 =? 99) && (char text 1 =? 100) && (char text 2 =? 32) = false -> (3 <= length text)%nat ->
  execs id t (run_line (text ++ 0 :: junk) Exit) = wire (0%nat :: id) t (line_cmd l).
Proof.
  intros Hz Hw Hsp Ht Hcd Hlen.
  destruct (proj1 (proj2 (parsecmd_correct text junk Hz)) l Hw Hsp) as (c & buf & Ep & Es).
  assert (Hch : forall k, (k < 3)%nat -> char (text ++ 0 :: junk) k = char text k).
  { intros k Hk. unfold char. by rewrite lookup_app_l by lia. }
  unfold run_line. rewrite !Hch, Hcd, Ep by lia. rewrite execs_fork. cbn [execs]. rewrite app_nil_r, <- Es.
  apply execs_runcmd; [|done]. rewrite Es. apply std_redirs_line.
Qed.

Lemma shell_wires_commands_witness :
  execs [] (Some Tty :: Some Tty :: Some Tty :: replicate 13 None) (run_line (codes "ls|wc>o" ++ [0; 0]) Exit) =
    [(codes "ls", [codes "ls"], Some Tty :: Some (PipeW [0%nat]) :: Some Tty :: replicate 13 None);
     (codes "wc", [codes "wc"], Some (PipeR [0%nat]) :: Some (OFile (codes "o") 513) :: Some Tty :: replicate 13 None)].
Proof.
  rewrite (shell_wires_commands
    (Line (Into (Simple [Arg (codes "ls")]) (One (Simple [Arg (codes "wc"); Redirect Greater (codes "o")]))) 0)
    (codes "ls|wc>o") [0] [] _); [reflexivity|by repeat constructor|done| | |done|simpl; lia].
  - apply (sp_word (codes "ls")); [done|by repeat constructor|by intros ? [= <-]|].
    apply sp_sym; [done|]. apply (sp_word (codes "wc")); [done|by repeat constructor|by intros ? [= <-]|].
    apply sp_gt; [done|]. apply (sp_word (codes "o")); [done|by repeat constructor|done|]. apply sp_nil.
  - by apply (Std_table _ _ _ 1 2).
Defined.
