(* ===== verification/Asm.v ===== *)
(** * The assembly of the kernel: swtch.S, trapasm.S, vectors.pl, usys.S

    A small machine with the registers and the instructions these files use, and the code as
    lists of instructions. Code addresses are symbolic: an instruction that transfers control
    sets [x_eip], one that falls through leaves it alone, and [call] and [int] carry the
    address of the instruction behind them. The memory is the virtual memory of the running
    process. *)

From stdpp Require Import base tactics numbers list strings.
From Stdlib Require Import ZArith Lia.
From S2P Require Import Prelude Layout PTable Syscall.

(** ** The machine *)

Inductive reg := EAX | ECX | EDX | EBX | ESP | EBP | ESI | EDI.
Inductive sreg := ES | CS | SS | DS | FS | GS.

Record regs := Regs {
  r_eax : Z; r_ecx : Z; r_edx : Z; r_ebx : Z; r_esp : Z; r_ebp : Z; r_esi : Z; r_edi : Z }.
Record segs := Segs { s_es : Z; s_cs : Z; s_ss : Z; s_ds : Z; s_fs : Z; s_gs : Z }.

Definition get_reg (r : reg) (g : regs) : Z :=
  match r with
  | EAX => r_eax g | ECX => r_ecx g | EDX => r_edx g | EBX => r_ebx g
  | ESP => r_esp g | EBP => r_ebp g | ESI => r_esi g | EDI => r_edi g
  end.
Definition set_reg (r : reg) (v : Z) (g : regs) : regs :=
  let '(Regs a c d b sp bp si di) := g in
  match r with
  | EAX => Regs v c d b sp bp si di | ECX => Regs a v d b sp bp si di
  | EDX => Regs a c v b sp bp si di | EBX => Regs a c d v sp bp si di
  | ESP => Regs a c d b v bp si di | EBP => Regs a c d b sp v si di
  | ESI => Regs a c d b sp bp v di | EDI => Regs a c d b sp bp si v
  end.
Definition get_seg (r : sreg) (g : segs) : Z :=
  match r with ES => s_es g | CS => s_cs g | SS => s_ss g | DS => s_ds g | FS => s_fs g | GS => s_gs g end.
Definition set_seg (r : sreg) (v : Z) (g : segs) : segs :=
  let '(Segs e c s d f g) := g in
  match r with
  | ES => Segs v c s d f g | CS => Segs e v s d f g | SS => Segs e c v d f g
  | DS => Segs e c s v f g | FS => Segs e c s d v g | GS => Segs e c s d f v
  end.

Record mach := Mach { x_regs : regs; x_segs : segs; x_eip : Z; x_eflags : Z; x_mem : mem }.

Definition getr (r : reg) (m : mach) : Z := get_reg r (x_regs m).
Definition setr (r : reg) (v : Z) (m : mach) : mach :=
  Mach (set_reg r v (x_regs m)) (x_segs m) (x_eip m) (x_eflags m) (x_mem m).
Definition getseg (r : sreg) (m : mach) : Z := get_seg r (x_segs m).
Definition setseg (r : sreg) (v : Z) (m : mach) : mach :=
  Mach (x_regs m) (set_seg r v (x_segs m)) (x_eip m) (x_eflags m) (x_mem m).
Definition set_eip (v : Z) (m : mach) : mach := Mach (x_regs m) (x_segs m) v (x_eflags m) (x_mem m).
Definition set_eflags (v : Z) (m : mach) : mach := Mach (x_regs m) (x_segs m) (x_eip m) v (x_mem m).
Definition set_mem (v : mem) (m : mach) : mach := Mach (x_regs m) (x_segs m) (x_eip m) (x_eflags m) v.

Definition push (v : Z) (m : mach) : mach :=
  let m := setr ESP (u32 (getr ESP m - 4)) m in set_mem (store32 (x_mem m) (getr ESP m) v) m.
Definition top (m : mach) : Z := load32 (x_mem m) (getr ESP m).
Definition drop_top (m : mach) : mach := setr ESP (u32 (getr ESP m + 4)) m.
Definition pop_reg (r : reg) (m : mach) : mach := setr r (top m) (drop_top m).
Definition pop_seg (r : sreg) (m : mach) : mach := setseg r (top m mod 65536) (drop_top m).

(** The current privilege level. *)
Definition cpl (m : mach) : Z := Z.land (getseg CS m) 3.

(** ** Instructions *)

Inductive instr :=
  | Movl_load (disp : Z) (base dst : reg)
  | Movl_store (src base : reg)
  | Movl (src dst : reg)
  | Movl_imm (v : Z) (dst : reg)
  | Movw_imm (v : Z) (dst : reg)
  | Movw_seg (src : reg) (dst : sreg)
  | Pushl (src : reg)
  | Pushl_imm (v : Z)
  | Pushl_seg (src : sreg)
  | Popl (dst : reg)
  | Popl_seg (dst : sreg)
  | Pushal
  | Popal
  | Addl_imm (v : Z) (dst : reg)
  | Jmp (a : Z)
  | Call (a next : Z)
  | Ret
  | Iret.

(** [iret] to a less privileged level also restores the stack. (It would clear data segment
    registers user code may not use; the frames of the kernel hold none.) *)
Definition iret (m : mach) : mach :=
  let level := cpl m in
  let eip := top m in let m := drop_top m in
  let cs := top m mod 65536 in let m := drop_top m in
  let eflags := top m in let m := drop_top m in
  let m := set_eip eip (setseg CS cs (set_eflags eflags m)) in
  if level <? Z.land cs 3 then
    let esp := top m in let m := drop_top m in
    let ss := top m mod 65536 in
    setr ESP esp (setseg SS ss m)
  else m.

Section Machine.
(** The flags after an addition, which nothing in this code depends on. *)
Variable add_flags : Z -> Z -> Z -> Z.

Definition exec_instr (i : instr) (m : mach) : mach :=
  match i with
  | Movl_load disp base dst => setr dst (load32 (x_mem m) (u32 (getr base m + disp))) m
  | Movl_store src base => set_mem (store32 (x_mem m) (getr base m) (getr src m)) m
  | Movl src dst => setr dst (getr src m) m
  | Movl_imm v dst => setr dst (u32 v) m
  | Movw_imm v dst => setr dst (getr dst m / 65536 * 65536 + v mod 65536) m
  | Movw_seg src dst => setseg dst (getr src m mod 65536) m
  | Pushl src => push (getr src m) m
  | Pushl_imm v => push (u32 v) m
  | Pushl_seg src => push (getseg src m) m
  | Popl dst => pop_reg dst m
  | Popl_seg dst => pop_seg dst m
  | Pushal =>
      let sp := getr ESP m in
      push (getr EDI m) (push (getr ESI m) (push (getr EBP m) (push sp (push (getr EBX m)
        (push (getr EDX m) (push (getr ECX m) (push (getr EAX m) m)))))))
  | Popal =>
      pop_reg EAX (pop_reg ECX (pop_reg EDX (pop_reg EBX (drop_top (pop_reg EBP (pop_reg ESI (pop_reg EDI m)))))))
  | Addl_imm v dst => set_eflags (add_flags (x_eflags m) (getr dst m) v) (setr dst (u32 (getr dst m + v)) m)
  | Jmp a => set_eip a m
  | Call a next => set_eip a (push next m)
  | Ret => let a := top m in set_eip a (drop_top m)
  | Iret => iret m
  end.

Definition run_code (code : list instr) (m : mach) : mach := foldl (fun m i => exec_instr i m) m code.

(** Taking the interrupt or trap of a gate: on the kernel stack of the task-state segment if
    it comes from user mode; some exceptions push an error code. [next] is the address to
    return to. An interrupt gate disables interrupts. *)
Definition FL_TRAP : Z := 0x34100.
Definition entry_flags (gate : gatedesc) (fl : Z) : Z :=
  Z.land fl (Z.lnot (if gd_type gate =? STS_IG32 then Z.lor FL_TRAP FL_IF else FL_TRAP)).
Definition trap_entry (ss0 esp0 : Z) (gate : gatedesc) (err : option Z) (next : Z) (m : mach) : mach :=
  let ss := getseg SS m in let esp := getr ESP m in
  let m1 := if cpl m =? 0 then m else push esp (push ss (setr ESP esp0 (setseg SS ss0 m))) in
  let m1 := push next (push (getseg CS m) (push (x_eflags m) m1)) in
  let m1 := match err with Some e => push e m1 | None => m1 end in
  set_eip (gd_off_15_0 gate + 65536 * gd_off_31_16 gate)
    (setseg CS (gd_cs gate) (set_eflags (entry_flags gate (x_eflags m)) m1)).

(** ** swtch.S *)

Definition swtch : list instr :=
  [Movl_load 4 ESP EAX; Movl_load 8 ESP EDX;
   Pushl EBP; Pushl EBX; Pushl ESI; Pushl EDI;
   Movl_store ESP EAX; Movl EDX ESP;
   Popl EDI; Popl ESI; Popl EBX; Popl EBP; Ret].

(** ** vectors.pl and trapasm.S *)

(** The addresses of [alltraps], of [trap] and of the instruction after its call. *)
Variables alltraps_addr trap_addr trap_return : Z.

Definition has_error_code (i : Z) : bool := (i =? 8) || ((10 <=? i) && (i <=? 14)) || (i =? 17).
Definition vector (i : Z) : list instr :=
  (if negb (has_error_code i) then [Pushl_imm 0] else []) ++ [Pushl_imm i; Jmp alltraps_addr].

Definition alltraps : list instr :=
  [Pushl_seg DS; Pushl_seg ES; Pushl_seg FS; Pushl_seg GS; Pushal;
   Movw_imm (Z.shiftl SEG_KDATA 3) EAX; Movw_seg EAX DS; Movw_seg EAX ES;
   Pushl ESP; Call trap_addr trap_return].
Definition after_trap : list instr := [Addl_imm 4 ESP].
Definition trapret : list instr :=
  [Popal; Popl_seg GS; Popl_seg FS; Popl_seg ES; Popl_seg DS; Addl_imm 8 ESP; Iret].

(** A trap up to the call of [trap], and from there on. *)
Definition trap_call (n : Z) (m : mach) : mach := run_code alltraps (run_code (vector n) m).
Definition trap_exit (m : mach) : mach := run_code trapret (run_code after_trap m).

(** ** usys.S *)

(** [SYSCALL(name)] up to its [int] and from there on. *)
Definition stub_call (name : sysno) : list instr := [Movl_imm (number name) EAX].
Definition stub_return : list instr := [Ret].
End Machine.
