(* ===== verification/AsmSpec.v ===== *)
(** * Context switches, traps and system calls at the level of the machine

    [load_context] and [load_frame] read the structures of proc.h and x86.h from memory. The
    theorems say that the assembly lays them out and restores them as the C code expects, and
    so justify the way Proc, Trap and Syscall use them: as records. *)

From stdpp Require Import base tactics numbers list strings.
From Stdlib Require Import ZArith Lia ZifyNat ZifyBool.
From S2P Require Import Prelude Layout PTable Syscall Proc Trap Asm.

Definition load_context (m : mem) (a : Z) : context :=
  Context (load32 m a) (load32 m (a + 4)) (load32 m (a + 8)) (load32 m (a + 12)) (load32 m (a + 16)).

Definition load_frame (m : mem) (a : Z) : trapframe :=
  let w k := load32 m (a + k) in let h k := load32 m (a + k) mod 65536 in
  Trapframe (load32 m a) (w 4) (w 8) (w 12) (w 16) (w 20) (w 24) (w 28) (h 32) (h 36) (h 40) (h 44) (w 48) (w 52) (w 56) (h 60)
    (w 64) (w 68) (h 72).

Lemma load_context_ext m m' a : (forall x, a <= x < a + 20 -> m x = m' x) -> load_context m a = load_context m' a.
Proof. intros H. unfold load_context. by rewrite !(load32_ext m m') by (intros; apply H; lia). Qed.

Lemma load_frame_ext m m' a : (forall x, a <= x < a + 76 -> m x = m' x) -> load_frame m a = load_frame m' a.
Proof. intros H. unfold load_frame. by rewrite !(load32_ext m m') by (intros; apply H; lia). Qed.

(** ** Pushing and popping *)

Lemma push_at a c d b sp bp si di sg ip fl mm v :
  4 <= sp <= 4294967296 ->
  push v (Mach (Regs a c d b sp bp si di) sg ip fl mm) =
  Mach (Regs a c d b (sp - 4) bp si di) sg ip fl (store32 mm (sp - 4) v).
Proof. intros H. unfold push, setr, getr, set_mem. simpl. by rewrite u32_small by lia. Qed.

Lemma drop_at a c d b sp bp si di sg ip fl mm :
  0 <= sp -> sp + 4 < 4294967296 ->
  drop_top (Mach (Regs a c d b sp bp si di) sg ip fl mm) = Mach (Regs a c d b (sp + 4) bp si di) sg ip fl mm.
Proof. intros H H'. unfold drop_top, setr, getr. simpl. by rewrite u32_small by lia. Qed.

Lemma pop_at r a c d b sp bp si di sg ip fl mm :
  0 <= sp -> sp + 4 < 4294967296 ->
  pop_reg r (Mach (Regs a c d b sp bp si di) sg ip fl mm) =
  Mach (set_reg r (load32 mm sp) (Regs a c d b (sp + 4) bp si di)) sg ip fl mm.
Proof. intros H H'. unfold pop_reg. by rewrite drop_at. Qed.

Lemma pop_seg_at r a c d b sp bp si di sg ip fl mm :
  0 <= sp -> sp + 4 < 4294967296 ->
  pop_seg r (Mach (Regs a c d b sp bp si di) sg ip fl mm) =
  Mach (Regs a c d b (sp + 4) bp si di) (set_seg r (load32 mm sp mod 65536) sg) ip fl mm.
Proof. intros H H'. unfold pop_seg. by rewrite drop_at. Qed.

(** The words [l] pushed one after the other from [sp] down. *)
Fixpoint stacked (m : mem) (sp : Z) (l : list Z) : mem :=
  match l with
  | [] => m
  | v :: l => stacked (store32 m (sp - 4) v) (sp - 4) l
  end.

Lemma stacked_out l : forall m sp x, x < sp - 4 * Z.of_nat (length l) \/ sp <= x -> stacked m sp l x = m x.
Proof.
  induction l as [|v l IH]; intros m sp x Hx; [done|]. cbn [stacked length] in *.
  rewrite IH by lia. apply store32_ne. lia.
Qed.

Lemma load32_stacked_out l m sp a :
  a + 4 <= sp - 4 * Z.of_nat (length l) \/ sp <= a -> load32 (stacked m sp l) a = load32 m a.
Proof. intros H. apply load32_ext. intros x Hx. apply stacked_out. lia. Qed.

Lemma load32_stacked l : forall m sp i v,
  l !! i = Some v -> load32 (stacked m sp l) (sp - 4 * Z.of_nat (S i)) = u32 v.
Proof.
  induction l as [|w l IH]; intros m sp i v Hi; [done|]. cbn [stacked]. destruct i as [|i].
  - injection Hi as ->. replace (sp - 4 * Z.of_nat 1) with (sp - 4) by lia.
    rewrite load32_stacked_out by lia. apply load32_store32_eq.
  - replace (sp - 4 * Z.of_nat (S (S i))) with (sp - 4 - 4 * Z.of_nat (S i)) by lia. by apply IH.
Qed.

(** Straight-line code, one instruction after the other. *)
Ltac xsteps :=
  repeat (first
    [ rewrite push_at by lia
    | rewrite pop_at by lia
    | rewrite pop_seg_at by lia
    | rewrite drop_at by lia
    | progress cbv beta iota zeta delta [run_code foldl exec_instr setr getr getseg setseg set_eip set_eflags set_mem top x_regs x_segs
        x_eip x_eflags x_mem get_reg set_reg get_seg set_seg r_eax r_ecx r_edx r_ebx r_esp r_ebp r_esi r_edi
        s_es s_cs s_ss s_ds s_fs s_gs] ]).

(** Sums and differences with constants. *)
Ltac znorm :=
  repeat match goal with
  | |- context [?x + Zpos ?a + Zpos ?b] =>
      let c := eval compute in (Zpos a + Zpos b) in replace (x + Zpos a + Zpos b) with (x + c) by lia
  | |- context [?x - Zpos ?a - Zpos ?b] =>
      let c := eval compute in (Zpos a + Zpos b) in replace (x - Zpos a - Zpos b) with (x - c) by lia
  end.

(** ** swtch *)

Section Swtch.
Variable add_flags : Z -> Z -> Z -> Z.

(** The parts of a machine that a C function preserves for its caller. *)
Definition saved (m : mach) : Z * Z * Z * Z := (getr EDI m, getr ESI m, getr EBX m, getr EBP m).

Definition word (v : Z) : Prop := 0 <= v < 4294967296.
Definition saved_ok (m : mach) : Prop := word (getr EDI m) /\ word (getr ESI m) /\ word (getr EBX m) /\ word (getr EBP m).
Definition apart_from (a n b k : Z) : Prop := a + n <= b \/ b + k <= a.

(** A call of [swtch(old, new)]: the stack has room, and neither the slot for the old
    context nor the new context lies where the old context is saved. *)
Record swtch_call (m : mach) (old new ret : Z) : Prop := SwtchCall {
  sc_room : 16 <= getr ESP m;
  sc_args : getr ESP m + 12 <= 4294967296;
  sc_ret : top m = ret;
  sc_old : load32 (x_mem m) (getr ESP m + 4) = old;
  sc_new : load32 (x_mem m) (getr ESP m + 8) = new;
  sc_new_range : 0 <= new /\ new + 20 < 4294967296;
  sc_saved : saved_ok m;
  sc_slot : apart_from old 4 (getr ESP m - 16) 20;
  sc_ctx : apart_from new 20 (getr ESP m - 16) 16 /\ apart_from old 4 new 20 }.

Lemma swtch_run a c d b sp bp si di sg ip fl mm old new :
  16 <= sp -> sp + 12 <= 4294967296 -> load32 mm (sp + 4) = old -> load32 mm (sp + 8) = new ->
  0 <= new -> new + 20 < 4294967296 ->
  let m' := store32 (stacked mm sp [bp; b; si; di]) old (sp - 16) in let k := load_context m' new in
  run_code add_flags swtch (Mach (Regs a c d b sp bp si di) sg ip fl mm) =
  Mach (Regs old c new (ctx_ebx k) (new + 20) (ctx_ebp k) (ctx_esi k) (ctx_edi k)) sg (ctx_eip k) fl m'.
Proof using.
  intros H1 H2 H4 H5 H6 H7 m' k. unfold swtch. xsteps. rewrite !(u32_small (sp + _)) by lia. rewrite H4, H5. xsteps.
  unfold k, m', load_context. cbn [stacked ctx_edi ctx_esi ctx_ebx ctx_ebp ctx_eip].
  replace (sp - 4 - 4 - 4 - 4) with (sp - 16) by lia. replace (new + 4 + 4) with (new + 8) by lia.
  replace (new + 8 + 4) with (new + 12) by lia. replace (new + 12 + 4) with (new + 16) by lia.
  by replace (new + 16 + 4) with (new + 20) by lia.
Qed.

Lemma swtch_ok m old new ret :
  swtch_call m old new ret ->
  let m' := run_code add_flags swtch m in
  let sp := getr ESP m - 16 in let c := load_context (x_mem m) new in
  load32 (x_mem m') old = sp /\
  load_context (x_mem m') sp = Context (getr EDI m) (getr ESI m) (getr EBX m) (getr EBP m) ret /\
  saved m' = (ctx_edi c, ctx_esi c, ctx_ebx c, ctx_ebp c) /\ x_eip m' = ctx_eip c /\ getr ESP m' = new + 20 /\
  x_segs m' = x_segs m /\ x_eflags m' = x_eflags m /\
  forall x, x < old \/ old + 4 <= x -> x < sp \/ sp + 16 <= x -> x_mem m' x = x_mem m x.
Proof using.
  destruct m as [[a c d b sp bp si di] sg ip fl mm].
  intros [H1 H2 H3 H4 H5 H6 (W1 & W2 & W3 & W4) H7 [H8 H9]] m'. unfold top in H3. unfold word, apart_from, getr in *.
  cbn [x_mem x_regs get_reg r_edi r_esi r_ebx r_ebp r_esp] in H1, H2, H3, H4, H5, H7, H8, W1, W2, W3, W4.
  assert (E := swtch_run a c d b sp bp si di sg ip fl mm old new H1 H2 H4 H5 ltac:(lia) ltac:(lia)). fold m' in E. clearbody m'.
  cbv zeta in E. rewrite E. unfold saved, getr.
  cbn [x_mem x_regs x_eip x_segs x_eflags get_reg r_edi r_esi r_ebx r_ebp r_esp]. set (l := [bp; b; si; di]).
  set (M := store32 (stacked mm sp l) old (sp - 16)).
  assert (Ew : forall i v, l !! i = Some v -> 0 <= v < 4294967296 -> load32 M (sp - 4 * Z.of_nat (S i)) = v).
  { intros i v Hi Hv. pose proof (lookup_lt_Some _ _ _ Hi) as Hl. cbn in Hl. unfold M.
    rewrite load32_store32_ne by lia. rewrite (load32_stacked l _ _ _ _ Hi). by apply u32_small. }
  assert (Eo : forall x, x < old \/ old + 4 <= x -> x < sp - 16 \/ sp <= x -> M x = mm x).
  { intros x Hx Hy. unfold M. rewrite store32_ne by lia. apply stacked_out. cbn. lia. }
  assert (Ek : load_context M new = load_context mm new).
  { apply load_context_ext. intros x Hx. apply Eo; lia. }
  rewrite Ek. split; [unfold M; rewrite load32_store32_eq; apply u32_small; lia|]. split; [|by repeat split; [..|intros; apply Eo; lia]].
  unfold load_context. f_equal.
  - replace (sp - 16) with (sp - 4 * Z.of_nat 4) by lia. by apply Ew.
  - replace (sp - 16 + 4) with (sp - 4 * Z.of_nat 3) by lia. by apply Ew.
  - replace (sp - 16 + 8) with (sp - 4 * Z.of_nat 2) by lia. by apply Ew.
  - replace (sp - 16 + 12) with (sp - 4 * Z.of_nat 1) by lia. by apply Ew.
  - rewrite <- H3. replace (sp - 16 + 16) with sp by lia. apply load32_ext. intros x Hx. apply Eo; lia.
Qed.
End Swtch.

(** C21. A context switch is transparent: a thread that called [swtch] and is switched back to,
    by whatever thread and at whatever time, goes on at its return address with its stack
    pointer and the registers a C function may rely on, if only nobody wrote to the part of
    its stack below the arguments of the call. *)
Theorem swtch_transparent add_flags m old new ret m2 old2 ret2 :
  let m1 := run_code add_flags swtch m in let m3 := run_code add_flags swtch m2 in
  swtch_call m old new ret -> swtch_call m2 old2 (load32 (x_mem m1) old) ret2 ->
  (forall x, getr ESP m - 16 <= x < getr ESP m + 4 -> x_mem m2 x = x_mem m1 x) ->
  saved m3 = saved m /\ x_eip m3 = ret /\ getr ESP m3 = getr ESP m + 4.
Proof.
  intros m1 m3 H1 H2 Hs. destruct (swtch_ok add_flags m old new ret H1) as (Eo & Ec & _). fold m1 in Eo, Ec.
  destruct (swtch_ok add_flags m2 old2 _ ret2 H2) as (_ & _ & Es & Ee & Ep & _). fold m3 in Es, Ee, Ep.
  assert (E : load_context (x_mem m2) (load32 (x_mem m1) old) = Context (getr EDI m) (getr ESI m) (getr EBX m) (getr EBP m) ret).
  { rewrite <- Ec, Eo. apply load_context_ext. intros x Hx. apply Hs. lia. }
  rewrite E in Es, Ee. rewrite Es, Ee, Ep, Eo. split; [done|]. split; [done|lia].
Qed.

(** ** Traps *)

Definition regs_of (tf : trapframe) : regs :=
  Regs (tf_eax tf) (tf_ecx tf) (tf_edx tf) (tf_ebx tf) (tf_esp tf) (tf_ebp tf) (tf_esi tf) (tf_edi tf).
Definition segs_of (tf : trapframe) : segs := Segs (tf_es tf) (tf_cs tf) (tf_ss tf) (tf_ds tf) (tf_fs tf) (tf_gs tf).

(** [trapret] with a frame on top of the stack: to user mode all of it is restored, to the
    kernel all but the stack, which goes back to where it was. *)
Definition leave (sp ss : Z) (mm : mem) : mach :=
  let tf := load_frame mm sp in
  if 0 <? Z.land (tf_cs tf) 3 then Mach (regs_of tf) (segs_of tf) (tf_eip tf) (tf_eflags tf) mm
  else Mach (set_reg ESP (sp + 68) (regs_of tf)) (set_seg SS ss (segs_of tf)) (tf_eip tf) (tf_eflags tf) mm.

(** From the frame of the hardware to the call of [trap]: [s] is where the hardware left the
    address to return to; the error code is pushed by the hardware or by the vector. *)
Definition entered (ret : Z) (m : mach) (n err s : Z) : list Z :=
  [err; n; getseg DS m; getseg ES m; getseg FS m; getseg GS m; getr EAX m; getr ECX m; getr EDX m; getr EBX m;
   s - 24; getr EBP m; getr ESI m; getr EDI m; s - 56; ret].

(** What the hardware pushes, and from where on. *)
Definition hw_sp (esp0 : Z) (m : mach) : Z := if cpl m =? 0 then getr ESP m else esp0.
Definition hw_words (next : Z) (m : mach) : list Z :=
  (if cpl m =? 0 then [] else [getseg SS m; getr ESP m]) ++ [x_eflags m; getseg CS m; next].
(** Where the frame begins. *)
Definition frame_addr (esp0 : Z) (m : mach) : Z := hw_sp esp0 m - (if cpl m =? 0 then 68 else 76).

Lemma trap_entry_run ss0 esp0 gate err next m :
  20 <= hw_sp esp0 m <= 4294967296 ->
  trap_entry ss0 esp0 gate err next m =
    (fun x => match err with Some e => push e x | None => x end)
    (Mach (set_reg ESP (frame_addr esp0 m + 56) (x_regs m))
      (set_seg CS (gd_cs gate) (if cpl m =? 0 then x_segs m else set_seg SS ss0 (x_segs m)))
      (gd_off_15_0 gate + 65536 * gd_off_31_16 gate) (entry_flags gate (x_eflags m))
      (stacked (x_mem m) (hw_sp esp0 m) (hw_words next m))).
Proof.
  intros H. unfold trap_entry, frame_addr, hw_words, hw_sp in *.
  destruct m as [[a c d b sp bp si di] [e k s g f h] ip fl mm]. destruct (cpl _ =? 0).
  all: unfold getr, getseg in *; cbn [x_regs get_reg r_esp] in H; destruct err; xsteps.
  all: cbn [stacked app]; replace (sp - 68 + 56) with (sp - 12) by lia; replace (esp0 - 76 + 56) with (esp0 - 20) by lia.
  all: rewrite ?push_at by lia; znorm; reflexivity.
Qed.

(** ** What [trap] gets, and what it gives back *)

Definition half (v : Z) : Prop := 0 <= v < 65536.
(** The registers hold words, the segment registers selectors. *)
Definition mach_ok (m : mach) : Prop :=
  (forall r, word (getr r m)) /\ (forall r, half (getseg r m)) /\ word (x_eflags m).

(** The frame of a trap; without a change of level its last two fields are not there. *)
Definition frame_of (m : mach) (n err next tfp : Z) : trapframe :=
  let outer := if cpl m =? 0 then (load32 (x_mem m) (getr ESP m), load32 (x_mem m) (getr ESP m + 4) mod 65536)
    else (getr ESP m, getseg SS m) in
  Trapframe (getr EDI m) (getr ESI m) (getr EBP m) (tfp + 32) (getr EBX m) (getr EDX m) (getr ECX m) (getr EAX m)
    (getseg GS m) (getseg FS m) (getseg ES m) (getseg DS m) n err next (getseg CS m) (x_eflags m) outer.1 outer.2.

Lemma half_word v : half v -> u32 v mod 65536 = v.
Proof. unfold half. intros H. rewrite u32_small by lia. zlia. Qed.

(** All the words of the stack at the call of [trap]. *)
Lemma frame_loaded ret m n err next esp0 :
  let tfp := frame_addr esp0 m in let s := tfp + 56 in
  let M := stacked (stacked (x_mem m) (hw_sp esp0 m) (hw_words next m)) s (entered ret m n err s) in
  mach_ok m -> word n -> word err -> word next -> 84 <= hw_sp esp0 m <= 4294967296 ->
  load_frame M tfp = frame_of m n err next tfp /\ load32 M (tfp - 4) = tfp /\ load32 M (tfp - 8) = u32 ret /\
  forall x, x < tfp - 8 \/ hw_sp esp0 m <= x -> M x = x_mem m x.
Proof.
  intros tfp s M (Hr & Hg & Hf) Hn He Hx Hs.
  assert (Ein : forall k i v, entered ret m n err s !! i = Some v -> tfp + k = s - 4 * Z.of_nat (S i) ->
    load32 M (tfp + k) = u32 v) by (intros k i v Hi ->; by apply load32_stacked).
  assert (Eup : forall k i v, hw_words next m !! i = Some v -> tfp + k = hw_sp esp0 m - 4 * Z.of_nat (S i) ->
    load32 M (tfp + k) = u32 v).
  { intros k i v Hi Hk. unfold M. rewrite load32_stacked_out; [rewrite Hk; by apply load32_stacked|]. right.
    apply lookup_lt_Some in Hi. unfold s, tfp, frame_addr, hw_words in *. destruct (cpl m =? 0); cbn in Hi; lia. }
  assert (Eout : forall x, x < tfp - 8 \/ hw_sp esp0 m <= x -> M x = x_mem m x).
  { intros x Hx'. unfold M. rewrite !stacked_out; [done|..]; unfold s, tfp, frame_addr, hw_words, entered in *;
      destruct (cpl m =? 0); cbn [length app]; lia. }
  assert (R : word tfp /\ word (tfp + 32)) by (unfold word, tfp, frame_addr; destruct (cpl m =? 0); lia).
  split; [|split; [|split; [|exact Eout]]].
  - unfold load_frame, frame_of. replace (load32 M tfp) with (load32 M (tfp + 0)) by (f_equal; lia).
    rewrite (Ein 0 13%nat (getr EDI m)), (Ein 4 12%nat (getr ESI m)), (Ein 8 11%nat (getr EBP m)), (Ein 12 10%nat (s - 24)),
      (Ein 16 9%nat (getr EBX m)), (Ein 20 8%nat (getr EDX m)), (Ein 24 7%nat (getr ECX m)), (Ein 28 6%nat (getr EAX m)),
      (Ein 32 5%nat (getseg GS m)), (Ein 36 4%nat (getseg FS m)), (Ein 40 3%nat (getseg ES m)), (Ein 44 2%nat (getseg DS m)),
      (Ein 48 1%nat n), (Ein 52 0%nat err) by (done || (unfold s; lia)).
    replace (s - 24) with (tfp + 32) by (unfold s; lia). rewrite !half_word by done. rewrite !u32_small by (done || apply Hr || apply R).
    unfold hw_words, tfp, frame_addr, hw_sp in Eup, Eout |- *. destruct (cpl m =? 0); cbn [app] in Eup.
    + rewrite (Eup 56 2%nat next), (Eup 60 1%nat (getseg CS m)), (Eup 64 0%nat (x_eflags m)) by (done || lia).
      rewrite half_word, !u32_small by done. cbn [fst snd].
      replace (getr ESP m - 68 + 68) with (getr ESP m) by lia. replace (getr ESP m - 68 + 72) with (getr ESP m + 4) by lia.
      by rewrite !(load32_ext M (x_mem m)) by (intros; apply Eout; lia).
    + rewrite (Eup 56 4%nat next), (Eup 60 3%nat (getseg CS m)), (Eup 64 2%nat (x_eflags m)), (Eup 68 1%nat (getr ESP m)),
        (Eup 72 0%nat (getseg SS m)) by (done || lia).
      by rewrite !half_word, !u32_small by (done || apply Hr).
  - replace (tfp - 4) with (tfp + -4) by lia. rewrite (Ein (-4) 14%nat tfp) by (unfold entered, s; (cbn; f_equal; lia) || lia). apply u32_small, R.
  - replace (tfp - 8) with (tfp + -8) by lia. by rewrite (Ein (-8) 15%nat ret) by (done || (unfold s; lia)).
Qed.

(** A trap of the machine [m]: vector, gate and error code belong together, and there is room
    on the kernel stack. *)
Record trap_taken (esp0 : Z) (m : mach) (n : Z) (gate : gatedesc) (err : option Z) (next : Z) : Prop := TrapTaken {
  tt_mach : mach_ok m;
  tt_vector : 0 <= n < 256;
  tt_err : has_error_code n = bool_decide (is_Some err);
  tt_err_word : word (default 0 err);
  tt_next : word next;
  tt_gate : Z.land (gd_cs gate) 3 = 0;
  tt_room : 84 <= hw_sp esp0 m;
  tt_top : hw_sp esp0 m + 8 < 4294967296 }.

(** The C function called in [e] has returned in [e']; [trap] and [forkret] change neither
    the code nor the stack segment. *)
Record c_return (e e' : mach) : Prop := CReturn {
  cr_eip : x_eip e' = top e;
  cr_esp : getr ESP e' = getr ESP e + 4;
  cr_cs : getseg CS e' = getseg CS e;
  cr_ss : getseg SS e' = getseg SS e }.

Section Traps.
Variable add_flags : Z -> Z -> Z -> Z.
Variables alltraps_addr trap_addr trap_return : Z.
Abbreviation xrun := (run_code add_flags).

Lemma trapret_run m :
  0 <= getr ESP m -> getr ESP m + 76 < 4294967296 -> cpl m = 0 ->
  xrun trapret m = leave (getr ESP m) (getseg SS m) (x_mem m).
Proof using.
  destruct m as [[a c d b sp bp si di] [e k s g f h] ip fl mm]. unfold cpl, getseg, getr.
  cbn [x_regs x_segs x_mem get_reg get_seg r_esp s_cs s_ss]. intros H0 H1 Hc.
  unfold trapret. xsteps. rewrite !u32_small by lia. unfold iret, cpl. xsteps. rewrite Hc. znorm. reflexivity.
Qed.

Lemma alltraps_run m n err :
  let s := getr ESP m in let KD := Z.shiftl SEG_KDATA 3 in
  64 <= s <= 4294967296 -> has_error_code n = bool_decide (is_Some err) -> 0 <= n < 256 ->
  trap_call add_flags alltraps_addr trap_addr trap_return n (match err with Some e => push e m | None => m end) =
  Mach (set_reg ESP (s - 64) (set_reg EAX (getr EAX m / 65536 * 65536 + KD) (x_regs m)))
    (set_seg DS KD (set_seg ES KD (x_segs m))) trap_addr (x_eflags m) (stacked (x_mem m) s (entered trap_return m n (default 0 err) s)).
Proof using.
  destruct m as [[a c d b sp bp si di] [e k s g f h] ip fl mm]. unfold entered, getseg, getr.
  cbn [x_regs x_segs x_mem x_eflags get_reg get_seg r_eax r_ecx r_edx r_ebx r_esp r_ebp r_esi r_edi s_es s_ds s_fs s_gs].
  intros Hs He Hn. unfold trap_call, vector, alltraps. rewrite He. destruct err as [v|]; cbn [bool_decide is_Some_dec default negb app].
  all: rewrite ?push_at by lia; xsteps; change (Z.shiftl SEG_KDATA 3) with 16; change (16 mod 65536) with 16.
  all: rewrite (u32_small n) by lia; change (u32 0) with 0; replace ((a / 65536 * 65536 + 16) mod 65536) with 16 by zlia.
  all: cbn [stacked set_reg set_seg]; znorm; reflexivity.
Qed.

Definition taken (ss0 esp0 : Z) (m : mach) (n : Z) (gate : gatedesc) (err : option Z) (next : Z) : mach :=
  trap_call add_flags alltraps_addr trap_addr trap_return n (trap_entry ss0 esp0 gate err next m).

Lemma taken_ok ss0 esp0 m n gate err next :
  trap_taken esp0 m n gate err next ->
  let e := taken ss0 esp0 m n gate err next in let tfp := frame_addr esp0 m in
  (x_eip e = trap_addr /\ top e = u32 trap_return /\ load32 (x_mem e) (getr ESP e + 4) = tfp) /\
  load_frame (x_mem e) tfp = frame_of m n (default 0 err) next tfp /\
  (getr ESP e = tfp - 8 /\ cpl e = 0 /\ getseg SS e = if cpl m =? 0 then getseg SS m else ss0) /\
  forall x, x < tfp - 8 \/ hw_sp esp0 m <= x -> x_mem e x = x_mem m x.
Proof using.
  intros [Hm Hn He Hw Hx Hg Hr Ht] e tfp.
  destruct (frame_loaded trap_return m n (default 0 err) next esp0 Hm ltac:(unfold word; lia) Hw Hx ltac:(lia)) as (Ef & Ea & Er & Eo).
  fold tfp in Ef, Ea, Er, Eo. assert (Rt : 8 <= tfp /\ tfp + 56 <= 4294967296) by (unfold tfp, frame_addr; destruct (cpl m =? 0); lia).
  assert (E := trap_entry_run ss0 esp0 gate err next m ltac:(lia)). fold tfp in E. cbv beta in E. set (X := Mach _ _ _ _ _) in E.
  assert (EX : getr ESP X = tfp + 56) by (unfold X, getr; cbn [x_regs]; by destruct (x_regs m)).
  assert (EE : forall v s, entered trap_return X n v s = entered trap_return m n v s)
    by (intros; unfold X, entered, getr, getseg; cbn [x_regs x_segs]; destruct (cpl m =? 0), (x_regs m), (x_segs m); done).
  pose proof (alltraps_run X n err) as Ee. cbv zeta in Ee. rewrite EX, EE, <- E in Ee. specialize (Ee ltac:(lia) He Hn).
  fold (taken ss0 esp0 m n gate err next) in Ee. fold e in Ee. clearbody e. unfold X in Ee. cbn [x_mem x_regs x_segs x_eflags] in Ee.
  replace (tfp + 56 - 64) with (tfp - 8) in Ee by lia. set (M := stacked _ _ _) in *. clearbody M X. clear E EX EE.
  assert (Esp : getr ESP e = tfp - 8) by (rewrite Ee; unfold getr; cbn [x_regs]; by destruct (x_regs m)).
  assert (Eg : getseg CS e = gd_cs gate /\ getseg SS e = if cpl m =? 0 then getseg SS m else ss0)
    by (rewrite Ee; unfold getseg; cbn [x_segs]; destruct (cpl m =? 0), (x_segs m); done).
  assert (EM : x_mem e = M) by by rewrite Ee. assert (Ei : x_eip e = trap_addr) by by rewrite Ee.
  unfold cpl at 1, top. rewrite Esp, EM, Ei. replace (tfp - 8 + 4) with (tfp - 4) by lia.
  destruct Eg as [-> ->]. by repeat split.
Qed.

(** Behind the call of [trap]. *)
Lemma resume_ok e tfp :
  getr ESP e = tfp - 4 -> 4 <= tfp -> tfp + 76 < 4294967296 -> cpl e = 0 ->
  trap_exit add_flags e = leave tfp (getseg SS e) (x_mem e).
Proof using.
  intros H Hl Hh Hc. unfold trap_exit, after_trap. cbn [run_code foldl exec_instr].
  assert (E : getr ESP (set_eflags (add_flags (x_eflags e) (getr ESP e) 4) (setr ESP (u32 (getr ESP e + 4)) e)) = tfp).
  { unfold getr, set_eflags, setr. cbn [x_regs]. fold (getr ESP e). rewrite H, u32_small by lia. destruct (x_regs e). cbn. lia. }
  change (foldl (fun m i => exec_instr add_flags i m)) with (fun m c => xrun c m). cbv beta.
  rewrite trapret_run by (rewrite ?E; (lia || done)). by rewrite E.
Qed.
End Traps.

(** The frame of [m], with another eax, restores [m]. *)
Lemma leave_frame m n err next esp0 mm v :
  let tfp := frame_addr esp0 m in mach_ok m ->
  load_frame mm tfp = set_tf_eax v (frame_of m n err next tfp) ->
  forall ss, (cpl m = 0 -> ss = getseg SS m) ->
  leave tfp ss mm = Mach (set_reg EAX v (x_regs m)) (x_segs m) next (x_eflags m) mm.
Proof.
  intros tfp (_ & Hg & _) Hf ss Hss. unfold leave. rewrite Hf. unfold tfp, frame_addr, hw_sp, frame_of.
  pose proof (Z.land_nonneg (getseg CS m) 3) as H0. specialize (Hg CS). unfold half in Hg. fold (cpl m) in H0.
  cbn [set_tf_eax tf_cs tf_eip tf_eflags]. fold (cpl m).
  destruct (Z.eqb_spec (cpl m) 0) as [Hc|Hc]; [rewrite Hc, (Hss Hc)|replace (0 <? cpl m) with true by lia].
  - change (0 <? 0) with false. cbv iota. replace (getr ESP m - 68 + 68) with (getr ESP m) by lia.
    unfold getr, getseg, regs_of, segs_of. by destruct m as [[] [] ? ? ?].
  - unfold getr, getseg, regs_of, segs_of. by destruct m as [[] [] ? ? ?].
Qed.

Lemma exit_frame add_flags e m n err next esp0 v :
  let tfp := frame_addr esp0 m in
  mach_ok m -> 84 <= hw_sp esp0 m -> hw_sp esp0 m + 8 < 4294967296 ->
  getr ESP e = tfp - 4 -> cpl e = 0 -> (cpl m = 0 -> getseg SS e = getseg SS m) ->
  load_frame (x_mem e) tfp = set_tf_eax v (frame_of m n err next tfp) ->
  trap_exit add_flags e = Mach (set_reg EAX v (x_regs m)) (x_segs m) next (x_eflags m) (x_mem e).
Proof.
  intros tfp Hm Hr Hh Hs Hc Hss Hf. assert (R : 4 <= tfp /\ tfp + 76 < 4294967296).
  { unfold tfp, frame_addr. destruct (cpl m =? 0); lia. }
  rewrite (resume_ok add_flags e tfp) by (done || lia). by apply (leave_frame m n err next).
Qed.

(** C19. Traps are transparent. From user mode and from the kernel, with and without an error
    code, the vector and [alltraps] call [trap] with a pointer to a frame that holds exactly
    the interrupted registers, the vector and the error code; and when [trap] returns and has
    left the frame alone, but for the value [v] it may have stored as eax, the interrupted
    code goes on with all its registers, flags, segments and its stack, and [v] in eax. *)
Theorem trap_transparent add_flags alltraps_addr trap_addr trap_return ss0 esp0 m n gate err next e trap v :
  let tfp := frame_addr esp0 m in let tf := frame_of m n (default 0 err) next tfp in
  e = taken add_flags alltraps_addr trap_addr trap_return ss0 esp0 m n gate err next ->
  trap_taken esp0 m n gate err next -> c_return e (trap e) ->
  load_frame (x_mem (trap e)) tfp = set_tf_eax v tf ->
  x_eip e = trap_addr /\ load32 (x_mem e) (getr ESP e + 4) = tfp /\ load_frame (x_mem e) tfp = tf /\
  trap_exit add_flags (trap e) =
    Mach (set_reg EAX v (x_regs m)) (x_segs m) next (x_eflags m) (x_mem (trap e)).
Proof.
  intros tfp tf He Ht Hc Hf.
  destruct (taken_ok add_flags alltraps_addr trap_addr trap_return ss0 esp0 m n gate err next Ht) 
    as ((E1 & _ & E2) & E3 & (Esp & Ec & Es) & _). rewrite <- He in E1, E2, E3, Esp, Ec, Es. clear He.
  split; [exact E1|]. split; [exact E2|]. split; [exact E3|]. destruct Ht as [Hm _ _ _ _ _ Hr Hh], Hc as [C1 C2 C3 C4].
  apply (exit_frame add_flags (trap e) m n (default 0 err) next esp0 v Hm Hr Hh); [| | |exact Hf].
  - rewrite C2, Esp. fold tfp. lia.
  - unfold cpl. rewrite C3. exact Ec.
  - intros Hc. rewrite C4, Es, Hc. reflexivity.
Qed.

(** ** System calls *)

Lemma gate_offset off : word off -> Z.land (u32 off) 0xffff + 65536 * Z.shiftr (u32 off) 16 = off.
Proof.
  intros H. rewrite u32_small by done. unfold word in H. change 0xffff with (Z.ones 16).
  rewrite Z.land_ones, Z.shiftr_div_pow2 by lia. change (2 ^ 16) with 65536. zlia.
Qed.

Lemma call_number name : word (number name).
Proof. by destruct name. Qed.

Lemma mach_ok_setr r v m : mach_ok m -> word v -> mach_ok (setr r v m).
Proof.
  intros (Hr & Hg & Hf) Hv. split; [|done]. intros r'. specialize (Hr r'). unfold getr, setr in *. cbn [x_regs].
  destruct (x_regs m), r, r'; done.
Qed.

(** The frame of a system call. *)
Definition stub_frame (name : sysno) (m : mach) (next esp0 : Z) : trapframe :=
  frame_of (setr EAX (number name) m) T_SYSCALL 0 next (frame_addr esp0 m).

(** A call of a stub from user mode, whose stack and arguments lie below [sz]; the kernel
    stack above it has room. *)
Record stub_entered (m : mach) (next esp0 sz : Z) : Prop := StubEntered {
  se_mach : mach_ok m;
  se_user : cpl m = 3;
  se_next : word next;
  se_stack : getr ESP m + 4 <= sz;
  se_sz : sz + 84 <= esp0;
  se_esp0 : esp0 + 8 < 4294967296 }.

Section Stub.
Variables (vectors : list Z) (entry : Z).
Hypothesis Hlen : (Z.to_nat T_SYSCALL < length vectors)%nat.
Hypothesis Hentry : vectors !! Z.to_nat T_SYSCALL = Some entry.

Definition call_gate : gatedesc := default (SETGATE false 0 0 0) (tvinit vectors !! Z.to_nat T_SYSCALL).

Lemma call_gate_eq : call_gate = SETGATE true (Z.shiftl SEG_KCODE 3) entry DPL_USER.
Proof using Hlen Hentry.
  unfold call_gate, tvinit. rewrite list_lookup_insert_eq by (by rewrite length_fmap). by rewrite Hentry.
Qed.

Lemma stub_taken m next esp0 sz name :
  stub_entered m next esp0 sz -> trap_taken esp0 (setr EAX (number name) m) T_SYSCALL call_gate None next.
Proof using Hlen Hentry.
  intros [Hm Hu Hn Hs Hz He]. rewrite call_gate_eq.
  assert (Hsp : hw_sp esp0 (setr EAX (number name) m) = esp0).
  { unfold hw_sp. change (cpl (setr EAX (number name) m)) with (cpl m). by rewrite Hu. }
  assert (0 <= getr ESP m) by apply Hm.
  split; rewrite ?Hsp; try done; try lia. by apply mach_ok_setr; [|apply call_number].
Qed.
End Stub.

(** The return of a stub, on the machine that [trap_exit] left. *)
Lemma stub_ret add_flags m v next mm :
  0 <= getr ESP m -> getr ESP m + 4 < 4294967296 ->
  run_code add_flags stub_return (Mach (set_reg EAX v (x_regs m)) (x_segs m) next (x_eflags m) mm) =
  Mach (set_reg EAX v (set_reg ESP (getr ESP m + 4) (x_regs m))) (x_segs m) (load32 mm (getr ESP m)) (x_eflags m) mm.
Proof.
  destruct m as [[a c d b sp bp si di] sg ip fl m0]. unfold getr. cbn [x_regs x_segs x_eflags get_reg set_reg r_esp].
  intros H0 H1. unfold stub_return. xsteps. reflexivity.
Qed.

(** C20. A system call as the user program sees it. The stub of [name], entered like a C
    function, traps through a gate user mode may use to the vector of system calls; the frame
    [trap] gets has the number of the call in eax, and argint, with the stack pointer of the
    frame, finds the words the caller pushed; and when the kernel has left a result in the
    frame, the stub returns to its caller with the result in eax and every other register,
    the flags and the segments as they were at the call. *)
Theorem syscall_stub add_flags alltraps_addr trap_addr trap_return vectors entry ss0 esp0 sz name m next m1 e trap v :
  let tf := stub_frame name m next esp0 in let gate := call_gate vectors in
  vectors !! Z.to_nat T_SYSCALL = Some entry -> word entry -> stub_entered m next esp0 sz ->
  m1 = run_code add_flags (stub_call name) m ->
  e = taken add_flags alltraps_addr trap_addr trap_return ss0 esp0 m1 T_SYSCALL gate None next ->
  c_return e (trap e) -> load_frame (x_mem (trap e)) (frame_addr esp0 m) = set_tf_eax v tf ->
  load32 (x_mem (trap e)) (getr ESP m) = top m ->
  (cpl m1 <= gd_dpl gate /\ x_eip (trap_entry ss0 esp0 gate None next m1) = entry) /\
  (load_frame (x_mem e) (frame_addr esp0 m) = tf /\ tf_trapno tf = T_SYSCALL /\ tf_eax tf = number name /\
   forall i, 0 <= i -> getr ESP m + 8 + 4 * i <= sz ->
     argint (UView sz (tf_esp tf) (x_mem e)) i = Some (s32 (load32 (x_mem m) (getr ESP m + 4 + 4 * i)))) /\
  run_code add_flags stub_return (trap_exit add_flags (trap e)) =
    Mach (set_reg EAX v (set_reg ESP (getr ESP m + 4) (x_regs m))) (x_segs m) (top m) (x_eflags m) (x_mem (trap e)).
Proof.
  intros tf gate Hv Hw Hs Hm1 He Hret Hf Htop. pose proof (lookup_lt_Some _ _ _ Hv) as Hl.
  assert (E1 : m1 = setr EAX (number name) m).
  { rewrite Hm1. unfold stub_call. cbn [run_code foldl exec_instr]. by rewrite (u32_small _ (call_number name)). }
  pose proof (stub_taken vectors entry Hl Hv m next esp0 sz name Hs) as Ht. rewrite <- E1 in Ht. fold gate in Ht. clear Hm1.
  assert (Ea : frame_addr esp0 m1 = frame_addr esp0 m) by (rewrite E1; by destruct m as [[] ? ? ? ?]).
  destruct (taken_ok add_flags alltraps_addr trap_addr trap_return ss0 esp0 m1 T_SYSCALL gate None next Ht)
    as ((_ & _ & _) & Ef & (Esp & Ec & Es) & Eo). rewrite <- He, Ea in *. clear He.
  assert (Etf : tf = frame_of m1 T_SYSCALL 0 next (frame_addr esp0 m)) by (unfold tf, stub_frame; by rewrite E1).
  destruct Hs as [Hm Hu Hn Hst Hz He0]. assert (H0 : 0 <= getr ESP m) by apply Hm.
  assert (Hc : cpl m1 = 3) by by rewrite E1. assert (Efa : frame_addr esp0 m = esp0 - 76) by (unfold frame_addr, hw_sp; by rewrite Hu).
  split; [|split; [split; [by rewrite Etf|split; [done|split]]|]].
  - unfold gate. rewrite (call_gate_eq vectors entry Hl Hv), Hc. split; [done|]. by apply gate_offset.
  - by destruct m as [[] ? ? ? ?].
  - intros i Hi Hb. assert (Et : tf_esp tf = getr ESP m).
    { rewrite Etf. unfold frame_of. rewrite Hc, E1. by destruct m as [[] ? ? ? ?]. }
    unfold argint, fetchint. cbn [u_sz u_esp u_mem]. rewrite Et, !u32_small by (rewrite ?u32_small; lia).
    replace (_ || _) with false by lia. do 2 f_equal. rewrite E1 in Eo. apply load32_ext. intros x Hx. apply Eo. lia.
  - destruct Ht as [Hm1 _ _ _ _ _ Hr Hh], Hret as [C1 C2 C3 C4].
    rewrite (exit_frame add_flags (trap e) m1 T_SYSCALL 0 next esp0 v Hm1 Hr Hh); rewrite ?Ea.
    + rewrite E1. replace (set_reg EAX v (x_regs (setr EAX (number name) m))) with (set_reg EAX v (x_regs m)) by by destruct m as [[] ? ? ? ?].
      rewrite <- Htop. apply (stub_ret add_flags m v next); lia.
    + rewrite C2, Esp. lia.
    + unfold cpl. rewrite C3. exact Ec.
    + rewrite Hc. done.
    + rewrite <- Etf. exact Hf.
Qed.

(** ** The first run of a process *)

(** The record [p_kstk] of a process is what its kernel stack holds. *)
Definition kstk_at (mm : mem) (q : proc) : Prop :=
  load_frame mm (p_tf q) = ks_tf (p_kstk q) /\ load32 mm (p_tf q - 4) = ks_ret (p_kstk q) /\
  load_context mm (p_context q) = ks_ctx (p_kstk q).

(** A process as [fork] and [userinit] leave it: the stack of [allocproc] with a trap frame. *)
Definition new_process (trapret_addr forkret_addr k : Z) (p : proc) (tf : trapframe) : proc :=
  let q := init_stack trapret_addr forkret_addr k p in set_p_kstk (Kstk tf (ks_ret (p_kstk q)) (ks_ctx (p_kstk q))) q.

Lemma new_process_layout trapret_addr forkret_addr k p tf :
  0 <= k -> k + 4096 < 4294967296 ->
  let q := new_process trapret_addr forkret_addr k p tf in
  p_tf q = k + 4020 /\ p_context q = k + 3996 /\ ks_tf (p_kstk q) = tf /\ ks_ret (p_kstk q) = trapret_addr /\
  ks_ctx (p_kstk q) = Context 0 0 0 0 forkret_addr.
Proof.
  intros H0 H1. unfold new_process, init_stack, KSTACKSIZE, TRAPFRAME_SIZE, CONTEXT_SIZE.
  destruct p. cbn -[u32 Z.add Z.sub]. rewrite !u32_small by (rewrite ?u32_small; lia). repeat split; lia.
Qed.

(** C22. The first run of a process. When the scheduler switches to a process that [allocproc]
    laid out and [fork] or [userinit] gave a trap frame, the processor arrives in [forkret],
    which returns to [trapret], which leaves the kernel with exactly the registers, segments,
    flags and the address of the frame. *)
Theorem first_run add_flags trapret_addr forkret_addr k p tf m old ret m1 forkret :
  let q := new_process trapret_addr forkret_addr k p tf in
  0 <= k -> k + 4100 < 4294967296 -> kstk_at (x_mem m) q -> Z.land (tf_cs tf) 3 = 3 -> cpl m = 0 ->
  swtch_call m old (p_context q) ret ->
  apart_from old 4 k 4096 -> apart_from (getr ESP m - 16) 16 k 4096 ->
  m1 = run_code add_flags swtch m -> c_return m1 (forkret m1) ->
  (forall x, k + 4020 <= x < k + 4096 -> x_mem (forkret m1) x = x_mem m1 x) ->
  x_eip m1 = forkret_addr /\ x_eip (forkret m1) = trapret_addr /\
  run_code add_flags trapret (forkret m1) = Mach (regs_of tf) (segs_of tf) (tf_eip tf) (tf_eflags tf) (x_mem (forkret m1)).
Proof.
  intros q H0 H1 (Kf & Kr & Kc) Hu Hc Hs Ha Hb Hm1 [C1 C2 C3 C4] Hx. unfold apart_from in *.
  destruct (new_process_layout trapret_addr forkret_addr k p tf H0 ltac:(lia)) as (Lt & Lc & Ef & Er & Ec). fold q in Lt, Lc, Ef, Er, Ec.
  rewrite Lt, Lc, Ef, Er, Ec in *. clear Lt Lc Ef Er Ec q.
  destruct (swtch_ok add_flags m old _ ret Hs) as (_ & _ & _ & Ei & Ep & Eg & _ & Eo). rewrite <- Hm1, Kc in *. clear Hm1 Hs.
  split; [exact Ei|].
  assert (Er : load32 (x_mem m1) (k + 4016) = trapret_addr).
  { rewrite <- Kr. replace (k + 4020 - 4) with (k + 4016) by lia. apply load32_ext. intros x ?. apply Eo; lia. }
  split; [rewrite C1; unfold top; rewrite Ep; by replace (k + 3996 + 20) with (k + 4016) by lia|].
  assert (Ep1 : getr ESP (forkret m1) = k + 4020) by lia.
  assert (Ec : cpl (forkret m1) = 0) by (unfold cpl in *; rewrite C3; unfold getseg in *; by rewrite Eg).
  rewrite trapret_run by (rewrite ?Ep1; done || lia). rewrite Ep1. unfold leave.
  replace (load_frame (x_mem (forkret m1)) (k + 4020)) with tf; [by rewrite Hu|].
  rewrite <- Kf. symmetry. apply load_frame_ext. intros x ?. rewrite Hx by lia. apply Eo; lia.
Qed.

(** ** Examples *)

Definition no_flags (fl a b : Z) : Z := fl.
Definition words_at (a : Z) (l : list Z) (m : mem) : mem := store_bytes m a (l ≫= le32).
(** A function that returns at once. *)
Definition ret_at_once (e : mach) : mach := set_eip (top e) (drop_top e).

Lemma ret_mem e : x_mem (ret_at_once e) = x_mem e.
Proof. done. Qed.

Definition kernel_segs : segs := Segs 16 8 16 16 0 0.
Definition user_segs : segs := Segs 35 27 35 35 0 0.

Definition thread_a : mach :=
  Mach (Regs 1 2 3 4 0x1000 5 6 7) kernel_segs 0 0 (words_at 0x1000 [77; 0x2000; 0x3000] (fun _ => 0)).
Definition thread_b : mach :=
  Mach (Regs 8 8 8 8 0x5000 8 8 8) kernel_segs 0 0
    (words_at 0x5000 [99; 0x2100; 0xff0] (x_mem (run_code no_flags swtch thread_a))).

Lemma swtch_transparent_witness :
  let m3 := run_code no_flags swtch thread_b in
  saved m3 = saved thread_a /\ x_eip m3 = 77 /\ getr ESP m3 = getr ESP thread_a + 4.
Proof.
  apply (swtch_transparent no_flags thread_a 0x2000 0x3000 77 thread_b 0x2100 99).
  - split; try (by vm_compute); try (by left; vm_compute); try (by right; vm_compute).
    split; [by right; vm_compute|by left; vm_compute].
  - split; try (by vm_compute); try (by left; vm_compute); try (by right; vm_compute).
    split; [by left; vm_compute|by right; vm_compute].
  - intros x Hx. change (getr ESP thread_a) with 0x1000 in Hx. unfold thread_b, words_at. cbn [x_mem]. set (m := x_mem _).
    clearbody m. cbn [mbind list_bind app le32 store_bytes]. by rewrite !store8_ne by lia.
Defined.

(** A timer interrupt in user mode. *)
Definition user_mach : mach := Mach (Regs 1 2 3 4 0x2ff0 5 6 7) user_segs 0x100 0x202 (words_at 0x2ff0 [0x44; 11; 12] (fun _ => 0)).
Definition timer_gate : gatedesc := SETGATE false (Z.shiftl SEG_KCODE 3) 0x80105000 0.
Definition timer_call : mach := taken no_flags 0x80106000 0x80107000 0x80106020 16 0x80009000 user_mach 32 timer_gate None 0x100.

Lemma user_mach_ok : mach_ok user_mach.
Proof. split; [by intros []|split; [by intros []|done]]. Qed.

Lemma trap_transparent_witness :
  x_eip timer_call = 0x80107000 /\ trap_exit no_flags (ret_at_once timer_call) =
    Mach (set_reg EAX 1 (x_regs user_mach)) (x_segs user_mach) 0x100 0x202 (x_mem (ret_at_once timer_call)).
Proof.
  edestruct (trap_transparent no_flags 0x80106000 0x80107000 0x80106020 16 0x80009000 user_mach 32 timer_gate None 0x100
    timer_call ret_at_once 1) as (H1 & _ & _ & H2); [reflexivity| | |by vm_compute|exact (conj H1 H2)].
  - split; try done; [exact user_mach_ok|by vm_compute..].
  - split; by vm_compute.
Defined.

(** A call of getpid that the kernel answers with 5. *)
Definition sample_vectors : list Z := (fun i => 0x80105000 + 16 * Z.of_nat i) <$> seq 0 256.
Definition getpid_call : mach :=
  taken no_flags 0x80106000 0x80107000 0x80106020 16 0x80009000 (run_code no_flags (stub_call SYS_getpid) user_mach)
    T_SYSCALL (call_gate sample_vectors) None 0x105.
Definition answer_5 (e : mach) : mach := let e' := ret_at_once e in set_mem (store32 (x_mem e) (0x80009000 - 76 + 28) 5) e'.

Lemma syscall_stub_witness :
  run_code no_flags stub_return (trap_exit no_flags (answer_5 getpid_call)) =
    Mach (set_reg EAX 5 (set_reg ESP (getr ESP user_mach + 4) (x_regs user_mach))) (x_segs user_mach) (top user_mach)
      (x_eflags user_mach) (x_mem (answer_5 getpid_call)).
Proof.
  edestruct (syscall_stub no_flags 0x80106000 0x80107000 0x80106020 sample_vectors 0x80105400 16 0x80009000 0x3000 SYS_getpid
    user_mach 0x105 (run_code no_flags (stub_call SYS_getpid) user_mach) getpid_call answer_5 5) as (_ & _ & H);
    [by vm_compute|by vm_compute| |reflexivity|reflexivity| |by vm_compute|by vm_compute|exact H].
  - split; [exact user_mach_ok|by vm_compute..].
  - split; by vm_compute.
Defined.

(** A new process with its kernel stack at 0x10000. *)
Definition scheduler_mach : mach :=
  Mach (Regs 1 2 3 4 0x1000 5 6 7) kernel_segs 0 0
    (words_at 0x10f9c ([0; 0; 0; 0; 0x80103000; 0x80106030] ++ replicate 15 0 ++ [27; 0x202; 0x3000; 35])
      (words_at 0x1000 [77; 0x2000; 0x10f9c] (fun _ => 0))).
Definition sample_frame : trapframe := load_frame (x_mem scheduler_mach) 0x10fb4.

Lemma first_run_witness :
  let m1 := run_code no_flags swtch scheduler_mach in
  x_eip m1 = 0x80103000 /\ x_eip (ret_at_once m1) = 0x80106030 /\
  run_code no_flags trapret (ret_at_once m1) =
    Mach (regs_of sample_frame) (segs_of sample_frame) (tf_eip sample_frame) (tf_eflags sample_frame) (x_mem (ret_at_once m1)).
Proof.
  apply (first_run no_flags 0x80106030 0x80103000 0x10000 zero_proc sample_frame scheduler_mach 0x2000 77).
  - done.
  - done.
  - split; [by vm_compute|split; by vm_compute].
  - by vm_compute.
  - by vm_compute.
  - split; try (by vm_compute); try (by left; vm_compute); try (by right; vm_compute).
    split; [by right; vm_compute|by left; vm_compute].
  - by left; vm_compute.
  - by left; vm_compute.
  - reflexivity.
  - split; by vm_compute.
  - intros x _. rewrite ret_mem. reflexivity.
Defined.
