(* ===== verification/Boot.v ===== *)
(** * The boot loader (bootmain.c)

    The loader reads the kernel, an ELF file that starts at sector 1 of drive 0, through the
    ports of the IDE controller and copies its segments to their physical addresses. It runs
    without paging, so the memory is the physical one. Loops over the segments and their
    sectors have the fuel their bounds give them; the loop that polls the controller spins
    after [patience] turns. *)

From stdpp Require Import base tactics numbers list strings.
From Stdlib Require Import ZArith Lia ZifyNat ZifyBool.
From S2P Require Import Prelude Layout Ports Apic Sleeplock Bio Ide IdeSpec.

Definition SECTSIZE : Z := 512.
(** Where the headers are read to: [elf = (struct elfhdr* )0x10000]. *)
Definition SCRATCH : Z := 0x10000.

(** The fields of the two headers the loader uses, at an address. *)
Definition elf_magic (m : mem) (elf : Z) : Z := load32 m elf.
Definition elf_entry (m : mem) (elf : Z) : Z := load32 m (elf + 24).
Definition elf_phoff (m : mem) (elf : Z) : Z := load32 m (elf + 28).
Definition elf_phnum (m : mem) (elf : Z) : Z := m (elf + 44) + 256 * m (elf + 45).
Definition ph_off (m : mem) (ph : Z) : Z := load32 m (ph + 4).
Definition ph_paddr (m : mem) (ph : Z) : Z := load32 m (ph + 12).
Definition ph_filesz (m : mem) (ph : Z) : Z := load32 m (ph + 16).
Definition ph_memsz (m : mem) (ph : Z) : Z := load32 m (ph + 20).

Section Boot.
Context {D : Type} {ports : Ports D}.
Variable patience : nat.
Abbreviation St := (hw D).

(** [while((inb(0x1F7) & 0xC0) != 0x40);] *)
Fixpoint waitdisk_loop (fuel : nat) : M St unit :=
  match fuel with
  | O => block
  | S fuel =>
      let! v := dev_in 0x1F7 in
      if Z.land v 0xC0 =? 0x40 then m_ret tt else waitdisk_loop fuel
  end.
Definition waitdisk : M St unit := waitdisk_loop patience.

(** [insl(0x1F0, dst, SECTSIZE/4)] *)
Definition insl_mem (port dst : Z) (words : nat) : M St unit :=
  let! s := get in
  let '(l, d) := insl port words (hw_dev s) in
  put (Hw (store_bytes (hw_mem s) dst l) d).

Definition readsect (dst offset : Z) : M St unit :=
  waitdisk ;;;
  dev_out 0x1F2 1 ;;;
  dev_out 0x1F3 offset ;;;
  dev_out 0x1F4 (Z.shiftr offset 8) ;;;
  dev_out 0x1F5 (Z.shiftr offset 16) ;;;
  dev_out 0x1F6 (Z.lor (Z.shiftr offset 24) 0xE0) ;;;
  dev_out 0x1F7 0x20 ;;;
  waitdisk ;;;
  insl_mem 0x1F0 dst (Z.to_nat (SECTSIZE / 4)).

(** [for(; pa < epa; pa += SECTSIZE, offset++)] *)
Fixpoint readseg_loop (fuel : nat) (pa epa offset : Z) : M St unit :=
  match fuel with
  | O => block
  | S fuel =>
      if pa <? epa then
        readsect pa offset ;;;
        readseg_loop fuel (u32 (pa + SECTSIZE)) epa (u32 (offset + 1))
      else m_ret tt
  end.
(** Not more turns than the range has sectors, the first one cut. *)
Definition readseg (pa count offset : Z) : M St unit :=
  let epa := u32 (pa + count) in
  let pa := u32 (pa - offset mod SECTSIZE) in
  let offset := u32 (offset / SECTSIZE + 1) in
  readseg_loop (Z.to_nat (count / SECTSIZE) + 3) pa epa offset.

(** [for(; ph < eph; ph++)] *)
Fixpoint load_loop (fuel : nat) (ph eph : Z) : M St unit :=
  match fuel with
  | O => block
  | S fuel =>
      if ph <? eph then
        let! pa := gets (fun s => ph_paddr (hw_mem s) ph) in
        let! filesz := gets (fun s => ph_filesz (hw_mem s) ph) in
        let! off := gets (fun s => ph_off (hw_mem s) ph) in
        readseg pa filesz off ;;;
        let! filesz := gets (fun s => ph_filesz (hw_mem s) ph) in
        let! memsz := gets (fun s => ph_memsz (hw_mem s) ph) in
        when (filesz <? memsz)
          (modify (fun s => Hw (fill (hw_mem s) (u32 (pa + filesz)) (memsz - filesz) 0) (hw_dev s))) ;;;
        load_loop fuel (u32 (ph + PROGHDR_SIZE)) eph
      else m_ret tt
  end.

(** The result is the address the loader jumps to; none is the return to bootasm.S. *)
Definition bootmain : M St (option Z) :=
  readseg SCRATCH 4096 0 ;;;
  let! m := gets hw_mem in
  if negb (elf_magic m SCRATCH =? ELF_MAGIC) then m_ret None else
  let ph := u32 (SCRATCH + elf_phoff m SCRATCH) in
  let eph := u32 (ph + elf_phnum m SCRATCH * PROGHDR_SIZE) in
  load_loop (S (Z.to_nat (elf_phnum m SCRATCH))) ph eph ;;;
  let! entry := gets (fun s => elf_entry (hw_mem s) SCRATCH) in
  m_ret (Some entry).
End Boot.
