(* ===== verification/BootSpec.v ===== *)
(** * The boot loader loads the kernel

    [image] is the file that starts at sector 1 of drive 0, byte by byte. When the segments
    of the kernel leave the scratch page and each other alone, also with what is read around
    them to fill whole sectors, the loader ends with every segment in place and jumps to the
    entry point. *)

From stdpp Require Import base tactics numbers list strings.
From Stdlib Require Import ZArith Lia ZifyNat ZifyBool.
From S2P Require Import Prelude Layout Ports Apic Sleeplock Bio Ide IdeSpec Boot.

(** The byte [k] of the kernel file; the file as a memory of its own. *)
Definition image (a : ata) : mem := fun k => u8 (default 0 (a_sector a 0 (1 + k / 512) !! Z.to_nat (k mod 512))).
Definition sectors_ok (a : ata) : Prop := forall n, length (a_sector a 0 n) = 512%nat.

(** [m] with the [n] bytes of [f] from [off] on copied to [pa]. *)
Definition copied (f : mem) (pa off n : Z) (m : mem) : mem :=
  fun x => if (pa <=? x) && (x <? pa + n) then f (off + (x - pa)) else m x.

Lemma copied_in f pa off n m x : pa <= x < pa + n -> copied f pa off n m x = f (off + (x - pa)).
Proof. intros. unfold copied. by replace ((pa <=? x) && (x <? pa + n)) with true by lia. Qed.

Lemma copied_out f pa off n m x : x < pa \/ pa + n <= x -> copied f pa off n m x = m x.
Proof. intros. unfold copied. by replace ((pa <=? x) && (x <? pa + n)) with false by lia. Qed.

Lemma store_bytes_at l : forall m a x,
  store_bytes m a l x = if (a <=? x) && (x <? a + Z.of_nat (length l)) then u8 (default 0 (l !! Z.to_nat (x - a))) else m x.
Proof.
  induction l as [|v l IH]; intros m a x; cbn [store_bytes length].
  - by replace ((a <=? x) && (x <? a + Z.of_nat 0)) with false by lia.
  - rewrite IH. destruct (decide (x = a)) as [->|Hne].
    + replace ((a + 1 <=? a) && _) with false by lia. rewrite store8_eq.
      replace ((a <=? a) && _) with true by lia. by replace (Z.to_nat (a - a)) with 0%nat by lia.
    + rewrite store8_ne by done. destruct (decide (a + 1 <= x < a + 1 + Z.of_nat (length l))).
      * replace ((a + 1 <=? x) && _) with true by lia. replace ((a <=? x) && _) with true by lia.
        by replace (Z.to_nat (x - a)) with (S (Z.to_nat (x - (a + 1)))) by lia.
      * replace ((a + 1 <=? x) && _) with false by lia. by replace ((a <=? x) && _) with false by lia.
Qed.

Section Loader.
Context {D : Type} {ports : Ports D} {patience : nat} {bus : AtaBus D patience}.
Implicit Types (s : hw D).

Abbreviation ata_of s := (view (hw_dev s)).

Lemma ready_mask v : is_ready v = (Z.land v 0xC0 =? 0x40).
Proof using. done. Qed.

(** ** One sector *)

Lemma waitdisk_loop_ok n fuel s :
  (n < fuel)%nat -> is_ready (inb 0x1f7 (polled n (hw_dev s))).1 = true ->
  returns (waitdisk_loop fuel) s (fun _ s' => hw_mem s' = hw_mem s /\ ata_of s' = ata_of s).
Proof using bus.
  revert n s. induction fuel as [|fuel IH]; intros n s Hn Hr; [lia|].
  cbn [waitdisk_loop]. pose proof (view_inb (hw_dev s)) as Hv. destruct (inb 0x1f7 (hw_dev s)) as [r d] eqn:E.
  apply returns_Done with r (Hw (hw_mem s) d).
  { unfold dev_in, zoom, port_in. munf. simpl. by rewrite E. }
  rewrite <- ready_mask. destruct (is_ready r) eqn:Er; [by apply returns_ret|].
  destruct n as [|n]; simpl in Hr; rewrite E in Hr; [simpl in Hr; congruence|].
  rlast (IH n (Hw (hw_mem s) d)); [lia|done|]. simpl in *. intros _ s' [-> ->]. done.
Qed.

Lemma waitdisk_ok s : returns (waitdisk patience) s (fun _ s' => hw_mem s' = hw_mem s /\ ata_of s' = ata_of s).
Proof using bus. destruct (ata_ready (hw_dev s)) as (n & Hn & Hr). by apply (waitdisk_loop_ok n). Qed.

Lemma sector_bytes n :
  0 <= n < 16777216 ->
  u8 n + 256 * u8 (Z.shiftr n 8) + 65536 * u8 (Z.shiftr n 16) + 16777216 * (u8 (Z.lor (Z.shiftr n 24) 0xE0) mod 16) = n /\
  u8 (Z.lor (Z.shiftr n 24) 0xE0) / 16 mod 2 = 0.
Proof using.
  intros Hn. rewrite !Z.shiftr_div_pow2 by lia. replace (n / 2 ^ 24) with 0 by zlia.
  rewrite Z.lor_0_l. unfold u8. zlia.
Qed.

Lemma dev_out_Done p v s : dev_out p v s = Done tt (Hw (hw_mem s) (outb p (u8 v) (hw_dev s))).
Proof using. done. Qed.

Lemma readsect_ok dst n s :
  0 <= n < 16777216 ->
  returns (readsect patience dst n) s (fun _ s' =>
    a_sector (ata_of s') = a_sector (ata_of s) /\ hw_mem s' = store_bytes (hw_mem s) dst (a_sector (ata_of s) 0 n)).
Proof using bus.
  intros Hn. destruct (sector_bytes n Hn) as [El Ed]. unfold readsect.
  rstep waitdisk_ok. intros _ s1 [Hm1 Hv1]. do 6 (eapply returns_Done; [apply dev_out_Done|]). cbn [hw_mem hw_dev].
  rstep waitdisk_ok. intros _ s2. simpl. rewrite !view_outb, Hv1. intros [Hm2 Hv2].
  set (v3 := u8 n) in *. set (v4 := u8 (Z.shiftr n 8)) in *. set (v5 := u8 (Z.shiftr n 16)) in *.
  set (v6 := u8 (Z.lor _ _)) in *. clearbody v3 v4 v5 v6. change (u8 1) with 1 in *. change (u8 32) with 0x20 in *.
  set (a5 := ata_outb 502 v6 _) in Hv2.
  assert (Ec : a_cmd (ata_of s2) = Some (false, 0, n)).
  { rewrite Hv2, (outb_cmd false a5) by by (unfold a5; rewrite !outb_reg).
    unfold ata_drive, ata_lba, a5. rewrite !outb_reg by done. simpl. by rewrite El, Ed. }
  assert (Es : a_sector (ata_of s2) = a_sector (ata_of s)) by (rewrite Hv2; unfold a5; by rewrite !outb_sector).
  destruct (view_insl (hw_dev s2) 0 n Ec) as [E1 E2]. unfold ata_insl in E1, E2. rewrite Ec in E1, E2.
  unfold insl_mem. change (Z.to_nat (SECTSIZE / 4)) with 128%nat. apply returns_get.
  destruct (insl 0x1f0 128 (hw_dev s2)) as [l d]. simpl in E1, E2. eexists _, _. split; [reflexivity|]. simpl.
  rewrite E2, E1. simpl. by rewrite Hm2, Hm1, Es.
Qed.

(** ** A range of the file *)

(** The bytes read for [count] bytes at [off]: from the start of the first sector to the end
    of the last. *)
Definition span (off count : Z) : Z := (off mod 512 + count + 511) / 512 * 512.

Lemma sector_image a n x y :
  0 <= x < 512 -> y = (n - 1) * 512 + x -> u8 (default 0 (a_sector a 0 n !! Z.to_nat x)) = image a y.
Proof using. intros Hx ->. unfold image. by replace (1 + _) with n by zlia; replace (_ mod 512) with x by zlia. Qed.

Lemma readseg_loop_ok k : forall fuel pa epa n s,
  (k < fuel)%nat -> 0 <= pa -> pa + 512 * Z.of_nat k < 4294967296 -> 1 <= n -> n + Z.of_nat k <= 16777216 ->
  epa <= pa + 512 * Z.of_nat k -> (0 < k)%nat -> pa + 512 * Z.of_nat k < epa + 512 -> sectors_ok (ata_of s) ->
  returns (readseg_loop patience fuel pa epa n) s (fun _ s' =>
    a_sector (ata_of s') = a_sector (ata_of s) /\
    forall x, hw_mem s' x = copied (image (ata_of s)) pa ((n - 1) * 512) (512 * Z.of_nat k) (hw_mem s) x).
Proof using bus.
  induction k as [|k IH]; intros [|fuel] pa epa n s Hf Hp Hm Hn Hk He H0 Hl Hs; [lia..|].
  cbn [readseg_loop]. replace (pa <? epa) with true by lia. change SECTSIZE with 512. rewrite !u32_small by lia.
  rstep (readsect_ok pa n); [lia|]. intros _ s1 [Es1 Em1].
  assert (Ei : image (ata_of s1) = image (ata_of s)) by (unfold image; by rewrite Es1).
  assert (Hx : forall x, hw_mem s1 x = copied (image (ata_of s)) pa ((n - 1) * 512) 512 (hw_mem s) x).
  { intros x. rewrite Em1, store_bytes_at, Hs. unfold copied. destruct ((pa <=? x) && _) eqn:E; [|done].
    apply sector_image; lia. }
  destruct (decide (k = 0)%nat) as [->|Hk0].
  - destruct fuel as [|fuel]; [lia|]. cbn [readseg_loop]. replace (pa + 512 <? epa) with false by lia.
    apply returns_ret. split; [done|]. exact Hx.
  - rlast (IH fuel (pa + 512) epa (n + 1) s1); try lia; [intros i; by rewrite Es1|].
    intros _ s2 [Es2 Em2]. split; [congruence|]. intros x. rewrite Em2, Ei. unfold copied. rewrite Hx. unfold copied.
    repeat case_match; try lia; f_equal; lia.
Qed.

Lemma readseg_ok pa count off s :
  0 <= off < 4294967296 -> 0 <= count -> off mod 512 <= pa -> pa + count + 512 < 4294967296 -> sectors_ok (ata_of s) ->
  returns (readseg patience pa count off) s (fun _ s' =>
    a_sector (ata_of s') = a_sector (ata_of s) /\
    forall x, hw_mem s' x =
      copied (image (ata_of s)) (pa - off mod 512) (off - off mod 512) (span off count) (hw_mem s) x).
Proof using bus.
  intros Ho Hc Hp Hw Hs. unfold readseg, span. change SECTSIZE with 512. rewrite !u32_small by zlia.
  set (k := (off mod 512 + count + 511) / 512). assert (Hk0 : 0 <= k) by (unfold k; zlia).
  destruct (decide (k = 0)) as [Ek|Hne].
  - replace (Z.to_nat _ + 3)%nat with (S (Z.to_nat (count / 512) + 2)) by lia. cbn [readseg_loop].
    replace (_ <? _) with false by (unfold k in Ek; zlia). apply returns_ret. split; [done|].
    intros x. rewrite Ek. unfold copied. by replace (_ && _) with false by lia.
  - rlast (readseg_loop_ok (Z.to_nat k)); try (unfold k in *; zlia); [done|].
    intros _ s' [Es Em]. split; [done|]. intros x. rewrite Em. f_equal; zlia.
Qed.
End Loader.

(** ** The segments *)

Record segment := Seg { sg_off : Z; sg_paddr : Z; sg_filesz : Z; sg_memsz : Z }.

(** The program header at [ph], and those of the file [f]. *)
Definition segment_at (m : mem) (ph : Z) : segment := Seg (ph_off m ph) (ph_paddr m ph) (ph_filesz m ph) (ph_memsz m ph).
Definition segments (f : mem) : list segment :=
  (fun i => segment_at f (elf_phoff f 0 + 32 * Z.of_nat i)) <$> seq 0 (Z.to_nat (elf_phnum f 0)).

(** The memory of a segment ends at [sg_end]; loading it writes from [sg_lo] to [sg_hi]. *)
Definition sg_end (g : segment) : Z := sg_paddr g + sg_filesz g `max` sg_memsz g.
Definition sg_lo (g : segment) : Z := sg_paddr g - sg_off g mod 512.
Definition sg_hi (g : segment) : Z := (sg_lo g + span (sg_off g) (sg_filesz g)) `max` sg_end g.

(** The segment is in place in [m]. *)
Definition in_place (f : mem) (m : mem) (g : segment) : Prop :=
  (forall k, 0 <= k < sg_filesz g -> m (sg_paddr g + k) = f (sg_off g + k)) /\
  (forall k, sg_filesz g <= k < sg_memsz g -> m (sg_paddr g + k) = 0).

Definition apart (lo hi lo' hi' : Z) : Prop := hi <= lo' \/ hi' <= lo.

(** A segment that can be loaded: no address wraps around, and the headers survive. *)
Record loadable (g : segment) : Prop := Loadable {
  ld_low : 0 <= sg_lo g;
  ld_high : sg_end g + 512 < 4294967296;
  ld_headers : apart (sg_lo g) (sg_hi g) SCRATCH (SCRATCH + 4096) }.

(** No segment is damaged when a later one is loaded. *)
Fixpoint in_order (gs : list segment) : Prop :=
  match gs with
  | [] => True
  | g :: gs => Forall (fun g' => apart (sg_lo g') (sg_hi g') (sg_paddr g) (sg_end g)) gs /\ in_order gs
  end.

Record kernel_ok (f : mem) : Prop := KernelOk {
  ko_headers : elf_phoff f 0 + 32 * elf_phnum f 0 <= 4096;
  ko_segments : Forall loadable (segments f);
  ko_order : in_order (segments f) }.

Lemma load32_shift m f a b : (forall k, 0 <= k < 4 -> m (a + k) = f (b + k)) -> load32 m a = load32 f b.
Proof.
  intros H. unfold load32. pose proof (H 0) as H0. rewrite !Z.add_0_r in H0. rewrite H0, !H by lia. done.
Qed.

(** The headers in the scratch page are those of the file. *)
Definition headers (f m : mem) : Prop := forall k, 0 <= k < 4096 -> m (SCRATCH + k) = f k.

Lemma headers_segment f m p : headers f m -> 0 <= p -> p + 32 <= 4096 -> segment_at m (SCRATCH + p) = segment_at f p.
Proof.
  intros H H0 Hp. unfold segment_at, ph_off, ph_paddr, ph_filesz, ph_memsz.
  f_equal; apply load32_shift; intros k Hk; rewrite <- !Z.add_assoc; apply H; lia.
Qed.

Lemma image_bytes a : bytes_ok (image a).
Proof. intros k. apply u8_range. Qed.

Lemma segment_range f p : bytes_ok f ->
  let g := segment_at f p in
  0 <= sg_off g < 4294967296 /\ 0 <= sg_paddr g /\ 0 <= sg_filesz g < 4294967296 /\ 0 <= sg_memsz g < 4294967296.
Proof. intros H g. unfold g. simpl. repeat split; by apply load32_range. Qed.

Lemma sg_end_hi g : sg_end g <= sg_hi g.
Proof. unfold sg_hi. lia. Qed.

Lemma in_place_ext f m m' g :
  0 <= sg_filesz g -> in_place f m g -> (forall x, sg_paddr g <= x < sg_end g -> m' x = m x) -> in_place f m' g.
Proof.
  intros H0 [H1 H2] H. unfold sg_end in H.
  split; intros k Hk; rewrite H by lia; [by apply H1|by apply H2].
Qed.

(** What loading a segment makes of the memory. *)
Definition loaded_mem (f : mem) (g : segment) (m : mem) : mem :=
  let m := copied f (sg_lo g) (sg_off g - sg_off g mod 512) (span (sg_off g) (sg_filesz g)) m in
  if sg_filesz g <? sg_memsz g then fill m (sg_paddr g + sg_filesz g) (sg_memsz g - sg_filesz g) 0 else m.

Lemma loaded_in_place f g m : 0 <= sg_filesz g -> in_place f (loaded_mem f g m) g.
Proof.
  intros H0. unfold loaded_mem, sg_lo. split; intros k Hk.
  - assert (E : copied f (sg_paddr g - sg_off g mod 512) (sg_off g - sg_off g mod 512) (span (sg_off g) (sg_filesz g)) m
        (sg_paddr g + k) = f (sg_off g + k)).
    { rewrite copied_in by (unfold span; zlia). f_equal. lia. }
    destruct (_ <? _); [|done]. rewrite fill_out by lia. done.
  - replace (_ <? _) with true by lia. by rewrite fill_in by lia.
Qed.

Lemma loaded_out f g m x : 0 <= sg_filesz g -> x < sg_lo g \/ sg_hi g <= x -> loaded_mem f g m x = m x.
Proof.
  intros H0 Hx. unfold loaded_mem. unfold sg_hi, sg_end in Hx.
  assert (E : copied f (sg_lo g) (sg_off g - sg_off g mod 512) (span (sg_off g) (sg_filesz g)) m x = m x)
    by (apply copied_out; lia).
  destruct (_ <? _) eqn:El; [|done]. rewrite fill_out; [done|]. unfold sg_lo in Hx. zlia.
Qed.

Lemma headers_kept f m m' g :
  0 <= sg_filesz g -> loadable g -> headers f m -> (forall x, x < sg_lo g \/ sg_hi g <= x -> m' x = m x) -> headers f m'.
Proof. intros H0 [_ _ Hh] H He k Hk. rewrite He; [by apply H|]. unfold apart in Hh. lia. Qed.

Section Bootmain.
Context {D : Type} {ports : Ports D} {patience : nat} {bus : AtaBus D patience}.
Implicit Types (s : hw D).
Abbreviation ata_of s := (view (hw_dev s)).

(** One turn of the loop over the program headers. *)
Lemma load_one p s {B} (k : M (hw D) B) Q :
  let f := image (ata_of s) in let g := segment_at f p in
  headers f (hw_mem s) -> 0 <= p -> p + 32 <= 4096 -> sectors_ok (ata_of s) -> loadable g ->
  (forall s', a_sector (ata_of s') = a_sector (ata_of s) ->
    (forall x, hw_mem s' x = loaded_mem f g (hw_mem s) x) -> returns k s' Q) ->
  returns (let! pa := gets (fun s => ph_paddr (hw_mem s) (SCRATCH + p)) in
    let! filesz := gets (fun s => ph_filesz (hw_mem s) (SCRATCH + p)) in
    let! off := gets (fun s => ph_off (hw_mem s) (SCRATCH + p)) in
    readseg patience pa filesz off ;;;
    let! filesz := gets (fun s => ph_filesz (hw_mem s) (SCRATCH + p)) in
    let! memsz := gets (fun s => ph_memsz (hw_mem s) (SCRATCH + p)) in
    when (filesz <? memsz)
      (modify (fun s => Hw (fill (hw_mem s) (u32 (pa + filesz)) (memsz - filesz) 0) (hw_dev s))) ;;; k) s Q.
Proof using bus.
  intros f g Hh H0 Hp Hs Hl HQ. destruct (segment_range f p (image_bytes _)) as (Ro & Rp & Rf & Rm). fold g in Ro, Rp, Rf, Rm.
  assert (Eg : forall m, headers f m -> ph_paddr m (SCRATCH + p) = sg_paddr g /\ ph_filesz m (SCRATCH + p) = sg_filesz g /\
    ph_off m (SCRATCH + p) = sg_off g /\ ph_memsz m (SCRATCH + p) = sg_memsz g).
  { intros m Hm. pose proof (headers_segment f m p Hm H0 Hp) as E. fold g in E. by rewrite <- E. }
  destruct (Eg _ Hh) as (Ep & Ef & Eo & _). do 3 apply returns_gets. rewrite Ep, Ef, Eo.
  pose proof (ld_low _ Hl) as Ll. pose proof (ld_high _ Hl) as Lh. unfold sg_lo, sg_end in Ll, Lh.
  rstep readseg_ok; [done|lia|lia|lia|done|]. fold f. intros _ s1 [Es1 Em1].
  assert (Hh1 : headers f (hw_mem s1)).
  { eapply headers_kept; [|exact Hl|exact Hh|]; [lia|]. intros x Hx. rewrite Em1. apply copied_out.
    unfold sg_hi, sg_lo in *. lia. }
  destruct (Eg _ Hh1) as (_ & Ef1 & _ & Em1'). do 2 apply returns_gets. rewrite Ef1, Em1'.
  unfold loaded_mem in HQ. fold (sg_lo g) in Em1. destruct (sg_filesz g <? sg_memsz g) eqn:E; cbn [when].
  - apply returns_modify. apply HQ; [done|]. intros x. cbn [hw_mem].
    rewrite (u32_small (sg_paddr g + sg_filesz g)) by lia. unfold fill. by rewrite Em1.
  - eapply returns_Done; [done|]. by apply HQ.
Qed.

Lemma load_loop_ok f n : forall fuel p s,
  f = image (ata_of s) -> (n < fuel)%nat -> 0 <= p -> p + 32 * Z.of_nat n <= 4096 -> headers f (hw_mem s) ->
  sectors_ok (ata_of s) ->
  let gs := (fun i => segment_at f (p + 32 * Z.of_nat i)) <$> seq 0 n in
  Forall loadable gs -> in_order gs ->
  returns (load_loop patience fuel (SCRATCH + p) (SCRATCH + p + 32 * Z.of_nat n)) s (fun _ s' =>
    headers f (hw_mem s') /\ Forall (in_place f (hw_mem s')) gs /\
    forall x, Forall (fun g => x < sg_lo g \/ sg_hi g <= x) gs -> hw_mem s' x = hw_mem s x).
Proof using bus.
  induction n as [|n IH]; intros [|fuel] p s Hf Hn H0 Hp Hh Hs gs; [lia| |lia|]; cbn [load_loop].
  { intros _ _. replace (_ <? _) with false by lia. by apply returns_ret. }
  assert (Egs : gs = segment_at f p :: ((fun i => segment_at f (p + 32 + 32 * Z.of_nat i)) <$> seq 0 n)).
  { unfold gs. cbn [seq fmap list_fmap]. f_equal; [f_equal; lia|]. rewrite <- fmap_S_seq, <- list_fmap_compose.
    apply list_fmap_ext. intros i j _. simpl. f_equal. lia. }
  rewrite Egs. cbn [in_order]. intros [Hl Hls]%Forall_cons [Hap Hor]. clear Egs gs. set (gs := _ <$> seq 0 n) in *.
  assert (R : 0 <= sg_filesz (segment_at f p)) by (pose proof (segment_range f p) as R; subst f; specialize (R (image_bytes _)); simpl in *; lia).
  replace (_ <? _) with true by lia. apply load_one; [subst f; (done || lia)..|]. rewrite <- Hf.
  intros s1 Es1 Em1. change PROGHDR_SIZE with 32. change SCRATCH with 65536. rewrite u32_small by lia. change 65536 with SCRATCH.
  replace (SCRATCH + p + 32) with (SCRATCH + (p + 32)) by lia.
  replace (SCRATCH + p + 32 * Z.of_nat (S n)) with (SCRATCH + (p + 32) + 32 * Z.of_nat n) by lia.
  rlast (IH fuel (p + 32) s1); [..|exact Hls|exact Hor|]; try lia.
  { rewrite Hf. unfold image. by rewrite Es1. }
  { eapply headers_kept; [exact R|exact Hl|exact Hh|]. intros x Hx. rewrite Em1. by apply loaded_out. }
  { intros i. by rewrite Es1. }
  fold gs. intros _ s2 (Hh2 & Hin & Hout). split; [done|]. split.
  - constructor; [|done]. eapply in_place_ext; [exact R|apply (loaded_in_place f _ (hw_mem s)), R|].
    intros x Hx. rewrite Hout; [apply Em1|]. eapply Forall_impl; [exact Hap|]. unfold apart. intros g Hg. cbv beta in *. lia.
  - intros x [Hx Hxs]%Forall_cons. rewrite Hout by done. rewrite Em1. by apply loaded_out.
Qed.
End Bootmain.

(** What the loader, started in the memory [m], leaves behind: the address it jumps to, if
    any, and the memory [m']. *)
Definition booted (f m : mem) (r : option Z) (m' : mem) : Prop :=
  let spared lo hi x := x < lo \/ hi <= x in
  if elf_magic f 0 =? ELF_MAGIC then
    r = Some (elf_entry f 0) /\ Forall (in_place f m') (segments f) /\
    forall x, spared SCRATCH (SCRATCH + 4096) x -> Forall (fun g => spared (sg_lo g) (sg_hi g) x) (segments f) ->
      m' x = m x
  else r = None /\ forall x, spared SCRATCH (SCRATCH + 4096) x -> m' x = m x.

Lemma headers_fields f m : headers f m ->
  elf_magic m SCRATCH = elf_magic f 0 /\ elf_entry m SCRATCH = elf_entry f 0 /\
  elf_phoff m SCRATCH = elf_phoff f 0 /\ elf_phnum m SCRATCH = elf_phnum f 0.
Proof.
  intros H. unfold elf_magic, elf_entry, elf_phoff, elf_phnum. rewrite !H by lia.
  repeat split; apply load32_shift; intros k Hk; rewrite <- ?Z.add_assoc; apply H; lia.
Qed.

Lemma phnum_range f : bytes_ok f -> 0 <= elf_phnum f 0 < 65536.
Proof. intros H. unfold elf_phnum. pose proof (H (0 + 44)). pose proof (H (0 + 45)). lia. Qed.

(** C23. The boot loader: if the file on the disk has the magic number of ELF, program headers
    in its first page, and segments whose sectors overlap neither the headers in the scratch
    page nor a segment loaded before, then [bootmain] comes to an end and jumps to the entry
    point of the file with every segment in place, the rest of it zero, and no other memory
    changed; without the magic number it returns, having written the scratch page only. *)
Theorem bootmain_spec {D} {ports : Ports D} {patience} {bus : AtaBus D patience} (s : hw D) :
  let f := image (view (hw_dev s)) in
  sectors_ok (view (hw_dev s)) -> (elf_magic f 0 = ELF_MAGIC -> kernel_ok f) ->
  exists r s', bootmain patience s = Done r s' /\ booted f (hw_mem s) r (hw_mem s').
Proof.
  intros f Hs Hk. change (returns (bootmain patience) s (fun r s' => booted f (hw_mem s) r (hw_mem s'))).
  unfold bootmain. rstep readseg_ok; [done..|]. fold f. intros _ s1 [Es1 Em1].
  change (span 0 4096) with 4096 in Em1. change (SCRATCH - 0 mod 512) with SCRATCH in Em1. change (0 - 0 mod 512) with 0 in Em1.
  assert (Ei : image (view (hw_dev s1)) = f) by (unfold f, image; by rewrite Es1).
  assert (Hh : headers f (hw_mem s1)) by (intros k Hk'; rewrite Em1, copied_in by lia; f_equal; lia).
  assert (Ho : forall x, x < SCRATCH \/ SCRATCH + 4096 <= x -> hw_mem s1 x = hw_mem s x)
    by (intros x Hx; rewrite Em1; by apply copied_out).
  apply returns_gets. destruct (headers_fields _ _ Hh) as (Eg & _ & Ep & En). rewrite Eg, Ep, En.
  unfold booted. destruct (elf_magic f 0 =? ELF_MAGIC) eqn:Em; cbn [negb]; [|by apply returns_ret].
  destruct (Hk ltac:(lia)) as [K1 K2 K3].
  assert (R1 : 0 <= elf_phoff f 0) by apply (load32_range f _ (image_bytes _)).
  pose proof (phnum_range f (image_bytes _)) as R2.
  change PROGHDR_SIZE with 32. replace (u32 (SCRATCH + elf_phoff f 0)) with (SCRATCH + elf_phoff f 0)
    by (rewrite u32_small; unfold SCRATCH; lia).
  replace (u32 (_ + elf_phnum f 0 * 32)) with (SCRATCH + elf_phoff f 0 + 32 * Z.of_nat (Z.to_nat (elf_phnum f 0)))
    by (rewrite u32_small; unfold SCRATCH; lia).
  rstep (load_loop_ok f); [done|lia|done|lia|done|intros n; by rewrite Es1|exact K2|exact K3|].
  intros _ s2 (Hh2 & Hin & Hout). apply returns_gets. destruct (headers_fields _ _ Hh2) as (_ & -> & _).
  apply returns_ret. split; [done|]. split; [done|]. intros x Hx Hg. rewrite Hout by done. by apply Ho.
Qed.

(** ** An example *)

(** A kernel with two segments: 8 bytes of text at 0x100000 and, behind them in the file,
    4 bytes of data for 0x101008 with 12 bytes of cleared memory after them. *)
Definition sample_elf : list Z :=
  le32 ELF_MAGIC ++ replicate 20 0 ++ le32 0x10000C ++ le32 52 ++ replicate 12 0 ++ [2; 0] ++ replicate 6 0
  ++ (le32 1 ++ le32 1024 ++ le32 0x80100000 ++ le32 0x100000 ++ le32 8 ++ le32 8 ++ le32 5 ++ le32 4096)
  ++ (le32 1 ++ le32 1032 ++ le32 0x80101008 ++ le32 0x101008 ++ le32 4 ++ le32 16 ++ le32 6 ++ le32 4096)
  ++ replicate 908 0 ++ [1; 2; 3; 4; 5; 6; 7; 8; 9; 10; 11; 12].

Definition sample_boot_disk : ata :=
  Ata (fun _ n => take 512 (drop (512 * Z.to_nat (n - 1)) sample_elf ++ replicate 512 0)) (fun _ => 0) None.

#[local] Existing Instances sample_ports sample_bus.

Lemma sample_sectors : sectors_ok sample_boot_disk.
Proof. intros n. unfold sample_boot_disk. cbn [a_sector]. rewrite length_take, length_app, length_replicate. lia. Qed.

Lemma sample_segments : segments (image sample_boot_disk) = [Seg 1024 0x100000 8 8; Seg 1032 0x101008 4 16].
Proof. by vm_compute. Qed.

Lemma bootmain_spec_witness :
  exists r s', bootmain 1 (Hw (fun _ => 0) sample_boot_disk) = Done r s' /\ booted (image sample_boot_disk) (fun _ => 0) r (hw_mem s').
Proof.
  apply (bootmain_spec (bus := sample_bus) (Hw (fun _ => 0) sample_boot_disk)); [exact sample_sectors|].
  intros _. split; [by vm_compute| |]; change (view _) with sample_boot_disk; rewrite sample_segments.
  - repeat constructor; try (by vm_compute); (by left; vm_compute) || (by right; vm_compute).
  - split; [|split; [constructor|done]]. constructor; [|constructor]. right. by vm_compute.
Defined.
