(* ===== verification/Entry.v ===== *)
(** * The start of the processors: bootasm.S, entry.S, entryother.S

    A machine with the registers that decide how an address is translated: the control
    registers, the segment registers with the base and the limit the processor keeps for them,
    and the register of the descriptor table. Memory is physical memory. A fault is a panic.
    An instruction stands beside the address of its code, and is fetched through the same
    translation as data, so running on shows that the code stays where the processor looks
    for it. [at_ n] is the address of the [n]th instruction of a file. The instructions behind
    the calls of [bootmain] and [mpenter], which do not come back, are left out. *)

From stdpp Require Import base tactics numbers list strings.
From Stdlib Require Import ZArith Lia.
From S2P Require Import Prelude Layout Ports Vm Asm.

Definition CR0_PE : Z := 0x00000001.
Definition CR0_WP : Z := 0x00010000.
Definition CR0_PG : Z := 0x80000000.
Definition CR4_PSE : Z := 0x00000010.

(** ** The tables of asm.h *)

Definition word (v : Z) : list Z := [u8 v; u8 (v / 256)].
Definition long (v : Z) : list Z := word v ++ word (v / 65536).
Definition SEG_NULLASM : list Z := word 0 ++ word 0 ++ [0; 0; 0; 0].
Definition SEG_ASM (type base lim : Z) : list Z :=
  word (Z.land (Z.shiftr lim 12) 0xffff) ++ word (Z.land base 0xffff) ++
  [Z.land (Z.shiftr base 16) 0xff; Z.lor 0x90 type; Z.lor 0xC0 (Z.land (Z.shiftr lim 28) 0xf); Z.land (Z.shiftr base 24) 0xff].
Definition boot_gdt : list Z :=
  SEG_NULLASM ++ SEG_ASM (Z.lor STA_X STA_R) 0 0xffffffff ++ SEG_ASM STA_W 0 0xffffffff.
(** [gdtdesc], which follows the table. *)
Definition gdtdesc (gdt : Z) : list Z := word (Z.of_nat (length boot_gdt) - 1) ++ long gdt.

(** ** The machine *)

(** Address line 20, as the keyboard controller has it. *)
Class Gate20 (D : Type) := a20 : D -> bool.

Record pm (D : Type) := Pm {
  pm_regs : regs; pm_sel : segs; pm_base : segs; pm_lim : segs;
  pm_cr0 : Z; pm_cr3 : Z; pm_cr4 : Z; pm_gdtr : Z * Z; pm_if : bool; pm_zf : bool; pm_eip : Z;
  pm_mem : mem; pm_dev : D }.
Arguments Pm {D}.
Arguments pm_regs {D}. Arguments pm_sel {D}. Arguments pm_base {D}. Arguments pm_lim {D}.
Arguments pm_cr0 {D}. Arguments pm_cr3 {D}. Arguments pm_cr4 {D}. Arguments pm_gdtr {D}.
Arguments pm_if {D}. Arguments pm_zf {D}. Arguments pm_eip {D}. Arguments pm_mem {D}. Arguments pm_dev {D}.

Inductive creg := CR0 | CR3 | CR4.

Section Machine.
Context {D : Type} {ports : Ports D} {gate : Gate20 D}.
Implicit Types (s : pm D).

Definition pm_setr (r : reg) (v : Z) s : pm D :=
  let '(Pm g sl b l c0 c3 c4 gd f z ip m d) := s in Pm (set_reg r v g) sl b l c0 c3 c4 gd f z ip m d.
Definition pm_set_seg (r : sreg) (sel base lim : Z) s : pm D :=
  let '(Pm g sl b l c0 c3 c4 gd f z ip m d) := s in
  Pm g (set_seg r sel sl) (set_seg r base b) (set_seg r lim l) c0 c3 c4 gd f z ip m d.
Definition pm_set_cr (c : creg) (v : Z) s : pm D :=
  let '(Pm g sl b l c0 c3 c4 gd f z ip m d) := s in
  match c with
  | CR0 => Pm g sl b l v c3 c4 gd f z ip m d
  | CR3 => Pm g sl b l c0 v c4 gd f z ip m d
  | CR4 => Pm g sl b l c0 c3 v gd f z ip m d
  end.
Definition pm_get_cr (c : creg) s : Z := match c with CR0 => pm_cr0 s | CR3 => pm_cr3 s | CR4 => pm_cr4 s end.
Definition pm_set_gdtr (v : Z * Z) s : pm D :=
  let '(Pm g sl b l c0 c3 c4 gd f z ip m d) := s in Pm g sl b l c0 c3 c4 v f z ip m d.
Definition pm_cli s : pm D :=
  let '(Pm g sl b l c0 c3 c4 gd f z ip m d) := s in Pm g sl b l c0 c3 c4 gd false z ip m d.
Definition pm_set_zf (v : bool) s : pm D :=
  let '(Pm g sl b l c0 c3 c4 gd f z ip m d) := s in Pm g sl b l c0 c3 c4 gd f v ip m d.
Definition pm_set_eip (v : Z) s : pm D :=
  let '(Pm g sl b l c0 c3 c4 gd f z ip m d) := s in Pm g sl b l c0 c3 c4 gd f z v m d.
Definition pm_set_mem (v : mem) s : pm D :=
  let '(Pm g sl b l c0 c3 c4 gd f z ip m d) := s in Pm g sl b l c0 c3 c4 gd f z ip v d.
Definition pm_set_dev (v : D) s : pm D :=
  let '(Pm g sl b l c0 c3 c4 gd f z ip m d) := s in Pm g sl b l c0 c3 c4 gd f z ip m v.
Definition pm_dev_lens : lens (pm D) D := Lens pm_dev pm_set_dev.

(** ** Addresses *)

Definition bit_set (v mask : Z) : bool := negb (Z.land v mask =? 0).
Definition line20 s (pa : Z) : Z := if a20 (pm_dev s) then pa else Z.land pa (Z.lnot 0x100000).

(** The physical address behind the linear address [lin], for a write if [w]; [None] is a page
    fault. With the write-protect bit the kernel, too, may only write where PTE_W says so. *)
Definition translate (w : bool) (lin : Z) s : option Z :=
  let may e := negb (w && bit_set (pm_cr0 s) CR0_WP) || bit_set e PTE_W in
  if bit_set (pm_cr0 s) CR0_PG then
    let pde := load32 (pm_mem s) (line20 s (PTE_ADDR (pm_cr3 s) + 4 * PDX lin)) in
    if present pde && may pde then
      if bit_set pde PTE_PS && bit_set (pm_cr4 s) CR4_PSE
      then Some (line20 s (Z.land pde 0xffc00000 + lin mod 4194304))
      else
        let pte := load32 (pm_mem s) (line20 s (PTE_ADDR pde + 4 * PTX lin)) in
        if present pte && may pte then Some (line20 s (PTE_ADDR pte + lin mod 4096)) else None
    else None
  else Some (line20 s lin).

(** Access to [n] bytes of a segment. Operands that cross a page do not occur; they fault. *)
Definition access (w : bool) (r : sreg) (off n : Z) : M (pm D) Z :=
  let! s := get in
  if get_seg r (pm_lim s) <? off + n - 1 then panic "general protection"
  else
    let lin := u32 (get_seg r (pm_base s) + off) in
    if 4096 <? lin mod 4096 + n then panic "crosses a page"
    else match translate w lin s with Some pa => m_ret pa | None => panic "page fault" end.
Definition load (r : sreg) (off : Z) : M (pm D) Z :=
  let! pa := access false r off 4 in gets (fun s => load32 (pm_mem s) pa).
Definition store (r : sreg) (off v : Z) : M (pm D) unit :=
  let! pa := access true r off 4 in modify (fun s => pm_set_mem (store32 (pm_mem s) pa v) s).

(** ** Segments *)

(** The bytes of the descriptor a selector names, in memory that is not paged yet. *)
Definition desc_byte s (sel i : Z) : Z := pm_mem s (line20 s ((pm_gdtr s).2 + Z.land sel 0xfff8 + i)).
Definition desc_base s (sel : Z) : Z :=
  desc_byte s sel 2 + 256 * desc_byte s sel 3 + 65536 * desc_byte s sel 4 + 16777216 * desc_byte s sel 7.
Definition desc_limit s (sel : Z) : Z :=
  let l := desc_byte s sel 0 + 256 * desc_byte s sel 1 + 65536 * Z.land (desc_byte s sel 6) 15 in
  if bit_set (desc_byte s sel 6) 128 then 4096 * l + 4095 else l.
(** Present and for an application; for CS code, for SS data to write, and else readable. *)
Definition desc_ok s (r : sreg) (sel : Z) : bool :=
  let b := desc_byte s sel 5 in
  bit_set b 128 && bit_set b 16 &&
  match r with
  | CS => bit_set b STA_X
  | SS => negb (bit_set b STA_X) && bit_set b STA_W
  | _ => negb (bit_set b STA_X) || bit_set b STA_R
  end.
Definition load_seg (r : sreg) (sel : Z) : M (pm D) unit :=
  let! s := get in
  if negb (bit_set (pm_cr0 s) CR0_PE) then modify (pm_set_seg r sel (16 * sel) (get_seg r (pm_lim s)))
  else if Z.land sel 0xfffc =? 0 then
    match r with
    | CS | SS => panic "general protection"
    | _ => modify (pm_set_seg r sel 0 (-1))
    end
  else if (pm_gdtr s).1 <? Z.land sel 0xfff8 + 7 then panic "general protection"
  else if desc_ok s r sel then modify (pm_set_seg r sel (desc_base s sel) (desc_limit s sel))
  else panic "general protection".

(** ** Instructions *)

Inductive pinstr :=
  | Cli
  | Xorw_ax
  | Movw_ax (v : Z)
  | Movb_al (v : Z)
  | Movw_ax_seg (r : sreg)
  | Movl_const (v : Z) (dst : reg)
  | Movl_abs (a : Z) (dst : reg)
  | Orl_eax (v : Z)
  | Mov_from_cr (c : creg)
  | Mov_to_cr (c : creg)
  | Lgdt (a : Z)
  | Inb_al (port : Z)
  | Outb_al (port : Z)
  | Testb_al (v : Z)
  | Jnz (a : Z)
  | Ljmp (sel off : Z)
  | Jmp_eax
  | Call_near (a : Z)
  | Call_abs (a : Z).

Definition geteax : M (pm D) Z := gets (fun s => r_eax (pm_regs s)).
Definition pm_push (v : Z) : M (pm D) unit :=
  let! esp := gets (fun s => r_esp (pm_regs s)) in
  store SS (u32 (esp - 4)) v ;;;
  modify (pm_setr ESP (u32 (esp - 4))).

(** In 16-bit code [lgdt] takes 24 bits of the address. *)
Definition exec_p (i : pinstr) : M (pm D) unit :=
  match i with
  | Cli => modify pm_cli
  | Xorw_ax => let! v := geteax in modify (fun s => pm_set_zf true (pm_setr EAX (v / 65536 * 65536) s))
  | Movw_ax w => let! v := geteax in modify (pm_setr EAX (v / 65536 * 65536 + w mod 65536))
  | Movb_al w => let! v := geteax in modify (pm_setr EAX (v / 256 * 256 + w mod 256))
  | Movw_ax_seg r => let! v := geteax in load_seg r (v mod 65536)
  | Movl_const w dst => modify (pm_setr dst (u32 w))
  | Movl_abs a dst => let! v := load DS a in modify (pm_setr dst v)
  | Orl_eax w => let! v := geteax in modify (fun s => pm_set_zf (Z.lor v w =? 0) (pm_setr EAX (Z.lor v w) s))
  | Mov_from_cr c => let! v := gets (pm_get_cr c) in modify (pm_setr EAX v)
  | Mov_to_cr c => let! v := geteax in modify (pm_set_cr c v)
  | Lgdt a =>
      let! pa := access false DS a 6 in
      modify (fun s => pm_set_gdtr (load32 (pm_mem s) pa mod 65536, load32 (pm_mem s) (pa + 2) mod 16777216) s)
  | Inb_al port =>
      let! x := zoom pm_dev_lens (port_in port) in
      let! v := geteax in modify (pm_setr EAX (v / 256 * 256 + u8 x))
  | Outb_al port => let! v := geteax in zoom pm_dev_lens (port_out port v)
  | Testb_al w => let! v := geteax in modify (pm_set_zf (Z.land (u8 v) w =? 0))
  | Jnz a => let! z := gets pm_zf in when (negb z) (modify (fun s => pm_set_eip (u32 (a - s_cs (pm_base s))) s))
  | Ljmp sel off => load_seg CS sel ;;; modify (pm_set_eip off)
  | Jmp_eax => let! v := geteax in modify (pm_set_eip v)
  | Call_near a => let! ip := gets pm_eip in pm_push ip ;;; modify (pm_set_eip a)
  | Call_abs a => let! v := load DS a in let! ip := gets pm_eip in pm_push ip ;;; modify (pm_set_eip v)
  end.

Section Code.
Variable at_ : nat -> Z.

(** The processor runs the [n]th instruction: it has to be where CS and eip point to, and in
    memory at its address. *)
Definition step_at (n : nat) (i : pinstr) : M (pm D) unit :=
  let! s := get in
  if (u32 (s_cs (pm_base s) + pm_eip s) =? at_ n) && bool_decide (translate false (at_ n) s = Some (at_ n))
  then modify (pm_set_eip (u32 (pm_eip s + (at_ (S n) - at_ n)))) ;;; exec_p i
  else panic "code is not here".
Fixpoint run_at (n : nat) (code : list pinstr) : M (pm D) unit :=
  match code with
  | [] => m_ret tt
  | i :: code => step_at n i ;;; run_at (S n) code
  end.

(** ** bootasm.S *)

Variables gdtdesc_addr bootmain_addr : Z.

Definition boot_start : list pinstr := [Cli; Xorw_ax; Movw_ax_seg DS; Movw_ax_seg ES; Movw_ax_seg SS].
(** The loops at [seta20.1] and [seta20.2], which start with instruction [n]. *)
Fixpoint seta20_wait (n : nat) (fuel : nat) : M (pm D) unit :=
  match fuel with
  | O => block
  | S fuel =>
      run_at n [Inb_al 0x64; Testb_al 0x2; Jnz (at_ n)] ;;;
      let! z := gets pm_zf in
      if z then m_ret tt else seta20_wait n fuel
  end.
Definition boot_protect : list pinstr :=
  [Lgdt gdtdesc_addr; Mov_from_cr CR0; Orl_eax CR0_PE; Mov_to_cr CR0; Ljmp (Z.shiftl SEG_KCODE 3) (at_ 20)].
(** From [start32] on: the segments that bootasm.S and entryother.S set up alike. *)
Definition start32_segs : list pinstr :=
  [Movw_ax (Z.shiftl SEG_KDATA 3); Movw_ax_seg DS; Movw_ax_seg ES; Movw_ax_seg SS; Movw_ax 0; Movw_ax_seg FS; Movw_ax_seg GS].
Definition bootasm (fuel : nat) : M (pm D) unit :=
  run_at 0 boot_start ;;;
  seta20_wait 5 fuel ;;;
  run_at 8 [Movb_al 0xd1; Outb_al 0x64] ;;;
  seta20_wait 10 fuel ;;;
  run_at 13 [Movb_al 0xdf; Outb_al 0x60] ;;;
  run_at 15 boot_protect ;;;
  run_at 20 start32_segs ;;;
  run_at 27 [Movl_const (at_ 0) ESP; Call_near bootmain_addr].

(** ** entry.S *)

Variables entrypgdir_addr stack_addr main_addr : Z.

Definition entry : list pinstr :=
  [Mov_from_cr CR4; Orl_eax CR4_PSE; Mov_to_cr CR4;
   Movl_const (entrypgdir_addr - KERNBASE) EAX; Mov_to_cr CR3;
   Mov_from_cr CR0; Orl_eax (Z.lor CR0_PG CR0_WP); Mov_to_cr CR0;
   Movl_const (stack_addr + KSTACKSIZE) ESP;
   Movl_const main_addr EAX; Jmp_eax].

(** ** entryother.S *)

Definition other_start : list pinstr :=
  [Cli; Xorw_ax; Movw_ax_seg DS; Movw_ax_seg ES; Movw_ax_seg SS;
   Lgdt gdtdesc_addr; Mov_from_cr CR0; Orl_eax CR0_PE; Mov_to_cr CR0; Ljmp (Z.shiftl SEG_KCODE 3) (at_ 10)].
Definition other_enter : list pinstr :=
  [Mov_from_cr CR4; Orl_eax CR4_PSE; Mov_to_cr CR4;
   Movl_abs (at_ 0 - 12) EAX; Mov_to_cr CR3;
   Mov_from_cr CR0; Orl_eax (Z.lor (Z.lor CR0_PE CR0_PG) CR0_WP); Mov_to_cr CR0;
   Movl_abs (at_ 0 - 4) ESP; Call_abs (at_ 0 - 8)].
Definition entryother : list pinstr := other_start ++ start32_segs ++ other_enter.
End Code.
End Machine.
