(* ===== verification/EntrySpec.v ===== *)
(** * Specifications of the start of the processors

    From real mode [bootasm] and [entryother] reach flat segments in protected mode, and
    [entry] and [entryother] turn paging on and go on at their C function, fetching every
    instruction from where it is. *)

From stdpp Require Import base tactics numbers list strings.
From Stdlib Require Import ZArith Lia ZifyNat ZifyBool.
From S2P Require Import Prelude Layout Ports Vm VmSpec Kvm Asm Entry.

(** ** Bits *)

Lemma bit_set_lor a b m : bit_set (Z.lor a b) m = bit_set a m || bit_set b m.
Proof.
  unfold bit_set. rewrite Z.land_lor_distr_l.
  destruct (Z.eqb_spec (Z.land a m) 0) as [->|Ha]; [by rewrite Z.lor_0_l|].
  apply negb_true_iff, Z.eqb_neq. intros H%Z.lor_eq_0_iff. tauto.
Qed.

Definition bytes_at (m : mem) (a : Z) (l : list Z) : Prop := forall i b, l !! i = Some b -> m (a + Z.of_nat i) = b.

Lemma land_line20 a : 0 <= a < 0x100000 -> Z.land a (Z.lnot 0x100000) = a.
Proof.
  intros Ha. rewrite <- Z.ldiff_land. apply Z.bits_inj'. intros n Hn. rewrite Z.ldiff_spec.
  change 0x100000 with (2 ^ 20) in *. rewrite Z.pow2_bits_eqb by done. destruct (Z.eqb_spec 20 n) as [<-|]; [|apply andb_true_r].
  rewrite andb_false_r. symmetry. destruct (decide (a = 0)) as [->|]; [done|]. apply Z.bits_above_log2; [lia|]. apply Z.log2_lt_pow2; lia.
Qed.

Section Machine.
Context {D : Type} {ports : Ports D} {gate : Gate20 D}.
Implicit Types (s : pm D) (m : mem).

Lemma line20_low s a : 0 <= a < 0x100000 -> line20 s a = a.
Proof. intros Ha. unfold line20. destruct (a20 _); [done|]. by apply land_line20. Qed.
Lemma line20_on s a : a20 (pm_dev s) = true -> line20 s a = a.
Proof. intros Ha. unfold line20. by rewrite Ha. Qed.

Lemma translate_unpaged w lin s : bit_set (pm_cr0 s) CR0_PG = false -> translate w lin s = Some (line20 s lin).
Proof. intros H. unfold translate. by rewrite H. Qed.

(** ** Running while others change the memory *)

Section Robust.
Variable at_ : nat -> Z.
(** What the code relies on, and what its own steps do to the memory. *)
Variables (I : mem -> Prop) (G : mem -> mem -> Prop).

(** From [s] the code runs to [Q], whatever becomes of the memory between its instructions
    as long as [I] holds. *)
Fixpoint robust (n : nat) (code : list pinstr) (Q : pm D -> Prop) s : Prop :=
  match code with
  | [] => Q s
  | i :: code => forall m, I m -> exists s',
      step_at at_ n i (pm_set_mem m s) = Done tt s' /\ G m (pm_mem s') /\ robust (S n) code Q s'
  end.

Definition here (n : nat) s : Prop :=
  u32 (s_cs (pm_base s) + pm_eip s) = at_ n /\ translate false (at_ n) s = Some (at_ n).

Lemma step_here n i s : here n s ->
  step_at at_ n i s = exec_p i (pm_set_eip (u32 (pm_eip s + (at_ (S n) - at_ n))) s).
Proof.
  intros [H1 H2]. unfold step_at. rewrite (bind_Done get _ s s s eq_refl).
  rewrite H1, Z.eqb_refl, H2, bool_decide_eq_true_2 by done. cbn [andb].
  by rewrite (bind_Done (modify _) _ s tt _ eq_refl).
Qed.

Lemma robust_run n code Q s : (forall m m', I m -> G m m' -> I m') -> I (pm_mem s) -> robust n code Q s ->
  returns (run_at at_ n code) s (fun _ => Q).
Proof.
  intros HG. revert n s. induction code as [|i code IH]; intros n s Hi H; cbn [run_at]; [by apply returns_ret|].
  cbn [robust] in H. destruct (H (pm_mem s) Hi) as (s' & E & Hg & Hr).
  assert (Es : pm_set_mem (pm_mem s) s = s) by (by destruct s). rewrite Es in E.
  eapply returns_Done; [exact E|]. apply IH; [by eapply HG|done].
Qed.

Lemma robust_mono n c (Q R : pm D -> Prop) s : robust n c Q s -> (forall s', Q s' -> R s') -> robust n c R s.
Proof.
  revert n s. induction c as [|i c IH]; intros n s H HQ; cbn [robust] in *; [by apply HQ|].
  intros m Hm. destruct (H m Hm) as (s' & E & Hg & Hr). eauto.
Qed.

(** An instruction that leaves the memory alone. *)
Lemma robust_step n i code cb Q s s1 :
  (forall m, G m m) -> s_cs (pm_base s) = cb -> pm_eip s = at_ n - cb -> 0 <= cb <= at_ n ->
  cb <= at_ (S n) < 4294967296 -> at_ n < 4294967296 ->
  (forall m, I m -> translate false (at_ n) (pm_set_mem m s) = Some (at_ n)) ->
  (forall m, I m -> exec_p i (pm_set_eip (at_ (S n) - cb) (pm_set_mem m s)) = Done tt (pm_set_mem m s1)) ->
  (forall m, I m -> robust (S n) code Q (pm_set_mem m s1)) -> robust n (i :: code) Q s.
Proof.
  intros HG Hc He Hn Hs Hl Ht Hx Hr. cbn [robust]. intros m Hm. exists (pm_set_mem m s1).
  destruct s as [g sl b l c0 c3 c4 gd f z ip m' d]. cbn in Hc, He. split; [|split; [|by apply Hr]].
  - rewrite step_here; [|split; [cbn; rewrite Hc, He, u32_small; lia|by apply Ht]].
    cbn [pm_eip pm_set_mem]. rewrite He. replace (u32 _) with (at_ (S n) - cb) by (rewrite u32_small; lia). by apply Hx.
  - destruct s1. apply HG.
Qed.
End Robust.

(** ** Segments *)

(** The table of asm.h and its descriptor, in low memory. *)
Definition gdt_in (gdt : Z) m : Prop := bytes_at m gdt (boot_gdt ++ gdtdesc gdt).
Definition flat (r : sreg) (sel : Z) s : Prop :=
  get_seg r (pm_sel s) = sel /\ get_seg r (pm_base s) = 0 /\ get_seg r (pm_lim s) = 0xffffffff.

Lemma gdt_byte gdt m i b : gdt_in gdt m -> (boot_gdt ++ gdtdesc gdt) !! i = Some b -> m (gdt + Z.of_nat i) = b.
Proof. intros H. apply H. Qed.

(** The processor's view of a descriptor of eight bytes: the code and the data segment. *)
Lemma flat_desc s sel type :
  (forall i b, SEG_ASM type 0 0xffffffff !! i = Some b -> desc_byte s sel (Z.of_nat i) = b) ->
  desc_base s sel = 0 /\ desc_limit s sel = 0xffffffff /\ desc_byte s sel 5 = Z.lor 0x90 type.
Proof.
  intros B. assert (E : forall i b, (SEG_ASM type 0 0xffffffff !! i) = Some b -> desc_byte s sel (Z.of_nat i) = b) by done.
  unfold desc_base, desc_limit.
  rewrite (E 2%nat 0 eq_refl : desc_byte s sel 2 = 0), (E 3%nat 0 eq_refl : desc_byte s sel 3 = 0),
    (E 4%nat 0 eq_refl : desc_byte s sel 4 = 0), (E 7%nat 0 eq_refl : desc_byte s sel 7 = 0),
    (E 0%nat 255 eq_refl : desc_byte s sel 0 = 255), (E 1%nat 255 eq_refl : desc_byte s sel 1 = 255),
    (E 6%nat 207 eq_refl : desc_byte s sel 6 = 207), (E 5%nat _ eq_refl : desc_byte s sel 5 = Z.lor 0x90 type). done.
Qed.

Lemma boot_desc gdt s sel type : gdt_in gdt (pm_mem s) -> 0 <= gdt -> gdt + 30 <= 0x100000 -> (pm_gdtr s).2 = gdt ->
  (sel, type) = (8, Z.lor STA_X STA_R) \/ (sel, type) = (16, STA_W) ->
  desc_base s sel = 0 /\ desc_limit s sel = 0xffffffff /\ desc_byte s sel 5 = Z.lor 0x90 type.
Proof.
  intros Hg H0 Hl Eg Hs. apply flat_desc. intros i b Hb.
  assert (Hi : (i < 8)%nat) by (apply lookup_lt_Some in Hb; exact Hb).
  assert (Z.land sel 0xfff8 = sel /\ 0 <= sel <= 16 /\ (boot_gdt ++ gdtdesc gdt) !! (Z.to_nat sel + i)%nat = Some b) as (H1 & H2 & H3).
  { destruct Hs as [[= -> ->]|[= -> ->]]; (split; [done|split; [done|]]).
    - change (Z.to_nat 8) with 8%nat. do 8 (destruct i as [|i]; [exact Hb|]). lia.
    - change (Z.to_nat 16) with 16%nat. do 8 (destruct i as [|i]; [exact Hb|]). lia. }
  unfold desc_byte. rewrite Eg, H1, line20_low by lia. rewrite <- (gdt_byte gdt _ _ _ Hg H3). f_equal. lia.
Qed.

(** In protected mode a load of these selectors gives a flat segment. *)
Lemma load_kcode gdt s : gdt_in gdt (pm_mem s) -> 0 <= gdt -> gdt + 30 <= 0x100000 -> pm_gdtr s = (23, gdt) ->
  bit_set (pm_cr0 s) CR0_PE = true -> load_seg CS 8 s = Done tt (pm_set_seg CS 8 0 0xffffffff s).
Proof.
  intros Hg H0 Hl Eg Hp. destruct (boot_desc gdt s 8 (Z.lor STA_X STA_R)) as (E1 & E2 & E3); [done|done|done|by rewrite Eg|by left|].
  unfold load_seg. rewrite (bind_Done get _ s s s eq_refl), Hp, Eg. unfold desc_ok. rewrite E1, E2, E3. done.
Qed.
Lemma load_kdata gdt s r : gdt_in gdt (pm_mem s) -> 0 <= gdt -> gdt + 30 <= 0x100000 -> pm_gdtr s = (23, gdt) ->
  bit_set (pm_cr0 s) CR0_PE = true -> r <> CS -> load_seg r 16 s = Done tt (pm_set_seg r 16 0 0xffffffff s).
Proof.
  intros Hg H0 Hl Eg Hp Hr. destruct (boot_desc gdt s 16 STA_W) as (E1 & E2 & E3); [done|done|done|by rewrite Eg|by right|].
  unfold load_seg. rewrite (bind_Done get _ s s s eq_refl), Hp, Eg. unfold desc_ok. rewrite E1, E2, E3. by destruct r.
Qed.
Lemma load_null s r : bit_set (pm_cr0 s) CR0_PE = true -> r <> CS -> r <> SS ->
  load_seg r 0 s = Done tt (pm_set_seg r 0 0 (-1) s).
Proof. intros Hp H1 H2. unfold load_seg. rewrite (bind_Done get _ s s s eq_refl), Hp. by destruct r. Qed.
Lemma load_real s r v : bit_set (pm_cr0 s) CR0_PE = false ->
  load_seg r v s = Done tt (pm_set_seg r v (16 * v) (get_seg r (pm_lim s)) s).
Proof. intros Hp. unfold load_seg. by rewrite (bind_Done get _ s s s eq_refl), Hp. Qed.

(** [lgdt] in real mode. *)
Lemma lgdt_ok gdt s : gdt_in gdt (pm_mem s) -> 0 <= gdt -> gdt + 30 <= 0x10000 -> gdt mod 4096 + 30 <= 4096 ->
  bit_set (pm_cr0 s) CR0_PG = false -> s_ds (pm_base s) = 0 -> s_ds (pm_lim s) = 0xffff ->
  exec_p (Lgdt (gdt + 24)) s = Done tt (pm_set_gdtr (23, gdt) s).
Proof.
  intros Hg H0 Hl Hp Hpg Hb Hlim. cbn [exec_p].
  assert (access false DS (gdt + 24) 6 s = Done (gdt + 24) s) as E.
  { unfold access. rewrite (bind_Done get _ s s s eq_refl). cbn [get_seg]. rewrite Hlim, Hb, (proj2 (Z.ltb_ge _ _)) by lia.
    rewrite Z.add_0_l, u32_small by lia. rewrite (proj2 (Z.ltb_ge _ _)) by zlia.
    rewrite translate_unpaged by done. by rewrite line20_low by lia. }
  rewrite (bind_Done _ _ _ _ _ E). unfold modify. f_equal. f_equal.
  assert (B : forall i b, gdtdesc gdt !! i = Some b -> pm_mem s (gdt + 24 + Z.of_nat i) = b).
  { intros i b Hb'. rewrite <- (gdt_byte gdt _ (24 + i)%nat b Hg) at 1; [f_equal; lia|exact Hb']. }
  pose proof (B 0%nat _ eq_refl) as B0. pose proof (B 1%nat _ eq_refl) as B1. pose proof (B 2%nat _ eq_refl) as B2.
  pose proof (B 3%nat _ eq_refl) as B3. pose proof (B 4%nat _ eq_refl) as B4. pose proof (B 5%nat _ eq_refl) as B5.
  change (u8 (Z.of_nat (length boot_gdt) - 1)) with 23 in B0. change (u8 ((Z.of_nat (length boot_gdt) - 1) / 256)) with 0 in B1.
  unfold load32. replace (gdt + 24 + 2 + 1) with (gdt + 24 + Z.of_nat 3) by lia. replace (gdt + 24 + 2 + 2) with (gdt + 24 + Z.of_nat 4) by lia.
  replace (gdt + 24 + 2 + 3) with (gdt + 24 + Z.of_nat 5) by lia. replace (gdt + 24 + 1) with (gdt + 24 + Z.of_nat 1) by lia.
  replace (gdt + 24 + 2) with (gdt + 24 + Z.of_nat 2) by lia. replace (gdt + 24) with (gdt + 24 + Z.of_nat 0) at 1 by lia.
  rewrite B0, B1, B2, B3, B4, B5. unfold u8. f_equal; zlia.
Qed.

(** ** The phases *)

Section Phases.
Variables (at_ : nat -> Z) (gdt lo hi : Z) (last : nat).
Hypothesis (Hlo : 0 <= lo) (Hhi : hi <= 0x10000) (at_in : forall n, (n <= last)%nat -> lo <= at_ n < hi).
Hypothesis (gdt_low : 0 <= gdt) (gdt_high : gdt + 30 <= 0x10000) (gdt_page : gdt mod 4096 + 30 <= 4096).
Variables (I : mem -> Prop) (G : mem -> mem -> Prop).
Hypothesis (I_gdt : forall m, I m -> gdt_in gdt m) (G_refl : forall m, G m m).

(** In real mode before the [n]th instruction, with the code segment at [cb]. *)
Record real (dev : D) (cb : Z) (n : nat) s : Prop := Real {
  rl_dev : pm_dev s = dev;
  rl_pe : bit_set (pm_cr0 s) CR0_PE = false;
  rl_pg : bit_set (pm_cr0 s) CR0_PG = false;
  rl_cs : s_cs (pm_base s) = cb;
  rl_ip : pm_eip s = at_ n - cb;
  rl_lim : s_ds (pm_lim s) = 0xffff }.

(** In protected mode with the table loaded, a flat code segment and no paging. *)
Record prot (dev : D) (n : nat) s : Prop := Prot {
  pr_dev : pm_dev s = dev;
  pr_pe : bit_set (pm_cr0 s) CR0_PE = true;
  pr_pg : bit_set (pm_cr0 s) CR0_PG = false;
  pr_gdtr : pm_gdtr s = (23, gdt);
  pr_cs : flat CS 8 s;
  pr_ip : pm_eip s = at_ n;
  pr_if : pm_if s = false }.

Lemma robust_app n c1 c2 Q R s : robust at_ I G n c1 R s -> (forall s', R s' -> robust at_ I G (n + length c1) c2 Q s') ->
  robust at_ I G n (c1 ++ c2) Q s.
Proof.
  revert n s. induction c1 as [|i c1 IH]; intros n s H HR; cbn [app robust length] in *.
  - rewrite <- (Nat.add_0_r n). by apply HR.
  - intros m Hm. destruct (H m Hm) as (s' & E & Hg & Hr). exists s'. split; [done|]. split; [done|].
    apply IH; [done|]. intros s2 Hs2. replace (S n + length c1)%nat with (n + S (length c1))%nat by lia. by apply HR.
Qed.

(** Steps without paging, in code below 64 Kbyte. *)
Lemma low_step n i code cb Q s s1 : (S n <= last)%nat ->
  bit_set (pm_cr0 s) CR0_PG = false -> s_cs (pm_base s) = cb -> pm_eip s = at_ n - cb -> 0 <= cb <= lo ->
  (forall m, I m -> exec_p i (pm_set_eip (at_ (S n) - cb) (pm_set_mem m s)) = Done tt (pm_set_mem m s1)) ->
  (forall m, I m -> robust at_ I G (S n) code Q (pm_set_mem m s1)) -> robust at_ I G n (i :: code) Q s.
Proof.
  intros Hn Hp Hc He Hcb Hx Hr. pose proof (at_in n ltac:(lia)). pose proof (at_in (S n) ltac:(lia)).
  eapply robust_step; [exact G_refl|exact Hc|exact He|lia|lia|lia| |exact Hx|exact Hr].
  intros m _. rewrite translate_unpaged by (by destruct s). by rewrite line20_low by lia.
Qed.

(** What the instructions that work on registers alone do. *)
Definition on_regs (i : pinstr) s : pm D :=
  let v := r_eax (pm_regs s) in
  match i with
  | Cli => pm_cli s
  | Xorw_ax => pm_set_zf true (pm_setr EAX (v / 65536 * 65536) s)
  | Movw_ax w => pm_setr EAX (v / 65536 * 65536 + w mod 65536) s
  | Movb_al w => pm_setr EAX (v / 256 * 256 + w mod 256) s
  | Movl_const w dst => pm_setr dst (u32 w) s
  | Orl_eax w => pm_set_zf (Z.lor v w =? 0) (pm_setr EAX (Z.lor v w) s)
  | Mov_from_cr c => pm_setr EAX (pm_get_cr c s) s
  | Mov_to_cr c => pm_set_cr c v s
  | Testb_al w => pm_set_zf (Z.land (u8 v) w =? 0) s
  | _ => s
  end.
Lemma exec_seg r v s : r_eax (pm_regs s) mod 65536 = v -> exec_p (Movw_ax_seg r) s = load_seg r v s.
Proof. intros <-. done. Qed.

Lemma exec_inb p s : exec_p (Inb_al p) s =
  Done tt (pm_setr EAX (r_eax (pm_regs s) / 256 * 256 + u8 (inb p (pm_dev s)).1) (pm_set_dev (inb p (pm_dev s)).2 s)).
Proof.
  destruct s as [g sl bs lm c0 c3 c4 gd f z ip m0 dv]. unfold exec_p, port_in, zoom, m_bind, get, gets, put, modify, m_ret.
  cbn [pm_dev pm_dev_lens lget lset]. by destruct (inb p dv).
Qed.

Ltac pcbn := cbn [pm_set_mem pm_set_eip pm_setr pm_set_seg pm_set_cr pm_set_gdtr pm_set_dev pm_cli pm_set_zf pm_get_cr pm_regs
  pm_sel pm_base pm_lim pm_cr0 pm_cr3 pm_cr4 pm_gdtr pm_if pm_zf pm_eip pm_mem pm_dev r_eax r_esp set_reg set_seg get_seg
  s_es s_cs s_ss s_ds s_fs s_gs on_regs].
(** The next instruction, which turns the state with the new eip into [F] of it; [tac] shows so. *)
Ltac next_with cb F tac :=
  match goal with |- robust _ _ _ ?n (?i :: ?code) ?Q ?s =>
    let e := constr:(pm_set_eip (at_ (S n) - cb) s) in
    let s1 := eval cbn [pm_set_mem pm_set_eip pm_setr pm_set_seg pm_set_cr pm_set_gdtr pm_set_dev pm_cli pm_set_zf pm_get_cr pm_regs
      pm_sel pm_base pm_lim pm_cr0 pm_cr3 pm_cr4 pm_gdtr pm_if pm_zf pm_eip pm_mem pm_dev r_eax r_esp set_reg set_seg get_seg
      s_es s_cs s_ss s_ds s_fs s_gs on_regs] in (F i e) in
    apply (low_step n i code cb Q s s1); [lia| |reflexivity| |lia| |];
    [pcbn; try done|pcbn; lia|let m := fresh "m" in let Hm := fresh "Hm" in intros m Hm; tac|let m := fresh "m" in let Hm := fresh "Hm" in intros m Hm; pcbn]
  end.
Ltac next_regs cb := next_with cb on_regs ltac:(reflexivity).

(** Zeroing the segments. *)
Lemma zero_segs dev cb n Q code s : real dev cb n s -> (n + 5 <= last)%nat -> 0 <= cb <= lo ->
  (forall s', real dev cb (n + 5) s' -> pm_if s' = false -> s_ds (pm_base s') = 0 -> I (pm_mem s') -> robust at_ I G (n + 5) code Q s') ->
  robust at_ I G n (boot_start ++ code) Q s.
Proof.
  intros [R1 R2 R3 R4 R5 R6] Hn Hcb HQ.
  destruct s as [[a c d b sp bp si di] [se sc ss sd sf sg] [be bc bs bd bf bg] [le lc ls ld lf lg] c0 c3 c4 gd f z ip m0 dv].
  cbn [pm_dev pm_cr0 pm_base s_cs pm_eip pm_lim s_ds] in *. subst. unfold boot_start. cbn [app].
  next_regs cb. next_regs cb. assert (Ea : (a / 65536 * 65536) mod 65536 = 0) by (apply Z.mod_mul; lia).
  do 3 (match goal with |- robust _ _ _ _ (Movw_ax_seg ?r :: _) _ _ =>
    next_with cb (fun (_ : pinstr) (e : pm D) => pm_set_seg r 0 0 (get_seg r (pm_lim e)) e) ltac:(rewrite (exec_seg _ 0), load_real by done; done) end).
  replace (n + 5)%nat with (S (S (S (S (S n))))) in HQ by lia. by apply HQ.
Qed.

(** The switch to protected mode. *)
Definition protect (n : nat) : list pinstr :=
  [Lgdt (gdt + 24); Mov_from_cr CR0; Orl_eax CR0_PE; Mov_to_cr CR0; Ljmp (Z.shiftl SEG_KCODE 3) (at_ (n + 5)%nat)].
Lemma protect_ok dev cb n Q code s : real dev cb n s -> pm_if s = false -> s_ds (pm_base s) = 0 ->
  (n + 5 <= last)%nat -> 0 <= cb <= lo ->
  (forall s', prot dev (n + 5) s' -> I (pm_mem s') -> robust at_ I G (n + 5) code Q s') -> robust at_ I G n (protect n ++ code) Q s.
Proof.
  intros [R1 R2 R3 R4 R5 R6] Hif Hds Hn Hcb HQ.
  destruct s as [[a c d b sp bp si di] [se sc ss sd sf sg] [be bc bs bd bf bg] [le lc ls ld lf lg] c0 c3 c4 gd f z ip m0 dv].
  cbn [pm_dev pm_cr0 pm_base s_cs pm_eip pm_lim s_ds pm_if] in *. subst. unfold protect. cbn [app].
  next_with cb (fun (_ : pinstr) (e : pm D) => pm_set_gdtr (23, gdt) e) ltac:(rewrite (lgdt_ok gdt) by (done || by apply I_gdt); done).
  next_regs cb. next_regs cb. next_regs cb.
  assert (P1 : bit_set (Z.lor c0 CR0_PE) CR0_PE = true) by (rewrite bit_set_lor; apply orb_true_r).
  assert (P2 : bit_set (Z.lor c0 CR0_PE) CR0_PG = false) by (by rewrite bit_set_lor, R3).
  next_with cb (fun (_ : pinstr) (e : pm D) => pm_set_eip (at_ (n + 5)%nat) (pm_set_seg CS 8 0 0xffffffff e))
    ltac:(cbn [exec_p]; erewrite bind_Done; [|apply (load_kcode gdt)]; [reflexivity|by apply I_gdt|lia..|done|done]).
  replace (S (S (S (S (S n))))) with (n + 5)%nat by lia. apply HQ; [by split|done].
Qed.

(** The data segments. *)
Definition data_flat s : Prop := flat DS 16 s /\ flat ES 16 s /\ flat SS 16 s.
Lemma data_segs dev n Q code s : prot dev n s -> (n + 7 <= last)%nat ->
  (forall s', prot dev (n + 7) s' -> data_flat s' -> I (pm_mem s') -> robust at_ I G (n + 7) code Q s') ->
  robust at_ I G n (start32_segs ++ code) Q s.
Proof.
  intros [R1 R2 R3 R4 R5 R6 R7] Hn HQ.
  destruct s as [[a c d b sp bp si di] [se sc ss sd sf sg] [be bc bs bd bf bg] [le lc ls ld lf lg] c0 c3 c4 gd f z ip m0 dv].
  unfold flat in R5. cbn [pm_dev pm_cr0 pm_base pm_gdtr s_cs pm_eip pm_lim pm_sel s_ds pm_if get_seg] in *.
  destruct R5 as (-> & -> & ->). subst. unfold start32_segs. cbn [app].
  next_regs 0. assert (Ea : (a / 65536 * 65536 + Z.shiftl SEG_KDATA 3 mod 65536) mod 65536 = 16)
    by (change (Z.shiftl SEG_KDATA 3 mod 65536) with 16; zlia).
  do 3 (match goal with |- robust _ _ _ _ (Movw_ax_seg ?r :: _) _ _ =>
    next_with 0 (fun (_ : pinstr) (e : pm D) => pm_set_seg r 16 0 0xffffffff e)
      ltac:(rewrite (exec_seg _ 16) by exact Ea; rewrite (load_kdata gdt); [done|by apply I_gdt|lia|lia|done..]) end).
  next_regs 0. assert (E0 : forall x, (x / 65536 * 65536 + 0 mod 65536) mod 65536 = 0) by (intros; zlia).
  do 2 (match goal with |- robust _ _ _ _ (Movw_ax_seg ?r :: _) _ _ =>
    next_with 0 (fun (_ : pinstr) (e : pm D) => pm_set_seg r 0 0 (-1) e)
      ltac:(rewrite (exec_seg _ 0) by apply E0; by rewrite load_null) end).
  replace (S (S (S (S (S (S (S n))))))) with (n + 7)%nat by lia. apply HQ; [|done|done]. split; try done. pcbn. lia.
Qed.

(** What stays as it is while the boot block talks to the keyboard controller. *)
Definition same_mode s s' : Prop := pm_if s' = pm_if s /\ s_ds (pm_base s') = s_ds (pm_base s).

(** A turn of a loop that waits for the controller. *)
Lemma poll_turn dev n Q s : real dev 0 n s -> (n + 3 <= last)%nat ->
  let r := inb 0x64 dev in let z := negb (bit_set (u8 r.1) 2) in
  (forall s', pm_zf s' = z -> real r.2 0 (if z then n + 3 else n)%nat s' -> same_mode s s' -> I (pm_mem s') -> Q s') ->
  robust at_ I G n [Inb_al 0x64; Testb_al 0x2; Jnz (at_ n)] Q s.
Proof.
  intros [R1 R2 R3 R4 R5 R6] Hn r z HQ.
  destruct s as [[a c d b sp bp si di] [se sc ss sd sf sg] [be bc bs bd bf bg] [le lc ls ld lf lg] c0 c3 c4 gd f zf ip m0 dv].
  cbn [pm_dev pm_cr0 pm_base s_cs pm_eip pm_lim s_ds] in *. subst.
  next_with 0 (fun (_ : pinstr) (e : pm D) => pm_setr EAX (a / 256 * 256 + u8 r.1) (pm_set_dev r.2 e))
    ltac:(by rewrite exec_inb).
  next_regs 0. assert (Ez : (Z.land (u8 (a / 256 * 256 + u8 r.1)) 2 =? 0) = z).
  { unfold z, bit_set. rewrite negb_involutive. do 2 f_equal. unfold u8. zlia. }
  rewrite Ez. clearbody z. clearbody r. pose proof (at_in n ltac:(lia)).
  next_with 0 (fun (_ : pinstr) (e : pm D) => pm_set_eip (if z then at_ (S (S (S n))) - 0 else u32 (at_ n - 0)) e)
    ltac:(destruct z; reflexivity).
  cbn [robust]. apply HQ; [done| |done|done]. split; try done. pcbn. replace (n + 3)%nat with (S (S (S n))) by lia. destruct z; [lia|rewrite u32_small; lia].
Qed.

(** A byte for a port. *)
Lemma send_byte dev n v port Q s : real dev 0 n s -> (n + 2 <= last)%nat ->
  (forall s', real (outb port (u8 v) dev) 0 (n + 2) s' -> same_mode s s' -> I (pm_mem s') -> Q s') ->
  robust at_ I G n [Movb_al v; Outb_al port] Q s.
Proof.
  intros [R1 R2 R3 R4 R5 R6] Hn HQ.
  destruct s as [[a c d b sp bp si di] [se sc ss sd sf sg] [be bc bs bd bf bg] [le lc ls ld lf lg] c0 c3 c4 gd f zf ip m0 dv].
  cbn [pm_dev pm_cr0 pm_base s_cs pm_eip pm_lim s_ds] in *. subst. next_regs 0.
  assert (Ev : u8 (a / 256 * 256 + v mod 256) = u8 v) by (unfold u8; zlia).
  next_with 0 (fun (_ : pinstr) (e : pm D) => pm_set_dev (outb port (u8 v) dev) e) ltac:(rewrite <- Ev; done).
  cbn [robust]. apply HQ; [|done|done]. split; try done. pcbn. by replace (n + 2)%nat with (S (S n)) by lia.
Qed.
End Phases.

(** ** Paging by [entrypgdir] *)

(** The first two entries of [entrypgdir], in physical memory. *)
Definition pgdir_in (pgdir : Z) m : Prop := load32 m pgdir = 131 /\ load32 m (pgdir + 4 * 512) = 131.
Definition paging (pgdir : Z) s : Prop :=
  bit_set (pm_cr0 s) CR0_PG = true /\ bit_set (pm_cr4 s) CR4_PSE = true /\ pm_cr3 s = pgdir /\ a20 (pm_dev s) = true.

Lemma translate_entry pgdir w lin s : paging pgdir s -> pgdir_in pgdir (pm_mem s) ->
  pgdir mod 4096 = 0 -> 0 <= pgdir < 4294967296 ->
  (0 <= lin < 4194304 -> translate w lin s = Some lin) /\
  (KERNBASE <= lin < KERNBASE + 4194304 -> translate w lin s = Some (lin - KERNBASE)).
Proof.
  intros (H1 & H2 & H3 & H4) (M1 & M2) Hal Hr. unfold translate. cbv zeta. rewrite H1, H2, H3.
  rewrite !(line20_on s) by done.
  rewrite PTE_ADDR_eq, u32_small by done. replace (pgdir - pgdir mod 4096) with pgdir by lia. unfold KERNBASE.
  assert (E : forall (b : bool), present 131 && (b || bit_set 131 PTE_W) = true) by (by intros []).
  split; intros Hl; rewrite PDX_div, u32_small by lia.
  - replace (lin / 4194304) with 0 by zlia. rewrite Z.mul_0_r, Z.add_0_r, M1, E.
    change (bit_set 131 PTE_PS && true) with true. cbv iota. f_equal. change (Z.land 131 0xffc00000) with 0. zlia.
  - replace (lin / 4194304) with 512 by zlia. rewrite M2, E.
    change (bit_set 131 PTE_PS && true) with true. cbv iota. f_equal. change (Z.land 131 0xffc00000) with 0. zlia.
Qed.

(** A word of a flat segment, in the first 4 Mbyte or in its image at KERNBASE. *)
Lemma flat_access w r off sel s pa : flat r sel s -> 0 <= off < 4294967296 - 4 -> off mod 4 = 0 ->
  translate w off s = Some pa -> access w r off 4 s = Done pa s.
Proof.
  intros (_ & Hb & Hl) Ho Ha Ht. unfold access. rewrite (bind_Done get _ s s s eq_refl), Hb, Hl.
  rewrite (proj2 (Z.ltb_ge _ _)) by lia. rewrite Z.add_0_l, u32_small by lia. rewrite (proj2 (Z.ltb_ge _ _)) by zlia.
  by rewrite Ht.
Qed.

Lemma push_ok v s pa : flat SS 16 s ->
  let esp := r_esp (pm_regs s) in 4 <= esp < 4294967296 -> esp mod 4 = 0 -> translate true (esp - 4) s = Some pa ->
  pm_push v s = Done tt (pm_setr ESP (esp - 4) (pm_set_mem (store32 (pm_mem s) pa v) s)).
Proof.
  intros Hf esp Hr Hal Ht. unfold pm_push. rewrite (bind_Done (gets (fun s => r_esp (pm_regs s))) _ s esp s eq_refl).
  replace (u32 (esp - 4)) with (esp - 4) by (rewrite u32_small; lia).
  unfold store. erewrite bind_Done; [|erewrite bind_Done; [reflexivity|apply (flat_access true SS (esp - 4) 16 s _ Hf); [zlia|zlia|exact Ht]]].
  done.
Qed.

(** ** Into C *)

(** In C code: flat segments, interrupts off, paging by [pgdir] on, and a stack. *)
Record in_c (pgdir enter esp : Z) s : Prop := InC {
  ic_eip : pm_eip s = enter;
  ic_esp : r_esp (pm_regs s) = esp;
  ic_cs : flat CS 8 s;
  ic_data : data_flat s;
  ic_if : pm_if s = false;
  ic_pe : bit_set (pm_cr0 s) CR0_PE = true;
  ic_wp : bit_set (pm_cr0 s) CR0_WP = true;
  ic_paging : paging pgdir s }.

(** In C code without paging, or about to run the first instruction of a file. *)
Record flat32 (eip : Z) s : Prop := Flat32 {
  f_eip : pm_eip s = eip;
  f_cs : flat CS 8 s;
  f_data : data_flat s;
  f_if : pm_if s = false;
  f_pe : bit_set (pm_cr0 s) CR0_PE = true;
  f_pg : bit_set (pm_cr0 s) CR0_PG = false;
  f_a20 : a20 (pm_dev s) = true }.

Section IntoC.
Variables (at_ : nat -> Z) (last : nat) (pgdir : Z).
Hypothesis (at_in : forall n, (n <= last)%nat -> 0 <= at_ n < 4194304).
Hypothesis (pgdir_al : pgdir mod 4096 = 0) (pgdir_r : 0 <= pgdir < 4294967296).
Variables (I : mem -> Prop) (G : mem -> mem -> Prop).
Hypothesis (I_pgdir : forall m, I m -> pgdir_in pgdir m) (G_refl : forall m, G m m).

Lemma fetch_flat n s : (n <= last)%nat -> a20 (pm_dev s) = true -> pgdir_in pgdir (pm_mem s) ->
  bit_set (pm_cr0 s) CR0_PG = false \/ paging pgdir s -> translate false (at_ n) s = Some (at_ n).
Proof.
  intros Hn Ha Hpd [Hp|Hp]; [by rewrite translate_unpaged, line20_on|]. pose proof (at_in n Hn).
  destruct (translate_entry pgdir false (at_ n) s Hp Hpd pgdir_al pgdir_r) as [Ht _]. by apply Ht.
Qed.

Lemma flat_step n i code Q s s1 : (S n <= last)%nat -> a20 (pm_dev s) = true ->
  bit_set (pm_cr0 s) CR0_PG = false \/ paging pgdir s -> s_cs (pm_base s) = 0 -> pm_eip s = at_ n ->
  (forall m, I m -> exec_p i (pm_set_eip (at_ (S n)) (pm_set_mem m s)) = Done tt (pm_set_mem m s1)) ->
  (forall m, I m -> robust at_ I G (S n) code Q (pm_set_mem m s1)) -> robust at_ I G n (i :: code) Q s.
Proof.
  intros Hn Ha Hp Hc He Hx Hr. pose proof (at_in n ltac:(lia)). pose proof (at_in (S n) ltac:(lia)).
  eapply (robust_step _ _ _ n i code 0); [exact G_refl|exact Hc|lia|lia|lia|lia| |rewrite Z.sub_0_r; exact Hx|exact Hr].
  intros m Hm. destruct s. apply fetch_flat; [lia|done|by apply I_pgdir|done].
Qed.

(** A load from the first 4 Mbyte. *)
Lemma load_low a s : flat DS 16 s -> a20 (pm_dev s) = true -> pgdir_in pgdir (pm_mem s) ->
  bit_set (pm_cr0 s) CR0_PG = false \/ paging pgdir s -> 0 <= a < 4194304 -> a mod 4 = 0 ->
  load DS a s = Done (load32 (pm_mem s) a) s.
Proof.
  intros Hf Ha Hpd Hp Hr Hal. unfold load.
  assert (Ht : translate false a s = Some a).
  { destruct Hp as [Hp|Hp]; [by rewrite translate_unpaged, line20_on|].
    destruct (translate_entry pgdir false a s Hp Hpd pgdir_al pgdir_r) as [H _]. by apply H. }
  by rewrite (bind_Done _ _ _ _ _ (flat_access false DS a 16 s a Hf ltac:(lia) Hal Ht)).
Qed.

(** A push on a stack in the image of the first 4 Mbyte. *)
Lemma push_high v s : flat SS 16 s -> paging pgdir s -> pgdir_in pgdir (pm_mem s) ->
  let esp := r_esp (pm_regs s) in KERNBASE + 4 <= esp <= KERNBASE + 4194304 -> esp mod 4 = 0 ->
  pm_push v s = Done tt (pm_setr ESP (esp - 4) (pm_set_mem (store32 (pm_mem s) (esp - 4 - KERNBASE) v) s)).
Proof.
  intros Hf Hp Hpd esp Hr Hal. assert (HK : KERNBASE = 2147483648) by done.
  destruct (translate_entry pgdir true (esp - 4) s Hp Hpd pgdir_al pgdir_r) as [_ Ht].
  apply push_ok; [done|fold esp; lia|done|apply Ht; lia].
Qed.

Ltac next_flat F tac :=
  match goal with |- robust _ _ _ ?n (?i :: ?code) ?Q ?s =>
    let e := constr:(pm_set_eip (at_ (S n)) s) in
    let s1 := eval cbn [pm_set_mem pm_set_eip pm_setr pm_set_seg pm_set_cr pm_set_gdtr pm_set_dev pm_cli pm_set_zf pm_get_cr pm_regs
      pm_sel pm_base pm_lim pm_cr0 pm_cr3 pm_cr4 pm_gdtr pm_if pm_zf pm_eip pm_mem pm_dev r_eax r_esp set_reg set_seg get_seg
      s_es s_cs s_ss s_ds s_fs s_gs on_regs] in (F i e) in
    apply (flat_step n i code Q s s1); [lia|done| |reflexivity|reflexivity| |];
    [first [by left|by right; repeat split]|let m := fresh "m" in let Hm := fresh "Hm" in intros m Hm; tac|
     let m := fresh "m" in let Hm := fresh "Hm" in intros m Hm; cbn [pm_set_mem]]
  end.
Ltac next_r := next_flat on_regs ltac:(reflexivity).

(** entry.S *)
Lemma entry_robust entrypgdir_addr stack main Q s :
  flat32 (at_ 0%nat) s -> (11 <= last)%nat -> u32 (entrypgdir_addr - KERNBASE) = pgdir ->
  0 <= stack + KSTACKSIZE < 4294967296 -> 0 <= main < 4294967296 ->
  (forall s', in_c pgdir main (stack + KSTACKSIZE) s' -> Q s') ->
  robust at_ I G 0 (entry entrypgdir_addr stack main) Q s.
Proof.
  intros [F1 F2 F3 F4 F5 F6 F7] El Ep Hs Hm HQ.
  destruct s as [[a c d b sp bp si di] [se sc ss sd sf sg] [be bc bs bd bf bg] [le lc ls ld lf lg] c0 c3 c4 gd f z ip m0 dv].
  unfold data_flat, flat in *. cbn [pm_dev pm_cr0 pm_base s_cs pm_eip pm_lim s_ds s_es s_ss pm_if pm_sel get_seg] in *.
  destruct F2 as (-> & -> & ->), F3 as ((-> & -> & ->) & (-> & -> & ->) & (-> & -> & ->)). subst ip f.
  unfold entry. next_r. next_r. next_r. next_r. next_r. next_r. next_r. next_r.
  assert (P1 : forall k, k = CR0_PE \/ k = CR0_PG \/ k = CR0_WP -> bit_set (Z.lor c0 (Z.lor CR0_PG CR0_WP)) k = true).
  { intros k Hk. rewrite bit_set_lor. destruct Hk as [->|[->| ->]]; [by rewrite F5|apply orb_true_r..]. }
  pose proof (P1 CR0_PG ltac:(auto)) as P2.
  assert (P3 : bit_set (Z.lor c4 CR4_PSE) CR4_PSE = true) by (rewrite bit_set_lor; apply orb_true_r).
  next_r. next_r. next_flat (fun (_ : pinstr) (e : pm D) => pm_set_eip main e) ltac:(cbn; by rewrite u32_small).
  cbn [robust]. apply HQ. split; try done; [cbn [pm_regs r_esp]; by rewrite u32_small|apply P1; auto..].
Qed.

(** entryother.S from its second part on, and what [startothers] leaves for it. *)
Lemma other_robust stack enter s Q :
  flat32 (at_ 17%nat) s -> (27 <= last)%nat -> at_ 0%nat = 0x7000 ->
  KERNBASE + 4 <= stack <= KERNBASE + 4194304 -> stack mod 4 = 0 ->
  (forall m, I m -> load32 m (0x7000 - 4) = stack /\ load32 m (0x7000 - 8) = enter /\ load32 m (0x7000 - 12) = pgdir) ->
  (forall m, I m -> G m (store32 m (stack - 4 - KERNBASE) (at_ 27%nat))) ->
  (forall s', in_c pgdir enter (stack - 4) s' -> load32 (pm_mem s') (stack - 4 - KERNBASE) = at_ 27%nat -> Q s') ->
  robust at_ I G 17 (other_enter at_) Q s.
Proof.
  intros [F1 F2 F3 F4 F5 F6 F7] El E0 Hst Hal HI HG HQ.
  destruct s as [[a c d b sp bp si di] [se sc ss sd sf sg] [be bc bs bd bf bg] [le lc ls ld lf lg] c0 c3 c4 gd f z ip m0 dv].
  unfold data_flat, flat in *. cbn [pm_dev pm_cr0 pm_base s_cs pm_eip pm_lim s_ds s_es s_ss pm_if pm_sel get_seg] in *.
  destruct F2 as (-> & -> & ->), F3 as ((-> & -> & ->) & (-> & -> & ->) & (-> & -> & ->)). subst ip f.
  unfold other_enter. rewrite E0. next_r. next_r. next_r.
  assert (P0 : bit_set (Z.lor c4 CR4_PSE) CR4_PSE = true) by (rewrite bit_set_lor; apply orb_true_r).
  next_flat (fun (_ : pinstr) (e : pm D) => pm_setr EAX pgdir e) ltac:(cbn [exec_p]; erewrite bind_Done;
    [|apply load_low; [done|done|by apply I_pgdir|by left|done|done]]; cbn [pm_mem pm_set_mem pm_set_eip];
    erewrite (fun m H => proj2 (proj2 (HI m H))) by eassumption; done).
  next_r. next_r. next_r. next_r. set (cr := Z.lor c0 _).
  assert (P1 : forall k, k = CR0_PE \/ k = CR0_PG \/ k = CR0_WP -> bit_set cr k = true).
  { intros k Hk. unfold cr. rewrite bit_set_lor. destruct Hk as [->|[->| ->]]; apply orb_true_r. }
  pose proof (P1 CR0_PG ltac:(auto)) as P2. clearbody cr.
  next_flat (fun (_ : pinstr) (e : pm D) => pm_setr ESP stack e) ltac:(cbn [exec_p]; erewrite bind_Done;
    [|apply load_low; [done|done|by apply I_pgdir|by right; repeat split|done|done]]; cbn [pm_mem pm_set_mem pm_set_eip];
    erewrite (fun m H => proj1 (HI m H)) by eassumption; done).
  cbn [robust]. intros m9 H9. pose proof (at_in 26 ltac:(lia)) as A1. pose proof (at_in 27 ltac:(lia)) as A2. eexists. split; [|split].
  - rewrite step_here.
    + cbn [exec_p pm_eip pm_set_mem pm_set_eip]. replace (u32 _) with (at_ 27%nat) by (rewrite u32_small; lia).
      erewrite bind_Done; [|apply load_low; [done|done|by apply I_pgdir|by right; repeat split|done|done]].
      erewrite bind_Done; [|reflexivity]. erewrite bind_Done; [|apply push_high; [done|by repeat split|by apply I_pgdir|done|done]].
      reflexivity.
    + split; [cbn; rewrite u32_small; lia|]. apply fetch_flat; [lia|done|by apply I_pgdir|by right; repeat split].
  - cbn [pm_mem pm_set_eip pm_setr pm_set_mem pm_regs r_esp]. by apply HG.
  - cbn [robust]. destruct (HI _ H9) as (_ & He & _). apply HQ.
    + split; try done; [apply P1; auto..].
    + cbn [pm_mem pm_set_eip pm_setr pm_set_mem pm_regs r_esp pm_eip set_reg]. rewrite load32_store32_eq, u32_small; lia.
Qed.
End IntoC.

(** ** The files *)

(** What [startothers] leaves for a processor: the copy of the code with its table, and the
    three words below it; and the first entries of [entrypgdir]. *)
Record given (gdt stack enter pgdir : Z) m : Prop := Given {
  gv_gdt : gdt_in gdt m;
  gv_stack : load32 m (0x7000 - 4) = stack;
  gv_enter : load32 m (0x7000 - 8) = enter;
  gv_pgdir : load32 m (0x7000 - 12) = pgdir;
  gv_pages : pgdir_in pgdir m }.

(** A step changes nothing but the word of the return address. *)
Definition own_word (stack : Z) m m' : Prop :=
  (bytes_ok m -> bytes_ok m') /\ forall x, ~ stack - 4 - KERNBASE <= x < stack - KERNBASE -> m' x = m x.

(** entryother.S is robust: started in real mode at 0x7000, it comes to [enter] on its stack,
    whatever else happens in memory meanwhile. *)
Lemma entryother_robust at_ gdt stack enter pgdir s :
  at_ 0%nat = 0x7000 -> (forall n, (n <= 27)%nat -> 0x7000 <= at_ n < 0x8000) -> 0x7000 <= gdt -> gdt + 30 <= 0x8000 ->
  pgdir mod 4096 = 0 -> 0 <= pgdir < 4294967296 -> KERNBASE + 4 <= stack <= KERNBASE + 4194304 -> stack mod 4 = 0 ->
  real at_ (pm_dev s) 0x7000 0 s -> a20 (pm_dev s) = true ->
  robust at_ (given gdt stack enter pgdir) (own_word stack) 0 (entryother at_ (gdt + 24)) (fun s' =>
    in_c pgdir enter (stack - 4) s' /\ load32 (pm_mem s') (stack - 4 - KERNBASE) = at_ 27%nat) s.
Proof.
  intros E0 Hat Hg1 Hg2 Hp1 Hp2 Hs1 Hs2 Hr Ha.
  assert (Ig : forall m, given gdt stack enter pgdir m -> gdt_in gdt m) by (by intros m []).
  assert (Ip : forall m, given gdt stack enter pgdir m -> pgdir_in pgdir m) by (by intros m []).
  assert (Gr : forall m, own_word stack m m) by (by split).
  change (entryother at_ (gdt + 24)) with (boot_start ++ protect at_ gdt 5 ++ start32_segs ++ other_enter at_).
  eapply (zero_segs at_ gdt 0x7000 0x8000 27); [lia|lia|exact Hat|lia|exact Gr|exact Hr|lia|lia|]. intros s1 R1 F1 D1 _.
  eapply (protect_ok at_ gdt 0x7000 0x8000 27); [lia|lia|exact Hat|lia|lia|zlia|exact Ig|exact Gr|exact R1|done|done|lia|lia|].
  intros s2 R2 _. eapply (data_segs at_ gdt 0x7000 0x8000 27); [lia|lia|exact Hat|lia|lia|exact Ig|exact Gr|exact R2|lia|].
  intros s3 [] Hd _. eapply (other_robust at_ 27 pgdir) with (enter := enter); [intros n Hn; specialize (Hat n Hn); lia|done|done|exact Ip|exact Gr| |done|done|done|done| | |].
  - split; try done. by rewrite pr_dev0.
  - by intros m [].
  - intros m _. split; [apply bytes_ok_store32|]. intros x Hx. apply store32_ne. lia.
  - done.
Qed.

(** entry.S. *)
Theorem entry_spec at_ entrypgdir_addr stack main s :
  (forall n, (n <= 11)%nat -> 0 <= at_ n < 4194304) ->
  let pgdir := entrypgdir_addr - KERNBASE in
  pgdir mod 4096 = 0 -> 0 <= pgdir < 4294967296 -> pgdir_in pgdir (pm_mem s) ->
  0 <= stack + KSTACKSIZE < 4294967296 -> 0 <= main < 4294967296 -> flat32 (at_ 0%nat) s ->
  returns (run_at at_ 0 (entry entrypgdir_addr stack main)) s (fun _ s' =>
    in_c pgdir main (stack + KSTACKSIZE) s').
Proof.
  intros Hat pgdir Hp1 Hp2 Hm Hs Hmn Hf.
  eapply (robust_run at_ (pgdir_in pgdir) eq); [by intros m m' H <-|exact Hm|].
  eapply (entry_robust at_ 11 pgdir Hat Hp1 Hp2); [done|done|exact Hf|done|by apply u32_small|done|done|done].
Qed.

(** ** The boot block *)

(** The keyboard controller: its input buffer is busy for a while, and after the command 0xd1
    a byte for port 0x60 sets its output port, whose second bit is address line 20. *)
Class Kbc (patience : nat) := {
  kb_busy : D -> nat;
  kb_cmd : D -> bool;
  kb_status d : let r := inb 0x64 d in
    kb_cmd r.2 = kb_cmd d /\ a20 r.2 = a20 d /\
    match kb_busy d with
    | S n => bit_set (u8 r.1) 2 = true /\ (kb_busy r.2 <= n)%nat
    | O => bit_set (u8 r.1) 2 = false /\ kb_busy r.2 = 0%nat
    end;
  kb_command d : kb_busy d = 0%nat -> let d' := outb 0x64 0xd1 d in kb_cmd d' = true /\ (kb_busy d' <= patience)%nat;
  kb_output d v : kb_busy d = 0%nat -> kb_cmd d = true -> a20 (outb 0x60 v d) = bit_set v 2 }.

Section BootBlock.
Context {patience : nat} {kbc : Kbc patience}.
Variables (at_ : nat -> Z) (gdt : Z).
Hypothesis (at_in : forall n, (n <= 29)%nat -> 0x7c00 <= at_ n < 0x7e00).
Hypothesis (gdt_low : 0x7c00 <= gdt) (gdt_high : gdt + 30 <= 0x7e00).
Variable m0 : mem.
Hypothesis (Hgdt : gdt_in gdt m0).

(** In real mode before instruction [n], interrupts off, the memory as it was. *)
Definition waiting (dev : D) (n : nat) s : Prop :=
  real at_ dev 0 n s /\ pm_if s = false /\ s_ds (pm_base s) = 0 /\ pm_mem s = m0.

(** A loop that waits for the controller. *)
Lemma seta20_wait_ok n fuel : forall dev s, waiting dev n s -> (n + 3 <= 29)%nat -> (kb_busy dev < fuel)%nat ->
  returns (seta20_wait at_ n fuel) s (fun _ s' => exists dev', waiting dev' (n + 3) s' /\
    kb_busy dev' = 0%nat /\ kb_cmd dev' = kb_cmd dev).
Proof.
  induction fuel as [|fuel IH]; intros dev s (R & Hif & Hds & Hm) Hn Hb; [lia|]. cbn [seta20_wait].
  pose proof (kb_status dev) as (K1 & _ & K3). set (r := inb 0x64 dev) in *.
  eapply returns_bind.
  - eapply (robust_run at_ (eq m0) eq); [by intros m m' <- <-|done|].
    eapply (poll_turn at_ gdt 0x7c00 0x7e00 29); [lia|lia|exact at_in|lia|done|exact R|lia|].
    intros s' Hz R' M' Hm'. exact (conj Hz (conj R' (conj M' Hm'))).
  - intros _ s' (Hz & R' & (M1 & M2) & Hm'). fold r in Hz, R'. cbv beta. eapply returns_gets. rewrite Hz.
    rewrite Hif in M1. rewrite Hds in M2. destruct (kb_busy dev) as [|k]; destruct K3 as [K3 K4]; rewrite K3 in *; cbn [negb] in *.
    + apply returns_ret. exists r.2. split; [|done]. by split.
    + eapply returns_mono; [apply (IH r.2); [by split|done|lia]|]. cbv beta. intros _ s2 (d' & W & B & C). exists d'. by rewrite C.
Qed.
End BootBlock.

(** Up to the switch to protected mode. *)
Lemma boot_a20 {patience} {kbc : Kbc patience} at_ gdt fuel s (k : M (pm D) unit) Q :
  (forall n, (n <= 29)%nat -> 0x7c00 <= at_ n < 0x7e00) -> 0x7c00 <= gdt ->
  real at_ (pm_dev s) 0 0 s -> (kb_busy (pm_dev s) < fuel)%nat -> (patience < fuel)%nat ->
  (forall dev s', waiting at_ (pm_mem s) dev 15 s' -> a20 dev = true -> returns k s' Q) ->
  returns (run_at at_ 0 boot_start ;;; seta20_wait at_ 5 fuel ;;; run_at at_ 8 [Movb_al 0xd1; Outb_al 0x64] ;;;
    seta20_wait at_ 10 fuel ;;; run_at at_ 13 [Movb_al 0xdf; Outb_al 0x60] ;;; k) s Q.
Proof.
  intros Hat Hg1 Hr Hb Hp HQ. assert (G1 : 0 <= gdt) by lia.
  assert (Heq : forall m m', pm_mem s = m -> m = m' -> pm_mem s = m') by congruence.
  eapply returns_bind.
  { eapply (robust_run at_ (eq (pm_mem s)) eq); [exact Heq|done|]. rewrite <- (app_nil_r boot_start).
    eapply (zero_segs at_ gdt 0x7c00 0x7e00 29); [done|done|exact Hat|exact G1|done|exact Hr|clear; lia|done|].
    intros s1 R1 F1 D1 M1. exact (conj R1 (conj F1 (conj D1 (eq_sym M1)))). }
  intros u1 s1 W1. cbv beta in W1. eapply returns_bind; [eapply (seta20_wait_ok at_ gdt Hat Hg1 (pm_mem s) 5 fuel); [exact W1|clear; lia|exact Hb]|].
  intros _ s2 (d2 & (R2 & F2 & D2 & M2) & B2 & C2). destruct (kb_command d2 B2) as [K1 K2]. eapply returns_bind.
  { eapply (robust_run at_ (eq (pm_mem s)) eq); [exact Heq|done|].
    eapply (send_byte at_ gdt 0x7c00 0x7e00 29); [done|done|exact Hat|exact G1|done|exact R2|clear; lia|].
    intros s3 R3 [F3 D3] M3. rewrite F2 in F3. rewrite D2 in D3. exact (conj R3 (conj F3 (conj D3 (eq_sym M3)))). }
  intros u3 s3 W3. cbv beta in W3. eapply returns_bind; [eapply (seta20_wait_ok at_ gdt Hat Hg1 (pm_mem s) 10 fuel); [exact W3|clear; lia|]|].
  { change (u8 0xd1) with 0xd1. clear -K2 Hp. lia. }
  intros _ s4 (d4 & (R4 & F4 & D4 & M4) & B4 & C4). change (u8 0xd1) with 0xd1 in C4. rewrite K1 in C4.
  pose proof (kb_output d4 0xdf B4 C4 : a20 _ = true) as Ha. eapply returns_bind.
  { eapply (robust_run at_ (eq (pm_mem s)) eq); [exact Heq|done|].
    eapply (send_byte at_ gdt 0x7c00 0x7e00 29); [done|done|exact Hat|exact G1|done|exact R4|clear; lia|].
    intros s5 R5 [F5 D5] M5. rewrite F4 in F5. rewrite D4 in D5. exact (conj R5 (conj F5 (conj D5 (eq_sym M5)))). }
  intros u5 s5 W5. exact (HQ _ s5 W5 Ha).
Qed.

(** The call of [bootmain]. *)
Lemma call_bootmain at_ bootmain s :
  (forall n, (n <= 29)%nat -> 0x7c00 <= at_ n < 0x7e00) -> at_ 0%nat = 0x7c00 -> flat32 (at_ 27%nat) s ->
  returns (run_at at_ 27 [Movl_const (at_ 0%nat) ESP; Call_near bootmain]) s (fun _ s' =>
    flat32 bootmain s' /\ r_esp (pm_regs s') = 0x7c00 - 4 /\ load32 (pm_mem s') (0x7c00 - 4) = at_ 29%nat /\
    forall x, ~ 0x7c00 - 4 <= x < 0x7c00 -> pm_mem s' x = pm_mem s x).
Proof.
  intros Hat E0 [F1 F2 F3 F4 F5 F6 F7].
  pose proof (Hat 27%nat ltac:(lia)). pose proof (Hat 28%nat ltac:(lia)). pose proof (Hat 29%nat ltac:(lia)).
  destruct s as [[a c d b sp bp si di] [se sc ss sd sf sg] [be bc bs bd bf bg] [le lc ls ld lf lg] c0 c3 c4 gd f z ip m0 dv].
  unfold data_flat, flat in *. cbn [pm_dev pm_cr0 pm_base s_cs pm_eip pm_lim s_ds s_es s_ss pm_if pm_sel get_seg] in *.
  destruct F2 as (-> & -> & ->), F3 as ((-> & -> & ->) & (-> & -> & ->) & (-> & -> & ->)). subst ip f. rewrite E0. cbn [run_at].
  eapply returns_Done.
  { rewrite step_here; [reflexivity|]. split; [cbn; rewrite u32_small; lia|]. by rewrite translate_unpaged, line20_on. }
  cbn [pm_eip pm_set_eip pm_setr set_reg]. change (u32 31744) with 31744. rewrite (u32_small (_ + _)) by lia.
  replace (at_ 27%nat + _) with (at_ 28%nat) by lia. eapply returns_Done.
  { rewrite step_here; [|split; [cbn; rewrite u32_small; lia|by rewrite translate_unpaged, line20_on]].
    cbn [exec_p pm_eip pm_set_eip]. rewrite (u32_small (_ + _)) by lia. replace (at_ 28%nat + _) with (at_ 29%nat) by lia.
    erewrite bind_Done; [|reflexivity].
    erewrite bind_Done; [|apply (push_ok _ _ (0x7c00 - 4)); [done|done|done|by rewrite translate_unpaged, line20_on]]. reflexivity. }
  apply returns_ret. cbn [pm_mem pm_regs pm_eip pm_set_eip pm_setr pm_set_mem r_esp set_reg]. split; [by split|]. split; [done|].
  split; [rewrite load32_store32_eq, u32_small; lia|]. intros x Hx. apply store32_ne. lia.
Qed.

(** The boot block: from real mode, as the BIOS leaves it, bootasm.S turns on address line
    20, takes flat 32-bit segments and calls [bootmain] with interrupts off and a stack below
    its own code; every instruction is fetched from where it lies, and of the memory only the
    word of the return address changes. *)
Theorem bootasm_spec {patience} {kbc : Kbc patience} at_ gdt bootmain fuel s :
  (forall n, (n <= 29)%nat -> 0x7c00 <= at_ n < 0x7e00) -> at_ 0%nat = 0x7c00 -> 0x7c00 <= gdt -> gdt + 30 <= 0x7e00 ->
  gdt_in gdt (pm_mem s) -> real at_ (pm_dev s) 0 0 s -> (kb_busy (pm_dev s) < fuel)%nat -> (patience < fuel)%nat ->
  0 <= bootmain < 4294967296 ->
  returns (bootasm at_ (gdt + 24) bootmain fuel) s (fun _ s' =>
    flat32 bootmain s' /\ r_esp (pm_regs s') = 0x7c00 - 4 /\ load32 (pm_mem s') (0x7c00 - 4) = at_ 29%nat /\
    forall x, ~ 0x7c00 - 4 <= x < 0x7c00 -> pm_mem s' x = pm_mem s x).
Proof.
  intros Hat E0 Hg1 Hg2 Hg Hr Hb Hp Hbm. unfold bootasm.
  assert (G1 : 0 <= gdt) by lia. assert (G2 : gdt + 30 <= 0x10000) by lia. assert (G3 : gdt mod 4096 + 30 <= 4096) by zlia.
  assert (Heq : forall m m', pm_mem s = m -> m = m' -> pm_mem s = m') by congruence.
  apply (boot_a20 at_ gdt); [exact Hat|done..|]. intros dev s5 (R5 & F5 & D5 & M5) Ha. eapply returns_bind.
  { eapply (robust_run at_ (eq (pm_mem s)) eq); [exact Heq|done|]. rewrite <- (app_nil_r (boot_protect _ _)).
    eapply (protect_ok at_ gdt 0x7c00 0x7e00 29); [done|done|exact Hat|exact G1|exact G2|exact G3|by intros m <-|done|exact R5|done|done|clear; lia|done|].
    intros s6 P6 M6. exact (conj P6 (eq_sym M6)). }
  intros u6 s6 (P6 & M6). eapply returns_bind.
  { eapply (robust_run at_ (eq (pm_mem s)) eq); [exact Heq|done|]. rewrite <- (app_nil_r start32_segs).
    eapply (data_segs at_ gdt 0x7c00 0x7e00 29); [done|done|exact Hat|exact G1|exact G2|by intros m <-|done|exact P6|clear; lia|].
    intros s7 P7 D7 M7. exact (conj P7 (conj D7 (eq_sym M7))). }
  intros u7 s7 (P7 & D7 & M7).
  rewrite <- M7. apply call_bootmain; [exact Hat|exact E0|]. destruct P7 as [Q1 Q2 Q3 Q4 Q5 Q6 Q7]. split; try done. by rewrite Q1.
Qed.
End Machine.
