(* ===== verification/Start.v ===== *)
(** * Starting the other processors (main.c)

    [startothers] copies entryother.S to 0x7000 and starts one processor after the other: it
    leaves a stack, the address of [mpenter] and a page directory in the three words below
    the code and waits until the processor has set [started]. Each processor runs the code
    instruction by instruction, in the same memory, then [mpenter]. The boot processor, the
    instructions of the others and whatever the processors that are up already do to the rest
    of the memory interleave. The line that [mpmain] prints is left out. *)

From stdpp Require Import base tactics numbers list strings.
From Stdlib Require Import ZArith Lia ZifyNat ZifyBool.
From S2P Require Import Prelude Layout Ports Spinlock CString Kalloc Vm VmSpec Apic ApicSpec Kvm Asm Entry EntrySpec.

Definition sizeof_idt : Z := 8 * 256.

(** [code] of [startothers] and its physical address. *)
Definition CODE : Z := P2V 0x7000.

(** The physical memory behind the kernel's memory, and back. *)
Definition phys_mem (m : mem) : mem := fun pa => m (KERNBASE + pa).
Definition kernel_mem (p m : mem) : mem := fun va => if KERNBASE <=? va then p (va - KERNBASE) else m va.

Section Start.
Context {D : Type} {ports : Ports D} {mmio : Mmio D} {gate : Gate20 D}.

(** ** Definitions *)

(** What the boot processor works on: the allocator with the memory, and the devices. *)
Record sst := SSt { ss_k : kstate; ss_dev : D }.
Definition ss_k_lens : lens sst kstate := Lens ss_k (fun k s => SSt k (ss_dev s)).
Definition ss_cpu_lens : lens sst cpu :=
  Lens (fun s => k_cpu (ss_k s)) (fun c s =>
    SSt (KState c (k_mem (ss_k s)) (kmem_lock (ss_k s)) (kmem_use_lock (ss_k s)) (kmem_freelist (ss_k s))) (ss_dev s)).
Definition ss_hw_lens : lens sst (hw D) :=
  Lens (fun s => Hw (k_mem (ss_k s)) (ss_dev s)) (fun h s => SSt (set_k_mem (hw_mem h) (ss_k s)) (hw_dev h)).

(** What a processor in [mpenter] works on. *)
Record apst := ApSt { as_kv : kvst; as_dev : D; as_idtr : Z * Z; as_started : list bool }.
Definition as_kv_lens : lens apst kvst := Lens as_kv (fun k s => ApSt k (as_dev s) (as_idtr s) (as_started s)).
Definition as_hw_lens : lens apst (hw D) :=
  Lens (fun s => Hw (k_mem (kv_k (as_kv s))) (as_dev s))
    (fun h s => ApSt (lset kv_lens (set_k_mem (hw_mem h) (kv_k (as_kv s))) (as_kv s)) (hw_dev h) (as_idtr s) (as_started s)).

Definition lidt (p size : Z) (s : apst) : apst :=
  let pd0 := u16 (size - 1) in let pd1 := u16 p in let pd2 := u16 (Z.shiftr p 16) in
  ApSt (as_kv s) (as_dev s) (pd0, pd1 + 65536 * pd2) (as_started s).

Section Code.
(** The boot processor; the addresses of the symbols that the code names. *)
Variables (me : nat) (callers : list Z) (kend : Z).
Variables (lapic mpenter_addr entrypgdir_addr idt_addr image size : Z).
Variable gdt_addr : nat -> Z.
Variable lapic_fuel : nat.

Definition copy_entry : M sst unit := zoom ss_k_lens (mmove CODE image size).

(** The body of the loop for processor [i], up to the wait; the result says whether there is
    one to wait for. *)
Definition start_turn (i : nat) (apicid : Z) : M sst bool :=
  let! c := zoom ss_cpu_lens (mycpu me) in
  if decide (i = c) then m_ret false
  else
    let! stack := zoom ss_k_lens (kalloc me callers) in
    zoom ss_k_lens (wr (CODE - 4) (u32 (stack + KSTACKSIZE))) ;;;
    zoom ss_k_lens (wr (CODE - 8) mpenter_addr) ;;;
    zoom ss_k_lens (wr (CODE - 12) (V2P entrypgdir_addr)) ;;;
    zoom ss_hw_lens (lapicstartap lapic apicid (V2P CODE)) ;;;
    m_ret true.

Definition idtinit : M apst unit := modify (lidt idt_addr sizeof_idt).

(** [mpenter] on processor [c] up to the end of [mpmain]: the set-up, and the [xchg]. *)
Definition mp_setup (c : nat) : M apst unit :=
  zoom as_kv_lens switch_kvm ;;;
  zoom as_kv_lens (seginit c gdt_addr) ;;;
  zoom as_hw_lens (lapicinit lapic lapic_fuel) ;;;
  idtinit.
Definition set_started (c : nat) (s : apst) : apst := ApSt (as_kv s) (as_dev s) (as_idtr s) (<[c := true]> (as_started s)).
Definition mpenter (c : nat) : M apst unit := mp_setup c ;;; modify (set_started c).
End Code.
End Start.
