(* ===== verification/StartSpec.v ===== *)
(** * Every processor starts on its own stack

    [startothers] against the processors it starts: the words below the code belong to one
    processor at a time, and every processor comes up, on a stack of its own. *)

From stdpp Require Import base tactics numbers list sets strings relations.
From Stdlib Require Import ZArith Lia ZifyNat ZifyBool.
From S2P Require Import Prelude Layout Ports Spinlock CString Kalloc Vm VmSpec Apic ApicSpec Kvm Asm Entry EntrySpec Start.

Section Ops.
Context {D : Type} {ports : Ports D} {mmio : Mmio D} {gate : Gate20 D}.
Context {lapic : Z} {patience : nat} {la : LocalApic D lapic patience}.

(** ** The boot processor's turn *)

(** Memory but the three words and the warm reset vector. *)
Definition beside (x : Z) : Prop := ~ CODE - 12 <= x < CODE /\ ~ P2V 0x467 <= x < P2V 0x467 + 4.

Lemma kalloc_unlocked me callers kend k p free : kinv kend k (p :: free) -> kmem_use_lock k = 0 ->
  exists k', kalloc me callers k = Done p k' /\ kinv kend k' free /\ k_mem k' = k_mem k /\ k_cpu k' = k_cpu k /\ kmem_use_lock k' = 0.
Proof.
  intros Hk Hu. destruct (kalloc_ok me callers kend k _ Hk) as (k' & E & Hk' & Hm). exists k'. split; [exact E|]. split; [done|].
  rewrite kalloc_run in E by apply Hk. injection E as _ <-. unfold after_lock. by rewrite Hu.
Qed.

(** The three words below the code. *)
Definition put_words (stack enter pgdir : Z) (m : mem) : mem :=
  store32 (store32 (store32 m (CODE - 4) stack) (CODE - 8) enter) (CODE - 12) pgdir.
Lemma put_words_ok stack enter pgdir m : 0 <= stack < 4294967296 -> 0 <= enter < 4294967296 -> 0 <= pgdir < 4294967296 ->
  let m' := put_words stack enter pgdir m in
  (bytes_ok m -> bytes_ok m') /\ (forall x, ~ CODE - 12 <= x < CODE -> m' x = m x) /\
  load32 m' (CODE - 4) = stack /\ load32 m' (CODE - 8) = enter /\ load32 m' (CODE - 12) = pgdir.
Proof.
  intros Hs He Hp m'. unfold m', put_words. split; [|split; [|split; [|split]]].
  - intros Hb. by do 3 apply bytes_ok_store32.
  - intros x Hx. rewrite !store32_ne by lia. done.
  - rewrite !load32_store32_ne, load32_store32_eq by lia. by apply u32_small.
  - rewrite load32_store32_ne, load32_store32_eq by lia. by apply u32_small.
  - rewrite load32_store32_eq. by apply u32_small.
Qed.

Lemma start_turn_ok me callers kend enter pgdir i id p free (s : sst) :
  kinv kend (ss_k s) (p :: free) -> eflags_if (k_cpu (ss_k s)) = false -> kmem_use_lock (ss_k s) = 0 ->
  (forall a, a ∈ p :: free -> CODE <= a) -> p + 4096 < 4294967296 -> i <> me -> 0 <= id < 256 ->
  0 <= enter < 4294967296 ->
  returns (start_turn me callers lapic enter pgdir i id) s (fun r s' => r = true /\
    kinv kend (ss_k s') free /\ k_cpu (ss_k s') = k_cpu (ss_k s) /\ kmem_use_lock (ss_k s') = 0 /\
    load32 (k_mem (ss_k s')) (CODE - 4) = p + 4096 /\ load32 (k_mem (ss_k s')) (CODE - 8) = enter /\
    load32 (k_mem (ss_k s')) (CODE - 12) = V2P pgdir /\
    (forall x, beside x -> k_mem (ss_k s') x = k_mem (ss_k s) x) /\
    let to := id * 16777216 in l_sent (ss_dev s') = l_sent (ss_dev s) ++
      [(to, INIT + LEVEL + ASSERT); (to, INIT + LEVEL); (to, STARTUP + 7); (to, STARTUP + 7)]).
Proof.
  intros Hk Hif Hu Hc Hp Hi Hid He. destruct s as [k dev]. cbn [ss_k ss_dev] in *. unfold start_turn.
  eapply returns_Done.
  { apply (zoom_Done ss_cpu_lens). unfold mycpu, readeflags. cbn. rewrite Hif. reflexivity. }
  rewrite decide_False by done. cbn [lset ss_cpu_lens ss_k ss_dev].
  assert (Ek : KState (k_cpu k) (k_mem k) (kmem_lock k) (kmem_use_lock k) (kmem_freelist k) = k) by (by destruct k). rewrite Ek.
  destruct (kalloc_unlocked me callers kend k p free Hk Hu) as (k1 & E1 & Hk1 & M1 & C1 & U1).
  eapply returns_Done; [apply (zoom_Done ss_k_lens); exact E1|]. do 3 (eapply returns_Done; [reflexivity|]).
  pose proof (Hc p ltac:(rewrite elem_of_cons; by left)) as Hp0.
  assert (HC : CODE = 2147512320) by done. unfold KSTACKSIZE. rewrite (u32_small (p + 4096)) by lia.
  destruct (put_words_ok (p + 4096) enter (V2P pgdir) (k_mem k)) as (W0 & W1 & W2 & W3 & W4); [lia|done|apply u32_range|].
  destruct (lapicstartap_spec (Hw (put_words (p + 4096) enter (V2P pgdir) (k_mem k)) dev) id (V2P CODE)) as (u & h & E2 & Hs & _ & _ & Hb & Hf);
    [done|by vm_compute|by vm_compute|].
  eapply returns_Done; [apply (zoom_Done ss_hw_lens); unfold ss_hw_lens; cbn; rewrite M1; exact E2|].
  apply returns_ret. split; [done|]. cbn [ss_k ss_dev lset ss_hw_lens k_mem set_k_mem k_cpu kmem_use_lock].
  assert (Hl : forall a, CODE - 12 <= a <= CODE - 4 -> load32 (hw_mem h) a = load32 (put_words (p + 4096) enter (V2P pgdir) (k_mem k)) a).
  { intros a Ha. apply load32_ext. intros j Hj. apply Hf. change (P2V 0x467) with 2147484775. lia. }
  assert (Hx : forall x, beside x -> hw_mem h x = k_mem k x) by (intros x [Hx1 Hx2]; rewrite Hf by done; by apply W1).
  split; [|split; [done|split; [done|]]].
  - apply (kinv_write kend (set_k_mem (k_mem k) k1)); [|by apply Hb, W0, Hk|].
    + apply kinv_write; [done|apply Hk|]. intros. by rewrite M1.
    + intros a x Ha Hax. cbn [k_mem set_k_mem]. apply Hx. pose proof (Hc a ltac:(rewrite elem_of_cons; by right)).
      unfold in_page in Hax. split; [lia|]. change (P2V 0x467) with 2147484775. lia.
  - rewrite !Hl by lia. done.
Qed.

(** ** A processor in [mpenter] *)

(** The table of descriptors that [seginit] leaves. *)
Definition flat_gdt (g : list segdesc) : Prop := length g = NSEGS /\ exists kc kd uc ud,
  g !! Z.to_nat SEG_KCODE = Some kc /\ segment kc (STA_X + STA_R) 0 0xffffffff 0 /\
  g !! Z.to_nat SEG_KDATA = Some kd /\ segment kd STA_W 0 0xffffffff 0 /\
  g !! Z.to_nat SEG_UCODE = Some uc /\ segment uc (STA_X + STA_R) 0 0xffffffff DPL_USER /\
  g !! Z.to_nat SEG_UDATA = Some ud /\ segment ud STA_W 0 0xffffffff DPL_USER.

Lemma mp_setup_ok idt_addr gdt_addr fuel c g (s : apst) :
  lapic <> 0 -> (patience < fuel)%nat -> kv_gdt (as_kv s) !! c = Some g -> length g = NSEGS ->
  0 <= gdt_addr c < 4294967296 -> 0 <= idt_addr < 4294967296 -> eflags_if (k_cpu (kv_k (as_kv s))) = false ->
  returns (mp_setup lapic idt_addr gdt_addr fuel c) s (fun _ s' => exists g',
    kv_k (as_kv s') = kv_k (as_kv s) /\ kv_kpgdir (as_kv s') = kv_kpgdir (as_kv s) /\ as_started s' = as_started s /\
    kv_cr3 (as_kv s') = V2P (kv_kpgdir (as_kv s)) /\ kv_gdtr (as_kv s') = (47, gdt_addr c) /\
    kv_gdt (as_kv s') = <[c := g']> (kv_gdt (as_kv s)) /\ flat_gdt g' /\ as_idtr s' = (2047, idt_addr) /\
    l_reg (as_dev s') TIMER = Z.lor PERIODIC (T_IRQ0 + IRQ_TIMER) /\ l_reg (as_dev s') TPR = 0).
Proof.
  intros Hl Hf Hg Hn Ha Hi He. destruct s as [kv dev idt st]. cbn [as_kv as_dev as_started as_idtr] in *. unfold mp_setup.
  eapply returns_Done; [apply (zoom_Done as_kv_lens); reflexivity|]. cbn [as_kv_lens lset lget as_kv as_dev as_idtr as_started].
  set (kv1 := lcr3 (V2P (kv_kpgdir kv)) kv).
  pose proof (seginit_ok c gdt_addr kv1 g Hg Hn Ha) as H. change (k_cpu (kv_k kv1)) with (k_cpu (kv_k kv)) in H. rewrite He in H.
  destruct H as (u & kv2 & E2 & g' & kc & kd & uc & ud & G1 & G2 & G3 & G4 & G5).
  eapply returns_Done; [apply (zoom_Done as_kv_lens); exact E2|]. cbn [as_kv_lens lset lget as_kv as_dev as_idtr as_started].
  destruct (lapicinit_spec (Hw (k_mem (kv_k kv2)) dev) fuel Hl Hf) as (u2 & h & E3 & M3 & L3).
  eapply returns_Done; [apply (zoom_Done as_hw_lens); exact E3|].
  eexists _, _. split; [reflexivity|]. exists g'. destruct kv2 as [k2 kp2 c2 gd2 gr2]. cbn in G1, G2, G3, M3 |- *. injection G3 as -> -> ->.
  assert (Ek : set_k_mem (hw_mem h) (kv_k kv) = kv_k kv) by (rewrite M3; by destruct (kv_k kv)).
  split; [exact Ek|]. split; [done|]. split; [done|]. split; [done|]. split; [done|]. split; [done|].
  split; [split; [done|]; exists kc, kd, uc, ud; tauto|]. split; [|tauto].
  f_equal. unfold u16. rewrite Z.shiftr_div_pow2 by lia. change (2 ^ 16) with 65536. zlia.
Qed.
(** The copy of the code brings its table to where the code expects it. *)
Lemma copy_entry_ok image size gdt (s : sst (D := D)) : bytes_ok (k_mem (ss_k s)) -> 0x7000 <= gdt -> gdt + 30 <= 0x7000 + size ->
  (forall i b, (boot_gdt ++ gdtdesc gdt) !! i = Some b -> k_mem (ss_k s) (image + (gdt - 0x7000) + Z.of_nat i) = b) ->
  returns (copy_entry image size) s (fun _ s' =>
    gdt_in gdt (phys_mem (k_mem (ss_k s'))) /\ bytes_ok (k_mem (ss_k s')) /\ ss_dev s' = ss_dev s /\
    forall x, ~ CODE <= x < CODE + size -> k_mem (ss_k s') x = k_mem (ss_k s) x).
Proof.
  intros Hb Hl Hh Hi. change CODE with (KERNBASE + 0x7000). eexists _, _. split; [reflexivity|]. cbn.
  split; [|split; [|split; [done|]]].
  - intros i b Hx. pose proof (lookup_lt_Some _ _ _ Hx) as Hn. change (length _) with 30%nat in Hn.
    unfold phys_mem. rewrite memmove_bytes by done. rewrite <- (Hi i b Hx). case_bool_decide; [f_equal|]; change CODE with (KERNBASE + 0x7000) in *; lia.
  - intros x. rewrite memmove_bytes by done. case_bool_decide; apply Hb.
  - intros x Hx. rewrite memmove_bytes by done. case_bool_decide; [|done]. change CODE with (KERNBASE + 0x7000) in *; lia.
Qed.
End Ops.

(** ** The processors together *)

Section World.
Context {D : Type} {ports : Ports D} {mmio : Mmio D} {gate : Gate20 D}.
Context {lapic : Z} {patience : nat} {la : LocalApic D lapic patience}.
(** The boot processor, the ids of all, and the symbols of the kernel. *)
Variables (me : nat) (callers : list Z) (kend : Z) (ids : list Z).
Variables (enter pgdir_addr idt_addr : Z) (gdt_addr : nat -> Z) (fuel : nat).
(** The code at 0x7000: its instructions and its table. *)
Variables (at_ : nat -> Z) (gdt : Z).
(** Memory that the processors that are up may write to. *)
Variable own : Z -> Prop.

Abbreviation code := (entryother at_ (gdt + 24)).

(** Where the boot processor is in its loop: before the turn for processor [i], and waiting
    for it. *)
Inductive bpc := BAt (i : nat) | BWait (i : nat).

(** A processor that is up, or about to say so: its stack pointer and its registers. *)
Record upregs := UpRegs { u_esp : Z; u_cr3 : Z; u_gdtr : Z * Z; u_idtr : Z * Z }.

(** Where another processor is: not started, before instruction [n] of entryother.S, in
    [mpenter], about to set [started], and in the scheduler. *)
Inductive ap :=
  | Halted
  | Code (n : nat) (r : pm D)
  | Entered (r : pm D)
  | Ready (u : upregs)
  | Up (u : upregs).

Record world := World {
  w_s : sst (D := D);
  w_kpgdir : Z;
  w_gdt : list (list segdesc);
  w_started : list bool;
  w_boot : bpc;
  w_aps : list ap }.
Abbreviation wmem w := (k_mem (ss_k (w_s w))).

Definition set_wmem (m : mem) (s : sst (D := D)) : sst := SSt (set_k_mem m (ss_k s)) (ss_dev s).

(** What processor [i] has when it comes to [mpenter]. *)
Definition ap_state (w : world) (id : Z) (r : pm D) : apst :=
  let k := ss_k (w_s w) in
  ApSt (KvSt (KState (Cpu id 0 0 None (pm_if r)) (k_mem k) (kmem_lock k) (kmem_use_lock k) (kmem_freelist k))
    (w_kpgdir w) (pm_cr3 r) (w_gdt w) (pm_gdtr r)) (pm_dev r) (0, 0) (w_started w).

(** The state of a processor after INIT and STARTUP for page 7. *)
Definition reset (r : pm D) : Prop := real at_ (pm_dev r) 0x7000 0 r /\ a20 (pm_dev r) = true.

(** A step of a processor. *)
Inductive cpu_step : world -> world -> Prop :=
  | st_turn s kp g st i aps id (b : bool) s' :
      ids !! i = Some id -> start_turn me callers lapic enter pgdir_addr i id s = Done b s' ->
      cpu_step (World s kp g st (BAt i) aps) (World s' kp g st (if b then BWait i else BAt (S i)) aps)
  | st_waited s kp g st i aps : st !! i = Some true ->
      cpu_step (World s kp g st (BWait i) aps) (World s kp g st (BAt (S i)) aps)
  | st_startup s kp g st b aps i id r : aps !! i = Some Halted -> ids !! i = Some id ->
      (id * 16777216, STARTUP + 7) ∈ l_sent (ss_dev s) -> reset r ->
      cpu_step (World s kp g st b aps) (World s kp g st b (<[i := Code 0 r]> aps))
  | st_code s kp g st b aps i n r x r' : aps !! i = Some (Code n r) -> code !! n = Some x ->
      step_at at_ n x (pm_set_mem (phys_mem (k_mem (ss_k s))) r) = Done tt r' ->
      cpu_step (World s kp g st b aps)
        (World (set_wmem (kernel_mem (pm_mem r') (k_mem (ss_k s))) s) kp g st b
          (<[i := if decide (S n = length code) then Entered r' else Code (S n) r']> aps))
  | st_enter s kp g st b aps i id r a : aps !! i = Some (Entered r) -> ids !! i = Some id ->
      mp_setup lapic idt_addr gdt_addr fuel i (ap_state (World s kp g st b aps) id r) = Done tt a ->
      cpu_step (World s kp g st b aps)
        (World (set_wmem (k_mem (kv_k (as_kv a))) s) (kv_kpgdir (as_kv a)) (kv_gdt (as_kv a)) (as_started a) b
          (<[i := Ready (UpRegs (r_esp (pm_regs r)) (kv_cr3 (as_kv a)) (kv_gdtr (as_kv a)) (as_idtr a))]> aps))
  | st_started s kp g st b aps i u : aps !! i = Some (Ready u) ->
      cpu_step (World s kp g st b aps) (World s kp g (<[i := true]> st) b (<[i := Up u]> aps)).

(** The processors that are up write to their stacks and to the memory [own]. *)
Inductive env_step : world -> world -> Prop :=
  | st_env s kp g st b aps m : bytes_ok m ->
      (forall x, m x <> k_mem (ss_k s) x -> own x \/
        exists i u, aps !! i = Some (Up u) /\ u_esp u + 4 - 4096 <= x < u_esp u + 4) ->
      env_step (World s kp g st b aps) (World (set_wmem m s) kp g st b aps).

Definition step (w w' : world) : Prop := cpu_step w w' \/ env_step w w'.

(** ** The invariant *)

Abbreviation pgdir := (V2P pgdir_addr).
(** The page of the code and the one below it, and the page of [entrypgdir]. *)
Definition low (x : Z) : Prop :=
  KERNBASE + 0x6000 <= x < KERNBASE + 0x8000 \/ pgdir_addr <= x < pgdir_addr + 4096.

(** The pages that are free at the start. *)
Variable pool : list Z.
Hypothesis (at_0 : at_ 0%nat = 0x7000) (at_page : forall n, (n <= 27)%nat -> 0x7000 <= at_ n < 0x8000).
Hypothesis (gdt_low : 0x7000 <= gdt) (gdt_high : gdt + 30 <= 0x8000).
Hypothesis (pg_al : pgdir_addr mod 4096 = 0) (pg_low : KERNBASE + 0x8000 <= pgdir_addr) (pg_high : pgdir_addr + 4096 <= KERNBASE + 4194304).
Hypothesis (enter_r : 0 <= enter < 4294967296) (idt_r : 0 <= idt_addr < 4294967296).
Hypothesis (gdt_addr_r : forall i, 0 <= gdt_addr i < 4294967296).
Hypothesis (ids_r : forall i id, ids !! i = Some id -> 0 <= id < 256) (ids_nd : NoDup ids).
Hypothesis (lapic_0 : lapic <> 0) (fuel_ok : (patience < fuel)%nat) (reset_ex : exists r, reset r).
Hypothesis (pool_in : forall p, p ∈ pool -> p mod 4096 = 0 /\ KERNBASE + 0x8000 <= p /\ p + 4096 <= KERNBASE + 4194304 /\
  (p + 4096 <= pgdir_addr \/ pgdir_addr + 4096 <= p)).
Hypothesis (own_low : forall x, own x -> ~ low x) (own_pool : forall x p, own x -> p ∈ pool -> ~ in_page p x).

(** The turn of processor [i] is over, or is the one at hand. *)
Definition past (b : bpc) (i : nat) : Prop := match b with BAt j | BWait j => (i < j)%nat end.
Definition begun (b : bpc) (i : nat) : Prop := i <> me /\ (past b i \/ b = BWait i).
#[local] Instance bpc_eq_dec : EqDecision bpc.
Proof. solve_decision. Defined.
#[local] Instance past_dec b i : Decision (past b i).
Proof. destruct b; unfold past; apply _. Defined.
#[local] Instance begun_dec b i : Decision (begun b i).
Proof. unfold begun. apply _. Defined.
Definition turns_left (b : bpc) : nat := match b with BAt i => length ids - i | BWait i => length ids - S i end.

Definition given_to (stack : Z) (m : mem) : Prop := given gdt (stack + 4096) enter pgdir (phys_mem m).

(** A processor that is set up, on the stack page [p]. *)
Definition up_ok (w : world) (p : Z) (i : nat) (u : upregs) : Prop :=
  u_esp u = p + 4092 /\ u_cr3 u = V2P (w_kpgdir w) /\ u_gdtr u = (47, gdt_addr i) /\ u_idtr u = (2047, idt_addr) /\
  exists g, w_gdt w !! i = Some g /\ flat_gdt g.

(** The processor whose turn is at hand. *)
Definition current_ok (w : world) (p : Z) (i : nat) (a : ap) : Prop :=
  match a with
  | Halted => given_to p (wmem w) /\ exists id, ids !! i = Some id /\ (id * 16777216, STARTUP + 7) ∈ l_sent (ss_dev (w_s w))
  | Code n r => given_to p (wmem w) /\ (n < 27)%nat /\
      robust at_ (given gdt (p + 4096) enter pgdir) (own_word (p + 4096)) n (drop n code) (in_c pgdir enter (p + 4092)) r
  | Entered r => in_c pgdir enter (p + 4092) r
  | Ready u | Up u => up_ok w p i u
  end.

Record inv (w : world) (free : list Z) (stk : nat -> Z) : Prop := Inv {
  v_k : kinv kend (ss_k (w_s w)) free;
  v_if : eflags_if (k_cpu (ss_k (w_s w))) = false;
  v_lock : kmem_use_lock (ss_k (w_s w)) = 0;
  v_gdt : gdt_in gdt (phys_mem (wmem w));
  v_pgdir : pgdir_in pgdir (phys_mem (wmem w));
  v_pool : forall a, a ∈ free -> a ∈ pool;
  v_stk : forall i, begun (w_boot w) i -> stk i ∈ pool /\ (stk i ∉ free);
  v_inj : forall i j, begun (w_boot w) i -> begun (w_boot w) j -> stk i = stk j -> i = j;
  v_aps_len : length (w_aps w) = length ids;
  v_st_len : length (w_started w) = length ids;
  v_gdts : length (w_gdt w) = length ids /\ forall i g, w_gdt w !! i = Some g -> length g = NSEGS;
  v_boot : match w_boot w with BAt i => (i <= length ids)%nat | BWait i => (i < length ids)%nat /\ i <> me end;
  v_left : (turns_left (w_boot w) <= length free)%nat;
  v_sent : forall i id, ids !! i = Some id -> (id * 16777216, STARTUP + 7) ∈ l_sent (ss_dev (w_s w)) -> begun (w_boot w) i;
  v_idle : forall i, (i < length ids)%nat -> ~ begun (w_boot w) i -> w_aps w !! i = Some Halted;
  v_past : forall i a, w_aps w !! i = Some a -> i <> me -> past (w_boot w) i -> exists u, a = Up u /\ up_ok w (stk i) i u;
  v_cur : forall i a, w_boot w = BWait i -> w_aps w !! i = Some a -> current_ok w (stk i) i a;
  v_up : forall i, w_started w !! i = Some true <-> exists u, w_aps w !! i = Some (Up u) }.

(** Memory that matters to the invariant. *)
Definition agree (free : list Z) (m m' : mem) : Prop :=
  forall x, low x \/ (exists a, a ∈ free /\ in_page a x) -> m' x = m x.

Lemma load32_phys m a : load32 (phys_mem m) a = load32 m (KERNBASE + a).
Proof. unfold load32, phys_mem. by rewrite <- !(Z.add_assoc KERNBASE a). Qed.

Lemma pgdir_phys : KERNBASE + pgdir = pgdir_addr.
Proof. unfold V2P. rewrite u32_small; unfold KERNBASE in *; lia. Qed.

Lemma gdt_frame m m' : (forall x, KERNBASE + 0x7000 <= x < KERNBASE + 0x8000 -> m' x = m x) ->
  gdt_in gdt (phys_mem m) -> gdt_in gdt (phys_mem m').
Proof.
  intros Ha Hg i b Hb. rewrite <- (Hg i b Hb). unfold phys_mem. apply Ha.
  apply lookup_lt_Some in Hb. change (length (boot_gdt ++ gdtdesc gdt)) with 30%nat in Hb. lia.
Qed.
Lemma word_frame m m' a : (forall x, KERNBASE + a <= x < KERNBASE + a + 4 -> m' x = m x) ->
  load32 (phys_mem m') a = load32 (phys_mem m) a.
Proof. intros Ha. rewrite !load32_phys. by apply load32_ext. Qed.
Lemma pgdir_frame m m' : (forall x, pgdir_addr <= x < pgdir_addr + 4096 -> m' x = m x) ->
  pgdir_in pgdir (phys_mem m) -> pgdir_in pgdir (phys_mem m').
Proof.
  pose proof pgdir_phys. intros Ha [H1 H2].
  split; [rewrite (word_frame m m') by (intros; apply Ha; lia)|rewrite (word_frame m m') by (intros; apply Ha; lia)]; done.
Qed.
Lemma agree_given free m m' p : agree free m m' -> given_to p m -> given_to p m'.
Proof.
  intros Ha [G1 G2 G3 G4 G5]. split.
  - eapply gdt_frame; [|done]. intros x Hx. apply Ha. left. left. lia.
  - rewrite (word_frame m m'); [done|]. intros x Hx. apply Ha. left. left. lia.
  - rewrite (word_frame m m'); [done|]. intros x Hx. apply Ha. left. left. lia.
  - rewrite (word_frame m m'); [done|]. intros x Hx. apply Ha. left. left. lia.
  - eapply pgdir_frame; [|done]. intros x Hx. apply Ha. left. by right.
Qed.

(** Changes to the rest of the memory keep the invariant. *)
Lemma inv_mem s kp g st b aps free stk m : inv (World s kp g st b aps) free stk -> bytes_ok m -> agree free (k_mem (ss_k s)) m ->
  inv (World (set_wmem m s) kp g st b aps) free stk.
Proof.
  intros [H1 H2 H3 H4 H5 H6 H7 H8 H9 H10 H11 H12 H13 H14 H15 H16 H17 H18] Hb Ha. cbn [w_s w_boot w_aps w_started w_gdt w_kpgdir] in *.
  split; cbn [w_s w_boot w_aps w_started w_gdt w_kpgdir set_wmem ss_k ss_dev k_mem set_k_mem k_cpu kmem_use_lock]; try done.
  - apply kinv_write; [done|done|]. intros a x Hin Hx. apply Ha. right. eauto.
  - eapply gdt_frame; [|done]. intros x Hx. apply Ha. left. left. lia.
  - eapply pgdir_frame; [|done]. intros x Hx. apply Ha. left. by right.
  - intros i a Hi Hl. specialize (H17 i a Hi Hl). destruct a; cbn in *; try done.
    + destruct H17 as [G Hs]. split; [by eapply agree_given|done].
    + destruct H17 as (G & Hn & Hr). split; [by eapply agree_given|done].
Qed.

(** The boot processor's own entry in the table. *)
Lemma start_turn_me id s b s' : eflags_if (k_cpu (ss_k s)) = false ->
  start_turn me callers lapic enter pgdir_addr me id s = Done b s' -> b = false /\ s' = s.
Proof.
  intros Hif. unfold start_turn. erewrite bind_Done.
  2: { apply (zoom_Done ss_cpu_lens). unfold mycpu, readeflags. cbn. rewrite Hif. reflexivity. }
  rewrite decide_True by done. intros [= <- <-]. split; [done|]. destruct s as [[]]. done.
Qed.

Ltac wcbn := cbn [w_s w_boot w_aps w_started w_gdt w_kpgdir] in *.

(** The boot processor's turn is over. *)
Lemma inv_next s kp g st b i aps free stk : inv (World s kp g st b aps) free stk ->
  (forall j, begun (BAt (S i)) j <-> begun b j) -> (S i <= length ids)%nat -> (turns_left (BAt (S i)) <= turns_left b)%nat ->
  (forall j a, aps !! j = Some a -> j <> me -> past (BAt (S i)) j -> exists u, a = Up u /\ up_ok (World s kp g st b aps) (stk j) j u) ->
  inv (World s kp g st (BAt (S i)) aps) free stk.
Proof.
  intros [H1 H2 H3 H4 H5 H6 H7 H8 H9 H10 H11 H12 H13 H14 H15 H16 H17 H18] Hb Hi Ht Hp. wcbn. split; wcbn; try done.
  - intros j Hj. by apply H7, Hb.
  - intros j k Hj Hk. by apply H8; apply Hb.
  - lia.
  - intros j id Hid Hs. apply Hb. by eapply H14.
  - intros j Hj Hn. apply H15; [done|]. by rewrite <- Hb.
Qed.

Lemma begun_me j : begun (BAt (S me)) j <-> begun (BAt me) j.
Proof. unfold begun, past. split; intros [Hj [Hp|Hp]]; try done; (split; [done|left; lia]). Qed.
Lemma begun_wait i j : i <> me -> begun (BAt (S i)) j <-> begun (BWait i) j.
Proof.
  unfold begun, past. intros Hi. split; intros [Hj Hp]; (split; [done|]).
  - destruct Hp as [Hp|Hp]; [|done]. destruct (decide (j = i)) as [->|]; [by right|left; lia].
  - destruct Hp as [Hp|[= ->]]; left; lia.
Qed.
Lemma begun_at i j : begun (BWait i) j -> j <> i -> begun (BAt i) j.
Proof. intros [Hj [Hp|[= ->]]] Hne; [|done]. split; [done|]. by left. Qed.
Lemma begun_at_up i j : begun (BAt i) j -> begun (BWait i) j /\ j <> i.
Proof. intros [Hj [Hp|?]]; [|done]. unfold past in Hp. split; [split; [done|by left]|lia]. Qed.

(** The memory a turn changes lies below the code. *)
Lemma beside_low x : low x -> ~ CODE - 12 <= x < CODE -> beside x.
Proof.
  intros Hl Hc. split; [done|]. change (P2V 0x467) with 2147484775. unfold low, KERNBASE in *. lia.
Qed.

(** The boot processor goes on to processor [i]. *)
Lemma inv_turn_other s kp g st i aps id bb s' p free stk : inv (World s kp g st (BAt i) aps) (p :: free) stk ->
  ids !! i = Some id -> i <> me -> start_turn me callers lapic enter pgdir_addr i id s = Done bb s' ->
  bb = true /\ inv (World s' kp g st (BWait i) aps) free (fun j => if decide (j = i) then p else stk j).
Proof.
  intros [H1 H2 H3 H4 H5 H6 H7 H8 H9 H10 H11 H12 H13 H14 H15 H16 H17 H18] Hid Hne E. wcbn.
  pose proof (lookup_lt_Some _ _ _ Hid) as Hlt. pose proof (H6 p ltac:(rewrite elem_of_cons; by left)) as Hpp.
  destruct (pool_in p Hpp) as (_ & P1 & P2 & P3). assert (HK : KERNBASE = 2147483648) by done. assert (HC : CODE = 2147512320) by done.
  destruct (start_turn_ok me callers kend enter pgdir_addr i id p free s) as (r & s2 & E2 & -> & K & C & U & L4 & L8 & L12 & Hx & Hs); try done.
  { intros a Ha. specialize (pool_in a (H6 a Ha)). lia. }
  { lia. }
  { by eapply ids_r. }
  rewrite E in E2. injection E2 as -> <-. split; [done|].
  assert (Hnd : p ∉ free) by (apply NoDup_cons, (ki_nodup _ _ _ H1)).
  assert (Hg : gdt_in gdt (phys_mem (k_mem (ss_k s')))).
  { eapply gdt_frame; [|done]. intros x Hx'. apply Hx, beside_low; [left; lia|lia]. }
  assert (Hd : pgdir_in pgdir (phys_mem (k_mem (ss_k s')))).
  { eapply pgdir_frame; [|done]. intros x Hx'. apply Hx, beside_low; [by right|lia]. }
  assert (Hsent : (id * 16777216, STARTUP + 7) ∈ l_sent (ss_dev s')) by (rewrite Hs; set_solver).
  split; wcbn; try done.
  - by rewrite C.
  - intros a Ha. apply H6. rewrite elem_of_cons. by right.
  - intros j Hj. destruct (decide (j = i)) as [->|Hji]; [done|]. destruct (H7 j (begun_at i j Hj Hji)) as [S1 S2].
    split; [done|]. intros Hf. apply S2. rewrite elem_of_cons. by right.
  - intros j k Hj Hk. destruct (decide (j = i)) as [->|Hji], (decide (k = i)) as [->|Hki]; try done.
    + intros ->. destruct (H7 k (begun_at i k Hk Hki)) as [_ S2]. destruct S2. rewrite elem_of_cons. by left.
    + intros <-. destruct (H7 j (begun_at i j Hj Hji)) as [_ S2]. destruct S2. rewrite elem_of_cons. by left.
    + intros Hjk. by apply H8; [apply begun_at|apply begun_at|].
  - unfold turns_left in *. cbn [length] in H13. lia.
  - intros j idj Hj. rewrite Hs, elem_of_app. intros [Ho|Hn]; [by eapply begun_at_up, H14|].
    assert (idj = id) as -> by (do 4 (apply elem_of_cons in Hn as [Hn|Hn]; [apply (f_equal fst) in Hn; cbn in Hn; lia|]); by apply elem_of_nil in Hn).
    assert (j = i) as -> by (by eapply NoDup_lookup). split; [done|by right].
  - intros j Hj Hn. apply H15; [done|]. intros Hb. by apply Hn, begun_at_up.
  - intros j a Ha Hj Hp. rewrite decide_False by (unfold past in Hp; lia). by apply H16.
  - intros j a [= <-] Ha. rewrite decide_True by done. rewrite H15 in Ha; [|done|intros Hb; by apply begun_at_up in Hb as [_ Hb]].
    injection Ha as <-. split; [by split|by exists id].
Qed.

(** A processor that is up has its page for a stack. *)
Lemma up_stack s kp g st b aps i u free stk : inv (World s kp g st b aps) free stk -> aps !! i = Some (Up u) ->
  begun b i /\ stk i ∈ pool /\ (stk i ∉ free) /\ up_ok (World s kp g st b aps) (stk i) i u.
Proof.
  intros HI Hu. pose proof (lookup_lt_Some _ _ _ Hu) as Hlt. pose proof (v_aps_len _ _ _ HI) as Hl. wcbn.
  destruct (decide (begun b i)) as [Hb|Hn].
  2: { pose proof (v_idle _ _ _ HI i ltac:(lia) Hn) as Hh. wcbn. rewrite Hu in Hh. done. }
  destruct (v_stk _ _ _ HI i Hb) as [S1 S2]. split; [done|]. split; [done|]. split; [done|]. destruct Hb as [Hne [Hp| ->]].
  - destruct (v_past _ _ _ HI i _ Hu Hne Hp) as (u' & [= <-] & E). done.
  - apply (v_cur _ _ _ HI i _ eq_refl Hu).
Qed.

Lemma inv_turn s kp g st i aps id bb s' free stk : inv (World s kp g st (BAt i) aps) free stk ->
  ids !! i = Some id -> start_turn me callers lapic enter pgdir_addr i id s = Done bb s' ->
  exists free' stk', inv (World s' kp g st (if bb then BWait i else BAt (S i)) aps) free' stk'.
Proof.
  intros HI Hid E. pose proof (lookup_lt_Some _ _ _ Hid) as Hlt. destruct (decide (i = me)) as [->|Hne].
  - destruct (start_turn_me id s bb s' (v_if _ _ _ HI) E) as [-> ->]. exists free, stk.
    eapply inv_next; [done|apply begun_me|lia|unfold turns_left; lia|]. intros j a Ha Hj Hp.
    destruct (v_past _ _ _ HI j a Ha Hj) as (u & Hu); [unfold past in *; wcbn; lia|by exists u].
  - destruct free as [|p free]; [pose proof (v_left _ _ _ HI) as Hl; unfold turns_left in Hl; cbn in Hl; lia|].
    destruct (inv_turn_other _ _ _ _ _ _ _ _ _ _ _ _ HI Hid Hne E) as [-> HI']. eauto.
Qed.

Lemma inv_waited s kp g st i aps free stk : inv (World s kp g st (BWait i) aps) free stk -> st !! i = Some true ->
  inv (World s kp g st (BAt (S i)) aps) free stk.
Proof.
  intros HI Hs. destruct (v_boot _ _ _ HI) as [Hi Hne]. eapply inv_next; [done|by intros; apply begun_wait|lia|done|].
  intros j a Ha Hj Hp. wcbn. destruct (decide (j = i)) as [->|Hji].
  - destruct (proj1 (v_up _ _ _ HI i) Hs) as [u Hu]. wcbn. rewrite Ha in Hu. injection Hu as ->. exists u. split; [done|].
    exact (v_cur _ _ _ HI i _ eq_refl Ha).
  - destruct (v_past _ _ _ HI j a Ha Hj) as (u & Hu); [unfold past in *; wcbn; lia|by exists u].
Qed.

(** The processors that are up leave alone what the invariant is about. *)
Lemma inv_env s kp g st b aps m free stk : inv (World s kp g st b aps) free stk -> bytes_ok m ->
  (forall x, m x <> k_mem (ss_k s) x -> own x \/ exists i u, aps !! i = Some (Up u) /\ u_esp u + 4 - 4096 <= x < u_esp u + 4) ->
  inv (World (set_wmem m s) kp g st b aps) free stk.
Proof.
  intros HI Hb Hm. apply inv_mem; [done|done|]. intros x Hx. destruct (decide (m x = k_mem (ss_k s) x)) as [|Hne]; [done|exfalso].
  destruct (Hm x Hne) as [Ho|(i & u & Hu & Hr)].
  - destruct Hx as [Hx|(a & Ha & Hx)]; [by apply (own_low x)|]. apply (own_pool x a); [done| |done]. by apply (v_pool _ _ _ HI).
  - destruct (up_stack _ _ _ _ _ _ _ _ _ _ HI Hu) as (_ & Hp & Hf & He & _). rewrite He in Hr.
    destruct (pool_in _ Hp) as (P0 & P1 & P2 & P3). destruct Hx as [[Hx|Hx]|(a & Ha & Hx)]; [lia|lia|].
    destruct (pool_in a (v_pool _ _ _ HI a Ha)) as (A0 & _). unfold in_page, PGSIZE in Hx. destruct Hf. by replace (stk i) with a by zlia.
Qed.

(** Only the processor at hand is in between. *)
Definition moving (a : ap) : Prop := match a with Halted | Up _ => False | _ => True end.
Lemma moving_current s kp g st b aps i a free stk : inv (World s kp g st b aps) free stk -> aps !! i = Some a -> moving a ->
  b = BWait i /\ begun b i.
Proof.
  intros HI Ha Hm. pose proof (v_aps_len _ _ _ HI) as Hl. wcbn. pose proof (lookup_lt_Some _ _ _ Ha) as Hlt.
  destruct (decide (begun b i)) as [Hb|Hn].
  2: { pose proof (v_idle _ _ _ HI i ltac:(lia) Hn) as Hh. wcbn. rewrite Ha in Hh. by simplify_eq. }
  split; [|done]. destruct Hb as [Hne [Hp|Hp]]; [|done].
  destruct (v_past _ _ _ HI i a Ha Hne Hp) as (u & -> & _). done.
Qed.

Lemma up_ok_ext s kp g st b aps s' st' b' aps' p i u :
  up_ok (World s kp g st b aps) p i u -> up_ok (World s' kp g st' b' aps') p i u.
Proof. done. Qed.

(** The processor at hand moves on, in [aps], without coming up. *)
Lemma inv_move s kp g st i aps a a' free stk : inv (World s kp g st (BWait i) aps) free stk -> aps !! i = Some a ->
  (forall u, a <> Up u) -> (forall u, a' <> Up u) -> current_ok (World s kp g st (BWait i) aps) (stk i) i a' ->
  inv (World s kp g st (BWait i) (<[i := a']> aps)) free stk.
Proof.
  intros [H1 H2 H3 H4 H5 H6 H7 H8 H9 H10 H11 H12 H13 H14 H15 H16 H17 H18] Ha Hu Hu' Hc. wcbn.
  assert (Hlt : (i < length aps)%nat) by (by eapply lookup_lt_Some). split; wcbn; try done.
  - by rewrite length_insert.
  - intros j Hj Hn. destruct (decide (j = i)) as [->|Hji]; [destruct Hn; split; [apply H12|by right]|].
    rewrite list_lookup_insert_ne by done. by apply H15.
  - intros j x Hx Hj Hp. rewrite list_lookup_insert_ne in Hx by (unfold past in Hp; lia). by apply H16.
  - intros j x [= <-] Hx. rewrite list_lookup_insert_eq in Hx by done. by injection Hx as <-.
  - intros j. rewrite H18. destruct (decide (j = i)) as [->|Hji]; [|by rewrite list_lookup_insert_ne].
    rewrite list_lookup_insert_eq by done. split; intros [u Hx]; [rewrite Ha in Hx; injection Hx as Hx; by destruct (Hu u)|injection Hx as Hx; by destruct (Hu' u)].
Qed.

Lemma inv_startup s kp g st b aps i id r free stk : inv (World s kp g st b aps) free stk -> aps !! i = Some Halted ->
  ids !! i = Some id -> (id * 16777216, STARTUP + 7) ∈ l_sent (ss_dev s) -> reset r ->
  inv (World s kp g st b (<[i := Code 0 r]> aps)) free stk.
Proof.
  intros HI Ha Hid Hs [Hr Ha20]. destruct (v_sent _ _ _ HI i id Hid Hs) as [Hne [Hp|Hb]].
  { destruct (v_past _ _ _ HI i _ Ha Hne Hp) as (u & Hu & _). done. }
  wcbn. subst b. destruct (v_cur _ _ _ HI i Halted eq_refl Ha) as [Hg _].
  destruct (v_stk _ _ _ HI i) as [Hp _]; [split; [done|by right]|].
  destruct (pool_in _ Hp) as (P0 & P1 & P2 & _). assert (HK : KERNBASE = 2147483648) by done.
  eapply inv_move; [done|done|done|done|]. split; [done|]. split; [lia|]. rewrite drop_0.
  replace (stk i + 4092) with (stk i + 4096 - 4) by lia.
  eapply robust_mono; [apply (entryother_robust at_ gdt (stk i + 4096) enter pgdir r); try done; [|apply u32_range|lia|zlia]|by intros s' []].
  pose proof pgdir_phys. zlia.
Qed.


(** What a step of the processor at hand does to the memory. *)
Lemma own_word_agree p free m p' : p ∈ pool -> p ∉ free -> (forall a, a ∈ free -> a ∈ pool) -> bytes_ok m ->
  own_word (p + 4096) (phys_mem m) p' -> bytes_ok (kernel_mem p' m) /\ agree free m (kernel_mem p' m).
Proof.
  intros Hp Hn Hf Hb [O1 O2]. assert (HK : KERNBASE = 2147483648) by done.
  assert (Hx : forall x, ~ p + 4092 <= x < p + 4096 -> kernel_mem p' m x = m x).
  { intros x Hx. unfold kernel_mem. destruct (Z.leb_spec KERNBASE x); [|done]. rewrite O2 by lia. unfold phys_mem. f_equal. lia. }
  destruct (pool_in p Hp) as (P0 & P1 & P2 & P3). split.
  - intros x. unfold kernel_mem. destruct (KERNBASE <=? x); [|apply Hb]. apply O1. intros y. apply Hb.
  - intros x [[Hl|Hl]|(a & Ha & Hax)]; [apply Hx; lia|apply Hx; lia|]. apply Hx. intros Hc.
    destruct (pool_in a (Hf a Ha)) as (A0 & _). unfold in_page, PGSIZE in Hax. destruct Hn. by replace p with a by zlia.
Qed.

Lemma inv_code s kp g st b aps i n r x r' free stk : inv (World s kp g st b aps) free stk -> aps !! i = Some (Code n r) ->
  code !! n = Some x -> step_at at_ n x (pm_set_mem (phys_mem (k_mem (ss_k s))) r) = Done tt r' ->
  inv (World (set_wmem (kernel_mem (pm_mem r') (k_mem (ss_k s))) s) kp g st b
    (<[i := if decide (S n = length code) then Entered r' else Code (S n) r']> aps)) free stk.
Proof.
  intros HI Ha Hx E. destruct (moving_current _ _ _ _ _ _ _ _ _ _ HI Ha) as [-> Hb]; [done|].
  destruct (v_cur _ _ _ HI i _ eq_refl Ha) as (Hg & Hn & Hr). destruct (v_stk _ _ _ HI i Hb) as [Hp Hf]. wcbn.
  rewrite (drop_S _ _ _ Hx) in Hr. destruct (Hr _ Hg) as (r2 & E2 & HG & Hr2). rewrite E in E2. injection E2 as <-.
  destruct (own_word_agree (stk i) free (k_mem (ss_k s)) (pm_mem r')) as [B A]; [done|done|apply HI|apply HI|done|].
  eapply inv_move; [by eapply inv_mem|done|done|by destruct (decide _)|].
  assert (El : length code = 27%nat) by done. destruct (decide (S n = length code)) as [Hl|Hl].
  - rewrite Hl, drop_all in Hr2. exact Hr2.
  - split; [by eapply agree_given|]. split; [lia|done].
Qed.

(** [seginit] changes the table of one processor. *)
Lemma inv_gdt s kp g st i aps r g' free stk : inv (World s kp g st (BWait i) aps) free stk -> aps !! i = Some (Entered r) ->
  length g' = NSEGS -> inv (World s kp (<[i := g']> g) st (BWait i) aps) free stk.
Proof.
  intros [H1 H2 H3 H4 H5 H6 H7 H8 H9 H10 [H11 H11'] H12 H13 H14 H15 H16 H17 H18] Ha Hg'. wcbn. split; wcbn; try done.
  - split; [by rewrite length_insert|]. intros j gj. destruct (decide (j = i)) as [->|Hji].
    + rewrite list_lookup_insert_eq by (rewrite H11; apply H12). by intros [= <-].
    + rewrite list_lookup_insert_ne by done. apply H11'.
  - intros j a Hj Hne Hp. destruct (H16 j a Hj Hne Hp) as (u & -> & U1 & U2 & U3 & U4 & gj & G1 & G2). exists u. split; [done|].
    do 4 (split; [done|]). exists gj. wcbn. rewrite list_lookup_insert_ne by (unfold past in Hp; lia). done.
  - intros j a [= <-] Hj. rewrite Ha in Hj. injection Hj as <-. exact (H17 i _ eq_refl Ha).
Qed.

Lemma inv_enter s kp g st b aps i id r a free stk : inv (World s kp g st b aps) free stk -> aps !! i = Some (Entered r) ->
  ids !! i = Some id -> mp_setup lapic idt_addr gdt_addr fuel i (ap_state (World s kp g st b aps) id r) = Done tt a ->
  inv (World (set_wmem (k_mem (kv_k (as_kv a))) s) (kv_kpgdir (as_kv a)) (kv_gdt (as_kv a)) (as_started a) b
    (<[i := Ready (UpRegs (r_esp (pm_regs r)) (kv_cr3 (as_kv a)) (kv_gdtr (as_kv a)) (as_idtr a))]> aps)) free stk.
Proof.
  intros HI Ha Hid E. destruct (moving_current _ _ _ _ _ _ _ _ _ _ HI Ha) as [-> Hb]; [done|].
  pose proof (v_cur _ _ _ HI i _ eq_refl Ha) as Hc. cbn in Hc. destruct (v_gdts _ _ _ HI) as [Hl Hg]. wcbn.
  destruct (lookup_lt_is_Some_2 g i) as [gi Hgi]; [rewrite Hl; by eapply lookup_lt_Some|].
  destruct (mp_setup_ok idt_addr gdt_addr fuel i gi (ap_state (World s kp g st (BWait i) aps) id r)) as (u & a2 & E2 & g' & A1 & A2 & A3 & A4 & A5 & A6 & A7 & A8 & _);
    try done; [by eapply Hg|by apply (ic_if _ _ _ _ Hc)|].
  rewrite E in E2. injection E2 as _ <-. rewrite A1, A2, A3, A4, A5, A6, A8. cbn [ap_state as_kv kv_k kv_kpgdir kv_gdt as_started k_mem w_s w_kpgdir w_gdt w_started] in *.
  assert (Es : set_wmem (k_mem (ss_k s)) s = s) by (by destruct s as [[]]). rewrite Es.
  eapply inv_move; [eapply inv_gdt; [done|done|apply A7]|done|done|done|].
  split; [apply (ic_esp _ _ _ _ Hc)|]. do 3 (split; [done|]). exists g'. split; [|done].
  apply list_lookup_insert_eq. by eapply lookup_lt_Some.
Qed.

Lemma inv_started s kp g st b aps i u free stk : inv (World s kp g st b aps) free stk -> aps !! i = Some (Ready u) ->
  inv (World s kp g (<[i := true]> st) b (<[i := Up u]> aps)) free stk.
Proof.
  intros HI Ha. destruct (moving_current _ _ _ _ _ _ _ _ _ _ HI Ha) as [-> Hb]; [done|].
  pose proof (v_cur _ _ _ HI i _ eq_refl Ha) as Hc. cbn in Hc.
  destruct HI as [H1 H2 H3 H4 H5 H6 H7 H8 H9 H10 H11 H12 H13 H14 H15 H16 H17 H18]. wcbn.
  assert (Hlt : (i < length aps)%nat) by (by eapply lookup_lt_Some). split; wcbn; try done.
  - by rewrite length_insert.
  - by rewrite length_insert.
  - intros j Hj Hn. destruct (decide (j = i)) as [->|Hji]; [done|]. rewrite list_lookup_insert_ne by done. by apply H15.
  - intros j x Hx Hj Hp. rewrite list_lookup_insert_ne in Hx by (unfold past in Hp; lia). by apply H16.
  - intros j x [= <-] Hx. rewrite list_lookup_insert_eq in Hx by done. by injection Hx as <-.
  - intros j. destruct (decide (j = i)) as [->|Hji]; [|rewrite !list_lookup_insert_ne by done; apply H18].
    rewrite !list_lookup_insert_eq by lia. split; [by exists u|done].
Qed.

(** ** Every step keeps the invariant *)

Lemma starting_step w w' free stk : inv w free stk -> step w w' -> exists free' stk', inv w' free' stk'.
Proof.
  intros HI Hs. revert HI. destruct Hs as [[]|[]]; intros HI.
  - by eapply inv_turn.
  - exists free, stk. by eapply inv_waited.
  - exists free, stk. by eapply inv_startup.
  - exists free, stk. by eapply inv_code.
  - exists free, stk. by eapply inv_enter.
  - exists free, stk. by eapply inv_started.
  - exists free, stk. by eapply inv_env.
Qed.

(** ** Progress *)

Definition boot_left (b : bpc) : nat := match b with BAt i => 2 * (length ids - i) | BWait i => 2 * (length ids - i) - 1 end.
Definition ap_left (a : ap) : nat :=
  match a with Halted => 31 | Code n _ => 30 - n | Entered _ => 2 | Ready _ => 1 | Up _ => 0 end.
Fixpoint aps_left (l : list ap) : nat := match l with [] => 0 | a :: l => ap_left a + aps_left l end.
(** The steps there are still to come. *)
Definition steps_left (w : world) : nat := boot_left (w_boot w) + aps_left (w_aps w).

Lemma aps_left_insert l i a a' : l !! i = Some a -> (ap_left a' < ap_left a)%nat -> (aps_left (<[i := a']> l) < aps_left l)%nat.
Proof.
  revert i. induction l as [|b l IH]; intros [|i] Hi Hl; try done; simpl in Hi |- *; [injection Hi as ->; lia|].
  specialize (IH i Hi Hl). lia.
Qed.

Lemma step_decreases w w' free stk : inv w free stk -> cpu_step w w' -> (steps_left w' < steps_left w)%nat.
Proof.
  intros HI Hs. revert HI. destruct Hs; intros HI; unfold steps_left; wcbn.
  - pose proof (lookup_lt_Some _ _ _ H). destruct b; cbn [boot_left]; lia.
  - destruct (v_boot _ _ _ HI) as [Hi _]. cbn [boot_left]. lia.
  - pose proof (aps_left_insert aps i _ (Code 0 r) H ltac:(cbn; lia)). lia.
  - assert (Hn : (n < 27)%nat) by (apply lookup_lt_Some in H0; exact H0).
    pose proof (aps_left_insert aps i _ (if decide (S n = length code) then Entered r' else Code (S n) r') H). 
    destruct (decide (S n = length code)); cbn [ap_left] in *; lia.
  - pose proof (aps_left_insert aps i _ (Ready (UpRegs (r_esp (pm_regs r)) (kv_cr3 (as_kv a)) (kv_gdtr (as_kv a)) (as_idtr a))) H ltac:(cbn; lia)). lia.
  - pose proof (aps_left_insert aps i _ (Up u) H ltac:(cbn; lia)). lia.
Qed.

Lemma turn_returns s kp g st i aps id free stk : inv (World s kp g st (BAt i) aps) free stk -> ids !! i = Some id ->
  exists bb s', start_turn me callers lapic enter pgdir_addr i id s = Done bb s'.
Proof.
  intros HI Hid. pose proof (lookup_lt_Some _ _ _ Hid) as Hlt. pose proof (v_if _ _ _ HI) as Hif. wcbn.
  destruct (decide (i = me)) as [->|Hne].
  - eexists _, _. unfold start_turn. erewrite bind_Done.
    2: { apply (zoom_Done ss_cpu_lens). unfold mycpu, readeflags. cbn. rewrite Hif. reflexivity. }
    rewrite decide_True by done. reflexivity.
  - destruct free as [|p free]; [pose proof (v_left _ _ _ HI) as Hl; unfold turns_left in Hl; cbn in Hl; lia|].
    pose proof (v_pool _ _ _ HI) as Hpo. assert (HK : KERNBASE = 2147483648) by done. assert (HC : CODE = 2147512320) by done.
    destruct (pool_in p (Hpo p ltac:(rewrite elem_of_cons; by left))) as (_ & P1 & P2 & _).
    destruct (start_turn_ok me callers kend enter pgdir_addr i id p free s) as (r & s2 & E & _); try done.
    + apply HI.
    + apply HI.
    + intros a Ha. specialize (pool_in a (Hpo a Ha)). lia.
    + lia.
    + by eapply ids_r.
    + eauto.
Qed.

Lemma can_step w free stk : inv w free stk -> w_boot w <> BAt (length ids) -> exists w', cpu_step w w'.
Proof.
  intros HI Hb. destruct w as [s kp g st b aps]. wcbn. destruct b as [i|i].
  - pose proof (v_boot _ _ _ HI) as Hi. wcbn. assert (Hlt : (i < length ids)%nat) by (destruct (decide (i = length ids)) as [->|]; [done|lia]).
    destruct (lookup_lt_is_Some_2 ids i Hlt) as [id Hid].
    assert (exists bb s', start_turn me callers lapic enter pgdir_addr i id s = Done bb s') as (bb & s' & E).
    { by eapply turn_returns. }
    eexists. by eapply st_turn.
  - destruct (v_boot _ _ _ HI) as [Hi Hne]. pose proof (v_aps_len _ _ _ HI) as Hl. wcbn.
    destruct (lookup_lt_is_Some_2 aps i ltac:(lia)) as [a Ha]. destruct (lookup_lt_is_Some_2 ids i Hi) as [id Hid].
    pose proof (v_cur _ _ _ HI i a eq_refl Ha) as Hc. destruct a as [|n r|r|u|u]; cbn [current_ok] in Hc; wcbn.
    + destruct Hc as (_ & id' & Hid' & Hs). destruct reset_ex as [r Hr]. eexists. by eapply st_startup.
    + destruct Hc as (Hg & Hn & Hr). assert (El : length code = 27%nat) by done.
      destruct (lookup_lt_is_Some_2 code n ltac:(lia)) as [x Hx]. rewrite (drop_S _ _ _ Hx) in Hr.
      destruct (Hr _ Hg) as (r' & E & _). eexists. by eapply st_code.
    + destruct (v_gdts _ _ _ HI) as [Hgl Hg]. wcbn. destruct (lookup_lt_is_Some_2 g i ltac:(lia)) as [gi Hgi].
      destruct (mp_setup_ok idt_addr gdt_addr fuel i gi (ap_state (World s kp g st (BWait i) aps) id r)) as ([] & a2 & E & _);
        try done; [by eapply Hg|by apply (ic_if _ _ _ _ Hc)|]. eexists. by eapply st_enter.
    + eexists. by eapply st_started.
    + eexists. apply st_waited. apply (v_up _ _ _ HI i). by exists u.
Qed.

(** Before its loop: nobody is started, and there is a page for everyone. *)
Record initial (w : world) : Prop := Initial {
  in_k : kinv kend (ss_k (w_s w)) pool;
  in_if : eflags_if (k_cpu (ss_k (w_s w))) = false;
  in_lock : kmem_use_lock (ss_k (w_s w)) = 0;
  in_gdt : gdt_in gdt (phys_mem (wmem w));
  in_pgdir : pgdir_in pgdir (phys_mem (wmem w));
  in_boot : w_boot w = BAt 0;
  in_aps : w_aps w = replicate (length ids) Halted;
  in_started : w_started w = replicate (length ids) false;
  in_gdts : length (w_gdt w) = length ids /\ forall i g, w_gdt w !! i = Some g -> length g = NSEGS;
  in_sent : forall to, (to, STARTUP + 7) ∉ l_sent (ss_dev (w_s w));
  in_enough : (length ids <= length pool)%nat }.

Lemma starting_initial w : initial w -> inv w pool (fun _ => 0).
Proof.
  intros [I1 I2 I3 I4 I5 I6 I7 I8 I9 I10 I11]. assert (Hn : forall i, ~ begun (BAt 0) i) by (intros i [_ [Hp|Hp]]; [unfold past in Hp; lia|done]).
  split; rewrite ?I6, ?I7, ?I8; try done.
  - intros i Hi. by destruct (Hn i).
  - intros i j Hi. by destruct (Hn i).
  - by rewrite length_replicate.
  - by rewrite length_replicate.
  - lia.
  - unfold turns_left. lia.
  - intros i id _ Hs. by destruct (I10 (id * 16777216)).
  - intros i Hi _. by apply lookup_replicate_2.
  - intros i a _ _ Hp. unfold past in Hp. lia.
  - intros i. split; [intros H|intros [u H]]; by apply lookup_replicate in H as [? _].
Qed.

Lemma starting_reachable w w' : initial w -> rtc step w w' -> exists free stk, inv w' free stk.
Proof.
  intros Hi Hr. assert (exists free stk, inv w free stk) as Hw by (exists pool, (fun _ => 0); by apply starting_initial).
  revert Hw. clear Hi. induction Hr as [w|w w1 w2 Hs _ IH]; intros (free & stk & HI); [eauto|]. apply IH. by eapply starting_step.
Qed.

(** C24. [startothers], interleaved with the processors it starts and whatever those that are up
    do to their stacks and to the kernel's other memory: every processor that comes up has the
    kernel's page table, its own descriptor table and the interrupt table loaded, and a page of
    the allocator for a stack that no other has; when the loop is over every processor
    is up and has said so; before that some processor can always go on, so no instruction of
    entryother.S faults and nobody waits in vain; and every step brings the end nearer. *)
Theorem startothers_safe w w' : initial w -> rtc step w w' ->
  (forall i u, w_aps w' !! i = Some (Up u) -> exists p, p ∈ pool /\ up_ok w' p i u) /\
  (forall i j u v, w_aps w' !! i = Some (Up u) -> w_aps w' !! j = Some (Up v) -> u_esp u = u_esp v -> i = j) /\
  (w_boot w' = BAt (length ids) -> forall i, (i < length ids)%nat -> i <> me ->
    w_started w' !! i = Some true /\ exists u, w_aps w' !! i = Some (Up u)) /\
  (w_boot w' <> BAt (length ids) -> exists w2, cpu_step w' w2) /\
  (forall w2, cpu_step w' w2 -> (steps_left w2 < steps_left w')%nat).
Proof.
  intros Hi Hr. destruct (starting_reachable w w' Hi Hr) as (free & stk & HI). clear Hi Hr. destruct w' as [s kp g st b aps]. wcbn.
  split; [|split; [|split; [|split]]].
  - intros i u Hu. destruct (up_stack _ _ _ _ _ _ _ _ _ _ HI Hu) as (_ & Hp & _ & Hk). eauto.
  - intros i j u v Hu Hv He. destruct (up_stack _ _ _ _ _ _ _ _ _ _ HI Hu) as (Bi & _ & _ & Ei & _).
    destruct (up_stack _ _ _ _ _ _ _ _ _ _ HI Hv) as (Bj & _ & _ & Ej & _). apply (v_inj _ _ _ HI); [done|done|lia].
  - intros -> i Hi Hne. pose proof (v_aps_len _ _ _ HI) as Hl. wcbn. destruct (lookup_lt_is_Some_2 aps i ltac:(lia)) as [a Ha].
    destruct (v_past _ _ _ HI i a Ha Hne Hi) as (u & -> & _). split; [|by exists u]. apply (v_up _ _ _ HI i). by exists u.
  - intros Hb. by apply (can_step _ free stk).
  - intros w2. by eapply step_decreases.
Qed.
End World.

(** ** An example: two processors *)

(** A local APIC that delivers at once. *)
Definition sdev : Type := (Z -> Z) * list (Z * Z).
Definition LAPIC : Z := 0xfee00000.
#[local] Instance sdev_ports : Ports sdev :=
  {| inb _ d := (0, d); outb _ _ d := d; insl _ _ d := ([], d); outsl _ _ d := d |}.
#[local] Instance sdev_gate : Gate20 sdev := fun _ => true.
#[local] Instance sdev_mmio : Mmio sdev := {|
  reg_read a d := (0, d);
  reg_write a v d :=
    let i := (a - LAPIC) / 4 in
    if i =? ICRLO then (d.1, d.2 ++ [(d.1 ICRHI, v)])
    else if (i =? EOI) || (i =? ESR) then d
    else (fun j => if j =? i then v else d.1 j, d.2) |}.

Lemma lapic_index i : (LAPIC + 4 * i - LAPIC) / 4 = i.
Proof. zlia. Qed.

#[local] Instance sdev_lapic : LocalApic sdev LAPIC 0.
Proof.
  refine {| l_reg d := d.1; l_sent d := d.2; l_busy d := 0%nat |}; intros; cbn; try rewrite lapic_index; try done.
  - assert ((i =? ICRLO) = false /\ (i =? EOI) || (i =? ESR) = false) as [-> ->].
    { unfold HOLDING in H. repeat (apply elem_of_cons in H as [->|H]; [done|]). by apply elem_of_nil in H. }
    done.
  - by destruct H as [->| ->].
Defined.

(** The table of the code in the kernel's memory, the directory and two free pages. *)
Definition s_at (n : nat) : Z := 0x7000 + 3 * Z.of_nat n.
Definition s_gdt : Z := 0x7100.
Definition s_image : list Z := boot_gdt ++ gdtdesc s_gdt.
Definition s_pgdir : Z := 0x80109000.
Definition s_mem : mem :=
  store32 (store32 (store32 (fun x => if KERNBASE + s_gdt <=? x then default 0 (s_image !! Z.to_nat (x - (KERNBASE + s_gdt))) else 0)
    s_pgdir 131) (s_pgdir + 4 * 512) 131) 0x80200000 0x80201000.
Definition s_pool : list Z := [0x80200000; 0x80201000].
Definition s_k : kstate := KState (Cpu 0 0 0 None false) s_mem (Spinlock 0 "kmem" None []) 0 0x80200000.
Definition s_dev : sdev := (fun _ => 0, []).
Definition s_world : world (D := sdev) :=
  World (SSt s_k s_dev) 0x803ff000 (replicate 2 (replicate NSEGS (Segdesc 0 0 0 0 0 0 0 0 0 0 0 0 0)))
    [false; false] (BAt 0) [Halted; Halted].
Definition s_own (x : Z) : Prop := 0x80110000 <= x < 0x80120000.

Lemma s_bytes : bytes_ok s_mem.
Proof.
  do 3 apply bytes_ok_store32. intros x. destruct (KERNBASE + s_gdt <=? x); [|lia].
  assert (H : Forall (fun b => 0 <= b < 256) s_image) by (repeat constructor; by vm_compute).
  destruct (s_image !! _) as [b|] eqn:E; [|cbn; lia]. exact (proj1 (Forall_lookup _ _) H _ _ E).
Qed.
Lemma s_kinv : kinv 0x80100000 s_k s_pool.
Proof.
  split; [by split|apply s_bytes| |].
  - assert (L1 : load32 s_mem 0x80200000 = 0x80201000) by (by vm_compute). assert (L2 : load32 s_mem 0x80201000 = 0) by (by vm_compute).
    cbn [s_pool flist s_k kmem_freelist k_mem]. rewrite L1, L2. unfold page_ok, PGSIZE, KERNBASE, PHYSTOP. lia.
  - unfold s_pool. repeat constructor; set_solver.
Qed.
Lemma s_gdt_in : gdt_in s_gdt (phys_mem s_mem).
Proof.
  intros i b Hb. pose proof (lookup_lt_Some _ _ _ Hb) as Hi. change (length _) with 30%nat in Hi.
  do 30 (destruct i as [|i]; [injection Hb as <-; by vm_compute|]). lia.
Qed.
Lemma s_initial : initial 0x80100000 [0; 1] s_pgdir s_gdt s_pool s_world.
Proof.
  split; cbn [s_world w_s ss_k ss_dev w_boot w_aps w_started w_gdt]; try done.
  - apply s_kinv.
  - apply s_gdt_in.
  - split; [done|]. intros i g Hg. by apply lookup_replicate in Hg as [-> _].
  - intros to H. by apply elem_of_nil in H.
Qed.

(** A processor after INIT and STARTUP. *)
Definition s_reset : pm sdev :=
  Pm (Regs 0 0 0 0 0 0 0 0) (Segs 0 0x700 0 0 0 0) (Segs 0 0x7000 0 0 0 0) (Segs 0xffff 0xffff 0xffff 0xffff 0xffff 0xffff)
    0x60000010 0 0 (0, 0) false false 0 (fun _ => 0) s_dev.

Lemma startothers_safe_witness :
  exists w2, cpu_step (gate := sdev_gate) 0 [] [0; 1] 0x80103000 s_pgdir 0x80112000 (fun c => 0x80112770 + 0x90 * Z.of_nat (c `mod` 8)) 1
    s_at s_gdt s_world w2.
Proof.
  eapply (startothers_safe (la := sdev_lapic) 0 [] 0x80100000 [0; 1] 0x80103000 s_pgdir 0x80112000
    (fun c => 0x80112770 + 0x90 * Z.of_nat (c `mod` 8)) 1 s_at s_gdt s_own s_pool) with (w := s_world) (w' := s_world).
  - done.
  - intros n Hn. unfold s_at. lia.
  - done.
  - done.
  - done.
  - done.
  - done.
  - done.
  - done.
  - intros i. pose proof (Nat.mod_upper_bound i 8 ltac:(lia)). lia.
  - intros [|[|i]] id H; cbn in H; simplify_eq; lia.
  - repeat constructor; set_solver.
  - done.
  - lia.
  - exists s_reset. split; [|done]. by split.
  - intros p Hp. unfold s_pool, s_pgdir, KERNBASE in *. repeat (apply elem_of_cons in Hp as [->|Hp]; [repeat split; (done || lia)|]).
    by apply elem_of_nil in Hp.
  - unfold s_own, low, s_pgdir, KERNBASE. lia.
  - intros x p Hx Hp. unfold s_own, s_pool, in_page in *. repeat (apply elem_of_cons in Hp as [->|Hp]; [lia|]). by apply elem_of_nil in Hp.
  - apply s_initial.
  - apply rtc_refl.
  - done.
Defined.
