(* ===== verification/UProg.v ===== *)
(** * User programs as trees of system calls

    A program is the tree of the calls it makes, branching on their answers; it ends by
    returning, by [exit], or it is cut off when the fuel of a loop is used up. [run] is such
    a program on a kernel, which is a parameter. *)

From stdpp Require Import base tactics numbers list strings.
From Stdlib Require Import ZArith Lia.
From S2P Require Import Prelude Layout Ulib Printf Fs Sh.

(** The calls of user.h with their answers. [SRead] answers its result and the bytes it put
    into the buffer, [SFstat] and [SWaitx] their result and what they stored. *)
Inductive sys : Type -> Type :=
  | SRead (fd n : Z) : sys (Z * list Z)
  | SWrite (fd : Z) (l : list Z) : sys Z
  | SOpen (path : list Z) (mode : Z) : sys Z
  | SClose (fd : Z) : sys Z
  | SFstat (fd : Z) : sys (Z * stat)
  | SMknod (path : list Z) (major minor : Z) : sys Z
  | SMkdir (path : list Z) : sys Z
  | SUnlink (path : list Z) : sys Z
  | SLink (old new : list Z) : sys Z
  | SDup (fd : Z) : sys Z
  | SFork : sys Z
  | SExec (path : list Z) (argv : list (list Z)) : sys Z
  | SWait : sys Z
  | SWaitx : sys (Z * Z * Z)
  | SKill (pid : Z) : sys Z
  | SSleep (n : Z) : sys Z
  | SChpr (priority : Z) : sys Z.

Inductive uprog (A : Type) : Type :=
  | URet (a : A)
  | UExit
  | UMore
  | UCall (X : Type) (c : sys X) (k : X -> uprog A).
Arguments URet {A} a.
Arguments UExit {A}.
Arguments UMore {A}.
Arguments UCall {A X} c k.

Fixpoint u_bind {A B} (p : uprog A) (f : A -> uprog B) : uprog B :=
  match p with
  | URet a => f a
  | UExit => UExit
  | UMore => UMore
  | UCall c k => UCall c (fun x => u_bind (k x) f)
  end.
Definition call {X} (c : sys X) : uprog X := UCall c URet.

Declare Scope uprog_scope.
Delimit Scope uprog_scope with uprog.
Notation "'do!' x := p 'in' q" := (u_bind p (fun x => q)) (at level 10, x name, p at level 100, q at level 200) : uprog_scope.
Notation "p ;; q" := (u_bind p (fun _ => q)) (at level 100, q at level 200, right associativity) : uprog_scope.
#[global] Open Scope uprog_scope.

Definition u_when (b : bool) (p : uprog unit) : uprog unit := if b then p else URet tt.

(** [for(i = 1; i < argc; i++)] over the arguments. *)
Fixpoint u_for {A} (l : list A) (body : A -> uprog unit) : uprog unit :=
  match l with
  | [] => URet tt
  | x :: l => body x ;; u_for l body
  end.

(** The arguments of [printf] that the programs use; [putc] writes byte by byte. *)
Inductive piece_of := Txt (s : string) | Str (s : list Z) | Num (n : Z).
Definition piece_bytes (p : piece_of) : list Z :=
  match p with Txt s => codes s | Str s => s | Num n => printint n 10 true end.
Definition NEWLINE : piece_of := Str [10].
Definition u_printf (fd : Z) (ps : list piece_of) : uprog unit :=
  u_for (ps ≫= piece_bytes) (fun c => call (SWrite fd [c]) ;; URet tt).

(** ** Running on a kernel *)

Class Kernel (W : Type) := k_do : forall X, sys X -> W -> X * W.

Inductive result (A : Type) := RRet (a : A) | RExit | RMore.
Arguments RRet {A} a.
Arguments RExit {A}.
Arguments RMore {A}.

Fixpoint run {W A} {k : Kernel W} (p : uprog A) (w : W) : result A * W :=
  match p with
  | URet a => (RRet a, w)
  | UExit => (RExit, w)
  | UMore => (RMore, w)
  | UCall c f => let '(x, w) := k_do _ c w in run (f x) w
  end.

Lemma run_bind {W A B} {k : Kernel W} (p : uprog A) (f : A -> uprog B) w :
  run (u_bind p f) w = match run p w with
                       | (RRet a, w) => run (f a) w
                       | (RExit, w) => (RExit, w)
                       | (RMore, w) => (RMore, w)
                       end.
Proof.
  revert w. induction p as [a| | |X c g IH]; intros w; try done. simpl. destruct (k_do _ c w) as [x w']. apply IH.
Qed.
