(* ===== verification/Utils.v ===== *)
(** * The small user programs

    cat.c, echo.c, grep.c (its [main] and reads), init.c, kill.c, ln.c, ls.c, mkdir.c, nice.c,
    rm.c, wc.c, zombie.c, and [stat] of ulib.c. [argv] is the list of the arguments; the loops
    that a program leaves only when a call fails or a file ends take fuel. *)

From stdpp Require Import base tactics numbers list strings.
From Stdlib Require Import ZArith Lia.
From S2P Require Import Prelude Layout Ulib Printf Grep Fs Sh UProg.

(** ** cat.c *)

Fixpoint cat_loop (fuel : nat) (fd : Z) : uprog unit :=
  match fuel with
  | O => UMore
  | S fuel =>
      do! r := call (SRead fd 512) in
      let '(n, buf) := r in
      if 0 <? n then
        do! m := call (SWrite 1 buf) in
        if negb (m =? n) then u_printf 1 [Txt "cat: write error"; NEWLINE] ;; UExit
        else cat_loop fuel fd
      else if n <? 0 then u_printf 1 [Txt "cat: read error"; NEWLINE] ;; UExit
      else URet tt
  end.
Definition cat (fuel : nat) (fd : Z) : uprog unit := cat_loop fuel fd.

Definition cat_main (fuel : nat) (argv : list (list Z)) : uprog unit :=
  if (length argv <=? 1)%nat then cat fuel 0 ;; UExit
  else
    u_for (tail argv) (fun a =>
      do! fd := call (SOpen a 0) in
      if fd <? 0 then u_printf 1 [Txt "cat: cannot open "; Str a; NEWLINE] ;; UExit
      else cat fuel fd ;; call (SClose fd) ;; URet tt) ;;
    UExit.

(** ** echo.c *)

Fixpoint echo_loop (l : list (list Z)) : uprog unit :=
  match l with
  | [] => URet tt
  | a :: l => u_printf 1 [Str a; Str (if bool_decide (l = []) then [10] else [32])] ;; echo_loop l
  end.
Definition echo_main (argv : list (list Z)) : uprog unit := echo_loop (tail argv) ;; UExit.

(** ** wc.c *)

Record counts := Counts { wc_l : Z; wc_w : Z; wc_c : Z; wc_inword : bool }.
Definition BLANKS : list Z := [32; 13; 9; 10; 11].

(** The body of the inner loop, for one byte of the buffer. *)
Definition wc_byte (s : counts) (b : Z) : counts :=
  let c := s32 (wc_c s + 1) in
  let l := if b =? 10 then s32 (wc_l s + 1) else wc_l s in
  if bool_decide (b ∈ BLANKS) then Counts l (wc_w s) c false
  else if negb (wc_inword s) then Counts l (s32 (wc_w s + 1)) c true
  else Counts l (wc_w s) c (wc_inword s).

Fixpoint wc_loop (fuel : nat) (fd : Z) (s : counts) : uprog counts :=
  match fuel with
  | O => UMore
  | S fuel =>
      do! r := call (SRead fd 512) in
      let '(n, buf) := r in
      if 0 <? n then wc_loop fuel fd (foldl wc_byte s buf)
      else if n <? 0 then u_printf 1 [Txt "wc: read error"; NEWLINE] ;; UExit
      else URet s
  end.
Definition wc (fuel : nat) (fd : Z) (name : list Z) : uprog unit :=
  do! s := wc_loop fuel fd (Counts 0 0 0 false) in
  u_printf 1 [Num (wc_l s); Txt " "; Num (wc_w s); Txt " "; Num (wc_c s); Txt " "; Str name; NEWLINE].

Definition wc_main (fuel : nat) (argv : list (list Z)) : uprog unit :=
  if (length argv <=? 1)%nat then wc fuel 0 [] ;; UExit
  else
    u_for (tail argv) (fun a =>
      do! fd := call (SOpen a 0) in
      if fd <? 0 then u_printf 1 [Txt "wc: cannot open "; Str a; NEWLINE] ;; UExit
      else wc fuel fd a ;; call (SClose fd) ;; URet tt) ;;
    UExit.

(** ** grep.c: the reads and [main] *)

(** [grep] with the part of a line it keeps; it writes the matching lines one by one. *)
Fixpoint grep_write (pattern line buf : list Z) : uprog (list Z) :=
  match buf with
  | [] => URet line
  | x :: buf =>
      if x =? NL then
        u_when (match_ pattern line) (call (SWrite 1 (line ++ [NL])) ;; URet tt) ;;
        grep_write pattern [] buf
      else grep_write pattern (line ++ [x]) buf
  end.
Fixpoint grep_fd (fuel : nat) (pattern kept : list Z) (fd : Z) : uprog unit :=
  match fuel with
  | O => UMore
  | S fuel =>
      do! r := call (SRead fd (1024 - Z.of_nat (length kept) - 1)) in
      let '(n, chunk) := r in
      if 0 <? n then
        let buf := kept ++ chunk in
        do! p := grep_write pattern [] buf in
        grep_fd fuel pattern (if (length p =? length buf)%nat then [] else p) fd
      else URet tt
  end.

Definition grep_main (fuel : nat) (argv : list (list Z)) : uprog unit :=
  match tail argv with
  | [] => u_printf 2 [Txt "usage: grep pattern [file ...]"; NEWLINE] ;; UExit
  | [pattern] => grep_fd fuel pattern [] 0 ;; UExit
  | pattern :: files =>
      u_for files (fun a =>
        do! fd := call (SOpen a 0) in
        if fd <? 0 then u_printf 1 [Txt "grep: cannot open "; Str a; NEWLINE] ;; UExit
        else grep_fd fuel pattern [] fd ;; call (SClose fd) ;; URet tt) ;;
      UExit
  end.

(** ** ulib.c: [stat] *)

Definition u_stat (path : list Z) (st : stat) : uprog (Z * stat) :=
  do! fd := call (SOpen path O_RDONLY) in
  if fd <? 0 then URet (-1, st) else
  do! r := call (SFstat fd) in
  call (SClose fd) ;;
  URet r.

(** ** ls.c *)

Definition SLASH_CHAR : Z := 47.

(** [for(p=path+strlen(path); p >= path && *p != '/'; p--);] from index [n] on; the result is
    the index behind the slash. *)
Fixpoint after_slash (path : list Z) (n : nat) : nat :=
  if default 0 (path !! n) =? SLASH_CHAR then S n
  else match n with O => O | S n => after_slash path n end.
Definition fmtname (path : list Z) : list Z :=
  let p := drop (after_slash path (length path)) path in
  if (Z.to_nat DIRSIZ <=? length p)%nat then p
  else p ++ replicate (Z.to_nat DIRSIZ - length p) 32.

Definition ls_line (path : list Z) (st : stat) : list piece_of :=
  [Str (fmtname path); Txt " "; Num (st_type st); Txt " "; Num (st_ino st); Txt " "; Num (st_size st); NEWLINE].

(** The loop over the entries; [st] is the structure that the calls of [stat] fill. *)
Fixpoint ls_loop (fuel : nat) (path : list Z) (fd : Z) (st : stat) : uprog unit :=
  match fuel with
  | O => UMore
  | S fuel =>
      do! r := call (SRead fd DIRENT_SIZE) in
      let '(n, de) := r in
      if negb (n =? DIRENT_SIZE) then URet tt
      else if de_inum de =? 0 then ls_loop fuel path fd st
      else
        let buf := path ++ [SLASH_CHAR] ++ upto_nul (take (Z.to_nat DIRSIZ) (de_name de)) in
        do! r := u_stat buf st in
        let '(ok, st) := r in
        if ok <? 0 then u_printf 1 [Txt "ls: cannot stat "; Str buf; NEWLINE] ;; ls_loop fuel path fd st
        else u_printf 1 (ls_line buf st) ;; ls_loop fuel path fd st
  end.

Definition ls (fuel : nat) (path : list Z) : uprog unit :=
  do! fd := call (SOpen path 0) in
  if fd <? 0 then u_printf 2 [Txt "ls: cannot open "; Str path; NEWLINE] else
  do! r := call (SFstat fd) in
  let '(ok, st) := r in
  if ok <? 0 then u_printf 2 [Txt "ls: cannot stat "; Str path; NEWLINE] ;; call (SClose fd) ;; URet tt else
  (if st_type st =? T_FILE then u_printf 1 (ls_line path st)
   else if st_type st =? T_DIR then
     if 512 <? Z.of_nat (length path) + 1 + DIRSIZ + 1 then u_printf 1 [Txt "ls: path too long"; NEWLINE]
     else ls_loop fuel path fd st
   else URet tt) ;;
  call (SClose fd) ;; URet tt.

Definition ls_main (fuel : nat) (argv : list (list Z)) : uprog unit :=
  (if (length argv <? 2)%nat then ls fuel [46] else u_for (tail argv) (ls fuel)) ;;
  UExit.

(** ** kill.c, ln.c, mkdir.c, rm.c, zombie.c *)

Definition str_mem (s : list Z) : mem := fun a => default 0 (s !! Z.to_nat a).
Definition u_atoi (s : list Z) : Z := default 0 (atoi (str_mem s) 0 (S (length s))).

Definition kill_main (argv : list (list Z)) : uprog unit :=
  if (length argv <? 2)%nat then u_printf 2 [Txt "usage: kill pid..."; NEWLINE] ;; UExit
  else u_for (tail argv) (fun a => call (SKill (u_atoi a)) ;; URet tt) ;; UExit.

Definition ln_main (argv : list (list Z)) : uprog unit :=
  match argv with
  | [_; old; new] =>
      do! r := call (SLink old new) in
      u_when (r <? 0) (u_printf 2 [Txt "link "; Str old; Txt " "; Str new; Txt ": failed"; NEWLINE]) ;;
      UExit
  | _ => u_printf 2 [Txt "Usage: ln old new"; NEWLINE] ;; UExit
  end.

(** The loops that stop at the first failure. *)
Fixpoint mkdir_loop (l : list (list Z)) : uprog unit :=
  match l with
  | [] => URet tt
  | a :: l =>
      do! r := call (SMkdir a) in
      if r <? 0 then u_printf 2 [Txt "mkdir: "; Str a; Txt " failed to create"; NEWLINE] else mkdir_loop l
  end.
Definition mkdir_main (argv : list (list Z)) : uprog unit :=
  if (length argv <? 2)%nat then u_printf 2 [Txt "Usage: mkdir files..."; NEWLINE] ;; UExit
  else mkdir_loop (tail argv) ;; UExit.

Fixpoint rm_loop (l : list (list Z)) : uprog unit :=
  match l with
  | [] => URet tt
  | a :: l =>
      do! r := call (SUnlink a) in
      if r <? 0 then u_printf 2 [Txt "rm: "; Str a; Txt " failed to delete"; NEWLINE] else rm_loop l
  end.
Definition rm_main (argv : list (list Z)) : uprog unit :=
  if (length argv <? 2)%nat then u_printf 2 [Txt "Usage: rm files..."; NEWLINE] ;; UExit
  else rm_loop (tail argv) ;; UExit.

Definition zombie_main : uprog unit :=
  do! pid := call SFork in
  u_when (0 <? pid) (call (SSleep 5) ;; URet tt) ;;
  UExit.

(** ** init.c *)

(** [while((wpid = wait()) >= 0 && wpid != pid)] *)
Fixpoint init_wait (fuel : nat) (pid : Z) : uprog unit :=
  match fuel with
  | O => UMore
  | S fuel =>
      do! wpid := call SWait in
      if (0 <=? wpid) && negb (wpid =? pid) then u_printf 1 [Txt "zombie!"; NEWLINE] ;; init_wait fuel pid
      else URet tt
  end.
Fixpoint init_loop (fuel : nat) : uprog unit :=
  match fuel with
  | O => UMore
  | S fuel' =>
      u_printf 1 [Txt "init: starting sh"; NEWLINE] ;;
      do! pid := call SFork in
      if pid <? 0 then u_printf 1 [Txt "init: fork failed"; NEWLINE] ;; UExit
      else if pid =? 0 then
        call (SExec (codes "sh") [codes "sh"]) ;;
        u_printf 1 [Txt "init: exec sh failed"; NEWLINE] ;; UExit
      else init_wait fuel pid ;; init_loop fuel'
  end.
(** [policy] is the line that the macro of the scheduler selects. *)
Definition init_main (policy : list piece_of) (fuel : nat) : uprog unit :=
  do! fd := call (SOpen (codes "console") O_RDWR) in
  u_when (fd <? 0)
    (call (SMknod (codes "console") 1 1) ;;
     call (SOpen (codes "console") O_RDWR) ;; URet tt) ;;
  call (SDup 0) ;;
  call (SDup 0) ;;
  u_printf 1 policy ;;
  init_loop fuel.

(** ** nice.c *)

Definition waitx_line (r : Z * Z * Z) : list piece_of :=
  [Txt "Wait Time = "; Num r.1.2; NEWLINE; Txt " Run Time = "; Num r.2; Txt " with PID = "; Num r.1.1; Txt " "; NEWLINE].

(** A child with a priority of its own that becomes the program to be tried, [argv[1]]. *)
Definition nice_child (priority : Z) (argv : list (list Z)) : uprog unit :=
  let prog := default [] (argv !! 1%nat) in
  call (SChpr priority) ;;
  call (SSleep 20) ;;
  call (SExec prog argv) ;;
  u_printf 1 [Txt "exec "; Str prog; Txt " failed"; NEWLINE].

Definition nice_main (argv : list (list Z)) : uprog unit :=
  do! pid := call SFork in
  (if pid =? 0 then
     do! pid1 := call SFork in
     if pid1 =? 0 then nice_child 45 argv
     else
       do! pid2 := call SFork in
       if pid2 =? 0 then nice_child 75 argv
       else
         do! r1 := call SWaitx in
         do! r2 := call SWaitx in
         u_printf 1 (waitx_line r1) ;;
         u_printf 1 (waitx_line r2) ;;
         u_printf 1 [Txt "Child Priority 45 : "; Num pid1; Txt ", Child Priority 75 : "; Num pid2; NEWLINE]
   else
     call (SChpr 1) ;;
     do! r := call SWaitx in
     u_printf 1 [Txt "PID: "; Num r.1.1; Txt ", WTIME: "; Num r.1.2; Txt ", RTIME: "; Num r.2; NEWLINE]) ;;
  UExit.
