(* ===== verification/UtilsSpec.v ===== *)
(** * What cat, echo, grep, wc and ls write

    The programs run on any kernel that serves files as streams of reads, one after the other,
    as [Streams] says. The theorems give the bytes they write on every branch, errors of open
    and read included, and however the contents are split into reads. *)

From stdpp Require Import base tactics numbers list strings.
From Stdlib Require Import ZArith Lia ZifyNat ZifyBool.
From S2P Require Import Prelude Layout Ulib Printf Grep Fs Sh UProg Utils.

(** ** A kernel that serves streams *)

Definition at_fd {A} (fd : Z) (x : A) (f : Z -> A) : Z -> A := fun n => if decide (n = fd) then x else f n.

Lemma at_fd_eq {A} fd (x : A) f : at_fd fd x f fd = x.
Proof. unfold at_fd. by rewrite decide_True. Qed.
Lemma at_fd_ne {A} fd (x : A) f n : n <> fd -> at_fd fd x f n = f n.
Proof. intros. unfold at_fd. by rewrite decide_False. Qed.

(** What the reads of a file bring before its end; [None] is a failing read. *)
Abbreviation stream := (list (option (list Z))).

(** [w_file]: the files by path. [w_open]: the descriptors in use, with what is left to read
    and the answer of [fstat]. [w_out]: the bytes written to a descriptor. *)
Class Streams (W : Type) {k : Kernel W} := {
  w_file : W -> list Z -> option (stream * stat);
  w_open : W -> Z -> option (stream * stat);
  w_out : W -> Z -> list Z;
  s_write w fd l : exists w', k_do _ (SWrite fd l) w = (Z.of_nat (length l), w') /\
    w_file w' = w_file w /\ w_open w' = w_open w /\ w_out w' = at_fd fd (w_out w fd ++ l) (w_out w);
  s_read w fd n cs st : w_open w fd = Some (cs, st) ->
    match cs with Some l :: _ => 0 < Z.of_nat (length l) <= n | _ => True end ->
    exists w', k_do _ (SRead fd n) w =
        (match cs with Some l :: _ => (Z.of_nat (length l), l) | None :: _ => (-1, []) | [] => (0, []) end, w') /\
      w_file w' = w_file w /\ w_open w' = at_fd fd (Some (tail cs, st)) (w_open w) /\ w_out w' = w_out w;
  s_open w path : exists fd w', k_do _ (SOpen path 0) w = (fd, w') /\ w_file w' = w_file w /\ w_out w' = w_out w /\
    match w_file w path with
    | None => fd = -1 /\ w_open w' = w_open w
    | Some f => 0 <= fd /\ w_open w fd = None /\ w_open w' = at_fd fd (Some f) (w_open w)
    end;
  s_close w fd : exists r w', k_do _ (SClose fd) w = (r, w') /\ w_file w' = w_file w /\
    w_open w' = at_fd fd None (w_open w) /\ w_out w' = w_out w;
  s_fstat w fd cs st : w_open w fd = Some (cs, st) -> exists w', k_do _ (SFstat fd) w = ((0, st), w') /\
    w_file w' = w_file w /\ w_open w' = w_open w /\ w_out w' = w_out w }.

(** A run that ends with [r], has written [l] to [fd] and leaves the descriptors as [o]. *)
Record wrote {W A} {k : Kernel W} {S : Streams W} (p : uprog A) (w : W) (r : result A) (fd : Z) (l : list Z)
    (o : Z -> option (stream * stat)) (w' : W) : Prop := Wrote {
  wr_run : run p w = (r, w');
  wr_file : w_file w' = w_file w;
  wr_open n : w_open w' n = o n;
  wr_out n : w_out w' n = if decide (n = fd) then w_out w fd ++ l else w_out w n }.

Section Runs.
Context {W : Type} {k : Kernel W} {S : Streams W}.
Implicit Types (w : W).

Lemma run_call {X A} (c : sys X) (f : X -> uprog A) w x w' : k_do _ c w = (x, w') -> run (u_bind (call c) f) w = run (f x) w'.
Proof using. intros E. simpl. by rewrite E. Qed.

Lemma wrote_none {A} (a : A) fd w : wrote (URet a) w (RRet a) fd [] (w_open w) w.
Proof using. split; try done. intros n. destruct (decide _) as [->|]; [|done]. by rewrite app_nil_r. Qed.

Lemma wrote_bind {A B} (p : uprog A) (f : A -> uprog B) w a fd l o w1 r l' o' w' :
  wrote p w (RRet a) fd l o w1 -> wrote (f a) w1 r fd l' o' w' -> wrote (u_bind p f) w r fd (l ++ l') o' w'.
Proof using.
  intros [E1 F1 O1 U1] [E2 F2 O2 U2]. split.
  - rewrite run_bind, E1. done.
  - congruence.
  - done.
  - intros n. rewrite U2, !U1. destruct (decide (n = fd)) as [->|]; [|done]. by rewrite decide_True, app_assoc.
Qed.

Lemma wrote_exit {A B} (p : uprog A) (f : A -> uprog B) w fd l o w' :
  wrote p w RExit fd l o w' -> wrote (u_bind p f) w RExit fd l o w'.
Proof using. intros [E F O U]. split; [|done..]. by rewrite run_bind, E. Qed.

Lemma wrote_ret {A B} (p : uprog A) (b : B) w a fd l o w' :
  wrote p w (RRet a) fd l o w' -> wrote (p ;; URet b) w (RRet b) fd l o w'.
Proof using. intros [E F O U]. split; [|done..]. by rewrite run_bind, E. Qed.

(** [printf] writes the bytes of its pieces. *)
Lemma print_ok fd l w : exists w', wrote (u_for l (fun c => call (SWrite fd [c]) ;; URet tt)) w (RRet tt) fd l (w_open w) w'.
Proof using.
  revert w. induction l as [|c l IH]; intros w; [exists w; apply wrote_none|].
  destruct (s_write w fd [c]) as (w1 & E & F & O & U). destruct (IH w1) as [w' H]. exists w'.
  change (c :: l) with ([c] ++ l). rewrite <- O. eapply wrote_bind; [|exact H].
  split; [by simpl; rewrite E|done|done|]. intros n. rewrite U. unfold at_fd. by destruct (decide _).
Qed.

Lemma printf_ok fd ps w : exists w', wrote (u_printf fd ps) w (RRet tt) fd (ps ≫= piece_bytes) (w_open w) w'.
Proof using. apply print_ok. Qed.

(** A message before [exit]. *)
Lemma message_ok {A} fd ps w :
  exists w', wrote (u_printf fd ps ;; @UExit A) w RExit fd (ps ≫= piece_bytes) (w_open w) w'.
Proof using.
  destruct (printf_ok fd ps w) as [w' [E F O U]]. exists w'. split; [|done..]. by rewrite run_bind, E.
Qed.
End Runs.

(** ** Reading a file to its end *)

(** The bytes the reads bring, and whether a read fails. *)
Fixpoint received (cs : stream) : list Z * bool :=
  match cs with
  | [] => ([], false)
  | None :: _ => ([], true)
  | Some l :: cs => let '(t, bad) := received cs in (l ++ t, bad)
  end.
(** What is left of the stream when the reader stops. *)
Fixpoint left_over (cs : stream) : stream :=
  match cs with
  | [] => []
  | None :: cs => cs
  | Some _ :: cs => left_over cs
  end.

Definition reads_fit (n : Z) (cs : stream) : Prop :=
  Forall (fun c => match c with Some l => 0 < Z.of_nat (length l) <= n | None => True end) cs.

Lemma at_fd_twice {A} fd (x y : A) f n : at_fd fd x (at_fd fd y f) n = at_fd fd x f n.
Proof. unfold at_fd. by destruct (decide _). Qed.

(** ** cat *)

Definition cat_msg : list Z := codes "cat: read error" ++ [10].

Section Cat.
Context {W : Type} {k : Kernel W} {S : Streams W}.
Implicit Types (w : W).

Lemma cat_loop_ok fuel fd cs st w :
  w_open w fd = Some (cs, st) -> reads_fit 512 cs -> (length cs < fuel)%nat ->
  exists w', let '(t, bad) := received cs in
    wrote (cat_loop fuel fd) w (if bad then RExit else RRet tt) 1 (t ++ if bad then cat_msg else [])
      (at_fd fd (Some (left_over cs, st)) (w_open w)) w'.
Proof using.
  revert fuel w. induction cs as [|c cs IH]; intros fuel w Ho Hr Hf; (destruct fuel as [|fuel]; [simpl in Hf; lia|]).
  - destruct (s_read w fd 512 [] st Ho I) as (w1 & E & F & O & U). exists w1. split.
    + cbn [cat_loop]. by rewrite (run_call _ _ _ _ _ E).
    + done.
    + intros n. by rewrite O.
    + intros n. rewrite U. destruct (decide _) as [->|]; [|done]. by rewrite app_nil_r.
  - apply Forall_cons in Hr as [Hc Hr]. destruct c as [l|].
    + destruct (s_read w fd 512 (Some l :: cs) st Ho Hc) as (w1 & E & F & O & U).
      destruct (s_write w1 1 l) as (w2 & E2 & F2 & O2 & U2).
      destruct (IH fuel w2) as [w' H]; [by rewrite O2, O, at_fd_eq|done|simpl in Hf; lia|]. exists w'.
      cbn [received left_over]. destruct (received cs) as [t bad]. destruct H as [E3 F3 O3 U3]. split.
      * cbn [cat_loop]. rewrite (run_call _ _ _ _ _ E). replace (0 <? Z.of_nat (length l)) with true by lia.
        rewrite (run_call _ _ _ _ _ E2). rewrite Z.eqb_refl. done.
      * congruence.
      * intros n. rewrite O3, O2, O. apply at_fd_twice.
      * intros n. rewrite !U3, U2, U. unfold at_fd. destruct (decide (n = 1)) as [->|]; [|done].
        rewrite decide_True by done. by rewrite <- !app_assoc.
    + destruct (s_read w fd 512 (None :: cs) st Ho I) as (w1 & E & F & O & U).
      destruct (message_ok (A := unit) 1 [Txt "cat: read error"; NEWLINE] w1) as [w' [E2 F2 O2 U2]]. exists w'. split.
      * cbn [cat_loop]. rewrite (run_call _ _ _ _ _ E). exact E2.
      * congruence.
      * intros n. by rewrite O2, O.
      * intros n. by rewrite !U2, U.
Qed.
End Cat.

(** ** A program over its files *)

(** What a program writes that reports and stops at the first file it cannot open, and for
    the others writes what [spec] says, which also tells whether it stops there. *)
Fixpoint files_text (cant : string) (spec : list Z -> stream -> list Z * bool)
    (f : list Z -> option (stream * stat)) (names : list (list Z)) : list Z :=
  match names with
  | [] => []
  | a :: names =>
      match f a with
      | None => codes cant ++ a ++ [10]
      | Some (cs, _) => let '(t, stop) := spec a cs in t ++ if stop then [] else files_text cant spec f names
      end
  end.

Section Files.
Context {W : Type} {k : Kernel W} {S : Streams W}.
Implicit Types (w : W).
Context (cant : string) (body : Z -> list Z -> uprog unit) (spec : list Z -> stream -> list Z * bool) (fit : stream -> Prop).
Context (body_ok : forall w fd a cs st, w_open w fd = Some (cs, st) -> fit cs ->
  exists w' o, wrote (body fd a) w (if (spec a cs).2 then RExit else RRet tt) 1 (spec a cs).1 o w').

Definition one_file (a : list Z) : uprog unit :=
  do! fd := call (SOpen a 0) in
  if fd <? 0 then u_printf 1 [Txt cant; Str a; NEWLINE] ;; UExit
  else body fd a ;; call (SClose fd) ;; URet tt.

Definition stops w (a : list Z) : bool := match w_file w a with None => true | Some (cs, _) => (spec a cs).2 end.
Definition writes w (a : list Z) : list Z :=
  match w_file w a with None => codes cant ++ a ++ [10] | Some (cs, _) => (spec a cs).1 end.

Lemma one_file_ok a w :
  (forall cs st, w_file w a = Some (cs, st) -> fit cs) ->
  exists w' o, wrote (one_file a) w (if stops w a then RExit else RRet tt) 1 (writes w a) o w'.
Proof using body_ok.
  intros Hfit. destruct (s_open w a) as (fd & w1 & E & F & U & Ho). unfold stops, writes.
  destruct (w_file w a) as [[cs st]|].
  - destruct Ho as (Hfd & _ & O). destruct (body_ok w1 fd a cs st) as (w2 & o & [E2 F2 O2 U2]); [by rewrite O, at_fd_eq|by eapply Hfit|].
    destruct (s_close w2 fd) as (r & w3 & E3 & F3 & O3 & U3). unfold one_file.
    destruct (spec a cs) as [t []]; cbn [fst snd] in *.
    + exists w2, o. split; [|congruence|done|intros n; rewrite U2, !U; done].
      rewrite (run_call _ _ _ _ _ E). replace (fd <? 0) with false by lia. by rewrite run_bind, E2.
    + exists w3, (w_open w3). split; [|congruence|done|intros n; rewrite U3, U2, !U; done].
      rewrite (run_call _ _ _ _ _ E). replace (fd <? 0) with false by lia. rewrite run_bind, E2.
      by rewrite (run_call _ _ _ _ _ E3).
  - destruct Ho as [-> O]. destruct (message_ok (A := unit) 1 [Txt cant; Str a; NEWLINE] w1) as [w2 [E2 F2 O2 U2]].
    exists w2, (w_open w1). split; [|congruence|done|].
    + unfold one_file. rewrite (run_call _ _ _ _ _ E). exact E2.
    + intros n. rewrite U2, !U. done.
Qed.

Lemma files_ok names w :
  (forall a cs st, a ∈ names -> w_file w a = Some (cs, st) -> fit cs) ->
  exists w' o, wrote (u_for names one_file ;; @UExit unit) w RExit 1 (files_text cant spec (w_file w) names) o w'.
Proof using body_ok.
  revert w. induction names as [|a names IH]; intros w Hfit.
  - exists w, (w_open w). split; try done. intros n. simpl. destruct (decide _) as [->|]; [|done]. by rewrite app_nil_r.
  - destruct (one_file_ok a w) as (w1 & o & H); [intros cs st; apply Hfit, elem_of_cons; by left|].
    assert (Et : files_text cant spec (w_file w) (a :: names) =
      writes w a ++ if stops w a then [] else files_text cant spec (w_file w) names).
    { cbn [files_text]. unfold writes, stops. destruct (w_file w a) as [[cs st]|]; [|by rewrite app_nil_r].
      by destruct (spec a cs). }
    rewrite Et. destruct (stops w a).
    + exists w1, o. rewrite app_nil_r. cbn [u_for]. by apply wrote_exit, wrote_exit.
    + destruct (IH w1) as (w' & o' & H'); [intros a' cs st Ha; rewrite (wr_file _ _ _ _ _ _ _ H); apply Hfit, elem_of_cons; by right|].
      exists w', o'. rewrite (wr_file _ _ _ _ _ _ _ H) in H'.
      destruct H as [E F O U], H' as [E' F' O' U']. split; [|congruence|done|].
      * cbn [u_for]. rewrite !run_bind, E. rewrite run_bind in E'. exact E'.
      * intros n. rewrite U', !U. destruct (decide (n = 1)) as [->|]; [|done]. by rewrite decide_True, app_assoc.
Qed.

(** What the whole program writes: without arguments it works on its standard input. *)
Definition main_text w (argv : list (list Z)) : list Z :=
  if (length argv <=? 1)%nat then default [] ((fun f => (spec [] f.1).1) <$> w_open w 0)
  else files_text cant spec (w_file w) (tail argv).

Lemma main_ok w argv :
  (forall a cs st, a ∈ tail argv -> w_file w a = Some (cs, st) -> fit cs) ->
  (forall cs st, w_open w 0 = Some (cs, st) -> fit cs) -> is_Some (w_open w 0) ->
  exists w', run (if (length argv <=? 1)%nat then body 0 [] ;; UExit else u_for (tail argv) one_file ;; @UExit unit) w = (RExit, w') /\
    w_out w' 1 = w_out w 1 ++ main_text w argv /\ forall fd, fd <> 1 -> w_out w' fd = w_out w fd.
Proof using body_ok.
  intros Hf H0 [[cs st] Ho]. unfold main_text. destruct (length argv <=? 1)%nat.
  - destruct (body_ok w 0 [] cs st Ho (H0 _ _ Ho)) as (w' & o & [E F O U]). exists w'. rewrite Ho. split.
    + rewrite run_bind, E. by destruct (spec [] cs).2.
    + split; [by rewrite U|]. intros fd Hfd. by rewrite U, decide_False.
  - destruct (files_ok (tail argv) w Hf) as (w' & o & [E F O U]). exists w'. split; [exact E|].
    split; [by rewrite U|]. intros fd Hfd. by rewrite U, decide_False.
Qed.
End Files.

(** ** The main programs *)

Definition cat_file (a : list Z) (cs : stream) : list Z * bool :=
  let '(t, bad) := received cs in (t ++ if bad then cat_msg else [], bad).

(** Streams that a program with a buffer of [n] bytes reads in fewer than [fuel] turns. *)
Definition fit (n : Z) (fuel : nat) (cs : stream) : Prop := reads_fit n cs /\ (length cs < fuel)%nat.

(** [cat] writes the contents of its files, one after the other, or those of its standard
    input, however the kernel splits them into reads; at a file it cannot open or a read that
    fails it reports that and stops. *)
Theorem cat_copies {W} {k : Kernel W} {S : Streams W} (w : W) fuel argv :
  (forall a cs st, a ∈ tail argv -> w_file w a = Some (cs, st) -> fit 512 fuel cs) ->
  (forall cs st, w_open w 0 = Some (cs, st) -> fit 512 fuel cs) -> is_Some (w_open w 0) ->
  exists w', run (cat_main fuel argv) w = (RExit, w') /\
    w_out w' 1 = w_out w 1 ++ main_text "cat: cannot open " cat_file w argv /\
    forall fd, fd <> 1 -> w_out w' fd = w_out w fd.
Proof.
  apply (main_ok "cat: cannot open " (fun fd _ => cat fuel fd)). intros w1 fd a cs1 st1 Ho1 [Hr Hl].
  destruct (cat_loop_ok fuel fd cs1 st1 w1 Ho1 Hr Hl) as [w' H]. unfold cat_file.
  destruct (received cs1) as [t bad]. eexists _, _. exact H.
Qed.

(** ** wc *)

(** The text cut at its blanks: the words are the parts that are not empty. *)
Fixpoint segments (cur t : list Z) : list (list Z) :=
  match t with
  | [] => [cur]
  | b :: t => if bool_decide (b ∈ BLANKS) then cur :: segments [] t else segments (cur ++ [b]) t
  end.
Definition nonempty (l : list (list Z)) : Z := Z.of_nat (length (filter (fun x => x <> []) l)).
Definition words (t : list Z) : Z := nonempty (segments [] t).
Definition lines (t : list Z) : Z := Z.of_nat (length (filter (fun b => b = 10) t)).

Lemma nonempty_cons x l : nonempty (x :: l) = (if decide (x = []) then 0 else 1) + nonempty l.
Proof.
  unfold nonempty. rewrite filter_cons. destruct (decide (x = [])) as [->|H].
  - by rewrite decide_False by naive_solver.
  - rewrite decide_True by done. simpl. lia.
Qed.

Lemma s32_id v : -2147483648 <= v < 2147483648 -> s32 v = v.
Proof. intros. unfold s32. zlia. Qed.

(** Counting the bytes [t] when the last word so far is [cur]. *)
Lemma count_ok t s cur N :
  wc_inword s = bool_decide (cur <> []) ->
  0 <= wc_l s <= N -> 0 <= wc_w s <= N -> 0 <= wc_c s <= N -> N + Z.of_nat (length t) < 2147483648 ->
  let s' := foldl wc_byte s t in
  wc_l s' = wc_l s + lines t /\ wc_c s' = wc_c s + Z.of_nat (length t) /\
  wc_w s' + (if decide (cur = []) then 0 else 1) = wc_w s + nonempty (segments cur t).
Proof.
  revert s cur N. induction t as [|b t IH]; intros s cur N Hi Hl Hw Hc HN.
  { simpl. rewrite nonempty_cons. unfold lines, nonempty. simpl. destruct (decide _); lia. }
  cbn [foldl segments]. simpl length in HN.
  assert (El : lines (b :: t) = (if b =? 10 then 1 else 0) + lines t).
  { unfold lines. rewrite filter_cons. destruct (decide (b = 10)); [|by replace (b =? 10) with false by lia].
    replace (b =? 10) with true by lia. simpl. lia. }
  set (s1 := wc_byte s b). assert (E1 : wc_l s1 = wc_l s + (if b =? 10 then 1 else 0) /\ wc_c s1 = wc_c s + 1).
  { unfold s1, wc_byte. rewrite (s32_id (wc_c s + 1)), (s32_id (wc_l s + 1)) by lia.
    destruct (bool_decide (b ∈ BLANKS)), (negb (wc_inword s)), (b =? 10); simpl; lia. }
  destruct E1 as [E1 E2]. assert (Hb : 0 <= (if b =? 10 then 1 else 0) <= 1) by (destruct (b =? 10); lia).
  destruct (decide (b ∈ BLANKS)) as [Hbl|Hbl]; rewrite ?(bool_decide_eq_true_2 (b ∈ BLANKS)), ?(bool_decide_eq_false_2 (b ∈ BLANKS)) by done.
  - assert (Es : wc_w s1 = wc_w s /\ wc_inword s1 = false) by (unfold s1, wc_byte; rewrite bool_decide_eq_true_2 by exact Hbl; split; reflexivity).
    destruct Es as [Ew Ein]. destruct (IH s1 [] (N + 1)) as (I1 & I2 & I3); [by rewrite Ein|lia..|].
    rewrite nonempty_cons. rewrite decide_True in I3 by done. simpl length. destruct (decide (cur = [])); lia.
  - assert (Es : wc_w s1 = wc_w s + (if decide (cur = []) then 1 else 0) /\ wc_inword s1 = true).
    { unfold s1, wc_byte. rewrite bool_decide_eq_false_2, Hi by done. rewrite !s32_id by lia.
      destruct (decide (cur = [])) as [->|H]; [rewrite bool_decide_eq_false_2 by naive_solver; done|].
      rewrite bool_decide_eq_true_2 by done. simpl. split; [lia|done]. }
    destruct Es as [Ew Ein]. destruct (IH s1 (cur ++ [b]) (N + 1)) as (I1 & I2 & I3).
    { rewrite Ein. symmetry. apply bool_decide_eq_true. by destruct cur. }
    all: try (destruct (decide (cur = [])); lia).
    rewrite (decide_False (P := cur ++ [b] = [])) in I3 by by destruct cur. simpl length. destruct (decide (cur = [])); lia.
Qed.

Definition wc_line (name t : list Z) : list Z :=
  [Num (lines t); Txt " "; Num (words t); Txt " "; Num (Z.of_nat (length t)); Txt " "; Str name; NEWLINE] ≫= piece_bytes.
Definition wc_file (a : list Z) (cs : stream) : list Z * bool :=
  let '(t, bad) := received cs in (if bad then codes "wc: read error" ++ [10] else wc_line a t, bad).

Section Wc.
Context {W : Type} {k : Kernel W} {S : Streams W}.
Implicit Types (w : W).

Lemma wc_loop_ok fuel fd cs st w s :
  w_open w fd = Some (cs, st) -> reads_fit 512 cs -> (length cs < fuel)%nat ->
  exists w', let '(t, bad) := received cs in
    wrote (wc_loop fuel fd s) w (if bad then RExit else RRet (foldl wc_byte s t)) 1
      (if bad then codes "wc: read error" ++ [10] else []) (at_fd fd (Some (left_over cs, st)) (w_open w)) w'.
Proof using.
  revert fuel w s. induction cs as [|c cs IH]; intros fuel w s Ho Hr Hf; (destruct fuel as [|fuel]; [simpl in Hf; lia|]).
  - destruct (s_read w fd 512 [] st Ho I) as (w1 & E & F & O & U). exists w1. split.
    + cbn [wc_loop]. by rewrite (run_call _ _ _ _ _ E).
    + done.
    + intros n. by rewrite O.
    + intros n. rewrite U. destruct (decide _) as [->|]; [|done]. by rewrite app_nil_r.
  - apply Forall_cons in Hr as [Hc Hr]. destruct c as [l|].
    + destruct (s_read w fd 512 (Some l :: cs) st Ho Hc) as (w1 & E & F & O & U).
      destruct (IH fuel w1 (foldl wc_byte s l)) as [w' H]; [by rewrite O, at_fd_eq|done|simpl in Hf; lia|]. exists w'.
      cbn [received left_over]. destruct (received cs) as [t bad]. rewrite foldl_app. destruct H as [E3 F3 O3 U3]. split.
      * cbn [wc_loop]. rewrite (run_call _ _ _ _ _ E). by replace (0 <? Z.of_nat (length l)) with true by lia.
      * congruence.
      * intros n. rewrite O3, O. apply at_fd_twice.
      * intros n. by rewrite !U3, !U.
    + destruct (s_read w fd 512 (None :: cs) st Ho I) as (w1 & E & F & O & U).
      destruct (message_ok (A := counts) 1 [Txt "wc: read error"; NEWLINE] w1) as [w' [E2 F2 O2 U2]]. exists w'. split.
      * cbn [wc_loop]. rewrite (run_call _ _ _ _ _ E). exact E2.
      * congruence.
      * intros n. by rewrite O2, O.
      * intros n. by rewrite !U2, U.
Qed.

Lemma wc_ok fuel w fd a cs st :
  w_open w fd = Some (cs, st) -> fit 512 fuel cs -> Z.of_nat (length (received cs).1) < 2147483648 ->
  exists w' o, wrote (wc fuel fd a) w (if (wc_file a cs).2 then RExit else RRet tt) 1 (wc_file a cs).1 o w'.
Proof using.
  intros Ho [Hr Hf] Hl. destruct (wc_loop_ok fuel fd cs st w (Counts 0 0 0 false) Ho Hr Hf) as [w1 H1].
  unfold wc_file, wc. destruct (received cs) as [t []]; cbn [fst snd] in *.
  - eexists w1, _. by apply wrote_exit.
  - destruct (count_ok t (Counts 0 0 0 false) [] 0) as (E1 & E2 & E3); [done|simpl; lia..|]. rewrite decide_True in E3 by done.
    simpl wc_l in E1. simpl wc_c in E2. simpl wc_w in E3 at 2. rewrite Z.add_0_r in E3. rewrite !Z.add_0_l in *.
    set (s := foldl _ _ t) in *.
    destruct (printf_ok 1 [Num (wc_l s); Txt " "; Num (wc_w s); Txt " "; Num (wc_c s); Txt " "; Str a; NEWLINE] w1) as [w' H].
    exists w', (w_open w1). unfold wc_line. rewrite <- E1, <- E2. unfold words. rewrite <- E3.
    by eapply (wrote_bind _ _ _ _ _ [] _ _ _ _ _ _ H1).
Qed.
End Wc.

(** [wc] prints for each file, or for its standard input, the number of newlines, of
    words, which are the maximal runs of bytes other than blanks, and of bytes, however the
    kernel splits the file into reads; at a file it cannot open or a read that fails it
    reports that and stops. *)
Theorem wc_counts {W} {k : Kernel W} {S : Streams W} (w : W) fuel argv :
  (forall a cs st, a ∈ tail argv -> w_file w a = Some (cs, st) -> fit 512 fuel cs /\ Z.of_nat (length (received cs).1) < 2147483648) ->
  (forall cs st, w_open w 0 = Some (cs, st) -> fit 512 fuel cs /\ Z.of_nat (length (received cs).1) < 2147483648) ->
  is_Some (w_open w 0) ->
  exists w', run (wc_main fuel argv) w = (RExit, w') /\
    w_out w' 1 = w_out w 1 ++ main_text "wc: cannot open " wc_file w argv /\
    forall fd, fd <> 1 -> w_out w' fd = w_out w fd.
Proof.
  apply (main_ok "wc: cannot open " (wc fuel) wc_file (fun cs => fit 512 fuel cs /\ Z.of_nat (length (received cs).1) < 2147483648)).
  intros w1 fd a cs st Ho [Hr Hl]. by eapply wc_ok.
Qed.

(** ** grep *)

(** The reads before the end or a failing one, where the loop of [grep] ends. *)
Fixpoint good_reads (cs : stream) : list (list Z) :=
  match cs with Some l :: cs => l :: good_reads cs | _ => [] end.

(** The reads fit the room that is left in the buffer of 1024 bytes. *)
Fixpoint grep_fit (pattern kept : list Z) (cs : stream) : Prop :=
  match cs with
  | Some l :: cs =>
      0 < Z.of_nat (length l) <= 1023 - Z.of_nat (length kept) /\
      grep_fit pattern (let p := (grep_lines pattern [] (kept ++ l)).2 in if (length p =? length (kept ++ l))%nat then [] else p) cs
  | _ => True
  end.

Section GrepMain.
Context {W : Type} {k : Kernel W} {S : Streams W}.
Implicit Types (w : W).

Lemma grep_write_ok pattern line buf w :
  exists w', let '(out, p) := grep_lines pattern line buf in wrote (grep_write pattern line buf) w (RRet p) 1 out (w_open w) w'.
Proof using.
  revert line w. induction buf as [|x buf IH]; intros line w; [exists w; apply wrote_none|]. cbn [grep_lines grep_write].
  destruct (x =? NL); [|apply IH]. destruct (match_ pattern line).
  - destruct (s_write w 1 (line ++ [NL])) as (w1 & E & F & O & U). destruct (IH [] w1) as [w' H]. exists w'.
    destruct (grep_lines pattern [] buf) as [out p]. rewrite O in H. eapply wrote_bind; [|exact H].
    split; [by simpl; rewrite E|done|by rewrite O|]. intros n. rewrite U. unfold at_fd. by destruct (decide _).
  - destruct (IH [] w) as [w' H]. exists w'. destruct (grep_lines pattern [] buf) as [out p].
    eapply (wrote_bind _ _ _ _ _ []); [apply wrote_none|exact H].
Qed.

Lemma grep_fd_ok fuel pattern kept fd cs st w :
  w_open w fd = Some (cs, st) -> grep_fit pattern kept cs -> (length cs < fuel)%nat ->
  exists w' o, wrote (grep_fd fuel pattern kept fd) w (RRet tt) 1 (grep_loop pattern kept (good_reads cs)) o w'.
Proof using.
  revert fuel kept w. induction cs as [|c cs IH]; intros fuel kept w Ho Hr Hf; (destruct fuel as [|fuel]; [simpl in Hf; lia|]).
  - destruct (s_read w fd (1024 - Z.of_nat (length kept) - 1) [] st Ho I) as (w1 & E & F & O & U). exists w1, (w_open w1). split.
    + cbn [grep_fd]. by rewrite (run_call _ _ _ _ _ E).
    + done.
    + done.
    + intros n. rewrite U. destruct (decide _) as [->|]; [|done]. by rewrite app_nil_r.
  - destruct c as [l|].
    + destruct Hr as [Hc Hr]. destruct (s_read w fd (1024 - Z.of_nat (length kept) - 1) (Some l :: cs) st Ho) as (w1 & E & F & O & U); [lia|].
      destruct (grep_write_ok pattern [] (kept ++ l) w1) as [w2 H2]. cbn [good_reads]. destruct l as [|x l]; [simpl in Hc; lia|].
      cbn [grep_loop]. set (buf := kept ++ x :: l) in *. destruct (grep_lines pattern [] buf) as [out p]. cbn [snd] in Hr.
      set (m := if (length p =? length buf)%nat then [] else p) in *.
      destruct (IH fuel m w2) as (w' & o & H'); [by rewrite (wr_open _ _ _ _ _ _ _ H2), O, at_fd_eq|done|simpl in Hf; lia|].
      assert (Em : (if ((if (length p =? length buf)%nat then 0 else length p) =? 0)%nat then [] else p) = m).
      { unfold m. destruct (length p =? length buf)%nat; [done|]. by destruct p. }
      exists w', o. rewrite Em. destruct H2 as [E2 F2 O2 U2], H' as [E' F' O' U']. split; [|congruence|done|].
      * cbn [grep_fd]. rewrite (run_call _ _ _ _ _ E). replace (0 <? Z.of_nat (length (x :: l))) with true by lia.
        fold buf. rewrite run_bind, E2. exact E'.
      * intros n. rewrite U', !U2, !U. destruct (decide (n = 1)) as [->|]; [|done]. by rewrite decide_True, app_assoc.
    + destruct (s_read w fd (1024 - Z.of_nat (length kept) - 1) (None :: cs) st Ho I) as (w1 & E & F & O & U). exists w1, (w_open w1). split.
      * cbn [grep_fd]. by rewrite (run_call _ _ _ _ _ E).
      * done.
      * done.
      * intros n. rewrite U. destruct (decide _) as [->|]; [|done]. by rewrite app_nil_r.
Qed.
End GrepMain.

(** [grep] with a pattern writes the matching lines of its files, as [Grep.grep] gives them. *)
Theorem grep_main_spec {W} {k : Kernel W} {S : Streams W} (w : W) fuel name pattern files :
  let ok cs := grep_fit pattern [] cs /\ (length cs < fuel)%nat in
  (forall a cs st, a ∈ files -> w_file w a = Some (cs, st) -> ok cs) ->
  (forall cs st, w_open w 0 = Some (cs, st) -> ok cs) -> is_Some (w_open w 0) ->
  exists w', run (grep_main fuel (name :: pattern :: files)) w = (RExit, w') /\
    w_out w' 1 = w_out w 1 ++ main_text "grep: cannot open " (fun _ cs => (grep pattern (good_reads cs), false)) w (name :: files) /\
    forall fd, fd <> 1 -> w_out w' fd = w_out w fd.
Proof.
  intros ok Hf H0 Ho. pose proof (main_ok "grep: cannot open " (fun fd _ => grep_fd fuel pattern [] fd)
    (fun _ cs => (grep pattern (good_reads cs), false)) ok) as H.
  specialize (H ltac:(intros w1 fd a cs st Ho1 [Hr Hl]; by eapply grep_fd_ok) w (name :: files) Hf H0 Ho).
  destruct files; exact H.
Qed.

(** ** echo *)

Fixpoint echo_text (l : list (list Z)) : list Z :=
  match l with
  | [] => []
  | [a] => a ++ [10]
  | a :: l => a ++ [32] ++ echo_text l
  end.

(** [echo] writes its arguments with blanks between them and a newline behind the last. *)
Theorem echo_spec {W} {k : Kernel W} {S : Streams W} (w : W) argv :
  exists w', wrote (echo_main argv) w RExit 1 (echo_text (tail argv)) (w_open w) w'.
Proof.
  enough (H : forall l w, exists w', wrote (echo_loop l) w (RRet tt) 1 (echo_text l) (w_open w) w').
  { destruct (H (tail argv) w) as [w' [E F O U]]. exists w'. split; [|done..]. unfold echo_main. by rewrite run_bind, E. }
  clear. induction l as [|a l IH]; intros w; [exists w; apply wrote_none|]. cbn [echo_loop].
  set (sep := if bool_decide (l = []) then [10] else [32]).
  destruct (printf_ok 1 [Str a; Str sep] w) as [w1 H1]. destruct (IH w1) as [w' H']. exists w'.
  assert (E : echo_text (a :: l) = ([Str a; Str sep] ≫= piece_bytes) ++ echo_text l).
  { simpl. rewrite app_nil_r, <- app_assoc. unfold sep. destruct l; simpl; done. }
  rewrite E. destruct H1 as [E1 F1 O1 U1], H' as [E' F' O' U']. split; [|congruence|intros n; by rewrite O', O1|].
  - by rewrite run_bind, E1.
  - intros n. rewrite U', !U1. destruct (decide (n = 1)) as [->|]; [|done]. by rewrite decide_True, app_assoc.
Qed.

(** ** ls *)

(** The part of a path behind its last slash. *)
Lemma after_slash_spec path n :
  (n <= length path)%nat ->
  let j := after_slash path n in
  (j <= S n)%nat /\ (j = 0%nat \/ path !! (j - 1)%nat = Some SLASH_CHAR) /\
  forall i, (j <= i <= n)%nat -> path !! i <> Some SLASH_CHAR.
Proof.
  assert (Hs : forall m, default 0 (path !! m) = SLASH_CHAR -> path !! m = Some SLASH_CHAR).
  { intros m. destruct (path !! m) as [c|]; [by intros <-|done]. }
  induction n as [|n IH]; intros Hn; cbn [after_slash].
  - destruct (Z.eqb_spec (default 0 (path !! 0%nat)) SLASH_CHAR) as [E|E].
    + split; [lia|]. split; [right; by apply Hs|lia].
    + split; [lia|]. split; [by left|]. intros i Hi. assert (i = 0%nat) as -> by lia. intros E'. by rewrite E' in E.
  - destruct (Z.eqb_spec (default 0 (path !! S n)) SLASH_CHAR) as [E|E].
    + split; [lia|]. split; [right; by apply Hs|lia].
    + destruct IH as (I1 & I2 & I3); [lia|]. split; [lia|]. split; [done|]. intros i Hi.
      destruct (decide (i = S n)) as [->|Hne]; [intros E'; by rewrite E' in E|apply I3; lia].
Qed.

(** [fmtname] is the last element of the path, filled with blanks to 14 bytes. *)
Lemma fmtname_spec dir b :
  SLASH_CHAR ∉ b -> dir = [] \/ last dir = Some SLASH_CHAR ->
  fmtname (dir ++ b) = b ++ replicate (14 - length b) 32.
Proof.
  intros Hb Hd. destruct (after_slash_spec (dir ++ b) (length (dir ++ b)) ltac:(lia)) as (H1 & H2 & H3).
  unfold fmtname. set (j := after_slash _ _) in *. change (Z.to_nat DIRSIZ) with 14%nat.
  assert (Ej : j = length dir).
  { destruct (decide (j < length dir)%nat) as [Hlt|Hge].
    - destruct Hd as [->|Hd]; [simpl in Hlt; lia|]. rewrite last_lookup in Hd. exfalso.
      apply (H3 (Nat.pred (length dir))); [rewrite length_app; lia|]. rewrite lookup_app_l by lia. done.
    - destruct H2 as [H2|H2]; [lia|]. destruct (decide (j = length dir)); [done|]. exfalso. apply Hb.
      rewrite lookup_app_r in H2 by lia. by eapply list_elem_of_lookup_2. }
  rewrite Ej, drop_app_length. destruct (Nat.leb_spec 14 (length b)); [|done].
  replace (14 - length b)%nat with 0%nat by lia. by rewrite app_nil_r.
Qed.

Abbreviation files := (list Z -> option (stream * stat)).

(** The lines for the entries of a directory. *)
Definition entry_path (path de : list Z) : list Z := path ++ [SLASH_CHAR] ++ upto_nul (take (Z.to_nat DIRSIZ) (de_name de)).
Definition entry_text (f : files) (path de : list Z) : list Z :=
  if de_inum de =? 0 then []
  else match f (entry_path path de) with
       | None => codes "ls: cannot stat " ++ entry_path path de ++ [10]
       | Some (_, st) => ls_line (entry_path path de) st ≫= piece_bytes
       end.
Fixpoint dir_text (f : files) (path : list Z) (cs : stream) : list Z :=
  match cs with
  | Some de :: cs => if Z.of_nat (length de) =? DIRENT_SIZE then entry_text f path de ++ dir_text f path cs else []
  | _ => []
  end.

(** What [ls] writes to its output, and to descriptor 2. *)
Definition ls_text (f : files) (path : list Z) : list Z :=
  match f path with
  | None => []
  | Some (cs, st) =>
      if st_type st =? T_FILE then ls_line path st ≫= piece_bytes
      else if st_type st =? T_DIR then
        if 512 <? Z.of_nat (length path) + 1 + DIRSIZ + 1 then codes "ls: path too long" ++ [10] else dir_text f path cs
      else []
  end.
Definition ls_errors (f : files) (path : list Z) : list Z :=
  match f path with None => codes "ls: cannot open " ++ path ++ [10] | Some _ => [] end.

Section Ls.
Context {W : Type} {k : Kernel W} {S : Streams W}.
Implicit Types (w : W).

Lemma reopened w fd (f : stream * stat) n : w_open w fd = None -> at_fd fd None (at_fd fd (Some f) (w_open w)) n = w_open w n.
Proof using. intros E. unfold at_fd. destruct (decide _) as [->|]; [by rewrite E|done]. Qed.

Lemma u_stat_ok path st w :
  exists w', wrote (u_stat path st) w (RRet (match w_file w path with None => (-1, st) | Some (_, st') => (0, st') end)) 1 [] (w_open w) w'.
Proof using.
  destruct (s_open w path) as (fd & w1 & E & F & U & Ho). unfold u_stat. change O_RDONLY with 0.
  destruct (w_file w path) as [[cs st']|].
  - destruct Ho as (Hfd & Hnone & O). destruct (s_fstat w1 fd cs st') as (w2 & E2 & F2 & O2 & U2); [by rewrite O, at_fd_eq|].
    destruct (s_close w2 fd) as (r & w3 & E3 & F3 & O3 & U3). exists w3. split; [|congruence| |].
    + rewrite (run_call _ _ _ _ _ E). replace (fd <? 0) with false by lia.
      rewrite (run_call _ _ _ _ _ E2). by rewrite (run_call _ _ _ _ _ E3).
    + intros n. rewrite O3, O2, O. by apply reopened.
    + intros n. rewrite U3, U2, U, app_nil_r. by destruct (decide _) as [->|].
  - destruct Ho as [-> O]. exists w1. split; [by rewrite (run_call _ _ _ _ _ E)|done|by rewrite O|].
    intros n. rewrite U, app_nil_r. by destruct (decide _) as [->|].
Qed.

(** The line for one entry. *)
Definition ls_entry (path de : list Z) (st : stat) (next : stat -> uprog unit) : uprog unit :=
  do! r := u_stat (entry_path path de) st in
  let '(ok, st) := r in
  if ok <? 0 then u_printf 1 [Txt "ls: cannot stat "; Str (entry_path path de); NEWLINE] ;; next st
  else u_printf 1 (ls_line (entry_path path de) st) ;; next st.

Lemma ls_entry_ok path de st next w :
  (de_inum de =? 0) = false ->
  exists w1 st', w_file w1 = w_file w /\ (forall n, w_open w1 n = w_open w n) /\
    (forall n, w_out w1 n = if decide (n = 1) then w_out w 1 ++ entry_text (w_file w) path de else w_out w n) /\
    run (ls_entry path de st next) w = run (next st') w1.
Proof using.
  intros Hi. unfold entry_text, ls_entry. rewrite Hi. destruct (u_stat_ok (entry_path path de) st w) as [w1 [E1 F1 O1 U1]].
  assert (U1' : forall n, w_out w1 n = w_out w n).
  { intros n. rewrite U1, app_nil_r. by destruct (decide _) as [->|]. }
  destruct (w_file w (entry_path path de)) as [[cs st']|].
  - destruct (printf_ok 1 (ls_line (entry_path path de) st') w1) as [w2 [E2 F2 O2 U2]].
    exists w2, st'. split; [congruence|]. split; [intros n; by rewrite O2, O1|]. split; [intros n; by rewrite U2, !U1'|].
    rewrite run_bind, E1. cbv iota beta. change (0 <? 0) with false. cbv iota. by rewrite run_bind, E2.
  - destruct (printf_ok 1 [Txt "ls: cannot stat "; Str (entry_path path de); NEWLINE] w1) as [w2 [E2 F2 O2 U2]].
    exists w2, st. split; [congruence|]. split; [intros n; by rewrite O2, O1|]. split; [intros n; by rewrite U2, !U1'|].
    rewrite run_bind, E1. cbv iota beta. change (-1 <? 0) with true. cbv iota. by rewrite run_bind, E2.
Qed.

Lemma ls_loop_ok fuel path fd cs sf st w :
  w_open w fd = Some (cs, sf) -> reads_fit DIRENT_SIZE cs -> (length cs < fuel)%nat ->
  exists w' o, wrote (ls_loop fuel path fd st) w (RRet tt) 1 (dir_text (w_file w) path cs) o w'.
Proof using.
  revert fuel st w. induction cs as [|c cs IH]; intros fuel st w Ho Hr Hf; (destruct fuel as [|fuel]; [simpl in Hf; lia|]).
  - destruct (s_read w fd DIRENT_SIZE [] sf Ho I) as (w1 & E & F & O & U). exists w1, (w_open w1). split; [|done|done|].
    + cbn [ls_loop]. by rewrite (run_call _ _ _ _ _ E).
    + intros n. rewrite U. destruct (decide _) as [->|]; [|done]. by rewrite app_nil_r.
  - apply Forall_cons in Hr as [Hc Hr]. destruct c as [de|].
    + destruct (s_read w fd DIRENT_SIZE (Some de :: cs) sf Ho Hc) as (w1 & E & F & O & U). cbn [dir_text].
      destruct (Z.eqb_spec (Z.of_nat (length de)) DIRENT_SIZE) as [El|El].
      * assert (Hstep : exists w2 st', w_file w2 = w_file w /\ w_open w2 fd = Some (cs, sf) /\
          (forall n, w_out w2 n = if decide (n = 1) then w_out w 1 ++ entry_text (w_file w) path de else w_out w n) /\
          run (ls_loop (Datatypes.S fuel) path fd st) w = run (ls_loop fuel path fd st') w2).
        { cbn [ls_loop]. rewrite (run_call _ _ _ _ _ E). cbv iota beta. rewrite (proj2 (Z.eqb_eq _ _) El). cbn [negb].
          destruct (de_inum de =? 0) eqn:Ei.
          - exists w1, st. rewrite O, at_fd_eq. do 2 (split; [done|]). split; [|done]. intros n. rewrite U. unfold entry_text.
            rewrite Ei, app_nil_r. by destruct (decide _) as [->|].
          - destruct (ls_entry_ok path de st (ls_loop fuel path fd) w1 Ei) as (w2 & st' & F2 & O2 & U2 & E2).
            exists w2, st'. split; [congruence|]. split; [by rewrite O2, O, at_fd_eq|]. split; [|exact E2].
            intros n. by rewrite U2, !U, F. }
        destruct Hstep as (w2 & st' & F2 & O2 & U2 & E2).
        destruct (IH fuel st' w2 O2 Hr) as (w' & o & [E' F' O' U']); [simpl in Hf; lia|]. rewrite F2 in U'.
        exists w', o. split; [by rewrite E2|congruence|done|].
        intros n. rewrite U', !U2. destruct (decide (n = 1)) as [->|]; [|done]. by rewrite decide_True, app_assoc.
      * exists w1, (w_open w1). split; [|done|done|].
        -- cbn [ls_loop]. rewrite (run_call _ _ _ _ _ E). cbv iota beta. by rewrite (proj2 (Z.eqb_neq _ _) El).
        -- intros n. rewrite U, app_nil_r. by destruct (decide _) as [->|].
    + destruct (s_read w fd DIRENT_SIZE (None :: cs) sf Ho I) as (w1 & E & F & O & U). exists w1, (w_open w1). split; [|done|done|].
      * cbn [ls_loop]. by rewrite (run_call _ _ _ _ _ E).
      * intros n. rewrite U. destruct (decide _) as [->|]; [|done]. by rewrite app_nil_r.
Qed.

(** What a run adds to the two outputs. *)
Definition adds w (l1 l2 : list Z) (w' : W) : Prop :=
  w_file w' = w_file w /\ w_out w' 1 = w_out w 1 ++ l1 /\ w_out w' 2 = w_out w 2 ++ l2.

Lemma adds_out {A} (p : uprog A) w r l o w' : wrote p w r 1 l o w' -> adds w l [] w'.
Proof using. intros [_ F _ U]. split; [done|]. rewrite !U. split; [done|]. by rewrite app_nil_r. Qed.

Lemma adds_same w w1 w2 w3 l1 l2 :
  w_file w1 = w_file w -> w_out w1 = w_out w -> adds w1 l1 l2 w2 -> w_file w3 = w_file w2 -> w_out w3 = w_out w2 -> adds w l1 l2 w3.
Proof using. intros F1 U1 (F & U & U') F3 U3. unfold adds. rewrite F3, U3, U, U', U1. split; [congruence|done]. Qed.

(** The body of the [switch]. *)
Definition ls_body (fuel : nat) (path : list Z) (fd : Z) (st : stat) : uprog unit :=
  if st_type st =? T_FILE then u_printf 1 (ls_line path st)
  else if st_type st =? T_DIR then
    if 512 <? Z.of_nat (length path) + 1 + DIRSIZ + 1 then u_printf 1 [Txt "ls: path too long"; NEWLINE]
    else ls_loop fuel path fd st
  else URet tt.

Lemma ls_body_ok fuel path fd cs st w :
  w_open w fd = Some (cs, st) -> w_file w path = Some (cs, st) -> fit DIRENT_SIZE fuel cs ->
  exists w', run (ls_body fuel path fd st) w = (RRet tt, w') /\ adds w (ls_text (w_file w) path) [] w'.
Proof using.
  intros Ho Hp [Hr Hf]. unfold ls_text, ls_body. rewrite Hp. destruct (st_type st =? T_FILE).
  { destruct (printf_ok 1 (ls_line path st) w) as [w' H]. exists w'. split; [apply H|by eapply adds_out]. }
  destruct (st_type st =? T_DIR); [|exists w; split; [done|]; unfold adds; by rewrite !app_nil_r].
  destruct (512 <? _).
  - destruct (printf_ok 1 [Txt "ls: path too long"; NEWLINE] w) as [w' H]. exists w'. split; [apply H|by eapply adds_out].
  - destruct (ls_loop_ok fuel path fd cs st st w Ho Hr Hf) as (w' & o & H). exists w'. split; [apply H|by eapply adds_out].
Qed.

Lemma ls_ok fuel path w :
  (forall cs st, w_file w path = Some (cs, st) -> fit DIRENT_SIZE fuel cs) ->
  exists w', run (ls fuel path) w = (RRet tt, w') /\ adds w (ls_text (w_file w) path) (ls_errors (w_file w) path) w'.
Proof using.
  intros Hf. destruct (s_open w path) as (fd & w1 & E & F & U & Ho). unfold ls.
  destruct (w_file w path) as [[cs st]|] eqn:Ep.
  - destruct Ho as (Hfd & _ & O). destruct (s_fstat w1 fd cs st) as (w2 & E2 & F2 & O2 & U2); [by rewrite O, at_fd_eq|].
    destruct (ls_body_ok fuel path fd cs st w2) as (w3 & E3 & A3); [by rewrite O2, O, at_fd_eq|by rewrite F2, F|by eapply Hf|].
    destruct (s_close w3 fd) as (r & w4 & E4 & F4 & O4 & U4). exists w4. split.
    + rewrite (run_call _ _ _ _ _ E). replace (fd <? 0) with false by lia. rewrite (run_call _ _ _ _ _ E2). cbv iota beta.
      change (0 <? 0) with false. cbv iota. fold (ls_body fuel path fd st). rewrite run_bind, E3. by rewrite (run_call _ _ _ _ _ E4).
    + rewrite F2, F in A3. unfold ls_errors. rewrite Ep. eapply adds_same; [..|exact A3|exact F4|exact U4]; congruence.
  - destruct Ho as [-> O]. destruct (printf_ok 2 [Txt "ls: cannot open "; Str path; NEWLINE] w1) as [w2 [E2 F2 O2 U2]].
    exists w2. split; [rewrite (run_call _ _ _ _ _ E); exact E2|]. unfold adds, ls_text, ls_errors. rewrite Ep.
    split; [congruence|]. rewrite !U2, !U, app_nil_r. done.
Qed.

Lemma ls_all_ok fuel paths w :
  (forall a cs st, a ∈ paths -> w_file w a = Some (cs, st) -> fit DIRENT_SIZE fuel cs) ->
  exists w', run (u_for paths (ls fuel)) w = (RRet tt, w') /\
    adds w (paths ≫= ls_text (w_file w)) (paths ≫= ls_errors (w_file w)) w'.
Proof using.
  revert w. induction paths as [|a paths IH]; intros w Hf.
  { exists w. split; [done|]. unfold adds. simpl. by rewrite !app_nil_r. }
  destruct (ls_ok fuel a w) as (w1 & E1 & (F1 & U1 & U1')); [intros cs st; apply Hf, elem_of_cons; by left|].
  destruct (IH w1) as (w' & E' & (F' & U' & U'')); [intros a' cs st Ha; rewrite F1; apply Hf, elem_of_cons; by right|].
  exists w'. split; [cbn [u_for]; by rewrite run_bind, E1|]. unfold adds. rewrite F1 in *. cbn [mbind list_bind].
  split; [congruence|]. rewrite U', U'', U1, U1', <- !app_assoc. done.
Qed.
End Ls.

(** [ls] writes for each of its arguments, or for the working directory, one line with
    name, type, inode and size: for a file its own, for a directory one for each entry in use,
    in the order of the directory and with the name cut or filled to 14 bytes; what it cannot
    open or stat it reports, and goes on. *)
Theorem ls_lists {W} {k : Kernel W} {S : Streams W} (w : W) fuel argv :
  let paths := if (length argv <? 2)%nat then [[46]] else tail argv in
  (forall a cs st, a ∈ paths -> w_file w a = Some (cs, st) -> fit DIRENT_SIZE fuel cs) ->
  exists w', run (ls_main fuel argv) w = (RExit, w') /\
    w_out w' 1 = w_out w 1 ++ (paths ≫= ls_text (w_file w)) /\
    w_out w' 2 = w_out w 2 ++ (paths ≫= ls_errors (w_file w)).
Proof.
  intros paths Hf. destruct (ls_all_ok fuel paths w Hf) as (w' & E & (_ & U1 & U2)). exists w'. split; [|done].
  unfold ls_main. rewrite run_bind. unfold paths in *. destruct (length argv <? 2)%nat; [|by rewrite E].
  cbn [u_for] in E. rewrite run_bind in E. destruct (run (ls fuel [46]) w) as [[[]| |] w0]; by simplify_eq/=.
Qed.

(** ** A kernel for examples *)

Record world := World {
  wo_file : list Z -> option (stream * stat);
  wo_table : list (Z * option (stream * stat));
  wo_out : Z -> list Z }.

Fixpoint table_fun (l : list (Z * option (stream * stat))) : Z -> option (stream * stat) :=
  match l with [] => fun _ => None | (fd, x) :: l => at_fd fd x (table_fun l) end.
Definition fresh_fd (w : world) : Z := 1 + foldr (fun p n => Z.max p.1 n) 2 (wo_table w).
Definition set_fd (fd : Z) (x : option (stream * stat)) (w : world) : world := World (wo_file w) ((fd, x) :: wo_table w) (wo_out w).

Definition world_read (fd : Z) (w : world) : (Z * list Z) * world :=
  match table_fun (wo_table w) fd with
  | Some (cs, st) =>
      (match cs with Some l :: _ => (Z.of_nat (length l), l) | None :: _ => (-1, []) | [] => (0, []) end,
       set_fd fd (Some (tail cs, st)) w)
  | None => ((-1, []), w)
  end.

#[local] Instance world_kernel : Kernel world := fun X c w =>
  match c in sys X return X * world with
  | SRead fd _ => world_read fd w
  | SWrite fd l => (Z.of_nat (length l), World (wo_file w) (wo_table w) (at_fd fd (wo_out w fd ++ l) (wo_out w)))
  | SOpen path _ =>
      match wo_file w path with Some f => (fresh_fd w, set_fd (fresh_fd w) (Some f) w) | None => (-1, w) end
  | SClose fd => (0, set_fd fd None w)
  | SFstat fd => match table_fun (wo_table w) fd with Some (_, st) => ((0, st), w) | None => ((-1, Stat 0 0 0 0 0), w) end
  | SWaitx => ((-1, 0, 0), w)
  | SMknod _ _ _ | SMkdir _ | SUnlink _ | SLink _ _ | SDup _ | SFork | SExec _ _ | SWait | SKill _ | SSleep _ | SChpr _ => (-1, w)
  end.

Lemma table_fresh w : 0 <= fresh_fd w /\ table_fun (wo_table w) (fresh_fd w) = None.
Proof.
  unfold fresh_fd. set (m := foldr _ 2 _). assert (H : 2 <= m /\ forall fd, m < fd -> table_fun (wo_table w) fd = None).
  { unfold m. induction (wo_table w) as [|[fd x] l [IH1 IH2]]; simpl; [split; [lia|done]|].
    split; [lia|]. intros fd' H. rewrite at_fd_ne by lia. apply IH2. lia. }
  split; [lia|]. apply H. lia.
Qed.

#[local] Instance world_streams : Streams world.
Proof.
  refine {| w_file := wo_file; w_open := fun w => table_fun (wo_table w); w_out := wo_out |}.
  - intros w fd l. by eexists.
  - intros w fd n cs st E _. eexists. split; [unfold k_do, world_kernel, world_read; rewrite E; reflexivity|]. done.
  - intros w path. destruct (table_fresh w) as [H0 Hn]. unfold k_do, world_kernel.
    destruct (wo_file w path) as [f|].
    + exists (fresh_fd w), (set_fd (fresh_fd w) (Some f) w). do 4 (split; [done|]). split; [exact Hn|done].
    + by exists (-1), w.
  - intros w fd. by eexists _, _.
  - intros w fd cs st E. eexists. split; [unfold k_do, world_kernel; rewrite E; reflexivity|]. done.
Defined.

(** A file of two reads, the second of which ends a word of the first; a directory with one
    entry in use. *)
Definition stat_of (ty ino size : Z) : stat := Stat 1 ino ty 1 size.
Definition sample_world : world :=
  World (fun p => if bool_decide (p = [97]) then Some ([Some [104; 105; 32; 116]; Some [111; 10]], stat_of T_FILE 5 6)
                  else if bool_decide (p = [46; 47; 97]) then Some ([Some [104; 105]], stat_of T_FILE 5 6)
                  else if bool_decide (p = [46]) then
                    Some ([Some (replicate 16 0); Some ([5; 0; 97] ++ replicate 13 0)], stat_of T_DIR 1 32)
                  else None)
    [(0, Some ([], stat_of 3 2 0))] (fun _ => []).

Lemma sample_fit a cs st : w_file sample_world a = Some (cs, st) -> fit 512 9 cs /\ Z.of_nat (length (received cs).1) < 2147483648.
Proof.
  simpl. repeat case_bool_decide; intros [= <- <-]; (split; [split; [repeat constructor; simpl; lia|simpl; lia]|by vm_compute]).
Qed.
Lemma sample_stdin cs st : w_open sample_world 0 = Some (cs, st) -> fit 512 9 cs /\ Z.of_nat (length (received cs).1) < 2147483648.
Proof. intros [= <- <-]. split; [split; [constructor|simpl; lia]|by vm_compute]. Qed.

Lemma wc_counts_witness :
  exists w', run (wc_main 9 [codes "wc"; [97]]) sample_world = (RExit, w') /\ w_out w' 1 = codes "1 2 6 a" ++ [10].
Proof.
  destruct (wc_counts sample_world 9 [codes "wc"; [97]]) as (w' & E & U & _).
  - intros a cs st _. apply sample_fit.
  - apply sample_stdin.
  - by eexists.
  - exists w'. split; [exact E|]. rewrite U. by vm_compute.
Defined.

Lemma cat_copies_witness :
  exists w', run (cat_main 9 [codes "cat"; [97]; [98]]) sample_world = (RExit, w') /\
    w_out w' 1 = codes "hi to" ++ [10] ++ codes "cat: cannot open b" ++ [10].
Proof.
  destruct (cat_copies sample_world 9 [codes "cat"; [97]; [98]]) as (w' & E & U & _).
  - intros a cs st _ H. by apply sample_fit in H as [? _].
  - intros cs st H. by apply sample_stdin in H as [? _].
  - by eexists.
  - exists w'. split; [exact E|]. rewrite U. by vm_compute.
Defined.

Lemma ls_lists_witness :
  exists w', run (ls_main 9 [codes "ls"]) sample_world = (RExit, w') /\
    w_out w' 1 = codes "a              2 5 6" ++ [10] /\ w_out w' 2 = [].
Proof.
  destruct (ls_lists sample_world 9 [codes "ls"]) as (w' & E & U1 & U2).
  - intros a cs st Ha. assert (a = [46]) as -> by by apply list_elem_of_singleton in Ha. intros H.
    assert (H' : w_file sample_world [46] = Some ([Some (replicate 16 0); Some ([5; 0; 97] ++ replicate 13 0)], stat_of T_DIR 1 32)) by reflexivity.
    rewrite H' in H. injection H as <- <-. split; [|simpl; lia]. do 2 (apply Forall_cons; split; [by vm_compute|]). constructor.
  - exists w'. split; [exact E|]. rewrite U1, U2. split; by vm_compute.
Defined.
